(* ===== verification/_CoqProject ===== *)
-Q . S2P
Prelude.v
JsString.v
Regex.v
JsNumber.v
JsNumberFacts.v
Part.v
Semver.v
Assembly.v
MatcherTypes.v
Constraints.v
Solver.v
PlanOrder.v
WireFacts.v
SearchFacts.v
SolverSafety.v
PartsSpec.v
WiringSpec.v
MatcherSpec.v
NarrowSearch.v
MatcherWitness.v
RegistryPower.v
Rules.v
RulesSpec.v
Catalogue.v
Json.v
RegistryLoad.v
RegistryWitness.v
Spec.v
Decide.v
DecideSpec.v
Policy.v
Effects.v
Llm.v
LlmCall.v
LlmCallSpec.v
LlmTools.v
Db.v
Chat.v
Turn.v
Handler.v
HandlerSpec.v
Conversation.v
IntakeWitness.v
Auth.v
AuthSpec.v
SessionFamily.v
Ledger.v
Scheduler.v
RateLimit.v
ClientDb.v
Cookies.v
Access.v
Http.v
Plans.v
PlansSpec.v
JsDate.v
Telemetry.v
TelemetrySpec.v
Candidate.v
CandidateSpec.v
Firmware.v
FirmwareSpec.v
Provision.v
ProvisionSpec.v
Jpeg.v
Observations.v
Maintain.v
ObservationSpec.v
Leases.v
Sse.v
SseSpec.v
SseOrder.v
Transcript.v
Portal.v
PortalSpec.v
PortalWitness.v
CloudlinkWitness.v
PlansWitness.v
FirmwareWitness.v
GatewayWitness.v
