(* ===== verification/Prelude.v ===== *)
(** * Albus Forge: a verification development

    Albus Forge turns a plain-language ask for a small device into a checked
    build. This library models the parts of its TypeScript services that decide
    something, and proves what makes each of them correct.

    ** The program, and where each part is modelled

    - The registry ([registry/scripts]): part definitions in JSON, validated and
      loaded into [registry.parts]. [Part] is the schema ([packages/schema/src/
      part.ts]); [Assembly] the connectors, assembly profiles and build plans
      ([connector.ts], [build-plan.ts]); [Rules] the rules of [lib/rules.ts];
      [RegistryPower] the power paths of [lib/power.ts]; [Semver] the version
      order; [Catalogue] the prompt's catalogue ([catalogue.ts]); [RegistryLoad]
      the load job ([load.ts]); [Json] JSON values and their canonical text.
    - The matcher ([apps/matcher/src]): [MatcherTypes] (input, plan order,
      explanation), [Constraints] ([checkParts], [powerBudget], [wire]) and
      [Solver] ([solve]), a search with a step budget in an error-and-state
      monad.
    - Intake ([apps/intake/src]): [Spec] (the device spec and the model's turn),
      [Decide] ([decide.ts], [replies.ts]), [Policy] ([policy.ts]), [Turn]
      ([turn.ts], [prompts.ts]) and [Handler] ([handler.ts]).
    - Model calls ([packages/llm/src]): [Llm] (requests, prices, metering),
      [LlmCall] ([callStructured]), [LlmTools] ([runToolLoop]).
    - The gateway ([apps/gateway/src]): [Chat] ([chat-store.ts]), [Auth]
      ([auth-store.ts]), [Cookies] ([session-cookie.ts], [owner.ts]), [Access]
      ([session.ts], [authorized-read.ts], [authorized-write.ts]), [Scheduler]
      ([intake.ts]), [RateLimit] ([rate-limit.ts]), [Sse] and the registry half
      of [Leases] ([sse.ts]), [Http] (what the routes share around their
      transactions), [Plans] ([build-plan-store.ts]), with its routes
      ([firmware-routes.ts]) [Firmware], and [Provision]
      ([device-provisioning-store.ts], [device-credential.ts],
      [provisioning-*.ts]).
    - Codegen ([apps/codegen/src]), where accepted plans become firmware:
      [Candidate] ([candidate.ts], [camera-candidate.ts],
      [accepted-candidate.ts], [plan.ts]) says which plans a compiler takes and
      what it is given; [Firmware] also holds the worker ([job.ts]) and the
      artifact store ([artifacts.ts]).
    - Cloudlink ([apps/cloudlink/src]), where devices send: [Telemetry]
      ([routes.ts], [device-auth.ts]), [Jpeg] ([jpeg.ts]), [Observations]
      ([observations.ts]), the payload half of [Leases]; [Maintain] is the worker
      of [apps/observation-maintain], and lets uploads and worker interleave
      around one database and one object store. [JsDate] is the
      calendar of usage days and months.
    - The web portal ([apps/web/src]): [Transcript] ([lib/build-transcript.ts])
      and [Portal] ([components/build/conversation.ts]), a build's page.
    - The database ([packages/db/src]): [Db] (the tables both services use),
      [ClientDb] ([client.ts], [managed-transaction.ts]).

    They interact as follows. A browser's message goes to [Chat]; [Scheduler]
    asks intake for a turn; [Handler] takes the build's lock, reads the
    transcript, runs [Turn], which screens the message ([Policy]), reads the
    catalogue ([Catalogue]), calls the model ([LlmCall]) and decides ([Decide]),
    and writes the reply and the spec. [Conversation] puts [Chat], [Handler] and
    [Decide] together over the shared tables. A settled spec goes through
    [fromIntakeSpec] ([MatcherTypes]) to [Solver] when [Plans] solves it against
    the registry; an accepted plan is compiled by a worker that claims the
    version asked for, uploads its files and publishes them ([Firmware]), and a
    device is claimed for what passed ([Provision]), whose token [Telemetry] and
    [Observations] then accept. Each model call is metered ([Llm]) into rows a sign-in may be claiming ([Ledger], with [Auth]). A
    request acts for whom [Cookies] and [Access] say, on connections leased
    through [ClientDb]. The page of [Portal] submits to [Chat] and is fed by a
    stream of [Sse], which polls the tables and holds a lease of the stream
    registry; [Leases] states what a pool of leases promises, as a class with
    the registry and cloudlink's payload admission as instances, and [SseSpec]
    what a source of batches promises a stream, with [Chat] as its instance.
    A device's packet is one transaction of [Telemetry]; its image is framed by
    [Jpeg] and goes through three steps of [Observations], with the object store
    between them, while [Maintain] settles, expires and deletes.

    ** How code is modelled

    Pure code is a function of the same name. Code that throws returns [result]
    or [option]; the solver's loops thread their state in its monad. Code that
    awaits the outside world is a [prog] of [Effects]: a tree of operations, each
    answered in any way the world can answer, rejections included, so that a
    theorem over [runs] holds against every provider, database and clock. A
    transaction that holds its lock from its first read to its commit is a
    function of the tables; where statements of two transactions interleave
    ([Ledger]) they are steps of a relation. Long-lived objects shared by many
    calls ([Conversation], [Scheduler], [ClientDb]) are state machines with
    invariants by rule induction.

    Numbers of the matcher and of prices are binary64 ([JsNumber], over
    [SpecFloat]), with the rounding the runtime does. Strings are lists of code
    units below 256, and [toLowerCase] and [trim] cover those; a text constant
    outside ASCII is its UTF-8 bytes. Regular expressions are matched by
    derivatives ([Regex]). Timestamps of the database are in microseconds,
    [Date]s in milliseconds.

    Parameters of the model are the runtime's JSON parser and Unicode
    normaliser, the schema library's URL check, SHA-256, the UUID formats, the
    image decoder, random bytes, and the answers of every operation. No theorem
    assumes more of them than its statement says; [ObservationSpec] takes two
    different payloads to have different fingerprints where it compares them, and
    [Maintain] a deletion the worker gave up on to have failed.

    ** What is shown

    - The matcher ([MatcherSpec], [SolverSafety], [PartsSpec], [NarrowSearch]):
      solutions are assemblies that meet the whole request, ranked, and none
      that ranks better is left out; conflicts are minimal; the step budget bounds every solve; no
      lookup fails on accepted input. [SearchFacts] compares the search with a
      reference enumeration of subsets, [WireFacts] and [WiringSpec] say what a
      wiring is, and [NarrowSearch] that a plan is found again when only its own
      parts are searched.
    - The registry ([RulesSpec], [RegistryLoad], [RegistryPower], [Catalogue]):
      validation reports nothing exactly for a valid registry, loads never
      change a stored version, power paths and the catalogue do not depend on
      order. Plan identities forget key order only ([Json]).
    - Intake ([DecideSpec], [Turn], [HandlerSpec]): every decided spec is one
      the schema accepts, in the vocabulary, asking at most one question; every
      outcome of a turn is explained by what it read; the person's words never
      reach a system prompt or system message; replies are written under the
      lock, at most three per call, one per reading.
    - Conversations ([Conversation]): however submissions and answers interleave,
      a message gets at most one reply, directly after it, and at most four
      specs ever ask.
    - Model calls ([LlmCallSpec], [LlmTools]): bounded loops, the result is the
      one the responses justify, no request without a reading of the ceiling and
      the signal, no response unmetered.
    - Accounts ([AuthSpec], [SessionFamily], [Access], [Cookies], [Ledger]):
      guesses are bounded over any history, a sign-in is complete, a sign-out
      ends the whole family on every path, the three guards agree, tokens read back, and no
      metered call is left behind by a claim.
    - The gateway's machinery ([Chat], [Scheduler], [RateLimit],
      [ClientDb]): builds are created once, cursors order as the database does,
      triggers are served, the limiter equals one that forgets nothing, closed
      connections are clean.
    - The page ([SseSpec], [SseOrder], [Transcript], [PortalSpec], [Leases]): a
      stream delivers every message of every snapshot it polled, each once, when
      none becomes visible later than the lookback, announces the build's state
      first and each change of it, and ends once; over an append-only store it is the log itself; the page it
      feeds shows the transcript in the database's order; a repeated send is
      stored once; streams are bounded per owner.
    - Cloudlink ([TelemetrySpec], [Jpeg], [ObservationSpec]): the telemetry
      tables are views of the log of accepted packets, a retry gets its receipt
      again; the marker walk is the JPEG grammar; daily quotas hold, and stored
      media stay stored, however uploads and the worker interleave.
    - Plans ([PlansSpec]): however solves, acceptances, specs and registry
      changes interleave, stored plans change only by their one acceptance; what
      is accepted is an assembly of the registry as it is then, and a plan just
      stored can be accepted.
    - Firmware ([CandidateSpec], [FirmwareSpec]): the compiler takes exactly the
      reviewed wirings and nothing of an edit but its number; however requests,
      retries and workers interleave, versions stay in order, what passed is what
      the accepted plan asked for and downloads whole for ever, the page loads, a
      repeated request is answered alike, and no version is stuck.
    - Provisioning ([ProvisionSpec]): however claims, downloads, replacements and
      revocations interleave with the rest, a device is made for firmware that
      passed for the plan accepted then, its configuration is handed over at most
      once per version and only to the session family it was issued to, and a
      revoked device stays revoked.
    [MatcherWitness], [RegistryWitness], [IntakeWitness], [GatewayWitness],
    [PlansWitness], [FirmwareWitness], [PortalWitness] and [CloudlinkWitness]
    apply the theorems to concrete inputs.

    ** Fuel and bounds

    [solve]'s recursion is structural; its steps are the program's own budget.
    [callStructured] runs on six iterations, and [callStructured_bounded] shows
    that it never needs more. [runOnce] needs two ([runOnce_ends]). [handleTurn]
    takes a fuel for how often the lock is taken, since the code's outer loop
    runs as long as messages keep arriving within its budget; its theorem holds
    for every fuel and says when it was spent. The recursive session queries run
    one step per row, enough for parents stored before their children
    ([SessionFamily.forest]). [renderTemplate] runs one step per character.

    ** Not modelled

    Log lines, HTTP and mail plumbing, configuration, and the SQL the services
    only pass on; the rendering of the web portal; the processes around the
    compilers and the object store's SDK; firmware and infrastructure, which are
    other languages. Of the gateway, client addresses and trace contexts, device
    setup pages and the telemetry pages, which are aggregates in SQL; of intake, its catalogue
    cache and error classification; sensor questions ([apps/ask]), which are the
    tool loop of [LlmTools] over SQL. *)
From Stdlib Require Export ZArith Lia Sorted Permutation.
From stdpp Require Export base sets list strings numbers decidable sorting.
#[export] Set Default Proof Using "Type".

(** ** Notations and scopes *)

Declare Scope forge_scope.
Delimit Scope forge_scope with forge.
Open Scope forge_scope.

(** A computation that either returns or throws: [Ok v] or [Err e]. *)
Inductive result (E A : Type) : Type :=
| Ok (v : A)
| Err (e : E).
Arguments Ok {E A} v.
Arguments Err {E A} e.

Definition rbind {E A B} (m : result E A) (k : A -> result E B) : result E B :=
  match m with Ok v => k v | Err e => Err e end.

Notation "'let!' x ':=' m 'in' k" := (rbind m (fun x => k))
  (at level 10, x pattern, k at level 200) : forge_scope.

Lemma rbind_ok {E A B} (m : result E A) (k : A -> result E B) b : rbind m k = Ok b <-> exists a, m = Ok a /\ k a = Ok b.
Proof. destruct m; simpl; split; naive_solver. Qed.

(** ** Tactics *)

(** Splits every boolean connective in the context and in the goal. *)
Ltac bools :=
  repeat match goal with
  | H : _ && _ = true |- _ => apply andb_true_iff in H; destruct H
  | H : _ || _ = false |- _ => apply orb_false_iff in H; destruct H
  | H : negb _ = true |- _ => apply negb_true_iff in H
  | H : negb _ = false |- _ => apply negb_false_iff in H
  | H : bool_decide _ = true |- _ => apply bool_decide_eq_true in H
  | H : bool_decide _ = false |- _ => apply bool_decide_eq_false in H
  end.

(** Case analysis on the scrutinee of a [match] or [if]. *)
Ltac case_on :=
  match goal with
  | |- context [match ?x with _ => _ end] =>
      lazymatch x with context [match _ with _ => _ end] => fail | _ => destruct x eqn:? end
  end.
Ltac case_in H :=
  match type of H with
  | context [match ?x with _ => _ end] =>
      lazymatch x with context [match _ with _ => _ end] => fail | _ => destruct x eqn:? end
  end.

Create HintDb forge discriminated.

(** ** JavaScript collections, as lists in insertion order *)

Section Uniq.
Context {A : Type} `{EqDecision A}.

(** [[...new Set(xs)]]: the first occurrence of each value, in order. *)
Fixpoint uniq (l : list A) : list A :=
  match l with
  | [] => []
  | x :: l => x :: filter (fun y => y <> x) (uniq l)
  end.

(** [new Set(xs).size === xs.length] *)
Definition all_distinct (l : list A) : bool := Nat.eqb (length (uniq l)) (length l).

Definition inb (x : A) (l : list A) : bool := bool_decide (x ∈ l).

Lemma inb_true x l : inb x l = true <-> x ∈ l.
Proof. apply bool_decide_eq_true. Qed.

Lemma inb_false x l : inb x l = false <-> x ∉ l.
Proof. apply bool_decide_eq_false. Qed.

Lemma elem_of_uniq x l : x ∈ uniq l <-> x ∈ l.
Proof.
  induction l as [|y l IH]; simpl; [done|].
  rewrite !elem_of_cons, list_elem_of_filter, IH.
  destruct (decide (x = y)); naive_solver.
Qed.

Lemma NoDup_uniq l : NoDup (uniq l).
Proof.
  induction l as [|y l IH]; simpl; constructor.
  - rewrite list_elem_of_filter. naive_solver.
  - by apply NoDup_filter.
Qed.

Lemma filter_all (P : A -> Prop) `{!forall x, Decision (P x)} l :
  Forall P l -> filter P l = l.
Proof. induction 1; [done|]. rewrite filter_cons_True by done. by f_equal. Qed.

Lemma uniq_id l : NoDup l -> uniq l = l.
Proof.
  induction 1 as [|x l Hx Hl IH]; simpl; [done|]. rewrite IH. f_equal.
  apply filter_all, Forall_forall. intros y Hy ->. done.
Qed.

Lemma uniq_length_le l : length (uniq l) <= length l.
Proof.
  induction l as [|x l IH]; simpl; [lia|].
  assert (length (filter (fun y => y <> x) (uniq l)) <= length (uniq l))
    by apply length_filter. lia.
Qed.

Lemma all_distinct_true l : all_distinct l = true <-> NoDup l.
Proof.
  unfold all_distinct. rewrite Nat.eqb_eq. split; [|intros H; by rewrite uniq_id].
  induction l as [|x l IH]; simpl; [constructor|].
  intros H. pose proof (uniq_length_le l).
  pose proof (length_filter (fun y => y <> x) (uniq l)).
  assert (Hf : length (filter (fun y => y <> x) (uniq l)) = length (uniq l)) by lia.
  constructor; [|apply IH; lia].
  intros Hx%elem_of_uniq.
  assert (Hlt : length (filter (fun y => y <> x) (uniq l)) < length (uniq l)); [|lia].
  clear -Hx. induction (uniq l) as [|y u IHu]; [by apply elem_of_nil in Hx|].
  rewrite filter_cons. pose proof (length_filter (fun y => y <> x) u).
  case_decide as Hd; simpl; [|lia].
  apply elem_of_cons in Hx as [->|Hx]; [done|]. specialize (IHu Hx). lia.
Qed.

Lemma uniq_idemp l : uniq (uniq l) = uniq l.
Proof. apply uniq_id, NoDup_uniq. Qed.
End Uniq.

#[export] Hint Resolve NoDup_uniq : forge.
#[export] Hint Rewrite @elem_of_uniq @inb_true : forge.

(** ** [Array.prototype.sort]

    ECMAScript requires a stable sort whose result is determined by any
    consistent comparator; insertion sort is its executable definition here.
    [gt x y] stands for [compare(x, y) > 0]. *)

Section JsSort.
Context {A : Type} (gt : A -> A -> bool).

Fixpoint js_insert (x : A) (l : list A) : list A :=
  match l with
  | [] => [x]
  | y :: l => if gt x y then y :: js_insert x l else x :: y :: l
  end.

Definition js_sort (l : list A) : list A := foldr js_insert [] l.

Definition le_of (x y : A) : Prop := gt x y = false.

Lemma js_insert_perm x l : js_insert x l ≡ₚ x :: l.
Proof.
  induction l as [|y l IH]; simpl; [done|].
  case_match; [|done]. rewrite IH. apply Permutation_swap.
Qed.

Lemma js_sort_perm l : js_sort l ≡ₚ l.
Proof. induction l as [|x l IH]; simpl; [done|]. by rewrite js_insert_perm, IH. Qed.

Lemma elem_of_js_sort x l : x ∈ js_sort l <-> x ∈ l.
Proof. by rewrite js_sort_perm. Qed.

Lemma length_js_sort l : length (js_sort l) = length l.
Proof. apply Permutation_length, js_sort_perm. Qed.

(** The comparator is a total preorder on the elements of [P]. *)
Record total_preorder_on (P : A -> Prop) : Prop := {
  tpo_total : forall x y, P x -> P y -> le_of x y \/ le_of y x;
  tpo_trans : forall x y z, P x -> P y -> P z -> le_of x y -> le_of y z -> le_of x z
}.

Context (P : A -> Prop) (Hord : total_preorder_on P).

Lemma js_insert_sorted x l :
  P x -> Forall P l -> StronglySorted le_of l -> StronglySorted le_of (js_insert x l).
Proof using Hord.
  intros Hx Hl Hs. induction Hs as [|y l Hs IH Hy]; simpl; [repeat constructor|].
  inv Hl. destruct (gt x y) eqn:E.
  - constructor; [by apply IH|]. apply Forall_forall. intros z.
    rewrite js_insert_perm, elem_of_cons. intros [->|Hz].
    + destruct (tpo_total _ Hord x y) as [Hle|Hle]; [done..| |done].
      unfold le_of in Hle. congruence.
    + rewrite Forall_forall in Hy. by apply Hy.
  - constructor; [by constructor|]. constructor; [done|].
    apply Forall_forall. intros z Hz. rewrite Forall_forall in Hy.
    eapply (tpo_trans _ Hord x y z); try done; [|by apply Hy].
    match goal with H : Forall P l |- _ => rewrite Forall_forall in H; by apply H end.
Qed.

Lemma js_sort_sorted l : Forall P l -> StronglySorted le_of (js_sort l).
Proof using Hord.
  induction 1 as [|x l Hx Hl IH]; simpl; [constructor|].
  apply js_insert_sorted; [done| |done].
  apply Forall_forall. intros y Hy. rewrite elem_of_js_sort in Hy.
  rewrite Forall_forall in Hl. by apply Hl.
Qed.

(** Two sorted permutations agree when ties are equalities. *)
Lemma sorted_unique l1 l2 :
  (forall x y, x ∈ l1 -> y ∈ l1 -> le_of x y -> le_of y x -> x = y) ->
  StronglySorted le_of l1 -> StronglySorted le_of l2 -> l1 ≡ₚ l2 -> l1 = l2.
Proof using Type.
  intros Hanti Hs1. revert l2 Hanti.
  induction Hs1 as [|x l1 Hs1 IH Hx]; intros l2 Hanti Hs2 Hp.
  { by apply Permutation_nil in Hp. }
  destruct Hs2 as [|y l2 Hs2 Hy].
  { by apply Permutation_sym, Permutation_nil in Hp. }
  assert (x = y) as ->.
  { assert (Hxy : x ∈ y :: l2) by (rewrite <- Hp; left).
    assert (Hyx : y ∈ x :: l1) by (rewrite Hp; left).
    apply elem_of_cons in Hxy as [->|Hxy]; [done|].
    apply elem_of_cons in Hyx as [->|Hyx]; [done|].
    rewrite Forall_forall in Hx, Hy. apply Hanti; [by left|by right|auto..]. }
  f_equal. apply IH; [|done|by apply Permutation_cons_inv in Hp].
  intros a b Ha Hb. apply Hanti; by right.
Qed.

Lemma js_sort_id l : StronglySorted le_of l -> js_sort l = l.
Proof using Type.
  induction 1 as [|x l Hs IH Hx]; simpl; [done|]. rewrite IH.
  destruct Hx as [|y l Hxy]; simpl; [done|]. by rewrite Hxy.
Qed.

(** The sort of a sublist is a sublist of the sort. *)
Lemma js_insert_sublist x l1 l2 :
  P x -> Forall P l2 -> StronglySorted le_of l2 -> l1 `sublist_of` l2 -> js_insert x l1 `sublist_of` js_insert x l2.
Proof using Hord.
  intros Hx Hl Hs Hsub. induction Hsub as [|y l1 l2 Hsub IH|y l1 l2 Hsub IH]; simpl.
  - done.
  - apply StronglySorted_inv in Hs as [Hs _]. apply Forall_cons in Hl as [_ Hl].
    destruct (gt x y); [apply sublist_skip; auto|by repeat apply sublist_skip].
  - apply StronglySorted_inv in Hs as [Hs Hy]. apply Forall_cons in Hl as [HPy Hl].
    destruct (gt x y) eqn:E; [apply sublist_cons; auto|].
    replace (js_insert x l1) with (x :: l1); [by apply sublist_skip, sublist_cons|].
    destruct l1 as [|z l1]; simpl; [done|].
    assert (Hz : z ∈ l2) by (eapply elem_of_sublist; [left|exact Hsub]).
    rewrite Forall_forall in Hy, Hl. by rewrite (tpo_trans _ Hord x y z Hx HPy (Hl z Hz) E (Hy z Hz)).
Qed.

Lemma js_sort_sublist l1 l2 : Forall P l2 -> l1 `sublist_of` l2 -> js_sort l1 `sublist_of` js_sort l2.
Proof using Hord.
  intros Hl Hsub. induction Hsub as [|x l1 l2 Hsub IH|x l1 l2 Hsub IH]; simpl; [done|..]; apply Forall_cons in Hl as [Hx Hl].
  - apply js_insert_sublist; [done| |by apply js_sort_sorted|by apply IH]. by rewrite js_sort_perm.
  - etransitivity; [by apply IH|]. generalize (js_sort l2). intros l. induction l as [|y l IHl]; simpl; [by apply sublist_cons|].
    destruct (gt x y); [by apply sublist_skip|by apply sublist_cons].
Qed.

(** Sorting and filtering commute. *)
Lemma js_insert_filter (f : A -> bool) x l :
  P x -> Forall P l -> StronglySorted le_of l ->
  List.filter f (js_insert x l) = if f x then js_insert x (List.filter f l) else List.filter f l.
Proof using Hord.
  intros Hx Hl Hs. induction Hs as [|y l Hs IH Hy]; simpl; [by destruct (f x)|]. apply Forall_cons in Hl as [HPy Hl].
  destruct (gt x y) eqn:E; simpl.
  - rewrite IH by done. destruct (f y), (f x); simpl; by rewrite ?E.
  - destruct (f x), (f y); simpl; rewrite ?E; try done. clear IH Hs. induction l as [|z l IHl]; simpl; [done|].
    apply Forall_cons in Hy as [Hyz Hy], Hl as [HPz Hl]. destruct (f z); [|by apply IHl].
    simpl. by rewrite (tpo_trans _ Hord x y z Hx HPy HPz E Hyz).
Qed.

Lemma js_sort_filter (f : A -> bool) l : Forall P l -> List.filter f (js_sort l) = js_sort (List.filter f l).
Proof using Hord.
  induction 1 as [|x l Hx Hl IH]; simpl; [done|]. rewrite js_insert_filter; [|done|by rewrite js_sort_perm|by apply js_sort_sorted].
  rewrite IH. by destruct (f x).
Qed.
End JsSort.

#[export] Hint Rewrite @elem_of_js_sort @length_js_sort : forge.

(** Sorting is insensitive to the order of its input when ties are equalities. *)
Lemma js_sort_perm_invariant {A} (gt : A -> A -> bool) (l1 l2 : list A) :
  total_preorder_on gt (fun x => x ∈ l1) ->
  (forall x y, x ∈ l1 -> y ∈ l1 -> le_of gt x y -> le_of gt y x -> x = y) ->
  l1 ≡ₚ l2 -> js_sort gt l1 = js_sort gt l2.
Proof.
  intros Hord Hanti Hp. apply sorted_unique with gt.
  - intros x y. rewrite !elem_of_js_sort. apply Hanti.
  - eapply js_sort_sorted; [done|]. by apply Forall_forall.
  - eapply js_sort_sorted; [done|]. apply Forall_forall. intros x. by rewrite Hp.
  - by rewrite !js_sort_perm.
Qed.

(** ** [Map], in insertion order

    [map.set] keeps the position of a key that is already there. *)
Section JsMap.
Context {K V : Type} `{EqDecision K}.

Fixpoint map_get (k : K) (m : list (K * V)) : option V :=
  match m with
  | [] => None
  | (k', v) :: m => if decide (k = k') then Some v else map_get k m
  end.

Fixpoint map_set (k : K) (v : V) (m : list (K * V)) : list (K * V) :=
  match m with
  | [] => [(k, v)]
  | (k', v') :: m => if decide (k = k') then (k', v) :: m else (k', v') :: map_set k v m
  end.

Definition map_has (k : K) (m : list (K * V)) : bool :=
  match map_get k m with Some _ => true | None => false end.

Lemma map_get_set_eq k v m : map_get k (map_set k v m) = Some v.
Proof.
  induction m as [|[k' v'] m IH]; csimpl; [by rewrite decide_True|].
  case_decide; csimpl; [by rewrite decide_True | by rewrite decide_False].
Qed.

Lemma map_get_set_ne k k' v m : k <> k' -> map_get k (map_set k' v m) = map_get k m.
Proof.
  intros Hne. induction m as [|[k2 v2] m IH]; csimpl; [by rewrite decide_False|].
  repeat case_decide; csimpl; repeat case_decide; congruence || done.
Qed.

Lemma map_get_Some_elem k v m : map_get k m = Some v -> (k, v) ∈ m.
Proof.
  induction m as [|[k' v'] m IH]; csimpl; [done|]. case_decide; intros Hg; subst.
  - simplify_eq. left.
  - right; auto.
Qed.

Lemma map_get_None_iff k m : map_get k m = None <-> k ∉ m.*1.
Proof.
  induction m as [|[k' v'] m IH]; csimpl; [rewrite elem_of_nil; naive_solver|].
  rewrite elem_of_cons. case_decide; naive_solver.
Qed.

Lemma map_get_is_Some_iff k m : is_Some (map_get k m) <-> k ∈ m.*1.
Proof.
  rewrite <- not_eq_None_Some, map_get_None_iff.
  destruct (decide (k ∈ m.*1)); naive_solver.
Qed.

Lemma map_set_keys k v m : (map_set k v m).*1 = if map_has k m then m.*1 else m.*1 ++ [k].
Proof.
  unfold map_has. induction m as [|[k' v'] m IH]; csimpl; [done|].
  case_decide; csimpl; subst; [done|]. rewrite IH. by case_match.
Qed.

Lemma map_set_keys_NoDup k v m : NoDup m.*1 -> NoDup (map_set k v m).*1.
Proof.
  intros Hm. rewrite map_set_keys. unfold map_has.
  destruct (map_get k m) eqn:E; [done|]. apply map_get_None_iff in E.
  apply NoDup_app. split_and!; [done| |apply NoDup_singleton].
  intros x Hx Hk. apply list_elem_of_singleton in Hk. by subst.
Qed.

Lemma map_get_elem_NoDup k v m : NoDup m.*1 -> (k, v) ∈ m -> map_get k m = Some v.
Proof.
  induction m as [|[k' v'] m IH]; csimpl; [by intros _ ?%elem_of_nil|].
  intros Hnd He. apply NoDup_cons in Hnd as [Hk Hnd].
  apply elem_of_cons in He as [[= -> ->]|He]; [by rewrite decide_True|].
  rewrite decide_False; [by apply IH|]. intros ->. apply Hk.
  apply (list_elem_of_fmap_2 fst) in He. done.
Qed.
End JsMap.

#[export] Hint Resolve map_get_set_eq map_set_keys_NoDup map_get_elem_NoDup : forge.

(** ** List lemmas the components share *)

Lemma NoDup_fmap_elem {A B} (f : A -> B) l x y : NoDup (f <$> l) -> x ∈ l -> y ∈ l -> f x = f y -> x = y.
Proof.
  intros Hn [i Hi]%list_elem_of_lookup [j Hj]%list_elem_of_lookup E.
  assert (i = j) as ->; [|congruence]. apply (NoDup_lookup (f <$> l) i j (f x)); [done| |]; rewrite list_lookup_fmap; [by rewrite Hi|].
  rewrite Hj. simpl. by rewrite E.
Qed.

Lemma find_Some_elem {A} (f : A -> bool) l x : List.find f l = Some x -> x ∈ l /\ f x = true.
Proof. intros H. apply List.find_some in H. by rewrite list_elem_of_In. Qed.

Lemma find_ext {A} (f g : A -> bool) l : (forall x, f x = g x) -> List.find f l = List.find g l.
Proof. intros H. induction l as [|x l IH]; simpl; [done|]. by rewrite H, IH. Qed.

Lemma find_None_forall {A} (f : A -> bool) l :
  List.find f l = None <-> forall x, x ∈ l -> f x = false.
Proof.
  split.
  - intros H x. rewrite list_elem_of_In. eapply List.find_none; eauto.
  - intros H. destruct (List.find f l) eqn:E; [|done].
    apply find_Some_elem in E as [He Hf]. rewrite H in Hf; done.
Qed.

Lemma existsb_elem {A} (f : A -> bool) l : existsb f l = true <-> exists x, x ∈ l /\ f x = true.
Proof. rewrite List.existsb_exists. by setoid_rewrite list_elem_of_In. Qed.

Lemma existsb_elem_false {A} (f : A -> bool) l :
  existsb f l = false <-> forall x, x ∈ l -> f x = false.
Proof.
  rewrite <- not_true_iff_false, existsb_elem. split.
  - intros H x Hx. apply not_true_iff_false. naive_solver.
  - intros H [x [Hx Hf]]. by rewrite H in Hf.
Qed.

Lemma forallb_elem {A} (f : A -> bool) l : forallb f l = true <-> forall x, x ∈ l -> f x = true.
Proof. rewrite List.forallb_forall. by setoid_rewrite list_elem_of_In. Qed.

Lemma flat_map_nil {A B} (f : A -> list B) l :
  List.flat_map f l = [] <-> forall x, x ∈ l -> f x = [].
Proof.
  induction l as [|a l IH]; csimpl; [split; [by intros _ x ?%elem_of_nil|done]|].
  rewrite app_nil, IH. setoid_rewrite elem_of_cons. naive_solver.
Qed.

Lemma elem_of_flat_map {A B} (f : A -> list B) l y :
  y ∈ List.flat_map f l <-> exists x, x ∈ l /\ y ∈ f x.
Proof.
  rewrite list_elem_of_In, List.in_flat_map. by setoid_rewrite list_elem_of_In.
Qed.

Lemma elem_of_listfilter {A} (f : A -> bool) l x : x ∈ List.filter f l <-> x ∈ l /\ f x = true.
Proof. by rewrite list_elem_of_In, List.filter_In, <- list_elem_of_In. Qed.

Lemma listfilter_perm {A} (f : A -> bool) l1 l2 : l1 ≡ₚ l2 -> List.filter f l1 ≡ₚ List.filter f l2.
Proof.
  intros Hp. induction Hp; simpl; repeat case_match;
    eauto using Permutation_refl, perm_skip, perm_swap, Permutation_trans.
Qed.

(** [xs.slice(-n)] *)
Definition last_n {A} (n : nat) (l : list A) : list A := drop (length l - n) l.

Lemma last_n_length {A} n (l : list A) : length (last_n n l) = min n (length l).
Proof. unfold last_n. rewrite length_drop. lia. Qed.

Lemma last_n_suffix {A} n (l : list A) : exists k, l = k ++ last_n n l.
Proof. unfold last_n. eexists. symmetry. apply take_drop. Qed.

Lemma elem_of_last_n {A} n (l : list A) x : x ∈ last_n n l -> x ∈ l.
Proof. destruct (last_n_suffix n l) as [k Hk]. intros Hx.
  rewrite Hk, elem_of_app. by right. Qed.

#[export] Hint Rewrite @existsb_elem @forallb_elem @elem_of_flat_map : forge.

(** ** Append-only lists whose elements evolve by [R] *)
Definition extended {A} (R : A -> A -> Prop) (l l' : list A) : Prop := exists l1 ext, l' = l1 ++ ext /\ Forall2 R l l1.
#[export] Instance extended_preorder {A} (R : A -> A -> Prop) `{!PreOrder R} : PreOrder (extended R).
Proof.
  split.
  - intros l. exists l, []. rewrite app_nil_r. split; [done|]. by apply Forall_Forall2_diag, Forall_true.
  - intros a b c (l1 & e1 & -> & H1) (l2 & e2 & -> & H2). apply Forall2_app_inv_l in H2 as (k1 & k2 & H2 & _ & ->).
    exists k1, (k2 ++ e2). rewrite app_assoc. split; [done|by etransitivity].
Qed.

(** A search by what [R] keeps finds the same element later. *)
Lemma extended_find {A} (R : A -> A -> Prop) f l l' x : (forall a b, R a b -> f b = f a) ->
  extended R l l' -> List.find f l = Some x -> exists y, List.find f l' = Some y /\ R x y.
Proof.
  intros Hf (l1 & ext & -> & H). induction H as [|a b l l1 Hab _ IH]; [done|]. simpl. rewrite (Hf a b Hab).
  destruct (f a); [|exact IH]. intros [= ->]. by exists b.
Qed.
