(* ===== verification/JsString.v ===== *)
(** * JavaScript strings

    A string of the source is a Rocq [string]: a sequence of 8-bit units. The
    vocabulary the code compares, splits and matches (ids, versions,
    capabilities, pins) is ASCII, where this is exactly the code-unit view;
    prose in messages is carried as its UTF-8 bytes. *)
From S2P Require Import Prelude.
From Stdlib Require Export String Ascii.
From Stdlib Require Import OrderedTypeEx.
Abbreviation length := Datatypes.length.
Open Scope string_scope.
Open Scope list_scope.
#[local] Open Scope nat_scope.

(** [a === b] on strings *)
Notation "a ==s b" := (String.eqb a b) (at level 70, no associativity) : forge_scope.

(** ** Order: [a < b] on strings *)

Definition str_lt (a b : string) : bool := String.ltb a b.

(** [a < b ? -1 : a > b ? 1 : 0], the comparator several files write out. *)
Definition compareText (a b : string) : Z :=
  if str_lt a b then (-1)%Z else if str_lt b a then 1%Z else 0%Z.

Definition text_gt (a b : string) : bool := (0 <? compareText a b)%Z.

Lemma str_lt_compare a b : str_lt a b = true <-> String.compare a b = Lt.
Proof. unfold str_lt, String.ltb. destruct (String.compare a b); naive_solver. Qed.

Lemma str_lt_irrefl a : str_lt a a = false.
Proof.
  apply not_true_iff_false. rewrite str_lt_compare.
  pose proof (String_as_OT.cmp_eq a a) as [_ H]. unfold String_as_OT.cmp in H.
  rewrite H; done.
Qed.

Lemma str_lt_trans a b c : str_lt a b = true -> str_lt b c = true -> str_lt a c = true.
Proof.
  rewrite !str_lt_compare. pose proof String_as_OT.cmp_lt as H.
  unfold String_as_OT.cmp in H. rewrite !H. apply String_as_OT.lt_trans.
Qed.

Lemma str_lt_asym a b : str_lt a b = true -> str_lt b a = false.
Proof.
  intros Hab. apply not_true_iff_false. intros Hba.
  pose proof (str_lt_trans _ _ _ Hab Hba). by rewrite str_lt_irrefl in *.
Qed.

Lemma str_lt_total a b : str_lt a b = false -> str_lt b a = false -> a = b.
Proof.
  rewrite <- !not_true_iff_false, !str_lt_compare.
  rewrite (String.compare_antisym b a). destruct (String.compare a b) eqn:E; simpl; try done.
  by apply String.compare_eq_iff in E.
Qed.

Lemma compareText_zero a b : compareText a b = 0%Z <-> a = b.
Proof.
  unfold compareText. split.
  - destruct (str_lt a b) eqn:E1, (str_lt b a) eqn:E2; try done.
    intros _. by apply str_lt_total.
  - intros ->. by rewrite str_lt_irrefl.
Qed.

Lemma compareText_antisym a b : compareText b a = (- compareText a b)%Z.
Proof.
  unfold compareText. destruct (str_lt a b) eqn:E1; [by rewrite (str_lt_asym _ _ E1)|].
  by destruct (str_lt b a).
Qed.

Lemma text_gt_lt a b : text_gt a b = str_lt b a.
Proof.
  unfold text_gt, compareText. destruct (str_lt a b) eqn:E1.
  - by rewrite (str_lt_asym _ _ E1).
  - by destruct (str_lt b a).
Qed.

Lemma text_order : total_preorder_on text_gt (fun _ => True).
Proof.
  split; unfold le_of; intros *; rewrite !text_gt_lt.
  - intros _ _. destruct (str_lt y x) eqn:E; [right; by apply str_lt_asym|by left].
  - intros _ _ _ Hyx Hzy. apply not_true_iff_false. intros Hzx.
    destruct (str_lt x y) eqn:Hxy.
    + by rewrite (str_lt_trans _ _ _ Hzx Hxy) in Hzy.
    + rewrite (str_lt_total x y) in Hzx by done. congruence.
Qed.

Lemma text_gt_antisym x y : le_of text_gt x y -> le_of text_gt y x -> x = y.
Proof. unfold le_of. rewrite !text_gt_lt. intros. by apply str_lt_total. Qed.

(** Sorting by a string key, [xs.sort((a, b) => compareText(key(a), key(b)))]. *)
Section SortBy.
Context {A : Type} (key : A -> string).
Definition key_gt (a b : A) : bool := text_gt (key a) (key b).
Definition sort_by (l : list A) : list A := js_sort key_gt l.

Lemma key_order P : total_preorder_on key_gt P.
Proof.
  split; intros; unfold le_of, key_gt.
  - by apply (tpo_total _ _ text_order).
  - by eapply (tpo_trans _ _ text_order).
Qed.

Lemma sort_by_perm l : sort_by l ≡ₚ l.
Proof. apply js_sort_perm. Qed.

Lemma elem_of_sort_by x l : x ∈ sort_by l <-> x ∈ l.
Proof. apply elem_of_js_sort. Qed.

Lemma sort_by_sorted l : StronglySorted (le_of key_gt) (sort_by l).
Proof.
  eapply js_sort_sorted; [apply (key_order (fun _ => True))|].
  by apply Forall_forall.
Qed.

(** With distinct keys the input's order does not matter. *)
Lemma sort_by_perm_invariant l1 l2 :
  NoDup (key <$> l1) -> l1 ≡ₚ l2 -> sort_by l1 = sort_by l2.
Proof.
  intros Hnd Hp. apply js_sort_perm_invariant; [apply key_order| |done].
  intros x y Hx Hy Hxy Hyx.
  assert (Hk : key x = key y) by (by apply text_gt_antisym).
  apply list_elem_of_lookup in Hx as [i Hi], Hy as [j Hj].
  assert (i = j) as ->; [|congruence].
  eapply NoDup_lookup; [done|..]; rewrite list_lookup_fmap, ?Hi, ?Hj; simpl; [done|].
  by rewrite Hk.
Qed.
End SortBy.

#[export] Hint Rewrite @elem_of_sort_by : forge.

Definition sort_text (l : list string) : list string := js_sort text_gt l.

Lemma elem_of_sort_text x l : x ∈ sort_text l <-> x ∈ l.
Proof. apply elem_of_js_sort. Qed.

Lemma sort_text_perm_invariant l1 l2 : l1 ≡ₚ l2 -> sort_text l1 = sort_text l2.
Proof.
  intros Hp. apply js_sort_perm_invariant; [|intros; by apply text_gt_antisym|done].
  destruct text_order as [Ht Htr]. split; intros; [by apply Ht|by eapply Htr].
Qed.

Lemma sort_text_sorted l : StronglySorted (le_of text_gt) (sort_text l).
Proof. eapply js_sort_sorted; [apply text_order|]. by apply Forall_forall. Qed.

(** ** The methods the code uses *)

Definition startsWith (p s : string) : bool := String.prefix p s.

(** [s.slice(n)] and [s.slice(0, n)] for [n >= 0] *)
Fixpoint slice_from (n : nat) (s : string) : string :=
  match n, s with
  | O, _ => s
  | S n, String _ s => slice_from n s
  | S _, EmptyString => EmptyString
  end.

Fixpoint slice_to (n : nat) (s : string) : string :=
  match n, s with
  | S n, String c s => String c (slice_to n s)
  | _, _ => EmptyString
  end.

Definition endsWith (suffix s : string) : bool :=
  (String.length suffix <=? String.length s)%nat &&
  String.eqb (slice_from (String.length s - String.length suffix) s) suffix.

(** [s.indexOf(c)] for a one-character needle; [None] is [-1]. *)
Fixpoint index_of (c : ascii) (s : string) : option nat :=
  match s with
  | EmptyString => None
  | String d s => if Ascii.eqb c d then Some O else S <$> index_of c s
  end.

(** [s.split(c)] for a one-character separator: never empty. *)
Fixpoint split_on (c : ascii) (s : string) : list string :=
  match s with
  | EmptyString => [EmptyString]
  | String d s =>
      if Ascii.eqb c d then EmptyString :: split_on c s
      else match split_on c s with
           | [] => [String d EmptyString]
           | w :: ws => String d w :: ws
           end
  end.

Definition join (sep : string) (l : list string) : string := String.concat sep l.

Definition has_char (c : ascii) (s : string) : bool :=
  match index_of c s with Some _ => true | None => false end.

Definition code (c : ascii) : nat := nat_of_ascii c.
Definition in_range (lo hi c : ascii) : bool := (code lo <=? code c)%nat && (code c <=? code hi)%nat.
Definition is_digit (c : ascii) : bool := in_range "0" "9" c.

Fixpoint all_chars (p : ascii -> bool) (s : string) : bool :=
  match s with
  | EmptyString => true
  | String c s => p c && all_chars p s
  end.

(** [/^\d+$/.test(s)] *)
Definition all_digits (s : string) : bool :=
  match s with EmptyString => false | _ => all_chars is_digit s end.

(** [BigInt(s)] of a digit string. *)
Fixpoint bigint_acc (acc : Z) (s : string) : Z :=
  match s with
  | EmptyString => acc
  | String c s => bigint_acc (10 * acc + (Z.of_nat (code c) - 48))%Z s
  end.
Definition BigInt (s : string) : Z := bigint_acc 0 s.

(** Tab, line feed, vertical tab, form feed, carriage return and space: the
    white space of [String.prototype.trim] inside ASCII. *)
Definition is_space (c : ascii) : bool :=
  ((9 <=? code c)%nat && (code c <=? 13)%nat) || (code c =? 32)%nat.

Fixpoint trim_start (s : string) : string :=
  match s with
  | EmptyString => EmptyString
  | String c s' => if is_space c then trim_start s' else s
  end.

Fixpoint trim_end (s : string) : string :=
  match s with
  | EmptyString => EmptyString
  | String c s' =>
      match trim_end s' with
      | EmptyString => if is_space c then EmptyString else String c EmptyString
      | t => String c t
      end
  end.

Definition trim (s : string) : string := trim_end (trim_start s).

(** The double quote, as text. *)
Definition quote : string := String (ascii_of_nat 34) EmptyString.

(** ** Lemmas *)

Lemma string_app_nil_r s : (s ++ EmptyString)%string = s.
Proof. induction s as [|c s IH]; [done|]. change (String c (s ++ EmptyString)%string = String c s). by rewrite IH. Qed.

Lemma string_app_cons c s t : (String c s ++ t)%string = String c (s ++ t)%string.
Proof. done. Qed.

Lemma String_length_app s t : String.length (s ++ t)%string = String.length s + String.length t.
Proof. induction s as [|c s IH]; [done|]. rewrite string_app_cons. simpl. by rewrite IH. Qed.

Lemma string_app_assoc s t u : ((s ++ t) ++ u)%string = (s ++ (t ++ u))%string.
Proof. induction s as [|c s IH]; [done|]. by rewrite !string_app_cons, IH. Qed.

Lemma all_chars_app p s t : all_chars p (s ++ t)%string = all_chars p s && all_chars p t.
Proof. induction s as [|c s IH]; simpl; [done|]. by rewrite IH, andb_assoc. Qed.

Lemma split_on_nonempty c s : split_on c s <> [].
Proof. destruct s; simpl; [done|]. case_match; [done|]. by case_match. Qed.

Lemma split_join c s : join (String c EmptyString) (split_on c s) = s.
Proof.
  unfold join. induction s as [|d s IH]; [done|]. simpl.
  destruct (Ascii.eqb c d) eqn:E.
  - apply Ascii.eqb_eq in E as ->.
    destruct (split_on d s) eqn:Es; [by apply split_on_nonempty in Es|].
    simpl in *. by rewrite IH.
  - destruct (split_on c s) as [|w ws] eqn:Es; [by apply split_on_nonempty in Es|].
    simpl in *. by destruct ws; rewrite <- IH.
Qed.

Lemma split_on_inj c a b : split_on c a = split_on c b -> a = b.
Proof. intros H. rewrite <- (split_join c a), <- (split_join c b). by rewrite H. Qed.

Lemma index_of_slice c s n :
  index_of c s = Some n -> s = (slice_to n s ++ String c (slice_from (S n) s))%string.
Proof.
  revert n. induction s as [|d s IH]; intros n; simpl; [done|].
  destruct (Ascii.eqb c d) eqn:E.
  - intros [= <-]. apply Ascii.eqb_eq in E as ->. by destruct s.
  - destruct (index_of c s) as [k|] eqn:Ek; [|done]. intros [= <-]. simpl.
    rewrite string_app_cons. f_equal. rewrite (IH k) at 1 by done. by destruct k.
Qed.

Lemma startsWith_iff p s : startsWith p s = true <-> exists t, s = (p ++ t)%string.
Proof.
  unfold startsWith. revert s. induction p as [|c p IH]; intros s.
  - destruct s; simpl; split; eauto.
  - destruct s as [|d s]; simpl; [split; [done|by intros [t [=]]]|].
    destruct (ascii_dec c d) as [->|Hne].
    + rewrite IH. split; intros [t Ht]; exists t; rewrite ?string_app_cons in *; congruence.
    + split; [done|]. intros [t Ht]. rewrite string_app_cons in Ht. congruence.
Qed.

Lemma startsWith_app p t : startsWith p (p ++ t)%string = true.
Proof. apply startsWith_iff. eauto. Qed.

Lemma slice_from_app p t : slice_from (String.length p) (p ++ t)%string = t.
Proof. induction p as [|c p IH]; [by destruct t|]. rewrite string_app_cons. done. Qed.

Lemma trim_end_nil_or s : trim_end (trim_end s) = trim_end s.
Proof.
  induction s as [|c s IH]; simpl; [done|].
  destruct (trim_end s) as [|d t] eqn:E.
  - destruct (is_space c) eqn:Hc; simpl; [done|]. by rewrite Hc.
  - change (trim_end (String c (String d t))) with
      (match trim_end (String d t) with
       | EmptyString => if is_space c then EmptyString else String c EmptyString
       | u => String c u end).
    by rewrite IH.
Qed.

#[export] Hint Rewrite elem_of_sort_text startsWith_app slice_from_app : forge.
#[export] Hint Resolve split_on_nonempty str_lt_irrefl : forge.

(** ** Splitting and trimming what was put together *)
Definition visible (c : ascii) : bool := negb (is_space c).

Lemma visible_trim s : all_chars visible s = true -> trim s = s.
Proof.
  intros H. assert (He : forall s, all_chars visible s = true -> trim_end s = s).
  { clear. induction s as [|c s IH]; simpl; [done|]. intros [Hc Hs]%andb_true_iff. rewrite IH by done.
    unfold visible in Hc. apply negb_true_iff in Hc. destruct s; [by rewrite Hc|done]. }
  unfold trim. destruct s as [|c s]; [done|]. simpl in *. apply andb_true_iff in H as [Hc Hs].
  unfold visible in Hc. apply negb_true_iff in Hc. rewrite Hc. apply He. simpl. unfold visible. by rewrite Hc.
Qed.

Lemma all_chars_impl (p q : ascii -> bool) s :
  (forall c, p c = true -> q c = true) -> all_chars p s = true -> all_chars q s = true.
Proof. intros H. induction s as [|c s IH]; simpl; [done|]. intros [Hc Hs]%andb_true_iff. by rewrite (H c Hc), IH. Qed.

Lemma index_of_char c s t : all_chars (fun d => negb (Ascii.eqb c d)) s = true ->
  index_of c (s ++ String c t)%string = Some (String.length s).
Proof.
  induction s as [|d s IH]; simpl; [by rewrite Ascii.eqb_refl|]. intros [Hd Hs]%andb_true_iff.
  apply negb_true_iff in Hd. by rewrite Hd, IH.
Qed.

Lemma slice_to_app s t : slice_to (String.length s) (s ++ t)%string = s.
Proof. induction s as [|c s IH]; simpl; [by destruct t|by rewrite IH]. Qed.

Lemma index_of_app c s t :
  index_of c s = None ->
  index_of c (s ++ t)%string = (fun n => String.length s + n)%nat <$> index_of c t.
Proof.
  induction s as [|d s IH]; intros H.
  { change ((EmptyString ++ t)%string) with t. by destruct (index_of c t). }
  rewrite string_app_cons. simpl in *. destruct (Ascii.eqb c d); [done|].
  destruct (index_of c s) eqn:E; [done|]. rewrite IH by done. by destruct (index_of c t).
Qed.

Lemma split_on_app c s t :
  index_of c s = None -> split_on c (s ++ String c t)%string = s :: split_on c t.
Proof.
  induction s as [|d s IH]; intros H.
  - change ((EmptyString ++ String c t)%string) with (String c t). simpl. by rewrite Ascii.eqb_refl.
  - rewrite string_app_cons. simpl in *. destruct (Ascii.eqb c d); [done|].
    destruct (index_of c s) eqn:E; [done|]. by rewrite IH.
Qed.

Lemma split_on_none c s : index_of c s = None -> split_on c s = [s].
Proof.
  induction s as [|d s IH]; simpl; intros H; [done|]. destruct (Ascii.eqb c d); [done|].
  destruct (index_of c s) eqn:E; [done|]. by rewrite IH.
Qed.
