(* ===== verification/Regex.v ===== *)
(** * Regular expressions

    The anchored patterns [/^...$/] of the source, as terms, with the test the
    language performs ([RegExp.prototype.test]) computed by derivatives. *)
From S2P Require Import Prelude JsString.
#[local] Open Scope nat_scope.

Inductive re : Type :=
| Void
| Eps
| Chr (p : ascii -> bool)
| Cat (r1 r2 : re)
| Alt (r1 r2 : re)
| Star (r : re).

(** ** What a pattern denotes *)
Inductive matches : re -> string -> Prop :=
| m_eps : matches Eps EmptyString
| m_chr p c : p c = true -> matches (Chr p) (String c EmptyString)
| m_cat r1 r2 s1 s2 : matches r1 s1 -> matches r2 s2 -> matches (Cat r1 r2) (s1 ++ s2)%string
| m_alt_l r1 r2 s : matches r1 s -> matches (Alt r1 r2) s
| m_alt_r r1 r2 s : matches r2 s -> matches (Alt r1 r2) s
| m_star_nil r : matches (Star r) EmptyString
| m_star_app r s1 s2 : matches r s1 -> matches (Star r) s2 -> matches (Star r) (s1 ++ s2)%string.

(** ** The test *)
Fixpoint nullable (r : re) : bool :=
  match r with
  | Void | Chr _ => false
  | Eps | Star _ => true
  | Cat r1 r2 => nullable r1 && nullable r2
  | Alt r1 r2 => nullable r1 || nullable r2
  end.

Fixpoint deriv (c : ascii) (r : re) : re :=
  match r with
  | Void | Eps => Void
  | Chr p => if p c then Eps else Void
  | Cat r1 r2 =>
      if nullable r1 then Alt (Cat (deriv c r1) r2) (deriv c r2) else Cat (deriv c r1) r2
  | Alt r1 r2 => Alt (deriv c r1) (deriv c r2)
  | Star r => Cat (deriv c r) (Star r)
  end.

Fixpoint test (r : re) (s : string) : bool :=
  match s with
  | EmptyString => nullable r
  | String c s => test (deriv c r) s
  end.

(** ** Pattern syntax *)
Fixpoint lit (s : string) : re :=
  match s with
  | EmptyString => Eps
  | String c s => Cat (Chr (Ascii.eqb c)) (lit s)
  end.
Definition rplus (r : re) : re := Cat r (Star r).
Definition ropt (r : re) : re := Alt r Eps.
Fixpoint rrep (n : nat) (r : re) : re := match n with O => Eps | S n => Cat r (rrep n r) end.
(** [r{0,n}] *)
Fixpoint rupto (n : nat) (r : re) : re := match n with O => Eps | S n => ropt (Cat r (rupto n r)) end.
Fixpoint rcat (l : list re) : re := match l with [] => Eps | [r] => r | r :: l => Cat r (rcat l) end.
Fixpoint ralt (l : list re) : re := match l with [] => Void | [r] => r | r :: l => Alt r (ralt l) end.

Definition digit : re := Chr is_digit.
Definition digit19 : re := Chr (in_range "1" "9").
Definition is_lower (c : ascii) : bool := in_range "a" "z" c.
Definition is_upper (c : ascii) : bool := in_range "A" "Z" c.
Definition is_lower_digit (c : ascii) : bool := is_lower c || is_digit c.
Definition one_of (s : string) (c : ascii) : bool := has_char c s.

(** ** The test decides the denotation *)
Lemma nullable_spec r : nullable r = true <-> matches r EmptyString.
Proof.
  split.
  - induction r; simpl; intros H; try done; bools.
    + constructor.
    + change EmptyString with (EmptyString ++ EmptyString)%string. constructor; auto.
    + apply orb_true_iff in H as [H|H]; [apply m_alt_l|apply m_alt_r]; auto.
    + constructor.
  - remember EmptyString as s. intros H. revert Heqs.
    induction H; intros Hs; simpl; try done.
    + destruct s1; [|done]. destruct s2; [|done]. by rewrite IHmatches1, IHmatches2.
    + by rewrite IHmatches.
    + rewrite IHmatches by done. by rewrite orb_true_r.
Qed.

Lemma star_cons_inv r c s :
  matches (Star r) (String c s) ->
  exists s1 s2, s = (s1 ++ s2)%string /\ matches r (String c s1) /\ matches (Star r) s2.
Proof.
  remember (Star r) as q. remember (String c s) as t. intros H. revert c s Heqt Heqq.
  induction H; intros c' s' Hs Hq; try done. simplify_eq.
  destruct s1 as [|d s1].
  - by apply IHmatches2.
  - rewrite string_app_cons in Hs. simplify_eq. eauto.
Qed.

Lemma cat_cons_inv r1 r2 c s :
  matches (Cat r1 r2) (String c s) ->
  (matches r1 EmptyString /\ matches r2 (String c s)) \/
  exists s1 s2, s = (s1 ++ s2)%string /\ matches r1 (String c s1) /\ matches r2 s2.
Proof.
  intros H. inversion H as [| |? ? s1 s2 H1 H2 Heq Hs| | | |]; subst.
  destruct s1 as [|d s1].
  - left. by simpl in Hs; subst.
  - rewrite string_app_cons in Hs. simplify_eq. right. eauto.
Qed.

Lemma deriv_spec c r s : matches (deriv c r) s <-> matches r (String c s).
Proof.
  revert s. induction r as [| |p|r1 IH1 r2 IH2|r1 IH1 r2 IH2|r IH]; intros s; simpl.
  - split; intros H; inversion H.
  - split; intros H; inversion H.
  - destruct (p c) eqn:E; split; intros H; inversion H; subst; try congruence; by constructor.
  - assert (Hcat : matches (Cat (deriv c r1) r2) s <->
      exists s1 s2, s = (s1 ++ s2)%string /\ matches r1 (String c s1) /\ matches r2 s2).
    { split.
      - intros H. inversion H; subst. eexists _, _. split; [done|]. by rewrite <- IH1.
      - intros (s1 & s2 & -> & H1 & H2). constructor; [by apply IH1|done]. }
    assert (Hbwd : (exists s1 s2, s = (s1 ++ s2)%string /\ matches r1 (String c s1) /\ matches r2 s2) ->
      matches (Cat r1 r2) (String c s)).
    { intros (s1 & s2 & -> & H1 & H2). rewrite <- string_app_cons. by constructor. }
    destruct (nullable r1) eqn:E.
    + split.
      * intros H. inversion H; subst; [apply Hbwd, Hcat; done|].
        change (String c s) with (EmptyString ++ String c s)%string.
        constructor; [by apply nullable_spec|by apply IH2].
      * intros [[_ H]|H]%cat_cons_inv; [by apply m_alt_r, IH2|by apply m_alt_l, Hcat].
    + rewrite Hcat. split; [done|]. intros [[H _]|H]%cat_cons_inv; [|done].
      apply nullable_spec in H. congruence.
  - split.
    + intros H. inversion H; subst; [apply m_alt_l; by apply IH1|apply m_alt_r; by apply IH2].
    + intros H. inversion H; subst; [apply m_alt_l; by apply IH1|apply m_alt_r; by apply IH2].
  - split.
    + intros H. inversion H; subst. rewrite <- string_app_cons.
      constructor; [by apply IH|done].
    + intros (s1 & s2 & -> & H1 & H2)%star_cons_inv. constructor; [by apply IH|done].
Qed.

Theorem test_spec r s : test r s = true <-> matches r s.
Proof.
  revert r. induction s as [|c s IH]; intros r; simpl.
  - apply nullable_spec.
  - by rewrite IH, deriv_spec.
Qed.

(** ** Structural facts used by the schemas *)
Lemma matches_lit_app p s r : matches r s -> matches (Cat (lit p) r) (p ++ s)%string.
Proof.
  intros H. constructor; [|done]. induction p as [|c p IH]; [constructor|]. simpl.
  change (String c p) with (String c EmptyString ++ p)%string.
  constructor; [|done]. constructor. apply Ascii.eqb_refl.
Qed.

Lemma matches_lit p s : matches (lit p) s <-> s = p.
Proof.
  split; [|intros ->].
  - revert s. induction p as [|c p IH]; simpl; intros s H; inversion H; subst; [done|].
    match goal with H : matches (Chr _) _ |- _ => inversion H; subst end.
    rewrite string_app_cons. match goal with H : _ = true |- _ => apply Ascii.eqb_eq in H as -> end.
    f_equal. by apply IH.
  - pose proof (matches_lit_app p EmptyString Eps m_eps) as H. inversion H; subst.
    match goal with H : matches Eps _ |- _ => inversion H; subst end.
    match goal with H : (_ ++ _)%string = (_ ++ _)%string |- _ =>
      rewrite !string_app_nil_r in H; by subst end.
Qed.

#[export] Hint Constructors matches : forge.

(** ** The alphabet of an expression *)
Definition chars : list ascii := ascii_of_nat <$> seq 0 256.
Lemma elem_of_chars c : c ∈ chars.
Proof.
  unfold chars. apply list_elem_of_fmap. exists (nat_of_ascii c). rewrite ascii_nat_embedding. split; [done|].
  apply elem_of_seq. pose proof (nat_ascii_bounded c). lia.
Qed.

(** Every character a match can hold satisfies [p]. *)
Fixpoint only (p : ascii -> bool) (r : re) : bool :=
  match r with
  | Void | Eps => true
  | Chr q => forallb (fun c => implb (q c) (p c)) chars
  | Cat r1 r2 | Alt r1 r2 => only p r1 && only p r2
  | Star r => only p r
  end.

Lemma matches_only p r s : matches r s -> only p r = true -> all_chars p s = true.
Proof.
  induction 1 as [|q c Hq|r1 r2 s1 s2 _ IH1 _ IH2|r1 r2 s _ IH|r1 r2 s _ IH|r|r s1 s2 _ IH1 _ IH2]; cbn [only]; intros Ho.
  - done.
  - pose proof (proj1 (List.forallb_forall _ _) Ho c (proj1 (list_elem_of_In _ _) (elem_of_chars c))) as Hp.
    cbn beta in Hp. rewrite Hq in Hp. simpl in *. by rewrite Hp.
  - apply andb_true_iff in Ho as [H1 H2]. by rewrite all_chars_app, IH1, IH2.
  - apply andb_true_iff in Ho as [H1 _]. by apply IH.
  - apply andb_true_iff in Ho as [_ H2]. by apply IH.
  - done.
  - by rewrite all_chars_app, IH1, IH2.
Qed.

Lemma test_only p r s : test r s = true -> only p r = true -> all_chars p s = true.
Proof. intros H%test_spec. by apply matches_only. Qed.
