(* ===== verification/JsNumberFacts.v ===== *)
(** * Order facts about binary64

    A finite double [±m·2^e] is sent to the integer [±m·2^(e+1074)]: on finite
    values the comparisons are those of the integers, and the sign of a rounded
    difference is the sign of the exact one (gradual underflow). *)
From S2P Require Import Prelude JsString JsNumber.
#[local] Open Scope Z_scope.
#[local] Arguments Z.compare : simpl never.
#[local] Arguments Z.mul : simpl never.
#[local] Arguments Z.pow : simpl never.
#[local] Arguments Z.opp : simpl never.

(** A finite double. *)
Definition fin (x : num) : Prop := isFinite x = true.

Definition scaled (x : num) : Z :=
  match x with
  | S754_finite s m e => cond_Zopp s (Zpos m * 2 ^ (e + 1074))
  | _ => 0
  end.

(** ** Digits *)
Lemma digits2_bounds m :
  2 ^ (Zpos (digits2_pos m) - 1) <= Zpos m < 2 ^ Zpos (digits2_pos m).
Proof.
  induction m as [m IH|m IH|]; simpl digits2_pos; [| |simpl; lia];
    rewrite Pos2Z.inj_succ;
    replace (Z.succ (Zpos (digits2_pos m)) - 1) with (Z.succ (Zpos (digits2_pos m) - 1)) by lia;
    rewrite !Z.pow_succ_r by lia; lia.
Qed.

Lemma digits2_unique m d : 2 ^ (d - 1) <= Zpos m < 2 ^ d -> Zpos (digits2_pos m) = d.
Proof.
  intros [H1 H2]. pose proof (digits2_bounds m) as [H3 H4].
  assert (0 < d). { destruct (Z.lt_ge_cases 0 d); [done|].
    assert (2 ^ d <= 2 ^ 0) by (apply Z.pow_le_mono_r; lia). simpl in *. lia. }
  assert (d - 1 < Zpos (digits2_pos m)) by (apply (Z.pow_lt_mono_r_iff 2); lia).
  assert (Zpos (digits2_pos m) - 1 < d) by (apply (Z.pow_lt_mono_r_iff 2); lia).
  lia.
Qed.

Lemma fexp_eq e : fexp 53 1024 e = Z.max (e - 53) (-1074).
Proof. done. Qed.

Lemma bounded_spec m e :
  bounded 53 1024 m e = true ->
  -1074 <= e <= 971 /\ Zpos m < 2 ^ 53 /\ (-1074 < e -> 2 ^ 52 <= Zpos m).
Proof.
  unfold bounded, canonical_mantissa. intros H. bools.
  rewrite Z.eqb_eq, fexp_eq in *. rewrite Z.leb_le in *.
  pose proof (digits2_bounds m) as [H1 H2].
  split; [lia|]. split.
  - eapply Z.lt_le_trans; [done|]. apply Z.pow_le_mono_r; lia.
  - intros He. replace (Zpos (digits2_pos m)) with 53 in H1 by lia. done.
Qed.

Lemma pow_scale m e e' :
  -1074 <= e -> e <= e' -> Zpos m * 2 ^ (e' + 1074) = Zpos m * 2 ^ (e' - e) * 2 ^ (e + 1074).
Proof. intros. rewrite <- Z.mul_assoc, <- Z.pow_add_r by lia. do 2 f_equal. lia. Qed.

Lemma mantissa_lt m1 e1 m2 e2 :
  bounded 53 1024 m1 e1 = true -> bounded 53 1024 m2 e2 = true -> e1 < e2 ->
  Zpos m1 * 2 ^ (e1 + 1074) < Zpos m2 * 2 ^ (e2 + 1074).
Proof.
  intros (Ha & Hm1 & _)%bounded_spec (Hb & _ & Hm2)%bounded_spec Hlt.
  specialize (Hm2 ltac:(lia)). rewrite (pow_scale m2 e1 e2) by lia.
  apply Z.mul_lt_mono_pos_r; [apply Z.pow_pos_nonneg; lia|].
  assert (2 ^ 1 <= 2 ^ (e2 - e1)) by (apply Z.pow_le_mono_r; lia). nia.
Qed.

Lemma mantissa_compare m1 e1 m2 e2 :
  bounded 53 1024 m1 e1 = true -> bounded 53 1024 m2 e2 = true ->
  (Zpos m1 * 2 ^ (e1 + 1074) ?= Zpos m2 * 2 ^ (e2 + 1074)) =
  match e1 ?= e2 with Lt => Lt | Gt => Gt | Eq => Pos.compare_cont Eq m1 m2 end.
Proof.
  intros H1 H2. destruct (Z.compare_spec e1 e2) as [->|Hlt|Hgt].
  - change (Pos.compare_cont Eq m1 m2) with (Zpos m1 ?= Zpos m2).
    pose proof (bounded_spec _ _ H1) as (? & _).
    symmetry. apply Zmult_compare_compat_r.
    apply Z.lt_gt, Z.pow_pos_nonneg; lia.
  - apply Z.compare_lt_iff. by apply mantissa_lt.
  - apply Z.compare_gt_iff. by apply mantissa_lt.
Qed.

Lemma scaled_pos m e : -1074 <= e -> 0 < Zpos m * 2 ^ (e + 1074).
Proof. intros. assert (0 < 2 ^ (e + 1074)) by (apply Z.pow_pos_nonneg; lia). nia. Qed.

Lemma SFcompare_scaled x y : fin x -> fin y -> SFcompare x y = Some (scaled x ?= scaled y).
Proof.
  intros Vx Vy. unfold fin in *.
  destruct x as [sx|sx| |sx mx ex], y as [sy|sy| |sy my ey]; simpl in *; try done.
  - pose proof (bounded_spec _ _ Vy) as (? & _). pose proof (scaled_pos my ey ltac:(lia)).
    destruct sy; simpl; f_equal; symmetry; [apply Z.compare_gt_iff|apply Z.compare_lt_iff]; lia.
  - pose proof (bounded_spec _ _ Vx) as (? & _). pose proof (scaled_pos mx ex ltac:(lia)).
    destruct sx; simpl; f_equal; symmetry; [apply Z.compare_lt_iff|apply Z.compare_gt_iff]; lia.
  - pose proof (bounded_spec _ _ Vy) as (? & _). pose proof (scaled_pos my ey ltac:(lia)).
    pose proof (bounded_spec _ _ Vx) as (? & _). pose proof (scaled_pos mx ex ltac:(lia)).
    pose proof (mantissa_compare mx ex my ey Vx Vy) as Hc.
    destruct sx, sy; simpl; f_equal; symmetry.
    + rewrite Z.compare_opp, Z.compare_antisym, Hc. by destruct (ex ?= ey).
    + apply Z.compare_lt_iff; lia.
    + apply Z.compare_gt_iff; lia.
    + done.
Qed.

Lemma nlt_scaled x y : fin x -> fin y -> nlt x y = (scaled x <? scaled y).
Proof.
  intros. unfold nlt, SFltb. rewrite SFcompare_scaled by done.
  unfold Z.ltb. by destruct (_ ?= _).
Qed.

Lemma nle_scaled x y : fin x -> fin y -> nle x y = (scaled x <=? scaled y).
Proof.
  intros. unfold nle, SFleb. rewrite SFcompare_scaled by done.
  unfold Z.leb. by destruct (_ ?= _).
Qed.

Lemma neqb_scaled x y : fin x -> fin y -> neqb x y = (scaled x =? scaled y).
Proof.
  intros. unfold neqb, SFeqb. rewrite SFcompare_scaled by done.
  rewrite Z.eqb_compare. by destruct (_ ?= _).
Qed.

Lemma nle_not_nlt x y : fin x -> fin y -> nle x y = negb (nlt y x).
Proof. intros. rewrite nle_scaled, nlt_scaled by done. lia. Qed.

Lemma nlt_irrefl x : nlt x x = false.
Proof.
  unfold nlt, SFltb. destruct x as [s|s| |s m e]; simpl; try done; [by destruct s|].
  rewrite Z.compare_refl. change (Pos.compare_cont Eq m m) with (Pos.compare m m).
  rewrite Pos.compare_refl. by destruct s.
Qed.

(** ** Rounding keeps the sign *)
Lemma shr_1_m r : 0 <= shr_m r -> shr_m (shr_1 r) = shr_m r / 2.
Proof.
  destruct r as [[|[p|p|]|p] b c]; simpl; intros; try lia; rewrite <- Z.div2_div; done.
Qed.

Lemma shr_iter_m p r :
  0 <= shr_m r -> shr_m (SpecFloat.iter_pos shr_1 p r) = shr_m r / 2 ^ Zpos p.
Proof.
  assert (Hdiv : forall z a b, 0 < a -> 0 < b -> z / a / b = z / (a * b)).
  { intros. rewrite Z.div_div; lia. }
  revert r. induction p as [p IH|p IH|]; intros r Hr; simpl SpecFloat.iter_pos.
  - pose proof (shr_1_m r Hr) as H1.
    assert (0 <= shr_m (shr_1 r)) by (rewrite H1; apply Z.div_pos; lia).
    rewrite IH.
    + rewrite IH by done. rewrite H1, !Hdiv by (try apply Z.pow_pos_nonneg; lia).
      f_equal. replace (Zpos p~1) with (1 + (Zpos p + Zpos p)) by lia.
      rewrite !Z.pow_add_r, Z.pow_1_r by lia. lia.
    + rewrite IH by done. apply Z.div_pos; [done|apply Z.pow_pos_nonneg; lia].
  - rewrite IH.
    + rewrite IH by done. rewrite Hdiv by (apply Z.pow_pos_nonneg; lia).
      f_equal. replace (Zpos p~0) with (Zpos p + Zpos p) by lia. by rewrite Z.pow_add_r by lia.
    + rewrite IH by done. apply Z.div_pos; [done|apply Z.pow_pos_nonneg; lia].
  - rewrite shr_1_m by done. done.
Qed.

Lemma shr_record_m m l : shr_m (shr_record_of_loc m l) = m.
Proof. by destruct l as [|[]]. Qed.

(** Shifting out fewer bits than the mantissa has leaves it positive. *)
Lemma shr_positive m l e n :
  n < Zpos (digits2_pos m) -> 0 < shr_m (fst (shr (shr_record_of_loc (Zpos m) l) e n)).
Proof.
  intros Hn. unfold shr. destruct n as [|p|p]; simpl; rewrite ?shr_record_m; try lia.
  rewrite shr_iter_m; rewrite shr_record_m; [|lia].
  pose proof (digits2_bounds m) as [H _]. apply Z.div_str_pos. split; [apply Z.pow_pos_nonneg; lia|].
  etransitivity; [|exact H]. apply Z.pow_le_mono_r; lia.
Qed.

Lemma round_nearest_pos z l : 0 < z -> 0 < round_nearest_even z l.
Proof. unfold round_nearest_even. destruct l as [|[]]; try lia. case_match; lia. Qed.

Lemma round_nearest_ge z l : z <= round_nearest_even z l.
Proof. unfold round_nearest_even. destruct l as [|[]]; try lia. case_match; lia. Qed.

Definition sign_of (s : bool) : comparison := if s then Lt else Gt.

(** A mantissa whose exponent has no more than [digits - 1] excess bits rounds
    to a non-zero value of the same sign. *)
Lemma binary_round_aux_sign s m e :
  -1074 <= e -> SFcompare (binary_round_aux 53 1024 s (Zpos m) e loc_Exact) nzero = Some (sign_of s).
Proof.
  intros He. unfold binary_round_aux, shr_fexp. rewrite fexp_eq. simpl Zdigits2.
  set (n := Z.max (Zpos (digits2_pos m) + e - 53) (-1074) - e).
  destruct (shr (shr_record_of_loc (Zpos m) loc_Exact) e n) as [r1 e1] eqn:E1.
  assert (Hn : n < Zpos (digits2_pos m)) by lia.
  pose proof (shr_positive m loc_Exact e n Hn) as Hp1. rewrite E1 in Hp1. simpl in Hp1.
  pose proof (round_nearest_pos _ (loc_of_shr_record r1) Hp1) as Hq.
  pose proof (round_nearest_ge (shr_m r1) (loc_of_shr_record r1)) as Hge.
  destruct (round_nearest_even (shr_m r1) (loc_of_shr_record r1)) as [|q|q] eqn:Eq; try lia.
  rewrite fexp_eq. simpl Zdigits2.
  set (k := Z.max (Zpos (digits2_pos q) + e1 - 53) (-1074) - e1).
  assert (Hk : k < Zpos (digits2_pos q)).
  { unfold shr in E1. destruct n as [|p|p] eqn:En; simpl in E1; simplify_eq; [lia| |lia].
    subst k. simpl in *. lia. }
  pose proof (shr_positive q loc_Exact e1 k Hk) as Hp2.
  destruct (shr (shr_record_of_loc (Zpos q) loc_Exact) e1 k) as [r2 e2]. simpl in Hp2.
  destruct (shr_m r2) as [|t|t]; try lia. case_match; by destruct s.
Qed.

Lemma shl_align_exp m e e' : -1074 <= e' -> -1074 <= e -> -1074 <= snd (shl_align m e e').
Proof. unfold shl_align. destruct (e' - e); simpl; lia. Qed.

Lemma binary_normalize_sign z e b :
  -1074 <= e -> SFcompare (binary_normalize 53 1024 z e b) nzero = Some (z ?= 0).
Proof.
  intros He. destruct z as [|p|p]; simpl; [by destruct b| |]; unfold binary_round.
  all: destruct (shl_align p e _) as [m1 e1] eqn:E; rewrite binary_round_aux_sign; [done|].
  all: pose proof (shl_align_exp p e (fexp 53 1024 (Zpos (digits2_pos p) + e))) as H.
  all: rewrite E in H; simpl in H; apply H; rewrite ?fexp_eq; lia.
Qed.

Lemma pos_shift_left m d : Zpos (Pos.iter xO m d) = Zpos m * 2 ^ Zpos d.
Proof.
  revert m. apply (Pos.peano_ind (fun d => forall m, Zpos (Pos.iter xO m d) = Zpos m * 2 ^ Zpos d)).
  - intros m. simpl. lia.
  - intros p IH m. rewrite Pos.iter_succ, Pos2Z.inj_xO, IH, Pos2Z.inj_succ, Z.pow_succ_r by lia. lia.
Qed.

Lemma shl_align_value m e e' :
  e' <= e -> Zpos (fst (shl_align m e e')) = Zpos m * 2 ^ (e - e').
Proof.
  intros H. unfold shl_align. destruct (e' - e) as [|p|p] eqn:E; simpl.
  - replace (e - e') with 0 by lia. lia.
  - lia.
  - rewrite pos_shift_left. do 2 f_equal. lia.
Qed.

Lemma aligned_scaled s m e ez :
  -1074 <= ez -> ez <= e ->
  cond_Zopp s (Zpos (fst (shl_align m e ez))) * 2 ^ (ez + 1074) = scaled (S754_finite s m e).
Proof.
  intros. rewrite shl_align_value by done. simpl. rewrite (pow_scale m ez e) by lia.
  destruct s; simpl; lia.
Qed.

(** [a - b] has the sign of the comparison of [a] and [b]. *)
Theorem nsub_sign x y : fin x -> fin y -> SFcompare (nsub x y) nzero = Some (scaled x ?= scaled y).
Proof.
  intros Vx Vy. unfold fin, nsub in *.
  destruct x as [sx|sx| |sx mx ex], y as [sy|sy| |sy my ey]; simpl in *; try done.
  - by destruct sx, sy.
  - pose proof (bounded_spec _ _ Vy) as (? & _). pose proof (scaled_pos my ey ltac:(lia)).
    destruct sy; simpl; f_equal; symmetry; [apply Z.compare_gt_iff|apply Z.compare_lt_iff]; lia.
  - pose proof (bounded_spec _ _ Vx) as (? & _). pose proof (scaled_pos mx ex ltac:(lia)).
    destruct sx; simpl; f_equal; symmetry; [apply Z.compare_lt_iff|apply Z.compare_gt_iff]; lia.
  - pose proof (bounded_spec _ _ Vx) as (? & _). pose proof (bounded_spec _ _ Vy) as (? & _).
    rewrite binary_normalize_sign by lia. f_equal.
    change (cond_Zopp sx (Zpos mx * 2 ^ (ex + 1074))) with (scaled (S754_finite sx mx ex)).
    change (cond_Zopp sy (Zpos my * 2 ^ (ey + 1074))) with (scaled (S754_finite sy my ey)).
    rewrite <- (aligned_scaled sx mx ex (Z.min ex ey)), <- (aligned_scaled sy my ey (Z.min ex ey)) by lia.
    rewrite <- Zmult_compare_compat_r by (apply Z.lt_gt, Z.pow_pos_nonneg; lia).
    symmetry. apply Z.compare_sub.
Qed.

(** What the code reads off a difference: whether it is non-zero, positive or
    negative. *)
Lemma nsub_truthy x y : fin x -> fin y -> truthy (nsub x y) = negb (scaled x =? scaled y).
Proof.
  intros Hx Hy. pose proof (nsub_sign x y Hx Hy) as H. rewrite Z.eqb_compare.
  destruct (nsub x y) as [s|s| |s m e]; simpl in H; try done;
    injection H as H; rewrite <- H; try destruct s; done.
Qed.

Lemma nsub_pos x y : fin x -> fin y -> nlt nzero (nsub x y) = (scaled y <? scaled x).
Proof.
  intros Hx Hy. pose proof (nsub_sign x y Hx Hy) as H.
  rewrite Z.ltb_compare, Z.compare_antisym. unfold nlt, SFltb.
  destruct (nsub x y) as [s|s| |s m e]; simpl in H; try done;
    injection H as H; rewrite <- H; try destruct s; done.
Qed.

#[export] Hint Rewrite nlt_scaled nle_scaled neqb_scaled : forge.

(** ** Every operation returns a canonical value *)

Definition num_ok (x : num) : Prop := valid_binary 53 1024 x = true.

Lemma fin_iff x : fin x <-> num_ok x /\ isNaN x = false /\ forall s, x <> S754_infinity s.
Proof. unfold fin, num_ok. destruct x; simpl; naive_solver. Qed.

(** The shape a mantissa has at its final exponent, before the last carry. *)
Definition shaped (m e : Z) : Prop :=
  0 <= m <= 2 ^ 53 /\ -1074 <= e /\ (-1074 < e -> 2 ^ 52 <= m).

Lemma bounded_intro m e :
  Zpos m < 2 ^ 53 -> -1074 <= e <= 971 -> (-1074 < e -> 2 ^ 52 <= Zpos m) ->
  bounded 53 1024 m e = true.
Proof.
  intros Hm He Hn. unfold bounded, canonical_mantissa. rewrite fexp_eq.
  pose proof (digits2_bounds m) as [H1 H2].
  assert (Zpos (digits2_pos m) - 1 < 53) by (apply (Z.pow_lt_mono_r_iff 2); lia).
  assert (-1074 < e -> Zpos (digits2_pos m) = 53).
  { intros Hlt. specialize (Hn Hlt).
    assert (52 < Zpos (digits2_pos m)) by (apply (Z.pow_lt_mono_r_iff 2); lia). lia. }
  apply andb_true_iff. rewrite Z.eqb_eq, Z.leb_le. lia.
Qed.

Lemma shr_value r e n : 0 <= n -> 0 <= shr_m r ->
  shr_m (fst (shr r e n)) = shr_m r / 2 ^ n /\ snd (shr r e n) = e + n.
Proof.
  intros Hn Hr. unfold shr. destruct n as [|p|p]; simpl; [|by rewrite shr_iter_m|lia].
  rewrite Z.pow_0_r, Z.div_1_r. lia.
Qed.

Lemma shr_fexp_shaped m e l :
  e <= fexp 53 1024 (Zpos (digits2_pos m) + e) ->
  let r := shr_fexp 53 1024 (Zpos m) e l in
  0 <= shr_m (fst r) < 2 ^ 53 /\ -1074 <= snd r /\ (-1074 < snd r -> 2 ^ 52 <= shr_m (fst r)).
Proof.
  intros He. unfold shr_fexp. simpl Zdigits2. rewrite fexp_eq in *.
  set (d := Zpos (digits2_pos m)) in *. set (e1 := Z.max (d + e - 53) (-1074)) in *.
  destruct (shr_value (shr_record_of_loc (Zpos m) l) e (e1 - e)) as [H1 H2];
    [lia|rewrite shr_record_m; lia|].
  cbv zeta. rewrite H1, H2, shr_record_m.
  pose proof (digits2_bounds m) as [Hlo Hhi]. fold d in Hlo, Hhi.
  assert (0 < 2 ^ (e1 - e)) by (apply Z.pow_pos_nonneg; lia).
  split_and!; [apply Z.div_pos; lia| |lia|].
  - apply Z.div_lt_upper_bound; [done|]. rewrite <- Z.pow_add_r by lia.
    eapply Z.lt_le_trans; [exact Hhi|]. apply Z.pow_le_mono_r; lia.
  - intros Hgt. apply Z.div_le_lower_bound; [done|]. rewrite <- Z.pow_add_r by lia.
    etransitivity; [|exact Hlo]. apply Z.pow_le_mono_r; lia.
Qed.

Lemma round_nearest_le z l : round_nearest_even z l <= z + 1.
Proof. unfold round_nearest_even. destruct l as [|[]]; try lia. case_match; lia. Qed.

(** The second normalisation: at most one carry bit is shifted out. *)
Lemma shr_fexp_carry q e :
  shaped q e ->
  let r := shr_fexp 53 1024 q e loc_Exact in
  match shr_m (fst r) with
  | Zpos m => Zpos m < 2 ^ 53 /\ -1074 <= snd r /\ (-1074 < snd r -> 2 ^ 52 <= Zpos m)
  | Z0 => True
  | Zneg _ => False
  end.
Proof.
  intros (Hq & He & Hn). unfold shr_fexp. rewrite fexp_eq.
  destruct q as [|q|q]; [|simpl Zdigits2|lia].
  { simpl Zdigits2. destruct (shr_value (shr_record_of_loc 0 loc_Exact) e 0) as [H1 H2]; try done.
    unfold shr. destruct (_ - e) eqn:E; simpl; try done. by rewrite shr_iter_m. }
  pose proof (digits2_bounds q) as [Hlo Hhi]. set (d := Zpos (digits2_pos q)) in *.
  destruct (Z.eq_dec (Zpos q) (2 ^ 53)) as [Heq|Hne].
  - assert (Hd : d = 54). { apply digits2_unique. rewrite Heq. split; [done|reflexivity]. }
    rewrite Hd. destruct (shr_value (shr_record_of_loc (Zpos q) loc_Exact) e 1) as [H1 H2];
      [lia|rewrite shr_record_m; lia|].
    replace (Z.max (54 + e - 53) (-1074) - e) with 1 by lia. cbv zeta.
    rewrite H1, H2, shr_record_m, Heq. change (2 ^ 53 / 2 ^ 1) with (2 ^ 52).
    change (2 ^ 52) with (Zpos 4503599627370496). split_and!; [reflexivity|lia|done].
  - assert (d - 1 < 53) by (apply (Z.pow_lt_mono_r_iff 2); lia).
    assert (-1074 < e -> d = 53).
    { intros Hlt. specialize (Hn Hlt).
      assert (52 < d) by (apply (Z.pow_lt_mono_r_iff 2); lia). lia. }
    replace (Z.max (d + e - 53) (-1074) - e) with 0 by lia. simpl. lia.
Qed.

(** A zero quotient only occurs at or below the least exponent. *)
Lemma shr_fexp_zero e l :
  e <= -1074 ->
  let r := shr_fexp 53 1024 0 e l in shr_m (fst r) = 0 /\ snd r = -1074.
Proof.
  intros He. unfold shr_fexp. rewrite fexp_eq. simpl Zdigits2.
  replace (Z.max (0 + e - 53) (-1074) - e) with (-1074 - e) by lia.
  destruct (shr_value (shr_record_of_loc 0 l) e (-1074 - e)) as [H1 H2];
    [lia|by rewrite shr_record_m|].
  cbv zeta. rewrite H1, H2, shr_record_m, Z.div_0_l by (apply Z.pow_nonzero; lia). lia.
Qed.

Lemma binary_round_aux_ok_z s z e l :
  0 <= z ->
  (z = 0 -> e <= -1074) ->
  (forall m, z = Zpos m -> e <= fexp 53 1024 (Zpos (digits2_pos m) + e)) ->
  num_ok (binary_round_aux 53 1024 s z e l).
Proof.
  intros Hz Hz0 He. unfold binary_round_aux.
  assert (H1 : let r := shr_fexp 53 1024 z e l in
    0 <= shr_m (fst r) < 2 ^ 53 /\ -1074 <= snd r /\ (-1074 < snd r -> 2 ^ 52 <= shr_m (fst r))).
  { destruct z as [|m|m]; [|by apply shr_fexp_shaped, He|lia].
    destruct (shr_fexp_zero e l (Hz0 eq_refl)) as [Hm Hs]. cbv zeta. rewrite Hm, Hs. lia. }
  cbv zeta in H1.
  destruct (shr_fexp 53 1024 z e l) as [r1 e1]. simpl in H1.
  set (q := round_nearest_even _ _).
  pose proof (round_nearest_ge (shr_m r1) (loc_of_shr_record r1)).
  pose proof (round_nearest_le (shr_m r1) (loc_of_shr_record r1)).
  pose proof (shr_fexp_carry q e1) as H2. cbv zeta in H2.
  specialize (H2 ltac:(unfold shaped; fold q in H, H0; lia)).
  destruct (shr_fexp 53 1024 q e1 loc_Exact) as [r2 e2]. simpl in H2.
  destruct (shr_m r2) as [|t|t]; [done| |done]. case_match eqn:E; [|done].
  apply Z.leb_le in E. unfold num_ok. simpl. apply bounded_intro; lia.
Qed.

Lemma binary_round_aux_ok s m e l :
  e <= fexp 53 1024 (Zpos (digits2_pos m) + e) -> num_ok (binary_round_aux 53 1024 s (Zpos m) e l).
Proof. intros. apply binary_round_aux_ok_z; [lia|done|]. by intros ? [= <-]. Qed.

Lemma digits2_shift m k : Zpos (digits2_pos (Pos.iter xO m k)) = Zpos (digits2_pos m) + Zpos k.
Proof.
  apply digits2_unique. rewrite pos_shift_left. pose proof (digits2_bounds m) as [H1 H2].
  replace (Zpos (digits2_pos m) + Zpos k - 1) with (Zpos (digits2_pos m) - 1 + Zpos k) by lia.
  rewrite !Z.pow_add_r by lia. nia.
Qed.

Lemma binary_normalize_ok z e b : num_ok (binary_normalize 53 1024 z e b).
Proof.
  assert (Hr : forall s p, num_ok (binary_round 53 1024 s p e)); [|by destruct z; simpl].
  intros s p. unfold binary_round, shl_align.
  destruct (fexp 53 1024 (Zpos (digits2_pos p) + e) - e) as [|k|k] eqn:E;
    apply binary_round_aux_ok; rewrite ?digits2_shift; try lia.
  replace (Zpos (digits2_pos p) + Zpos k + fexp 53 1024 (Zpos (digits2_pos p) + e))
    with (Zpos (digits2_pos p) + e) by lia. lia.
Qed.

Lemma nadd_ok x y : num_ok x -> num_ok y -> num_ok (nadd x y).
Proof.
  intros Hx Hy. unfold nadd, SFadd. destruct x as [sx|sx| |sx mx ex], y as [sy|sy| |sy my ey];
    try done; [by destruct sx, sy|by destruct sx, sy|apply binary_normalize_ok].
Qed.

Lemma nsub_ok x y : num_ok x -> num_ok y -> num_ok (nsub x y).
Proof.
  intros Hx Hy. unfold nsub, SFsub. destruct x as [sx|sx| |sx mx ex], y as [sy|sy| |sy my ey];
    try done; [by destruct sx, sy|by destruct sx, sy|apply binary_normalize_ok].
Qed.

Lemma bounded_fexp m e : bounded 53 1024 m e = true -> Z.max (Zpos (digits2_pos m) + e - 53) (-1074) = e.
Proof. unfold bounded, canonical_mantissa. intros H. bools. by rewrite Z.eqb_eq, fexp_eq in *. Qed.

Lemma nmul_ok x y : num_ok x -> num_ok y -> num_ok (nmul x y).
Proof.
  intros Hx Hy. unfold nmul, SFmul. destruct x as [sx|sx| |sx mx ex], y as [sy|sy| |sy my ey]; try done.
  apply binary_round_aux_ok. rewrite fexp_eq.
  apply bounded_fexp in Hx, Hy.
  assert (Zpos (digits2_pos mx) + Zpos (digits2_pos my) - 1 <= Zpos (digits2_pos (mx * my))); [|lia].
  pose proof (digits2_bounds mx) as [H1 _]. pose proof (digits2_bounds my) as [H2 _].
  pose proof (digits2_bounds (mx * my)) as [_ H3].
  assert (Zpos (digits2_pos mx) - 1 + (Zpos (digits2_pos my) - 1) < Zpos (digits2_pos (mx * my))); [|lia].
  apply (Z.pow_lt_mono_r_iff 2); [lia|lia|]. eapply Z.le_lt_trans; [|exact H3].
  rewrite Z.pow_add_r, Pos2Z.inj_mul by lia. apply Z.mul_le_mono_nonneg; try done; apply Z.pow_nonneg; lia.
Qed.

Lemma ndiv_ok x y : num_ok x -> num_ok y -> num_ok (ndiv x y).
Proof.
  intros Hx Hy. unfold ndiv, SFdiv. destruct x as [sx|sx| |sx mx ex], y as [sy|sy| |sy my ey]; try done.
  unfold SFdiv_core_binary. simpl Zdigits2. rewrite fexp_eq.
  set (d1 := Zpos (digits2_pos mx)). set (d2 := Zpos (digits2_pos my)).
  set (e' := Z.min _ (ex - ey)).
  assert (Hm : (match ex - ey - e' with Z0 => Zpos mx | Zpos _ => Z.shiftl (Zpos mx) (ex - ey - e') | Zneg _ => 0 end)
    = Zpos mx * 2 ^ (ex - ey - e')).
  { destruct (ex - ey - e') as [|k|k] eqn:E; [|by rewrite Z.shiftl_mul_pow2|lia].
    rewrite Z.pow_0_r. lia. }
  rewrite Hm. clear Hm. set (s := ex - ey - e').
  pose proof (Z.div_mod (Zpos mx * 2 ^ s) (Zpos my) ltac:(lia)) as Hdm.
  pose proof (Z.mod_pos_bound (Zpos mx * 2 ^ s) (Zpos my) ltac:(lia)) as Hr.
  unfold Z.div, Z.modulo in Hdm, Hr.
  destruct (Z.div_eucl (Zpos mx * 2 ^ s) (Zpos my)) as [q r]. simpl in Hdm, Hr.
  pose proof (digits2_bounds mx) as [Hx1 Hx2]. pose proof (digits2_bounds my) as [Hy1 Hy2].
  fold d1 in Hx1, Hx2. fold d2 in Hy1, Hy2.
  assert (Hs : 0 <= s) by lia.
  assert (Hp : 2 ^ (d1 - 1 + s) <= Zpos mx * 2 ^ s).
  { rewrite Z.pow_add_r by lia. apply Z.mul_le_mono_nonneg_r; [apply Z.pow_nonneg; lia|done]. }
  assert (Hq : Zpos my * q + r < 2 ^ d2 * (q + 1)) by nia.
  assert (Hpos : 0 <= q) by nia.
  apply binary_round_aux_ok_z; [done| |].
  - intros ->. destruct (Z.le_gt_cases e' (-1074)); [done|exfalso].
    assert (d1 - 1 + s < d2); [|lia].
    apply (Z.pow_lt_mono_r_iff 2); lia.
  - intros m ->. rewrite fexp_eq. pose proof (digits2_bounds m) as [_ Hm2].
    assert (d1 - 1 + s < d2 + Zpos (digits2_pos m)); [|lia].
    apply (Z.pow_lt_mono_r_iff 2); [lia|lia|]. rewrite (Z.pow_add_r 2 d2) by lia. nia.
Qed.

Lemma of_Z_ok z : num_ok (of_Z z).
Proof. apply binary_normalize_ok. Qed.

Lemma nmax_ok x y : num_ok x -> num_ok y -> num_ok (nmax x y).
Proof. intros. unfold nmax. repeat case_match; done. Qed.

Lemma nmin_ok x y : num_ok x -> num_ok y -> num_ok (nmin x y).
Proof. intros. unfold nmin. repeat case_match; done. Qed.

#[export] Hint Resolve nadd_ok nsub_ok nmul_ok ndiv_ok of_Z_ok nmax_ok nmin_ok : forge.

(** ** Small integers are exact *)
Lemma binary_round_small s p :
  Zpos p < 2 ^ 53 ->
  exists m e, binary_round 53 1024 s p 0 = S754_finite s m e /\
              bounded 53 1024 m e = true /\ Zpos m * 2 ^ (e + 1074) = Zpos p * 2 ^ 1074.
Proof.
  intros Hp. pose proof (digits2_bounds p) as [Hlo Hhi].
  set (d := Zpos (digits2_pos p)) in *.
  assert (Hd : d <= 53).
  { assert (d - 1 < 53); [|lia]. apply (Z.pow_lt_mono_r_iff 2); [lia|lia|]. lia. }
  unfold binary_round. rewrite fexp_eq. fold d. rewrite Z.add_0_r.
  replace (Z.max (d - 53) (-1074)) with (d - 53) by lia.
  assert (Hal : exists m, shl_align p 0 (d - 53) = (m, d - 53) /\
                Zpos m = Zpos p * 2 ^ (53 - d) /\ Zpos (digits2_pos m) = 53).
  { unfold shl_align. rewrite Z.sub_0_r. destruct (d - 53) as [|k|k] eqn:E; [|lia|].
    - exists p. replace (53 - d) with 0 by lia. rewrite Z.pow_0_r. fold d. split; [done|]. lia.
    - exists (Pos.iter xO p k). rewrite pos_shift_left, digits2_shift. fold d.
      replace (53 - d) with (Zpos k) by lia. split_and!; [done|done|lia]. }
  destruct Hal as (m & -> & Hm & Hdm).
  unfold binary_round_aux, shr_fexp. simpl Zdigits2. rewrite fexp_eq, Hdm.
  replace (Z.max (53 + (d - 53) - 53) (-1074) - (d - 53)) with 0 by lia.
  cbn [shr shr_record_of_loc loc_of_shr_record shr_m round_nearest_even].
  simpl Zdigits2. rewrite fexp_eq, Hdm.
  replace (Z.max (53 + (d - 53) - 53) (-1074) - (d - 53)) with 0 by lia.
  cbn [shr shr_record_of_loc shr_m]. rewrite (proj2 (Z.leb_le (d - 53) (1024 - 53))) by lia.
  exists m, (d - 53). split; [done|]. split.
  - pose proof (digits2_bounds m) as [H1 H2]. rewrite Hdm in H1, H2.
    apply bounded_intro; [done|lia|done].
  - rewrite Hm, <- Z.mul_assoc, <- Z.pow_add_r by lia. do 2 f_equal. lia.
Qed.

Lemma of_Z_small z : Z.abs z < 2 ^ 53 -> fin (of_Z z) /\ scaled (of_Z z) = z * 2 ^ 1074.
Proof.
  intros Hz. unfold of_Z, binary_normalize. destruct z as [|p|p]; [done| |];
    destruct (binary_round_small (Z.ltb 0 (Zneg p)) p) as (m & e & Hr & Hb & Hv); try lia.
  - change (Z.ltb 0 (Zneg p)) with false in Hr. rewrite Hr. unfold fin. simpl. done.
  - destruct (binary_round_small true p) as (m' & e' & Hr' & Hb' & Hv'); [lia|].
    rewrite Hr'. unfold fin. simpl. split; [done|]. rewrite Hv'. lia.
Qed.

Lemma nfloor_of_Z z : Z.abs z < 2 ^ 53 -> nfloor (of_Z z) = z.
Proof.
  intros Hz. destruct (of_Z_small z Hz) as [F S]. pose proof (Z.pow_pos_nonneg 2 1074 ltac:(lia) ltac:(lia)) as Hp.
  destruct (of_Z z) as [s|s| |s m e] eqn:E; try done; cbn [scaled nfloor] in *; [nia|].
  apply bounded_spec in F. destruct (Z.leb_spec 0 e) as [He|He].
  - rewrite Z.pow_add_r in S by lia. destruct s; cbn [cond_Zopp] in *; nia.
  - assert (S' : cond_Zopp s (Zpos m) = z * 2 ^ (- e)).
    { assert (H : 2 ^ 1074 = 2 ^ (- e) * 2 ^ (e + 1074)) by (rewrite <- Z.pow_add_r by lia; f_equal; lia).
      rewrite H in S. pose proof (Z.pow_pos_nonneg 2 (e + 1074) ltac:(lia) ltac:(lia)). destruct s; cbn [cond_Zopp] in *; nia. }
    rewrite S'. apply Z.div_mul. apply Z.pow_nonzero; lia.
Qed.

Lemma is_integer_of_Z z : Z.abs z < 2 ^ 53 -> is_integer (of_Z z) = true.
Proof.
  intros Hz. destruct (of_Z_small z Hz) as [F S]. pose proof (nfloor_of_Z z Hz) as Hf.
  unfold is_integer. destruct (of_Z z) as [s|s| |s m e] eqn:E; try done. rewrite Hf, <- E in *.
  rewrite neqb_scaled by done. apply Z.eqb_refl.
Qed.

(** Finite numbers of the same nonzero value are the same. *)
Lemma scaled_inj x y : fin x -> fin y -> scaled x = scaled y -> 0 < scaled x -> x = y.
Proof.
  unfold fin. intros Fx Fy E Hp. destruct x as [| | |s m e]; try done; try (simpl in Hp; lia).
  destruct y as [| | |s' m' e']; cbn [scaled] in *; try lia.
  pose proof (Z.pow_nonneg 2 (e + 1074) ltac:(lia)). pose proof (Z.pow_nonneg 2 (e' + 1074) ltac:(lia)).
  destruct s, s'; cbn [cond_Zopp] in *; try nia. pose proof (mantissa_compare m e m' e' Fx Fy) as Hc. rewrite E, Z.compare_refl in Hc.
  destruct (Z.compare_spec e e') as [->| |]; try done. f_equal. symmetry in Hc. by apply Pos.compare_eq in Hc.
Qed.

(** An integer between bounds. *)
Lemma integer_between x lo hi : fin x -> is_integer x = true -> 1 <= lo -> hi < 2 ^ 53 -> lo <= hi ->
  nlt x (of_Z lo) = false -> nlt (of_Z hi) x = false -> exists z, x = of_Z z /\ lo <= z <= hi.
Proof.
  intros Fx Hi Hlo Hhi Hle H1 H2. destruct (of_Z_small lo ltac:(lia)) as [F1 S1], (of_Z_small hi ltac:(lia)) as [F2 S2].
  rewrite nlt_scaled, Z.ltb_ge, S1 in H1 by done. rewrite nlt_scaled, Z.ltb_ge, S2 in H2 by done.
  pose proof (Z.pow_pos_nonneg 2 1074 ltac:(lia) ltac:(lia)) as Hp. exists (nfloor x).
  assert (Hz : 0 <= nfloor x <= hi).
  { destruct x as [| | |s m e]; try (simpl in *; nia). unfold fin in Fx. simpl in Fx. apply bounded_spec in Fx. cbn [scaled] in *.
    pose proof (Z.pow_nonneg 2 (e + 1074) ltac:(lia)). destruct s; cbn [cond_Zopp] in *; [nia|]. cbn [nfloor cond_Zopp].
    destruct (Z.leb_spec 0 e) as [He|He].
    - rewrite Z.pow_add_r in H2 by lia. nia.
    - assert (E : 2 ^ 1074 = 2 ^ (e + 1074) * 2 ^ (- e)) by (rewrite <- Z.pow_add_r by lia; f_equal; lia).
      pose proof (Z.pow_pos_nonneg 2 (- e) ltac:(lia) ltac:(lia)). pose proof (Z.pow_pos_nonneg 2 (e + 1074) ltac:(lia) ltac:(lia)).
      rewrite E in H2. assert (Zpos m <= hi * 2 ^ (- e)) by nia. split; [apply Z.div_pos; lia|].
      apply Z.div_le_upper_bound; lia. }
  destruct (of_Z_small (nfloor x) ltac:(lia)) as [F3 S3].
  assert (E : scaled x = nfloor x * 2 ^ 1074).
  { destruct x as [| | |s m e]; try (simpl in *; nia). unfold is_integer in Hi. rewrite neqb_scaled, Z.eqb_eq, S3 in Hi by done. by rewrite Hi. }
  split; [|nia]. apply scaled_inj; [done..|by rewrite S3|nia].
Qed.

Lemma nlt_of_Z a b : Z.abs a < 2 ^ 53 -> Z.abs b < 2 ^ 53 -> nlt (of_Z a) (of_Z b) = (a <? b).
Proof.
  intros Ha Hb. destruct (of_Z_small a Ha) as [Fa Sa], (of_Z_small b Hb) as [Fb Sb].
  rewrite nlt_scaled, Sa, Sb by done. pose proof (Z.pow_pos_nonneg 2 1074 ltac:(lia) ltac:(lia)).
  destruct (Z.ltb_spec a b); [apply Z.ltb_lt|apply Z.ltb_ge]; nia.
Qed.

(** ** Decimal text *)
Lemma bigint_acc_app a s t : bigint_acc a (s ++ t)%string = bigint_acc (bigint_acc a s) t.
Proof. revert a. induction s as [|c s IH]; intros a; [done|]. simpl. apply IH. Qed.

Lemma digit_char n : (n < 10)%N ->
  is_digit (pretty.pretty_N_char n) = true /\ Z.of_nat (code (pretty.pretty_N_char n)) - 48 = Z.of_N n.
Proof.
  intros H. destruct n as [|p]; [done|]. do 4 (destruct p as [p|p|]; try done; try lia).
Qed.

Lemma go_digits x : exists ds, (forall s, pretty.pretty_N_go x s = ds ++ s)%string /\ all_chars is_digit ds = true /\
  bigint_acc 0 ds = Z.of_N x /\ (ds = EmptyString <-> x = 0%N) /\ forall n, Z.of_N x < 10 ^ Z.of_nat n -> (String.length ds <= n)%nat.
Proof.
  induction (N.lt_wf_0 x) as [x _ IH]. destruct (N.eq_0_gt_0_cases x) as [->|Hx].
  { exists EmptyString. split_and!; try done. intros. simpl. lia. }
  destruct (IH (x / 10)%N) as (ds & Hs & Hd & Hb & He & Hl); [by apply N.div_lt|].
  destruct (digit_char (x mod 10)%N) as [Hc1 Hc2]; [by apply N.mod_lt|].
  exists (ds ++ String (pretty.pretty_N_char (x mod 10)) EmptyString)%string. split_and!.
  - intros s. rewrite pretty.pretty_N_go_step, Hs by done. by rewrite string_app_assoc.
  - rewrite all_chars_app, Hd. simpl. by rewrite Hc1.
  - rewrite bigint_acc_app, Hb. simpl. rewrite Hc2. rewrite (N.div_mod x 10) at 3 by done. lia.
  - split; [by destruct ds|intros ->; done].
  - intros [|n] Hn; [simpl in Hn; lia|]. 
    assert (Hlen : (String.length ds <= n)%nat).
    { apply Hl. rewrite N2Z.inj_div. apply Z.div_lt_upper_bound; [done|].
      rewrite Nat2Z.inj_succ, Z.pow_succ_r in Hn by lia. lia. }
    rewrite String_length_app. simpl. lia.
Qed.

Lemma dec_digits z : 0 <= z ->
  all_chars is_digit (ToString.dec z) = true /\ BigInt (ToString.dec z) = z /\ ToString.dec z <> EmptyString /\
  forall n, (0 < n)%nat -> z < 10 ^ Z.of_nat n -> (String.length (ToString.dec z) <= n)%nat.
Proof.
  intros Hz. unfold ToString.dec, BigInt. destruct (decide (Z.to_N z = 0%N)) as [E|N].
  - rewrite E. assert (z = 0) as -> by lia. split_and!; try done.
  - destruct (go_digits (Z.to_N z)) as (ds & Hs & Hd & Hb & He & Hl). unfold pretty.pretty, pretty.pretty_N.
    destruct (decide _) as [|_]; [done|]. rewrite Hs, string_app_nil_r, Hb, Z2N.id by done. split_and!; try done.
    + by intros ?%He.
    + intros n _ Hn. apply Hl. by rewrite Z2N.id.
Qed.

(** ** Integers print as their digits *)
(** A 54-digit even mantissa rounds to its half. *)
Lemma binary_round_aux_even s m e :
  Zpos (digits2_pos m) = 53 -> -1075 <= e <= 0 ->
  binary_round_aux 53 1024 s (Zpos m~0) e loc_Exact = S754_finite s m (e + 1).
Proof.
  intros Hm He. assert (Hd : Zpos (digits2_pos m~0) = 54) by (simpl; lia).
  unfold binary_round_aux, shr_fexp. cbn [Zdigits2]. rewrite fexp_eq, Hd.
  replace (Z.max (54 + e - 53) (-1074) - e) with 1 by lia.
  cbn [shr shr_record_of_loc shr_1 SpecFloat.iter_pos loc_of_shr_record shr_m round_nearest_even Pos.iter shr_r shr_s].
  cbn [orb round_nearest_even Zdigits2]. rewrite fexp_eq, Hm.
  replace (Z.max (53 + (e + 1) - 53) (-1074) - (e + 1)) with 0 by lia.
  cbn [shr shr_record_of_loc shr_m]. rewrite (proj2 (Z.leb_le (e + 1) (1024 - 53))) by lia. done.
Qed.

Lemma of_ratio_one z : 0 <= z < 2 ^ 53 -> fin (of_ratio z 1) /\ scaled (of_ratio z 1) = z * 2 ^ 1074.
Proof.
  intros [Hz Hp]. destruct z as [|p|]; [done| |done].
  pose proof (digits2_bounds p) as [Hlo Hhi]. set (d := Zpos (digits2_pos p)) in *.
  assert (Hd : d <= 53).
  { assert (d - 1 < 53); [|lia]. apply (Z.pow_lt_mono_r_iff 2); [lia|lia|]. lia. }
  assert (Hm : exists m, Z.shiftl (Zpos p) (54 - d) = Zpos m~0 /\ Zpos m = Zpos p * 2 ^ (53 - d) /\ Zpos (digits2_pos m) = 53).
  { assert (Hs : Z.shiftl (Zpos p) (54 - d) = 2 * (Zpos p * 2 ^ (53 - d))).
    { rewrite Z.shiftl_mul_pow2 by lia. replace (54 - d) with (1 + (53 - d)) by lia. rewrite Z.pow_add_r by lia. lia. }
    assert (0 < 2 ^ (53 - d)) by (apply Z.pow_pos_nonneg; lia).
    destruct (Zpos p * 2 ^ (53 - d)) as [|m|m] eqn:E; [nia| |nia].
    exists m. split; [rewrite Hs; lia|]. split; [done|]. apply digits2_unique. rewrite <- E.
    assert (H1 : 2 ^ (53 - 1) = 2 ^ (d - 1) * 2 ^ (53 - d)) by (rewrite <- Z.pow_add_r by lia; f_equal; lia).
    assert (H2 : 2 ^ 53 = 2 ^ d * 2 ^ (53 - d)) by (rewrite <- Z.pow_add_r by lia; f_equal; lia).
    rewrite H1, H2. split; [apply Z.mul_le_mono_nonneg_r; lia|apply Z.mul_lt_mono_pos_r; lia]. }
  destruct Hm as (m & Hs & Hm & Hdm).
  assert (E : of_ratio (Zpos p) 1 = S754_finite false m (d - 53)).
  { unfold of_ratio, ndiv, SFdiv, SFdiv_core_binary. cbn [Zdigits2]. fold d. change (Zpos (digits2_pos 1)) with 1.
    rewrite fexp_eq. replace (Z.min (Z.max (d + 0 - (1 + 0) - 53) (-1074)) (0 - 0)) with (d - 54) by lia.
    replace (0 - 0 - (d - 54)) with (54 - d) by lia.
    destruct (54 - d) as [|k|] eqn:Ek; [lia| |lia]. rewrite Hs.
    assert (Hq : Z.div_eucl (Zpos m~0) 1 = (Zpos m~0, 0)).
    { pose proof (Z.div_1_r (Zpos m~0)) as H1. pose proof (Z.mod_1_r (Zpos m~0)) as H2. unfold Z.div, Z.modulo in H1, H2.
      destruct (Z.div_eucl (Zpos m~0) 1). by subst. }
    rewrite Hq. change (new_location 1 0) with loc_Exact. change (xorb false false) with false.
    rewrite binary_round_aux_even by lia. f_equal. lia. }
  rewrite E. pose proof (digits2_bounds m) as [H1 H2]. rewrite Hdm in H1, H2. split.
  - apply bounded_intro; [done|lia|done].
  - cbn [scaled]. rewrite Hm, <- Z.mul_assoc, <- Z.pow_add_r by lia. cbn [cond_Zopp]. do 2 f_equal. lia.
Qed.

Section ShowInt.
Import ToString.

(** The digits of an integer are those of its shortest reading. *)
Lemma exp10_up_spec fuel : forall n z b, 0 < b -> 0 <= n -> z < 10 ^ (n + Z.of_nat fuel) -> (n = 0 \/ 10 ^ (n - 1) <= z) ->
  let r := exp10_up fuel n (z * b) b in n <= r /\ z < 10 ^ r /\ (r = 0 \/ 10 ^ (r - 1) <= z).
Proof.
  induction fuel as [|f IH]; intros n z b Hb Hn Hz Hl; cbn [exp10_up].
  - rewrite Z.add_0_r in Hz. split_and!; [lia|done|lia].
  - destruct (Z.ltb_spec (z * b) (b * 10 ^ n)) as [H|H].
    + split_and!; [lia| |lia]. nia.
    + destruct (IH (n + 1) z b) as (H1 & H2 & H3); [lia..| | |].
      * replace (n + 1 + Z.of_nat f) with (n + Z.of_nat (S f)) by lia. done.
      * right. replace (n + 1 - 1) with n by lia. nia.
      * split_and!; [lia|done|done].
Qed.

Lemma read_exact s p z : 0 <= p -> 0 <= s * 10 ^ p < 2 ^ 53 -> 0 <= z < 2 ^ 53 ->
  neqb (read s p) (of_Z z) = (s * 10 ^ p =? z).
Proof.
  intros Hp Hs Hz. unfold read. rewrite (proj2 (Z.leb_le 0 p)) by done.
  destruct (of_ratio_one _ Hs) as [F1 S1]. destruct (of_Z_small z) as [F2 S2]; [lia|].
  rewrite neqb_scaled by done. rewrite S1, S2. pose proof (Z.pow_pos_nonneg 2 1074 ltac:(lia) ltac:(lia)).
  destruct (Z.eqb_spec (s * 10 ^ p) z) as [->|Hne]; [by rewrite Z.eqb_refl|]. apply Z.eqb_neq. nia.
Qed.

Lemma shortest_exact z b n : 0 < b -> 0 < z -> 10 ^ (n - 1) <= z < 10 ^ n -> 0 < n -> 2 * 10 ^ n <= 2 ^ 53 -> forall fuel k,
  0 < k <= n -> n - k < Z.of_nat fuel ->
  let '(s, k', n') := shortest fuel k (of_Z z) (z * b) b n in n' = n /\ k <= k' <= n /\ s * 10 ^ (n - k') = z.
Proof.
  intros Hb Hz Hn Hn0 Hbig. induction fuel as [|f IH]; intros k Hk Hf; [lia|]. cbn [shortest].
  rewrite (proj2 (Z.leb_le 0 (n - k))) by lia.
  set (p := n - k). assert (H10 : 0 < 10 ^ p) by (apply Z.pow_pos_nonneg; lia).
  set (lo := z * b / (b * 10 ^ p)).
  assert (Hlo : lo = z / 10 ^ p) by (unfold lo; rewrite (Z.mul_comm z b); apply Z.div_mul_cancel_l; lia).
  assert (Hr : forall s, s = lo \/ s = lo + 1 -> neqb (read s p) (of_Z z) = (s * 10 ^ p =? z)).
  { pose proof (Z.div_mod z (10 ^ p) ltac:(lia)) as Hd. pose proof (Z.mod_pos_bound z (10 ^ p) ltac:(lia)).
    assert (10 ^ p <= 10 ^ n) by (apply Z.pow_le_mono_r; lia).
    assert (Hlo0 : 0 <= lo) by (rewrite Hlo; apply Z.div_pos; lia). rewrite <- Hlo in Hd. clearbody lo.
    intros s Hs. assert (0 <= s * 10 ^ p <= z + 10 ^ p) by (destruct Hs as [-> | ->]; nia).
    apply read_exact; lia. }
  set (near := if 2 * (z * b - lo * (b * 10 ^ p)) <? b * 10 ^ p then lo else lo + 1).
  set (far := if near =? lo then lo + 1 else lo).
  assert (Hnear : near = lo \/ near = lo + 1) by (subst near; case_match; auto).
  assert (Hfar : far = lo \/ far = lo + 1) by (subst far; case_match; auto).
  rewrite !Hr by done.
  destruct ((10 ^ (k - 1) <=? near) && (near * 10 ^ p =? z)) eqn:E1; [|destruct ((10 ^ (k - 1) <=? far) && (far * 10 ^ p =? z)) eqn:E2].
  - split_and!; [done|lia..|]. fold p. apply andb_true_iff in E1 as [_ E1]. lia.
  - split_and!; [done|lia..|]. fold p. apply andb_true_iff in E2 as [_ E2]. lia.
  - assert (k <> n).
    { intros ->. assert (Hp1 : 10 ^ p = 1) by (subst p; by rewrite Z.sub_diag).
      rewrite Hp1, Z.div_1_r in Hlo. assert (near = z) as Hnz.
      { subst near. rewrite Hp1, Hlo, Z.mul_1_r, Z.sub_diag. rewrite (proj2 (Z.ltb_lt _ _)) by lia. done. }
      rewrite Hnz, Hp1 in E1. apply andb_false_iff in E1 as [E1|E1]; lia. }
    specialize (IH (k + 1) ltac:(lia) ltac:(lia)). destruct (shortest f (k + 1) (of_Z z) (z * b) b n) as [[s k'] n'].
    destruct IH as (-> & ? & ?). split_and!; [done|lia..|done].
Qed.


Lemma dec_zeros s p : 0 < s -> (dec s ++ zeros p)%string = dec (s * 10 ^ Z.of_nat p).
Proof.
  intros Hs. induction p as [|p IH] using nat_ind.
  - cbn [zeros]. by rewrite Z.mul_1_r, string_app_nil_r.
  - assert (Hz : (zeros (S p) = zeros p ++ "0")%string).
    { clear IH. induction p as [|p IH]; [done|]. cbn [zeros] in *. rewrite string_app_cons. by rewrite <- IH. }
    rewrite Hz, <- string_app_assoc, IH, Nat2Z.inj_succ, Z.pow_succ_r, (Z.mul_comm 10), Z.mul_assoc by lia.
    set (x := s * 10 ^ Z.of_nat p). assert (0 < x) by (subst x; apply Z.mul_pos_pos; [done|apply Z.pow_pos_nonneg; lia]).
    unfold dec, pretty.pretty, pretty.pretty_N. rewrite Z2N.inj_mul by lia.
    rewrite !decide_False by lia. rewrite (pretty.pretty_N_go_step (_ * _)) by lia.
    rewrite N.div_mul, N.mod_mul by done.
    destruct (go_digits (Z.to_N x)) as (ds & Hd & _). by rewrite !Hd, string_app_nil_r.
Qed.

(** An integer from 0 below 10^15 prints as its decimal digits. *)
Theorem show_num_Z z : 0 <= z < 10 ^ 15 -> show_num (of_Z z) = dec z.
Proof.
  intros [Hz Hb]. destruct (Z.eq_dec z 0) as [->|Hz0]; [done|].
  destruct (of_Z_small z) as [F S]; [lia|].
  assert (Hx : exists m e, of_Z z = S754_finite false m e /\ -1074 <= e).
  { pose proof (Z.pow_pos_nonneg 2 1074 ltac:(lia) ltac:(lia)) as Hp.
    destruct (of_Z z) as [s|s| |[] m e]; cbn [scaled cond_Zopp] in S; [nia|done|done| |].
    - assert (0 <= Zpos m * 2 ^ (e + 1074)) by (apply Z.mul_nonneg_nonneg; [lia|apply Z.pow_nonneg; lia]). nia.
    - exists m, e. split; [done|]. apply bounded_spec in F. lia. }
  destruct Hx as (m & e & E & He). rewrite E in S. cbn [scaled cond_Zopp] in S.
  unfold show_num. rewrite E. unfold positive_string. rewrite <- E.

  set (a := Zpos m * 2 ^ Z.max e 0). set (b := 2 ^ Z.max (- e) 0).
  assert (Hb0 : 0 < b) by (apply Z.pow_pos_nonneg; lia).
  assert (Ha : a = z * b).
  { subst a b. pose proof (Z.pow_pos_nonneg 2 1074 ltac:(lia) ltac:(lia)). destruct (Z.le_ge_cases 0 e) as [H0|H0].
    - rewrite (Z.max_l e), (Z.max_r (- e)) by lia. rewrite Z.pow_add_r in S by lia. rewrite Z.pow_0_r. nia.
    - rewrite (Z.max_r e), (Z.max_l (- e)) by lia. rewrite Z.pow_0_r. 
      assert (S' : Zpos m * 2 ^ (e + 1074) = z * 2 ^ (- e) * 2 ^ (e + 1074)).
      { rewrite S, <- Z.mul_assoc, <- Z.pow_add_r by lia. do 2 f_equal. lia. }
      pose proof (Z.pow_pos_nonneg 2 (e + 1074) ltac:(lia) ltac:(lia)). nia. }
  rewrite Ha. assert (Hn : exp10 (z * b) b = exp10_up 400 0 (z * b) b).
  { unfold exp10. rewrite (proj2 (Z.ltb_ge _ _)) by nia. done. }
  rewrite Hn. destruct (exp10_up_spec 400 0 z b) as (H1 & H2 & H3); [lia|lia| |by left|].
  { eapply Z.lt_le_trans; [apply Hb|]. apply Z.pow_le_mono_r; lia. }
  set (n := exp10_up 400 0 (z * b) b) in *.
  assert (Hn0 : 0 < n). { destruct (Z.eq_dec n 0) as [En|]; [|lia]. rewrite En in H2. simpl in H2. lia. }
  destruct H3 as [H3|H3]; [lia|].
  assert (Hn15 : n <= 15).
  { assert (n - 1 < 15); [|lia]. apply (Z.pow_lt_mono_r_iff 10); lia. }
  assert (Hbig : 2 * 10 ^ n <= 2 ^ 53).
  { assert (10 ^ n <= 10 ^ 15) by (apply Z.pow_le_mono_r; lia). lia. }
  pose proof (shortest_exact z b n Hb0 ltac:(lia) (conj H3 H2) Hn0 Hbig 17 1 ltac:(lia) ltac:(lia)) as Hs.
  destruct (shortest 17 1 (of_Z z) (z * b) b n) as [[s k] n']. destruct Hs as (-> & Hk & Hs).
  assert (Hs0 : 0 < s) by (pose proof (Z.pow_pos_nonneg 10 (n - k) ltac:(lia) ltac:(lia)); nia).
  destruct (Z.eqb_spec s (10 ^ k)) as [->|Hne].
  { rewrite <- Z.pow_add_r in Hs by lia. replace (k + (n - k)) with n in Hs by lia. lia. }
  unfold layout. rewrite (proj2 (andb_true_iff _ _)) by (split; lia).
  rewrite dec_zeros by done. rewrite Z2Nat.id by lia. by rewrite Hs.
Qed.
End ShowInt.
