(* ===== verification/Part.v ===== *)
(** * The Part Definition ([packages/schema/src/part.ts])

    The registry's data model: one record per schema object, one boolean check
    per field schema (regular expression, bound or refinement), and the
    cross-field checks of [superRefine] as the list of issues they add.
    [units.ts] and [electrical.ts], which the same package holds, are here too. *)
From S2P Require Import Prelude JsString Regex JsNumber.
#[local] Open Scope string_scope.
#[local] Open Scope list_scope.
#[local] Open Scope nat_scope.

(** An entry of [error.issues]: the path is joined with dots when printed. *)
Record Issue := mkIssue { issue_path : list string; issue_message : string }.
#[export] Instance Issue_eq_dec : EqDecision Issue.
Proof. solve_decision. Defined.

Definition str (x : string) : list string := [x].
Definition when {A} (b : bool) (x : A) : list A := if b then [x] else [].

(** ** Versions *)
Definition NUMERIC_ID : re := Alt (lit "0") (Cat digit19 (Star digit)).
Definition is_alpha_hyphen (c : ascii) : bool := is_lower c || is_upper c || Ascii.eqb c "-".
Definition is_ident_char (c : ascii) : bool := is_digit c || is_alpha_hyphen c.
Definition PRERELEASE_ID : re :=
  Alt NUMERIC_ID (rcat [Star digit; Chr is_alpha_hyphen; Star (Chr is_ident_char)]).
Definition SEMVER_CORE : re :=
  rcat [NUMERIC_ID; lit "."; NUMERIC_ID; lit "."; NUMERIC_ID;
        ropt (rcat [lit "-"; PRERELEASE_ID; Star (Cat (lit ".") PRERELEASE_ID)])].

Definition SemVer (s : string) : bool := test SEMVER_CORE s.
Definition SemVerRange (s : string) : bool :=
  test (Cat (ropt (ralt [lit ">="; lit "^"; lit "~"])) SEMVER_CORE) s.

(** ** Enumerations *)
Inductive PartCategory := visual | physical | location | communication | motion | energy.
#[export] Instance PartCategory_eq_dec : EqDecision PartCategory.
Proof. solve_decision. Defined.
Definition show_category (c : PartCategory) : string :=
  match c with
  | visual => "visual" | physical => "physical" | location => "location"
  | communication => "communication" | motion => "motion" | energy => "energy"
  end.

(** The id's letter is the category's. *)
Definition PART_CATEGORY_PREFIX (c : PartCategory) : string :=
  match c with
  | visual => "V" | physical => "P" | location => "L"
  | communication => "C" | motion => "M" | energy => "E"
  end.

Definition PartId (s : string) : bool :=
  test (rcat [Chr (one_of "VPLCME"); lit "-"; digit; digit; digit]) s.

Inductive PartStatus := draft | active | deprecated | retired.
#[export] Instance PartStatus_eq_dec : EqDecision PartStatus.
Proof. solve_decision. Defined.
Definition show_status (s : PartStatus) : string :=
  match s with
  | draft => "draft" | active => "active" | deprecated => "deprecated" | retired => "retired"
  end.

Inductive PartInterface := i2c | spi | uart | one_wire | pwm | adc | gpio | power | host.
#[export] Instance PartInterface_eq_dec : EqDecision PartInterface.
Proof. solve_decision. Defined.
Definition show_interface (i : PartInterface) : string :=
  match i with
  | i2c => "i2c" | spi => "spi" | uart => "uart" | one_wire => "1-wire" | pwm => "pwm"
  | adc => "adc" | gpio => "gpio" | power => "power" | host => "host"
  end.

Inductive Exposure := exp_none | vent | window | probe_external.
#[export] Instance Exposure_eq_dec : EqDecision Exposure.
Proof. solve_decision. Defined.

(** ** Identifiers *)
Definition cap_char (c : ascii) : bool := is_lower_digit c || Ascii.eqb c "_".
Definition Capability (s : string) : bool :=
  test (rcat [Chr is_lower; Star (Chr is_lower_digit);
              rplus (Cat (lit ".") (rplus (Chr cap_char)))]) s.

Definition kebab : re :=
  Cat (rplus (Chr is_lower_digit)) (Star (Cat (lit "-") (rplus (Chr is_lower_digit)))).

Definition ConnectorId (s : string) : bool :=
  test (rcat [kebab; lit "-v"; rplus digit]) s.

(** Lower-case hex, 0x08 to 0x77. *)
Definition hex_af (c : ascii) : bool := in_range "a" "f" c.
Definition I2cAddress (s : string) : bool :=
  test (Cat (lit "0x") (ralt
    [Cat (lit "0") (Chr (fun c => Ascii.eqb c "8" || Ascii.eqb c "9" || hex_af c));
     Cat (Chr (in_range "1" "6")) (Chr (fun c => is_digit c || hex_af c));
     Cat (lit "7") (Chr (in_range "0" "7"))])) s.

(** ** Numbers: [z.number()] refuses NaN and the infinities *)
Definition Positive (x : num) : bool := isFinite x && nlt nzero x.
Definition nonnegative (x : num) : bool := isFinite x && nle nzero x.

(** [[min, max]] volts *)
Definition Range : Type := (num * num)%type.
Definition VoltageRange (r : Range) : bool :=
  Positive r.1 && Positive r.2 && nle r.1 r.2.

(** ** Electrical *)
Record PowerInput := mkPowerInput { pi_name : string; pi_voltage_range : Range }.
Definition PowerInput_ok (p : PowerInput) : bool :=
  test kebab (pi_name p) && negb (pi_name p ==s "primary") && VoltageRange (pi_voltage_range p).

Record CurrentDraw := mkDraw { idle : num; active_ma : num }.
Definition current_draw_ok (c : CurrentDraw) : bool :=
  nonnegative (idle c) && nonnegative (active_ma c) && nle (idle c) (active_ma c).

Record Supply := mkSupply { output_v : Range; max_output_ma : num; capacity_mah : option num }.
Definition opt_ok {A} (f : A -> bool) (o : option A) : bool :=
  match o with Some x => f x | None => true end.
Definition Supply_ok (s : Supply) : bool :=
  VoltageRange (output_v s) && Positive (max_output_ma s) && opt_ok Positive (capacity_mah s).

Record PartElectrical := mkElectrical {
  interface : PartInterface;
  connector : string;
  voltage_range : Range;
  alt_inputs : option (list PowerInput);
  current_draw_ma : CurrentDraw;
  requires : list string;
  conflicts : list string;
  i2c_address : option string;
  logic_v : option Range;
  supply : option Supply
}.

Definition PartElectrical_ok (e : PartElectrical) : bool :=
  ConnectorId (connector e) && VoltageRange (voltage_range e) &&
  opt_ok (forallb PowerInput_ok) (alt_inputs e) && current_draw_ok (current_draw_ma e) &&
  forallb Capability (requires e) && forallb PartId (conflicts e) &&
  opt_ok I2cAddress (i2c_address e) && opt_ok VoltageRange (logic_v e) && opt_ok Supply_ok (supply e).

(** ** Mechanical *)
Definition HoleXY (h : num * num) : bool := nonnegative h.1 && nonnegative h.2.

Inductive Mount :=
| cable_gland (d_mm : num)
| standoffs (hole_d_mm : num) (holes_mm : list (num * num))
| tabs (hole_d_mm hole_spacing_mm : num)
| cradle
| external
| unspecified.

Definition Mount_ok (m : Mount) : bool :=
  match m with
  | cable_gland d => Positive d
  | standoffs d holes => Positive d && negb (Nat.eqb (length holes) 0) && forallb HoleXY holes
  | tabs d s => Positive d && Positive s
  | cradle | external | unspecified => true
  end.

Definition KNOWN_ENVIRONMENT_FLAGS : list string :=
  ["waterproof"; "needs-airflow"; "needs-light"; "needs-line-of-sight"; "moving-parts";
   "rf-radiator"; "li-ion"].

(** [Number(s)] of an optionally signed digit string, as an exact integer. *)
Definition signed_int (s : string) : Z :=
  match s with
  | String "-" t => (- BigInt t)%Z
  | _ => BigInt s
  end.
Definition SIGNED : re := Cat (ropt (lit "-")) (rplus digit).

(** [/^temp:(-?\d+)\.\.(-?\d+)C$/]: the two groups, when it matches. *)
Definition TEMP_FLAG (s : string) : option (string * string) :=
  if test (rcat [lit "temp:"; SIGNED; lit ".."; SIGNED; lit "C"]) s then
    let body := slice_from 5 s in
    match index_of "." body with
    | Some n =>
        let rest := slice_from (n + 2) body in
        Some (slice_to n body, slice_to (String.length rest - 1) rest)
    | None => None
    end
  else None.

Definition EnvironmentFlag (s : string) : bool :=
  inb s KNOWN_ENVIRONMENT_FLAGS ||
  match TEMP_FLAG s with
  | Some (lo, hi) => nlt (of_Z (signed_int lo)) (of_Z (signed_int hi))
  | None => false
  end.

Record PartMechanical := mkMechanical {
  footprint_file : string;
  bounding_mm : option (num * num * num);
  mount : Mount;
  exposure : Exposure;
  environment_flags : list string
}.

Definition is_file_char (c : ascii) : bool := is_ident_char c || Ascii.eqb c "_".
Definition footprint_re : re :=
  rcat [rplus (Chr is_file_char); Star (Cat (lit "/") (rplus (Chr is_file_char)));
        lit "."; Alt (lit "step") (lit "stp")].

Definition PartMechanical_ok (m : PartMechanical) : bool :=
  test footprint_re (footprint_file m) &&
  opt_ok (fun b => Positive b.1.1 && Positive b.1.2 && Positive b.2) (bounding_mm m) &&
  Mount_ok (mount m) && forallb EnvironmentFlag (environment_flags m).

(** ** Software *)
Record PartSoftware := mkSoftware {
  driver_pkg : option string;
  driver_version : option string;
  sdk_module : option string;
  capabilities : list string;
  min_runtime : string
}.

Definition driver_re : re :=
  Cat (lit "hsx-driver-") (rplus (Chr (fun c => is_lower_digit c || Ascii.eqb c "-"))).
Definition sdk_re : re :=
  Cat (rplus (Chr is_lower))
      (rplus (Cat (lit "/") (rplus (Chr (fun c => is_lower c || Ascii.eqb c "_"))))).

Definition is_null {A} (o : option A) : bool := match o with None => true | Some _ => false end.

Definition PartSoftware_ok (s : PartSoftware) : bool :=
  opt_ok (test driver_re) (driver_pkg s) && opt_ok SemVer (driver_version s) &&
  opt_ok (test sdk_re) (sdk_module s) &&
  (1 <=? length (capabilities s)) && forallb Capability (capabilities s) &&
  SemVerRange (min_runtime s) &&
  Bool.eqb (is_null (driver_pkg s)) (is_null (driver_version s)).

(** ** Cloud *)
Inductive PartWidget := line_chart | stat | gauge | event_timeline.
Inductive PartAlertTemplate := out_of_range | on_event | low_battery.
#[export] Instance PartWidget_eq_dec : EqDecision PartWidget.
Proof. solve_decision. Defined.
#[export] Instance PartAlertTemplate_eq_dec : EqDecision PartAlertTemplate.
Proof. solve_decision. Defined.

Record PartCloud := mkCloud {
  telemetry_schema : option string;
  default_widgets : list PartWidget;
  alert_templates : list PartAlertTemplate
}.

Definition telemetry_re : re :=
  rcat [Chr is_lower; Star (Chr cap_char); lit ".v"; rplus digit].
Definition PartCloud_ok (c : PartCloud) : bool := opt_ok (test telemetry_re) (telemetry_schema c).

(** ** Commerce *)
Inductive Vendor := adafruit | sparkfun | digikey | mouser.
#[export] Instance Vendor_eq_dec : EqDecision Vendor.
Proof. solve_decision. Defined.

Record Supplier := mkSupplier { vendor : Vendor; sku : string; url : string }.
Record PartCommerce := mkCommerce { suppliers : list Supplier; unit_cost_usd : option num }.

(** [https_url] is the URL validator of the schema library. *)
Definition PartCommerce_ok (https_url : string -> bool) (c : PartCommerce) : bool :=
  forallb (fun s => (1 <=? String.length (sku s)) && https_url (url s)) (suppliers c) &&
  opt_ok Positive (unit_cost_usd c).

(** ** The part *)
Record PartDefinition := mkPart {
  schema_hint : option string;
  part_id : string;
  version : string;
  part_name : string;
  category : PartCategory;
  status : PartStatus;
  successor : option string;
  electrical : PartElectrical;
  mechanical : PartMechanical;
  software : PartSoftware;
  cloud : PartCloud;
  commerce : PartCommerce
}.

(** Capabilities that carry a value, a reading or a command. *)
Definition isValueCapability (c : string) : bool := startsWith "read." c || startsWith "act." c.

Definition PartDefinition_fields (https_url : string -> bool) (p : PartDefinition) : bool :=
  PartId (part_id p) && SemVer (version p) && (1 <=? String.length (part_name p)) &&
  opt_ok PartId (successor p) && PartElectrical_ok (electrical p) &&
  PartMechanical_ok (mechanical p) && PartSoftware_ok (software p) && PartCloud_ok (cloud p) &&
  PartCommerce_ok https_url (commerce p).

Definition valueCaps (p : PartDefinition) : list string :=
  List.filter isValueCapability (capabilities (software p)).

Definition passive (e : PartElectrical) : bool :=
  bool_decide (interface e = power) || bool_decide (interface e = host).

Definition is_unspecified (m : Mount) : bool :=
  match m with unspecified => true | _ => false end.

Definition opt_eqb (o : option string) (s : string) : bool :=
  match o with Some t => t ==s s | None => false end.

(** The checks at every status. *)
Definition refine_always (p : PartDefinition) : list Issue :=
  let e := electrical p in
  let prefix := PART_CATEGORY_PREFIX (category p) in
  let st := status p in
  when (negb (startsWith (prefix ++ "-")%string (part_id p)))
    (mkIssue ["id"] (show_category (category p) ++ " part ids start with " ++ prefix ++ "-")%string) ++
  when (bool_decide (st = deprecated) && is_null (successor p))
    (mkIssue ["successor"] "a deprecated part needs a successor") ++
  when ((bool_decide (st = draft) || bool_decide (st = active)) && negb (is_null (successor p)))
    (mkIssue ["successor"] ("a " ++ show_status st ++ " part has no successor")%string) ++
  when (opt_eqb (successor p) (part_id p))
    (mkIssue ["successor"] "a part can't succeed itself") ++
  when (bool_decide (category p = energy) && is_null (supply e))
    (mkIssue ["electrical"; "supply"] "energy parts declare supply") ++
  when (negb (Bool.eqb (bool_decide (interface e = i2c)) (negb (is_null (i2c_address e)))))
    (mkIssue ["electrical"; "i2c_address"] "i2c parts have an i2c_address; other parts have null") ++
  when (bool_decide (interface e = host) &&
        match logic_v e with Some (lo, hi) => negb (neqb lo hi) | None => true end)
    (mkIssue ["electrical"; "logic_v"]
       "the host declares the one IO voltage it drives, as logic_v [v, v]") ++
  when (bool_decide (interface e = power) && negb (is_null (logic_v e)))
    (mkIssue ["electrical"; "logic_v"] "power parts have no signal lines; logic_v is null") ++
  when (negb (all_distinct (pi_name <$> default [] (alt_inputs e))))
    (mkIssue ["electrical"; "alt_inputs"] "alt_inputs names are unique") ++
  when (is_null (telemetry_schema (cloud p)) &&
        ((0 <? length (default_widgets (cloud p))) || (0 <? length (alert_templates (cloud p)))))
    (mkIssue ["cloud"; "telemetry_schema"]
       "default_widgets and alert_templates need a telemetry_schema") ++
  when (inb low_battery (alert_templates (cloud p)) &&
        negb (inb "power.battery" (capabilities (software p))))
    (mkIssue ["cloud"; "alert_templates"] "low_battery needs the power.battery capability") ++
  when (inb out_of_range (alert_templates (cloud p)) &&
        negb (existsb (fun c => startsWith "read." c && negb (endsWith "_bool" c)) (valueCaps p)))
    (mkIssue ["cloud"; "alert_templates"] "out_of_range needs a numeric read.* capability").

(** The checks a draft is excused from. *)
Definition refine_past_draft (p : PartDefinition) : list Issue :=
  let e := electrical p in
  let where_ := ("a " ++ show_status (status p) ++ " part")%string in
  let iface := show_interface (interface e) in
  let caps := join ", " (valueCaps p) in
  when (is_unspecified (mount (mechanical p)))
    (mkIssue ["mechanical"; "mount"] "only draft parts may leave mount unspecified") ++
  when (is_null (bounding_mm (mechanical p)))
    (mkIssue ["mechanical"; "bounding_mm"] "only draft parts may leave bounding_mm null") ++
  when (Nat.eqb (length (suppliers (commerce p))) 0)
    (mkIssue ["commerce"; "suppliers"] "only draft parts may have no supplier") ++
  when (is_null (unit_cost_usd (commerce p)))
    (mkIssue ["commerce"; "unit_cost_usd"] "only draft parts may leave unit_cost_usd null") ++
  (if negb (passive e) || (0 <? length (valueCaps p)) then
     when (is_null (driver_pkg (software p)))
       (mkIssue ["software"; "driver_pkg"]
          (where_ ++ " with " ++ iface ++ " or read/act capabilities needs a driver")%string) ++
     when (is_null (sdk_module (software p)))
       (mkIssue ["software"; "sdk_module"]
          (where_ ++ " with " ++ iface ++ " or read/act capabilities needs an sdk_module")%string)
   else []) ++
  (if 0 <? length (valueCaps p) then
     when (is_null (telemetry_schema (cloud p)))
       (mkIssue ["cloud"; "telemetry_schema"]
          (where_ ++ " with " ++ caps ++ " needs a telemetry_schema")%string) ++
     when (Nat.eqb (length (default_widgets (cloud p))) 0)
       (mkIssue ["cloud"; "default_widgets"]
          (where_ ++ " with " ++ caps ++ " needs a default widget")%string)
   else []) ++
  when (negb (passive e) && is_null (logic_v e))
    (mkIssue ["electrical"; "logic_v"] (where_ ++ " on a signal bus declares logic_v")%string).

Definition superRefine (p : PartDefinition) : list Issue :=
  refine_always p ++ (if bool_decide (status p = draft) then [] else refine_past_draft p).

(** What [PartDefinition.parse] accepts, once the JSON has the record's shape. *)
Definition PartDefinition_ok (https_url : string -> bool) (p : PartDefinition) : bool :=
  PartDefinition_fields https_url p && match superRefine p with [] => true | _ => false end.

(** ** Units ([units.ts]) *)
Definition UNIT_SUFFIXES : list (string * string) :=
  [("_c", "°C"); ("_pct", "%"); ("_hpa", "hPa"); ("_g", "g"); ("_dps", "°/s"); ("_cm", "cm");
   ("_lux", "lx"); ("_deg", "°"); ("_bool", "true/false")].
Definition VALUE_NAMESPACES : list string := ["read"; "act"].

(** [string | null | undefined] *)
Inductive Unit_ := UnitOf (u : string) | UnitNull | UnitUndefined.

Definition capabilityUnit (capability : string) : Unit_ :=
  let namespace := hd "" (split_on "." capability) in
  if negb (existsb (fun ns => ns ==s namespace) VALUE_NAMESPACES) then UnitNull
  else match List.find (fun su => endsWith su.1 capability) UNIT_SUFFIXES with
       | Some su => UnitOf su.2
       | None => UnitUndefined
       end.

(** ** Voltage windows ([electrical.ts]) *)
Definition usableWindow (source input : Range) : option Range :=
  if nlt input.2 source.2 then None
  else
    let low := nmax source.1 input.1 in
    if nle low source.2 then Some (low, source.2) else None.

Lemma when_nil {A} b (x : A) : when b x = [] <-> b = false.
Proof. by destruct b. Qed.
