(* ===== verification/Semver.v ===== *)
(** * Version order ([registry/scripts/lib/semver.ts]) and runtime ranges
    ([apps/matcher/src/runtime.ts])

    [compareSemver] is shown to be a total order on all strings, and the range
    test of the matcher is characterised on that order. *)
From S2P Require Import Prelude JsString Regex JsNumberFacts Part.
#[local] Open Scope string_scope.
#[local] Open Scope list_scope.
#[local] Open Scope Z_scope.

(** ** [compareSemver] *)

(** Splits at the first hyphen only. *)
Definition splitVersion (version : string) : string * option string :=
  match index_of "-" version with
  | None => (version, None)
  | Some hyphen => (slice_to hyphen version, Some (slice_from (hyphen + 1) version))
  end.

Definition NUMERIC (s : string) : bool := all_digits s.

(** Numerics by value below everything else, which compares as strings. *)
Definition compareIdentifier (a b : string) : Z :=
  match NUMERIC a, NUMERIC b with
  | true, true => let x := BigInt a in let y := BigInt b in
                  if x <? y then -1 else if y <? x then 1 else 0
  | true, false => -1
  | false, true => 1
  | false, false => compareText a b
  end.

(** Lexicographic; a shorter run of equal identifiers sorts first. *)
Fixpoint compareIdentifiers (a b : list string) : Z :=
  match a, b with
  | [], [] => 0
  | [], _ :: _ => -1
  | _ :: _, [] => 1
  | x :: a, y :: b =>
      let r := compareIdentifier x y in
      if r =? 0 then compareIdentifiers a b else r
  end.

Definition precedence (a b : string) : Z :=
  let '(coreA, preA) := splitVersion a in
  let '(coreB, preB) := splitVersion b in
  let result := compareIdentifiers (split_on "." coreA) (split_on "." coreB) in
  if result =? 0 then
    match preA, preB with
    | None, Some _ => 1
    | Some _, None => -1
    | Some pa, Some pb => compareIdentifiers (split_on "." pa) (split_on "." pb)
    | None, None => result
    end
  else result.

Definition compareSemver (a b : string) : Z :=
  let result := precedence a b in
  if result =? 0 then compareText a b else result.

(** ** [satisfiesRuntime] *)

(** [/^(>=|\^|~)/.exec(range)?.[0] ?? ""] *)
Definition range_op (range : string) : string :=
  if startsWith ">=" range then ">="
  else if startsWith "^" range then "^"
  else if startsWith "~" range then "~"
  else "".

Definition show_Z (z : Z) : string := JsNumber.show_num (JsNumber.of_Z z).
Definition dec3 (a b c : Z) : string :=
  (JsNumber.ToString.dec a ++ "." ++ JsNumber.ToString.dec b ++ "." ++ JsNumber.ToString.dec c)%string.

(** [floor.split("-")[0]!.split(".").map(BigInt)], for a valid floor. *)
Definition core_numbers (floor : string) : Z * Z * Z :=
  match split_on "." (hd "" (split_on "-" floor)) with
  | a :: b :: c :: _ => (BigInt a, BigInt b, BigInt c)
  | _ => (0, 0, 0)
  end.

Definition upper_bound (op floor : string) : string :=
  let '(major, minor, patch) := core_numbers floor in
  if op ==s "~" then dec3 major (minor + 1) 0
  else if 0 <? major then dec3 (major + 1) 0 0
  else if 0 <? minor then dec3 0 (minor + 1) 0
  else dec3 0 0 (patch + 1).

Definition satisfiesRuntime (version range : string) : bool :=
  let op := range_op range in
  let floor := slice_from (String.length op) range in
  if op ==s "" then compareSemver version floor =? 0
  else if has_char "-" version &&
          (negb (has_char "-" floor) ||
           negb (hd "" (split_on "-" version) ==s hd "" (split_on "-" floor))) then false
  else if compareSemver version floor <? 0 then false
  else if op ==s ">=" then true
  else compareSemver version (upper_bound op floor) <? 0.

(** ** The order *)

Section Comparator.
(** A comparator that is antisymmetric and transitive in the three ways the
    lexicographic extension needs. *)
Context {A : Type} (c : A -> A -> Z).
Record ordering : Prop := {
  ord_antisym : forall x y, c y x = - c x y;
  ord_eq_l : forall x y z, c x y = 0 -> c x z = c y z;
  ord_trans : forall x y z, c x y < 0 -> c y z < 0 -> c x z < 0
}.
End Comparator.

Lemma ord_refl {A} (c : A -> A -> Z) : ordering c -> forall x, c x x = 0.
Proof. intros [Ha _ _] x. specialize (Ha x x). lia. Qed.

Lemma ord_eq_r {A} (c : A -> A -> Z) : ordering c -> forall x y z, c x y = 0 -> c z x = c z y.
Proof.
  intros [Ha He _] x y z H. rewrite (Ha x z), (Ha y z). f_equal. by apply He.
Qed.

Lemma ord_le_trans {A} (c : A -> A -> Z) :
  ordering c -> forall x y z, c x y <= 0 -> c y z <= 0 -> c x z <= 0.
Proof.
  intros Hc x y z H1 H2.
  destruct (Z.eq_dec (c x y) 0) as [E1|E1]; [by rewrite (ord_eq_l _ Hc x y z)|].
  destruct (Z.eq_dec (c y z) 0) as [E2|E2]; [rewrite <- (ord_eq_r _ Hc y z x); lia|].
  pose proof (ord_trans _ Hc x y z). lia.
Qed.

(** Breaking ties of one ordering with another is an ordering. *)
Lemma ordering_then {A} (c d : A -> A -> Z) :
  ordering c -> ordering d -> ordering (fun x y => if c x y =? 0 then d x y else c x y).
Proof.
  intros Hc Hd. split.
  - intros x y. rewrite (ord_antisym _ Hc x y), (ord_antisym _ Hd x y).
    destruct (Z.eqb_spec (c x y) 0) as [E|E]; [by rewrite E|].
    by replace (- c x y =? 0) with false by lia.
  - intros x y z. destruct (Z.eqb_spec (c x y) 0) as [E|E]; [|lia].
    intros H. rewrite (ord_eq_l _ Hc x y z E), (ord_eq_l _ Hd x y z H). done.
  - intros x y z. destruct (Z.eqb_spec (c x y) 0) as [E|E], (Z.eqb_spec (c y z) 0) as [F|F].
    + rewrite (ord_eq_l _ Hc x y z E), F. apply (ord_trans _ Hd).
    + rewrite (ord_eq_l _ Hc x y z E). by rewrite (proj2 (Z.eqb_neq _ _) F).
    + rewrite <- (ord_eq_r _ Hc y z x F). by rewrite (proj2 (Z.eqb_neq _ _) E).
    + intros H1 H2. pose proof (ord_trans _ Hc x y z H1 H2).
      by replace (c x z =? 0) with false by lia.
Qed.

(** Comparing through a projection is an ordering. *)
Lemma ordering_on {A B} (f : A -> B) (c : B -> B -> Z) :
  ordering c -> ordering (fun x y => c (f x) (f y)).
Proof.
  intros [Ha He Ht]. split; intros; [apply Ha|by apply He|by eapply Ht].
Qed.

Lemma ordering_text : ordering compareText.
Proof.
  split.
  - apply compareText_antisym.
  - by intros x y z ->%compareText_zero.
  - intros x y z. unfold compareText.
    destruct (str_lt x y) eqn:E1; [|destruct (str_lt y x); lia].
    destruct (str_lt y z) eqn:E2; [|destruct (str_lt z y); lia].
    by rewrite (str_lt_trans _ _ _ E1 E2).
Qed.

Lemma ordering_Z : ordering (fun x y : Z => if x <? y then -1 else if y <? x then 1 else 0).
Proof. split; intros; repeat case_match; lia. Qed.

Lemma ordering_identifier : ordering compareIdentifier.
Proof.
  unfold compareIdentifier. split.
  - intros x y. destruct (NUMERIC x), (NUMERIC y); try done; [|apply compareText_antisym].
    apply (ord_antisym _ ordering_Z).
  - intros x y z. destruct (NUMERIC x), (NUMERIC y), (NUMERIC z); try done.
    + apply (ord_eq_l _ ordering_Z).
    + apply (ord_eq_l _ ordering_text).
  - intros x y z. destruct (NUMERIC x), (NUMERIC y), (NUMERIC z); try lia.
    + apply (ord_trans _ ordering_Z).
    + apply (ord_trans _ ordering_text).
Qed.

Lemma compareIdentifiers_antisym x y : compareIdentifiers y x = - compareIdentifiers x y.
Proof.
  revert y. induction x as [|a x IH]; intros [|b y]; simpl; try done.
  rewrite (ord_antisym _ ordering_identifier a b).
  destruct (Z.eqb_spec (compareIdentifier a b) 0) as [E|E]; [by rewrite E, IH|].
  by replace (- compareIdentifier a b =? 0) with false by lia.
Qed.

Lemma compareIdentifiers_eq_l x y z :
  compareIdentifiers x y = 0 -> compareIdentifiers x z = compareIdentifiers y z.
Proof.
  revert y z. induction x as [|a x IH]; intros [|b y] [|c z]; simpl; try done.
  destruct (Z.eqb_spec (compareIdentifier a b) 0) as [E|E]; [|by intros].
  intros H. rewrite (ord_eq_l _ ordering_identifier a b c E). by rewrite (IH y z H).
Qed.

Lemma compareIdentifiers_trans x y z :
  compareIdentifiers x y < 0 -> compareIdentifiers y z < 0 -> compareIdentifiers x z < 0.
Proof.
  pose proof ordering_identifier as Ho.
  revert y z. induction x as [|a x IH]; intros [|b y] [|c z]; simpl; try lia.
  destruct (Z.eqb_spec (compareIdentifier a b) 0) as [E|E],
           (Z.eqb_spec (compareIdentifier b c) 0) as [F|F].
  - rewrite (ord_eq_l _ Ho a b c E), F. apply IH.
  - rewrite (ord_eq_l _ Ho a b c E). by rewrite (proj2 (Z.eqb_neq _ _) F).
  - rewrite <- (ord_eq_r _ Ho b c a F). by rewrite (proj2 (Z.eqb_neq _ _) E).
  - intros H1 H2. pose proof (ord_trans _ Ho a b c H1 H2).
    by replace (compareIdentifier a c =? 0) with false by lia.
Qed.

Lemma ordering_identifiers : ordering compareIdentifiers.
Proof.
  split; [apply compareIdentifiers_antisym|apply compareIdentifiers_eq_l|apply compareIdentifiers_trans].
Qed.

(** A release sorts above its pre-releases. *)
Definition compare_pre (a b : option string) : Z :=
  match a, b with
  | None, Some _ => 1
  | Some _, None => -1
  | Some pa, Some pb => compareIdentifiers (split_on "." pa) (split_on "." pb)
  | None, None => 0
  end.

Lemma ordering_pre : ordering compare_pre.
Proof.
  pose proof (ordering_on (split_on ".") _ ordering_identifiers) as Ho.
  split.
  - intros [x|] [y|]; simpl; try done. apply (ord_antisym _ Ho).
  - intros [x|] [y|] [z|]; simpl; try done. apply (ord_eq_l _ Ho).
  - intros [x|] [y|] [z|]; simpl; try lia. apply (ord_trans _ Ho).
Qed.

Lemma precedence_eq a b :
  precedence a b =
  let core v := split_on "." (splitVersion v).1 in
  let c := compareIdentifiers (core a) (core b) in
  if c =? 0 then compare_pre (splitVersion a).2 (splitVersion b).2 else c.
Proof.
  unfold precedence. destruct (splitVersion a) as [ca pa], (splitVersion b) as [cb pb]. simpl.
  destruct (Z.eqb_spec (compareIdentifiers (split_on "." ca) (split_on "." cb)) 0); [|done].
  by destruct pa, pb.
Qed.

Lemma ordering_precedence : ordering precedence.
Proof.
  pose proof (ordering_then _ _
    (ordering_on (fun v => split_on "." (splitVersion v).1) _ ordering_identifiers)
    (ordering_on (fun v => (splitVersion v).2) _ ordering_pre)) as [Ha He Ht].
  split; intros *; rewrite !precedence_eq; simpl; [apply Ha|apply He|apply Ht].
Qed.

Lemma ordering_semver : ordering compareSemver.
Proof. apply (ordering_then _ _ ordering_precedence ordering_text). Qed.

Lemma compareSemver_refl x : compareSemver x x = 0.
Proof. apply (ord_refl _ ordering_semver). Qed.

Lemma compareSemver_zero_eq x y : compareSemver x y = 0 -> x = y.
Proof.
  unfold compareSemver. destruct (Z.eqb_spec (precedence x y) 0); [|done].
  by intros ->%compareText_zero.
Qed.

(** [compareSemver] is a total order on all strings, valid versions
    or not: antisymmetric, transitive, and zero exactly on identical strings. *)
Theorem compareSemver_total_order :
  (forall a b, compareSemver b a = - compareSemver a b) /\
  (forall a b c, compareSemver a b <= 0 -> compareSemver b c <= 0 -> compareSemver a c <= 0) /\
  (forall a b, compareSemver a b = 0 <-> a = b).
Proof.
  split_and!.
  - apply (ord_antisym _ ordering_semver).
  - apply (ord_le_trans _ ordering_semver).
  - intros a b. split; [apply compareSemver_zero_eq|intros ->; apply compareSemver_refl].
Qed.

(** ** Ranges on release versions *)

Lemma dec_all_digits z : all_digits (JsNumber.ToString.dec z) = true.
Proof.
  destruct (Z.le_gt_cases 0 z) as [H|H].
  - destruct (dec_digits z H) as (Hd & _ & Hne & _). by destruct (JsNumber.ToString.dec z).
  - by destruct z.
Qed.

Lemma dec_nonempty z : JsNumber.ToString.dec z <> EmptyString.
Proof. intros E. pose proof (dec_all_digits z) as H. by rewrite E in H. Qed.

Lemma BigInt_dec z : 0 <= z -> BigInt (JsNumber.ToString.dec z) = z.
Proof. intros H. apply (dec_digits z H). Qed.

Lemma digits_no_char c s : is_digit c = false -> all_chars is_digit s = true -> index_of c s = None.
Proof.
  intros Hc. induction s as [|d s IH]; simpl; intros H; [done|]. bools.
  destruct (Ascii.eqb c d) eqn:E; [apply Ascii.eqb_eq in E; congruence|]. by rewrite IH.
Qed.

Lemma dec_no_char c z : is_digit c = false -> index_of c (JsNumber.ToString.dec z) = None.
Proof.
  intros Hc. apply digits_no_char; [done|]. pose proof (dec_all_digits z) as H.
  unfold all_digits in H. by destruct (JsNumber.ToString.dec z).
Qed.

Lemma dec3_no_hyphen a b c : index_of "-" (dec3 a b c) = None.
Proof. unfold dec3. by rewrite !index_of_app, !dec_no_char by (rewrite ?index_of_app, ?dec_no_char; done). Qed.

Lemma dec3_split a b c :
  split_on "." (dec3 a b c) = JsNumber.ToString.dec <$> [a; b; c].
Proof.
  unfold dec3. change (("." ++ JsNumber.ToString.dec c)%string) with (String "." (JsNumber.ToString.dec c)).
  change (("." ++ ?s)%string) with (String "." s).
  rewrite (split_on_app "." (JsNumber.ToString.dec a)), (split_on_app "." (JsNumber.ToString.dec b))
    by by apply dec_no_char.
  by rewrite split_on_none by by apply dec_no_char.
Qed.

Lemma splitVersion_dec3 a b c : splitVersion (dec3 a b c) = (dec3 a b c, None).
Proof. unfold splitVersion. by rewrite dec3_no_hyphen. Qed.

Lemma dec_inj a b : 0 <= a -> 0 <= b -> JsNumber.ToString.dec a = JsNumber.ToString.dec b -> a = b.
Proof. intros Ha Hb H. rewrite <- (BigInt_dec a), <- (BigInt_dec b), H; done. Qed.

Definition lex3 (a b c x y z : Z) : Z :=
  if a <? x then -1 else if x <? a then 1
  else if b <? y then -1 else if y <? b then 1
  else if c <? z then -1 else if z <? c then 1 else 0.

Lemma compareIdentifier_dec a b :
  0 <= a -> 0 <= b ->
  compareIdentifier (JsNumber.ToString.dec a) (JsNumber.ToString.dec b) =
  if a <? b then -1 else if b <? a then 1 else 0.
Proof.
  intros Ha Hb. unfold compareIdentifier, NUMERIC. rewrite !dec_all_digits, !BigInt_dec by done. done.
Qed.

Lemma compareSemver_dec3 a b c x y z :
  0 <= a -> 0 <= b -> 0 <= c -> 0 <= x -> 0 <= y -> 0 <= z ->
  compareSemver (dec3 a b c) (dec3 x y z) = lex3 a b c x y z.
Proof.
  intros. unfold compareSemver, precedence. rewrite !splitVersion_dec3, !dec3_split.
  cbn [fmap list_fmap compareIdentifiers]. rewrite !compareIdentifier_dec by done. unfold lex3.
  repeat (case_match; try lia; simpl in *; try done).
  assert (a = x) as -> by lia. assert (b = y) as -> by lia. assert (c = z) as -> by lia.
  by rewrite (proj2 (compareText_zero _ _) eq_refl).
Qed.

(** What each operator means on the numbers of a release version. *)
Inductive range_kind := RExact | RAtLeast | RCaret | RTilde.
Definition op_text (k : range_kind) : string :=
  match k with RExact => "" | RAtLeast => ">=" | RCaret => "^" | RTilde => "~" end.

Definition admits (k : range_kind) (x y z a b c : Z) : Prop :=
  match k with
  | RExact => a = x /\ b = y /\ c = z
  | RAtLeast => x < a \/ (a = x /\ (y < b \/ (b = y /\ z <= c)))
  | RTilde => a = x /\ b = y /\ z <= c
  | RCaret =>
      if 0 <? x then a = x /\ (y < b \/ (b = y /\ z <= c))
      else if 0 <? y then a = 0 /\ b = y /\ z <= c
      else a = 0 /\ b = 0 /\ c = z
  end.

Lemma dec3_head a b c : exists d s, dec3 a b c = String d s /\ is_digit d = true.
Proof.
  unfold dec3. pose proof (dec_all_digits a) as H. pose proof (dec_nonempty a).
  destruct (JsNumber.ToString.dec a) as [|d s]; [done|]. simpl in H. bools.
  rewrite string_app_cons. eauto.
Qed.

Lemma range_op_text k a b c :
  range_op (op_text k ++ dec3 a b c)%string = op_text k /\
  slice_from (String.length (op_text k)) (op_text k ++ dec3 a b c)%string = dec3 a b c.
Proof.
  split; [|apply slice_from_app].
  destruct (dec3_head a b c) as (d & s & -> & Hd).
  destruct k; [|done..]. change ((op_text RExact ++ String d s)%string) with (String d s).
  unfold range_op, startsWith, String.prefix.
  repeat match goal with
  | |- context [ascii_dec ?e d] => destruct (ascii_dec e d) as [<-|]; [done|]
  end. done.
Qed.

(** on release versions the range test of the matcher is interval
    membership, one interval per operator, with the caret's upper bound at the
    first non-zero number. *)
Theorem satisfiesRuntime_release k a b c x y z :
  0 <= a -> 0 <= b -> 0 <= c -> 0 <= x -> 0 <= y -> 0 <= z ->
  satisfiesRuntime (dec3 a b c) (op_text k ++ dec3 x y z) = true <-> admits k x y z a b c.
Proof.
  intros. unfold satisfiesRuntime. destruct (range_op_text k x y z) as [-> ->].
  unfold has_char. rewrite dec3_no_hyphen. cbn [andb].
  unfold upper_bound, core_numbers. rewrite (split_on_none "-") by apply dec3_no_hyphen.
  cbn [hd]. rewrite dec3_split. cbn [fmap list_fmap]. rewrite !BigInt_dec by done.
  rewrite (compareSemver_dec3 a b c x y z) by done.
  destruct k; cbn [op_text String.eqb Ascii.eqb Bool.eqb admits]; unfold lex3.
  - repeat case_match; lia.
  - repeat case_match; lia.
  - repeat (case_match; try lia); rewrite ?compareSemver_dec3 by lia;
      unfold lex3; repeat case_match; lia.
  - repeat (case_match; try lia); rewrite ?compareSemver_dec3 by lia;
      unfold lex3; repeat case_match; lia.
Qed.

Lemma satisfiesRuntime_release_witness :
  satisfiesRuntime "0.1.5" "^0.1.0" = true /\ admits RCaret 0 1 0 0 1 5.
Proof.
  split; [vm_compute; reflexivity|].
  apply (satisfiesRuntime_release RCaret 0 1 5 0 1 0); [lia..|vm_compute; reflexivity].
Defined.
