(* ===== verification/Assembly.v ===== *)
(** * Connectors, assembly profiles and build plans
    ([packages/schema/src/connector.ts], [packages/schema/src/build-plan.ts]) *)
From S2P Require Import Prelude JsString Regex JsNumber Part.
#[local] Open Scope string_scope.
#[local] Open Scope list_scope.
#[local] Open Scope nat_scope.

(** ** Connectors *)
Inductive PinRole := role_power | role_ground | role_signal | role_sda | role_scl.
#[export] Instance PinRole_eq_dec : EqDecision PinRole.
Proof. solve_decision. Defined.

Record ConnectorPin := mkPin { pin_n : Z; pin_name : string; pin_role : PinRole }.
Definition ConnectorPin_ok (p : ConnectorPin) : bool :=
  (0 <? pin_n p)%Z && (1 <=? String.length (pin_name p)).

Record ConnectorDefinition := mkConnector {
  con_schema_hint : option string;
  con_id : string;
  con_version : string;
  con_name : string;
  con_housing : string;
  con_pins : list ConnectorPin;
  con_interfaces : list PartInterface;
  con_max_voltage : num
}.

Definition ConnectorDefinition_fields (c : ConnectorDefinition) : bool :=
  ConnectorId (con_id c) && SemVer (con_version c) && (1 <=? String.length (con_name c)) &&
  (1 <=? String.length (con_housing c)) && (2 <=? length (con_pins c)) &&
  forallb ConnectorPin_ok (con_pins c) && (1 <=? length (con_interfaces c)) &&
  Positive (con_max_voltage c).

(** [connector.pins.forEach((pin, i) => ...)], from index [i]. *)
Fixpoint pin_number_issues (i : nat) (pins : list ConnectorPin) : list Issue :=
  match pins with
  | [] => []
  | p :: pins =>
      let want := Z.of_nat (i + 1) in
      when (negb (pin_n p =? want)%Z)
        (mkIssue ["pins"; ToString.dec (Z.of_nat i); "n"]
           ("pins are numbered 1..n in order; expected " ++ ToString.dec want)%string)
      ++ pin_number_issues (S i) pins
  end.

Definition connector_issues (c : ConnectorDefinition) : list Issue :=
  pin_number_issues 0 (con_pins c) ++
  when (negb (existsb (fun p => bool_decide (pin_role p = role_ground)) (con_pins c)))
    (mkIssue ["pins"] "a connector needs a ground pin").

Definition ConnectorDefinition_ok (c : ConnectorDefinition) : bool :=
  ConnectorDefinition_fields c && match connector_issues c with [] => true | _ => false end.

(** ** Pins, profiles and the compile matrix *)
Record PartPin := mkPartPin { pp_id : string; pp_version : string }.
#[export] Instance PartPin_eq_dec : EqDecision PartPin.
Proof. solve_decision. Defined.
Definition PartPin_ok (p : PartPin) : bool := PartId (pp_id p) && SemVer (pp_version p).

(** [pinKey] and [pin] of [apps/matcher/src/types.ts] *)
Definition pinKey (p : PartPin) : string := (pp_id p ++ "@" ++ pp_version p)%string.
Definition pin (p : PartDefinition) : PartPin := mkPartPin (part_id p) (version p).
Definition partKey (p : PartDefinition) : string := pinKey (pin p).

Definition Fraction (x : num) : bool := Positive x && nle x (of_Z 1).

Inductive Rail := rail_brain | rail_source.
#[export] Instance Rail_eq_dec : EqDecision Rail.
Proof. solve_decision. Defined.

Record Port := mkPort {
  port_id : string;
  port_interface : PartInterface;
  port_connector : string;
  port_rail : Rail;
  port_max_current_ma : num;
  port_resources : list string;
  port_capacity : nat
}.
Definition Port_ok (p : Port) : bool :=
  (1 <=? String.length (port_id p)) &&
  negb (bool_decide (port_interface p = host)) && negb (bool_decide (port_interface p = power)) &&
  ConnectorId (port_connector p) && Positive (port_max_current_ma p) &&
  (1 <=? length (port_resources p)) &&
  forallb (fun r => 1 <=? String.length r) (port_resources p) &&
  (1 <=? port_capacity p) && (port_capacity p <=? 112).

Record Activity := mkActivity { act_part : PartPin; act_active_s : num; act_evidence : string }.
Definition Activity_ok (a : Activity) : bool :=
  PartPin_ok (act_part a) && nonnegative (act_active_s a) && (1 <=? String.length (act_evidence a)).

Record AssemblyProfile := mkProfile {
  prof_id : string;
  prof_version : string;
  prof_evidence : string;
  prof_brain : PartPin;
  prof_source : PartPin;
  prof_source_connector : string;
  prof_brain_input : string;
  regulator_efficiency : num;
  quiescent_source_ma : num;
  battery_usable_fraction : num;
  prof_ports : list Port;
  prof_activity : list Activity
}.

Definition len_between (lo hi : nat) (s : string) : bool :=
  (lo <=? String.length s) && (String.length s <=? hi).

Definition AssemblyProfile_fields (p : AssemblyProfile) : bool :=
  len_between 1 120 (prof_id p) && SemVer (prof_version p) && len_between 1 1000 (prof_evidence p) &&
  PartPin_ok (prof_brain p) && PartPin_ok (prof_source p) && ConnectorId (prof_source_connector p) &&
  (1 <=? String.length (prof_brain_input p)) && Fraction (regulator_efficiency p) &&
  nonnegative (quiescent_source_ma p) && Fraction (battery_usable_fraction p) &&
  (length (prof_ports p) <=? 32) && forallb Port_ok (prof_ports p) &&
  (length (prof_activity p) <=? 24) && forallb Activity_ok (prof_activity p).

Definition profile_issues (p : AssemblyProfile) : list Issue :=
  when (negb (all_distinct (port_id <$> prof_ports p))) (mkIssue [] "port ids must be unique") ++
  List.flat_map (fun port =>
    when (negb (bool_decide (port_interface port = i2c)) && negb (Nat.eqb (port_capacity port) 1))
      (mkIssue [] "only I2C ports can be shared") ++
    when (negb (all_distinct (port_resources port))) (mkIssue [] "port resources must be unique"))
    (prof_ports p) ++
  when (negb (all_distinct ((fun a => pinKey (act_part a)) <$> prof_activity p)))
    (mkIssue [] "activity pins must be unique").

Definition AssemblyProfile_ok (p : AssemblyProfile) : bool :=
  AssemblyProfile_fields p && match profile_issues p with [] => true | _ => false end.

Inductive CompatStatus := passed | failed | pending.
#[export] Instance CompatStatus_eq_dec : EqDecision CompatStatus.
Proof. solve_decision. Defined.

Record CompatEntry := mkCompat {
  ce_driver_pkg : string;
  ce_driver_ver : string;
  ce_runtime_ver : string;
  ce_brain_id : string;
  ce_status : CompatStatus
}.
Definition CompatEntry_ok (c : CompatEntry) : bool :=
  (1 <=? String.length (ce_driver_pkg c)) && SemVer (ce_driver_ver c) && SemVer (ce_runtime_ver c) &&
  PartId (ce_brain_id c).

(** ** Plans *)
Record WiringEdge := mkEdge {
  edge_part : PartPin;
  edge_port : string;
  edge_rail : Rail;
  edge_connector : string;
  edge_resources : list string
}.
Definition WiringEdge_ok (e : WiringEdge) : bool :=
  PartPin_ok (edge_part e) && (1 <=? String.length (edge_port e)) && ConnectorId (edge_connector e) &&
  forallb (fun r => 1 <=? String.length r) (edge_resources e).

Record PowerBudget := mkBudget {
  average_source_ma : num;
  peak_source_ma : num;
  peak_brain_rail_ma : num;
  usable_capacity_mah : option num;
  estimated_life_days : option num
}.
Definition PowerBudget_ok (b : PowerBudget) : bool :=
  nonnegative (average_source_ma b) && nonnegative (peak_source_ma b) &&
  nonnegative (peak_brain_rail_ma b) && opt_ok Positive (usable_capacity_mah b) &&
  opt_ok nonnegative (estimated_life_days b).

Record BomLine := mkBom { bom_part : PartPin; bom_quantity : Z; bom_unit_cost_usd : num }.
Record WiringGraph := mkGraph {
  wg_source : PartPin;
  wg_brain : PartPin;
  wg_brain_input : string;
  wg_peripherals : list WiringEdge
}.

Record BuildPlan := mkPlan {
  part_versions : list PartPin;
  plan_runtime : string;
  plan_profile : string * string;
  wiring_graph : WiringGraph;
  power_budget : PowerBudget;
  bom : list BomLine;
  total_cost_usd : num;
  solver_log : list string
}.

Definition len_list {A} (lo hi : nat) (l : list A) : bool := (lo <=? length l) && (length l <=? hi).

Definition BuildPlan_ok (p : BuildPlan) : bool :=
  len_list 2 24 (part_versions p) && forallb PartPin_ok (part_versions p) && SemVer (plan_runtime p) &&
  len_between 1 120 (plan_profile p).1 && SemVer (plan_profile p).2 &&
  PartPin_ok (wg_source (wiring_graph p)) && PartPin_ok (wg_brain (wiring_graph p)) &&
  (1 <=? String.length (wg_brain_input (wiring_graph p))) &&
  (length (wg_peripherals (wiring_graph p)) <=? 24) &&
  forallb WiringEdge_ok (wg_peripherals (wiring_graph p)) &&
  PowerBudget_ok (power_budget p) && len_list 2 24 (bom p) &&
  forallb (fun b => PartPin_ok (bom_part b) && (bom_quantity b =? 1)%Z &&
                    nonnegative (bom_unit_cost_usd b)) (bom p) &&
  nonnegative (total_cost_usd p) && (length (solver_log p) <=? 256).
