(* ===== verification/MatcherTypes.v ===== *)
(** * The matcher's contract and state
    ([apps/matcher/src/types.ts], [explain.ts], [rank.ts], [intake.ts])

    A solve threads one mutable state through nested closures: the step counter,
    the diagnostics map, and the plans of the search in progress. It ends by
    returning or by one of two exceptions: the search limit, which [solve]
    catches, and a [TypeError] (a property read of [undefined]), which nothing
    catches. *)
From S2P Require Import Prelude JsString Regex JsNumber Part Assembly.
#[local] Open Scope string_scope.
#[local] Open Scope list_scope.
#[local] Open Scope nat_scope.

Inductive Transport := wifi | ble | lora | transport_none.
#[export] Instance Transport_eq_dec : EqDecision Transport.
Proof. solve_decision. Defined.
Inductive SolvePower := battery | usb | solar.
#[export] Instance SolvePower_eq_dec : EqDecision SolvePower.
Proof. solve_decision. Defined.

Definition show_transport (t : Transport) : string :=
  match t with wifi => "wifi" | ble => "ble" | lora => "lora" | transport_none => "none" end.

Record SolveSpec := mkSolveSpec {
  spec_capabilities : list string;
  spec_transport : Transport;
  spec_power_source : SolvePower;
  interval_s : num;
  target_life_days : option num;
  spec_runtime : string
}.
Definition SolveSpec_ok (s : SolveSpec) : bool :=
  len_list 1 24 (spec_capabilities s) && forallb Capability (spec_capabilities s) &&
  Positive (interval_s s) && opt_ok Positive (target_life_days s) && SemVer (spec_runtime s).

Record SolveInput := mkSolveInput {
  in_spec : SolveSpec;
  in_parts : list PartDefinition;
  in_connectors : list ConnectorDefinition;
  in_profiles : list AssemblyProfile;
  in_compat : list CompatEntry;
  max_steps : nat;
  max_plans : nat
}.

Definition profileKey (p : AssemblyProfile) : string := (prof_id p ++ "@" ++ prof_version p)%string.
Definition compatKey (c : CompatEntry) : string :=
  (ce_driver_pkg c ++ "@" ++ ce_driver_ver c ++ "/" ++ ce_runtime_ver c ++ "/" ++ ce_brain_id c)%string.

Definition SolveInput_issues (i : SolveInput) : list Issue :=
  let unique values what :=
    when (negb (all_distinct values)) (mkIssue [] ("duplicate " ++ what)%string) in
  unique (partKey <$> in_parts i) "part pin" ++
  unique (con_id <$> in_connectors i) "connector id" ++
  unique (profileKey <$> in_profiles i) "profile pin" ++
  unique (compatKey <$> in_compat i) "compatibility tuple".

Definition SolveInput_ok (https_url : string -> bool) (i : SolveInput) : bool :=
  SolveSpec_ok (in_spec i) &&
  (length (in_parts i) <=? 24) && forallb (PartDefinition_ok https_url) (in_parts i) &&
  (length (in_connectors i) <=? 64) && forallb ConnectorDefinition_ok (in_connectors i) &&
  (length (in_profiles i) <=? 32) && forallb AssemblyProfile_ok (in_profiles i) &&
  (length (in_compat i) <=? 4096) && forallb CompatEntry_ok (in_compat i) &&
  (1 <=? max_steps i) && (Z.of_nat (max_steps i) <=? 1000000)%Z && (1 <=? max_plans i) && (max_plans i <=? 20) &&
  match SolveInput_issues i with [] => true | _ => false end.

(** ** Failures *)
Inductive Constraint :=
| coverage | requires_ | conflict_ | i2c_ | runtime | compatibility | logic | wiring
| voltage | current | battery_ | catalogue.
#[export] Instance Constraint_eq_dec : EqDecision Constraint.
Proof. solve_decision. Defined.
Definition show_constraint (c : Constraint) : string :=
  match c with
  | coverage => "coverage" | requires_ => "requires" | conflict_ => "conflict" | i2c_ => "i2c"
  | runtime => "runtime" | compatibility => "compatibility" | logic => "logic" | wiring => "wiring"
  | voltage => "voltage" | current => "current" | battery_ => "battery" | catalogue => "catalogue"
  end.

Record Failure := mkFailure { fconstraint : Constraint; fdetail : string }.
#[export] Instance Failure_eq_dec : EqDecision Failure.
Proof. solve_decision. Defined.
Definition failure_key (f : Failure) : string :=
  (show_constraint (fconstraint f) ++ ":" ++ fdetail f)%string.

Inductive SolveResult :=
| Solved (plans : list BuildPlan) (feasible_count steps : nat)
| Infeasible (conflict_set : list string) (diagnostics : list Failure) (explanation : string) (steps : nat)
| SearchLimited (steps : nat)
| InvalidInput (issues : list string).

(** ** The effects *)
Inductive exn := SEARCH_LIMIT | TypeError.
#[export] Instance exn_eq_dec : EqDecision exn.
Proof. solve_decision. Defined.

Record St := mkSt {
  steps : nat;
  diagnostics : list (string * Failure);
  plans : list BuildPlan;
  count : nat
}.

Definition M (A : Type) : Type := St -> result exn A * St.
Definition ret {A} (a : A) : M A := fun s => (Ok a, s).
Definition throw {A} (e : exn) : M A := fun s => (Err e, s).
Definition bind {A B} (m : M A) (k : A -> M B) : M B :=
  fun s => match m s with (Ok a, s') => k a s' | (Err e, s') => (Err e, s') end.
Notation "'let*' x ':=' m 'in' k" := (bind m (fun x => k))
  (at level 10, x pattern, k at level 200) : forge_scope.

(** A lookup the code asserts with [!]: reading through [undefined] throws. *)
Definition nonnull {A} (o : option A) : M A :=
  match o with Some a => ret a | None => throw TypeError end.

Fixpoint forM {A} (l : list A) (f : A -> M unit) : M unit :=
  match l with [] => ret tt | x :: l => let* _ := f x in forM l f end.

(** [if (steps >= input.max_steps) throw SEARCH_LIMIT; steps++;] *)
Definition step (input : SolveInput) : M unit := fun s =>
  if max_steps input <=? steps s then (Err SEARCH_LIMIT, s)
  else (Ok tt, mkSt (S (steps s)) (diagnostics s) (plans s) (count s)).

(** [if (diagnostics.size < 100) diagnostics.set(key, f)] *)
Definition record (f : Failure) : M unit := fun s =>
  (Ok tt, if length (diagnostics s) <? 100
          then mkSt (steps s) (map_set (failure_key f) f (diagnostics s)) (plans s) (count s)
          else s).

(** ** Ranking ([rank.ts]) *)
Definition plan_key (p : BuildPlan) : string := join "," (pinKey <$> part_versions p).
Definition plan_profile_key (p : BuildPlan) : string :=
  ((plan_profile p).1 ++ "@" ++ (plan_profile p).2)%string.

Definition comparePlans (a b : BuildPlan) : num :=
  nor (nsub (total_cost_usd a) (total_cost_usd b))
  (nor (nsub (average_source_ma (power_budget a)) (average_source_ma (power_budget b)))
  (nor (nsub (of_nat (length (part_versions a))) (of_nat (length (part_versions b))))
  (nor (of_Z (compareText (plan_key a) (plan_key b)))
       (of_Z (compareText (plan_profile_key a) (plan_profile_key b)))))).

Definition plan_gt (a b : BuildPlan) : bool := nlt nzero (comparePlans a b).
Definition sort_plans (l : list BuildPlan) : list BuildPlan := js_sort plan_gt l.

(** [plans.push(plan); plans.sort(comparePlans); if (plans.length > max) plans.pop()] *)
Definition push_plan (max : nat) (plan : BuildPlan) (l : list BuildPlan) : list BuildPlan :=
  let l' := sort_plans (l ++ [plan]) in
  if max <? length l' then removelast l' else l'.

Definition add_plan (input : SolveInput) (plan : BuildPlan) : M unit := fun s =>
  (Ok tt, mkSt (steps s) (diagnostics s) (push_plan (max_plans input) plan (plans s)) (S (count s))).

(** ** [explain.ts] *)
Definition explain (conflicts : list string) (ds : list Failure) : string :=
  match conflicts with
  | [] => "No verified assembly can be built from this catalogue and its hardware/compile evidence. Add the missing evidence before changing the request."
  | _ =>
      let reqs := join ", " ((fun c => if startsWith "capability:" c then slice_from 11 c else c) <$> conflicts) in
      ("These requirements cannot be met together: " ++ reqs ++
       ". Could you relax one or add a compatible part?" ++
       (if existsb (fun d => bool_decide (fconstraint d = battery_)) ds
        then " A larger usable battery capacity or a longer sensing interval may help; either change must be solved again."
        else ""))%string
  end.

(** ** The adapter from intake's spec ([intake.ts]) *)
Record IntakeSpec := mkIntakeSpec {
  is_settled : bool;
  is_capabilities : list string;
  is_interval_s : num;
  is_accuracy : option string;
  is_flags : list string;
  is_transport : Transport;
  is_power : SolvePower;
  is_target_life_days : option num;
  is_open_questions : nat
}.

Definition IntakeSpec_ok (s : IntakeSpec) : bool :=
  is_settled s && len_list 1 24 (is_capabilities s) && forallb Capability (is_capabilities s) &&
  Positive (is_interval_s s) && opt_ok Positive (is_target_life_days s) &&
  Nat.eqb (is_open_questions s) 0.

Inductive IntakeError := ParseError | NeedsMatcherModel.

(** A parse that throws is [ParseError]. *)
Definition fromIntakeSpec (spec : IntakeSpec) (rt : string) : result IntakeError SolveSpec :=
  if negb (IntakeSpec_ok spec) then Err ParseError
  else if negb (Nat.eqb (length (is_flags spec)) 0) ||
          match is_accuracy spec with Some a => negb (trim a ==s "") | None => false end
  then Err NeedsMatcherModel
  else
    let out := mkSolveSpec (is_capabilities spec) (is_transport spec) (is_power spec)
                 (is_interval_s spec) (is_target_life_days spec) rt in
    if SolveSpec_ok out then Ok out else Err ParseError.
