(* ===== verification/Constraints.v ===== *)
(** * Constraints of an assembly
    ([apps/matcher/src/constraints.ts], [power.ts])

    [checkParts] on a selection of parts, [powerBudget], and [wire]: the
    backtracking search that allocates profile ports to peripherals. *)
From S2P Require Import Prelude JsString Regex JsNumber Part Assembly Semver MatcherTypes.
#[local] Open Scope string_scope.
#[local] Open Scope list_scope.
#[local] Open Scope nat_scope.

(** ** [power.ts] *)
Definition containsVoltage (input source : Range) : bool :=
  nle input.1 source.1 && nle source.2 input.2.

Definition averageCurrent (part : PartDefinition) (interval : num) (profile : AssemblyProfile) : num :=
  let activity := List.find (fun x => pinKey (act_part x) ==s partKey part) (prof_activity profile) in
  let duty := match activity with
              | Some a => nmin (of_Z 1) (ndiv (act_active_s a) interval)
              | None => of_Z 1
              end in
  let c := current_draw_ma (electrical part) in
  nadd (idle c) (nmul (nsub (active_ma c) (idle c)) duty).

Definition brain_input_range (brain : PartDefinition) (profile : AssemblyProfile) : option Range :=
  if prof_brain_input profile ==s "primary" then Some (voltage_range (electrical brain))
  else match alt_inputs (electrical brain) with
       | Some l => pi_voltage_range <$> List.find (fun x => pi_name x ==s prof_brain_input profile) l
       | None => None
       end.

Definition draw_active (p : PartDefinition) : num := active_ma (current_draw_ma (electrical p)).

(** The four running totals of the loop over the peripherals. *)
Record Loads := mkLoads { railPeak : num; railAverage : num; directPeak : num; directAverage : num }.

Definition add_load (spec : SolveSpec) (profile : AssemblyProfile) (wiring : list WiringEdge)
    (l : Loads) (part : PartDefinition) : option Loads :=
  match List.find (fun x => pinKey (edge_part x) ==s partKey part) wiring with
  | None => None
  | Some e =>
      let avg := averageCurrent part (interval_s spec) profile in
      Some (if bool_decide (edge_rail e = rail_brain)
            then mkLoads (nadd (railPeak l) (draw_active part)) (nadd (railAverage l) avg)
                         (directPeak l) (directAverage l)
            else mkLoads (railPeak l) (railAverage l)
                         (nadd (directPeak l) (draw_active part)) (nadd (directAverage l) avg))
  end.

Fixpoint add_loads (spec : SolveSpec) (profile : AssemblyProfile) (wiring : list WiringEdge)
    (l : Loads) (parts : list PartDefinition) : option Loads :=
  match parts with
  | [] => Some l
  | p :: parts => l' ← add_load spec profile wiring l p; add_loads spec profile wiring l' parts
  end.

(** [None] is the [TypeError] of an asserted lookup that found nothing. *)
Definition powerBudget (brain source : PartDefinition) (peripherals : list PartDefinition)
    (wiring : list WiringEdge) (profile : AssemblyProfile) (spec : SolveSpec) : option PowerBudget :=
  input ← brain_input_range brain profile;
  sup ← supply (electrical source);
  rail ← supply (electrical brain);
  let sourceMin := nmax (output_v sup).1 input.1 in
  let railMax := (output_v rail).2 in
  l ← add_loads spec profile wiring
        (mkLoads (draw_active brain) (averageCurrent brain (interval_s spec) profile)
                 (draw_active source) (averageCurrent source (interval_s spec) profile)) peripherals;
  let factor := ndiv railMax (nmul sourceMin (regulator_efficiency profile)) in
  let average := nadd (nadd (directAverage l) (nmul (railAverage l) factor)) (quiescent_source_ma profile) in
  let peak := nadd (nadd (directPeak l) (nmul (railPeak l) factor)) (quiescent_source_ma profile) in
  let usable := (fun c => nmul c (battery_usable_fraction profile)) <$> capacity_mah sup in
  Some (mkBudget average peak (railPeak l) usable
    (match usable with
     | Some u => if neqb average nzero then None else Some (ndiv (ndiv u average) (of_Z 24))
     | None => None
     end)).

(** ** [checkParts] *)
Definition truthy_text (o : option string) : option string :=
  match o with Some a => if a ==s "" then None else Some a | None => None end.

Definition has_cap (p : PartDefinition) (c : string) : bool := inb c (capabilities (software p)).

Definition signal_part (p : PartDefinition) : bool :=
  negb (bool_decide (interface (electrical p) = host)) &&
  negb (bool_decide (interface (electrical p) = power)).

Definition check_requires (parts : list PartDefinition) (brain part : PartDefinition) : list Failure :=
  let caps := List.flat_map (fun p => capabilities (software p)) parts in
  List.flat_map (fun need =>
    when (negb (inb need caps)) (mkFailure requires_ (partKey part ++ " needs " ++ need)%string) ++
    when ((startsWith "bus." need || startsWith "gpio." need) && negb (has_cap brain need))
      (mkFailure requires_ (part_id brain ++ " does not provide " ++ need ++
                            "; bus expanders are not modeled")%string))
    (requires (electrical part)).

Definition check_conflicts (parts : list PartDefinition) (part : PartDefinition) : list Failure :=
  List.flat_map (fun c =>
    when (existsb (fun p => part_id p ==s c) parts)
      (mkFailure conflict_ (part_id part ++ " conflicts with " ++ c)%string))
    (conflicts (electrical part)).

Definition check_runtime (input : SolveInput) (part : PartDefinition) : list Failure :=
  when (negb (satisfiesRuntime (spec_runtime (in_spec input)) (min_runtime (software part))))
    (mkFailure runtime (partKey part ++ " needs runtime " ++ min_runtime (software part))%string).

Definition compiles (input : SolveInput) (brain part : PartDefinition) (driver : string) : bool :=
  existsb (fun row =>
    (ce_driver_pkg row ==s driver) && opt_eqb (driver_version (software part)) (ce_driver_ver row) &&
    (ce_runtime_ver row ==s spec_runtime (in_spec input)) && (ce_brain_id row ==s part_id brain) &&
    bool_decide (ce_status row = passed)) (in_compat input).

Definition check_compat (input : SolveInput) (brain part : PartDefinition) : list Failure :=
  match driver_pkg (software part) with
  | None => []
  | Some d => when (negb (compiles input brain part d))
      (mkFailure compatibility ("No passed compile for " ++ partKey part ++ " on " ++ part_id brain ++
                                "/" ++ spec_runtime (in_spec input))%string)
  end.

(** [None]: the host's missing IO voltage is read. *)
Definition check_logic (brain part : PartDefinition) : option (list Failure) :=
  if signal_part part then
    let fail := [mkFailure logic (partKey part ++ " cannot use " ++ part_id brain ++
                   "'s IO voltage without a modeled level shifter")%string] in
    match logic_v (electrical part), logic_v (electrical brain) with
    | None, _ => Some fail
    | Some v, Some io => Some (if containsVoltage v io then [] else fail)
    | Some _, None => None
    end
  else Some [].

Definition find_connector (input : SolveInput) (id : string) : option ConnectorDefinition :=
  List.find (fun c => con_id c ==s id) (in_connectors input).

Definition carries (c : ConnectorDefinition) (i : PartInterface) : bool := inb i (con_interfaces c).

Definition check_connector (input : SolveInput) (part : PartDefinition) : list Failure :=
  when (match find_connector input (connector (electrical part)) with
        | Some c => negb (carries c (interface (electrical part)))
        | None => true
        end)
    (mkFailure wiring ("Missing or incompatible connector definition for " ++ partKey part)%string).

(** One part, with the I2C addresses seen before it. *)
Definition check_part (parts : list PartDefinition) (brain : PartDefinition) (input : SolveInput)
    (addresses : list string) (part : PartDefinition) : option (list Failure) :=
  io ← check_logic brain part;
  Some (check_requires parts brain part ++ check_conflicts parts part ++
    match truthy_text (i2c_address (electrical part)) with
    | Some a => when (inb a addresses) (mkFailure i2c_ ("I2C address " ++ a ++ " is used twice")%string)
    | None => []
    end ++
    check_runtime input part ++ check_compat input brain part ++ io ++ check_connector input part).

Definition seen_address (addresses : list string) (part : PartDefinition) : list string :=
  match truthy_text (i2c_address (electrical part)) with Some a => a :: addresses | None => addresses end.

Fixpoint check_from (all : list PartDefinition) (brain : PartDefinition) (input : SolveInput)
    (addresses : list string) (parts : list PartDefinition) : option (list Failure) :=
  match parts with
  | [] => Some []
  | p :: parts =>
      f ← check_part all brain input addresses p;
      fs ← check_from all brain input (seen_address addresses p) parts;
      Some (f ++ fs)
  end.

Definition checkParts (parts : list PartDefinition) (brain : PartDefinition) (input : SolveInput)
    : option (list Failure) :=
  check_from parts brain input [] parts.

(** ** [wire] *)
Inductive WiringResult :=
| Wired (edges : list WiringEdge) (budget : PowerBudget)
| NotWired (failure : Failure).

Definition finite_budget (b : PowerBudget) : bool :=
  isFinite (average_source_ma b) && isFinite (peak_source_ma b) && isFinite (peak_brain_rail_ma b) &&
  opt_ok isFinite (usable_capacity_mah b) && opt_ok isFinite (estimated_life_days b).

(** A rail's window, and what the guards before the search establish. *)
Record WireEnv := mkWireEnv {
  we_output : Supply;
  we_rail : Supply;
  we_window : Range
}.

Definition source_window (output : Supply) (brainInput : Range) : Range :=
  (nmax (output_v output).1 brainInput.1, (output_v output).2).

Definition wire_guards (brain source : PartDefinition) (profile : AssemblyProfile) (input : SolveInput)
    : option (result Failure WireEnv) :=
  match supply (electrical source), supply (electrical brain), brain_input_range brain profile with
  | Some output, Some rail, Some brainInput =>
      let wrong_connector :=
        match find_connector input (prof_source_connector profile) with
        | Some c => negb (connector (electrical source) ==s prof_source_connector profile) ||
                    nlt (con_max_voltage c) (output_v output).2
        | None => true
        end in
      if wrong_connector then
        Some (Err (mkFailure wiring (prof_id profile ++
          " does not match the source connector or voltage rating")%string))
      else
        let is_battery := negb (is_null (capacity_mah output)) && has_cap source "power.battery" in
        if nlt brainInput.2 (output_v output).2 || nlt (output_v output).2 brainInput.1 ||
           (negb is_battery && nlt (output_v output).1 brainInput.1)
        then Some (Err (mkFailure voltage (part_id source ++ " cannot power " ++ part_id brain ++ "/" ++
                                           prof_brain_input profile)%string))
        else
          let env := mkWireEnv output rail (source_window output brainInput) in
          if prof_brain_input profile ==s "primary" then
            c ← find_connector input (connector (electrical brain));
            Some (if nlt (con_max_voltage c) (output_v output).2
                  then Err (mkFailure voltage (part_id brain ++ " input connector is overvolted")%string)
                  else Ok env)
          else Some (Ok env)
  | _, _, _ => Some (Err (mkFailure voltage (prof_id profile ++ " has no modeled power path")%string))
  end.

Section Wire.
Context (brain source : PartDefinition) (peripherals : list PartDefinition)
        (profile : AssemblyProfile) (input : SolveInput) (targetDays : option num) (env : WireEnv).

Definition sorted_ports : list Port := sort_by port_id (prof_ports profile).

(** The local variables the inner [visit] assigns. *)
Record WireState := mkWireState {
  ws_best : option (list WiringEdge * PowerBudget);
  ws_failure : Failure
}.

(** [Object.values(budget)] and the limits, at a complete assignment: the
    failure that rejects it, if any. *)
Definition leaf_failure (budget : PowerBudget) : option Failure :=
  if negb (finite_budget budget) then
    Some (mkFailure current "Power calculation exceeds the numeric range")
  else if nlt (max_output_ma (we_rail env)) (peak_brain_rail_ma budget) ||
          nlt (max_output_ma (we_output env)) (peak_source_ma budget) then
    Some (mkFailure current (prof_id profile ++ " exceeds a source or regulator peak-current limit")%string)
  else match targetDays with
       | Some t =>
           if match estimated_life_days budget with Some d => nlt d t | None => true end
           then Some (mkFailure battery_ (prof_id profile ++ " does not meet " ++ show_num t ++
                                          " days of battery life")%string)
           else None
       | None => None
       end.

Definition better (budget : PowerBudget) (best : option (list WiringEdge * PowerBudget)) : bool :=
  match best with
  | None => true
  | Some (_, b) => nlt (average_source_ma budget) (average_source_ma b)
  end.

Definition leaf (wired : list WiringEdge) (ws : WireState) : option WireState :=
  budget ← powerBudget brain source peripherals wired profile (in_spec input);
  Some (match leaf_failure budget with
        | Some f => mkWireState (ws_best ws) f
        | None => if better budget (ws_best ws)
                  then mkWireState (Some (wired, budget)) (ws_failure ws) else ws
        end).

Definition occupants (wired : list WiringEdge) (port : Port) : list WiringEdge :=
  List.filter (fun e => edge_port e ==s port_id port) wired.

(** [occupants.reduce((sum, edge) => sum + ..., part.active)] *)
Fixpoint occupied_current (sum : num) (l : list WiringEdge) : option num :=
  match l with
  | [] => Some sum
  | e :: l =>
      p ← List.find (fun p => partKey p ==s pinKey (edge_part e)) peripherals;
      occupied_current (nadd sum (draw_active p)) l
  end.

Definition rail_window (port : Port) : Range :=
  match port_rail port with rail_brain => output_v (we_rail env) | rail_source => we_window env end.

Definition provider (port : Port) : PartDefinition :=
  match port_rail port with rail_brain => brain | rail_source => source end.

(** Every [continue] of the loop over the ports; [None] is a [TypeError]. *)
Definition port_fits (wired : list WiringEdge) (part : PartDefinition) (port : Port) : option bool :=
  if negb (bool_decide (port_interface port = interface (electrical part))) ||
     negb (port_connector port ==s connector (electrical part)) then Some false
  else if match find_connector input (port_connector port) with
          | Some c => negb (carries c (port_interface port)) ||
                      nlt (con_max_voltage c) (rail_window port).2
          | None => true
          end || negb (containsVoltage (voltage_range (electrical part)) (rail_window port)) then Some false
  else if existsb (fun c => startsWith "power." c && negb (has_cap (provider port) c))
            (requires (electrical part)) then Some false
  else if port_capacity port <=? length (occupants wired port) then Some false
  else if existsb (fun e => negb (edge_port e ==s port_id port) &&
                            existsb (fun r => inb r (port_resources port)) (edge_resources e)) wired
  then Some false
  else total ← occupied_current (draw_active part) (occupants wired port);
       Some (negb (nlt (port_max_current_ma port) total)).

Definition edge_for (part : PartDefinition) (port : Port) : WiringEdge :=
  mkEdge (pin part) (port_id port) (port_rail port) (port_connector port)
         (sort_text (port_resources port)).

Fixpoint wire_visit (todo : list PartDefinition) (wired : list WiringEdge) (ws : WireState)
    : M WireState :=
  let* _ := step input in
  match todo with
  | [] => nonnull (leaf wired ws)
  | part :: todo =>
      (fix loop (ports : list Port) (ws : WireState) : M WireState :=
         match ports with
         | [] => ret ws
         | port :: ports =>
             let* ok := nonnull (port_fits wired part port) in
             let* ws := (if ok then wire_visit todo (wired ++ [edge_for part port]) ws else ret ws) in
             loop ports ws
         end) sorted_ports ws
  end.
End Wire.

Definition wire (brain source : PartDefinition) (peripherals : list PartDefinition)
    (profile : AssemblyProfile) (input : SolveInput) (targetDays : option num) : M WiringResult :=
  let* g := nonnull (wire_guards brain source profile input) in
  match g with
  | Err f => ret (NotWired f)
  | Ok env =>
      let init := mkWireState None
        (mkFailure wiring (prof_id profile ++ " has no complete connector/port assignment")%string) in
      let* ws := wire_visit brain source peripherals profile input targetDays env peripherals [] init in
      ret (match ws_best ws with
           | Some (edges, budget) => Wired edges budget
           | None => NotWired (ws_failure ws)
           end)
  end.
