(* ===== verification/Solver.v ===== *)
(** * The bounded search ([apps/matcher/src/solver.ts])

    [solve] enumerates, per assembly profile, the subsets of the candidate
    peripherals, checks each complete selection, wires it, and keeps the best
    plans; when nothing is feasible it minimises the set of requirements in
    conflict by deletion. *)
From S2P Require Import Prelude JsString Regex JsNumber Part Assembly Semver MatcherTypes Constraints.
#[local] Open Scope string_scope.
#[local] Open Scope list_scope.
#[local] Open Scope nat_scope.

Definition powerCapability (p : SolvePower) : string :=
  match p with battery => "power.battery" | usb => "power.5v" | solar => "power.solar" end.

Section Solve.
Context (input : SolveInput).

Definition spec : SolveSpec := in_spec input.

(** [input.parts.filter(active).sort(by pin)] *)
Definition parts : list PartDefinition :=
  sort_by partKey (List.filter (fun p => bool_decide (status p = active)) (in_parts input)).

Definition profiles : list AssemblyProfile := sort_by profileKey (in_profiles input).

Definition caps : list string :=
  sort_text (uniq (spec_capabilities spec ++
    match spec_transport spec with
    | transport_none => []
    | t => [("net." ++ show_transport t)%string]
    end)).

Definition requirements : list string :=
  ((fun c => "capability:" ++ c)%string <$> caps) ++
  match target_life_days spec with None => [] | Some _ => ["target_life_days"] end.

Definition find_brain (profile : AssemblyProfile) : option PartDefinition :=
  List.find (fun p => (partKey p ==s pinKey (prof_brain profile)) &&
                      bool_decide (interface (electrical p) = host)) parts.

Definition find_source (profile : AssemblyProfile) : option PartDefinition :=
  List.find (fun p => (partKey p ==s pinKey (prof_source profile)) &&
                      bool_decide (interface (electrical p) = power) &&
                      has_cap p (powerCapability (spec_power_source spec))) parts.

(** [!source.electrical.supply?.capacity_mah] *)
Definition no_capacity (source : PartDefinition) : bool :=
  match supply (electrical source) with
  | Some s => match capacity_mah s with Some c => negb (truthy c) | None => true end
  | None => true
  end.

Definition endpoints (profile : AssemblyProfile) : option (PartDefinition * PartDefinition) :=
  match find_brain profile, find_source profile with
  | Some b, Some s =>
      if (part_id b ==s part_id s) ||
         (bool_decide (spec_power_source spec = battery) && no_capacity s) then None
      else Some (b, s)
  | _, _ => None
  end.

Definition candidates (brain source : PartDefinition) : list PartDefinition :=
  List.filter (fun p => signal_part p && negb (part_id p ==s part_id brain) &&
                        negb (part_id p ==s part_id source)) parts.

Definition sum_cost (l : list PartDefinition) : num :=
  fold_left (fun sum p => nadd sum (default nzero (unit_cost_usd (commerce p)))) l nzero.

Definition duty_lines (profile : AssemblyProfile) (ordered : list PartDefinition) : list string :=
  (fun a => ("Duty " ++ pinKey (act_part a) ++ ": min(1, " ++ show_num (act_active_s a) ++ "/" ++
             show_num (interval_s spec) ++ "); " ++ act_evidence a)%string) <$>
  sort_by (fun a => pinKey (act_part a))
    (List.filter (fun a => existsb (fun p => partKey p ==s pinKey (act_part a)) ordered)
                 (prof_activity profile)).

Definition make_plan (profile : AssemblyProfile) (brain source : PartDefinition)
    (selected : list PartDefinition) (edges : list WiringEdge) (budget : PowerBudget) : BuildPlan :=
  let ordered := sort_by partKey selected in
  {| part_versions := pin <$> ordered;
     plan_runtime := spec_runtime spec;
     plan_profile := (prof_id profile, prof_version profile);
     wiring_graph := mkGraph (pin source) (pin brain) (prof_brain_input profile) edges;
     power_budget := budget;
     bom := (fun p => mkBom (pin p) 1 (default nzero (unit_cost_usd (commerce p)))) <$> ordered;
     total_cost_usd := sum_cost ordered;
     solver_log :=
       ["Active registry pins only; all declared dependencies and requested capabilities covered.";
        "IO levels, I2C addresses, conflicts, runtime and exact passed compile tuples checked.";
        ("Wiring and power evidence: " ++ prof_id profile ++ "@" ++ prof_version profile ++ ": " ++
         prof_evidence profile)%string;
        "Unprofiled devices use continuous active current; peak load assumes simultaneous activity."] ++
       duty_lines profile ordered ++
       ["Battery days = usable mAh / source mA / 24; runtime is an estimate within the profile's measured operating window."]
  |}.

Section Search.
Context (required : list string) (target : option num) (firstOnly : bool)
        (profile : AssemblyProfile) (brain source : PartDefinition).

(** The tail of the inner [visit], at a complete selection. *)
Definition complete (selected : list PartDefinition) : M bool :=
  let* failures := nonnull (checkParts selected brain input) in
  match failures with
  | _ :: _ => let* _ := forM failures record in ret false
  | [] =>
      let* r := wire brain source (drop 2 selected) profile input target in
      match r with
      | NotWired f => let* _ := record f in ret false
      | Wired edges budget =>
          let plan := make_plan profile brain source selected edges budget in
          if negb (isFinite (total_cost_usd plan)) then
            let* _ := record (mkFailure catalogue "BOM cost exceeds the numeric range") in ret false
          else let* _ := add_plan input plan in ret true
      end
  end.

Definition covers (parts : list PartDefinition) : bool :=
  forallb (fun c => existsb (fun p => has_cap p c) parts) required.

Fixpoint visit (cands selected : list PartDefinition) : M bool :=
  let* _ := step input in
  if negb (covers (selected ++ cands)) then ret false
  else match cands with
  | candidate :: rest =>
      let* found := visit rest selected in
      if found && firstOnly then ret true
      else if negb (existsb (fun p => part_id p ==s part_id candidate) selected) then
        let* found := visit rest (selected ++ [candidate]) in
        ret (found && firstOnly)
      else ret false
  | [] => complete selected
  end.
End Search.

(** One turn of the loop over the profiles; [true] stops the search. *)
Definition search_profile (required : list string) (target : option num) (firstOnly : bool)
    (profile : AssemblyProfile) : M bool :=
  let* _ := step input in
  match endpoints profile with
  | None => ret false
  | Some (brain, source) =>
      let* base := nonnull (checkParts [brain; source] brain input) in
      let base := List.filter (fun f => negb (bool_decide (fconstraint f = requires_))) base in
      match base with
      | _ :: _ => let* _ := forM base record in ret false
      | [] =>
          let* found := visit required target firstOnly profile brain source
                          (candidates brain source) [brain; source] in
          ret (found && firstOnly)
      end
  end.

Fixpoint search_profiles (required : list string) (target : option num) (firstOnly : bool)
    (ps : list AssemblyProfile) : M unit :=
  match ps with
  | [] => ret tt
  | p :: ps =>
      let* stop := search_profile required target firstOnly p in
      if stop then ret tt else search_profiles required target firstOnly ps
  end.

Definition required_caps (needs : list string) : list string :=
  slice_from 11 <$> List.filter (startsWith "capability:") needs.

Definition target_of (needs : list string) : option num :=
  if inb "target_life_days" needs then target_life_days spec else None.

(** [plans] and [count] are locals of each call. *)
Definition fresh_search : M unit := fun s => (Ok tt, mkSt (steps s) (diagnostics s) [] 0).
Definition search_result : M (list BuildPlan * nat) := fun s => (Ok (plans s, count s), s).

Definition search (needs : list string) (firstOnly : bool) : M (list BuildPlan * nat) :=
  let* _ := fresh_search in
  let* _ := search_profiles (required_caps needs) (target_of needs) firstOnly profiles in
  search_result.

(** Deletion minimisation over the requirements still to try. *)
Fixpoint minimise (todo conflict : list string) : M (list string) :=
  match todo with
  | [] => ret conflict
  | requirement :: todo =>
      let reduced := List.filter (fun r => negb (r ==s requirement)) conflict in
      let* r := search reduced true in
      minimise todo (if Nat.eqb r.2 0 then reduced else conflict)
  end.

Definition uncovered : list Failure :=
  List.flat_map (fun c =>
    when (negb (existsb (fun p => has_cap p c) parts))
      (mkFailure coverage ("No active part provides " ++ c)%string)) caps.

Definition no_diagnostics : M bool := fun s => (Ok (Nat.eqb (length (diagnostics s)) 0), s).

Definition solve_body : M SolveResult :=
  let* r := search requirements false in
  if negb (Nat.eqb r.2 0) then fun s => (Ok (Solved r.1 r.2 (steps s)), s)
  else
    let* _ := forM uncovered record in
    let* none := no_diagnostics in
    let* _ := (if none then
      record (mkFailure catalogue "No active host/source/profile combination can cover this request")
      else ret tt) in
    let* conflict := minimise requirements requirements in
    fun s =>
      let failures := sort_by failure_key (diagnostics s).*2 in
      (Ok (Infeasible conflict failures (explain conflict failures) (steps s)), s).

Definition start : St := mkSt 0 [] [] 0.

(** The [try]/[catch]: only the search limit is caught. *)
Definition solve_parsed : result exn SolveResult :=
  if match target_life_days spec with Some _ => negb (bool_decide (spec_power_source spec = battery)) | None => false end
  then Ok (InvalidInput ["target_life_days requires a battery power source"])
  else match solve_body start with
       | (Ok r, _) => Ok r
       | (Err SEARCH_LIMIT, s) => Ok (SearchLimited (steps s))
       | (Err TypeError, _) => Err TypeError
       end.
End Solve.

(** [solve], over what [SolveInput.safeParse] of the schema library returns. *)
Definition solve {unknown : Type} (safeParse : unknown -> result (list Issue) SolveInput) (value : unknown)
    : result exn SolveResult :=
  match safeParse value with
  | Err issues => Ok (InvalidInput ((fun i => join "." (issue_path i) ++ ": " ++ issue_message i)%string <$> issues))
  | Ok input => solve_parsed input
  end.
