(* ===== verification/PlanOrder.v ===== *)
(** * Ranking plans ([apps/matcher/src/rank.ts])

    On plans with finite cost and draw the comparator is a total preorder, so
    the bounded, incrementally sorted list of the search is the head of the
    stable sort of everything pushed. *)
From S2P Require Import Prelude JsString Regex JsNumber JsNumberFacts Part Assembly Semver MatcherTypes.
#[local] Open Scope list_scope.
#[local] Open Scope nat_scope.

(** ** Keeping the best [k] of a growing sorted list *)
Section TopK.
Context {A : Type} (gt : A -> A -> bool) (P : A -> Prop) (Hord : total_preorder_on gt P).

(** Insertion after the elements it ties with. *)
Fixpoint insert_after (x : A) (l : list A) : list A :=
  match l with
  | [] => [x]
  | y :: l => if gt y x then x :: y :: l else y :: insert_after x l
  end.

Lemma gt_trans_le x y z : P x -> P y -> P z -> gt x y = true -> gt x z = false -> gt y z = false.
Proof using Hord.
  intros Hx Hy Hz Hxy Hxz. destruct (tpo_total _ _ Hord x y Hx Hy) as [H|H]; unfold le_of in H.
  - congruence.
  - by eapply (tpo_trans _ _ Hord y x z).
Qed.

Lemma insert_commute a x l :
  P a -> P x -> Forall P l -> js_insert gt a (insert_after x l) = insert_after x (js_insert gt a l).
Proof using Hord.
  intros Ha Hx Hl. induction Hl as [|y l Hy Hl IH]; simpl.
  - destruct (gt a x) eqn:E; simpl; rewrite ?E; done.
  - destruct (gt y x) eqn:Eyx, (gt a y) eqn:Eay; simpl; rewrite ?Eyx, ?Eay.
    + destruct (gt a x) eqn:Eax; [done|].
      exfalso. destruct (tpo_total _ _ Hord y x Hy Hx) as [H|H]; unfold le_of in H; [congruence|].
      assert (gt a y = false) by (by eapply (tpo_trans _ _ Hord a x y)). congruence.
    + destruct (gt a x) eqn:Eax; simpl; rewrite ?Eay, ?Eyx; done.
    + by rewrite IH.
    + destruct (gt a x) eqn:Eax; simpl; [|by rewrite ?Eyx].
      exfalso. assert (gt a x = false) by (by eapply (tpo_trans _ _ Hord a y x)). congruence.
Qed.

Lemma js_sort_snoc l x :
  Forall P l -> P x -> js_sort gt (l ++ [x]) = insert_after x (js_sort gt l).
Proof using Hord.
  intros Hl Hx. induction Hl as [|a l Ha Hl IH]; simpl; [done|].
  change (foldr (js_insert gt) [] (l ++ [x])) with (js_sort gt (l ++ [x])).
  rewrite IH. apply insert_commute; [done..|].
  change (Forall P (js_sort gt l)). apply Forall_forall. intros y. rewrite elem_of_js_sort.
  rewrite Forall_forall in Hl. apply Hl.
Qed.

Lemma take_insert_after k x l : take k (insert_after x (take k l)) = take k (insert_after x l).
Proof using Type.
  revert l. induction k as [|k IH]; intros l; [done|]. destruct l as [|y l]; [done|]. simpl.
  destruct (gt y x); simpl; f_equal; [|apply IH].
  rewrite firstn_cons || idtac. destruct k; simpl; [done|]. f_equal. by rewrite take_take, Nat.min_l by lia.
Qed.
End TopK.

(** ** The comparator *)
Record plan_ok (p : BuildPlan) : Prop := {
  po_cost : fin (total_cost_usd p);
  po_draw : fin (average_source_ma (power_budget p));
  po_size : (Z.of_nat (length (part_versions p)) < 2 ^ 53)%Z
}.

Definition cmpZ (x y : Z) : Z := if (x <? y)%Z then (-1)%Z else if (y <? x)%Z then 1%Z else 0%Z.

(** The lexicographic order the chain of [||] computes. *)
Definition plan_cmp (a b : BuildPlan) : Z :=
  let by_cost := cmpZ (scaled (total_cost_usd a)) (scaled (total_cost_usd b)) in
  let by_draw := cmpZ (scaled (average_source_ma (power_budget a))) (scaled (average_source_ma (power_budget b))) in
  let by_size := cmpZ (Z.of_nat (length (part_versions a))) (Z.of_nat (length (part_versions b))) in
  let by_parts := compareText (plan_key a) (plan_key b) in
  let by_profile := compareText (plan_profile_key a) (plan_profile_key b) in
  if (by_cost =? 0)%Z then
    if (by_draw =? 0)%Z then
      if (by_size =? 0)%Z then
        if (by_parts =? 0)%Z then by_profile else by_parts
      else by_size
    else by_draw
  else by_cost.

Lemma ordering_plan : ordering plan_cmp.
Proof.
  pose proof ordering_Z as Hz.
  pose proof (ordering_on plan_profile_key _ ordering_text) as H5.
  pose proof (ordering_then _ _ (ordering_on plan_key _ ordering_text) H5) as H4.
  pose proof (ordering_then _ _ (ordering_on (fun p => Z.of_nat (length (part_versions p))) _ Hz) H4) as H3.
  pose proof (ordering_then _ _
    (ordering_on (fun p => scaled (average_source_ma (power_budget p))) _ Hz) H3) as H2.
  exact (ordering_then _ _ (ordering_on (fun p => scaled (total_cost_usd p)) _ Hz) H2).
Qed.

Lemma nor_sub x y r :
  fin x -> fin y ->
  nlt nzero (nor (nsub x y) r) =
  if (cmpZ (scaled x) (scaled y) =? 0)%Z then nlt nzero r else (0 <? cmpZ (scaled x) (scaled y))%Z.
Proof.
  intros Hx Hy. unfold nor. rewrite nsub_truthy by done. unfold cmpZ.
  destruct (Z.eqb_spec (scaled x) (scaled y)) as [E|E]; simpl.
  - rewrite E, Z.ltb_irrefl. done.
  - rewrite nsub_pos by done.
    destruct (Z.ltb_spec (scaled x) (scaled y)), (Z.ltb_spec (scaled y) (scaled x)); simpl; done || lia.
Qed.

Lemma nor_text a b r :
  nlt nzero (nor (of_Z (compareText a b)) r) =
  if (compareText a b =? 0)%Z then nlt nzero r else (0 <? compareText a b)%Z.
Proof. unfold compareText. repeat case_match; done. Qed.

Lemma text_pos a b : nlt nzero (of_Z (compareText a b)) = (0 <? compareText a b)%Z.
Proof. unfold compareText. repeat case_match; done. Qed.

Lemma cmpZ_scale a b c : (0 < c)%Z -> cmpZ (a * c) (b * c) = cmpZ a b.
Proof.
  intros Hc. unfold cmpZ.
  destruct (Z.ltb_spec a b), (Z.ltb_spec (a * c) (b * c)); try nia;
    destruct (Z.ltb_spec b a), (Z.ltb_spec (b * c) (a * c)); try nia; done.
Qed.

Lemma plan_gt_cmp a b : plan_ok a -> plan_ok b -> plan_gt a b = (0 <? plan_cmp a b)%Z.
Proof.
  intros [A1 A2 A3] [B1 B2 B3]. unfold plan_gt, comparePlans, plan_cmp. cbv zeta.
  rewrite nor_sub by done. destruct (_ =? 0)%Z; [|done].
  rewrite nor_sub by done. destruct (_ =? 0)%Z; [|done].
  destruct (of_Z_small (Z.of_nat (length (part_versions a)))) as [Fa Sa]; [lia|].
  destruct (of_Z_small (Z.of_nat (length (part_versions b)))) as [Fb Sb]; [lia|].
  rewrite nor_sub by done. unfold of_nat. rewrite Sa, Sb, cmpZ_scale by (apply Z.pow_pos_nonneg; lia).
  destruct (_ =? 0)%Z; [|done]. rewrite nor_text, text_pos. by destruct (_ =? 0)%Z.
Qed.

Lemma plan_order : total_preorder_on plan_gt plan_ok.
Proof.
  pose proof ordering_plan as Ho. split.
  - intros x y Hx Hy. unfold le_of. rewrite !plan_gt_cmp by done.
    rewrite (ord_antisym _ Ho x y). lia.
  - intros x y z Hx Hy Hz. unfold le_of. rewrite !plan_gt_cmp by done.
    pose proof (ord_le_trans _ Ho x y z). lia.
Qed.

(** ** The list the search maintains *)
Lemma insert_after_length gt (x : BuildPlan) l : length (insert_after gt x l) = S (length l).
Proof. induction l as [|y l IH]; simpl; [done|]. case_match; simpl; lia. Qed.

Lemma removelast_take {A} (l : list A) : removelast l = take (length l - 1) l.
Proof.
  induction l as [|x l IH]; [done|]. destruct l as [|y l]; [done|].
  change (removelast (x :: y :: l)) with (x :: removelast (y :: l)). rewrite IH.
  simpl. by rewrite Nat.sub_0_r.
Qed.

Lemma push_plan_take k p l :
  plan_ok p -> Forall plan_ok l -> StronglySorted (le_of plan_gt) l -> length l <= k ->
  push_plan k p l = take k (insert_after plan_gt p l).
Proof.
  intros Hp Hl Hs Hk. unfold push_plan, sort_plans.
  rewrite (js_sort_snoc _ _ plan_order) by done. rewrite js_sort_id by done. cbv zeta.
  rewrite insert_after_length. destruct (Nat.ltb_spec k (S (length l))).
  - rewrite removelast_take, insert_after_length. f_equal. lia.
  - rewrite take_ge; [done|]. rewrite insert_after_length. lia.
Qed.

Lemma StronglySorted_take {A} (R : A -> A -> Prop) k l : StronglySorted R l -> StronglySorted R (take k l).
Proof.
  intros Hs. revert k. induction Hs as [|x l Hs IH Hx]; intros [|k]; simpl; try constructor; auto.
  by apply Forall_take.
Qed.

Lemma push_all_take k ps :
  Forall plan_ok ps ->
  fold_left (fun acc p => push_plan k p acc) ps [] = take k (sort_plans ps).
Proof.
  intros Hps. induction ps as [|p ps IH] using rev_ind; [by destruct k|].
  apply Forall_app in Hps as [Hps Hp]. inv Hp. rewrite fold_left_app. simpl. rewrite IH by done.
  assert (Hok : Forall plan_ok (sort_plans ps)).
  { apply Forall_forall. intros x. unfold sort_plans. rewrite elem_of_js_sort.
    rewrite Forall_forall in Hps. apply Hps. }
  rewrite push_plan_take.
  - rewrite take_insert_after. unfold sort_plans. by rewrite (js_sort_snoc _ _ plan_order).
  - done.
  - by apply Forall_take.
  - apply StronglySorted_take. by apply (js_sort_sorted _ _ plan_order).
  - rewrite length_take. lia.
Qed.
