(* ===== verification/WireFacts.v ===== *)
(** * The backtracking search of [wire]

    A run that returns computes the fold of the leaf test over the list of all
    complete assignments; hence the wiring returned is feasible and of least
    average source current, and a failure means no assignment is feasible. *)
From S2P Require Import Prelude JsString Regex JsNumber JsNumberFacts Part Assembly Semver MatcherTypes Constraints.
#[local] Open Scope list_scope.
#[local] Open Scope nat_scope.

(** ** Running the effects *)
Lemma bind_Ok {A B} (m : M A) (k : A -> M B) s b s' :
  bind m k s = (Ok b, s') <-> exists a s1, m s = (Ok a, s1) /\ k a s1 = (Ok b, s').
Proof.
  unfold bind. split.
  - destruct (m s) as [[a|e] s1] eqn:E; [eauto|done].
  - intros (a & s1 & -> & H). done.
Qed.

Lemma ret_Ok {A} (a : A) s b s' : ret a s = (Ok b, s') <-> a = b /\ s = s'.
Proof. unfold ret. naive_solver. Qed.

Lemma nonnull_Ok {A} (o : option A) s b s' : nonnull o s = (Ok b, s') <-> o = Some b /\ s = s'.
Proof. unfold nonnull, ret, throw. destruct o; naive_solver. Qed.

Lemma step_Ok input s u s' :
  step input s = (Ok u, s') ->
  steps s < max_steps input /\ s' = mkSt (S (steps s)) (diagnostics s) (plans s) (count s).
Proof. unfold step. destruct (Nat.leb_spec (max_steps input) (steps s)); naive_solver. Qed.

(** Unpacks a successful run of a sequence of effects. *)
Ltac run_in H :=
  repeat match type of H with
  | bind _ _ _ = (Ok _, _) =>
      let a := fresh "a" in let s1 := fresh "s" in let H1 := fresh "Hrun" in
      apply bind_Ok in H as (a & s1 & H1 & H); try run_in H1
  | ret _ _ = (Ok _, _) => apply ret_Ok in H as [? ?]; subst
  | nonnull _ _ = (Ok _, _) => apply nonnull_Ok in H as [? ?]; subst
  | step _ _ = (Ok _, _) => apply step_Ok in H as [? ?]; subst
  end.

(** A wiring search changes nothing but the step counter. *)
Definition only_steps (s s' : St) : Prop :=
  diagnostics s' = diagnostics s /\ plans s' = plans s /\ count s' = count s /\ steps s <= steps s'.

#[export] Instance only_steps_preorder : PreOrder only_steps.
Proof. unfold only_steps. split; intros ?; intros; destruct_and?; split_and!; try congruence; lia. Qed.

Lemma step_only input s u s' : step input s = (Ok u, s') -> only_steps s s'.
Proof. intros [? ->]%step_Ok. unfold only_steps. simpl. auto. Qed.

Section WireFacts.
Context (brain source : PartDefinition) (peripherals : list PartDefinition)
        (profile : AssemblyProfile) (input : SolveInput) (targetDays : option num) (env : WireEnv).

#[local] Abbreviation visit := (wire_visit brain source peripherals profile input targetDays env).
#[local] Abbreviation fits := (port_fits brain source peripherals input env).
#[local] Abbreviation leaf' := (leaf brain source peripherals profile input targetDays env).
#[local] Abbreviation budget_of wired :=
  (powerBudget brain source peripherals wired profile (in_spec input)).

(** ** The reference: every complete assignment, in search order *)
Fixpoint assignments (todo : list PartDefinition) (wired : list WiringEdge) : list (list WiringEdge) :=
  match todo with
  | [] => [wired]
  | part :: todo =>
      List.flat_map (fun port =>
        match fits wired part port with
        | Some true => assignments todo (wired ++ [edge_for part port])
        | _ => []
        end) (sorted_ports profile)
  end.

Definition consider (ws : WireState) (wired : list WiringEdge) : WireState :=
  default ws (leaf' wired ws).

Lemma visit_refines todo wired ws s ws' s' :
  visit todo wired ws s = (Ok ws', s') ->
  ws' = fold_left consider (assignments todo wired) ws /\ only_steps s s'.
Proof.
  revert wired ws s ws' s'. induction todo as [|part todo IH]; intros wired ws s ws' s' H.
  - simpl in H. run_in H. match goal with E : leaf _ _ _ _ _ _ _ _ _ = _ |- _ =>
      simpl; unfold consider; rewrite E end.
    split; [done|]. unfold only_steps; simpl; auto.
  - simpl in H. apply bind_Ok in H as (u & s1 & H1 & H). apply step_only in H1. simpl.
    enough (ws' = fold_left consider (List.flat_map (fun port =>
        match fits wired part port with
        | Some true => assignments todo (wired ++ [edge_for part port])
        | _ => []
        end) (sorted_ports profile)) ws /\ only_steps s1 s') as [? ?]
      by (split; [done|by etransitivity]).
    clear H1 s. revert ws s1 H. induction (sorted_ports profile) as [|port ports IHp]; intros ws s H.
    + run_in H. done.
    + apply bind_Ok in H as (ok & s1 & H1 & H). apply nonnull_Ok in H1 as [Hok <-].
      apply bind_Ok in H as (ws1 & s2 & H1 & H). simpl. rewrite Hok.
      apply IHp in H as [Hws Hs]. rewrite fold_left_app. destruct ok.
      * apply IH in H1 as [-> Hs1]. split; [done|by etransitivity].
      * run_in H1. done.
Qed.

(** ** The feasible wirings and the best of them *)
Definition feasible (wired : list WiringEdge) : option (list WiringEdge * PowerBudget) :=
  b ← budget_of wired;
  if leaf_failure profile targetDays env b then None else Some (wired, b).

Definition pick (best : option (list WiringEdge * PowerBudget)) (x : list WiringEdge * PowerBudget)
    : option (list WiringEdge * PowerBudget) :=
  if better x.2 best then Some x else best.

Lemma consider_best ws wired :
  ws_best (consider ws wired) =
  match feasible wired with Some x => pick (ws_best ws) x | None => ws_best ws end.
Proof.
  unfold consider, leaf, feasible, pick. destruct (budget_of wired) as [b|]; simpl; [|done].
  destruct (leaf_failure _ _ _ b); simpl; [done|]. by destruct (better b (ws_best ws)).
Qed.

Lemma fold_consider_best l ws :
  ws_best (fold_left consider l ws) = fold_left pick (omap feasible l) (ws_best ws).
Proof.
  revert ws. induction l as [|w l IH]; intros ws; simpl; [done|].
  rewrite IH, consider_best. by destruct (feasible w).
Qed.

Definition feasible_wirings : list (list WiringEdge * PowerBudget) :=
  omap feasible (assignments peripherals []).

Lemma feasible_fin wired b : feasible wired = Some (wired, b) -> fin (average_source_ma b).
Proof.
  unfold feasible. intros H. apply bind_Some in H as (b' & _ & H).
  destruct (leaf_failure profile targetDays env b') eqn:E; [done|]. simplify_eq.
  unfold leaf_failure in E. destruct (finite_budget b) eqn:F; [|done].
  unfold finite_budget in F. bools. done.
Qed.

Lemma feasible_wiring_fin x : x ∈ feasible_wirings -> fin (average_source_ma x.2).
Proof.
  unfold feasible_wirings. rewrite list_elem_of_omap. intros (w & _ & H).
  assert (x = (w, x.2)) as Hx.
  { unfold feasible in H. apply bind_Some in H as (b' & _ & H). by case_match; simplify_eq. }
  rewrite Hx in H. by apply feasible_fin in H.
Qed.

Definition avg (x : list WiringEdge * PowerBudget) : Z := scaled (average_source_ma x.2).

Lemma fold_pick l best :
  (forall x, x ∈ l -> fin (average_source_ma x.2)) ->
  (forall x, best = Some x -> fin (average_source_ma x.2)) ->
  match fold_left pick l best with
  | None => l = [] /\ best = None
  | Some x => (x ∈ l \/ best = Some x) /\ (forall y, y ∈ l \/ best = Some y -> (avg x <= avg y)%Z)
  end.
Proof.
  revert best. induction l as [|a l IH]; intros best Hl Hb; simpl.
  - destruct best as [x|]; [|done]. split; [by right|].
    intros y [Hy|Hy]; [by apply elem_of_nil in Hy|by simplify_eq].
  - assert (Ha : fin (average_source_ma a.2)) by (apply Hl; left).
    specialize (IH (pick best a)).
    destruct (fold_left pick l (pick best a)) as [x|].
    + destruct IH as [Hx Hmin].
      * intros y Hy. apply Hl. by right.
      * intros y Hy. unfold pick in Hy. case_match; simplify_eq; auto.
      * assert (Hpa : (forall p, pick best a = Some p -> (avg p <= avg a)%Z) /\
                      (forall p y, pick best a = Some p -> best = Some y -> (avg p <= avg y)%Z) /\
                      (forall p, pick best a = Some p -> p = a \/ best = Some p) /\
                      pick best a <> None).
        { unfold pick, better, avg. destruct best as [[w b]|]; simpl; [|naive_solver lia].
          rewrite nlt_scaled by (done || by apply (Hb (w, b))).
          destruct (Z.ltb_spec (scaled (average_source_ma a.2)) (scaled (average_source_ma b)));
            split_and!; intros; simplify_eq; simpl; auto; lia. }
        destruct Hpa as (P1 & P2 & P3 & P4).
        destruct (pick best a) as [p|] eqn:Ep; [|done]. clear P4.
        assert (Hxp : (avg x <= avg p)%Z) by (apply Hmin; by right).
        split.
        -- rewrite elem_of_cons. destruct Hx as [?|Hx]; [by left; right|]. simplify_eq.
           destruct (P3 x eq_refl) as [->|?]; [by left; left|by right].
        -- intros y. rewrite elem_of_cons. intros [[->|Hy]|Hy].
           ++ specialize (P1 p eq_refl). lia.
           ++ apply Hmin. by left.
           ++ specialize (P2 p y eq_refl Hy). lia.
    + destruct IH as [_ Hp].
      * intros y Hy. apply Hl. by right.
      * intros y Hy. unfold pick in Hy. case_match; simplify_eq; auto.
      * exfalso. unfold pick, better in Hp. destruct best as [[w b]|]; [|done]. by case_match.
Qed.
End WireFacts.

(** ** [wire] *)
Section WireSpec.
Context (brain source : PartDefinition) (peripherals : list PartDefinition)
        (profile : AssemblyProfile) (input : SolveInput) (targetDays : option num).

(** Every feasible wiring of the peripherals, with its budget. *)
Definition wirings : list (list WiringEdge * PowerBudget) :=
  match wire_guards brain source profile input with
  | Some (Ok env) => feasible_wirings brain source peripherals profile input targetDays env
  | _ => []
  end.

Definition best_wiring : option (list WiringEdge * PowerBudget) :=
  fold_left pick wirings None.

Lemma wirings_fin x : x ∈ wirings -> fin (average_source_ma x.2).
Proof.
  unfold wirings. destruct (wire_guards _ _ _ _) as [[env|]|]; [|by intros ?%elem_of_nil..].
  apply feasible_wiring_fin.
Qed.

Lemma best_wiring_spec :
  match best_wiring with
  | None => wirings = []
  | Some x => x ∈ wirings /\ forall y, y ∈ wirings ->
              nlt (average_source_ma y.2) (average_source_ma x.2) = false
  end.
Proof.
  pose proof (fold_pick wirings None wirings_fin) as H. unfold best_wiring.
  destruct (fold_left pick wirings None) as [x|].
  - destruct H as [[Hx|Hx] Hmin]; [done| |done]. split; [done|]. intros y Hy.
    rewrite nlt_scaled by by apply wirings_fin. specialize (Hmin y (or_introl Hy)).
    unfold avg in Hmin. lia.
  - by destruct H.
Qed.

Lemma wire_refines s r s' :
  wire brain source peripherals profile input targetDays s = (Ok r, s') ->
  only_steps s s' /\
  match r with
  | Wired e b => best_wiring = Some (e, b)
  | NotWired _ => best_wiring = None
  end.
Proof.
  unfold wire, best_wiring, wirings. intros H. apply bind_Ok in H as (g & s1 & H1 & H).
  apply nonnull_Ok in H1 as [Hg <-]. rewrite Hg. destruct g as [env|f].
  - apply bind_Ok in H as (ws & s1 & H1 & H). apply ret_Ok in H as [<- <-].
    apply visit_refines in H1 as [-> Hs]. split; [done|].
    rewrite fold_consider_best. simpl. fold (feasible_wirings brain source peripherals profile input targetDays env).
    by destruct (fold_left pick _ _) as [[e b]|].
  - apply ret_Ok in H as [<- <-]. done.
Qed.
End WireSpec.
