(* ===== verification/SearchFacts.v ===== *)
(** * The search of [solve], against a reference enumeration

    The reference lists, with no pruning and no bound, the plan of every
    selection of every profile. A search that returns has pushed exactly those
    plans (or only the first of them, when asked for one). *)
From S2P Require Import Prelude JsString Regex JsNumber JsNumberFacts Part Assembly Semver.
From S2P Require Import MatcherTypes Constraints Solver WireFacts.
#[local] Open Scope string_scope.
#[local] Open Scope list_scope.
#[local] Open Scope nat_scope.

(** ** Effects that leave the plans alone *)
Definition same_plans (s s' : St) : Prop := plans s' = plans s /\ count s' = count s.

#[export] Instance same_plans_preorder : PreOrder same_plans.
Proof. unfold same_plans. split; intros ?; intros; destruct_and?; split_and!; congruence. Qed.

Lemma only_steps_same s s' : only_steps s s' -> same_plans s s'.
Proof. by intros (? & ? & ? & ?). Qed.

Lemma record_Ok f s u s' : record f s = (Ok u, s') -> same_plans s s'.
Proof. unfold record, same_plans. intros [= <- <-]. by case_match. Qed.

Lemma forM_record_Ok fs s u s' : forM fs record s = (Ok u, s') -> same_plans s s'.
Proof.
  revert s. induction fs as [|f fs IH]; intros s H; simpl in H.
  - by apply ret_Ok in H as [_ ->].
  - apply bind_Ok in H as (? & s1 & H1 & H). apply record_Ok in H1. apply IH in H. by etransitivity.
Qed.

Section Reference.
Context (input : SolveInput).
#[local] Abbreviation spec := (in_spec input).

(** ** One selection *)
Definition plan_of (target : option num) (profile : AssemblyProfile) (brain source : PartDefinition)
    (selected : list PartDefinition) : option BuildPlan :=
  match checkParts selected brain input with
  | Some [] =>
      match best_wiring brain source (drop 2 selected) profile input target with
      | Some (edges, budget) =>
          let plan := make_plan input profile brain source selected edges budget in
          if isFinite (total_cost_usd plan) then Some plan else None
      | None => None
      end
  | _ => None
  end.

(** What pushing a list of plans does to the state. *)
Definition push_all (ps : list BuildPlan) (acc : list BuildPlan) : list BuildPlan :=
  fold_left (fun acc p => push_plan (max_plans input) p acc) ps acc.

Definition pushed (ps : list BuildPlan) (s s' : St) : Prop :=
  plans s' = push_all ps (plans s) /\ count s' = count s + length ps.

Lemma pushed_nil s s' : pushed [] s s' <-> same_plans s s'.
Proof. unfold pushed, same_plans. simpl. by rewrite Nat.add_0_r. Qed.

Lemma pushed_app p1 p2 s1 s2 s3 : pushed p1 s1 s2 -> pushed p2 s2 s3 -> pushed (p1 ++ p2) s1 s3.
Proof.
  unfold pushed, push_all. rewrite fold_left_app, length_app.
  intros [-> ->] [-> ->]. split; [done|lia].
Qed.

Lemma same_pushed s1 s2 s3 ps : same_plans s1 s2 -> pushed ps s2 s3 -> pushed ps s1 s3.
Proof. intros H1 H2. apply pushed_nil in H1. exact (pushed_app [] ps _ _ _ H1 H2). Qed.

Lemma pushed_same s1 s2 s3 ps : pushed ps s1 s2 -> same_plans s2 s3 -> pushed ps s1 s3.
Proof.
  intros H1 H2. apply pushed_nil in H2. rewrite <- (app_nil_r ps). by eapply pushed_app.
Qed.

Lemma complete_refines target profile brain source selected s found s' :
  complete input target profile brain source selected s = (Ok found, s') ->
  match plan_of target profile brain source selected with
  | Some p => found = true /\ pushed [p] s s'
  | None => found = false /\ same_plans s s'
  end.
Proof.
  unfold complete, plan_of. intros H. apply bind_Ok in H as (fs & s1 & H1 & H).
  apply nonnull_Ok in H1 as [-> <-]. destruct fs as [|f fs].
  - apply bind_Ok in H as (r & s1 & H1 & H). apply wire_refines in H1 as [Hs Hr].
    apply only_steps_same in Hs. destruct r as [e b|f]; rewrite Hr.
    + cbv zeta in *. destruct (isFinite _); simpl in H.
      * apply bind_Ok in H as (u & s2 & H1 & H). apply ret_Ok in H as [<- <-].
        split; [done|]. eapply same_pushed; [done|]. unfold add_plan in H1.
        injection H1 as _ <-. unfold pushed, push_all. simpl. split; [done|lia].
      * apply bind_Ok in H as (u & s2 & H1 & H). apply ret_Ok in H as [<- <-].
        apply record_Ok in H1. split; [done|by etransitivity].
    + apply bind_Ok in H as (u & s2 & H1 & H). apply ret_Ok in H as [<- <-].
      apply record_Ok in H1. split; [done|by etransitivity].
  - apply bind_Ok in H as (u & s2 & H1 & H). apply ret_Ok in H as [<- <-].
    by apply forM_record_Ok in H1.
Qed.

(** ** Every selection of the candidates *)
Fixpoint selections (cands selected : list PartDefinition) : list (list PartDefinition) :=
  match cands with
  | [] => [selected]
  | c :: cands =>
      selections cands selected ++
      if existsb (fun p => part_id p ==s part_id c) selected then []
      else selections cands (selected ++ [c])
  end.

Lemma selections_sub cands selected final p :
  final ∈ selections cands selected -> p ∈ final -> p ∈ selected ++ cands.
Proof.
  revert selected. induction cands as [|c cands IH]; intros selected; simpl.
  - intros ->%list_elem_of_singleton. by rewrite app_nil_r.
  - rewrite elem_of_app. intros [H|H] Hp.
    + apply IH in H; [|done]. set_solver.
    + destruct (existsb _ _); [by apply elem_of_nil in H|]. apply IH in H; [|done]. set_solver.
Qed.

Lemma covers_mono required l1 l2 :
  (forall p, p ∈ l1 -> p ∈ l2) -> covers required l1 = true -> covers required l2 = true.
Proof.
  unfold covers. rewrite !forallb_elem. intros Hsub H c Hc. specialize (H c Hc).
  apply existsb_elem in H as (p & Hp & Hcap). apply existsb_elem. eauto.
Qed.

Definition plans_of (required : list string) (target : option num) (profile : AssemblyProfile)
    (brain source : PartDefinition) (sels : list (list PartDefinition)) : list BuildPlan :=
  omap (fun sel => if covers required sel then plan_of target profile brain source sel else None) sels.

Lemma plans_of_app required target profile brain source l1 l2 :
  plans_of required target profile brain source (l1 ++ l2) =
  plans_of required target profile brain source l1 ++ plans_of required target profile brain source l2.
Proof. apply omap_app. Qed.

Lemma plans_of_uncovered required target profile brain source cands selected :
  covers required (selected ++ cands) = false ->
  plans_of required target profile brain source (selections cands selected) = [].
Proof.
  intros H. unfold plans_of.
  assert (Hall : forall sel, sel ∈ selections cands selected -> covers required sel = false).
  { intros sel Hsel. apply not_true_iff_false. intros Hc.
    rewrite (covers_mono required sel (selected ++ cands)) in H; [done| |done].
    intros p. by apply selections_sub. }
  induction (selections cands selected) as [|sel l IH]; [done|]. simpl.
  rewrite Hall by left. apply IH. intros sel' Hs. apply Hall. by right.
Qed.

(** What a search keeps of a list of plans. *)
Definition kept (firstOnly : bool) (ps : list BuildPlan) : list BuildPlan :=
  if firstOnly then take 1 ps else ps.

Definition nonempty {A} (l : list A) : bool := match l with [] => false | _ => true end.

Lemma kept_app_stop p1 p2 : nonempty p1 = true -> kept true (p1 ++ p2) = kept true p1.
Proof. by destruct p1. Qed.

(** The result of an exploration: whether to stop, and what was pushed. *)
Definition explored (firstOnly found : bool) (ps : list BuildPlan) (s s' : St) : Prop :=
  found && firstOnly = firstOnly && nonempty ps /\ pushed (kept firstOnly ps) s s'.

Lemma explored_same firstOnly found ps s1 s2 s3 :
  same_plans s1 s2 -> explored firstOnly found ps s2 s3 -> explored firstOnly found ps s1 s3.
Proof. intros H [? ?]. split; [done|by eapply same_pushed]. Qed.

Lemma explored_stop found p1 p2 s s' :
  found = true -> explored true found p1 s s' -> explored true true (p1 ++ p2) s s'.
Proof.
  intros -> [H1 H2]. simpl in H1. unfold explored. rewrite kept_app_stop by done.
  split; [|done]. simpl. by destruct p1.
Qed.

Lemma explored_more firstOnly found p1 p2 b s1 s2 s3 :
  found && firstOnly = false -> explored firstOnly found p1 s1 s2 ->
  explored firstOnly b p2 s2 s3 -> explored firstOnly b (p1 ++ p2) s1 s3.
Proof.
  intros Hf [H1 H2] [H3 H4]. rewrite Hf in H1. destruct firstOnly; simpl in *.
  - destruct p1; [|done]. split; [done|]. simpl. by eapply (pushed_app [] _ s1 s2 s3).
  - split; [done|]. by eapply pushed_app.
Qed.

Lemma explored_none firstOnly s s' : same_plans s s' -> explored firstOnly false [] s s'.
Proof. intros. destruct firstOnly; (split; [done|by apply pushed_nil]). Qed.

Lemma visit_explores required target firstOnly profile brain source cands selected s found s' :
  visit input required target firstOnly profile brain source cands selected s = (Ok found, s') ->
  explored firstOnly found
    (plans_of required target profile brain source (selections cands selected)) s s'.
Proof.
  revert selected s found s'.
  induction cands as [|c cands IH]; intros selected s found s' H; simpl in H;
    apply bind_Ok in H as (u & s0 & H0 & H); apply step_only, only_steps_same in H0;
    eapply explored_same; try exact H0; clear H0 s.
  - destruct (covers required (selected ++ [])) eqn:Hc; simpl in H.
    + rewrite app_nil_r in Hc. apply complete_refines in H. simpl. unfold plans_of. simpl. rewrite Hc.
      destruct (plan_of _ _ _ _ _) as [p|]; destruct H as [-> H].
      * by destruct firstOnly; split.
      * by apply explored_none.
    + apply ret_Ok in H as [<- <-]. rewrite plans_of_uncovered by done.
      by apply explored_none.
  - destruct (covers required (selected ++ c :: cands)) eqn:Hc; cbn [negb] in H.
    + apply bind_Ok in H as (f1 & s1 & H1 & H). apply IH in H1. simpl. rewrite plans_of_app.
      destruct (f1 && firstOnly) eqn:Ef.
      * apply ret_Ok in H as [<- <-]. apply andb_true_iff in Ef as [-> ->].
        exact (explored_stop true _ _ _ _ eq_refl H1).
      * eapply explored_more; [exact Ef|exact H1|].
        destruct (existsb _ selected); simpl in H.
        -- apply ret_Ok in H as [<- <-]. by apply explored_none.
        -- apply bind_Ok in H as (f2 & s2 & H2 & H). apply ret_Ok in H as [<- <-].
           apply IH in H2 as [H2 H3]. split; [|done]. by rewrite <- andb_assoc, andb_diag.
    + apply ret_Ok in H as [<- <-]. rewrite plans_of_uncovered by done.
      by apply explored_none.
Qed.

(** ** One profile, all profiles *)
Definition base_ok (brain source : PartDefinition) : bool :=
  match checkParts [brain; source] brain input with
  | Some base =>
      negb (nonempty (List.filter (fun f => negb (bool_decide (fconstraint f = requires_))) base))
  | None => false
  end.

Definition profile_plans (required : list string) (target : option num) (profile : AssemblyProfile)
    : list BuildPlan :=
  match endpoints input profile with
  | Some (brain, source) =>
      if base_ok brain source then
        plans_of required target profile brain source
          (selections (candidates input brain source) [brain; source])
      else []
  | None => []
  end.

Definition all_plans (required : list string) (target : option num) : list BuildPlan :=
  List.flat_map (profile_plans required target) (profiles input).

Lemma search_profile_explores required target firstOnly profile s stop s' :
  search_profile input required target firstOnly profile s = (Ok stop, s') ->
  stop = firstOnly && nonempty (profile_plans required target profile) /\
  pushed (kept firstOnly (profile_plans required target profile)) s s'.
Proof.
  unfold search_profile, profile_plans. intros H.
  apply bind_Ok in H as (u & s0 & H0 & H). apply step_only, only_steps_same in H0.
  assert (Hnone : forall s', same_plans s0 s' ->
    false = firstOnly && nonempty (@nil BuildPlan) /\ pushed (kept firstOnly []) s s').
  { intros s2 Hs. split; [by destruct firstOnly|]. 
    destruct firstOnly; apply pushed_nil; by etransitivity. }
  destruct (endpoints input profile) as [[brain source]|].
  - apply bind_Ok in H as (base & s1 & H1 & H). apply nonnull_Ok in H1 as [Hb <-].
    unfold base_ok. rewrite Hb. cbv zeta in H. destruct (List.filter _ base) as [|f fs]; simpl.
    + apply bind_Ok in H as (f1 & s1 & H1 & H). apply ret_Ok in H as [<- <-].
      apply visit_explores in H1 as [H1 H2]. split; [done|by eapply same_pushed].
    + apply bind_Ok in H as (u1 & s1 & H1 & H). apply ret_Ok in H as [<- <-].
      apply Hnone. by eapply forM_record_Ok with (fs := f :: fs).
  - apply ret_Ok in H as [<- <-]. by apply Hnone.
Qed.

Lemma search_profiles_pushed required target firstOnly ps s u s' :
  search_profiles input required target firstOnly ps s = (Ok u, s') ->
  pushed (kept firstOnly (List.flat_map (profile_plans required target) ps)) s s'.
Proof.
  revert s. induction ps as [|p ps IH]; intros s H; simpl in H.
  - apply ret_Ok in H as [_ <-]. simpl. destruct firstOnly; by apply pushed_nil.
  - apply bind_Ok in H as (stop & s1 & H1 & H). apply search_profile_explores in H1 as [H1 H2].
    simpl. destruct stop.
    + apply ret_Ok in H as [_ <-]. destruct firstOnly; [|done]. rewrite kept_app_stop; done.
    + apply IH in H. destruct firstOnly; simpl in *.
      * destruct (profile_plans required target p); [|done]. simpl in *.
        by eapply (pushed_app [] _ s s1 s').
      * by eapply pushed_app.
Qed.

(** ** [search] *)
Lemma search_refines needs firstOnly s ps n s' :
  search input needs firstOnly s = (Ok (ps, n), s') ->
  let L := kept firstOnly (all_plans (required_caps needs) (target_of input needs)) in
  ps = push_all L [] /\ n = length L.
Proof.
  unfold search. intros H. apply bind_Ok in H as (u & s1 & H1 & H).
  apply bind_Ok in H as (u2 & s2 & H2 & H). apply search_profiles_pushed in H2 as [Hp Hc].
  unfold fresh_search, search_result in *. injection H1 as _ <-. injection H as <- <- _.
  split; [exact Hp|exact Hc].
Qed.
End Reference.
