(* ===== verification/SolverSafety.v ===== *)
(** * Effects of a solve that do not depend on the catalogue

    Every exit, normal or exceptional, respects the step budget, and on an
    input the schema accepts no asserted lookup is ever undefined. *)
From S2P Require Import Prelude JsString Regex JsNumber JsNumberFacts Part Semver Assembly MatcherTypes Constraints.
From S2P Require Import Solver WireFacts.
#[local] Open Scope string_scope.
#[local] Open Scope list_scope.
#[local] Open Scope nat_scope.
(** ** The step budget *)
Section Budget.
Context (input : SolveInput).
#[local] Abbreviation N := (max_steps input).

(** From within the budget, [m] ends within it, and a search limit is only
    raised when the budget is spent. *)
Definition within {A} (m : M A) : Prop :=
  forall s, steps s <= N ->
    steps (m s).2 <= N /\ ((m s).1 = Err SEARCH_LIMIT -> steps (m s).2 = N).

Lemma within_ret {A} (a : A) : within (ret a).
Proof. by intros s Hs. Qed.

Lemma within_bind {A B} (m : M A) (k : A -> M B) :
  within m -> (forall a, within (k a)) -> within (bind m k).
Proof.
  intros Hm Hk s Hs. unfold bind. destruct (Hm s Hs) as [H1 H2].
  destruct (m s) as [[a|e] s1]; simpl in *; [by apply Hk|]. split; [done|].
  intros [= ->]. by apply H2.
Qed.

Lemma within_step : within (step input).
Proof. intros s Hs. unfold step. destruct (Nat.leb_spec N (steps s)); simpl; split; try done; lia. Qed.

Lemma within_record f : within (record f).
Proof. intros s Hs. unfold record. simpl. case_match; by split. Qed.

Lemma within_nonnull {A} (o : option A) : within (nonnull o).
Proof. intros s Hs. by destruct o. Qed.

Lemma within_forM {A} (l : list A) f : (forall x, within (f x)) -> within (forM l f).
Proof.
  intros Hf. induction l as [|x l IH]; simpl; [apply within_ret|by apply within_bind].
Qed.

Lemma within_pure {A} (m : M A) :
  (forall s, exists a d p c, m s = (Ok a, mkSt (steps s) d p c)) -> within m.
Proof. intros H s Hs. destruct (H s) as (a & d & p & c & ->). by split. Qed.

Lemma within_add_plan p : within (add_plan input p).
Proof. apply within_pure. intros s. unfold add_plan. eauto. Qed.
End Budget.

Create HintDb budget discriminated.
#[export] Hint Resolve within_ret within_bind within_step within_record within_nonnull within_forM
  within_add_plan : budget.
Ltac budget := repeat (case_match || intros || eauto with budget nocore || apply within_bind).

Section BudgetOps.
Context (input : SolveInput).

Lemma within_wire_visit brain source peripherals profile target env todo wired ws :
  within input (wire_visit brain source peripherals profile input target env todo wired ws).
Proof.
  revert wired ws. induction todo as [|part todo IH]; intros wired ws; simpl.
  - budget.
  - apply within_bind; [apply within_step|intros _].
    revert ws. induction (sorted_ports profile) as [|port ports IHp]; intros ws; [apply within_ret|].
    apply within_bind; [apply within_nonnull|intros ok].
    apply within_bind; [destruct ok; [apply IH|apply within_ret]|apply IHp].
Qed.

Lemma within_wire brain source peripherals profile target :
  within input (wire brain source peripherals profile input target).
Proof.
  unfold wire. apply within_bind; [apply within_nonnull|intros [env|f]; [|apply within_ret]].
  apply within_bind; [apply within_wire_visit|intros; apply within_ret].
Qed.

Lemma within_visit required target firstOnly profile brain source cands selected :
  within input (visit input required target firstOnly profile brain source cands selected).
Proof.
  pose proof within_wire as Hw. revert selected.
  induction cands as [|c cands IH]; intros selected; simpl.
  - apply within_bind; [apply within_step|intros _]. case_match; [apply within_ret|].
    unfold complete. budget.
  - budget.
Qed.

Lemma within_search needs firstOnly : within input (search input needs firstOnly).
Proof.
  pose proof within_visit as Hv. unfold search.
  apply within_bind; [apply within_pure; unfold fresh_search; eauto|intros _].
  apply within_bind; [|intros _; apply within_pure; intros s; unfold search_result; destruct s; eauto].
  induction (profiles input) as [|p ps IH]; simpl; [apply within_ret|].
  apply within_bind; [|intros [|]; [apply within_ret|done]].
  unfold search_profile. budget.
Qed.

Lemma within_solve_body : within input (solve_body input).
Proof.
  pose proof within_search as Hs. unfold solve_body.
  apply within_bind; [done|intros r]. case_match.
  - apply within_pure. intros s. destruct s. eauto.
  - apply within_bind; [apply within_forM; intros; apply within_record|intros _].
    apply within_bind; [apply within_pure; intros s; unfold no_diagnostics; destruct s; eauto|intros none].
    apply within_bind; [case_match; [apply within_record|apply within_ret]|intros _].
    apply within_bind; [|intros c; apply within_pure; intros s; destruct s; eauto].
    generalize (requirements input) at 2. generalize (requirements input).
    intros todo. induction todo as [|r' todo IH]; intros c; simpl; [apply within_ret|].
    apply within_bind; [done|intros x; apply IH].
Qed.
End BudgetOps.

Definition result_steps (r : SolveResult) : nat :=
  match r with Solved _ _ k | Infeasible _ _ _ k | SearchLimited k => k | InvalidInput _ => 0 end.

(** C13: The search is bounded. Whatever the input, the steps a solve reports are
    at most [max_steps], and it reports [search_limit] only when it has used
    exactly that many. *)
Theorem solve_steps_bounded input r :
  solve_parsed input = Ok r ->
  result_steps r <= max_steps input /\ (forall k, r = SearchLimited k -> k = max_steps input).
Proof.
  unfold solve_parsed. case_match; [intros [= <-]; split; [simpl; lia|done]|].
  pose proof (within_solve_body input start) as H0. simpl in H0. specialize (H0 ltac:(lia)).
  destruct (solve_body input start) as [[r'|[|]] s'] eqn:E; intros [= <-]; simpl in *.
  - split; [|].
    + assert (Hr : result_steps r' = steps s' \/ result_steps r' = 0); [|lia].
      revert E. unfold solve_body. generalize start. intros s0 E.
      apply bind_Ok in E as ([ps n] & s1 & ? & E). simpl in E. case_match.
      * injection E as <- <-. by left.
      * apply bind_Ok in E as (? & s2 & ? & E). apply bind_Ok in E as (? & s3 & ? & E).
        apply bind_Ok in E as (? & s4 & ? & E). apply bind_Ok in E as (? & s5 & ? & E).
        injection E as <- <-. by left.
    + intros k ->. exfalso. revert E. unfold solve_body. generalize start. intros s0 E.
      apply bind_Ok in E as ([ps n] & s1 & ? & E). simpl in E. case_match; [done|].
      apply bind_Ok in E as (? & s2 & ? & E). apply bind_Ok in E as (? & s3 & ? & E).
      apply bind_Ok in E as (? & s4 & ? & E). apply bind_Ok in E as (? & s5 & ? & E). done.
  - destruct H0 as [Hle Heq]. split; [done|]. intros k [= <-]. by apply Heq.
Qed.

(** ** No lookup of the solver is undefined

    The solver reads through asserted lookups ([!] in the source): the host's IO
    voltage, the occupants of a port, the supplies of the power path, the host's
    connector. On an input the schema accepts each of them is defined, so the
    only exception a solve can raise is the search limit it catches itself. *)
(** ** The rule system *)
Definition safe {A} (m : M A) : Prop := forall s, (m s).1 <> Err TypeError.

Lemma safe_ret {A} (a : A) : safe (ret a).
Proof. by intros s. Qed.
Lemma safe_bind {A B} (m : M A) (k : A -> M B) : safe m -> (forall a, safe (k a)) -> safe (bind m k).
Proof.
  intros Hm Hk s. unfold bind. specialize (Hm s). destruct (m s) as [[a|e] s1]; simpl in *; [apply Hk|].
  by intros [= ->].
Qed.
Lemma safe_step input : safe (step input).
Proof. intros s. unfold step. by case_match. Qed.
Lemma safe_record f : safe (record f).
Proof. by intros s. Qed.
Lemma safe_add_plan input p : safe (add_plan input p).
Proof. by intros s. Qed.
Lemma safe_forM {A} (l : list A) f : (forall x, safe (f x)) -> safe (forM l f).
Proof. intros Hf. induction l; simpl; [apply safe_ret|by apply safe_bind]. Qed.
Lemma safe_some {A B} (o : option A) (k : A -> M B) :
  is_Some o -> (forall a, o = Some a -> safe (k a)) -> safe (bind (nonnull o) k).
Proof. intros [a ->] Hk. exact (Hk a eq_refl). Qed.
Lemma safe_total {A} (m : M A) : (forall s, exists a s', m s = (Ok a, s')) -> safe m.
Proof. intros H s. by destruct (H s) as (a & s' & ->). Qed.

Create HintDb safety discriminated.
#[export] Hint Resolve safe_ret safe_step safe_record safe_add_plan safe_forM : safety.

(** ** Constraints *)
Lemma pinKey_pin p : pinKey (pin p) = partKey p.
Proof. done. Qed.

Section Checks.
Context (input : SolveInput) (brain : PartDefinition).
Hypothesis Hio : is_Some (logic_v (electrical brain)).

Lemma check_logic_some part : is_Some (check_logic brain part).
Proof using Hio. destruct Hio as [io E]. unfold check_logic. rewrite E. repeat case_match; eauto. Qed.

Lemma check_from_some all addresses l : is_Some (check_from all brain input addresses l).
Proof using Hio.
  revert addresses. induction l as [|p l IH]; intros addresses; simpl; [eauto|].
  unfold check_part. destruct (check_logic_some p) as [io ->]. simpl.
  destruct (IH (seen_address addresses p)) as [fs ->]. simpl. eauto.
Qed.

Lemma checkParts_some l : is_Some (checkParts l brain input).
Proof using Hio. apply check_from_some. Qed.
End Checks.

(** A selection that passes has the connector of each of its parts. *)
Lemma check_from_connector input brain all addresses l p :
  check_from all brain input addresses l = Some [] -> p ∈ l -> check_connector input p = [].
Proof.
  revert addresses. induction l as [|q l IH]; intros addresses; simpl; [by intros _ ?%elem_of_nil|].
  intros H. apply bind_Some in H as (f & Hf & H). apply bind_Some in H as (fs & Hfs & H).
  simplify_eq. apply app_eq_nil in H as [-> ->]. intros [->|Hp]%elem_of_cons; [|by eapply IH].
  unfold check_part in Hf. apply bind_Some in Hf as (io & _ & Hf). simplify_eq.
  repeat match goal with H : _ ++ _ = [] |- _ => apply app_eq_nil in H as [? ?] end. done.
Qed.

Lemma check_connector_nil input part :
  check_connector input part = [] -> is_Some (find_connector input (connector (electrical part))).
Proof. unfold check_connector, when. destruct (find_connector _ _); [eauto|done]. Qed.

(** ** Wiring *)
Section Wiring.
Context (brain source : PartDefinition) (peripherals : list PartDefinition)
        (profile : AssemblyProfile) (input : SolveInput) (targetDays : option num) (env : WireEnv).
Hypothesis Hinput : is_Some (brain_input_range brain profile).
Hypothesis Hsource : is_Some (supply (electrical source)).
Hypothesis Hrail : is_Some (supply (electrical brain)).

(** Every edge wires a peripheral; every peripheral is wired or to come. *)
Definition edges_known (wired : list WiringEdge) : Prop :=
  forall e, e ∈ wired -> exists p, p ∈ peripherals /\ partKey p = pinKey (edge_part e).
Definition all_wired (todo : list PartDefinition) (wired : list WiringEdge) : Prop :=
  forall p, p ∈ peripherals -> p ∈ todo \/ exists e, e ∈ wired /\ pinKey (edge_part e) = partKey p.

Lemma occupied_current_some l sum : edges_known l -> is_Some (occupied_current peripherals sum l).
Proof.
  revert sum. induction l as [|e l IH]; intros sum He; simpl; [eauto|].
  destruct (He e ltac:(left)) as (p & Hp & Hk).
  destruct (List.find _ peripherals) as [q|] eqn:E; simpl.
  - apply IH. intros e' ?. apply He. by right.
  - rewrite find_None_forall in E. specialize (E p Hp). rewrite Hk, String.eqb_refl in E. done.
Qed.

Lemma port_fits_some wired part port :
  edges_known wired -> is_Some (port_fits brain source peripherals input env wired part port).
Proof.
  intros He. unfold port_fits.
  assert (is_Some (occupied_current peripherals (draw_active part) (occupants wired port))) as [t ->].
  { apply occupied_current_some. intros e He'. apply He. unfold occupants in He'.
    rewrite list_elem_of_In, List.filter_In, <- list_elem_of_In in He'. tauto. }
  repeat case_match; simpl; eauto.
Qed.

Lemma add_loads_some spec wired l ps :
  (forall p, p ∈ ps -> exists e, e ∈ wired /\ pinKey (edge_part e) = partKey p) ->
  is_Some (add_loads spec profile wired l ps).
Proof.
  revert l. induction ps as [|p ps IH]; intros l H; simpl; [eauto|].
  unfold add_load. destruct (H p ltac:(left)) as (e & He & Hk).
  destruct (List.find _ wired) as [e'|] eqn:E; simpl.
  - apply IH. intros q ?. apply H. by right.
  - rewrite find_None_forall in E. specialize (E e He). rewrite Hk, String.eqb_refl in E. done.
Qed.

Lemma powerBudget_some spec wired :
  all_wired [] wired -> is_Some (powerBudget brain source peripherals wired profile spec).
Proof using Hinput Hrail Hsource.
  intros H. destruct Hinput as [r E1], Hsource as [o E2], Hrail as [b E3].
  unfold powerBudget. rewrite E1, E2, E3. simpl.
  match goal with |- context [add_loads _ _ _ ?l _] =>
    destruct (add_loads_some spec wired l peripherals) as [l' ->] end; [|simpl; eauto].
  intros p Hp. destruct (H p Hp) as [Hn|?]; [by apply elem_of_nil in Hn|done].
Qed.

Lemma wire_visit_safe todo wired ws :
  (forall p, p ∈ todo -> p ∈ peripherals) -> edges_known wired -> all_wired todo wired ->
  safe (wire_visit brain source peripherals profile input targetDays env todo wired ws).
Proof using Hinput Hrail Hsource.
  revert wired ws. induction todo as [|part todo IH]; intros wired ws Hsub He Ha; simpl;
    (apply safe_bind; [apply safe_step|intros _]).
  - unfold leaf. destruct (powerBudget_some (in_spec input) wired Ha) as [b ->]. apply safe_ret.
  - revert ws. induction (sorted_ports profile) as [|port ports IHp]; intros ws; [apply safe_ret|].
    apply safe_some; [by apply port_fits_some|intros ok _].
    apply safe_bind; [destruct ok; [|apply safe_ret]|apply IHp].
    apply IH.
    + intros p ?. apply Hsub. by right.
    + intros e [?|He2]%elem_of_app; [by apply He|apply list_elem_of_singleton in He2 as ->].
      exists part. split; [apply Hsub; left|done].
    + intros p Hp. destruct (Ha p Hp) as [[-> | ?]%elem_of_cons|(e & ? & ?)]; [|by left|].
      * right. exists (edge_for part port). rewrite elem_of_app. split; [right; left|done].
      * right. exists e. rewrite elem_of_app. auto.
Qed.
End Wiring.

Lemma wire_safe brain source peripherals profile input targetDays :
  is_Some (find_connector input (connector (electrical brain))) ->
  safe (wire brain source peripherals profile input targetDays).
Proof.
  intros Hc. unfold wire. apply safe_some.
  - unfold wire_guards. destruct Hc as [c Hc]. rewrite Hc. repeat case_match; simpl; eauto.
  - intros [env|f] Hg; [|apply safe_ret]. apply safe_bind; [|auto with safety].
    unfold wire_guards in Hg. repeat case_match; simplify_eq;
      (apply wire_visit_safe; [eauto..|done|by intros e ?%elem_of_nil|by left]).
Qed.

(** ** The search *)
Section SearchSafe.
Context (https_url : string -> bool) (input : SolveInput).
Hypothesis Hok : SolveInput_ok https_url input = true.

Lemma parts_sub p : p ∈ parts input -> p ∈ in_parts input /\ status p = active.
Proof.
  unfold parts. rewrite elem_of_sort_by, list_elem_of_In, List.filter_In, <- list_elem_of_In.
  intros [? ?]. by bools.
Qed.

Lemma input_part_ok p : p ∈ in_parts input -> PartDefinition_ok https_url p = true.
Proof using Hok.
  intros Hp. unfold SolveInput_ok in Hok. bools.
  match goal with H : forallb (PartDefinition_ok _) _ = true |- _ => rewrite forallb_elem in H; by apply H end.
Qed.

Lemma host_io p : PartDefinition_ok https_url p = true -> interface (electrical p) = host ->
  is_Some (logic_v (electrical p)).
Proof.
  unfold PartDefinition_ok. intros H Hh. bools. destruct (superRefine p) eqn:E; [|done].
  unfold superRefine, refine_always in E.
  repeat match goal with H : _ ++ _ = [] |- _ => apply app_eq_nil in H as [? ?] end.
  destruct (logic_v (electrical p)) eqn:El; [eauto|]. rewrite Hh in *. done.
Qed.

Lemma endpoints_brain profile brain source :
  endpoints input profile = Some (brain, source) -> is_Some (logic_v (electrical brain)).
Proof using Hok.
  unfold endpoints. destruct (find_brain input profile) as [b|] eqn:E; [|done].
  intros H. repeat case_match; simplify_eq. apply find_Some_elem in E as [Hb E]. bools.
  apply host_io; [|done]. apply input_part_ok. by apply parts_sub.
Qed.

Lemma complete_safe target profile brain source selected :
  is_Some (logic_v (electrical brain)) -> brain ∈ selected ->
  safe (complete input target profile brain source selected).
Proof.
  intros Hio Hb. unfold complete. apply safe_some; [by apply checkParts_some|].
  intros [|f fs] Hf; [|apply safe_bind; auto with safety].
  apply safe_bind.
  - apply wire_safe, check_connector_nil. by eapply check_from_connector.
  - intros [e b|f]; [|apply safe_bind; auto with safety].
    simpl. case_match; apply safe_bind; auto with safety.
Qed.

Lemma visit_safe required target firstOnly profile brain source cands selected :
  is_Some (logic_v (electrical brain)) -> brain ∈ selected ->
  safe (visit input required target firstOnly profile brain source cands selected).
Proof.
  intros Hio. revert selected. induction cands as [|c cands IH]; intros selected Hb; simpl;
    (apply safe_bind; [apply safe_step|intros _; case_match; [apply safe_ret|]]).
  - by apply complete_safe.
  - apply safe_bind; [by apply IH|intros f]. repeat case_match; [apply safe_ret| |apply safe_ret].
    apply safe_bind; [apply IH; apply elem_of_app; by left|auto with safety].
Qed.

Lemma search_safe needs firstOnly : safe (search input needs firstOnly).
Proof using Hok.
  unfold search. apply safe_bind; [by intros s|intros _]. apply safe_bind; [|by intros _ s].
  induction (profiles input) as [|p ps IH]; simpl; [apply safe_ret|].
  apply safe_bind; [|intros [|]; [apply safe_ret|done]].
  unfold search_profile. apply safe_bind; [apply safe_step|intros _].
  destruct (endpoints input p) as [[brain source]|] eqn:E; [|apply safe_ret].
  apply endpoints_brain in E. apply safe_some; [by apply checkParts_some|intros base _].
  simpl. case_match; [|apply safe_bind; auto with safety].
  apply safe_bind; [|auto with safety]. apply visit_safe; [done|left].
Qed.

Lemma solve_body_safe : safe (solve_body input).
Proof using Hok.
  unfold solve_body. apply safe_bind; [apply search_safe|intros r].
  case_match; [by intros s|]. apply safe_bind; [auto with safety|intros _].
  apply safe_bind; [by intros s|intros none].
  apply safe_bind; [case_match; auto with safety|intros _].
  apply safe_bind; [|by intros c s].
  generalize (requirements input) at 2. induction (requirements input) as [|r' todo IH]; intros c;
    simpl; [apply safe_ret|]. apply safe_bind; [apply search_safe|intros x; apply IH].
Qed.
End SearchSafe.

(** [solve] returned [r], rather than throwing. *)
Definition answers (input : SolveInput) (r : SolveResult) : Prop := solve_parsed input = Ok r.

(** C12: On an input the schema accepts, [solve] never throws: every lookup the
    code asserts with [!] is defined, and it always returns one of its four
    results. *)
Theorem solve_never_throws https_url input :
  SolveInput_ok https_url input = true -> exists r, answers input r.
Proof.
  intros Hok. unfold answers, solve_parsed. case_match; [eauto|].
  pose proof (solve_body_safe https_url input Hok start) as H0.
  destruct (solve_body input start) as [[r|[|]] s]; simpl in *; [eauto..|done].
Qed.
