(* ===== verification/PartsSpec.v ===== *)
(** * What a selection that passes [checkParts] satisfies

    The declarative reading of the checks, as a record of properties of the
    selection, and the equivalence with the code: [checkParts] reports nothing
    exactly when all of them hold. *)
From S2P Require Import Prelude JsString Regex JsNumber Part Assembly Semver MatcherTypes Constraints.
#[local] Open Scope string_scope.
#[local] Open Scope list_scope.
#[local] Open Scope nat_scope.

Definition part_address (p : PartDefinition) : option string := truthy_text (i2c_address (electrical p)).

Definition on_host (need : string) : bool := startsWith "bus." need || startsWith "gpio." need.

(** The promises about one part among [all]. *)
Record part_fits (all : list PartDefinition) (brain : PartDefinition) (input : SolveInput)
    (p : PartDefinition) : Prop := {
  pf_needs : forall need, need ∈ requires (electrical p) ->
    (exists q, q ∈ all /\ need ∈ capabilities (software q)) /\
    (on_host need = true -> need ∈ capabilities (software brain));
  pf_conflicts : forall c q, c ∈ conflicts (electrical p) -> q ∈ all -> part_id q <> c;
  pf_runtime : satisfiesRuntime (spec_runtime (in_spec input)) (min_runtime (software p)) = true;
  pf_driver : forall d, driver_pkg (software p) = Some d ->
    exists row, row ∈ in_compat input /\ ce_status row = passed /\ ce_driver_pkg row = d /\
      driver_version (software p) = Some (ce_driver_ver row) /\
      ce_runtime_ver row = spec_runtime (in_spec input) /\ ce_brain_id row = part_id brain;
  pf_logic : signal_part p = true ->
    exists v io, logic_v (electrical p) = Some v /\ logic_v (electrical brain) = Some io /\
      nle v.1 io.1 = true /\ nle io.2 v.2 = true;
  pf_connector : exists c, find_connector input (connector (electrical p)) = Some c /\
    interface (electrical p) ∈ con_interfaces c
}.

Lemma opt_eqb_true o s : opt_eqb o s = true <-> o = Some s.
Proof. destruct o; simpl; [rewrite String.eqb_eq|]; naive_solver. Qed.

Section Checks.
Context (all : list PartDefinition) (brain : PartDefinition) (input : SolveInput).

Lemma check_requires_nil p :
  check_requires all brain p = [] <->
  forall need, need ∈ requires (electrical p) ->
    (exists q, q ∈ all /\ need ∈ capabilities (software q)) /\
    (on_host need = true -> need ∈ capabilities (software brain)).
Proof.
  unfold check_requires. rewrite flat_map_nil. apply forall_proper. intros need.
  rewrite app_nil, !when_nil, negb_false_iff, inb_true, elem_of_flat_map. fold (on_host need).
  unfold has_cap. destruct (on_host need); simpl; [rewrite negb_false_iff, inb_true|]; naive_solver.
Qed.

Lemma check_conflicts_nil p :
  check_conflicts all p = [] <->
  forall c q, c ∈ conflicts (electrical p) -> q ∈ all -> part_id q <> c.
Proof.
  unfold check_conflicts. rewrite flat_map_nil. setoid_rewrite when_nil.
  setoid_rewrite existsb_elem_false. setoid_rewrite String.eqb_neq. naive_solver.
Qed.

Lemma check_compat_nil p :
  check_compat input brain p = [] <->
  forall d, driver_pkg (software p) = Some d ->
  exists row, row ∈ in_compat input /\ ce_status row = passed /\ ce_driver_pkg row = d /\
    driver_version (software p) = Some (ce_driver_ver row) /\
    ce_runtime_ver row = spec_runtime (in_spec input) /\ ce_brain_id row = part_id brain.
Proof.
  unfold check_compat. destruct (driver_pkg (software p)) as [d|]; [|naive_solver].
  rewrite when_nil, negb_false_iff. unfold compiles. rewrite existsb_elem.
  setoid_rewrite andb_true_iff. setoid_rewrite andb_true_iff. setoid_rewrite andb_true_iff.
  setoid_rewrite andb_true_iff. setoid_rewrite String.eqb_eq. setoid_rewrite opt_eqb_true.
  setoid_rewrite bool_decide_eq_true. naive_solver.
Qed.

Lemma check_logic_nil p :
  check_logic brain p = Some [] <->
  (signal_part p = true ->
   exists v io, logic_v (electrical p) = Some v /\ logic_v (electrical brain) = Some io /\
     nle v.1 io.1 = true /\ nle io.2 v.2 = true).
Proof.
  unfold check_logic, containsVoltage. destruct (signal_part p); [|naive_solver].
  destruct (logic_v (electrical p)) as [v|]; [|naive_solver].
  destruct (logic_v (electrical brain)) as [io|]; [|naive_solver].
  destruct (nle v.1 io.1) eqn:E1, (nle io.2 v.2) eqn:E2; simpl; split;
    solve [by intros; repeat eexists | done | by intros H; destruct (H eq_refl) as (? & ? & [= <-] & [= <-] & ? & ?); congruence].
Qed.

Lemma check_connector_fits p :
  check_connector input p = [] <->
  exists c, find_connector input (connector (electrical p)) = Some c /\
    interface (electrical p) ∈ con_interfaces c.
Proof.
  unfold check_connector, carries. rewrite when_nil.
  destruct (find_connector _ _) as [c|]; [|naive_solver].
  rewrite negb_false_iff, inb_true. naive_solver.
Qed.

Lemma check_part_nil addresses p :
  check_part all brain input addresses p = Some [] <->
  part_fits all brain input p /\ (forall a, part_address p = Some a -> a ∉ addresses).
Proof.
  unfold check_part, part_address.
  assert (Ha : match truthy_text (i2c_address (electrical p)) with
               | Some a => when (inb a addresses) (mkFailure i2c_ ("I2C address " ++ a ++ " is used twice")%string)
               | None => []
               end = [] <-> (forall a, truthy_text (i2c_address (electrical p)) = Some a -> a ∉ addresses)).
  { destruct (truthy_text _) as [a|]; [|naive_solver]. rewrite when_nil, inb_false. naive_solver. }
  split.
  - intros H. apply bind_Some in H as (io & Hio & H). injection H as H.
    rewrite !app_nil in H. destruct H as (H1 & H2 & H3 & H4 & H5 & H6 & H7). rewrite H6 in Hio.
    split; [split|by apply Ha].
    + by apply check_requires_nil.
    + by apply check_conflicts_nil.
    + unfold check_runtime in H4. rewrite when_nil in H4. by bools.
    + by apply check_compat_nil.
    + by apply check_logic_nil.
    + by apply check_connector_fits.
  - intros [[H1 H2 H3 H4 H5 H6] H7]. apply check_logic_nil in H5. rewrite H5. csimpl.
    apply check_requires_nil in H1. apply check_conflicts_nil in H2. apply check_compat_nil in H4.
    apply check_connector_fits in H6. apply Ha in H7. unfold check_runtime.
    rewrite H1, H2, H3, H4, H6, H7. done.
Qed.

(** The addresses of a selection are distinct, and not among those given. *)
Definition fresh_addresses (addresses : list string) (l : list PartDefinition) : Prop :=
  NoDup (omap part_address l) /\ forall a, a ∈ omap part_address l -> a ∉ addresses.

Lemma seen_address_cons addresses p l :
  fresh_addresses addresses (p :: l) <->
  (forall a, part_address p = Some a -> a ∉ addresses) /\ fresh_addresses (seen_address addresses p) l.
Proof.
  unfold fresh_addresses, seen_address. csimpl. fold (part_address p).
  destruct (part_address p) as [a|]; [|naive_solver]. rewrite NoDup_cons. setoid_rewrite elem_of_cons. split.
  - intros [[Hn Hd] H]. split_and!; [naive_solver|done|]. intros b Hb [->|?]; [done|]. naive_solver.
  - intros (H1 & H2 & H3). split_and!; [|done|].
    + intros Hb. apply (H3 a Hb). by left.
    + intros b [->|Hb]; [naive_solver|]. intros ?. apply (H3 b Hb). by right.
Qed.

Lemma check_from_nil addresses l :
  check_from all brain input addresses l = Some [] <->
  (forall p, p ∈ l -> part_fits all brain input p) /\ fresh_addresses addresses l.
Proof.
  revert addresses. induction l as [|p l IH]; intros addresses; csimpl.
  - split; [intros _|done]. split; [by intros p ?%elem_of_nil|].
    split; [constructor|by intros a ?%elem_of_nil].
  - rewrite seen_address_cons. setoid_rewrite elem_of_cons. split.
    + intros H. apply bind_Some in H as (f & Hf & H). apply bind_Some in H as (fs & Hfs & H).
      injection H as [-> ->]%app_nil. apply check_part_nil in Hf. apply IH in Hfs. naive_solver.
    + intros (H1 & H2 & H3).
      assert (Hp : check_part all brain input addresses p = Some []) by (apply check_part_nil; naive_solver).
      assert (Hl : check_from all brain input (seen_address addresses p) l = Some []) by (apply IH; naive_solver).
      by rewrite Hp, Hl.
Qed.
End Checks.

(** [checkParts] accepts a selection exactly when every declared need is
    provided in it (bus and pin needs by the host itself), no part conflicts
    with another, no I2C address is used twice, every part accepts the runtime,
    every driver has a passed compile for this host and runtime, the host drives
    a logic level each signal part tolerates, and each part's connector exists
    and carries its interface. *)
Theorem checkParts_accepts l brain input :
  checkParts l brain input = Some [] <->
  (forall p, p ∈ l -> part_fits l brain input p) /\ NoDup (omap part_address l).
Proof.
  unfold checkParts. rewrite check_from_nil. unfold fresh_addresses.
  assert (forall a : string, a ∉ []) by (intros a ?%elem_of_nil; done). naive_solver.
Qed.
