(* ===== verification/WiringSpec.v ===== *)
(** * What a wiring is

    A declarative specification of a wiring of the peripherals onto the ports of
    a profile, and the proof that the backtracking search of [wire] visits
    exactly the wirings that satisfy it. *)
From S2P Require Import Prelude JsString Regex JsNumber JsNumberFacts Part Assembly Semver.
From S2P Require Import MatcherTypes Constraints WireFacts.
#[local] Open Scope list_scope.
#[local] Open Scope nat_scope.

Section Spec.
Context (brain source : PartDefinition) (peripherals : list PartDefinition)
        (profile : AssemblyProfile) (input : SolveInput) (env : WireEnv).

(** [p] may sit on [port]. *)
Record port_suits (p : PartDefinition) (port : Port) : Prop := {
  su_interface : port_interface port = interface (electrical p);
  su_connector : port_connector port = connector (electrical p);
  su_rated : exists c, find_connector input (port_connector port) = Some c /\
    port_interface port ∈ con_interfaces c /\ nlt (con_max_voltage c) (rail_window env port).2 = false;
  su_voltage : containsVoltage (voltage_range (electrical p)) (rail_window env port) = true;
  su_power : forall c, c ∈ requires (electrical p) -> startsWith "power." c = true ->
    c ∈ capabilities (software (provider brain source port))
}.

(** [e] wires [p] to a port that suits it, and the port's current limit covers
    the parts on it ([pre] are the edges placed before). *)
Definition edge_ok (pre : list WiringEdge) (p : PartDefinition) (e : WiringEdge) : Prop :=
  exists port total, port ∈ prof_ports profile /\ e = edge_for p port /\ port_suits p port /\
    occupied_current peripherals (draw_active p) (occupants pre port) = Some total /\
    nlt (port_max_current_ma port) total = false.

Record wiring_of (ps : list PartDefinition) (E : list WiringEdge) : Prop := {
  wo_length : length E = length ps;
  wo_edges : forall k p e, ps !! k = Some p -> E !! k = Some e -> edge_ok (take k E) p e;
  wo_capacity : forall port, port ∈ prof_ports profile -> length (occupants E port) <= port_capacity port;
  wo_resources : forall e1 e2 r, e1 ∈ E -> e2 ∈ E -> r ∈ edge_resources e1 -> r ∈ edge_resources e2 ->
    edge_port e1 = edge_port e2
}.

(** Port ids are unique in a profile the schema accepts. *)
Hypothesis Hports : NoDup (port_id <$> prof_ports profile).

Lemma port_unique a b : a ∈ prof_ports profile -> b ∈ prof_ports profile -> port_id a = port_id b -> a = b.
Proof using Hports.
  intros Ha Hb E. apply list_elem_of_lookup in Ha as [i Hi]. apply list_elem_of_lookup in Hb as [j Hj].
  assert (i = j) as ->; [|congruence].
  eapply NoDup_lookup; [exact Hports|rewrite list_lookup_fmap, Hi; simpl; reflexivity|].
  by rewrite list_lookup_fmap, Hj, E.
Qed.

Lemma elem_of_occupants e E port : e ∈ occupants E port <-> e ∈ E /\ edge_port e = port_id port.
Proof.
  unfold occupants. rewrite list_elem_of_In, List.filter_In, <- list_elem_of_In, String.eqb_eq. done.
Qed.

Lemma occupants_snoc E e port :
  occupants (E ++ [e]) port = occupants E port ++ if edge_port e ==s port_id port then [e] else [].
Proof. unfold occupants. by rewrite List.filter_app. Qed.

Lemma port_fits_true pre p port :
  port_fits brain source peripherals input env pre p port = Some true <->
  port_suits p port /\ length (occupants pre port) < port_capacity port /\
  (forall e r, e ∈ pre -> edge_port e <> port_id port -> r ∈ edge_resources e -> r ∉ port_resources port) /\
  (exists total, occupied_current peripherals (draw_active p) (occupants pre port) = Some total /\
     nlt (port_max_current_ma port) total = false).
Proof.
  unfold port_fits.
  set (x1 := negb (bool_decide _) || _). set (x2 := _ || negb (containsVoltage _ _)).
  set (x3 := existsb _ _). set (x4 := (_ <=? _)). set (x5 := existsb _ pre).
  assert (S : port_suits p port <-> x1 = false /\ x2 = false /\ x3 = false).
  { unfold x1, x2, x3, has_cap, carries. rewrite existsb_elem_false. split.
    - intros [H1 H2 (c & -> & H3 & H3') H4 H5]. rewrite H4, H3', H1, H2, String.eqb_refl.
      rewrite bool_decide_true by done. rewrite H1 in H3. split_and!; [done| |].
      + apply (inb_true (interface (electrical p))) in H3. by rewrite H3.
      + intros c' Hc. destruct (startsWith "power." c') eqn:E; [|done]. simpl.
        apply negb_false_iff, inb_true. by apply H5.
    - intros (H1 & H2 & H3). bools. destruct (find_connector _ _) as [c|] eqn:E; [|done]. bools.
      split; [done|by apply String.eqb_eq|exists c|done|].
      + split_and!; [done| |done]. by apply inb_true.
      + intros c' Hc Hs. specialize (H3 c' Hc). rewrite Hs in H3. simpl in H3.
        apply negb_false_iff, inb_true in H3. done. }
  assert (C : length (occupants pre port) < port_capacity port <-> x4 = false).
  { unfold x4. rewrite Nat.leb_gt. done. }
  assert (R : (forall e r, e ∈ pre -> edge_port e <> port_id port -> r ∈ edge_resources e ->
                r ∉ port_resources port) <-> x5 = false).
  { unfold x5. rewrite existsb_elem_false. split.
    - intros H e He. destruct (edge_port e ==s port_id port) eqn:Ee; [done|]. apply String.eqb_neq in Ee.
      simpl. apply existsb_elem_false. intros r Hr. apply inb_false. by eapply H.
    - intros H e r He Hne Hr. specialize (H e He). apply String.eqb_neq in Hne. rewrite Hne in H.
      simpl in H. rewrite existsb_elem_false in H. apply inb_false. auto. }
  rewrite S, C, R. clearbody x1 x2 x3 x4 x5. clear S C R.
  destruct x1, x2, x3, x4, x5; try (split; [done|by intros ((? & ? & ?) & ? & ? & ?)]).
  destruct (occupied_current _ _ _) as [t|]; simpl; [|split; [done|by intros (_ & _ & _ & ? & ? & _)]].
  split.
  - intros [= Ht%negb_true_iff]. split_and!; [done..|]. by exists t.
  - intros (_ & _ & _ & ? & [= <-] & ->). done.
Qed.

Lemma wiring_nil : wiring_of [] [].
Proof.
  split; simpl; [done|done|lia|]. by intros e1 e2 r ?%elem_of_nil.
Qed.

(** A wiring grows by one edge exactly when the port fits. *)
Lemma wiring_snoc ps E p e :
  length E = length ps ->
  wiring_of (ps ++ [p]) (E ++ [e]) <->
  wiring_of ps E /\ exists port, port ∈ prof_ports profile /\ e = edge_for p port /\
    port_fits brain source peripherals input env E p port = Some true.
Proof using Hports.
  intros Hl. split.
  - intros [W1 W2 W3 W4].
    assert (He : edge_ok E p e).
    { rewrite <- (take_app_length E [e]). apply (W2 (length E)).
      - by rewrite Hl, list_lookup_middle.
      - by rewrite list_lookup_middle. }
    split; [split|].
    + done.
    + intros k q d Hq Hd. specialize (W2 k q d).
      pose proof (lookup_lt_Some _ _ _ Hd). rewrite take_app_le in W2 by lia.
      apply W2; by apply lookup_app_l_Some.
    + intros port Hp. specialize (W3 port Hp). rewrite occupants_snoc, length_app in W3. lia.
    + intros e1 e2 r ? ?. apply W4; apply elem_of_app; by left.
    + destruct He as (port & total & Hp & -> & Hs & Ht & Hm). exists port. split_and!; [done..|].
      apply port_fits_true. split_and!; [done| | |by exists total].
      * specialize (W3 port Hp). rewrite occupants_snoc, length_app in W3. simpl in W3.
        rewrite String.eqb_refl in W3. simpl in W3. lia.
      * intros d r Hd Hne Hr Hport. apply Hne.
        apply (W4 d (edge_for p port) r); [apply elem_of_app; by left|apply elem_of_app; right; left|done|].
        simpl. by apply elem_of_sort_text.
  - intros [[W1 W2 W3 W4] (port & Hp & -> & Hf)]. apply port_fits_true in Hf as (Hs & Hc & Hr & total & Ht & Hm).
    split.
    + rewrite !length_app. simpl. lia.
    + intros k q d Hq Hd. pose proof (lookup_lt_Some _ _ _ Hd) as Hk. rewrite length_app in Hk. simpl in Hk.
      destruct (decide (k = length E)) as [->|Hne].
      * rewrite list_lookup_middle in Hd by done. rewrite Hl, list_lookup_middle in Hq by done. simplify_eq.
        rewrite take_app_length. by exists port, total.
      * rewrite lookup_app_l in Hd by lia. rewrite lookup_app_l in Hq by lia.
        rewrite take_app_le by lia. by apply W2.
    + intros port' Hp'. specialize (W3 port' Hp'). rewrite occupants_snoc, length_app. simpl.
      destruct (port_id port ==s port_id port') eqn:E'; simpl; [|lia].
      apply String.eqb_eq, port_unique in E' as ->; [lia|done..].
    + assert (Hx : forall d r, d ∈ E -> r ∈ edge_resources d -> r ∈ edge_resources (edge_for p port) ->
                   edge_port d = edge_port (edge_for p port)).
      { intros d r Hd Hrd Hrp. simpl in *. rewrite elem_of_sort_text in Hrp.
        destruct (decide (edge_port d = port_id port)) as [?|Hne]; [done|].
        by destruct (Hr d r Hd Hne Hrd). }
      intros e1 e2 r [H1|H1]%elem_of_app [H2|H2]%elem_of_app.
      * by apply W4.
      * apply list_elem_of_singleton in H2 as ->. by apply Hx.
      * apply list_elem_of_singleton in H1 as ->. intros. symmetry. by eapply Hx.
      * apply list_elem_of_singleton in H1 as ->. by apply list_elem_of_singleton in H2 as ->.
Qed.

Lemma wiring_prefix ps qs E F :
  length E = length ps -> wiring_of (ps ++ qs) (E ++ F) -> wiring_of ps E.
Proof using Hports.
  revert F. induction qs as [|q qs IH] using rev_ind; intros F Hl H.
  - destruct (wo_length _ _ H). rewrite !app_nil_r in *. destruct F as [|f F]; [by rewrite app_nil_r in H|].
    pose proof (wo_length _ _ H) as Hl'. rewrite length_app in Hl'. simpl in Hl'. lia.
  - destruct F as [|f F _] using rev_ind.
    + pose proof (wo_length _ _ H) as Hl'. rewrite !length_app in Hl'. simpl in Hl'. lia.
    + pose proof (wo_length _ _ H) as Hl'. rewrite !length_app in Hl'. simpl in Hl'.
      rewrite !app_assoc in H. apply wiring_snoc in H as [H _]; [by eapply IH|].
      rewrite !length_app. lia.
Qed.

(** The search visits exactly the wirings that extend what is placed. *)
Lemma assignments_spec ps todo wired E :
  wiring_of ps wired ->
  E ∈ assignments brain source peripherals profile input env todo wired <->
  wiring_of (ps ++ todo) E /\ exists F, E = wired ++ F.
Proof using Hports.
  revert ps wired. induction todo as [|p todo IH]; intros ps wired W; simpl.
  - rewrite list_elem_of_singleton, app_nil_r. split.
    + intros ->. split; [done|]. exists []. by rewrite app_nil_r.
    + intros [W' [F ->]]. pose proof (wo_length _ _ W). pose proof (wo_length _ _ W') as Hl.
      rewrite length_app in Hl. destruct F; [by rewrite app_nil_r|simpl in Hl; lia].
  - rewrite elem_of_flat_map. pose proof (wo_length _ _ W) as Hl. split.
    + intros (port & Hport & HE). unfold sorted_ports in Hport. rewrite elem_of_sort_by in Hport.
      destruct (port_fits _ _ _ _ _ wired p port) as [[|]|] eqn:Ef; [|by apply elem_of_nil in HE..].
      assert (W1 : wiring_of (ps ++ [p]) (wired ++ [edge_for p port])).
      { apply wiring_snoc; [done|]. eauto. }
      apply (IH _ _ W1) in HE as [HW [F ->]]. rewrite <- !app_assoc in *. simpl in *. eauto.
    + intros [HW [F ->]]. destruct F as [|e F].
      { pose proof (wo_length _ _ HW) as Hl'. rewrite !length_app in Hl'. simpl in Hl'. lia. }
      assert (W1 : wiring_of (ps ++ [p]) (wired ++ [e])).
      { apply (wiring_prefix _ todo _ F); [rewrite !length_app; simpl; lia|].
        rewrite <- !app_assoc. done. }
      pose proof W1 as W2. apply wiring_snoc in W2 as [_ (port & Hp & -> & Hf)]; [|done].
      exists port. split; [unfold sorted_ports; by rewrite elem_of_sort_by|]. rewrite Hf.
      apply (IH _ _ W1). rewrite <- !app_assoc. simpl. split; [done|]. exists F. by rewrite <- app_assoc.
Qed.
End Spec.

(** ** The best wiring, against the specification *)

(** A wiring of all the peripherals that the power path supports. *)
Record feasible_wiring (brain source : PartDefinition) (peripherals : list PartDefinition)
    (profile : AssemblyProfile) (input : SolveInput) (targetDays : option num)
    (E : list WiringEdge) (b : PowerBudget) : Prop := {
  fw_env : exists env, wire_guards brain source profile input = Some (Ok env) /\
    wiring_of brain source peripherals profile input env peripherals E /\
    nlt (max_output_ma (we_rail env)) (peak_brain_rail_ma b) = false /\
    nlt (max_output_ma (we_output env)) (peak_source_ma b) = false;
  fw_budget : powerBudget brain source peripherals E profile (in_spec input) = Some b;
  fw_finite : finite_budget b = true;
  fw_life : forall t, targetDays = Some t ->
    exists d, estimated_life_days b = Some d /\ nlt d t = false
}.

Lemma leaf_failure_none profile targetDays env b :
  leaf_failure profile targetDays env b = None <->
  finite_budget b = true /\ nlt (max_output_ma (we_rail env)) (peak_brain_rail_ma b) = false /\
  nlt (max_output_ma (we_output env)) (peak_source_ma b) = false /\
  (forall t, targetDays = Some t -> exists d, estimated_life_days b = Some d /\ nlt d t = false).
Proof.
  unfold leaf_failure. destruct (finite_budget b); simpl; [|by split; [|intros [? _]]].
  destruct (nlt (max_output_ma (we_rail env)) _); simpl; [by split; [|intros (_ & ? & _)]|].
  destruct (nlt (max_output_ma (we_output env)) _); simpl; [by split; [|intros (_ & _ & ? & _)]|].
  destruct targetDays as [t|]; [|by split].
  destruct (estimated_life_days b) as [d|].
  - destruct (nlt d t) eqn:E; split; intros H; try done.
    + destruct H as (_ & _ & _ & H). destruct (H t eq_refl) as (? & [= <-] & ?). congruence.
    + split_and!; [done..|]. intros ? [= <-]. by exists d.
  - split; [done|]. intros (_ & _ & _ & H). by destruct (H t eq_refl) as (? & ? & _).
Qed.

Lemma elem_of_wirings brain source peripherals profile input targetDays E b :
  NoDup (port_id <$> prof_ports profile) ->
  (E, b) ∈ wirings brain source peripherals profile input targetDays <->
  feasible_wiring brain source peripherals profile input targetDays E b.
Proof.
  intros Hports. unfold wirings. split.
  - destruct (wire_guards _ _ _ _) as [[env|f]|] eqn:G; [|by intros ?%elem_of_nil..].
    unfold feasible_wirings. rewrite list_elem_of_omap. intros (w & Hw & Hf).
    unfold feasible in Hf. apply bind_Some in Hf as (b' & Hb & Hf). destruct (leaf_failure _ _ _ _) eqn:L; [done|].
    simplify_eq. apply leaf_failure_none in L as (L1 & L2 & L3 & L4).
    apply (assignments_spec _ _ _ _ _ _ Hports [] _ [] _ (wiring_nil _ _ _ _ _ _)) in Hw as [Hw _].
    split; [exists env|..]; done.
  - intros [(env & G & W & L2 & L3) Hb L1 L4]. rewrite G. unfold feasible_wirings.
    rewrite list_elem_of_omap. exists E. split.
    + apply (assignments_spec _ _ _ _ _ _ Hports [] _ [] _ (wiring_nil _ _ _ _ _ _)).
      split; [done|]. by exists E.
    + unfold feasible. rewrite Hb. simpl.
      by rewrite (proj2 (leaf_failure_none profile targetDays env b) (conj L1 (conj L2 (conj L3 L4)))).
Qed.
