(* ===== verification/MatcherSpec.v ===== *)
(** * The contract of [solve]

    An [assembly] is a declarative description of what may be built: a profile,
    its host and source, a set of peripherals, a wiring. The theorems state that
    the plans of a solve are exactly the assemblies, ranked; that an infeasible
    answer means there is none; and that the conflict it reports is minimal. *)
From S2P Require Import Prelude JsString Regex JsNumber JsNumberFacts Part Assembly Semver.
From S2P Require Import MatcherTypes Constraints Solver PlanOrder WireFacts SearchFacts PartsSpec WiringSpec.
From S2P Require Import SolverSafety.
#[local] Open Scope string_scope.
#[local] Open Scope list_scope.
#[local] Open Scope nat_scope.

(** ** Selections of the candidates *)
Lemma existsb_id_false (l : list PartDefinition) c :
  existsb (fun p => part_id p ==s part_id c) l = false <-> part_id c ∉ part_id <$> l.
Proof.
  rewrite existsb_elem_false, list_elem_of_fmap. setoid_rewrite String.eqb_neq. naive_solver.
Qed.

Lemma selections_spec cands selected sel :
  NoDup (part_id <$> selected) ->
  sel ∈ selections cands selected <->
  exists l, sel = selected ++ l /\ l `sublist_of` cands /\ NoDup (part_id <$> sel).
Proof.
  revert selected. induction cands as [|c cands IH]; intros selected Hd; csimpl.
  - rewrite list_elem_of_singleton. split.
    + intros ->. exists []. by rewrite app_nil_r.
    + intros (l & -> & ->%sublist_nil_r & _). by rewrite app_nil_r.
  - rewrite elem_of_app, IH by done. split.
    + intros [(l & -> & Hl & Hn)|H].
      * exists l. split_and!; [done|by apply sublist_cons|done].
      * destruct (existsb _ selected) eqn:E; [by apply elem_of_nil in H|].
        apply existsb_id_false in E. rewrite IH in H.
        -- destruct H as (l & -> & Hl & Hn). exists (c :: l). rewrite <- app_assoc in *.
           split_and!; [done|by apply sublist_skip|done].
        -- rewrite fmap_app. apply NoDup_app. split_and!; [done| |apply NoDup_singleton].
           intros x Hx ->%list_elem_of_singleton. done.
    + intros (l & -> & Hl & Hn). apply sublist_cons_r in Hl as [Hl|(l' & -> & Hl)]; [left; eauto|].
      right. rewrite fmap_app in Hn. csimpl in Hn. apply NoDup_app in Hn as (H1 & H2 & H3).
      assert (Hc : part_id c ∉ part_id <$> selected) by (intros Hx; apply (H2 _ Hx); left).
      apply existsb_id_false in Hc as Hc'. rewrite Hc'. apply IH.
      * rewrite fmap_app. apply NoDup_app. split_and!; [done| |apply NoDup_singleton].
        intros x Hx ->%list_elem_of_singleton. done.
      * exists l'. rewrite <- app_assoc. split_and!; [done..|]. rewrite fmap_app. csimpl.
        by apply NoDup_app.
Qed.

(** ** Assemblies *)
Record Assembly := mkAssembly {
  asm_profile : AssemblyProfile;
  asm_brain : PartDefinition;
  asm_source : PartDefinition;
  asm_peripherals : list PartDefinition;
  asm_edges : list WiringEdge;
  asm_budget : PowerBudget
}.

Section Assemblies.
Context (input : SolveInput).

Definition asm_parts (a : Assembly) : list PartDefinition :=
  asm_brain a :: asm_source a :: asm_peripherals a.

Definition asm_plan (a : Assembly) : BuildPlan :=
  make_plan input (asm_profile a) (asm_brain a) (asm_source a) (asm_parts a) (asm_edges a) (asm_budget a).

Record assembly (required : list string) (target : option num) (a : Assembly) : Prop := {
  as_profile : asm_profile a ∈ in_profiles input;
  as_ends : endpoints input (asm_profile a) = Some (asm_brain a, asm_source a);
  as_peripherals : asm_peripherals a `sublist_of` candidates input (asm_brain a) (asm_source a);
  as_ids : NoDup (part_id <$> asm_parts a);
  as_covers : forall c, c ∈ required -> exists p, p ∈ asm_parts a /\ c ∈ capabilities (software p);
  as_fits : forall p, p ∈ asm_parts a -> part_fits (asm_parts a) (asm_brain a) input p;
  as_addresses : NoDup (omap part_address (asm_parts a));
  as_wired : feasible_wiring (asm_brain a) (asm_source a) (asm_peripherals a) (asm_profile a) input target
               (asm_edges a) (asm_budget a);
  as_cost : isFinite (total_cost_usd (asm_plan a)) = true
}.

(** No other wiring of the same parts draws less from the source. *)
Definition least_draw (target : option num) (a : Assembly) : Prop :=
  forall E b, feasible_wiring (asm_brain a) (asm_source a) (asm_peripherals a) (asm_profile a) input target E b ->
    nlt (average_source_ma b) (average_source_ma (asm_budget a)) = false.

(** *** The base check prunes nothing *)
Lemma check_from_app all brain adds l1 l2 fs :
  check_from all brain input adds (l1 ++ l2) = Some fs ->
  exists f1 f2, check_from all brain input adds l1 = Some f1 /\ fs = f1 ++ f2.
Proof.
  revert adds fs. induction l1 as [|p l1 IH]; intros adds fs; simpl; [eauto|].
  intros H. apply bind_Some in H as (f & Hf & H). apply bind_Some in H as (gs & Hgs & H).
  simplify_eq. apply IH in Hgs as (f1 & f2 & H1 & ->). rewrite Hf, H1. simpl.
  exists (f ++ f1), f2. by rewrite app_assoc.
Qed.

Definition not_requires (f : Failure) : bool := negb (bool_decide (fconstraint f = requires_)).

Lemma check_part_fewer all all' brain adds p :
  (forall q, q ∈ all' -> q ∈ all) -> check_part all brain input adds p = Some [] ->
  exists fs, check_part all' brain input adds p = Some fs /\ List.filter not_requires fs = [].
Proof.
  intros Hsub H. apply check_part_nil in H as [[H1 H2 H3 H4 H5 H6] H7].
  assert (Hc : check_conflicts all' p = []).
  { apply check_conflicts_nil. intros c q Hc Hq. by apply H2, Hsub. }
  apply check_logic_nil in H5. apply check_compat_nil in H4. apply check_connector_fits in H6.
  unfold check_part. rewrite H5, Hc, H4, H6. unfold check_runtime. rewrite H3.
  unfold part_address in H7. eexists. split; [reflexivity|].
  rewrite List.filter_app. replace (List.filter not_requires (check_requires all' brain p)) with (@nil Failure).
  - destruct (truthy_text _) as [a|]; [|done]. by rewrite (proj2 (inb_false a adds) (H7 a eq_refl)).
  - symmetry. unfold check_requires. clear H1. generalize (requires (electrical p)). intros ns. induction ns as [|n ns IH]; [done|].
    simpl. rewrite List.filter_app, IH. unfold when. by repeat case_match.
Qed.

Lemma base_passes brain source l : checkParts (brain :: source :: l) brain input = Some [] -> base_ok input brain source = true.
Proof.
  unfold checkParts, base_ok, checkParts. intros H. simpl in H.
  apply bind_Some in H as (f & Hf & H). apply bind_Some in H as (fs & Hfs & H).
  injection H as [-> ->]%app_nil. apply bind_Some in Hfs as (g & Hg & H).
  apply bind_Some in H as (gs & _ & H). injection H as [-> _]%app_nil.
  assert (Hsub : forall q, q ∈ [brain; source] -> q ∈ brain :: source :: l).
  { intros q. rewrite !elem_of_cons. intros [?|[?|?%elem_of_nil]]; auto. done. }
  apply (check_part_fewer _ _ _ _ _ Hsub) in Hf as (f1 & Hf & E1).
  apply (check_part_fewer _ _ _ _ _ Hsub) in Hg as (g1 & Hg & E2).
  simpl. rewrite Hf. simpl. rewrite Hg. simpl. rewrite !List.filter_app.
  fold not_requires. rewrite E1, E2. done.
Qed.

(** *** The plans of the reference enumeration are the assemblies *)
Hypothesis Hprofiles : forall p, p ∈ in_profiles input -> NoDup (port_id <$> prof_ports p).

Lemma profile_sub p : p ∈ profiles input <-> p ∈ in_profiles input.
Proof. apply elem_of_sort_by. Qed.

Lemma covers_true required l :
  covers required l = true <->
  forall c, c ∈ required -> exists p, p ∈ l /\ c ∈ capabilities (software p).
Proof.
  unfold covers, has_cap. rewrite forallb_elem. apply forall_proper. intros c.
  rewrite existsb_elem. by setoid_rewrite inb_true.
Qed.

Lemma endpoints_ids profile brain source :
  endpoints input profile = Some (brain, source) -> part_id brain <> part_id source.
Proof.
  unfold endpoints. destruct (find_brain input profile), (find_source input profile); try done.
  case_match eqn:E; [done|]. intros [= <- <-]. bools. by apply String.eqb_neq.
Qed.

Lemma all_plans_sound required target plan :
  plan ∈ all_plans input required target ->
  exists a, assembly required target a /\ least_draw target a /\ plan = asm_plan a.
Proof using Hprofiles.
  unfold all_plans. rewrite elem_of_flat_map. intros (profile & Hp%profile_sub & H).
  unfold profile_plans in H. destruct (endpoints input profile) as [[brain source]|] eqn:Ee; [|by apply elem_of_nil in H].
  destruct (base_ok input brain source); [|by apply elem_of_nil in H].
  unfold plans_of in H. apply list_elem_of_omap in H as (sel & Hsel & H).
  destruct (covers required sel) eqn:Hc; [|done]. apply selections_spec in Hsel as (l & -> & Hl & Hd).
  2: { apply endpoints_ids in Ee. csimpl. apply NoDup_cons. split; [set_solver|apply NoDup_singleton]. }
  unfold plan_of in H. destruct (checkParts _ _ _) as [[|]|] eqn:Hk; [|done..].
  change (drop 2 ([brain; source] ++ l)) with l in H.
  pose proof (best_wiring_spec brain source l profile input target) as Hb.
  destruct (best_wiring brain source l profile input target) as [[E b]|]; [|done].
  destruct Hb as [Hw Hmin]. cbv zeta in H. destruct (isFinite _) eqn:Hf; [|done]. injection H as <-.
  apply checkParts_accepts in Hk as [Hk1 Hk2].
  exists (mkAssembly profile brain source l E b). split; [split|split]; simpl.
  - done.
  - done.
  - done.
  - done.
  - by apply covers_true.
  - done.
  - done.
  - apply elem_of_wirings; auto.
  - done.
  - intros E' b' Hw'. apply elem_of_wirings in Hw'; [|by apply Hprofiles]. apply (Hmin (E', b') Hw').
  - done.
Qed.

Lemma all_plans_complete required target a :
  assembly required target a ->
  exists b, assembly required target b /\ least_draw target b /\ asm_plan b ∈ all_plans input required target /\
    asm_parts b = asm_parts a /\ asm_profile b = asm_profile a.
Proof using Hprofiles.
  intros [A1 A2 A3 A4 A5 A6 A7 A8 A9]. destruct a as [profile brain source l E b]; simpl in *.
  pose proof (best_wiring_spec brain source l profile input target) as Hb.
  assert (Hn : (E, b) ∈ wirings brain source l profile input target) by (apply elem_of_wirings; auto).
  destruct (best_wiring brain source l profile input target) as [[E' b']|] eqn:Eb;
    [|rewrite Hb in Hn; by apply elem_of_nil in Hn].
  destruct Hb as [Hw Hmin]. exists (mkAssembly profile brain source l E' b').
  assert (Hk : checkParts (brain :: source :: l) brain input = Some []) by (by apply checkParts_accepts).
  split_and!; [split; simpl; try done; apply elem_of_wirings; auto| | |done..].
  { intros E2 b2 H2. apply elem_of_wirings in H2; [apply (Hmin (E2, b2) H2)|by apply Hprofiles]. }
  unfold all_plans. rewrite elem_of_flat_map. exists profile. split; [by apply profile_sub|].
  unfold profile_plans. rewrite A2, (base_passes _ _ _ Hk). unfold plans_of.
  apply list_elem_of_omap. exists (brain :: source :: l). split.
  - apply selections_spec.
    + apply endpoints_ids in A2. csimpl. apply NoDup_cons. split; [set_solver|apply NoDup_singleton].
    + by exists l.
  - rewrite (proj2 (covers_true required (brain :: source :: l)) A5). unfold plan_of. rewrite Hk. simpl.
    rewrite drop_0, Eb. unfold asm_plan in *. simpl in *. by rewrite A9.
Qed.
End Assemblies.

(** ** Requirements, and dropping some of them *)
Section Requirements.
Context (input : SolveInput).

Lemma required_caps_requirements : required_caps (requirements input) = caps input.
Proof.
  unfold required_caps, requirements. rewrite List.filter_app, fmap_app.
  replace (List.filter _ (match target_life_days _ with None => _ | Some _ => _ end)) with (@nil string)
    by by destruct (target_life_days _).
  rewrite app_nil_r. induction (caps input) as [|c cs IH]; [done|].
  rewrite fmap_cons. cbn [List.filter]. rewrite (startsWith_app "capability:" c), fmap_cons, IH. by f_equal.
Qed.

Lemma target_of_requirements : target_of input (requirements input) = target_life_days (in_spec input).
Proof.
  unfold target_of, requirements, spec. destruct (target_life_days (in_spec input)) as [t|] eqn:E.
  - rewrite (proj2 (inb_true "target_life_days" _)); [done|]. apply elem_of_app. right. by left.
  - by destruct (inb _ _).
Qed.

Lemma required_caps_elem c needs : c ∈ required_caps needs <-> exists r, r ∈ needs /\ startsWith "capability:" r = true /\ c = slice_from 11 r.
Proof.
  unfold required_caps. rewrite list_elem_of_fmap. setoid_rewrite list_elem_of_In.
  setoid_rewrite List.filter_In. setoid_rewrite <- list_elem_of_In. naive_solver.
Qed.

(** Fewer requirements admit at least the same assemblies. *)
Lemma assembly_weaken needs needs' a :
  (forall r, r ∈ needs' -> r ∈ needs) ->
  assembly input (required_caps needs) (target_of input needs) a ->
  assembly input (required_caps needs') (target_of input needs') a.
Proof.
  intros Hsub [A1 A2 A3 A4 A5 A6 A7 [W1 W2 W3 W4] A9]. split; try done.
  - intros c (r & Hr & Hs & ->)%required_caps_elem. apply A5, required_caps_elem. eauto.
  - split; try done. intros t Ht. apply W4. unfold target_of in *.
    destruct (inb _ needs') eqn:E; [|done]. apply inb_true, Hsub, inb_true in E. by rewrite E.
Qed.

Definition buildable (needs : list string) : Prop :=
  exists a, assembly input (required_caps needs) (target_of input needs) a.

Lemma buildable_weaken needs needs' :
  (forall r, r ∈ needs' -> r ∈ needs) -> buildable needs -> buildable needs'.
Proof. intros Hsub [a Ha]. exists a. by eapply assembly_weaken. Qed.

Definition without (r : string) (needs : list string) : list string :=
  List.filter (fun x => negb (x ==s r)) needs.

Lemma elem_of_without x r needs : x ∈ without r needs <-> x ∈ needs /\ x <> r.
Proof.
  unfold without. rewrite list_elem_of_In, List.filter_In, <- list_elem_of_In, negb_true_iff, String.eqb_neq.
  done.
Qed.

Hypothesis Hprofiles : forall p, p ∈ in_profiles input -> NoDup (port_id <$> prof_ports p).

Lemma buildable_plans needs :
  buildable needs <-> all_plans input (required_caps needs) (target_of input needs) <> [].
Proof using Hprofiles.
  split.
  - intros [a Ha]. apply all_plans_complete in Ha as (b & _ & _ & Hb & _); [|done].
    intros E. rewrite E in Hb. by apply elem_of_nil in Hb.
  - intros Hne. destruct (all_plans _ _ _) as [|p ps] eqn:E; [done|].
    destruct (all_plans_sound input Hprofiles (required_caps needs) (target_of input needs) p) as (a & Ha & _).
    + rewrite E. left.
    + by exists a.
Qed.

Lemma search_first needs s ps n s' :
  search input needs true s = (Ok (ps, n), s') -> n = 0 <-> ~ buildable needs.
Proof using Hprofiles.
  intros H%search_refines. destruct H as [_ ->]. rewrite buildable_plans.
  unfold kept. destruct (all_plans _ _ _) as [|p l]; simpl; split; intros H; [by intros []|done..|].
  by destruct H.
Qed.

(** Deletion leaves a conflict each of whose requirements was needed. *)
Lemma minimise_spec todo conflict s C s' :
  minimise input todo conflict s = (Ok C, s') -> ~ buildable conflict ->
  ~ buildable C /\ (forall r, r ∈ C -> r ∈ conflict) /\
  (forall r, r ∈ todo -> r ∈ C -> buildable (without r C)).
Proof using Hprofiles.
  revert conflict s. induction todo as [|r todo IH]; intros conflict s H Hn; simpl in H.
  - apply ret_Ok in H as [<- _]. split_and!; [done..|]. by intros r ?%elem_of_nil.
  - apply bind_Ok in H as ([ps n] & s1 & H1 & H). apply search_first in H1. simpl in H.
    fold (without r conflict) in H, H1. destruct (Nat.eqb_spec n 0) as [E|E].
    + apply IH in H as (B1 & B2 & B3); [|by apply H1].
      split_and!; [done| |].
      * intros x Hx. by apply B2, elem_of_without in Hx as [? _].
      * intros x [->|Hx]%elem_of_cons Hc; [|by apply B3].
        by apply B2, elem_of_without in Hc as [_ ?].
    + apply IH in H as (B1 & B2 & B3); [|done]. split_and!; [done..|].
      intros x [->|Hx]%elem_of_cons Hc; [|by apply B3].
      assert (Hb : buildable (without r conflict)).
      { apply buildable_plans. intros Hempty. apply E, H1. by intros Hb%buildable_plans. }
      eapply buildable_weaken; [|exact Hb]. intros y. rewrite !elem_of_without. naive_solver.
Qed.
End Requirements.

(** ** What a valid input guarantees *)
Section Valid.
Context (https_url : string -> bool) (input : SolveInput).
Hypothesis Hok : SolveInput_ok https_url input = true.

Lemma profile_ports p : p ∈ in_profiles input -> NoDup (port_id <$> prof_ports p).
Proof using Hok.
  intros Hp. unfold SolveInput_ok in Hok. bools.
  match goal with H : forallb AssemblyProfile_ok _ = true |- _ => rewrite forallb_elem in H; specialize (H p Hp) end.
  unfold AssemblyProfile_ok in *. bools. destruct (profile_issues p) eqn:E; [|done].
  unfold profile_issues in E. apply app_eq_nil in E as [E _].
  apply all_distinct_true. by destruct (all_distinct (port_id <$> prof_ports p)).
Qed.

Lemma few_parts : length (in_parts input) <= 24.
Proof using Hok. unfold SolveInput_ok in Hok. bools. by apply Nat.leb_le. Qed.

Lemma candidates_few brain source : length (candidates input brain source) <= 24.
Proof using Hok.
  unfold candidates. etransitivity; [apply List.filter_length_le|]. unfold parts.
  rewrite sort_by_perm. etransitivity; [apply List.filter_length_le|]. apply few_parts.
Qed.

Lemma assembly_plan_ok required target a : assembly input required target a -> plan_ok (asm_plan input a).
Proof using Hok.
  intros [A1 A2 A3 A4 A5 A6 A7 [W1 W2 W3 W4] A9]. split; [done| |].
  - unfold finite_budget in W3. bools. done.
  - unfold asm_plan, make_plan, asm_parts. cbn [part_versions]. rewrite length_fmap.
    unfold sort_by. rewrite length_js_sort. cbn [length]. apply sublist_length in A3.
    pose proof (candidates_few (asm_brain a) (asm_source a)). lia.
Qed.

Lemma all_plans_ok required target : Forall plan_ok (all_plans input required target).
Proof using Hok.
  apply Forall_forall. intros p Hp. apply all_plans_sound in Hp as (a & Ha & _ & ->); [|apply profile_ports].
  by eapply assembly_plan_ok.
Qed.
End Valid.

(** The assemblies that meet the whole request. *)
Definition meets_request (input : SolveInput) : Assembly -> Prop :=
  assembly input (caps input) (target_life_days (in_spec input)).

Lemma meets_request_requirements input a :
  meets_request input a <-> assembly input (required_caps (requirements input)) (target_of input (requirements input)) a.
Proof. by rewrite required_caps_requirements, target_of_requirements. Qed.

Lemma solve_solved input ps n k :
  solve_parsed input = Ok (Solved ps n k) ->
  n <> 0 /\ exists s, search input (requirements input) false start = (Ok (ps, n), s).
Proof.
  unfold solve_parsed. case_match; [done|].
  destruct (solve_body input start) as [[r|[|]] s] eqn:E; [|done..]. intros [= ->].
  unfold solve_body in E. apply bind_Ok in E as ([qs m] & s1 & H1 & E). simpl in E.
  destruct (Nat.eqb_spec m 0); simpl in E.
  - repeat (apply bind_Ok in E as (? & ? & ? & E)). done.
  - injection E as <- <- _ _. eauto.
Qed.

Lemma solve_infeasible input C ds ex k :
  solve_parsed input = Ok (Infeasible C ds ex k) ->
  exists ps s s1 s2, search input (requirements input) false start = (Ok (ps, 0), s) /\
    minimise input (requirements input) (requirements input) s1 = (Ok C, s2) /\
    ds = sort_by failure_key (diagnostics s2).*2 /\ ex = explain C ds /\ k = steps s2.
Proof.
  unfold solve_parsed. case_match; [done|].
  destruct (solve_body input start) as [[r|[|]] s] eqn:E; [|done..]. intros [= ->].
  unfold solve_body in E. apply bind_Ok in E as ([qs m] & s1 & H1 & E). simpl in E.
  destruct (Nat.eqb_spec m 0) as [->|]; simpl in E; [|done].
  apply bind_Ok in E as (? & s2 & _ & E). apply bind_Ok in E as (? & s3 & _ & E).
  apply bind_Ok in E as (? & s4 & _ & E). apply bind_Ok in E as (c & s5 & H5 & E).
  injection E as <- <- <- <- _. by exists qs, s1, s4, s5.
Qed.

Lemma solved_assemblies https_url input ps n k :
  SolveInput_ok https_url input = true -> solve_parsed input = Ok (Solved ps n k) ->
  forall p, p ∈ ps -> exists a, meets_request input a /\
    least_draw input (target_life_days (in_spec input)) a /\ p = asm_plan input a.
Proof.
  intros Hok H p Hp. apply solve_solved in H as (_ & s & H). apply search_refines in H as [-> _].
  unfold push_all, kept in Hp. rewrite push_all_take in Hp by by eapply all_plans_ok.
  apply elem_of_take in Hp as (i & Hp & _). apply list_elem_of_lookup_2 in Hp.
  unfold sort_plans in Hp. rewrite elem_of_js_sort in Hp.
  rewrite required_caps_requirements, target_of_requirements in Hp.
  apply all_plans_sound in Hp; [done|]. by eapply profile_ports.
Qed.

(** ** The contract *)

(** C1: Soundness. Every plan [solve] returns is an assembly that meets the whole
    request: active catalogue parts with distinct ids, every capability covered,
    every check of [checkParts] passed, and a wiring of all its peripherals
    within every port, voltage, current, resource and battery limit, of least
    average draw among the wirings of those parts. *)
Theorem solve_sound https_url input ps n k :
  SolveInput_ok https_url input = true -> solve_parsed input = Ok (Solved ps n k) ->
  forall p, p ∈ ps -> exists a, meets_request input a /\
    least_draw input (target_life_days (in_spec input)) a /\ p = asm_plan input a.
Proof. apply solved_assemblies. Qed.

(** The wiring of least draw ranks no worse: cost, parts and profile are the same. *)
Lemma rewired_ranks https_url input a b :
  SolveInput_ok https_url input = true -> meets_request input a -> meets_request input b ->
  least_draw input (target_life_days (in_spec input)) b -> asm_parts b = asm_parts a -> asm_profile b = asm_profile a ->
  le_of plan_gt (asm_plan input b) (asm_plan input a).
Proof.
  intros Hok Ha Hb Hl E1 E2. pose proof (assembly_plan_ok _ _ Hok _ _ _ Ha) as Pa. pose proof (assembly_plan_ok _ _ Hok _ _ _ Hb) as Pb.
  unfold le_of. rewrite plan_gt_cmp by done. apply Z.ltb_ge.
  assert (Hd : nlt (average_source_ma (asm_budget a)) (average_source_ma (asm_budget b)) = false).
  { injection E1 as Eb Es Ep. apply (Hl (asm_edges a)). rewrite Eb, Es, Ep, E2. apply Ha. }
  rewrite nlt_scaled in Hd by (apply Pa || apply Pb). apply Z.ltb_ge in Hd.
  unfold plan_cmp, plan_key, plan_profile_key, asm_plan, make_plan. rewrite E1, E2.
  cbn [total_cost_usd power_budget part_versions plan_profile]. cbv zeta. rewrite !(proj2 (compareText_zero _ _) eq_refl). unfold cmpZ.
  rewrite !Z.ltb_irrefl. simpl.
  destruct (Z.ltb_spec (scaled (average_source_ma (asm_budget b))) (scaled (average_source_ma (asm_budget a)))) as [|Hge]; [done|].
  by destruct (Z.ltb_spec (scaled (average_source_ma (asm_budget a))) (scaled (average_source_ma (asm_budget b)))) as [|_]; [lia|].
Qed.

(** C2: Ranking. The plans come in the order of [comparePlans]; there are
    [max_plans] of them, or as many as were found when those are fewer; and no
    assembly that meets the request, with whatever wiring, ranks better than a
    plan returned unless its own parts and profile, in a wiring of least draw
    that ranks no worse, are among the plans. *)
Theorem solve_ranked https_url input ps n k :
  SolveInput_ok https_url input = true -> solve_parsed input = Ok (Solved ps n k) ->
  StronglySorted (fun p q => plan_gt p q = false) ps /\ length ps = Nat.min (max_plans input) n /\
  forall a, meets_request input a ->
    (exists b, asm_plan input b ∈ ps /\ meets_request input b /\ least_draw input (target_life_days (in_spec input)) b /\
       asm_parts b = asm_parts a /\ asm_profile b = asm_profile a /\ plan_gt (asm_plan input b) (asm_plan input a) = false) \/
    (forall p, p ∈ ps -> plan_gt p (asm_plan input a) = false).
Proof.
  intros Hok H. apply solve_solved in H as (_ & s & H). apply search_refines in H as [-> ->].
  unfold push_all, kept. pose proof (all_plans_ok _ _ Hok) as Hall. rewrite push_all_take by apply Hall.
  rewrite required_caps_requirements, target_of_requirements in *.
  set (L := all_plans input _ _) in *. assert (HL : Forall plan_ok L) by apply Hall.
  pose proof (js_sort_sorted _ _ plan_order L HL) as Hs. fold (sort_plans L) in Hs.
  split_and!.
  - by apply StronglySorted_take.
  - rewrite length_take. unfold sort_plans. by rewrite length_js_sort.
  - intros a Ha. apply all_plans_complete in Ha as Hb; [|by eapply profile_ports].
    destruct Hb as (b & Hb & Hl & Hin & E1 & E2). pose proof (rewired_ranks _ _ _ _ Hok Ha Hb Hl E1 E2) as Hr. fold L in Hin.
    assert (Hin' : asm_plan input b ∈ sort_plans L) by by apply elem_of_js_sort.
    rewrite <- (take_drop (max_plans input) (sort_plans L)) in Hs, Hin'.
    apply elem_of_app in Hin' as [?|Hd]; [left; by exists b|right].
    intros p Hp. apply StronglySorted_app in Hs as (Hs & _ & _). rewrite Forall_forall in HL.
    refine (tpo_trans _ _ plan_order _ _ _ _ _ _ (Hs p _ Hp Hd) Hr).
    + apply HL. eapply elem_of_sublist in Hp; [|apply sublist_take]. by apply elem_of_js_sort in Hp.
    + by apply HL.
    + by eapply assembly_plan_ok.
Qed.

(** C3: An infeasible answer is right, and its conflict set is minimal: no
    assembly meets the request, none meets even the requirements of the
    conflict set alone, and dropping any one of them makes the rest buildable. *)
Theorem solve_conflict_minimal https_url input C ds ex k :
  SolveInput_ok https_url input = true -> solve_parsed input = Ok (Infeasible C ds ex k) ->
  (forall a, ~ meets_request input a) /\ (forall r, r ∈ C -> r ∈ requirements input) /\
  ~ buildable input C /\ (forall r, r ∈ C -> buildable input (without r C)).
Proof.
  intros Hok H. apply solve_infeasible in H as (ps & s & s1 & s2 & H1 & H2 & _).
  pose proof (profile_ports _ _ Hok) as Hp.
  assert (Hn : ~ buildable input (requirements input)).
  { rewrite buildable_plans by done. apply search_refines in H1 as [_ H1]. unfold kept in H1.
    destruct (all_plans _ _ _); [tauto|done]. }
  apply minimise_spec in H2 as (B1 & B2 & B3); [|done..].
  split_and!; [|done..|].
  - intros a Ha. apply Hn. exists a. by apply meets_request_requirements.
  - intros r Hr. apply B3; [by apply B2|done].
Qed.
