(* ===== verification/NarrowSearch.v ===== *)
(** * A solve of fewer parts and profiles

    [solve] explores a catalogue; a narrower catalogue (fewer parts, fewer
    profiles, everything else the same) is explored in no more steps, and its
    plans are among the plans of the whole. *)
From S2P Require Import Prelude JsString Regex JsNumber JsNumberFacts Part Assembly Semver.
From S2P Require Import MatcherTypes Constraints Solver PlanOrder WireFacts SearchFacts PartsSpec WiringSpec.
From S2P Require Import SolverSafety MatcherSpec.
#[local] Open Scope string_scope.
#[local] Open Scope list_scope.
#[local] Open Scope nat_scope.

(** ** Runs that cost the same from any state *)
Section Costs.
Context (input : SolveInput).

Definition costs {A} (m : M A) (a : A) (k : nat) : Prop :=
  forall s, steps s + k <= max_steps input -> exists s', m s = (Ok a, s') /\ steps s' = steps s + k.
Definition uniform {A} (m : M A) : Prop :=
  forall s a s', m s = (Ok a, s') -> exists k, steps s' = steps s + k /\ costs m a k.

Lemma costs_ret {A} (a : A) : costs (ret a) a 0.
Proof. intros s _. exists s. split; [done|lia]. Qed.

Lemma costs_step : costs (step input) tt 1.
Proof.
  intros s Hs. unfold step. destruct (Nat.leb_spec (max_steps input) (steps s)); [lia|].
  eexists. split; [done|]. simpl. lia.
Qed.

Lemma costs_bind {A B} (m : M A) (f : A -> M B) a b k1 k2 :
  costs m a k1 -> costs (f a) b k2 -> costs (bind m f) b (k1 + k2).
Proof.
  intros Hm Hf s Hs. destruct (Hm s) as (s1 & E1 & H1); [lia|]. destruct (Hf s1) as (s2 & E2 & H2); [lia|].
  exists s2. unfold bind. rewrite E1. split; [done|lia].
Qed.

Lemma uniform_pure {A} (m : M A) a : (forall s, exists s', m s = (Ok a, s') /\ steps s' = steps s) -> uniform m.
Proof.
  intros H s b s' E. destruct (H s) as (s1 & E1 & H1). rewrite E1 in E. injection E as <- <-.
  exists 0. split; [lia|]. intros t _. destruct (H t) as (t1 & ? & ?). exists t1. split; [done|lia].
Qed.

Lemma uniform_ret {A} (a : A) : uniform (ret a).
Proof. apply (uniform_pure _ a). intros s. by exists s. Qed.

Lemma step_one s u s' : step input s = (Ok u, s') -> steps s' = steps s + 1.
Proof. unfold step. destruct (_ <=? _); [done|]. intros [= _ <-]. simpl. lia. Qed.

Lemma uniform_step : uniform (step input).
Proof. intros s [] s' E%step_one. exists 1. split; [done|apply costs_step]. Qed.

Lemma uniform_record f : uniform (record f).
Proof. apply (uniform_pure _ tt). intros s. unfold record. eexists. split; [done|]. by case_match. Qed.

Lemma uniform_nonnull {A} (o : option A) : uniform (nonnull o).
Proof. destruct o; [apply uniform_ret|]. intros s a s' E. done. Qed.

Lemma uniform_add_plan p : uniform (add_plan input p).
Proof. apply (uniform_pure _ tt). intros s. unfold add_plan. by eexists. Qed.

Lemma uniform_bind {A B} (m : M A) (f : A -> M B) : uniform m -> (forall a, uniform (f a)) -> uniform (bind m f).
Proof.
  intros Hm Hf s b s' E. apply bind_Ok in E as (a & s1 & E1 & E2).
  apply Hm in E1 as (k1 & H1 & C1). apply Hf in E2 as (k2 & H2 & C2).
  exists (k1 + k2). split; [lia|by eapply costs_bind].
Qed.

Lemma uniform_forM {A} (l : list A) f : (forall x, uniform (f x)) -> uniform (forM l f).
Proof. intros Hf. induction l as [|x l IH]; simpl; [apply uniform_ret|by apply uniform_bind]. Qed.

Lemma uniform_wire_visit brain source peripherals profile target env todo wired ws :
  uniform (wire_visit brain source peripherals profile input target env todo wired ws).
Proof.
  revert wired ws. induction todo as [|part todo IH]; intros wired ws; simpl.
  - apply uniform_bind; [apply uniform_step|intros _; apply uniform_nonnull].
  - apply uniform_bind; [apply uniform_step|intros _].
    revert ws. induction (sorted_ports profile) as [|port ports IHp]; intros ws; [apply uniform_ret|].
    apply uniform_bind; [apply uniform_nonnull|intros ok].
    apply uniform_bind; [destruct ok; [apply IH|apply uniform_ret]|apply IHp].
Qed.

Lemma uniform_complete target profile brain source selected :
  uniform (complete input target profile brain source selected).
Proof.
  unfold complete, wire.
  repeat (apply uniform_ret || apply uniform_nonnull || apply uniform_record || apply uniform_add_plan ||
          apply uniform_wire_visit || (apply uniform_forM; intros ?) || (apply uniform_bind; [|intros ?]) || case_match).
Qed.

(** ** A visit of fewer candidates *)
Lemma visit_fewer required target profile brain source cands selected s found s' :
  visit input required target false profile brain source cands selected s = (Ok found, s') ->
  exists k, steps s' = steps s + k /\ forall cands', cands' `sublist_of` cands ->
    exists found' k', k' <= k /\ costs (visit input required target false profile brain source cands' selected) found' k'.
Proof.
  assert (Hun : forall cs sel, covers required (sel ++ cs) = false ->
    costs (visit input required target false profile brain source cs sel) false 1).
  { intros cs sel Hc. destruct cs; simpl; apply (costs_bind _ _ tt _ 1 0); [apply costs_step|rewrite Hc; apply costs_ret
      |apply costs_step|rewrite Hc; apply costs_ret]. }
  revert selected s found s'. induction cands as [|c cands IH]; intros selected s found s' H; simpl in H;
    apply bind_Ok in H as ([] & s0 & E0%step_one & H).
  - destruct (covers required (selected ++ [])) eqn:Hc; simpl in H.
    + apply uniform_complete in H as (k & Hk & HC). exists (S k). split; [lia|]. intros l ->%sublist_nil_r.
      exists found, (1 + k). split; [lia|]. cbn [visit]. apply (costs_bind _ _ tt); [apply costs_step|]. by rewrite Hc.
    + apply ret_Ok in H as [<- <-]. exists 1. split; [lia|]. intros l ->%sublist_nil_r. exists false, 1. auto.
  - destruct (covers required (selected ++ c :: cands)) eqn:Hc; cbn [negb] in H.
    + apply bind_Ok in H as (f1 & s1 & H1 & H). apply IH in H1 as (k1 & E1 & C1). rewrite andb_false_r in H.
      assert (H2 : exists k2, steps s' = steps s1 + k2 /\ forall cands', cands' `sublist_of` cands ->
        existsb (fun p => part_id p ==s part_id c) selected = false -> exists found' k', k' <= k2 /\
          costs (visit input required target false profile brain source cands' (selected ++ [c])) found' k').
      { destruct (existsb _ selected); simpl in H.
        - apply ret_Ok in H as [_ <-]. exists 0. split; [lia|done].
        - apply bind_Ok in H as (f2 & s2 & H2 & H). apply ret_Ok in H as [_ <-].
          apply IH in H2 as (k2 & E2 & C2). exists k2. split; [done|auto]. }
      destruct H2 as (k2 & E2 & C2). exists (1 + k1 + k2). split; [lia|]. intros cands' Hsub.
      apply sublist_cons_r in Hsub as [Hsub|(rest & -> & Hsub)].
      * destruct (C1 _ Hsub) as (f & k & ? & ?). exists f, k. split; [lia|done].
      * destruct (covers required (selected ++ c :: rest)) eqn:Hc'; [|exists false, 1; split; [lia|by apply Hun]].
        destruct (C1 _ Hsub) as (f & k & Hk & Ck). cbn [visit]. destruct (existsb _ selected) eqn:Ex.
        -- exists false, (1 + (k + 0)). split; [lia|]. apply (costs_bind _ _ tt); [apply costs_step|]. rewrite Hc'. cbn [negb].
           eapply costs_bind; [exact Ck|]. rewrite andb_false_r. apply costs_ret.
        -- destruct (C2 _ Hsub eq_refl) as (f' & k' & Hk' & Ck'). exists false, (1 + (k + (k' + 0))). split; [lia|].
           apply (costs_bind _ _ tt); [apply costs_step|]. rewrite Hc'. cbn [negb].
           eapply costs_bind; [exact Ck|]. rewrite andb_false_r. cbn [negb].
           eapply costs_bind; [exact Ck'|]. rewrite andb_false_r. apply costs_ret.
    + apply ret_Ok in H as [<- <-]. exists 1. split; [lia|]. intros l Hsub. exists false, 1. split; [done|]. apply Hun.
      destruct (covers required (selected ++ l)) eqn:E; [|done]. rewrite <- Hc. symmetry. eapply covers_mono; [|exact E].
      intros p. rewrite !elem_of_app. intros [?|?]; [by left|right]. by eapply elem_of_sublist.
Qed.
End Costs.

(** ** A narrower catalogue *)
Section Narrow.
Context (fp : PartDefinition -> bool) (fq : AssemblyProfile -> bool) (input : SolveInput).

Definition narrow : SolveInput :=
  mkSolveInput (in_spec input) (List.filter fp (in_parts input)) (in_connectors input)
    (List.filter fq (in_profiles input)) (in_compat input) (max_steps input) (max_plans input).

Lemma filter_comm {A} (f g : A -> bool) l : List.filter f (List.filter g l) = List.filter g (List.filter f l).
Proof. induction l as [|x l IH]; simpl; [done|]. destruct (f x) eqn:Ef, (g x) eqn:Eg; simpl; rewrite ?Ef, ?Eg, IH; done. Qed.

Lemma sort_by_filter {A} (key : A -> string) f l : sort_by key (List.filter f l) = List.filter f (sort_by key l).
Proof. symmetry. apply (js_sort_filter _ _ (key_order key (fun _ => True))). by apply Forall_forall. Qed.

Lemma narrow_parts : parts narrow = List.filter fp (parts input).
Proof. unfold parts. by rewrite <- sort_by_filter, filter_comm. Qed.

Lemma narrow_profiles : profiles narrow = List.filter fq (profiles input).
Proof. apply sort_by_filter. Qed.

Lemma narrow_candidates brain source : candidates narrow brain source = List.filter fp (candidates input brain source).
Proof. unfold candidates. by rewrite narrow_parts, filter_comm. Qed.

Lemma filter_sublist {A} (f : A -> bool) l : List.filter f l `sublist_of` l.
Proof. induction l as [|x l IH]; simpl; [done|]. destruct (f x); [by apply sublist_skip|by apply sublist_cons]. Qed.

Lemma find_filter {A} (P f : A -> bool) l x : List.find P l = Some x -> f x = true -> List.find P (List.filter f l) = Some x.
Proof.
  induction l as [|y l IH]; simpl; [done|]. destruct (P y) eqn:E.
  - intros [= ->] ->. simpl. by rewrite E.
  - intros H Hx. destruct (f y); simpl; rewrite ?E; auto.
Qed.

Lemma narrow_ends profile brain source :
  endpoints input profile = Some (brain, source) -> fp brain = true -> fp source = true ->
  endpoints narrow profile = Some (brain, source).
Proof.
  unfold endpoints, find_brain, find_source. rewrite narrow_parts. change (spec narrow) with (spec input). intros H Hb Hs.
  destruct (List.find _ (parts input)) as [b|] eqn:Eb; [|done]. destruct (List.find _ (parts input)) as [s|] eqn:Es in H; [|done].
  assert (b = brain /\ s = source) as [-> ->] by (case_match; by simplify_eq).
  rewrite (find_filter _ fp _ _ Eb Hb), (find_filter _ fp _ _ Es Hs). exact H.
Qed.

Context (Hkeys : NoDup (partKey <$> in_parts input)).

Lemma part_key_inj p q : p ∈ parts input -> q ∈ parts input -> partKey p = partKey q -> p = q.
Proof using Hkeys. intros [Hp _]%parts_sub [Hq _]%parts_sub. by apply (NoDup_fmap_elem partKey (in_parts input)). Qed.

Lemma find_whole (P : PartDefinition -> bool) k x :
  (forall p, P p = true -> partKey p = k) -> List.find P (List.filter fp (parts input)) = Some x -> List.find P (parts input) = Some x.
Proof using Hkeys.
  intros HP [Hx Px]%find_Some_elem. apply elem_of_listfilter in Hx as [Hx _].
  destruct (List.find P (parts input)) as [y|] eqn:E.
  - apply find_Some_elem in E as [Hy Py]. f_equal. apply part_key_inj; [done|done|]. by rewrite (HP _ Px), (HP _ Py).
  - rewrite find_None_forall in E. by rewrite E in Px.
Qed.

Lemma narrow_endpoints profile brain source :
  endpoints narrow profile = Some (brain, source) -> endpoints input profile = Some (brain, source).
Proof using Hkeys.
  unfold endpoints, find_brain, find_source. rewrite narrow_parts. change (spec narrow) with (spec input). intros H.
  destruct (List.find _ (List.filter fp (parts input))) as [b|] eqn:Eb; [|done].
  destruct (List.find _ (List.filter fp (parts input))) as [s|] eqn:Es in H; [|done].
  apply (find_whole _ (pinKey (prof_brain profile))) in Eb as ->; [|intros p Hp; bools; by apply String.eqb_eq].
  apply (find_whole _ (pinKey (prof_source profile))) in Es as ->; [exact H|intros p Hp; bools; by apply String.eqb_eq].
Qed.

(** What may be built from fewer parts may be built. *)
Lemma narrow_assembly required target a :
  NoDup (port_id <$> prof_ports (asm_profile a)) -> assembly narrow required target a -> assembly input required target a.
Proof using Hkeys.
  intros Hports [A1 A2 A3 A4 A5 A6 A7 A8 A9]. split; [|by apply narrow_endpoints| |exact A4|exact A5| |exact A7| |exact A9].
  - by apply elem_of_listfilter in A1 as [? _].
  - rewrite narrow_candidates in A3. etransitivity; [exact A3|apply filter_sublist].
  - intros p Hp. destruct (A6 p Hp). by split.
  - apply elem_of_wirings in A8; [|done]. by apply elem_of_wirings.
Qed.
End Narrow.

(** ** Sublists *)
Lemma sublist_omap {A B} (f : A -> option B) l1 l2 : l1 `sublist_of` l2 -> omap f l1 `sublist_of` omap f l2.
Proof.
  induction 1 as [|x l1 l2 _ IH|x l1 l2 _ IH]; simpl; [done|..]; destruct (f x); [by apply sublist_skip|done|by apply sublist_cons|done].
Qed.

Lemma sublist_flat_map {A B} (f g : A -> list B) l1 l2 :
  (forall x, f x `sublist_of` g x) -> l1 `sublist_of` l2 -> List.flat_map f l1 `sublist_of` List.flat_map g l2.
Proof.
  intros H. induction 1 as [|x l1 l2 _ IH|x l1 l2 _ IH]; simpl; [done|by apply sublist_app|by apply sublist_inserts_l].
Qed.

Lemma NoDup_omap {A B} (f : A -> option B) l :
  NoDup l -> (forall x y z, x ∈ l -> y ∈ l -> f x = Some z -> f y = Some z -> x = y) -> NoDup (omap f l).
Proof.
  induction 1 as [|x l Hx Hl IH]; intros Hf; simpl; [constructor|].
  assert (IH' : NoDup (omap f l)) by (apply IH; intros a b z Ha Hb; apply Hf; by right).
  destruct (f x) as [z|] eqn:E; [|done]. constructor; [|done]. intros (y & Hy & Ey)%list_elem_of_omap.
  by rewrite (Hf x y z) in Hx; [|left|right|..].
Qed.

Lemma NoDup_flat_map {A B} (f : A -> list B) l :
  NoDup l -> (forall x, x ∈ l -> NoDup (f x)) -> (forall x y z, x ∈ l -> y ∈ l -> z ∈ f x -> z ∈ f y -> x = y) -> NoDup (List.flat_map f l).
Proof.
  induction 1 as [|x l Hx Hl IH]; intros Hf Hd; simpl; [constructor|]. apply NoDup_app. split_and!.
  - apply Hf. left.
  - intros z Hz (y & Hy & Hzy)%elem_of_flat_map. apply Hx. by rewrite (Hd x y z); [|left|right|..].
  - apply IH; [intros x' H'; apply Hf; by right|intros x' y z H1 H2; apply Hd; by right].
Qed.

(** Sublists without repetitions are determined by their elements. *)
Lemma sublist_perm_eq {A} (l l1 l2 : list A) : NoDup l -> l1 `sublist_of` l -> l2 `sublist_of` l -> l1 ≡ₚ l2 -> l1 = l2.
Proof.
  intros Hl. revert l1 l2. induction Hl as [|x l Hx Hl IH]; intros l1 l2 H1 H2 Hp.
  - apply sublist_nil_r in H1, H2. congruence.
  - apply sublist_cons_r in H1 as [H1|(k1 & -> & H1)], H2 as [H2|(k2 & -> & H2)].
    + auto.
    + destruct Hx. eapply elem_of_sublist; [|exact H1]. rewrite Hp. left.
    + destruct Hx. eapply elem_of_sublist; [|exact H2]. rewrite <- Hp. left.
    + f_equal. apply IH; [done..|]. by apply Permutation_cons_inv in Hp.
Qed.

(** An element among the first of a list is among the first of a sublist that has it. *)
Lemma take_sublist {A} k (l1 l2 : list A) x : NoDup l2 -> l1 `sublist_of` l2 -> x ∈ l1 -> x ∈ take k l2 -> x ∈ take k l1.
Proof.
  intros Hn Hsub Hx (i & Hi & Hk)%elem_of_take. apply list_elem_of_split_length in Hi as (a & b & -> & ->).
  apply NoDup_app in Hn as (_ & Hab & [Hb _]%NoDup_cons). apply sublist_app_r in Hsub as (a' & b' & -> & Ha & Hb').
  apply elem_of_app in Hx as [Hx|Hx]; [destruct (Hab x); [by eapply elem_of_sublist|left]|].
  apply sublist_cons_r in Hb' as [Hb'|(b'' & -> & _)]; [destruct Hb; by eapply elem_of_sublist|].
  apply sublist_length in Ha. apply elem_of_take. exists (length a'). split; [|lia]. by rewrite list_lookup_middle.
Qed.

(** ** The plans of the narrower catalogue *)
Lemma selections_sublist cands cands' selected :
  cands' `sublist_of` cands -> selections cands' selected `sublist_of` selections cands selected.
Proof.
  intros H. revert selected. induction H as [|c l1 l2 _ IH|c l1 l2 _ IH]; intros selected; simpl; [done|..].
  - apply sublist_app; [done|]. by destruct (existsb _ _).
  - apply sublist_inserts_r, IH.
Qed.

Lemma selections_form cands selected sel : sel ∈ selections cands selected -> exists l, sel = selected ++ l /\ l `sublist_of` cands.
Proof.
  revert selected. induction cands as [|c cands IH]; intros selected; simpl.
  - intros ->%list_elem_of_singleton. exists []. by rewrite app_nil_r.
  - rewrite elem_of_app. intros [(l & -> & Hl)%IH|H]; [exists l; split; [done|by apply sublist_cons]|].
    destruct (existsb _ _); [by apply elem_of_nil in H|]. apply IH in H as (l & -> & Hl).
    exists (c :: l). rewrite <- app_assoc. split; [done|by apply sublist_skip].
Qed.

Lemma selections_NoDup cands selected : NoDup cands -> NoDup (selections cands selected).
Proof.
  intros H. revert selected. induction H as [|c cands Hc _ IH]; intros selected; simpl; [apply NoDup_singleton|].
  destruct (existsb _ _); [rewrite app_nil_r; apply IH|]. apply NoDup_app. split_and!; [apply IH| |apply IH].
  intros sel (l & -> & Hl)%selections_form (l' & E & _)%selections_form. rewrite <- app_assoc in E. apply app_inv_head in E as ->.
  apply Hc. eapply elem_of_sublist; [|exact Hl]. left.
Qed.

Section NarrowPlans.
Context (input : SolveInput) (Hkeys : NoDup (partKey <$> in_parts input)) (Hpins : NoDup (profileKey <$> in_profiles input)).
Context (required : list string) (target : option num).

Lemma parts_NoDup : NoDup (parts input).
Proof using Hkeys.
  unfold parts. rewrite sort_by_perm. eapply sublist_NoDup; [|apply filter_sublist]. by eapply NoDup_fmap_1.
Qed.

Lemma plan_of_shape profile brain source sel plan : plan_of input target profile brain source sel = Some plan ->
  part_versions plan = pin <$> sort_by partKey sel /\ plan_profile plan = (prof_id profile, prof_version profile).
Proof.
  unfold plan_of. destruct (checkParts _ _ _) as [[|]|]; [|done..]. destruct (best_wiring _ _ _ _ _ _) as [[E b]|]; [|done].
  cbv zeta. destruct (isFinite _); [|done]. by intros [= <-].
Qed.

Lemma endpoints_parts profile brain source : endpoints input profile = Some (brain, source) -> brain ∈ parts input /\ source ∈ parts input.
Proof.
  unfold endpoints. destruct (find_brain input profile) as [b|] eqn:Eb; [|done].
  destruct (find_source input profile) as [s|] eqn:Es; [|done].
  apply find_Some_elem in Eb as [Hb _], Es as [Hs _]. case_match; [done|]. by intros [= <- <-].
Qed.

Lemma candidates_sub brain source : candidates input brain source `sublist_of` parts input.
Proof. apply filter_sublist. Qed.

(** No plan is found twice. *)
Lemma profile_plans_NoDup profile : NoDup (profile_plans input required target profile).
Proof using Hkeys.
  unfold profile_plans. destruct (endpoints input profile) as [[brain source]|] eqn:Ee; [|constructor].
  destruct (base_ok _ _ _); [|constructor]. pose proof parts_NoDup as Hn.
  assert (Hc : NoDup (candidates input brain source)) by (eapply sublist_NoDup; [exact Hn|apply candidates_sub]).
  apply NoDup_omap; [by apply selections_NoDup|]. intros sel sel' plan Hs Hs'.
  destruct (covers _ sel); [|done]. destruct (covers _ sel'); [|done]. intros [E _]%plan_of_shape [E' _]%plan_of_shape.
  apply selections_form in Hs as (l & -> & Hl), Hs' as (l' & -> & Hl'). f_equal. apply (sublist_perm_eq (candidates input brain source)); [done..|].
  apply (Permutation_app_inv_l [brain; source]).
  apply endpoints_parts in Ee as [Hb Hs].
  assert (Hin : forall k, k `sublist_of` candidates input brain source -> forall x, x ∈ sort_by partKey ([brain; source] ++ k) -> x ∈ parts input).
  { intros k Hk x. rewrite elem_of_sort_by, elem_of_app, !elem_of_cons, elem_of_nil. intros [[->|[->|[]]]|Hx]; [done..|].
    eapply elem_of_sublist; [exact Hx|]. etransitivity; [exact Hk|apply candidates_sub]. }
  rewrite <- (sort_by_perm partKey ([brain; source] ++ l)), <- (sort_by_perm partKey ([brain; source] ++ l')).
  pose proof (Hin _ Hl) as H1. pose proof (Hin _ Hl') as H2. rewrite E in E'.
  revert H1 H2 E'. generalize (sort_by partKey ([brain; source] ++ l)), (sort_by partKey ([brain; source] ++ l')).
  intros a. induction a as [|x a IH]; intros [|y b] H1 H2 E'; try done. csimpl in E'. injection E' as E1 E2 E3.
  assert (x = y) as ->.
  { apply (part_key_inj input Hkeys); [apply H1; left|apply H2; left|]. unfold partKey, pinKey, pin. simpl. by rewrite E1, E2. }
  constructor. apply IH; [intros; apply H1; by right|intros; apply H2; by right|done].
Qed.

Lemma all_plans_NoDup : NoDup (all_plans input required target).
Proof using Hkeys Hpins.
  apply NoDup_flat_map.
  - unfold profiles. rewrite sort_by_perm. by eapply NoDup_fmap_1.
  - intros p _. apply profile_plans_NoDup.
  - intros p q plan Hp%profile_sub Hq%profile_sub H1 H2. apply (NoDup_fmap_elem profileKey (in_profiles input)); [done..|].
    assert (Hshape : forall r, plan ∈ profile_plans input required target r -> plan_profile plan = (prof_id r, prof_version r)).
    { intros r. unfold profile_plans. destruct (endpoints input r) as [[b s]|]; [|by intros ?%elem_of_nil].
      destruct (base_ok _ _ _); [|by intros ?%elem_of_nil]. intros (sel & _ & E)%list_elem_of_omap.
      destruct (covers _ sel); [|done]. by apply plan_of_shape in E as [_ ?]. }
    apply Hshape in H1, H2. rewrite H1 in H2. injection H2 as E1 E2. unfold profileKey. by rewrite E1, E2.
Qed.

Context (fp : PartDefinition -> bool) (fq : AssemblyProfile -> bool).

(** What a selection costs and gives does not depend on the rest of the catalogue. *)
Lemma narrow_check sel brain : checkParts sel brain (narrow fp fq input) = checkParts sel brain input.
Proof.
  unfold checkParts. generalize (@nil string). generalize sel at 1 3. induction sel as [|p sel IH]; intros all adds; simpl; [done|].
  change (check_part all brain (narrow fp fq input) adds p) with (check_part all brain input adds p).
  destruct (check_part all brain input adds p); [|done]. simpl. by rewrite IH.
Qed.

Lemma narrow_plan_of profile brain source sel :
  plan_of (narrow fp fq input) target profile brain source sel = plan_of input target profile brain source sel.
Proof. unfold plan_of. by rewrite narrow_check. Qed.

Lemma narrow_plans_of profile brain source sels :
  plans_of (narrow fp fq input) required target profile brain source sels = plans_of input required target profile brain source sels.
Proof. unfold plans_of. induction sels as [|sel sels IH]; csimpl; [done|]. by rewrite narrow_plan_of, IH. Qed.

Lemma narrow_plans_sublist : all_plans (narrow fp fq input) required target `sublist_of` all_plans input required target.
Proof using Hkeys.
  unfold all_plans. rewrite narrow_profiles. apply sublist_flat_map; [|apply filter_sublist].
  intros profile. unfold profile_plans at 1. destruct (endpoints (narrow fp fq input) profile) as [[brain source]|] eqn:E; [|apply sublist_nil_l].
  apply narrow_endpoints in E; [|done]. unfold profile_plans. rewrite E.
  change (base_ok (narrow fp fq input)) with (base_ok input). destruct (base_ok input brain source); [|done].
  rewrite narrow_plans_of. apply sublist_omap, selections_sublist. rewrite narrow_candidates. apply filter_sublist.
Qed.

(** A plan whose parts and profile are kept is found again. *)
Lemma narrow_plans_keep plan :
  (forall p, pin p ∈ part_versions plan -> fp p = true) -> (forall q, plan_profile plan = (prof_id q, prof_version q) -> fq q = true) ->
  plan ∈ all_plans input required target -> plan ∈ all_plans (narrow fp fq input) required target.
Proof using Hkeys Hpins.
  intros Hfp Hfq (profile & Hp & H)%elem_of_flat_map. unfold profile_plans in H.
  destruct (endpoints input profile) as [[brain source]|] eqn:Ee; [|by apply elem_of_nil in H].
  destruct (base_ok input brain source) eqn:Eb; [|by apply elem_of_nil in H].
  apply list_elem_of_omap in H as (sel & Hsel & H). destruct (covers required sel) eqn:Ec; [|done].
  pose proof (plan_of_shape _ _ _ _ _ H) as [Hv Hprof].
  assert (Hkept : forall p, p ∈ sel -> fp p = true).
  { intros p Hin. apply Hfp. rewrite Hv. apply list_elem_of_fmap. exists p. by rewrite elem_of_sort_by. }
  assert (Hids : NoDup (part_id <$> [brain; source])).
  { apply endpoints_ids in Ee. csimpl. apply NoDup_cons. split; [set_solver|apply NoDup_singleton]. }
  apply selections_spec in Hsel as (l & -> & Hl & Hd); [|done].
  apply elem_of_flat_map. exists profile. split; [rewrite narrow_profiles; apply elem_of_listfilter; auto|].
  unfold profile_plans. rewrite (narrow_ends fp fq _ _ _ _ Ee) by (apply Hkept; set_solver).
  change (base_ok (narrow fp fq input)) with (base_ok input). rewrite Eb, narrow_plans_of. apply list_elem_of_omap. exists ([brain; source] ++ l). split.
  - apply selections_spec; [done|]. exists l. split_and!; [done| |done]. rewrite narrow_candidates.
    replace l with (List.filter fp l); [|].
    + clear -Hl. induction Hl as [|x l1 l2 _ IH|x l1 l2 _ IH]; simpl; [done|..]; destruct (fp x); [by apply sublist_skip|done|by apply sublist_cons|done].
    + assert (Hall : forall p, p ∈ l -> fp p = true) by (intros p ?; apply Hkept; set_solver). clear -Hall.
      induction l as [|x l IH]; simpl; [done|]. rewrite (Hall x) by left. f_equal. apply IH. intros p ?. apply Hall. by right.
  - rewrite Ec. exact H.
Qed.

(** ** The run *)
Lemma bind_ext {A B} (m m' : M A) (f g : A -> M B) s :
  (forall s, m s = m' s) -> (forall a s, f a s = g a s) -> bind m f s = bind m' g s.
Proof. intros Hm Hf. unfold bind. rewrite Hm. by destruct (m' s) as [[a|e] s']. Qed.

Lemma narrow_visit profile brain source cands selected s :
  visit (narrow fp fq input) required target false profile brain source cands selected s =
  visit input required target false profile brain source cands selected s.
Proof.
  assert (Hc : forall sel s, complete (narrow fp fq input) target profile brain source sel s = complete input target profile brain source sel s).
  { intros sel s'. unfold complete. by rewrite narrow_check. }
  revert selected s. induction cands as [|c cands IH]; intros selected s; cbn [visit]; (apply bind_ext; [done|intros u s1]).
  - destruct (negb _); [done|apply Hc].
  - destruct (negb _); [done|]. apply bind_ext; [intros; apply IH|intros f s2]. destruct (f && false); [done|].
    destruct (negb _); [|done]. apply bind_ext; [intros; apply IH|done].
Qed.

Lemma narrow_profile_none profile :
  endpoints (narrow fp fq input) profile = None ->
  costs input (search_profile (narrow fp fq input) required target false profile) false 1.
Proof.
  intros E. unfold search_profile. apply (costs_bind _ _ _ tt _ 1 0); [exact (costs_step input)|]. rewrite E. apply costs_ret.
Qed.

Lemma search_profile_fewer profile s stop s' :
  search_profile input required target false profile s = (Ok stop, s') ->
  stop = false /\ exists k, steps s' = steps s + k /\
    exists k', k' <= k /\ costs input (search_profile (narrow fp fq input) required target false profile) false k'.
Proof using Hkeys.
  unfold search_profile at 1. intros H. apply bind_Ok in H as (u & s0 & E0%step_one & H).
  destruct (endpoints input profile) as [[brain source]|] eqn:Ee.
  - apply bind_Ok in H as (base & s1 & H1 & H). apply nonnull_Ok in H1 as [Hb <-]. cbv zeta in H.
    destruct (List.filter _ base) as [|f fs] eqn:Ef.
    + apply bind_Ok in H as (f1 & s1 & H1 & H). rewrite andb_false_r in H. apply ret_Ok in H as [<- <-].
      apply visit_fewer in H1 as (k & Hk & Hall). split; [done|]. exists (1 + k). split; [lia|].
      destruct (endpoints (narrow fp fq input) profile) as [[b2 s2]|] eqn:E; [|exists 1; split; [lia|by apply narrow_profile_none]].
      pose proof E as E'. apply narrow_endpoints in E'; [|done]. rewrite Ee in E'. injection E' as <- <-.
      destruct (Hall (candidates (narrow fp fq input) brain source)) as (found & k' & Hk' & HC).
      { rewrite narrow_candidates. apply filter_sublist. }
      exists (1 + (0 + (k' + 0))). split; [lia|]. unfold search_profile. apply (costs_bind _ _ _ tt); [exact (costs_step input)|]. rewrite E, narrow_check, Hb.
      apply (costs_bind _ _ _ base); [apply costs_ret|]. cbv zeta. rewrite Ef. apply (costs_bind _ _ _ found).
      * intros t Ht. destruct (HC t Ht) as (t' & Et & Hs). exists t'. by rewrite narrow_visit.
      * rewrite andb_false_r. apply costs_ret.
    + apply bind_Ok in H as (u1 & s1 & H1 & H). apply ret_Ok in H as [<- <-].
      assert (Hu : uniform input (forM (f :: fs) record)) by (apply uniform_forM; intros; apply uniform_record).
      apply Hu in H1 as (k & Hk & HC). split; [done|]. exists (1 + k). split; [lia|].
      destruct (endpoints (narrow fp fq input) profile) as [[b2 s2]|] eqn:E; [|exists 1; split; [lia|by apply narrow_profile_none]].
      pose proof E as E'. apply narrow_endpoints in E'; [|done]. rewrite Ee in E'. injection E' as <- <-.
      exists (1 + (0 + (k + 0))). split; [lia|]. unfold search_profile. apply (costs_bind _ _ _ tt); [exact (costs_step input)|]. rewrite E, narrow_check, Hb.
      apply (costs_bind _ _ _ base); [apply costs_ret|]. cbv zeta. rewrite Ef. apply (costs_bind _ _ _ u1); [exact HC|apply costs_ret].
  - apply ret_Ok in H as [<- <-]. split; [done|]. exists 1. split; [lia|].
    destruct (endpoints (narrow fp fq input) profile) as [[b2 s2]|] eqn:E; [|exists 1; split; [lia|by apply narrow_profile_none]].
    apply narrow_endpoints in E; [|done]. by rewrite Ee in E.
Qed.

Lemma search_profiles_fewer ps s u s' :
  search_profiles input required target false ps s = (Ok u, s') ->
  exists k, steps s' = steps s + k /\ forall ps', ps' `sublist_of` ps -> exists k', k' <= k /\
    costs input (search_profiles (narrow fp fq input) required target false ps') tt k'.
Proof using Hkeys.
  revert s. induction ps as [|p ps IH]; intros s H; simpl in H.
  - apply ret_Ok in H as [_ <-]. exists 0. split; [lia|]. intros l ->%sublist_nil_r. exists 0. split; [done|apply costs_ret].
  - apply bind_Ok in H as (stop & s1 & H1 & H). apply search_profile_fewer in H1 as (-> & k1 & E1 & k1' & Hk1 & C1).
    apply IH in H as (k2 & E2 & C2). exists (k1 + k2). split; [lia|]. intros l Hl.
    apply sublist_cons_r in Hl as [Hl|(l' & -> & Hl)]; destruct (C2 _ Hl) as (k' & Hk & Ck).
    + exists k'. split; [lia|done].
    + exists (k1' + k'). split; [lia|]. cbn [search_profiles]. by eapply costs_bind.
Qed.
End NarrowPlans.

(** ** The solve *)
Definition life_without_battery (input : SolveInput) : bool :=
  match target_life_days (in_spec input) with
  | Some _ => negb (bool_decide (spec_power_source (in_spec input) = MatcherTypes.battery))
  | None => false
  end.

Lemma solve_run input ps n k : solve_parsed input = Ok (Solved ps n k) <->
  life_without_battery input = false /\ n <> 0 /\ exists s, search input (requirements input) false start = (Ok (ps, n), s) /\ steps s = k.
Proof.
  unfold solve_parsed, spec. fold (life_without_battery input). split.
  - destruct (life_without_battery input); [done|]. intros H. split; [done|].
    destruct (solve_body input start) as [[r|[|]] s] eqn:E; [|done..]. injection H as ->.
    unfold solve_body in E. apply bind_Ok in E as ([qs m] & s1 & H1 & E). simpl in E. destruct (Nat.eqb_spec m 0); simpl in E.
    + repeat (apply bind_Ok in E as (? & ? & ? & E)). done.
    + injection E as <- <- <- _. split; [done|]. by exists s1.
  - intros (-> & Hn & s & H & <-). unfold solve_body, bind at 1. rewrite H. cbn [snd fst]. by destruct (Nat.eqb_spec n 0).
Qed.

Lemma input_keys https_url input : SolveInput_ok https_url input = true ->
  NoDup (partKey <$> in_parts input) /\ NoDup (profileKey <$> in_profiles input).
Proof.
  unfold SolveInput_ok. intros H. bools. destruct (SolveInput_issues input) eqn:E; [|done]. unfold SolveInput_issues in E.
  cbv zeta in E. apply app_eq_nil in E as [E1 E]. apply app_eq_nil in E as [_ E]. apply app_eq_nil in E as [E2 _].
  split; apply all_distinct_true; [by destruct (all_distinct (partKey <$> in_parts input))|].
  by destruct (all_distinct (profileKey <$> in_profiles input)).
Qed.

(** A plan of a solve is a plan of the solve of its own parts and profile, which
    takes no more steps. *)
Lemma narrow_solved https_url input fp fq ps n k plan :
  SolveInput_ok https_url input = true -> solve_parsed input = Ok (Solved ps n k) -> plan ∈ ps ->
  (forall p, pin p ∈ part_versions plan -> fp p = true) -> (forall q, plan_profile plan = (prof_id q, prof_version q) -> fq q = true) ->
  exists ps' n' k', solve_parsed (narrow fp fq input) = Ok (Solved ps' n' k') /\ k' <= k /\ plan ∈ ps'.
Proof.
  intros Hok (Hlife & Hn & s & H & <-)%solve_run Hp Hfp Hfq. destruct (input_keys _ _ Hok) as [Hkeys Hpins].
  pose proof (search_refines _ _ _ _ _ _ _ H) as [Eps En]. cbn [kept] in Eps, En.
  assert (Hmax : steps s <= max_steps input).
  { destruct (within_search input (requirements input) false start) as [Hw _]; [simpl; lia|]. by rewrite H in Hw. }
  unfold search in H. apply bind_Ok in H as (u & s1 & H1 & H). apply bind_Ok in H as (u2 & s2 & H2 & H).
  injection H1 as _ <-. injection H as _ _ <-. eapply (search_profiles_fewer _ Hkeys _ _ fp fq) in H2 as (k & Ek & Hall). simpl in Ek.
  destruct (Hall (profiles (narrow fp fq input))) as (k' & Hk & HC); [rewrite narrow_profiles; apply filter_sublist|].
  destruct (HC (mkSt 0 [] [] 0)) as (t & Et & Hsteps); [simpl; lia|]. simpl in Hsteps.
  assert (Hrun : search (narrow fp fq input) (requirements (narrow fp fq input)) false start = (Ok (MatcherTypes.plans t, count t), t)).
  { unfold search, bind, fresh_search, search_result. simpl.
    change (search_profiles (narrow fp fq input) (required_caps (requirements (narrow fp fq input))) (target_of (narrow fp fq input) (requirements (narrow fp fq input))))
      with (search_profiles (narrow fp fq input) (required_caps (requirements input)) (target_of input (requirements input))).
    by rewrite Et. }
  pose proof (search_refines _ _ _ _ _ _ _ Hrun) as [Et1 Et2]. cbn [kept] in Et1, Et2.
  change (requirements (narrow fp fq input)) with (requirements input) in Et1, Et2.
  change (target_of (narrow fp fq input)) with (target_of input) in Et1, Et2.
  set (L := all_plans input _ _) in *. set (L' := all_plans (narrow fp fq input) _ _) in *.
  assert (HL : Forall plan_ok L) by by eapply all_plans_ok.
  assert (Hsub : L' `sublist_of` L) by by apply narrow_plans_sublist.
  assert (HL' : Forall plan_ok L') by (apply Forall_forall; intros q Hq; rewrite Forall_forall in HL; apply HL; by eapply elem_of_sublist).
  unfold push_all in *. change (max_plans (narrow fp fq input)) with (max_plans input) in Et1.
  rewrite push_all_take in Eps, Et1 by done. subst ps. assert (Hin : plan ∈ L).
  { apply elem_of_take in Hp as (i & Hi%list_elem_of_lookup_2 & _). by apply elem_of_js_sort in Hi. }
  assert (Hin' : plan ∈ L') by by apply narrow_plans_keep.
  exists (MatcherTypes.plans t), (count t), k'. split_and!; [|lia|].
  - apply solve_run. split_and!; [done| |by exists t]. rewrite Et2. by destruct L'; [apply elem_of_nil in Hin'|].
  - rewrite Et1. eapply take_sublist; [| |by apply elem_of_js_sort|exact Hp].
    + unfold sort_plans. rewrite js_sort_perm. by apply all_plans_NoDup.
    + by apply (js_sort_sublist _ _ plan_order).
Qed.
