(* ===== verification/MatcherWitness.v ===== *)
(** * A small catalogue

    A host, a battery, two sensors and a profile: the concrete inputs at which
    the matcher's theorems are exercised. *)
From S2P Require Import Prelude JsString Regex JsNumber Part Semver Assembly MatcherTypes Constraints Solver.
From S2P Require Import SolverSafety PartsSpec WiringSpec MatcherSpec.
#[local] Open Scope string_scope.
#[local] Open Scope list_scope.
#[local] Open Scope nat_scope.
Definition any_url (_ : string) : bool := true.
Definition V (a b : Z) : Range := (of_ratio a 10, of_ratio b 10).

Definition basic_mechanical : PartMechanical :=
  mkMechanical "board.step" (Some (of_Z 20, of_Z 20, of_Z 5)) cradle exp_none [].

Definition the_host : PartDefinition :=
  mkPart None "C-001" "1.0.0" "Host board" communication active None
    (mkElectrical host "usb-c-v1" (V 30 42) None (mkDraw (of_Z 1) (of_Z 40))
       ["power.battery"] [] None (Some (V 33 33)) (Some (mkSupply (V 33 33) (of_Z 500) None)))
    basic_mechanical
    (mkSoftware None None None ["bus.i2c"; "net.wifi"] "^1.0.0")
    (mkCloud None [] [])
    (mkCommerce [mkSupplier adafruit "5000" "https://example.com/host"] (Some (of_Z 10))).

Definition the_battery : PartDefinition :=
  mkPart None "E-001" "1.0.0" "LiPo cell" energy active None
    (mkElectrical power "jst-ph-v1" (V 30 42) None (mkDraw nzero nzero)
       [] [] None None (Some (mkSupply (V 30 42) (of_Z 1000) (Some (of_Z 2000)))))
    basic_mechanical
    (mkSoftware None None None ["power.battery"] "^1.0.0")
    (mkCloud None [] [])
    (mkCommerce [mkSupplier adafruit "258" "https://example.com/lipo"] (Some (of_Z 15))).

(** An I2C sensor with an address, a capability and a price. *)
Definition sensor (id address cap : string) (price : Z) : PartDefinition :=
  mkPart None id "1.0.0" "I2C sensor" physical active None
    (mkElectrical i2c "stemma-qt-v1" (V 30 50) None (mkDraw nzero (of_Z 2))
       ["bus.i2c"] [] (Some address) (Some (V 30 50)) None)
    basic_mechanical
    (mkSoftware (Some "hsx-driver-env") (Some "1.0.0") (Some "hsx/env") [cap] "^1.0.0")
    (mkCloud (Some "env.v1") [stat] [])
    (mkCommerce [mkSupplier adafruit "4632" "https://example.com/env"] (Some (of_Z price))).

Definition temp_sensor := sensor "P-001" "0x44" "read.temp_c" 6.
Definition cheap_temp := sensor "P-002" "0x44" "read.temp_c" 4.
Definition light_sensor := sensor "P-003" "0x29" "read.light_lux" 5.

Definition the_connectors : list ConnectorDefinition :=
  let pins := [mkPin 1 "gnd" role_ground; mkPin 2 "v" role_power] in
  [mkConnector None "usb-c-v1" "1.0.0" "USB C" "usb-c" pins [host] (of_Z 20);
   mkConnector None "jst-ph-v1" "1.0.0" "JST PH" "jst-ph" pins [power] (of_Z 6);
   mkConnector None "stemma-qt-v1" "1.0.0" "STEMMA QT" "jst-sh" pins [i2c] (of_Z 5)].

Definition the_profile : AssemblyProfile :=
  mkProfile "battery-node" "1.0.0" "bench measurement" (mkPartPin "C-001" "1.0.0")
    (mkPartPin "E-001" "1.0.0") "jst-ph-v1" "primary" (of_ratio 9 10) (of_ratio 1 10) (of_ratio 8 10)
    [mkPort "qt" i2c "stemma-qt-v1" rail_brain (of_Z 100) ["i2c0"] 2] [].

Definition request (needed : list string) (catalogue : list PartDefinition) (days : option num) : SolveInput :=
  mkSolveInput (mkSolveSpec needed wifi battery (of_Z 60) days "1.0.0")
    catalogue the_connectors [the_profile]
    [mkCompat "hsx-driver-env" "1.0.0" "1.0.0" "C-001" passed] 1000 3.

(** Two ways to read the temperature. *)
Definition feasible_input : SolveInput :=
  request ["read.temp_c"; "read.light_lux"]
    [the_battery; light_sensor; temp_sensor; the_host; cheap_temp] None.

(** The only two sensors for the request share an I2C address. *)
Definition infeasible_input : SolveInput :=
  request ["read.temp_c"; "read.light_lux"]
    [the_battery; sensor "P-004" "0x44" "read.light_lux" 5; the_host; cheap_temp] (Some (of_Z 1)).

(** ** The matcher's theorems at concrete inputs *)
Lemma solve_steps_bounded_witness : exists r, solve_parsed feasible_input = Ok r /\ result_steps r <= 1000.
Proof.
  destruct (solve_parsed feasible_input) as [r|] eqn:E; [|vm_compute in E; discriminate E].
  exists r. split; [reflexivity|]. exact (proj1 (solve_steps_bounded feasible_input r E)).
Defined.

Lemma solve_never_throws_witness :
  SolveInput_ok any_url infeasible_input = true /\ exists r, solve_parsed infeasible_input = Ok r.
Proof.
  split; [vm_compute; reflexivity|]. apply (solve_never_throws any_url infeasible_input).
  vm_compute; reflexivity.
Defined.

Definition solved_plans (r : result exn SolveResult) : list BuildPlan :=
  match r with Ok (Solved ps _ _) => ps | _ => [] end.
Definition diagnosis (r : result exn SolveResult) : list Failure * string :=
  match r with Ok (Infeasible _ ds ex _) => (ds, ex) | _ => ([], "") end.

(** The fixture has two plans; both meet the request. *)
Lemma solve_sound_witness :
  exists ps k, solve_parsed feasible_input = Ok (Solved ps 2 k) /\
    forall p, p ∈ ps -> exists a, meets_request feasible_input a /\
      least_draw feasible_input (target_life_days (in_spec feasible_input)) a /\ p = asm_plan feasible_input a.
Proof.
  assert (E : solve_parsed feasible_input = Ok (Solved (solved_plans (solve_parsed feasible_input)) 2 20))
    by (vm_compute; reflexivity).
  exists (solved_plans (solve_parsed feasible_input)), 20. split; [exact E|].
  apply (solve_sound any_url feasible_input _ 2 20); [vm_compute; reflexivity|exact E].
Defined.

Lemma solve_ranked_witness :
  exists ps k, solve_parsed feasible_input = Ok (Solved ps 2 k) /\
    StronglySorted (fun p q => plan_gt p q = false) ps /\ length ps = 2.
Proof.
  assert (E : solve_parsed feasible_input = Ok (Solved (solved_plans (solve_parsed feasible_input)) 2 20))
    by (vm_compute; reflexivity).
  exists (solved_plans (solve_parsed feasible_input)), 20. split; [exact E|].
  destruct (solve_ranked any_url feasible_input _ 2 20 ltac:(vm_compute; reflexivity) E) as (H1 & H2 & _).
  split; [exact H1|exact H2].
Defined.

(** The two capabilities conflict, and neither does alone. *)
Lemma solve_conflict_minimal_witness :
  exists ds ex k, let C := ["capability:read.light_lux"; "capability:read.temp_c"] in
    solve_parsed infeasible_input = Ok (Infeasible C ds ex k) /\
    ~ buildable infeasible_input C /\ (forall r, r ∈ C -> buildable infeasible_input (without r C)).
Proof.
  assert (E : solve_parsed infeasible_input =
    Ok (Infeasible ["capability:read.light_lux"; "capability:read.temp_c"]
         (diagnosis (solve_parsed infeasible_input)).1 (diagnosis (solve_parsed infeasible_input)).2 32))
    by (vm_compute; reflexivity).
  exists (diagnosis (solve_parsed infeasible_input)).1, (diagnosis (solve_parsed infeasible_input)).2, 32.
  cbv zeta. split; [exact E|].
  destruct (solve_conflict_minimal any_url infeasible_input _ _ _ 32 ltac:(vm_compute; reflexivity) E) as (_ & _ & H1 & H2).
  split; [exact H1|exact H2].
Defined.
