(* ===== verification/RegistryPower.v ===== *)
(** * Power paths of the golden builds ([registry/scripts/lib/power.ts])

    [checkPowerPath] looks for one voltage-compatible way to power a build. It is
    proved sound and complete against a declarative power path, and independent
    of the order of the registry's files. *)
From S2P Require Import Prelude JsString Regex JsNumber JsNumberFacts Part.
#[local] Open Scope string_scope.
#[local] Open Scope list_scope.
#[local] Open Scope nat_scope.

(** ** Golden builds ([golden-builds.ts]) *)
Record GoldenBuild := mkGolden {
  gb_id : string;
  gb_name : string;
  gb_requires : list string;
  gb_optional : list string;
  gb_supply : string;
  gb_brain_input : string
}.

Definition GOLDEN_BUILDS : list GoldenBuild := [
  mkGolden "fridge-monitor" "Fridge monitor"
    ["read.temperature_c"; "read.humidity_pct"; "net.wifi"; "power.battery"]
    ["read.acceleration_g"; "power.charge"] "power.battery" "5v-pin";
  mkGolden "presence-alert" "Presence alert"
    ["read.motion_bool"; "net.wifi"; "power.5v"]
    ["read.distance_cm"; "read.illuminance_lux"] "power.5v" "primary";
  mkGolden "plant-waterer" "Plant waterer"
    ["read.soil_moisture_pct"; "act.position_deg"; "net.wifi"; "power.5v"]
    ["read.illuminance_lux"] "power.5v" "primary"].

(** ** Assignments *)
Record PoweredPeripheral := mkPowered {
  pw_capability : string;
  pw_part : string;
  pw_rail : string;
  pw_window : Range
}.
Record PowerAssignment := mkPowerAssignment {
  pa_supply : string;
  pa_brain : string;
  pa_brain_input : string;
  pa_window : Range;
  pa_peripherals : list PoweredPeripheral
}.
Inductive PowerCheck :=
| PowerOk (assignment : PowerAssignment)
| PowerFail (problems : list string).

Definition byId (l : list PartDefinition) : list PartDefinition := sort_by part_id l.
Definition volts (w : Range) : string := (show_num w.1 ++ "–" ++ show_num w.2 ++ " V")%string.

Definition provides (c : string) (p : PartDefinition) : bool := inb c (capabilities (software p)).
Definition is_host (p : PartDefinition) : bool := bool_decide (interface (electrical p) = host).

Section Check.
Context (build : GoldenBuild) (parts : list PartDefinition).

Definition supplies : list (PartDefinition * Range) :=
  sort_by (fun s => part_id s.1)
    (List.flat_map (fun p => match supply (electrical p) with Some s => [(p, output_v s)] | None => [] end)
      (List.filter (provides (gb_supply build)) parts)).

Definition brains : list PartDefinition := byId (List.filter is_host parts).

Definition needs : list string := List.filter isValueCapability (gb_requires build).

(** The input of [brain] the build names. *)
Definition named_input (brain : PartDefinition) : option Range :=
  if gb_brain_input build ==s "primary" then Some (voltage_range (electrical brain))
  else match alt_inputs (electrical brain) with
       | Some l => pi_voltage_range <$> List.find (fun i => pi_name i ==s gb_brain_input build) l
       | None => None
       end.

Section Pair.
Context (sup : PartDefinition) (output : Range) (brain : PartDefinition).

Definition from_supply (p : PartDefinition) : bool := inb "power.5v" (requires (electrical p)).

Definition rail_of (p : PartDefinition) : option Range :=
  if from_supply p then (if provides "power.5v" sup then Some output else None)
  else output_v <$> supply (electrical brain).

Definition powered (capability : string) (p : PartDefinition) : list PoweredPeripheral :=
  match rail_of p with
  | Some rail =>
      match usableWindow rail (voltage_range (electrical p)) with
      | Some w => [mkPowered capability (part_id p)
                     (if from_supply p then part_id sup else part_id brain ++ " rail")%string w]
      | None => []
      end
  | None => []
  end.

(** The loop over the needs: the peripherals found, whether all were, the
    problems. A need no part provides is skipped. *)
Fixpoint power_needs (ns : list string) : list PoweredPeripheral * bool * list string :=
  match ns with
  | [] => ([], true, [])
  | c :: ns =>
      let '(found, complete, problems) := power_needs ns in
      match byId (List.filter (provides c) parts) with
      | [] => (found, complete, problems)
      | cands =>
          match List.flat_map (powered c) cands with
          | x :: _ => (x :: found, complete, problems)
          | [] => (found, false,
                   ("no part providing " ++ c ++ " runs from " ++ part_id sup ++ " or " ++ part_id brain ++
                    "'s rail")%string :: problems)
          end
      end
  end.

(** One turn of the inner loop: an assignment, or the problems it adds. *)
Definition try_pair : result (list string) PowerAssignment :=
  match named_input brain with
  | None => Err [(part_id brain ++ " has no " ++ quote ++ gb_brain_input build ++ quote ++ " input")%string]
  | Some input =>
      match usableWindow output input with
      | None => Err [(part_id sup ++ " (" ++ volts output ++ ") can't feed " ++ part_id brain ++ " " ++
                      gb_brain_input build ++ " (" ++ volts input ++ ")")%string]
      | Some win =>
          let '(found, complete, problems) := power_needs needs in
          if complete then Ok (mkPowerAssignment (part_id sup) (part_id brain) (gb_brain_input build) win found)
          else Err problems
      end
  end.
End Pair.

Fixpoint try_pairs (pairs : list (PartDefinition * Range * PartDefinition)) (problems : list string) : PowerCheck :=
  match pairs with
  | [] => PowerFail (uniq problems)
  | (sup, output, brain) :: pairs =>
      match try_pair sup output brain with
      | Ok a => PowerOk a
      | Err ps => try_pairs pairs (problems ++ ps)
      end
  end.

Definition checkPowerPath : PowerCheck :=
  let problems :=
    when (Nat.eqb (length supplies) 0) ("no part supplies " ++ gb_supply build)%string ++
    when (Nat.eqb (length brains) 0) "no host part" in
  try_pairs (List.flat_map (fun s => (fun b => (s.1, s.2, b)) <$> brains) supplies) problems.
End Check.

(** ** The specification *)

(** Voltages in the window are those both ranges allow; there is none when the
    source can exceed the input, or never reaches it. *)
Lemma usableWindow_Some source input w :
  usableWindow source input = Some w ->
  nlt input.2 source.2 = false /\ w = (nmax source.1 input.1, source.2) /\ nle w.1 w.2 = true.
Proof.
  unfold usableWindow. destruct (nlt input.2 source.2); [done|]. cbv zeta.
  destruct (nle _ source.2) eqn:E; [|done]. by intros [= <-].
Qed.

Section Spec.
Context (build : GoldenBuild) (parts : list PartDefinition).

(** [x] says how [p] is powered, given who supplies and who hosts. *)
Definition powers (sup : PartDefinition) (output : Range) (brain : PartDefinition) (c : string)
    (x : PoweredPeripheral) : Prop :=
  exists p rail w, p ∈ parts /\ c ∈ capabilities (software p) /\
    rail_of sup output brain p = Some rail /\ usableWindow rail (voltage_range (electrical p)) = Some w /\
    x = mkPowered c (part_id p) (if from_supply p then part_id sup else part_id brain ++ " rail")%string w.

(** The needs some part provides, in the order the build lists them. *)
Definition provided_needs : list string :=
  List.filter (fun c => existsb (provides c) parts) (needs build).

Record valid_assignment (a : PowerAssignment) : Prop := {
  va_path : exists sup s brain input, sup ∈ parts /\ brain ∈ parts /\
    gb_supply build ∈ capabilities (software sup) /\ supply (electrical sup) = Some s /\
    interface (electrical brain) = host /\ named_input build brain = Some input /\
    usableWindow (output_v s) input = Some (pa_window a) /\
    pa_supply a = part_id sup /\ pa_brain a = part_id brain /\ pa_brain_input a = gb_brain_input build /\
    Forall2 (powers sup (output_v s) brain) provided_needs (pa_peripherals a)
}.

Lemma elem_of_byId p l : p ∈ byId l <-> p ∈ l.
Proof. apply elem_of_sort_by. Qed.

Lemma elem_of_supplies p o :
  (p, o) ∈ supplies build parts <->
  p ∈ parts /\ gb_supply build ∈ capabilities (software p) /\
  exists s, supply (electrical p) = Some s /\ o = output_v s.
Proof.
  unfold supplies. rewrite elem_of_sort_by, elem_of_flat_map.
  setoid_rewrite elem_of_listfilter. unfold provides. setoid_rewrite inb_true. split.
  - intros (q & [Hq Hc] & H). destruct (supply (electrical q)) as [s|] eqn:E; [|by apply elem_of_nil in H].
    apply list_elem_of_singleton in H. injection H as -> ->. eauto.
  - intros (Hp & Hc & s & Hs & ->). exists p. split; [done|]. rewrite Hs. left.
Qed.

Lemma elem_of_brains b : b ∈ brains parts <-> b ∈ parts /\ interface (electrical b) = host.
Proof.
  unfold brains, is_host. rewrite elem_of_byId, elem_of_listfilter. by rewrite bool_decide_eq_true.
Qed.

Lemma elem_of_powered sup o b c p x :
  x ∈ powered sup o b c p <->
  exists rail w, rail_of sup o b p = Some rail /\ usableWindow rail (voltage_range (electrical p)) = Some w /\
    x = mkPowered c (part_id p) (if from_supply p then part_id sup else part_id b ++ " rail")%string w.
Proof.
  unfold powered. destruct (rail_of sup o b p) as [r|]; [|split; [by intros ?%elem_of_nil|by intros (? & ? & ? & _)]].
  destruct (usableWindow r _) as [w|] eqn:Ew.
  - rewrite list_elem_of_singleton. split; [intros ->; eauto|]. intros (? & ? & [= <-] & Hw & ->).
    by simplify_eq.
  - split; [by intros ?%elem_of_nil|]. intros (? & ? & [= <-] & Hw & _). congruence.
Qed.

Lemma head_candidate sup o b c :
  match List.flat_map (powered sup o b c) (byId (List.filter (provides c) parts)) with
  | [] => forall x, ~ powers sup o b c x
  | x :: _ => powers sup o b c x
  end.
Proof.
  assert (H : forall x, x ∈ List.flat_map (powered sup o b c) (byId (List.filter (provides c) parts)) <->
    powers sup o b c x).
  { intros x. rewrite elem_of_flat_map. unfold powers, provides.
    setoid_rewrite elem_of_byId. setoid_rewrite elem_of_listfilter. setoid_rewrite inb_true.
    setoid_rewrite elem_of_powered. naive_solver. }
  destruct (List.flat_map _ _) as [|x l].
  - intros x Hx. apply H in Hx. by apply elem_of_nil in Hx.
  - apply H. left.
Qed.

Lemma byId_nil c : byId (List.filter (provides c) parts) = [] <-> existsb (provides c) parts = false.
Proof.
  rewrite existsb_elem_false. split.
  - intros E p Hp. apply not_true_iff_false. intros Hc.
    assert (p ∈ byId (List.filter (provides c) parts)) as Hin by (by apply elem_of_byId, elem_of_listfilter).
    rewrite E in Hin. by apply elem_of_nil in Hin.
  - intros H. destruct (byId _) as [|p l] eqn:E; [done|].
    assert (p ∈ byId (List.filter (provides c) parts)) as Hin by (rewrite E; left).
    apply elem_of_byId, elem_of_listfilter in Hin as [Hp Hc]. rewrite H in Hc; done.
Qed.

Lemma power_needs_spec sup o b ns :
  let r := power_needs parts sup o b ns in
  let ns' := List.filter (fun c => existsb (provides c) parts) ns in
  if r.1.2 then Forall2 (powers sup o b) ns' r.1.1 else exists c, c ∈ ns' /\ forall x, ~ powers sup o b c x.
Proof.
  induction ns as [|c ns IH]; simpl; [constructor|].
  destruct (power_needs parts sup o b ns) as [[found complete] problems]. simpl in IH.
  destruct (existsb (provides c) parts) eqn:Ec.
  - destruct (byId _) as [|q l] eqn:Eb.
    + apply byId_nil in Eb. congruence.
    + pose proof (head_candidate sup o b c) as Hh. rewrite Eb in Hh. simpl in Hh.
      destruct (powered sup o b c q ++ _) as [|x xs]; simpl.
      * exists c. split; [left|done].
      * destruct complete; [by constructor|]. destruct IH as (d & Hd & Hn). exists d. split; [by right|done].
  - apply byId_nil in Ec. rewrite Ec. done.
Qed.

Lemma try_pair_Ok sup s b a :
  sup ∈ parts -> b ∈ parts -> gb_supply build ∈ capabilities (software sup) ->
  supply (electrical sup) = Some s -> interface (electrical b) = host ->
  try_pair build parts sup (output_v s) b = Ok a -> valid_assignment a.
Proof.
  intros Hs Hb Hc Hsup Hh. unfold try_pair. destruct (named_input build b) as [input|] eqn:Ei; [|done].
  destruct (usableWindow _ input) as [w|] eqn:Ew; [|done].
  pose proof (power_needs_spec sup (output_v s) b (needs build)) as Hp.
  destruct (power_needs _ _ _ _ _) as [[found complete] problems]. destruct complete; [|done].
  intros [= <-]. split. by exists sup, s, b, input.
Qed.

Lemma try_pair_Err sup s b ps a :
  valid_assignment a -> try_pair build parts sup (output_v s) b = Err ps ->
  ~ exists input, named_input build b = Some input /\ usableWindow (output_v s) input = Some (pa_window a) /\
      Forall2 (powers sup (output_v s) b) provided_needs (pa_peripherals a).
Proof.
  intros _ H (input & Hi & Hw & Hf). unfold try_pair in H. rewrite Hi, Hw in H.
  pose proof (power_needs_spec sup (output_v s) b (needs build)) as Hp.
  destruct (power_needs _ _ _ _ _) as [[found complete] problems]. destruct complete; [done|].
  simpl in Hp. destruct Hp as (c & Hc & Hn). fold provided_needs in Hc.
  apply list_elem_of_lookup in Hc as [i Hi']. destruct (Forall2_lookup_l _ _ _ _ _ Hf Hi') as (x & _ & Hx).
  by apply (Hn x).
Qed.

Lemma try_pairs_spec pairs problems :
  match try_pairs build parts pairs problems with
  | PowerOk a => exists t, t ∈ pairs /\ try_pair build parts t.1.1 t.1.2 t.2 = Ok a
  | PowerFail _ => forall t, t ∈ pairs -> exists ps, try_pair build parts t.1.1 t.1.2 t.2 = Err ps
  end.
Proof.
  revert problems. induction pairs as [|[[s o] b] pairs IH]; intros problems; simpl; [by intros t ?%elem_of_nil|].
  destruct (try_pair build parts s o b) as [a|ps] eqn:E.
  - exists (s, o, b). split; [left|done].
  - specialize (IH (problems ++ ps)). destruct (try_pairs _ _ _ _).
    + destruct IH as (t & Ht & H). exists t. split; [by right|done].
    + intros t [->|Ht]%elem_of_cons; [by exists ps|by apply IH].
Qed.

Lemma elem_of_pairs t :
  t ∈ List.flat_map (fun s => (fun b => (s.1, s.2, b)) <$> brains parts) (supplies build parts) <->
  (t.1.1, t.1.2) ∈ supplies build parts /\ t.2 ∈ brains parts.
Proof.
  rewrite elem_of_flat_map. setoid_rewrite list_elem_of_fmap. destruct t as [[s o] b]. simpl. split.
  - intros ([s' o'] & Hs & b' & E & Hb). simpl in E. by simplify_eq.
  - intros [Hs Hb]. exists (s, o). split; [done|]. by exists b.
Qed.
End Spec.

Lemma checkPowerPath_spec build parts :
  match checkPowerPath build parts with
  | PowerOk a => valid_assignment build parts a
  | PowerFail _ => forall a, ~ valid_assignment build parts a
  end.
Proof.
  unfold checkPowerPath. cbv zeta.
  match goal with |- context [try_pairs _ _ ?ps ?pr] => pose proof (try_pairs_spec build parts ps pr) as H end.
  destruct (try_pairs _ _ _ _) as [a|ps].
  - destruct H as (t & Ht & H). apply elem_of_pairs in Ht as [Hs Hb].
    apply elem_of_supplies in Hs as (Hs & Hc & s & Hsup & E). apply elem_of_brains in Hb as [Hb Hh].
    rewrite E in H. exact (try_pair_Ok _ _ _ _ _ _ Hs Hb Hc Hsup Hh H).
  - intros a Ha. pose proof Ha as [(sup & s & b & input & Hs & Hb & Hc & Hsup & Hh & Hi & Hw & _ & _ & _ & Hf)].
    destruct (H (sup, output_v s, b)) as [qs E].
    { apply elem_of_pairs. split; [apply elem_of_supplies; simpl; eauto|by apply elem_of_brains]. }
    simpl in E. eapply try_pair_Err; [exact Ha|exact E|eauto].
Qed.

(** [checkPowerPath] answers exactly when a build can be powered: what it
    returns is a voltage-compatible assignment that powers every needed reading
    and command some part provides, and it fails only when there is none. *)
Theorem checkPowerPath_correct build parts :
  match checkPowerPath build parts with
  | PowerOk a => valid_assignment build parts a
  | PowerFail _ => forall a, ~ valid_assignment build parts a
  end.
Proof. apply checkPowerPath_spec. Qed.

(** ** Independence of the files' order *)
Lemma byId_perm f (l1 l2 : list PartDefinition) :
  NoDup (part_id <$> l1) -> l1 ≡ₚ l2 -> byId (List.filter f l1) = byId (List.filter f l2).
Proof.
  intros Hd Hp. apply sort_by_perm_invariant.
  - eapply sublist_NoDup; [exact Hd|]. clear. induction l1 as [|x l IH]; simpl; [constructor|].
    destruct (f x); csimpl; [by apply sublist_skip|by apply sublist_cons].
  - by apply listfilter_perm.
Qed.

Lemma power_needs_perm parts1 parts2 sup o b ns :
  NoDup (part_id <$> parts1) -> parts1 ≡ₚ parts2 ->
  power_needs parts1 sup o b ns = power_needs parts2 sup o b ns.
Proof.
  intros Hd Hp. induction ns as [|c ns IH]; simpl; [done|]. by rewrite IH, (byId_perm _ _ _ Hd Hp).
Qed.

Lemma supplies_perm build parts1 parts2 :
  NoDup (part_id <$> parts1) -> parts1 ≡ₚ parts2 -> supplies build parts1 = supplies build parts2.
Proof.
  intros Hd Hp. apply sort_by_perm_invariant.
  - eapply sublist_NoDup; [exact Hd|]. clear.
    induction parts1 as [|x l IH]; simpl; [constructor|]. destruct (provides _ x); simpl; [|by apply sublist_cons].
    destruct (supply (electrical x)); simpl; [by apply sublist_skip|by apply sublist_cons].
  - by apply Permutation_flat_map, listfilter_perm.
Qed.

(** The answer does not depend on the order of the parts. *)
Theorem checkPowerPath_order_independent build parts1 parts2 :
  NoDup (part_id <$> parts1) -> parts1 ≡ₚ parts2 ->
  checkPowerPath build parts1 = checkPowerPath build parts2.
Proof.
  intros Hd Hp. unfold checkPowerPath, brains.
  rewrite (supplies_perm _ _ _ Hd Hp), (byId_perm _ _ _ Hd Hp). cbv zeta.
  match goal with |- try_pairs _ _ ?ps ?pr = _ => generalize pr; generalize ps end.
  intros pairs. induction pairs as [|[[s o] b] pairs IH]; intros problems; simpl; [done|].
  unfold try_pair. rewrite (power_needs_perm _ _ s o b (needs build) Hd Hp).
  destruct (named_input build b); [|apply IH]. destruct (usableWindow _ _); [|apply IH].
  destruct (power_needs _ _ _ _ _) as [[? [|]] ?]; [done|apply IH].
Qed.
