(* ===== verification/Rules.v ===== *)
(** * The registry's rules ([registry/scripts/lib/rules.ts])

    [validateRegistry] parses every file and reports each rule that is broken.
    The schema library's [safeParse] of each schema is a parameter. *)
From S2P Require Import Prelude JsString Regex JsNumber Part Assembly RegistryPower.
#[local] Open Scope string_scope.
#[local] Open Scope list_scope.
#[local] Open Scope nat_scope.

Record I2cSharedEntry := mkShared { sh_address : string; sh_parts : list string; sh_note : string }.
Definition I2cSharedEntry_ok (e : I2cSharedEntry) : bool :=
  I2cAddress (sh_address e) && (2 <=? length (sh_parts e)) && forallb PartId (sh_parts e) &&
  (1 <=? String.length (sh_note e)).

Record KnownIssue := mkKnown { ki_parts : string * string; ki_note : string }.
Definition KnownIssue_ok (k : KnownIssue) : bool :=
  PartId (ki_parts k).1 && PartId (ki_parts k).2 && (1 <=? String.length (ki_note k)).

Inductive RuleId :=
| rule_json | rule_schema | folder_id | connector_name | duplicate_version | footprint | connector_unknown
| connector_interface | successor_unknown | conflict_unknown | requires_unprovided | capability_unit
| i2c_clash | logic_level | golden_build | power_path.

Definition show_rule (r : RuleId) : string :=
  match r with
  | rule_json => "json" | rule_schema => "schema" | folder_id => "folder-id"
  | connector_name => "connector-name" | duplicate_version => "duplicate-version" | footprint => "footprint"
  | connector_unknown => "connector-unknown" | connector_interface => "connector-interface"
  | successor_unknown => "successor-unknown" | conflict_unknown => "conflict-unknown"
  | requires_unprovided => "requires-unprovided" | capability_unit => "capability-unit"
  | i2c_clash => "i2c-clash" | logic_level => "logic-level" | golden_build => "golden-build"
  | power_path => "power-path"
  end.

Record RegistryIssue := mkRegistryIssue { ri_rule : RuleId; ri_file : string; ri_message : string }.

(** Parts the matcher may still pick, or that other parts may still lean on. *)
Definition LIVE (s : PartStatus) : bool := bool_decide (s = draft) || bool_decide (s = active).

Definition quoted (s : string) : string := (quote ++ s ++ quote)%string.

Section Files.
Context {unknown : Type}.

Record RawFile := mkRaw {
  rf_path : string;
  rf_name : string;
  rf_data : unknown;
  rf_parseError : option string
}.

(** What a schema accepts, or the issues it reports. *)
Definition schema (T : Type) : Type := unknown -> result (list Issue) T.

Definition parseFile {T} (file : RawFile) (sch : schema T) : option T * list RegistryIssue :=
  match rf_parseError file with
  | Some e => (None, [mkRegistryIssue rule_json (rf_path file) ("not valid JSON: " ++ e)%string])
  | None =>
      match sch (rf_data file) with
      | Ok v => (Some v, [])
      | Err iss => (None, (fun i =>
          let where_ := if 0 <? length (issue_path i) then join "." (issue_path i) else "(root)" in
          mkRegistryIssue rule_schema (rf_path file) (where_ ++ ": " ++ issue_message i)%string) <$> iss)
      end
  end.

Record RegistryInput := mkRegistry {
  reg_parts : list RawFile;
  reg_connectors : list RawFile;
  reg_i2cShared : RawFile;
  reg_knownIssues : RawFile;
  footprintExists : string -> string -> bool;
  goldenBuilds : list GoldenBuild
}.
Record RegistryResult := mkRegistryResult {
  rr_issues : list RegistryIssue;
  rr_parts : list (RawFile * PartDefinition);
  rr_connectors : list ConnectorDefinition
}.

Context (connectorSchema : schema ConnectorDefinition) (partSchema : schema PartDefinition)
        (sharedSchema : schema (list I2cSharedEntry)) (knownSchema : schema (list KnownIssue)).

(** The first loop: the connectors, in file order. *)
Fixpoint load_connectors (files : list RawFile) : list ConnectorDefinition * list RegistryIssue :=
  match files with
  | [] => ([], [])
  | file :: files =>
      let '(connector, issues) := parseFile file connectorSchema in
      let '(rest, more) := load_connectors files in
      match connector with
      | None => (rest, issues ++ more)
      | Some c =>
          (c :: rest,
           issues ++
           when (negb (con_id c ==s rf_name file))
             (mkRegistryIssue connector_name (rf_path file)
                ("id " ++ quoted (con_id c) ++ " must match the file name " ++
                 quoted (rf_name file ++ ".json"))%string) ++ more)
      end
  end.

(** [new Map(connectors.map((c) => [c.id, c]))] *)
Definition connectorsById (connectors : list ConnectorDefinition) : list (string * ConnectorDefinition) :=
  fold_left (fun m c => map_set (con_id c) c m) connectors [].

Section Parts.
Context (input : RegistryInput) (byId : list (string * ConnectorDefinition)).

(** The rules about one part alone. *)
Definition part_issues (seen : list (string * string)) (file : RawFile) (part : PartDefinition)
    : list RegistryIssue :=
  let issue r m := mkRegistryIssue r (rf_path file) m in
  when (negb (part_id part ==s rf_name file))
    (issue folder_id ("id " ++ quoted (part_id part) ++ " must match its folder " ++
                      quoted ("parts/" ++ rf_name file))%string) ++
  match map_get (partKey part) seen with
  | Some first => [issue duplicate_version (partKey part ++ " is already defined in " ++ first)%string]
  | None => []
  end ++
  when ((bool_decide (status part = active) || bool_decide (status part = deprecated)) &&
        negb (footprintExists input (rf_name file) (footprint_file (mechanical part))))
    (issue footprint ("status " ++ quoted (show_status (status part)) ++ " needs parts/" ++ rf_name file ++ "/" ++
       footprint_file (mechanical part) ++ " to exist; keep the part a draft until it does")%string) ++
  match map_get (connector (electrical part)) byId with
  | None => [issue connector_unknown ("connector " ++ quoted (connector (electrical part)) ++
                                      " has no file in connectors/")%string]
  | Some c =>
      when (negb (inb (interface (electrical part)) (con_interfaces c)))
        (issue connector_interface ("connector " ++ quoted (con_id c) ++ " doesn't carry interface " ++
           quoted (show_interface (interface (electrical part))) ++ " (it carries " ++
           join ", " (show_interface <$> con_interfaces c) ++ ")")%string)
  end ++
  List.flat_map (fun cap =>
    match capabilityUnit cap with
    | UnitUndefined => [issue capability_unit ("capability " ++ quoted cap ++
        " needs a unit suffix (_c, _pct, …; see scripts/lib/units.ts)")%string]
    | _ => []
    end) (capabilities (software part)).

Fixpoint load_parts (seen : list (string * string)) (files : list RawFile)
    : list (RawFile * PartDefinition) * list RegistryIssue :=
  match files with
  | [] => ([], [])
  | file :: files =>
      let '(part, issues) := parseFile file partSchema in
      match part with
      | None => let '(rest, more) := load_parts seen files in (rest, issues ++ more)
      | Some p =>
          let seen' := match map_get (partKey p) seen with
                       | Some _ => seen
                       | None => map_set (partKey p) (rf_path file) seen
                       end in
          let '(rest, more) := load_parts seen' files in
          ((file, p) :: rest, issues ++ part_issues seen file p ++ more)
      end
  end.
End Parts.

(** ** Rules across parts *)
Section Across.
Context (parts : list (RawFile * PartDefinition)).

Definition live : list (RawFile * PartDefinition) := List.filter (fun fp => LIVE (status fp.2)) parts.

Definition knownIds : list string := (fun fp => part_id fp.2) <$> parts.

(** capability to the ids that provide it *)
Definition provide (m : list (string * list string)) (part : PartDefinition) : list (string * list string) :=
  fold_left (fun m cap => map_set cap (default [] (map_get cap m) ++ [part_id part]) m)
    (capabilities (software part)) m.
Definition provided : list (string * list string) := fold_left provide (snd <$> live) [].

Definition reference_issues : list RegistryIssue :=
  List.flat_map (fun '(file, part) =>
    let issue r m := mkRegistryIssue r (rf_path file) m in
    match successor part with
    | Some s => when (negb (inb s knownIds))
        (issue successor_unknown ("successor " ++ quoted s ++ " is not a part in the registry")%string)
    | None => []
    end ++
    List.flat_map (fun id => when (negb (inb id knownIds))
      (issue conflict_unknown ("conflicts lists " ++ quoted id ++ ", which is not a part in the registry")%string))
      (conflicts (electrical part)) ++
    (if LIVE (status part) then
       List.flat_map (fun need => when (negb (map_has need provided))
         (issue requires_unprovided ("requires " ++ quoted need ++ ", which no draft or active part provides")%string))
         (requires (electrical part))
     else [])) parts.

(** address to the distinct ids that default to it *)
Definition at_address (m : list (string * list string)) (part : PartDefinition) : list (string * list string) :=
  match i2c_address (electrical part) with
  | None => m
  | Some address =>
      let ids := default [] (map_get address m) in
      map_set address (if inb (part_id part) ids then ids else ids ++ [part_id part]) m
  end.
Definition byAddress : list (string * list string) := fold_left at_address (snd <$> live) [].

Definition i2c_issues (file : RawFile) (shared : list I2cSharedEntry) : list RegistryIssue :=
  let issue m := mkRegistryIssue i2c_clash (rf_path file) m in
  List.flat_map (fun '(address, ids) =>
    if length ids <? 2 then []
    else when (negb (existsb (fun e => (sh_address e ==s address) && forallb (fun id => inb id (sh_parts e)) ids) shared))
      (issue (join ", " ids ++ " all default to I2C address " ++ address ++
              "; add an entry saying why that's safe, or change one part")%string)) byAddress ++
  List.flat_map (fun e =>
    let ids := default [] (map_get (sh_address e) byAddress) in
    when (negb (forallb (fun id => inb id ids) (sh_parts e)))
      (issue ("entry for " ++ sh_address e ++ " lists " ++ join ", " (sh_parts e) ++
              ", but they don't all default to that address any more")%string)) shared.

(** The live hosts, with the IO voltage they drive. *)
Definition hosts : list (string * num) :=
  List.flat_map (fun fp =>
    match logic_v (electrical fp.2) with
    | Some v => when (bool_decide (interface (electrical fp.2) = host)) (part_id fp.2, v.1)
    | None => []
    end) live.

Definition tolerates (range : Range) (io : num) : bool := nle range.1 io && nle io range.2.

(** The live peripherals, with their logic range. *)
Definition signal_ranges : list (RawFile * string * Range) :=
  List.flat_map (fun fp =>
    match logic_v (electrical fp.2) with
    | Some v => when (negb (bool_decide (interface (electrical fp.2) = host))) (fp.1, part_id fp.2, v)
    | None => []
    end) live.

Definition mismatched : list string :=
  List.flat_map (fun '(file, id, range) =>
    List.flat_map (fun h => when (negb (tolerates range h.2)) (id ++ "|" ++ h.1)%string) hosts) signal_ranges.

Definition logic_issues (file : RawFile) (known : list KnownIssue) : list RegistryIssue :=
  List.flat_map (fun '(f, id, range) =>
    List.flat_map (fun h =>
      if tolerates range h.2 then []
      else when (negb (existsb (fun k => ((ki_parts k).1 ==s id) && ((ki_parts k).2 ==s h.1)) known))
        (mkRegistryIssue logic_level (rf_path f)
          ("signal lines work at " ++ show_num range.1 ++ "–" ++ show_num range.2 ++ " V, but " ++ h.1 ++
           " drives " ++ show_num h.2 ++
           " V IO; change the part, or record the level shifting a build needs in known-issues.json")%string))
      hosts) signal_ranges ++
  List.flat_map (fun k =>
    when (negb (inb ((ki_parts k).1 ++ "|" ++ (ki_parts k).2)%string mismatched))
      (mkRegistryIssue logic_level (rf_path file)
        ("entry for " ++ (ki_parts k).1 ++ " and " ++ (ki_parts k).2 ++
         " doesn't match a logic-level mismatch any more; remove it")%string)) known.

Definition golden_issues (builds : list GoldenBuild) : list RegistryIssue :=
  List.flat_map (fun build =>
    List.flat_map (fun cap => when (negb (map_has cap provided))
      (mkRegistryIssue golden_build "scripts/golden-builds.ts"
        (gb_name build ++ " needs " ++ quoted cap ++ ", which no draft or active part provides")%string))
      (gb_requires build ++ gb_optional build) ++
    match checkPowerPath build (snd <$> live) with
    | PowerOk _ => []
    | PowerFail problems =>
        [mkRegistryIssue power_path "scripts/golden-builds.ts"
          (gb_name build ++ " has no voltage-compatible power path: " ++ join "; " problems)%string]
    end) builds.
End Across.

Definition validateRegistry (input : RegistryInput) : RegistryResult :=
  let '(connectors, i1) := load_connectors (reg_connectors input) in
  let '(parts, i2) := load_parts input (connectorsById connectors) [] (reg_parts input) in
  let '(shared, i3) := parseFile (reg_i2cShared input) sharedSchema in
  let '(known, i4) := parseFile (reg_knownIssues input) knownSchema in
  mkRegistryResult
    (i1 ++ i2 ++ reference_issues parts ++
     i3 ++ i2c_issues parts (reg_i2cShared input) (default [] shared) ++
     i4 ++ logic_issues parts (reg_knownIssues input) (default [] known) ++
     golden_issues parts (goldenBuilds input))
    parts connectors.
End Files.

Arguments RawFile : clear implicits.
Arguments RegistryInput : clear implicits.
Arguments RegistryResult : clear implicits.

Definition newline : string := String (ascii_of_nat 10) EmptyString.

Definition formatIssues (issues : list RegistryIssue) : string :=
  join newline ((fun i => "  " ++ ri_file i ++ newline ++ "    [" ++ show_rule (ri_rule i) ++ "] " ++
                          ri_message i)%string <$> issues).
