(* ===== verification/RulesSpec.v ===== *)
(** * What a registry without issues satisfies

    The declarative reading of the rules, and its equivalence with an empty
    report of [validateRegistry]. *)
From S2P Require Import Prelude JsString Regex JsNumber Part Assembly RegistryPower Rules.
#[local] Open Scope string_scope.
#[local] Open Scope list_scope.
#[local] Open Scope nat_scope.

(** ** Tables built by folding over parts *)
Section Tables.
Context {V : Type}.

(** The folds that fill a map under several keys per item. *)
Definition update_at (f : V -> V) (d : V) (m : list (string * V)) (k : string) : list (string * V) :=
  map_set k (f (default d (map_get k m))) m.

Lemma map_has_iff (m : list (string * V)) k : map_has k m = true <-> is_Some (map_get k m).
Proof. unfold map_has. destruct (map_get k m); [by split; eauto|split; [done|by intros [? ?]]]. Qed.

Lemma update_at_has f d m k k' : map_has k' (update_at f d m k) = true <-> k' = k \/ map_has k' m = true.
Proof.
  unfold update_at. rewrite !map_has_iff. destruct (decide (k' = k)) as [->|Hne].
  - rewrite map_get_set_eq. split; eauto.
  - rewrite map_get_set_ne by done. naive_solver.
Qed.
End Tables.

Lemma provide_has m p k : map_has k (provide m p) = true <-> k ∈ capabilities (software p) \/ map_has k m = true.
Proof.
  unfold provide. revert m. induction (capabilities (software p)) as [|c cs IH]; intros m; simpl.
  - split; [by right|by intros [?%elem_of_nil|?]].
  - rewrite IH. pose proof (update_at_has (fun v => v ++ [part_id p]) [] m c k) as H. unfold update_at in H.
    rewrite H, elem_of_cons. tauto.
Qed.

Lemma provided_has {unknown} (parts : list (RawFile unknown * PartDefinition)) k :
  map_has k (provided parts) = true <-> exists fp, fp ∈ live parts /\ k ∈ capabilities (software fp.2).
Proof.
  unfold provided. assert (H : forall l (m : list (string * list string)),
    map_has k (fold_left provide (snd <$> l) m) = true <->
    (exists fp : RawFile unknown * PartDefinition, fp ∈ l /\ k ∈ capabilities (software fp.2)) \/ map_has k m = true).
  { induction l as [|fp l IH]; intros m; csimpl.
    - split; [by right|]. intros [(? & ?%elem_of_nil & _)|?]; done.
    - rewrite IH, provide_has. setoid_rewrite elem_of_cons. naive_solver. }
  rewrite H. split; [intros [?|?]; done|by left].
Qed.

(** [byAddress] groups the ids of the live parts by address. *)
Definition grouped (l : list PartDefinition) (m : list (string * list string)) : Prop :=
  NoDup m.*1 /\
  (forall a ids, map_get a m = Some ids -> NoDup ids /\ ids <> []) /\
  (forall a id, id ∈ default [] (map_get a m) <->
     exists p, p ∈ l /\ part_id p = id /\ i2c_address (electrical p) = Some a).

Lemma grouped_step l m p : grouped l m -> grouped (l ++ [p]) (at_address m p).
Proof.
  intros (G1 & G2 & G3). unfold at_address. destruct (i2c_address (electrical p)) as [a|] eqn:Ea.
  - split_and!; [by apply map_set_keys_NoDup| |].
    + intros b ids. destruct (decide (b = a)) as [->|Hne].
      * rewrite map_get_set_eq. intros [= <-].
        assert (Hd : NoDup (default [] (map_get a m))).
        { destruct (map_get a m) as [ids|] eqn:E; [by apply (G2 a)|constructor]. }
        destruct (inb _ _) eqn:Ei.
        -- split; [done|]. apply inb_true in Ei. intros E. rewrite E in Ei. by apply elem_of_nil in Ei.
        -- apply inb_false in Ei. split; [|by destruct (default [] (map_get a m))].
           apply NoDup_app. split_and!; [done| |apply NoDup_singleton].
           by intros x Hx ->%list_elem_of_singleton.
      * rewrite map_get_set_ne by done. apply G2.
    + intros b id. setoid_rewrite elem_of_app. setoid_rewrite list_elem_of_singleton.
      destruct (decide (b = a)) as [->|Hne].
      * rewrite map_get_set_eq. simpl. specialize (G3 a id).
        destruct (inb _ _) eqn:Ei; [apply inb_true in Ei|].
        -- rewrite G3. split; [naive_solver|]. intros (q & [Hq| ->] & <- & Hqa); [eauto|]. by apply G3.
        -- rewrite elem_of_app, list_elem_of_singleton, G3. naive_solver.
      * rewrite map_get_set_ne by done. rewrite G3. split; [naive_solver|].
        intros (q & [Hq| ->] & ? & Hqa); [eauto|congruence].
  - split_and!; [done..|]. intros b id. rewrite G3. setoid_rewrite elem_of_app.
    setoid_rewrite list_elem_of_singleton. split; [naive_solver|].
    intros (q & [Hq| ->] & ? & Hqa); [eauto|congruence].
Qed.

Lemma byAddress_grouped {unknown} (parts : list (RawFile unknown * PartDefinition)) :
  grouped (snd <$> live parts) (byAddress parts).
Proof.
  unfold byAddress. generalize (snd <$> live parts). intros l. induction l as [|p l IH] using rev_ind.
  - split_and!; simpl; [constructor|done|]. intros a id. split; [by intros ?%elem_of_nil|].
    by intros (? & ?%elem_of_nil & _).
  - rewrite fold_left_app. simpl. by apply grouped_step.
Qed.

Lemma connectorsById_get cs id c :
  map_get id (connectorsById cs) = Some c <->
  exists before after, cs = before ++ c :: after /\ con_id c = id /\ id ∉ con_id <$> after.
Proof.
  unfold connectorsById. induction cs as [|d cs IH] using rev_ind.
  - split; [done|]. by intros ([|] & after & H & _).
  - rewrite fold_left_app. simpl. destruct (decide (id = con_id d)) as [->|Hne].
    + rewrite map_get_set_eq. split.
      * intros [= <-]. exists cs, []. split_and!; [done..|]. apply not_elem_of_nil.
      * intros (before & after & E & Hc & Hn). destruct after as [|e after _] using rev_ind.
        -- apply app_inj_tail in E as [_ ->]. done.
        -- rewrite app_comm_cons, app_assoc in E. apply app_inj_tail in E as [_ ->].
           destruct Hn. rewrite fmap_app. apply elem_of_app. right. left.
    + rewrite map_get_set_ne by done. rewrite IH. split.
      * intros (before & after & -> & Hc & Hn). exists before, (after ++ [d]).
        rewrite <- app_assoc. split_and!; [done..|]. rewrite fmap_app, elem_of_app.
        intros [?|Hd%list_elem_of_singleton]; done.
      * intros (before & after & E & Hc & Hn). destruct after as [|e after _] using rev_ind.
        -- apply app_inj_tail in E as [_ ->]. done.
        -- rewrite app_comm_cons, app_assoc in E. apply app_inj_tail in E as [-> <-].
           exists before, after. split_and!; [done..|]. intros H. apply Hn. rewrite fmap_app. apply elem_of_app. by left.
Qed.

(** ** The rules, declaratively *)
Section Valid.
Context {unknown : Type}.
Context (connectorSchema : schema (unknown := unknown) ConnectorDefinition)
        (partSchema : schema (unknown := unknown) PartDefinition)
        (sharedSchema : schema (unknown := unknown) (list I2cSharedEntry))
        (knownSchema : schema (unknown := unknown) (list KnownIssue)).
#[local] Abbreviation File := (RawFile unknown).

(** The file is JSON the schema accepts, as [v]. *)
Definition accepts {T} (sch : schema (unknown := unknown) T) (f : File) (v : T) : Prop :=
  rf_parseError f = None /\ sch (rf_data f) = Ok v.

(** A schema that rejects says why. *)
Definition explains {T} (sch : schema (unknown := unknown) T) : Prop := forall d, sch d <> Err [].

(** The live parts: those the matcher may still pick. *)
Definition is_live (ps : list (File * PartDefinition)) (p : PartDefinition) : Prop :=
  exists f, (f, p) ∈ ps /\ (status p = draft \/ status p = active).

Definition some_live_provides (ps : list (File * PartDefinition)) (c : string) : Prop :=
  exists p, is_live ps p /\ c ∈ capabilities (software p).

(** One part against the files and the connectors. *)
Record part_valid (input : RegistryInput unknown) (cs : list ConnectorDefinition)
    (ps : list (File * PartDefinition)) (f : File) (p : PartDefinition) : Prop := {
  pv_folder : part_id p = rf_name f;
  pv_footprint : status p = active \/ status p = deprecated ->
    footprintExists input (rf_name f) (footprint_file (mechanical p)) = true;
  pv_connector : exists before c after, cs = before ++ c :: after /\ con_id c = connector (electrical p) /\
    connector (electrical p) ∉ con_id <$> after /\ interface (electrical p) ∈ con_interfaces c;
  pv_units : forall c, c ∈ capabilities (software p) -> capabilityUnit c <> UnitUndefined;
  pv_successor : forall s, successor p = Some s -> s ∈ part_id <$> ps.*2;
  pv_conflicts : forall c, c ∈ conflicts (electrical p) -> c ∈ part_id <$> ps.*2;
  pv_requires : is_live ps p -> forall c, c ∈ requires (electrical p) -> some_live_provides ps c
}.

(** The live peripheral [p] works at the IO voltage of the live host [h], or not. *)
Definition logic_pair (ps : list (File * PartDefinition)) (p h : PartDefinition) (ok : bool) : Prop :=
  exists r v, is_live ps p /\ interface (electrical p) <> host /\ logic_v (electrical p) = Some r /\
    is_live ps h /\ interface (electrical h) = host /\ logic_v (electrical h) = Some v /\ tolerates r v.1 = ok.

Record registry_valid (input : RegistryInput unknown) (cs : list ConnectorDefinition)
    (ps : list (File * PartDefinition)) (shared : list I2cSharedEntry) (known : list KnownIssue) : Prop := {
  rv_connectors : Forall2 (fun f c => accepts connectorSchema f c /\ con_id c = rf_name f) (reg_connectors input) cs;
  rv_parts : Forall2 (fun f fp => fp.1 = f /\ accepts partSchema f fp.2) (reg_parts input) ps;
  rv_each : forall f p, (f, p) ∈ ps -> part_valid input cs ps f p;
  rv_versions : NoDup (partKey <$> ps.*2);
  rv_shared : accepts sharedSchema (reg_i2cShared input) shared;
  rv_addresses : forall a p q, is_live ps p -> is_live ps q -> part_id p <> part_id q ->
    i2c_address (electrical p) = Some a -> i2c_address (electrical q) = Some a ->
    exists e, e ∈ shared /\ sh_address e = a /\
      forall r, is_live ps r -> i2c_address (electrical r) = Some a -> part_id r ∈ sh_parts e;
  rv_shared_used : forall e id, e ∈ shared -> id ∈ sh_parts e ->
    exists p, is_live ps p /\ part_id p = id /\ i2c_address (electrical p) = Some (sh_address e);
  rv_known : accepts knownSchema (reg_knownIssues input) known;
  rv_logic : forall p h, logic_pair ps p h false -> exists k, k ∈ known /\ ki_parts k = (part_id p, part_id h);
  rv_known_used : forall k, k ∈ known -> exists p h, logic_pair ps p h false /\
    ((ki_parts k).1 ++ "|" ++ (ki_parts k).2 = part_id p ++ "|" ++ part_id h)%string;
  rv_golden : forall b, b ∈ goldenBuilds input ->
    (forall c, c ∈ gb_requires b \/ c ∈ gb_optional b -> some_live_provides ps c) /\
    exists a, valid_assignment b (snd <$> live ps) a
}.

(** *** Each rule *)
Lemma parseFile_nil {T} f (sch : schema (unknown := unknown) T) :
  explains sch ->
  match parseFile f sch with
  | (Some v, iss) => iss = [] /\ accepts sch f v
  | (None, iss) => iss <> [] /\ forall v, ~ accepts sch f v
  end.
Proof.
  intros He. unfold parseFile, accepts. destruct (rf_parseError f); [split; [done|by intros v [? _]]|].
  destruct (sch (rf_data f)) as [v|iss] eqn:E; [done|]. split.
  - destruct iss; [|done]. by destruct (He (rf_data f)).
  - intros v [_ ?]. congruence.
Qed.

Lemma live_iff (ps : list (File * PartDefinition)) fp : fp ∈ live ps <-> fp ∈ ps /\ (status fp.2 = draft \/ status fp.2 = active).
Proof.
  unfold live, LIVE. rewrite elem_of_listfilter, orb_true_iff, !bool_decide_eq_true. done.
Qed.

Lemma is_live_iff (ps : list (File * PartDefinition)) p : is_live ps p <-> exists fp, fp ∈ live ps /\ fp.2 = p.
Proof.
  setoid_rewrite live_iff. unfold is_live. split.
  - intros (f & H & Hs). by exists (f, p).
  - intros ([f q] & [H Hs] & Hq). simpl in *. subst. by exists f.
Qed.

Lemma is_live_snd (ps : list (File * PartDefinition)) p : is_live ps p <-> p ∈ snd <$> live ps.
Proof. rewrite is_live_iff, list_elem_of_fmap. naive_solver. Qed.

Lemma provided_iff (ps : list (File * PartDefinition)) c : map_has c (provided ps) = true <-> some_live_provides ps c.
Proof.
  rewrite provided_has. unfold some_live_provides. setoid_rewrite is_live_iff. naive_solver.
Qed.

Lemma load_connectors_nil files cs iss :
  explains connectorSchema -> load_connectors connectorSchema files = (cs, iss) ->
  iss = [] <-> Forall2 (fun f c => accepts connectorSchema f c /\ con_id c = rf_name f) files cs.
Proof.
  intros He. revert cs iss. induction files as [|f files IH]; intros cs iss; simpl.
  - intros [= <- <-]. split; [constructor|done].
  - pose proof (parseFile_nil f connectorSchema He) as Hp.
    destruct (parseFile f connectorSchema) as [[c|] i1], (load_connectors connectorSchema files) as [rest more];
      specialize (IH _ _ eq_refl); intros [= <- <-].
    + destruct Hp as [-> Hp]. simpl. unfold when. destruct (con_id c ==s rf_name f) eqn:E; simpl.
      * apply String.eqb_eq in E. rewrite IH. split; [by constructor|]. intros H. by inversion H.
      * apply String.eqb_neq in E. split; [done|]. intros H. inversion H. naive_solver.
    + destruct Hp as [Hn Hp]. split; [by intros [? _]%app_nil|]. intros H. exfalso.
      inversion H; subst. naive_solver.
Qed.

(** The clauses of [part_valid] that need no other part. *)
Record part_local (input : RegistryInput unknown) (cs : list ConnectorDefinition) (f : File) (p : PartDefinition)
    : Prop := {
  pl_folder : part_id p = rf_name f;
  pl_footprint : status p = active \/ status p = deprecated ->
    footprintExists input (rf_name f) (footprint_file (mechanical p)) = true;
  pl_connector : exists before c after, cs = before ++ c :: after /\ con_id c = connector (electrical p) /\
    connector (electrical p) ∉ con_id <$> after /\ interface (electrical p) ∈ con_interfaces c;
  pl_units : forall c, c ∈ capabilities (software p) -> capabilityUnit c <> UnitUndefined
}.

Lemma part_issues_nil input cs seen f p :
  part_issues input (connectorsById cs) seen f p = [] <->
  map_get (partKey p) seen = None /\ part_local input cs f p.
Proof.
  unfold part_issues. cbv zeta. rewrite !app_nil, !when_nil, flat_map_nil, negb_false_iff, String.eqb_eq.
  assert (H1 : forall A (l : list A) o, match o : option string with Some first => l | None => [] end = [] <->
      (o = None \/ l = [])) by (intros A l [|]; naive_solver).
  assert (H2 : (bool_decide (status p = active) || bool_decide (status p = deprecated)) &&
      negb (footprintExists input (rf_name f) (footprint_file (mechanical p))) = false <->
      (status p = active \/ status p = deprecated ->
       footprintExists input (rf_name f) (footprint_file (mechanical p)) = true)).
  { do 2 case_bool_decide; destruct (footprintExists input _ _); simpl; naive_solver. }
  rewrite H2.
  assert (H3 : forall i1 i2 : RegistryIssue, match map_get (connector (electrical p)) (connectorsById cs) with
      | None => [i1]
      | Some c => when (negb (inb (interface (electrical p)) (con_interfaces c))) i2
      end = [] <-> exists before c after, cs = before ++ c :: after /\ con_id c = connector (electrical p) /\
        connector (electrical p) ∉ con_id <$> after /\ interface (electrical p) ∈ con_interfaces c).
  { intros i1 i2. destruct (map_get _ _) as [c|] eqn:E.
    - rewrite when_nil, negb_false_iff, inb_true. split.
      + intros Hi. apply connectorsById_get in E as (b & a & ? & ? & ?). by exists b, c, a.
      + intros (b & c' & a & Hcs & Hc & Hn & Hi).
        assert (map_get (connector (electrical p)) (connectorsById cs) = Some c') by (apply connectorsById_get; eauto).
        by simplify_eq.
    - split; [done|]. intros (b & c' & a & Hcs & Hc & Hn & Hi).
      assert (map_get (connector (electrical p)) (connectorsById cs) = Some c') by (apply connectorsById_get; eauto).
      congruence. }
  assert (H4 : (forall c, c ∈ capabilities (software p) -> capabilityUnit c <> UnitUndefined) <->
     forall c, c ∈ capabilities (software p) -> forall i : RegistryIssue,
       match capabilityUnit c with UnitUndefined => [i] | _ => [] end = []).
  { split; intros H c Hc; specialize (H c Hc).
    - intros i. by destruct (capabilityUnit c).
    - intros E. rewrite E in H. by specialize (H (mkRegistryIssue rule_json "" "")). }
  split.
  - intros (A & B & C & D & E). split; [by destruct (map_get (partKey p) seen)|]. split; [done..| |].
    + destruct (map_get (connector _) _) eqn:Ec; [|done].
      refine (proj1 (H3 (mkRegistryIssue rule_json "" "") _) _). exact D.
    + apply H4. intros c Hc i. specialize (E c Hc). by destruct (capabilityUnit c).
  - intros (A & [B C D E]). rewrite A. split_and!; [done..| |].
    + apply (H3 (mkRegistryIssue rule_json "" "") (mkRegistryIssue rule_json "" "")) in D.
      destruct (map_get (connector _) _); [|done]. rewrite when_nil in *. done.
    + intros c Hc. rewrite H4 in E. by apply (E c Hc).
Qed.

Lemma load_parts_nil input cs seen files ps iss :
  explains partSchema -> load_parts partSchema input (connectorsById cs) seen files = (ps, iss) ->
  iss = [] <-> Forall2 (fun f fp => fp.1 = f /\ accepts partSchema f fp.2) files ps /\
    (forall f p, (f, p) ∈ ps -> part_local input cs f p) /\
    NoDup (partKey <$> ps.*2) /\ (forall k, k ∈ partKey <$> ps.*2 -> map_get k seen = None).
Proof.
  intros He. revert seen ps iss. induction files as [|f files IH]; intros seen ps iss; simpl.
  - intros [= <- <-]. split; [|done]. intros _. split_and!; csimpl; [constructor|by intros f p ?%elem_of_nil|
      constructor|by intros k ?%elem_of_nil].
  - pose proof (parseFile_nil f partSchema He) as Hp.
    destruct (parseFile f partSchema) as [[p|] i1].
    + destruct Hp as [-> Hp].
      set (seen' := match map_get (partKey p) seen with Some _ => seen | None => _ end).
      destruct (load_parts partSchema input _ seen' files) as [rest more] eqn:El. apply IH in El.
      intros [= <- <-]. simpl. rewrite app_nil, part_issues_nil, El. csimpl.
      rewrite NoDup_cons. setoid_rewrite elem_of_cons. split.
      * intros ([A B] & C & D & E & F). unfold seen' in F. rewrite A in F.
        assert (Hk : partKey p ∉ partKey <$> rest.*2).
        { intros Hk. specialize (F _ Hk). by rewrite map_get_set_eq in F. }
        split_and!; [by constructor| |done..|].
        -- intros g q [[= -> ->]|Hq]; [done|by apply D].
        -- intros k [->|Hk']; [done|]. specialize (F k Hk').
           rewrite map_get_set_ne in F; [done|]. intros ->. done.
      * intros (A & B & [C D] & E). apply Forall2_cons in A as [A1 A2].
        assert (A : map_get (partKey p) seen = None) by (apply E; by left).
        split_and!; [done|by apply B; left|done|by intros g q Hq; apply B; right|done|].
        intros k Hk. unfold seen'. rewrite A, map_get_set_ne; [apply E; by right|]. intros ->. done.
    + destruct Hp as [Hn Hp]. destruct (load_parts partSchema input _ seen files) as [rest more].
      intros [= <- <-]. split; [by intros [? _]%app_nil|]. intros (H & _). exfalso.
      inversion H; subst. naive_solver.
Qed.

Lemma reference_issues_nil (ps : list (File * PartDefinition)) :
  reference_issues ps = [] <->
  forall f p, (f, p) ∈ ps ->
    (forall s, successor p = Some s -> s ∈ part_id <$> ps.*2) /\
    (forall c, c ∈ conflicts (electrical p) -> c ∈ part_id <$> ps.*2) /\
    (is_live ps p -> forall c, c ∈ requires (electrical p) -> some_live_provides ps c).
Proof.
  unfold reference_issues. rewrite flat_map_nil.
  assert (Hk : knownIds ps = part_id <$> ps.*2) by (unfold knownIds; by rewrite <- list_fmap_compose).
  assert (Hlive : forall f p, (f, p) ∈ ps -> LIVE (status p) = true <-> is_live ps p).
  { intros f p Hp. unfold LIVE. rewrite orb_true_iff, !bool_decide_eq_true. unfold is_live. split.
    - intros Hs. by exists f.
    - by intros (g & _ & Hs). }
  split.
  - intros H f p Hp. specialize (H (f, p) Hp). simpl in H. rewrite !app_nil, flat_map_nil, Hk in H.
    destruct H as (H1 & H2 & H3). split_and!.
    + intros s Hs. rewrite Hs, when_nil, negb_false_iff, inb_true in H1. done.
    + intros c Hc. specialize (H2 c Hc). by rewrite when_nil, negb_false_iff, inb_true in H2.
    + intros Hl c Hc. apply (Hlive f p Hp) in Hl. rewrite Hl, flat_map_nil in H3. specialize (H3 c Hc).
      by rewrite when_nil, negb_false_iff, provided_iff in H3.
  - intros H [f p] Hp. destruct (H f p Hp) as (H1 & H2 & H3). rewrite !app_nil, flat_map_nil, Hk. split_and!.
    + destruct (successor p) as [s|]; [|done]. rewrite when_nil, negb_false_iff, inb_true. by apply H1.
    + intros c Hc. rewrite when_nil, negb_false_iff, inb_true. by apply H2.
    + destruct (LIVE (status p)) eqn:El; [|done]. rewrite flat_map_nil. intros c Hc.
      rewrite when_nil, negb_false_iff, provided_iff. apply H3; [by eapply Hlive|done].
Qed.
Lemma parseFile_accepts {T} f (sch : schema (unknown := unknown) T) v :
  accepts sch f v -> parseFile f sch = (Some v, []).
Proof. intros [H1 H2]. unfold parseFile. by rewrite H1, H2. Qed.

Lemma load_connectors_accepts files cs :
  Forall2 (fun f c => accepts connectorSchema f c /\ con_id c = rf_name f) files cs ->
  (load_connectors connectorSchema files).1 = cs.
Proof.
  induction 1 as [|f c files cs [Ha _] _ IH]; simpl; [done|]. rewrite (parseFile_accepts _ _ _ Ha).
  destruct (load_connectors connectorSchema files) as [rest more]. simpl in *. by subst.
Qed.

Lemma load_parts_accepts input byId seen files ps :
  Forall2 (fun f fp => fp.1 = f /\ accepts partSchema f fp.2) files ps ->
  (load_parts partSchema input byId seen files).1 = ps.
Proof.
  intros H. revert seen. induction H as [|f [g p] files ps [<- Ha] _ IH]; intros seen; simpl; [done|].
  simpl in Ha. rewrite (parseFile_accepts _ _ _ Ha).
  match goal with |- context [load_parts _ _ _ ?s files] => specialize (IH s) end.
  destruct (load_parts partSchema input byId _ files) as [rest more]. simpl in *. by subst.
Qed.

Lemma and_iff_split (A B C D : Prop) : (A <-> B) -> (C <-> D) -> (A /\ C <-> B /\ D).
Proof. tauto. Qed.

(** Every id is grouped under its address. *)
Lemma byAddress_ids (ps : list (File * PartDefinition)) a id :
  id ∈ default [] (map_get a (byAddress ps)) <->
  exists p, is_live ps p /\ part_id p = id /\ i2c_address (electrical p) = Some a.
Proof.
  destruct (byAddress_grouped ps) as (_ & _ & G). rewrite G. setoid_rewrite is_live_snd. done.
Qed.

Lemma two_ids (ids : list string) : NoDup ids -> (length ids <? 2) = false <-> exists x y, x ∈ ids /\ y ∈ ids /\ x <> y.
Proof.
  intros Hd. rewrite Nat.ltb_ge. split.
  - destruct ids as [|x [|y ids]]; simpl; [lia..|]. intros _. exists x, y.
    apply NoDup_cons in Hd as [Hx _]. set_solver.
  - intros (x & y & Hx & Hy & Hne). destruct ids as [|z [|w ids]]; simpl; [set_solver| |lia].
    apply list_elem_of_singleton in Hx, Hy. congruence.
Qed.

Lemma i2c_issues_nil (ps : list (File * PartDefinition)) file shared :
  i2c_issues ps file shared = [] <->
  (forall a p q, is_live ps p -> is_live ps q -> part_id p <> part_id q ->
    i2c_address (electrical p) = Some a -> i2c_address (electrical q) = Some a ->
    exists e, e ∈ shared /\ sh_address e = a /\
      forall r, is_live ps r -> i2c_address (electrical r) = Some a -> part_id r ∈ sh_parts e) /\
  (forall e id, e ∈ shared -> id ∈ sh_parts e ->
    exists p, is_live ps p /\ part_id p = id /\ i2c_address (electrical p) = Some (sh_address e)).
Proof.
  destruct (byAddress_grouped ps) as (G1 & G2 & _). unfold i2c_issues. rewrite app_nil, !flat_map_nil.
  apply and_iff_split.
  - split.
    + intros H a p q Hp Hq Hne Ha Hb. assert (Hpa := proj2 (byAddress_ids ps a (part_id p)) ltac:(eauto)).
      assert (Hqa := proj2 (byAddress_ids ps a (part_id q)) ltac:(eauto)).
      destruct (map_get a (byAddress ps)) as [ids|] eqn:E; [|by apply elem_of_nil in Hpa]. simpl in *.
      specialize (H (a, ids) (map_get_Some_elem _ _ _ E)). simpl in H.
      rewrite (proj2 (two_ids ids (proj1 (G2 _ _ E)))) in H by eauto.
      rewrite when_nil, negb_false_iff, existsb_elem in H. destruct H as (e & He & Hc). bools.
      exists e. split_and!; [done|by apply String.eqb_eq|]. intros r Hr Hra.
      match goal with Hf : forallb _ ids = true |- _ => rewrite forallb_elem in Hf end.
      assert (Hri := proj2 (byAddress_ids ps a (part_id r)) ltac:(eauto)). rewrite E in Hri.
      match goal with Hf : forall x, x ∈ ids -> _ |- _ => by apply inb_true, Hf end.
    + intros H [a ids] Hin. apply map_get_elem_NoDup in Hin as E; [|done].
      destruct (length ids <? 2) eqn:El; [done|]. apply (two_ids ids (proj1 (G2 _ _ E))) in El as (x & y & Hx & Hy & Hne).
      assert (Hids : forall z, z ∈ ids <-> exists p, is_live ps p /\ part_id p = z /\ i2c_address (electrical p) = Some a).
      { intros z. rewrite <- byAddress_ids, E. done. }
      apply Hids in Hx as (p & Hp & <- & Hpa). apply Hids in Hy as (q & Hq & <- & Hqa).
      destruct (H a p q Hp Hq Hne Hpa Hqa) as (e & He & <- & Hall).
      rewrite when_nil, negb_false_iff, existsb_elem. exists e. rewrite String.eqb_refl. split; [done|].
      apply forallb_elem. intros z Hz. apply inb_true. apply Hids in Hz as (r & Hr & <- & Hra). by apply Hall.
  - setoid_rewrite when_nil. setoid_rewrite negb_false_iff. setoid_rewrite forallb_elem.
    setoid_rewrite inb_true. setoid_rewrite byAddress_ids. naive_solver.
Qed.

Lemma elem_of_hosts (ps : list (File * PartDefinition)) h v :
  (h, v) ∈ hosts ps <-> exists q w, is_live ps q /\ interface (electrical q) = host /\
    logic_v (electrical q) = Some w /\ h = part_id q /\ v = w.1.
Proof.
  unfold hosts. rewrite elem_of_flat_map. setoid_rewrite is_live_iff. split.
  - intros (fp & Hl & H). destruct (logic_v (electrical fp.2)) as [w|] eqn:E; [|by apply elem_of_nil in H].
    unfold when in H. case_bool_decide; [|by apply elem_of_nil in H].
    apply list_elem_of_singleton in H. simplify_eq. exists fp.2, w. eauto 10.
  - intros (q & w & (fp & Hl & <-) & Hh & Hv & -> & ->). exists fp. split; [done|]. rewrite Hv.
    rewrite bool_decide_true by done. left.
Qed.

Lemma elem_of_signal_ranges (ps : list (File * PartDefinition)) id r :
  (exists f, (f, id, r) ∈ signal_ranges ps) <->
  exists p, is_live ps p /\ interface (electrical p) <> host /\ logic_v (electrical p) = Some r /\ id = part_id p.
Proof.
  unfold signal_ranges. setoid_rewrite elem_of_flat_map. setoid_rewrite is_live_iff. split.
  - intros (f & fp & Hl & H). destruct (logic_v (electrical fp.2)) as [w|] eqn:E; [|by apply elem_of_nil in H].
    unfold when in H. case_bool_decide; [by apply elem_of_nil in H|].
    apply list_elem_of_singleton in H. simplify_eq. exists fp.2. eauto 10.
  - intros (q & (fp & Hl & <-) & Hh & Hv & ->). exists fp.1, fp. split; [done|]. rewrite Hv.
    rewrite bool_decide_false by done. left.
Qed.

Lemma elem_of_mismatched (ps : list (File * PartDefinition)) k :
  k ∈ mismatched ps <-> exists p h, logic_pair ps p h false /\ k = (part_id p ++ "|" ++ part_id h)%string.
Proof.
  unfold mismatched, logic_pair. rewrite elem_of_flat_map. split.
  - intros ([[f id] r] & Hs & H). apply elem_of_flat_map in H as ([h v] & Hh & H).
    assert (Hs' := proj1 (elem_of_signal_ranges ps id r) (ex_intro _ f Hs)).
    destruct Hs' as (p & Hp & Hi & Hr & ->). apply elem_of_hosts in Hh as (q & w & Hq & Hqi & Hw & -> & ->).
    unfold when in H. destruct (tolerates r w.1) eqn:E; simpl in H; rewrite E in H || idtac; simpl in H;
      [by apply elem_of_nil in H|].
    apply list_elem_of_singleton in H as ->. exists p, q. split; [|done]. exists r, w. done.
  - intros (p & h & (r & v & Hp & Hi & Hr & Hh & Hhi & Hv & E) & ->).
    destruct (proj2 (elem_of_signal_ranges ps (part_id p) r)) as [f Hf]; [eauto|].
    exists (f, part_id p, r). split; [done|]. apply elem_of_flat_map. exists (part_id h, v.1).
    split; [apply elem_of_hosts; eauto 10|]. simpl. rewrite E. left.
Qed.

Lemma logic_issues_nil (ps : list (File * PartDefinition)) file known :
  logic_issues ps file known = [] <->
  (forall p h, logic_pair ps p h false -> exists k, k ∈ known /\ ki_parts k = (part_id p, part_id h)) /\
  (forall k, k ∈ known -> exists p h, logic_pair ps p h false /\
    ((ki_parts k).1 ++ "|" ++ (ki_parts k).2 = part_id p ++ "|" ++ part_id h)%string).
Proof.
  unfold logic_issues. rewrite app_nil, !flat_map_nil. apply and_iff_split.
  - split.
    + intros H p h (r & v & Hp & Hi & Hr & Hh & Hhi & Hv & E).
      destruct (proj2 (elem_of_signal_ranges ps (part_id p) r)) as [f Hf]; [eauto|].
      specialize (H (f, part_id p, r) Hf). simpl in H. rewrite flat_map_nil in H.
      specialize (H (part_id h, v.1) (proj2 (elem_of_hosts ps _ _) ltac:(eauto 10))). simpl in H. rewrite E in H.
      rewrite when_nil, negb_false_iff, existsb_elem in H. destruct H as (k & Hk & H). bools.
      rewrite !String.eqb_eq in *. exists k. split; [done|]. destruct (ki_parts k). by simplify_eq/=.
    + intros H [[f id] r] Hs. apply flat_map_nil. intros [h v] Hh. simpl.
      destruct (tolerates r v) eqn:E; [done|].
      destruct (proj1 (elem_of_signal_ranges ps id r) (ex_intro _ f Hs)) as (p & Hp & Hi & Hr & ->).
      apply elem_of_hosts in Hh as (q & w & Hq & Hqi & Hw & -> & ->).
      destruct (H p q) as (k & Hk & Hkp); [by exists r, w|].
      rewrite when_nil, negb_false_iff, existsb_elem. exists k. split; [done|]. rewrite Hkp. simpl.
      by rewrite !String.eqb_refl.
  - setoid_rewrite when_nil. setoid_rewrite negb_false_iff. setoid_rewrite inb_true.
    setoid_rewrite elem_of_mismatched. done.
Qed.

Lemma golden_issues_nil (ps : list (File * PartDefinition)) builds :
  golden_issues ps builds = [] <-> forall b, b ∈ builds ->
    (forall c, c ∈ gb_requires b \/ c ∈ gb_optional b -> some_live_provides ps c) /\
    exists a, valid_assignment b (snd <$> live ps) a.
Proof.
  unfold golden_issues. rewrite flat_map_nil. apply forall_proper. intros b.
  apply forall_proper. intros Hb. rewrite app_nil, flat_map_nil. apply and_iff_split.
  - setoid_rewrite elem_of_app. apply forall_proper. intros c. rewrite when_nil, negb_false_iff, provided_iff. done.
  - pose proof (checkPowerPath_spec b (snd <$> live ps)) as H. destruct (checkPowerPath _ _) as [a|pr].
    + split; [by exists a|done].
    + split; [done|]. intros [a Ha]. by destruct (H a).
Qed.
End Valid.

(** [validateRegistry] reports nothing exactly for a valid registry: every
    file parses and is named as its id, versions are defined once, footprints
    exist, connectors carry the parts' interfaces, capabilities have units,
    references resolve, shared I2C addresses and logic-level mismatches are
    recorded and the records are all current, and every golden build is covered
    and can be powered. *)
Theorem validateRegistry_reports_nothing {unknown}
    (connectorSchema : schema (unknown := unknown) ConnectorDefinition)
    (partSchema : schema (unknown := unknown) PartDefinition)
    (sharedSchema : schema (unknown := unknown) (list I2cSharedEntry))
    (knownSchema : schema (unknown := unknown) (list KnownIssue)) input :
  explains connectorSchema -> explains partSchema -> explains sharedSchema -> explains knownSchema ->
  rr_issues (validateRegistry connectorSchema partSchema sharedSchema knownSchema input) = [] <->
  exists cs ps shared known,
    registry_valid connectorSchema partSchema sharedSchema knownSchema input cs ps shared known.
Proof.
  intros E1 E2 E3 E4. unfold validateRegistry.
  destruct (load_connectors connectorSchema (reg_connectors input)) as [cs i1] eqn:Lc.
  destruct (load_parts partSchema input (connectorsById cs) [] (reg_parts input)) as [ps i2] eqn:Lp.
  pose proof (parseFile_nil (reg_i2cShared input) sharedSchema E3) as Ps.
  pose proof (parseFile_nil (reg_knownIssues input) knownSchema E4) as Pk.
  destruct (parseFile (reg_i2cShared input) sharedSchema) as [shared i3].
  destruct (parseFile (reg_knownIssues input) knownSchema) as [known i4].
  pose proof (load_connectors_nil _ _ _ _ E1 Lc) as Hc.
  pose proof (load_parts_nil _ _ _ _ _ _ _ E2 Lp) as Hp.
  simpl. rewrite !app_nil, Hc, Hp, reference_issues_nil, i2c_issues_nil, logic_issues_nil, golden_issues_nil.
  split.
  - intros (V1 & (V2 & V3 & V4 & _) & V5 & V6 & [V7 V8] & V9 & [V10 V11] & V12).
    destruct shared as [shared|]; [|by destruct Ps]. destruct known as [known|]; [|by destruct Pk].
    exists cs, ps, shared, known. split; try done; [|by destruct Ps|by destruct Pk].
    intros f p H. destruct (V3 f p H), (V5 f p H) as (? & ? & ?). by split.
  - intros (cs' & ps' & shared' & known' & [V1 V2 V3 V4 V5 V6 V7 V8 V9 V10 V11]).
    pose proof (load_connectors_accepts _ _ _ V1) as Ec. rewrite Lc in Ec. simpl in Ec. subst cs'.
    pose proof (load_parts_accepts _ input (connectorsById cs) [] _ _ V2) as Ep. rewrite Lp in Ep. simpl in Ep. subst ps'.
    destruct shared as [shared|]; [|by destruct Ps as [_ Ps]; destruct (Ps shared')].
    destruct known as [known|]; [|by destruct Pk as [_ Pk]; destruct (Pk known')].
    destruct Ps as [-> [_ Ps]], Pk as [-> [_ Pk]]. assert (shared' = shared) as -> by (destruct V5; congruence).
    assert (known' = known) as -> by (destruct V8; congruence).
    split_and!; simpl; try done.
    + intros f p H. by destruct (V3 f p H).
    + intros f p H. by destruct (V3 f p H).
Qed.
