(* ===== verification/Catalogue.v ===== *)
(** * The compact part catalogue ([registry/scripts/catalogue.ts])

    The menu intake puts in its prompt prefix: the highest included version of
    each part, its capabilities with their units, flags and power options, as
    data and as text. It does not depend on the order of the parts. *)
From S2P Require Import Prelude JsString Regex JsNumber Part Assembly Semver RegistryPower Rules RulesSpec.
#[local] Open Scope string_scope.
#[local] Open Scope list_scope.
#[local] Open Scope nat_scope.

Record CatalogueCapability := mkCatCap { cc_capability : string; cc_unit : option string; cc_parts : list string }.
Record CataloguePowerOption := mkCatPower {
  cp_id : string; cp_name : string; cp_provides : list string;
  cp_output_v : Range; cp_max_output_ma : num; cp_capacity_mah : option num
}.
Record CataloguePart := mkCatPart {
  ct_id : string; ct_version : string; ct_name : string; ct_category : PartCategory;
  ct_provides : list string; ct_requires : list string; ct_voltage_range : Range;
  ct_idle : num; ct_active : num; ct_exposure : Exposure; ct_environment_flags : list string
}.
Record Catalogue := mkCatalogue {
  cat_capabilities : list CatalogueCapability;
  cat_environment_flags : list string;
  cat_power_options : list CataloguePowerOption;
  cat_parts : list CataloguePart
}.

Definition sorted (xs : list string) : list string := sort_text (uniq xs).

Section Build.
Context (statuses : list PartStatus).

Definition included (p : PartDefinition) : bool := bool_decide (status p ∈ statuses).

(** One turn of the loop that keeps the highest version of each id. *)
Definition keep_latest (latest : list (string * PartDefinition)) (part : PartDefinition)
    : list (string * PartDefinition) :=
  if included part then
    match map_get (part_id part) latest with
    | Some current =>
        if (0 <? compareSemver (version part) (version current))%Z
        then map_set (part_id part) part latest else latest
    | None => map_set (part_id part) part latest
    end
  else latest.

Definition latest (parts : list PartDefinition) : list (string * PartDefinition) := fold_left keep_latest parts [].

Definition chosen (parts : list PartDefinition) : list PartDefinition := sort_by part_id (latest parts).*2.

Definition providers (ps : list PartDefinition) : list (string * list string) := fold_left provide ps [].

Definition power_option (p : PartDefinition) : list CataloguePowerOption :=
  match category p, supply (electrical p) with
  | energy, Some s =>
      [mkCatPower (part_id p) (part_name p)
         (sorted (List.filter (startsWith "power.") (capabilities (software p))))
         (output_v s) (max_output_ma s) (capacity_mah s)]
  | _, _ => []
  end.

Definition catalogue_part (p : PartDefinition) : CataloguePart :=
  mkCatPart (part_id p) (version p) (part_name p) (category p) (sorted (capabilities (software p)))
    (sorted (requires (electrical p))) (voltage_range (electrical p))
    (idle (current_draw_ma (electrical p))) (active_ma (current_draw_ma (electrical p)))
    (exposure (mechanical p)) (sorted (environment_flags (mechanical p))).

Definition buildCatalogue (parts : list PartDefinition) : Catalogue :=
  let ps := chosen parts in
  let byCap := providers ps in
  mkCatalogue
    ((fun c => mkCatCap c (match capabilityUnit c with UnitOf u => Some u | _ => None end)
                 (sorted (default [] (map_get c byCap)))) <$> sorted byCap.*1)
    (sorted (List.flat_map (fun p => environment_flags (mechanical p)) ps))
    (List.flat_map power_option ps)
    (catalogue_part <$> ps).
End Build.

(** ** As prompt text *)
Definition show_exposure (e : Exposure) : string :=
  match e with exp_none => "none" | vent => "vent" | window => "window" | probe_external => "probe-external" end.

Definition text_list (xs : list string) : string := if 0 <? length xs then join ", " xs else "none".

Definition catalogue_lines (c : Catalogue) : list string :=
  ["# Part catalogue"; ""; "## Capabilities (capability [unit]: parts)"] ++
  ((fun x => "- " ++ cc_capability x ++
      match cc_unit x with Some u => if u ==s "" then "" else " [" ++ u ++ "]" | None => "" end ++
      ": " ++ join ", " (cc_parts x))%string <$> cat_capabilities c) ++
  [""; "## Environment flags"; ("- " ++ text_list (cat_environment_flags c))%string] ++
  [""; "## Power options (id name: provides; output; max current; capacity)"] ++
  ((fun p => "- " ++ cp_id p ++ " " ++ cp_name p ++ ": " ++ text_list (cp_provides p) ++ "; " ++
      show_num (cp_output_v p).1 ++ "–" ++ show_num (cp_output_v p).2 ++ " V; " ++
      show_num (cp_max_output_ma p) ++ " mA; " ++
      match cp_capacity_mah p with None => "no storage" | Some q => show_num q ++ " mAh" end)%string
    <$> cat_power_options c) ++
  [""; "## Parts (id@version name | category | provides | requires | supply V | idle/active mA | exposure | flags)"] ++
  ((fun p => join " | "
      ["- " ++ ct_id p ++ "@" ++ ct_version p ++ " " ++ ct_name p; show_category (ct_category p);
       text_list (ct_provides p); text_list (ct_requires p);
       show_num (ct_voltage_range p).1 ++ "–" ++ show_num (ct_voltage_range p).2 ++ " V";
       show_num (ct_idle p) ++ "/" ++ show_num (ct_active p) ++ " mA";
       show_exposure (ct_exposure p); text_list (ct_environment_flags p)])%string <$> cat_parts c).

Definition renderCatalogue (c : Catalogue) : string := (join newline (catalogue_lines c) ++ newline)%string.

(** ** The highest version of each id *)
Section Latest.
Context (statuses : list PartStatus).
#[local] Abbreviation incl := (included statuses).

Record latest_of (l : list PartDefinition) (m : list (string * PartDefinition)) : Prop := {
  lo_keys : NoDup m.*1;
  lo_entry : forall id p, map_get id m = Some p ->
    p ∈ l /\ incl p = true /\ part_id p = id /\
    forall q, q ∈ l -> incl q = true -> part_id q = id -> (compareSemver (version q) (version p) <= 0)%Z;
  lo_all : forall q, q ∈ l -> incl q = true -> is_Some (map_get (part_id q) m)
}.

(** Setting an id to a version no lower than any seen keeps the table right. *)
Lemma latest_of_set l m p :
  latest_of l m -> incl p = true ->
  (forall c, map_get (part_id p) m = Some c -> (compareSemver (version c) (version p) <= 0)%Z) ->
  latest_of (l ++ [p]) (map_set (part_id p) p m).
Proof.
  intros [L1 L2 L3] Hi Hmax. split.
  - by apply map_set_keys_NoDup.
  - intros id q. destruct (decide (id = part_id p)) as [->|Hne].
    + rewrite map_get_set_eq. intros [= <-]. split_and!; [apply elem_of_app; right; left|done..|].
      intros r [Hr|Hr%list_elem_of_singleton]%elem_of_app Hri Hid; [|subst; by rewrite compareSemver_refl].
      destruct (L3 r Hr Hri) as [c Hc]. rewrite Hid in Hc. destruct (L2 _ _ Hc) as (_ & _ & _ & Hcm).
      eapply (ord_le_trans _ ordering_semver); [by apply Hcm|by apply Hmax].
    + rewrite map_get_set_ne by done. intros Hq. destruct (L2 _ _ Hq) as (A & B & C & D).
      split_and!; [apply elem_of_app; by left|done..|].
      intros r [Hr|Hr%list_elem_of_singleton]%elem_of_app Hri Hid; [by apply D|]. subst. congruence.
  - intros q [Hq|Hq%list_elem_of_singleton]%elem_of_app Hqi.
    + destruct (decide (part_id q = part_id p)) as [->|Hne]; [rewrite map_get_set_eq; eauto|].
      rewrite map_get_set_ne by done. by apply L3.
    + subst. rewrite map_get_set_eq. eauto.
Qed.

Lemma latest_of_skip l m p :
  latest_of l m ->
  (incl p = true -> exists c, map_get (part_id p) m = Some c /\ (compareSemver (version p) (version c) <= 0)%Z) ->
  latest_of (l ++ [p]) m.
Proof.
  intros [L1 L2 L3] Hp. split.
  - done.
  - intros id q Hq. destruct (L2 _ _ Hq) as (A & B & C & D).
    split_and!; [apply elem_of_app; by left|done..|].
    intros r [Hr|Hr%list_elem_of_singleton]%elem_of_app Hri Hid; [by apply D|]. subst.
    destruct (Hp Hri) as (c & Hc & Hle). rewrite Hid in Hc. by simplify_eq.
  - intros q [Hq|Hq%list_elem_of_singleton]%elem_of_app Hqi; [by apply L3|]. subst.
    destruct (Hp Hqi) as (c & -> & _). eauto.
Qed.

Lemma latest_spec l : latest_of l (latest statuses l).
Proof.
  unfold latest. induction l as [|p l IH] using rev_ind.
  - split; simpl; [constructor|done|by intros q ?%elem_of_nil].
  - rewrite fold_left_app. simpl. unfold keep_latest at 1. destruct (incl p) eqn:Ei.
    + destruct (map_get (part_id p) (fold_left _ l [])) as [c|] eqn:Ec.
      * destruct (Z.ltb_spec 0 (compareSemver (version p) (version c))).
        -- apply latest_of_set; [done..|]. intros c'. rewrite Ec. intros [= <-].
           rewrite (ord_antisym _ ordering_semver (version p) (version c)). lia.
        -- apply latest_of_skip; [done|]. intros _. by exists c.
      * apply latest_of_set; [done..|]. intros c'. by rewrite Ec.
    + apply latest_of_skip; [done|]. congruence.
Qed.

Lemma elem_of_latest l p : p ∈ (latest statuses l).*2 <-> map_get (part_id p) (latest statuses l) = Some p.
Proof.
  destruct (latest_spec l) as [L1 L2 _]. rewrite list_elem_of_fmap. split.
  - intros ([id q] & -> & Hq). simpl. apply map_get_elem_NoDup in Hq as Hg; [|done].
    destruct (L2 _ _ Hg) as (_ & _ & -> & _). done.
  - intros H. exists (part_id p, p). split; [done|by apply map_get_Some_elem].
Qed.

Lemma latest_ids l : part_id <$> (latest statuses l).*2 = (latest statuses l).*1.
Proof.
  destruct (latest_spec l) as [L1 L2 _].
  assert (H : forall kv, kv ∈ latest statuses l -> part_id kv.2 = kv.1).
  { intros [k v] Hkv. apply map_get_elem_NoDup in Hkv; [|done]. by destruct (L2 _ _ Hkv) as (_ & _ & ? & _). }
  clear L1 L2. induction (latest statuses l) as [|kv m IH]; csimpl; [done|]. f_equal.
  - apply H. left.
  - apply IH. intros kv' ?. apply H. by right.
Qed.

(** [p] is the highest included version of its id. *)
Definition highest (l : list PartDefinition) (p : PartDefinition) : Prop :=
  p ∈ l /\ status p ∈ statuses /\
  forall q, q ∈ l -> status q ∈ statuses -> part_id q = part_id p -> (compareSemver (version q) (version p) <= 0)%Z.

Lemma elem_of_chosen l p : NoDup (pin <$> l) -> p ∈ chosen statuses l <-> highest l p.
Proof.
  intros Hd. unfold chosen, highest. rewrite elem_of_sort_by, elem_of_latest. destruct (latest_spec l) as [_ L2 L3].
  assert (Hi : forall q, incl q = true <-> status q ∈ statuses) by (intros q; apply bool_decide_eq_true).
  setoid_rewrite Hi in L2. setoid_rewrite Hi in L3. split.
  - intros H. destruct (L2 _ _ H) as (A & B & _ & D). done.
  - intros (A & B & D). destruct (L3 p A B) as [q Hq]. rewrite Hq. f_equal.
    destruct (L2 _ _ Hq) as (A' & B' & C' & D'). specialize (D q A' B' C'). specialize (D' p A B eq_refl).
    rewrite (ord_antisym _ ordering_semver (version p) (version q)) in D.
    assert (Hv : version p = version q) by (apply compareSemver_zero_eq; lia).
    apply list_elem_of_lookup in A as [i Ai], A' as [j Aj].
    assert (i = j) as ->; [|congruence]. eapply NoDup_lookup; [exact Hd|..]; rewrite list_lookup_fmap, ?Ai, ?Aj; [done|].
    simpl. unfold pin. by rewrite C', Hv.
Qed.

Lemma chosen_ids l : NoDup (part_id <$> chosen statuses l).
Proof.
  unfold chosen. rewrite (sort_by_perm part_id), latest_ids. apply latest_spec.
Qed.

Lemma chosen_perm l1 l2 : NoDup (pin <$> l1) -> l1 ≡ₚ l2 -> chosen statuses l1 = chosen statuses l2.
Proof.
  intros Hd Hp. assert (Hd2 : NoDup (pin <$> l2)) by by rewrite <- Hp.
  apply sort_by_perm_invariant; [rewrite latest_ids; apply latest_spec|].
  apply NoDup_Permutation.
  - eapply NoDup_fmap_1 with (f := part_id). rewrite latest_ids. apply latest_spec.
  - eapply NoDup_fmap_1 with (f := part_id). rewrite latest_ids. apply latest_spec.
  - intros p. pose proof (elem_of_chosen l1 p Hd) as H1. pose proof (elem_of_chosen l2 p Hd2) as H2.
    unfold chosen in H1, H2. rewrite elem_of_sort_by in H1, H2. rewrite H1, H2.
    unfold highest. by setoid_rewrite Hp.
Qed.
End Latest.

(** The catalogue and its text do not depend on the order of the parts: any
    permutation of distinct versions builds and renders identically. *)
Theorem buildCatalogue_order_independent statuses parts1 parts2 :
  NoDup (pin <$> parts1) -> parts1 ≡ₚ parts2 ->
  buildCatalogue statuses parts1 = buildCatalogue statuses parts2 /\
  renderCatalogue (buildCatalogue statuses parts1) = renderCatalogue (buildCatalogue statuses parts2).
Proof.
  intros Hd Hp. assert (E : buildCatalogue statuses parts1 = buildCatalogue statuses parts2); [|by rewrite E].
  unfold buildCatalogue. by rewrite (chosen_perm statuses parts1 parts2 Hd Hp).
Qed.

(** ** What is on the menu *)
Lemma elem_of_sorted x xs : x ∈ sorted xs <-> x ∈ xs.
Proof. unfold sorted. by rewrite elem_of_sort_text, elem_of_uniq. Qed.

Lemma provide_ids m p k id :
  id ∈ default [] (map_get k (provide m p)) <->
  (k ∈ capabilities (software p) /\ id = part_id p) \/ id ∈ default [] (map_get k m).
Proof.
  unfold provide. revert m. induction (capabilities (software p)) as [|c cs IH]; intros m; simpl.
  - split; [by right|]. intros [[?%elem_of_nil _]|?]; done.
  - rewrite IH. rewrite elem_of_cons. destruct (decide (k = c)) as [->|Hne].
    + rewrite map_get_set_eq. simpl. rewrite elem_of_app, list_elem_of_singleton. naive_solver.
    + rewrite map_get_set_ne by done. naive_solver.
Qed.

Lemma providers_ids ps k id :
  id ∈ default [] (map_get k (providers ps)) <->
  exists p, p ∈ ps /\ k ∈ capabilities (software p) /\ id = part_id p.
Proof.
  unfold providers. induction ps as [|p ps IH] using rev_ind; simpl.
  - split; [by intros ?%elem_of_nil|by intros (? & ?%elem_of_nil & _)].
  - rewrite fold_left_app. simpl. rewrite provide_ids, IH. setoid_rewrite elem_of_app.
    setoid_rewrite list_elem_of_singleton. naive_solver.
Qed.

Lemma providers_has ps k : k ∈ (providers ps).*1 <-> exists p, p ∈ ps /\ k ∈ capabilities (software p).
Proof.
  rewrite <- map_get_is_Some_iff, <- map_has_iff. unfold providers.
  induction ps as [|p ps IH] using rev_ind; simpl.
  - split; [done|by intros (? & ?%elem_of_nil & _)].
  - rewrite fold_left_app. simpl. rewrite provide_has, IH. setoid_rewrite elem_of_app.
    setoid_rewrite list_elem_of_singleton. naive_solver.
Qed.

(** What the menu offers: one line per id, for its highest included version;
    one entry per capability that some listed part provides, with exactly the
    ids that provide it; no id twice. *)
Theorem buildCatalogue_menu statuses parts :
  NoDup (pin <$> parts) ->
  let c := buildCatalogue statuses parts in
  (forall x, x ∈ cat_parts c <-> exists p, highest statuses parts p /\ x = catalogue_part p) /\
  NoDup (ct_id <$> cat_parts c) /\
  (forall k, k ∈ cc_capability <$> cat_capabilities c <->
     exists p, highest statuses parts p /\ k ∈ capabilities (software p)) /\
  (forall e id, e ∈ cat_capabilities c -> id ∈ cc_parts e <->
     exists p, highest statuses parts p /\ cc_capability e ∈ capabilities (software p) /\ id = part_id p).
Proof.
  intros Hd c. unfold c, buildCatalogue. simpl.
  setoid_rewrite <- (fun p => elem_of_chosen statuses parts p Hd). split_and!.
  - intros x. rewrite list_elem_of_fmap. naive_solver.
  - rewrite <- list_fmap_compose. apply chosen_ids.
  - intros k. rewrite <- list_fmap_compose, list_elem_of_fmap. simpl. rewrite <- providers_has.
    setoid_rewrite elem_of_sorted. naive_solver.
  - intros e id (k & -> & Hk)%list_elem_of_fmap. simpl. rewrite elem_of_sorted. apply providers_ids.
Qed.
