(* ===== verification/Json.v ===== *)
(** * JSON values and their canonical texts

    Values as JavaScript holds them, [JSON.stringify], the key-sorted text of
    [registry/scripts/load.ts] ([canonicalJson]) and the plan identity of
    [packages/schema/src/build-plan.ts] ([serializeBuildPlanInput]). *)
From S2P Require Import Prelude JsString Regex JsNumber.
#[local] Open Scope string_scope.
#[local] Open Scope list_scope.
#[local] Open Scope nat_scope.

(** An object's entries are in property order. *)
Inductive json :=
| JNull
| JBool (b : bool)
| JNum (x : num)
| JStr (s : string)
| JArr (l : list json)
| JObj (l : list (string * json)).

Section Induction.
Context (P : json -> Prop).
Hypothesis Hnull : P JNull.
Hypothesis Hbool : forall b, P (JBool b).
Hypothesis Hnum : forall x, P (JNum x).
Hypothesis Hstr : forall s, P (JStr s).
Hypothesis Harr : forall l, Forall P l -> P (JArr l).
Hypothesis Hobj : forall l, Forall (fun kv => P kv.2) l -> P (JObj l).

Fixpoint json_ind' (v : json) : P v :=
  match v with
  | JNull => Hnull
  | JBool b => Hbool b
  | JNum x => Hnum x
  | JStr s => Hstr s
  | JArr l => Harr l ((fix go l : Forall P l :=
      match l with [] => Forall_nil_2 P | v :: l => Forall_cons_2 P v l (json_ind' v) (go l) end) l)
  | JObj l => Hobj l ((fix go l : Forall (fun kv => P kv.2) l :=
      match l with
      | [] => Forall_nil_2 _
      | kv :: l => Forall_cons_2 (fun kv => P kv.2) kv l (json_ind' kv.2) (go l)
      end) l)
  end.
End Induction.

(** ** [JSON.stringify] *)
Definition hex_digit (n : nat) : string :=
  String (ascii_of_nat (if n <? 10 then 48 + n else 87 + n)) EmptyString.

Definition backslash : string := String (ascii_of_nat 92) EmptyString.

(** The escape of one character of a string. *)
Definition escape_char (c : ascii) : string :=
  let n := code c in
  (if Nat.eqb n 34 then backslash ++ quote
   else if Nat.eqb n 92 then backslash ++ backslash
   else if Nat.eqb n 8 then backslash ++ "b"
   else if Nat.eqb n 9 then backslash ++ "t"
   else if Nat.eqb n 10 then backslash ++ "n"
   else if Nat.eqb n 12 then backslash ++ "f"
   else if Nat.eqb n 13 then backslash ++ "r"
   else if Nat.ltb n 32 then backslash ++ "u00" ++ hex_digit (n / 16) ++ hex_digit (n mod 16)
   else String c EmptyString)%string.

Fixpoint escape (s : string) : string :=
  match s with
  | EmptyString => EmptyString
  | String c s => (escape_char c ++ escape s)%string
  end.

Definition json_string (s : string) : string := (quote ++ escape s ++ quote)%string.
Definition json_number (x : num) : string := if isFinite x then show_num x else "null".

Fixpoint stringify (v : json) : string :=
  match v with
  | JNull => "null"
  | JBool b => if b then "true" else "false"
  | JNum x => json_number x
  | JStr s => json_string s
  | JArr l => ("[" ++ join "," (stringify <$> l) ++ "]")%string
  | JObj l => ("{" ++ join "," ((fun kv => json_string kv.1 ++ ":" ++ stringify kv.2)%string <$> l) ++ "}")%string
  end.

(** ** Property order of an object built from entries

    Integer indices come first, in ascending order; the other keys keep the
    order they were added in. *)
Definition is_index (k : string) : bool :=
  all_digits k && (String.eqb k "0" || negb (startsWith "0" k)) && (BigInt k <? 2 ^ 32 - 1)%Z.

Definition own_order {V} (l : list (string * V)) : list (string * V) :=
  js_sort (fun a b => (BigInt b.1 <? BigInt a.1)%Z) (List.filter (fun kv => is_index kv.1) l) ++
  List.filter (fun kv => negb (is_index kv.1)) l.

(** ** [canonicalJson] of [load.ts] *)
Fixpoint canonical (v : json) : json :=
  match v with
  | JArr l => JArr (canonical <$> l)
  | JObj l => JObj (own_order (sort_by fst ((fun kv => (kv.1, canonical kv.2)) <$> l)))
  | v => v
  end.

Definition canonicalJson (v : json) : string := stringify (canonical v).

(** ** [serializeBuildPlanInput] of [build-plan.ts]

    The inner [encode] throws on a number that is not finite ([None]). An entry
    whose value is undefined is not an entry here. *)
Fixpoint sequence {A} (l : list (option A)) : option (list A) :=
  match l with
  | [] => Some []
  | o :: l => match o, sequence l with Some x, Some xs => Some (x :: xs) | _, _ => None end
  end.

Fixpoint encode (v : json) : option string :=
  match v with
  | JNull => Some "null"
  | JBool b => Some (if b then "true" else "false")
  | JStr s => Some (json_string s)
  | JNum x => if isFinite x then Some (show_num x) else None
  | JArr l => (fun xs => "[" ++ join "," xs ++ "]")%string <$> sequence (encode <$> l)
  | JObj l =>
      (fun xs => "{" ++ join "," ((fun kv => json_string kv.1 ++ ":" ++ kv.2)%string <$> xs) ++ "}")%string <$>
      sequence ((fun kv => match kv.2 with Some t => Some (kv.1, t) | None => None end) <$>
        sort_by fst ((fun kv => (kv.1, encode kv.2)) <$> l))
  end.

Definition serializeBuildPlanInput (spec : json) (runtime : string) (evidence : json) : option string :=
  encode (JObj [("spec", spec); ("runtime", JStr runtime); ("evidence", evidence)]).

(** ** Values equal up to the order of their keys *)
Inductive same_json : json -> json -> Prop :=
| same_refl v : same_json v v
| same_arr l1 l2 : Forall2 same_json l1 l2 -> same_json (JArr l1) (JArr l2)
| same_obj l1 l2 l3 :
    NoDup l1.*1 -> l1 ≡ₚ l2 -> Forall2 (fun a b => a.1 = b.1 /\ same_json a.2 b.2) l2 l3 ->
    same_json (JObj l1) (JObj l3).

(** Mapping the values of entries, then sorting by key, forgets the key order. *)
Lemma sort_values_same {V} (f : json -> V) (l1 l2 l3 : list (string * json)) :
  NoDup l1.*1 -> l1 ≡ₚ l2 ->
  Forall2 (fun a b => a.1 = b.1 /\ f a.2 = f b.2) l2 l3 ->
  sort_by fst ((fun kv => (kv.1, f kv.2)) <$> l1) = sort_by fst ((fun kv => (kv.1, f kv.2)) <$> l3).
Proof.
  intros Hd Hp Hf. transitivity (sort_by fst ((fun kv => (kv.1, f kv.2)) <$> l2)).
  - apply sort_by_perm_invariant; [by rewrite <- list_fmap_compose|]. by rewrite Hp.
  - f_equal. clear Hp. induction Hf as [|a b l2 l3 [E1 E2] _ IH]; [done|]. by rewrite !fmap_cons, E1, E2, IH.
Qed.

(** The two encoders map same values to equal results. *)
Section Invariant.
Context {V : Type} (f : json -> V).
Hypothesis f_arr : forall l1 l2, f <$> l1 = f <$> l2 -> f (JArr l1) = f (JArr l2).
Hypothesis f_obj : forall l1 l2,
  sort_by fst ((fun kv => (kv.1, f kv.2)) <$> l1) = sort_by fst ((fun kv => (kv.1, f kv.2)) <$> l2) ->
  f (JObj l1) = f (JObj l2).

Lemma same_json_invariant v w : same_json v w -> f v = f w.
Proof using All.
  revert w. induction v as [| | | |l IH|l IH] using json_ind'; intros w H; inversion H; subst; try done.
  - apply f_arr. match goal with Hf : Forall2 same_json l _ |- _ => clear H; induction Hf as [|a b l l' Hab _ IHl] end; [done|].
    apply Forall_cons in IH as [Ha IH]. rewrite !fmap_cons, (Ha _ Hab). f_equal. by apply IHl.
  - apply f_obj. match goal with Hp : l ≡ₚ ?l2, Hf : Forall2 _ ?l2 _ |- _ =>
      eapply sort_values_same; [done|exact Hp|]; assert (IH2 : Forall (fun kv => forall w, same_json kv.2 w -> f kv.2 = f w) l2)
        by (by rewrite <- Hp); clear -Hf IH2; induction Hf as [|a b l2 l3 [E1 E2] _ IHl]; [constructor|] end.
    apply Forall_cons in IH2 as [Ha IH2]. constructor; [|by apply IHl]. split; [done|by apply Ha].
Qed.
End Invariant.

Lemma canonical_invariant v w : same_json v w -> canonical v = canonical w.
Proof.
  apply same_json_invariant.
  - intros l1 l2 E. simpl. by f_equal.
  - intros l1 l2 E. simpl. by rewrite E.
Qed.

(** [canonicalJson] forgets key order: two values equal up to the order of
    their objects' keys, at any depth, have the same text. *)
Theorem canonicalJson_forgets_key_order v w : same_json v w -> canonicalJson v = canonicalJson w.
Proof. intros H. unfold canonicalJson. by rewrite (canonical_invariant v w H). Qed.

Lemma encode_invariant v w : same_json v w -> encode v = encode w.
Proof.
  apply same_json_invariant.
  - intros l1 l2 E. simpl. by rewrite E.
  - intros l1 l2 E. simpl. by rewrite E.
Qed.

(** ** When the plan identity exists *)
Fixpoint finite_json (v : json) : bool :=
  match v with
  | JNum x => isFinite x
  | JArr l => forallb finite_json l
  | JObj l => forallb (fun kv => finite_json kv.2) l
  | _ => true
  end.

Lemma sequence_some {A} (l : list (option A)) : is_Some (sequence l) <-> forall o, o ∈ l -> is_Some o.
Proof.
  induction l as [|o l IH]; simpl.
  - split; [by intros _ o ?%elem_of_nil|eauto].
  - setoid_rewrite elem_of_cons. destruct o as [x|].
    + destruct (sequence l) as [xs|].
      * split; [|eauto]. intros _ o [->|Ho]; [eauto|]. by apply (proj1 IH).
      * split; [by intros []|]. intros H. destruct (proj2 IH) as [? ?]; [|done]. auto.
    + split; [by intros []|]. intros H. destruct (H None (or_introl eq_refl)). done.
Qed.

Lemma encode_some v : is_Some (encode v) <-> finite_json v = true.
Proof.
  induction v as [| | | |l IH|l IH] using json_ind'; simpl; try (split; eauto; fail).
  - destruct (isFinite x); (split; [intros [? ?]|intros ?]); by eauto.
  - rewrite fmap_is_Some, sequence_some, forallb_elem. rewrite Forall_forall in IH.
    setoid_rewrite list_elem_of_fmap. split.
    + intros H x Hx. apply IH; [done|]. apply H. eauto.
    + intros H o (x & -> & Hx). apply IH; auto.
  - rewrite fmap_is_Some, sequence_some, forallb_elem. rewrite Forall_forall in IH.
    setoid_rewrite list_elem_of_fmap. setoid_rewrite elem_of_sort_by. setoid_rewrite list_elem_of_fmap. split.
    + intros H kv Hkv. apply IH; [done|].
      destruct (H (match encode kv.2 with Some t => Some (kv.1, t) | None => None end)) as [y Hy].
      { exists (kv.1, encode kv.2). split; [done|]. by exists kv. }
      destruct (encode kv.2); [eauto|done].
    + intros H o (x & -> & (kv & -> & Hkv)). simpl. specialize (H kv Hkv). apply IH in H as [t Ht]; [|done].
      rewrite Ht. eauto.
Qed.

(** The plan identity exists exactly for finite data (a number that is not
    finite throws), and does not depend on the order of any object's keys. *)
Theorem serializeBuildPlanInput_identity spec spec' runtime evidence evidence' :
  (is_Some (serializeBuildPlanInput spec runtime evidence) <->
     finite_json spec = true /\ finite_json evidence = true) /\
  (same_json spec spec' -> same_json evidence evidence' ->
   serializeBuildPlanInput spec runtime evidence = serializeBuildPlanInput spec' runtime evidence').
Proof.
  unfold serializeBuildPlanInput. split.
  - rewrite encode_some. simpl. rewrite !andb_true_iff. naive_solver.
  - intros Hs He. apply encode_invariant. eapply same_obj; [|reflexivity|].
    + apply (bool_decide_unpack _). vm_compute. reflexivity.
    + repeat constructor; done.
Qed.

Definition sample (a b : string) : json := JObj [(a, JNum (of_Z 1)); (b, JArr [JStr "x"; JNull])].

Lemma sample_same : same_json (sample "q" "p") (JObj [("p", JArr [JStr "x"; JNull]); ("q", JNum (of_Z 1))]).
Proof.
  eapply same_obj; [apply (bool_decide_unpack _); vm_compute; reflexivity|apply perm_swap|].
  repeat constructor.
Defined.

Lemma canonicalJson_forgets_key_order_witness :
  canonicalJson (sample "q" "p") = canonicalJson (JObj [("p", JArr [JStr "x"; JNull]); ("q", JNum (of_Z 1))]).
Proof. apply canonicalJson_forgets_key_order. exact sample_same. Defined.

Lemma serializeBuildPlanInput_identity_witness :
  serializeBuildPlanInput (sample "q" "p") "1.0.0" JNull =
  serializeBuildPlanInput (JObj [("p", JArr [JStr "x"; JNull]); ("q", JNum (of_Z 1))]) "1.0.0" JNull.
Proof.
  apply (serializeBuildPlanInput_identity (sample "q" "p") _ "1.0.0" JNull JNull);
    [exact sample_same|apply same_refl].
Defined.
