(* ===== verification/RegistryLoad.v ===== *)
(** * Loading the registry into the database ([registry/scripts/load.ts])

    Part versions are immutable once loaded. The table is a service: the class
    [PartsTable] states what an insert that skips conflicts and a query by id
    promise, and the loader is proved against it. *)
From S2P Require Import Prelude JsString Regex JsNumber Part Assembly Semver Json Rules Catalogue.
#[local] Open Scope string_scope.
#[local] Open Scope list_scope.
#[local] Open Scope nat_scope.

(** ** The stored definition *)
Section PartJson.
#[local] Abbreviation entry k v := [(k, v)].
Definition nullable {A} (f : A -> json) (o : option A) : json := match o with Some x => f x | None => JNull end.
Definition optional_entry {A} (k : string) (f : A -> json) (o : option A) : list (string * json) :=
  match o with Some x => entry k (f x) | None => [] end.
Definition jstrings (l : list string) : json := JArr (JStr <$> l).
Definition jrange (r : Range) : json := JArr [JNum r.1; JNum r.2].

Definition mount_json (m : Mount) : json :=
  JObj (match m with
        | cable_gland d => [("type", JStr "cable-gland"); ("d_mm", JNum d)]
        | standoffs d holes => [("type", JStr "standoffs"); ("hole_d_mm", JNum d); ("holes_mm", JArr (jrange <$> holes))]
        | tabs d s => [("type", JStr "tabs"); ("hole_d_mm", JNum d); ("hole_spacing_mm", JNum s)]
        | cradle => [("type", JStr "cradle")]
        | external => [("type", JStr "external")]
        | unspecified => [("type", JStr "unspecified")]
        end).

Definition electrical_json (e : PartElectrical) : json :=
  JObj (entry "interface" (JStr (show_interface (interface e))) ++
        entry "connector" (JStr (connector e)) ++
        entry "voltage_range" (jrange (voltage_range e)) ++
        optional_entry "alt_inputs" (fun l => JArr ((fun i =>
          JObj [("name", JStr (pi_name i)); ("voltage_range", jrange (pi_voltage_range i))]) <$> l)) (alt_inputs e) ++
        entry "current_draw_ma" (JObj [("idle", JNum (idle (current_draw_ma e)));
                                       ("active", JNum (active_ma (current_draw_ma e)))]) ++
        entry "requires" (jstrings (requires e)) ++
        entry "conflicts" (jstrings (conflicts e)) ++
        entry "i2c_address" (nullable JStr (i2c_address e)) ++
        entry "logic_v" (nullable jrange (logic_v e)) ++
        optional_entry "supply" (fun s => JObj [("output_v", jrange (output_v s)); ("max_output_ma", JNum (max_output_ma s));
                                                ("capacity_mah", nullable JNum (capacity_mah s))]) (supply e)).

Definition mechanical_json (m : PartMechanical) : json :=
  JObj [("footprint_file", JStr (footprint_file m));
        ("bounding_mm", nullable (fun b => JArr [JNum b.1.1; JNum b.1.2; JNum b.2]) (bounding_mm m));
        ("mount", mount_json (mount m)); ("exposure", JStr (show_exposure (exposure m)));
        ("environment_flags", jstrings (environment_flags m))].

Definition software_json (s : PartSoftware) : json :=
  JObj [("driver_pkg", nullable JStr (driver_pkg s)); ("driver_version", nullable JStr (driver_version s));
        ("sdk_module", nullable JStr (sdk_module s)); ("capabilities", jstrings (capabilities s));
        ("min_runtime", JStr (min_runtime s))].

Definition show_widget (w : PartWidget) : string :=
  match w with line_chart => "line-chart" | stat => "stat" | gauge => "gauge" | event_timeline => "event-timeline" end.
Definition show_alert (a : PartAlertTemplate) : string :=
  match a with out_of_range => "out_of_range" | on_event => "on_event" | low_battery => "low_battery" end.
Definition cloud_json (c : PartCloud) : json :=
  JObj [("telemetry_schema", nullable JStr (telemetry_schema c));
        ("default_widgets", jstrings (show_widget <$> default_widgets c));
        ("alert_templates", jstrings (show_alert <$> alert_templates c))].

Definition show_vendor (v : Vendor) : string :=
  match v with adafruit => "adafruit" | sparkfun => "sparkfun" | digikey => "digikey" | mouser => "mouser" end.
Definition commerce_json (c : PartCommerce) : json :=
  JObj [("suppliers", JArr ((fun s => JObj [("vendor", JStr (show_vendor (vendor s))); ("sku", JStr (sku s));
                                             ("url", JStr (url s))]) <$> suppliers c));
        ("unit_cost_usd", nullable JNum (unit_cost_usd c))].

(** The part without its editor hint. *)
Definition definition_json (p : PartDefinition) : json :=
  JObj [("id", JStr (part_id p)); ("version", JStr (version p)); ("name", JStr (part_name p));
        ("category", JStr (show_category (category p))); ("status", JStr (show_status (status p)));
        ("successor", nullable JStr (successor p)); ("electrical", electrical_json (electrical p));
        ("mechanical", mechanical_json (mechanical p)); ("software", software_json (software p));
        ("cloud", cloud_json (cloud p)); ("commerce", commerce_json (commerce p))].
End PartJson.

Record PartRow := mkRow { row_id : string; row_version : string; row_status : PartStatus; row_definition : json }.

Definition toRow (p : PartDefinition) : PartRow := mkRow (part_id p) (version p) (status p) (definition_json p).

Definition rowPin (r : PartRow) : PartPin := mkPartPin (row_id r) (row_version r).
Definition rowKey (r : PartRow) : string := pinKey (rowPin r).

(** ** The table *)
Class PartsTable (T : Type) := {
  (** Inserts the rows whose (id, version) is not there; the rows inserted. *)
  insert_missing : list PartRow -> T -> list PartRow * T;
  (** Every row whose id is listed. *)
  find_many : list string -> T -> list PartRow;
  row_of : T -> PartPin -> option PartRow;

  row_of_pin : forall t k r, row_of t k = Some r -> rowPin r = k;
  insert_returns : forall t rows r, r ∈ (insert_missing rows t).1 -> r ∈ rows /\ row_of t (rowPin r) = None;
  insert_keeps : forall t rows k r, row_of t k = Some r -> row_of (insert_missing rows t).2 k = Some r;
  insert_adds : forall t rows r, r ∈ (insert_missing rows t).1 -> row_of (insert_missing rows t).2 (rowPin r) = Some r;
  insert_all : forall t rows r, r ∈ rows -> row_of t (rowPin r) = None ->
    exists r', r' ∈ (insert_missing rows t).1 /\ rowPin r' = rowPin r;
  insert_only : forall t rows k r, row_of (insert_missing rows t).2 k = Some r ->
    row_of t k = Some r \/ r ∈ (insert_missing rows t).1;
  find_many_spec : forall t ids r, r ∈ find_many ids t <-> row_id r ∈ ids /\ row_of t (rowPin r) = Some r
}.

Record LoadResult := mkLoad { inserted : list string; unchanged : list string }.

(** [ImmutableVersionError], with the versions that differ. *)
Definition loaded : Type := result (list string) LoadResult.

Section Load.
Context `{PartsTable T}.

Definition same_row (stored : list PartRow) (row : PartRow) : bool :=
  match List.find (fun r => rowKey r ==s rowKey row) (rev stored) with
  | Some current =>
      bool_decide (row_status current = row_status row) &&
      (canonicalJson (row_definition current) ==s canonicalJson (row_definition row))
  | None => false
  end.

(** The transaction: a throw rolls the table back. *)
Definition loadParts (parts : list PartDefinition) (t : T) : loaded * T :=
  let rows := toRow <$> parts in
  match rows with
  | [] => (Ok (mkLoad [] []), t)
  | _ =>
      let '(ins, t1) := insert_missing rows t in
      let insertedKeys := uniq (rowKey <$> ins) in
      let existing := List.filter (fun row => negb (inb (rowKey row) insertedKeys)) rows in
      let stored := if 0 <? length existing then find_many (uniq (row_id <$> existing)) t1 else [] in
      let changed := List.filter (fun row => negb (same_row stored row)) existing in
      let same := List.filter (same_row stored) existing in
      if 0 <? length changed then (Err (sort_text (rowKey <$> changed)), t)
      else (Ok (mkLoad (sort_text insertedKeys) (sort_text (rowKey <$> same))), t1)
  end.

(** ** Immutability *)
Definition agrees (current row : PartRow) : Prop :=
  row_status current = row_status row /\
  canonicalJson (row_definition current) = canonicalJson (row_definition row).

(** Ids hold no [@], so a key names one pin. *)
Definition plain (r : PartRow) : Prop := index_of "@"%char (row_id r) = None.

Definition plain_parts (parts : list PartDefinition) : Prop :=
  forall p, p ∈ parts -> index_of "@"%char (part_id p) = None.

Lemma rowKey_inj r s : plain r -> plain s -> rowKey r = rowKey s -> rowPin r = rowPin s.
Proof.
  unfold plain, rowKey, rowPin, pinKey. simpl. intros Hr Hs E.
  assert (Hl : String.length (row_id r) = String.length (row_id s)).
  { assert (Hx : forall a v, index_of "@"%char a = None ->
      index_of "@"%char (a ++ "@" ++ v)%string = Some (String.length a)).
    { intros a v Ha. rewrite index_of_app by done. change ("@" ++ v)%string with (String "@" v). simpl.
      by rewrite Nat.add_0_r. }
    pose proof (Hx _ (row_version r) Hr) as H1. rewrite E, (Hx _ (row_version s) Hs) in H1. by injection H1. }
  assert (Hid : row_id r = row_id s /\ row_version r = row_version s); [|by destruct Hid as [-> ->]].
  clear Hr Hs. revert E Hl. generalize (row_id s). induction (row_id r) as [|c a IH]; intros [|d b]; simpl; try done.
  - intros E _. assert (String "@" (row_version r) = String "@" (row_version s)) as [= ->] by exact E. done.
  - intros E [= Hl]. rewrite !string_app_cons in E. injection E as -> E. destruct (IH b E Hl) as [-> ->]. done.
Qed.

Lemma toRow_plain parts row : plain_parts parts -> row ∈ toRow <$> parts -> plain row.
Proof. intros Hp (p & -> & Hin)%list_elem_of_fmap. by apply Hp. Qed.

(** The rows the insert left alone are those whose version was there. *)
Lemma existing_iff parts t row :
  plain_parts parts -> row ∈ toRow <$> parts ->
  negb (inb (rowKey row) (uniq (rowKey <$> (insert_missing (toRow <$> parts) t).1))) = true <->
  is_Some (row_of t (rowPin row)).
Proof.
  intros Hpl Hin. rewrite negb_true_iff, inb_false, elem_of_uniq. split.
  - intros Hn. destruct (row_of t (rowPin row)) eqn:E; [eauto|].
    destruct (insert_all t _ row Hin E) as (r' & Hr' & Hpin). destruct Hn.
    apply list_elem_of_fmap. exists r'. split; [|done]. unfold rowKey. by rewrite Hpin.
  - intros [c Hc] (r & Hk & Hr)%list_elem_of_fmap. apply insert_returns in Hr as [Hr Hnone].
    rewrite (rowKey_inj row r) in Hc; [congruence| | |done]; by eapply toRow_plain.
Qed.

Lemma same_row_iff parts t ids row current :
  plain_parts parts -> row ∈ toRow <$> parts -> row_id row ∈ ids -> (forall i, i ∈ ids -> index_of "@"%char i = None) ->
  row_of t (rowPin row) = Some current ->
  same_row (find_many ids t) row = true <-> agrees current row.
Proof.
  intros Hpl Hin Hid Hids Hc. unfold same_row, agrees.
  assert (Hcp := row_of_pin _ _ _ Hc).
  destruct (List.find _ (rev (find_many ids t))) as [r|] eqn:E.
  - apply find_Some_elem in E as [Hr Hk]. apply String.eqb_eq in Hk.
    rewrite list_elem_of_In, <- in_rev, <- list_elem_of_In in Hr. apply find_many_spec in Hr as [Hri Hrt].
    assert (Hpin : rowPin r = rowPin row).
    { apply rowKey_inj; [by apply Hids|by eapply toRow_plain|done]. }
    rewrite Hpin in Hrt. simplify_eq. by rewrite andb_true_iff, bool_decide_eq_true, String.eqb_eq.
  - exfalso. rewrite find_None_forall in E. assert (Hin' : current ∈ rev (find_many ids t)).
    { rewrite list_elem_of_In, <- in_rev, <- list_elem_of_In. apply find_many_spec. rewrite Hcp. split; [|done].
      unfold rowPin in Hcp. injection Hcp as -> _. done. }
    specialize (E _ Hin'). unfold rowKey in E. by rewrite Hcp, String.eqb_refl in E.
Qed.

(** What a load leaves behind. *)
Record load_effect (parts : list PartDefinition) (t t' : T) : Prop := {
  le_keeps : forall k r, row_of t k = Some r -> row_of t' k = Some r;
  le_only : forall k r, row_of t' k = Some r -> row_of t k = Some r \/ exists p, p ∈ parts /\ r = toRow p
}.

Lemma load_effect_refl parts t : load_effect parts t t.
Proof. split; [done|by left]. Qed.

Lemma insert_effect parts t : load_effect parts t (insert_missing (toRow <$> parts) t).2.
Proof.
  split.
  - intros k r. apply insert_keeps.
  - intros k r Hr. apply insert_only in Hr as [?|Hr]; [by left|right].
    apply insert_returns in Hr as [(p & -> & Hp)%list_elem_of_fmap _]. eauto.
Qed.

(** [p] was there with another definition. *)
Definition differs (t : T) (p : PartDefinition) : Prop :=
  exists current, row_of t (pin p) = Some current /\ ~ agrees current (toRow p).

(** [p] is stored, and as it was if it was there. *)
Definition stored_as (t t' : T) (p : PartDefinition) : Prop :=
  exists current, row_of t' (pin p) = Some current /\
    (row_of t (pin p) = Some current -> agrees current (toRow p)).

Lemma loadParts_cases parts t :
  plain_parts parts ->
  (exists vs, loadParts parts t = (Err vs, t) /\ exists p, p ∈ parts /\ differs t p) \/
  (exists res, loadParts parts t = (Ok res, (insert_missing (toRow <$> parts) t).2) /\ parts <> [] /\
     forall p, p ∈ parts -> ~ differs t p) \/
  (parts = [] /\ exists res, loadParts parts t = (Ok res, t)).
Proof.
  intros Hpl. destruct (decide (parts = [])) as [->|Hne]; [right; right; split; [done|by eexists]|].
  unfold loadParts. cbv zeta.
  destruct (toRow <$> parts) as [|r0 rs0] eqn:Erows; [by destruct parts|]. rewrite <- Erows. clear Erows r0 rs0.
  destruct (insert_missing (toRow <$> parts) t) as [ins t1] eqn:Ei.
  set (existing := List.filter _ (toRow <$> parts)).
  set (stored := if 0 <? length existing then _ else _).
  assert (Hex : forall row, row ∈ existing <-> row ∈ toRow <$> parts /\ is_Some (row_of t (rowPin row))).
  { intros row. unfold existing. rewrite elem_of_listfilter. pose proof (existing_iff parts t row Hpl) as H0.
    rewrite Ei in H0. simpl in H0. naive_solver. }
  assert (Hsame : forall row current, row ∈ existing -> row_of t (rowPin row) = Some current ->
                  same_row stored row = true <-> agrees current row).
  { intros row current Hrow Hc. assert (E0 : (0 <? length existing) = true).
    { destruct existing; [by apply elem_of_nil in Hrow|done]. }
    unfold stored. rewrite E0. pose proof (proj1 (Hex row) Hrow) as [Hin _].
    eapply same_row_iff; [done|done| | |].
    - apply elem_of_uniq, list_elem_of_fmap. by exists row.
    - intros i (r & -> & Hr)%elem_of_uniq%list_elem_of_fmap. apply Hex in Hr as [Hr _]. by eapply toRow_plain.
    - replace t1 with (insert_missing (toRow <$> parts) t).2 by by rewrite Ei. by apply insert_keeps. }
  destruct (List.filter (fun row => negb (same_row stored row)) existing) as [|c cs] eqn:Ec; simpl.
  - right. left. eexists. split; [done|]. split; [done|]. intros p Hp (current & Hc & Hn). apply Hn.
    assert (Hrow : toRow p ∈ existing).
    { apply Hex. split; [apply list_elem_of_fmap; eauto|]. unfold rowPin. simpl. unfold pin in Hc. rewrite Hc. eauto. }
    apply (Hsame (toRow p) current Hrow Hc). destruct (same_row stored (toRow p)) eqn:Es; [done|].
    assert (toRow p ∈ List.filter (fun row => negb (same_row stored row)) existing) as Hf
      by (apply elem_of_listfilter; by rewrite Es).
    rewrite Ec in Hf. by apply elem_of_nil in Hf.
  - left. eexists. split; [done|].
    assert (Hf : c ∈ List.filter (fun row => negb (same_row stored row)) existing) by (rewrite Ec; left).
    apply elem_of_listfilter in Hf as [Hce Hcs]. pose proof (proj1 (Hex c) Hce) as [Hcr [current Hcur]].
    pose proof (Hsame c current Hce Hcur) as Hs. apply list_elem_of_fmap in Hcr as (p & -> & Hp).
    exists p. split; [done|]. exists current. split; [done|]. rewrite <- Hs. by destruct (same_row _ _).
Qed.
End Load.

(** Part versions are immutable. Whatever the table holds, a load never
    changes or removes a row, and adds only rows of the given parts. It fails
    exactly when some part is already stored with another status or definition,
    and then leaves the table as it was; otherwise every part ends up stored,
    one that was there agreeing with what was there. *)
Theorem loadParts_immutable `{PartsTable T} parts (t : T) :
  plain_parts parts ->
  let (r, t') := loadParts parts t in
  load_effect parts t t' /\
  match r with
  | Err _ => t' = t /\ exists p, p ∈ parts /\ differs t p
  | Ok _ => forall p, p ∈ parts -> stored_as t t' p
  end.
Proof.
  intros Hpl. destruct (loadParts_cases parts t Hpl) as [(vs & -> & p & Hp & Hd)|[(res & -> & _ & Hn)|(-> & res & ->)]].
  - split; [apply load_effect_refl|]. split; [done|]. by exists p.
  - split; [apply insert_effect|]. intros p Hp.
    destruct (row_of t (pin p)) as [current|] eqn:E.
    + exists current. split; [by apply insert_keeps|]. intros _. destruct (decide (row_status current = row_status (toRow p))) as [Hs|Hs];
        [destruct (decide (canonicalJson (row_definition current) = canonicalJson (row_definition (toRow p)))) as [Hj|Hj]|].
      * done.
      * destruct (Hn p Hp). exists current. split; [done|]. by intros [_ ?].
      * destruct (Hn p Hp). exists current. split; [done|]. by intros [? _].
    + destruct (insert_all t (toRow <$> parts) (toRow p)) as (r' & Hr' & Hpin);
        [apply list_elem_of_fmap; eauto|done|].
      exists r'. split; [|congruence]. rewrite <- (insert_adds t _ _ Hr'). f_equal. by rewrite Hpin.
  - split; [apply load_effect_refl|]. by intros p ?%elem_of_nil.
Qed.

(** ** [loadCompat] and the rows it reads *)
Definition CompatRow_ok (c : CompatEntry) : bool :=
  test driver_re (ce_driver_pkg c) && (1 <=? String.length (ce_driver_ver c)) &&
  (1 <=? String.length (ce_runtime_ver c)) && PartId (ce_brain_id c) &&
  negb (bool_decide (ce_status c = pending)).

(** [readCompatRows], over what the file's schema accepts. *)
Definition readCompatRows (parsed : result (list Issue) (list CompatEntry)) : result string (list CompatEntry) :=
  match parsed with
  | Ok rows => Ok rows
  | Err iss => Err (join newline ((fun i => "  compat-matrix.json" ++ newline ++ "    [schema] " ++
                      join "." (issue_path i) ++ ": " ++ issue_message i)%string <$> iss))
  end.

(** [readValidatedParts]: the parts, or the report. *)
Definition readValidatedParts {unknown} (r : RegistryResult unknown) : result string (list PartDefinition) :=
  if 0 <? length (rr_issues r) then Err (formatIssues (rr_issues r)) else Ok (snd <$> rr_parts r).
