(* ===== verification/RegistryWitness.v ===== *)
(** * The registry's theorems at concrete inputs *)
From S2P Require Import Prelude JsString Regex JsNumber Part Assembly Json RegistryPower Rules RulesSpec Catalogue RegistryLoad MatcherWitness.
#[local] Open Scope string_scope.
#[local] Open Scope list_scope.
#[local] Open Scope nat_scope.

(** Documents, already read from JSON. *)
Inductive Doc :=
| doc_part (p : PartDefinition)
| doc_connector (c : ConnectorDefinition)
| doc_shared (l : list I2cSharedEntry)
| doc_known (l : list KnownIssue).

Definition checked {T} (get : Doc -> option T) (ok : T -> bool) (d : Doc) : result (list Issue) T :=
  match get d with
  | Some v => if ok v then Ok v else Err [mkIssue [] "invalid"]
  | None => Err [mkIssue [] "wrong shape"]
  end.

Definition part_schema := checked (fun d => match d with doc_part p => Some p | _ => None end) (PartDefinition_ok any_url).
Definition connector_schema :=
  checked (fun d => match d with doc_connector c => Some c | _ => None end) ConnectorDefinition_ok.
Definition shared_schema :=
  checked (fun d => match d with doc_shared l => Some l | _ => None end) (forallb I2cSharedEntry_ok).
Definition known_schema :=
  checked (fun d => match d with doc_known l => Some l | _ => None end) (forallb KnownIssue_ok).

Lemma checked_explains {T} (get : Doc -> option T) ok : explains (checked get ok).
Proof. intros d. unfold checked. destruct (get d) as [v|]; [destruct (ok v)|]; discriminate. Qed.

Definition part_file (p : PartDefinition) : RawFile Doc :=
  mkRaw ("parts/" ++ part_id p ++ "/part.json") (part_id p) (doc_part p) None.
Definition connector_file (c : ConnectorDefinition) : RawFile Doc :=
  mkRaw ("connectors/" ++ con_id c ++ ".json") (con_id c) (doc_connector c) None.

Definition fridge : GoldenBuild :=
  mkGolden "fridge" "Fridge" ["read.temp_c"; "net.wifi"; "power.battery"] ["read.light_lux"] "power.battery" "primary".

(** Two sensors share an address, which the registry records. *)
Definition the_registry : RegistryInput Doc :=
  mkRegistry (part_file <$> [the_host; the_battery; temp_sensor; cheap_temp; light_sensor])
    (connector_file <$> the_connectors)
    (mkRaw "i2c-shared.json" "i2c-shared"
      (doc_shared [mkShared "0x44" ["P-001"; "P-002"] "alternatives, never built together"]) None)
    (mkRaw "known-issues.json" "known-issues" (doc_known []) None)
    (fun _ _ => true) [fridge].

Lemma validateRegistry_reports_nothing_witness :
  exists cs ps shared known,
    registry_valid connector_schema part_schema shared_schema known_schema the_registry cs ps shared known.
Proof.
  apply (validateRegistry_reports_nothing connector_schema part_schema shared_schema known_schema the_registry);
    [apply checked_explains..|vm_compute; reflexivity].
Defined.

Lemma checkPowerPath_order_independent_witness :
  let parts1 := [the_host; the_battery; temp_sensor] in
  let parts2 := [temp_sensor; the_host; the_battery] in
  NoDup (part_id <$> parts1) /\ checkPowerPath fridge parts1 = checkPowerPath fridge parts2.
Proof.
  cbv zeta. assert (NoDup (part_id <$> [the_host; the_battery; temp_sensor])) as Hd.
  { apply (bool_decide_unpack _). vm_compute. reflexivity. }
  split; [exact Hd|]. apply (checkPowerPath_order_independent fridge _ _ Hd).
  symmetry. apply (Permutation_cons_append [the_host; the_battery] temp_sensor).
Defined.

(** ** A table as a list of rows *)
Section ListTable.
Definition lt_row (t : list PartRow) (k : PartPin) : option PartRow :=
  List.find (fun r => bool_decide (rowPin r = k)) t.

Fixpoint lt_insert (rows : list PartRow) (t : list PartRow) : list PartRow * list PartRow :=
  match rows with
  | [] => ([], t)
  | r :: rows =>
      match lt_row t (rowPin r) with
      | Some _ => lt_insert rows t
      | None => let '(ins, t') := lt_insert rows (t ++ [r]) in (r :: ins, t')
      end
  end.

Definition lt_find (ids : list string) (t : list PartRow) : list PartRow :=
  omap (lt_row t) (List.filter (fun k => inb (pp_id k) ids) (uniq (rowPin <$> t))).

Lemma lt_row_pin t k r : lt_row t k = Some r -> rowPin r = k /\ r ∈ t.
Proof. intros H. apply find_Some_elem in H as [H E]. by apply bool_decide_eq_true in E. Qed.

Lemma lt_row_snoc t r k :
  lt_row (t ++ [r]) k = match lt_row t k with Some x => Some x | None => if decide (rowPin r = k) then Some r else None end.
Proof.
  induction t as [|x t IH]; simpl; [by case_bool_decide; case_decide|]. by case_bool_decide.
Qed.

Lemma lt_insert_spec rows t :
  let '(ins, t') := lt_insert rows t in
  (forall r, r ∈ ins -> r ∈ rows /\ lt_row t (rowPin r) = None /\ lt_row t' (rowPin r) = Some r) /\
  (forall k r, lt_row t k = Some r -> lt_row t' k = Some r) /\
  (forall r, r ∈ rows -> lt_row t (rowPin r) = None -> exists r', r' ∈ ins /\ rowPin r' = rowPin r) /\
  (forall k r, lt_row t' k = Some r -> lt_row t k = Some r \/ r ∈ ins).
Proof.
  revert t. induction rows as [|x rows IH]; intros t; simpl.
  - split_and!; [by intros r ?%elem_of_nil|done|by intros r ?%elem_of_nil|by left].
  - destruct (lt_row t (rowPin x)) as [y|] eqn:Ex.
    + specialize (IH t). destruct (lt_insert rows t) as [ins t']. destruct IH as (A & B & C & D).
      split_and!; [|done| |done].
      * intros r Hr. destruct (A r Hr) as (? & ? & ?). split; [by right|done].
      * intros r [->|Hr]%elem_of_cons Hn; [congruence|by apply C].
    + specialize (IH (t ++ [x])). destruct (lt_insert rows (t ++ [x])) as [ins t']. destruct IH as (A & B & C & D).
      setoid_rewrite lt_row_snoc in A. setoid_rewrite lt_row_snoc in B. setoid_rewrite lt_row_snoc in C.
      setoid_rewrite lt_row_snoc in D. split_and!.
      * intros r [->|Hr]%elem_of_cons.
        -- split_and!; [left|done|]. apply B. rewrite Ex. by rewrite decide_True.
        -- destruct (A r Hr) as (H1 & H2 & H3). split_and!; [by right| |done]. by destruct (lt_row t (rowPin r)).
      * intros k r Hr. apply B. by rewrite Hr.
      * intros r Hr Hn. destruct (decide (rowPin x = rowPin r)) as [E|E]; [exists x; split; [left|done]|].
        apply elem_of_cons in Hr as [->|Hr]; [done|]. destruct (C r Hr) as (r' & Hr' & Hp).
        -- rewrite Hn. by rewrite decide_False.
        -- exists r'. split; [by right|done].
      * intros k r Hr. apply D in Hr as [Hr|Hr]; [|right; by right].
        destruct (lt_row t k); [by left|]. case_decide; simplify_eq. right. left.
Qed.

#[export] Instance list_table : PartsTable (list PartRow).
Proof.
  refine {| insert_missing := lt_insert; find_many := lt_find; row_of := lt_row |}.
  - intros t k r H. by apply lt_row_pin in H as [? _].
  - intros t rows r Hr. pose proof (lt_insert_spec rows t) as H. destruct (lt_insert rows t).
    destruct H as (A & _). by destruct (A r Hr) as (? & ? & _).
  - intros t rows k r Hr. pose proof (lt_insert_spec rows t) as H. destruct (lt_insert rows t).
    destruct H as (_ & B & _). by apply B.
  - intros t rows r Hr. pose proof (lt_insert_spec rows t) as H. destruct (lt_insert rows t).
    destruct H as (A & _). by destruct (A r Hr) as (_ & _ & ?).
  - intros t rows r Hr Hn. pose proof (lt_insert_spec rows t) as H. destruct (lt_insert rows t).
    destruct H as (_ & _ & C & _). by apply C.
  - intros t rows k r Hr. pose proof (lt_insert_spec rows t) as H. destruct (lt_insert rows t).
    destruct H as (_ & _ & _ & D). by apply (D k).
  - intros t ids r. unfold lt_find. rewrite list_elem_of_omap. setoid_rewrite elem_of_listfilter.
    setoid_rewrite elem_of_uniq. setoid_rewrite inb_true. split.
    + intros (k & [_ Hk] & Hr). apply lt_row_pin in Hr as Hp. destruct Hp as [<- _]. done.
    + intros [Hi Hr]. exists (rowPin r). split; [|done]. split; [|done]. apply list_elem_of_fmap.
      exists r. split; [done|]. by apply lt_row_pin in Hr as [_ ?].
Defined.
End ListTable.

(** The host is stored already; loading it again with a sensor adds the sensor. *)
Lemma loadParts_immutable_witness :
  let (r, t') := loadParts [the_host; temp_sensor] [toRow the_host] in
  load_effect [the_host; temp_sensor] [toRow the_host] t' /\
  r = Ok (mkLoad ["P-001@1.0.0"] ["C-001@1.0.0"]).
Proof.
  assert (Hp : plain_parts [the_host; temp_sensor]).
  { intros p [->|[->|?%elem_of_nil]%elem_of_cons]%elem_of_cons; [reflexivity..|done]. }
  pose proof (loadParts_immutable [the_host; temp_sensor] [toRow the_host] Hp) as H.
  assert (E : (loadParts [the_host; temp_sensor] [toRow the_host]).1 = Ok (mkLoad ["P-001@1.0.0"] ["C-001@1.0.0"]))
    by (vm_compute; reflexivity).
  destruct (loadParts [the_host; temp_sensor] [toRow the_host]) as [r t'].
  split; [exact (proj1 H)|exact E].
Defined.

Lemma buildCatalogue_order_independent_witness :
  let parts1 := [the_host; the_battery; temp_sensor] in
  let parts2 := [temp_sensor; the_host; the_battery] in
  buildCatalogue [active] parts1 = buildCatalogue [active] parts2.
Proof.
  apply (buildCatalogue_order_independent [active]).
  - apply (bool_decide_unpack _). vm_compute. reflexivity.
  - symmetry. apply (Permutation_cons_append [the_host; the_battery] temp_sensor).
Defined.

Lemma buildCatalogue_menu_witness :
  let c := buildCatalogue [active] [the_host; temp_sensor] in
  NoDup (pin <$> [the_host; temp_sensor]) /\ NoDup (ct_id <$> cat_parts c).
Proof.
  cbv zeta. assert (Hd : NoDup (pin <$> [the_host; temp_sensor])) by (apply (bool_decide_unpack _); vm_compute; reflexivity).
  split; [exact Hd|]. exact (proj1 (proj2 (buildCatalogue_menu [active] _ Hd))).
Defined.
