(* ===== verification/Spec.v ===== *)
(** * The device spec ([packages/schema/src/spec.ts])

    What intake produces turn by turn, and what the model returns. *)
From S2P Require Import Prelude JsString Regex JsNumber Part Assembly MatcherTypes Json.
#[local] Open Scope string_scope.
#[local] Open Scope list_scope.
#[local] Open Scope nat_scope.

Inductive PowerSource := src_battery | src_solar | src_usb | src_unknown.
#[export] Instance PowerSource_eq_dec : EqDecision PowerSource.
Proof. solve_decision. Defined.
Definition show_source (s : PowerSource) : string :=
  match s with src_battery => "battery" | src_solar => "solar" | src_usb => "usb" | src_unknown => "unknown" end.

Definition Short (s : string) : bool := String.length s <=? 120.
Definition Sentence (s : string) : bool := String.length s <=? 300.

Definition CapabilityId (s : string) : bool :=
  (String.length s <=? 64) &&
  test (rcat [Chr is_lower; Star (Chr cap_char); rplus (Cat (lit ".") (rplus (Chr cap_char)))]) s.

Record OpenQuestion := mkQuestion { q_field : string; q_question : string; q_options : option (list string) }.
#[export] Instance OpenQuestion_eq_dec : EqDecision OpenQuestion.
Proof. solve_decision. Defined.
Definition OpenQuestion_ok (q : OpenQuestion) : bool :=
  len_between 1 64 (q_field q) && len_between 1 300 (q_question q) &&
  opt_ok (fun l => len_list 1 4 l && forallb (len_between 1 60) l) (q_options q).

Record Sense := mkSense { sense_what : list string; sense_accuracy : option string; sense_interval_s : option num }.
Definition Sense_ok (s : Sense) : bool :=
  (length (sense_what s) <=? 12) && forallb Short (sense_what s) && opt_ok Short (sense_accuracy s) &&
  opt_ok Positive (sense_interval_s s).

Definition Act_ok (what : list string) : bool := (length what <=? 12) && forallb Short what.

Record Environment := mkEnvironment { env_location : string; env_flags : list string }.
Definition Environment_ok (e : Environment) : bool :=
  Short (env_location e) && (length (env_flags e) <=? 16) &&
  forallb (fun f => String.length f <=? 64) (env_flags e).

Record Connect := mkConnect { conn_transport : Transport; conn_experience : list string }.
Definition Connect_ok (c : Connect) : bool := (length (conn_experience c) <=? 12) && forallb Short (conn_experience c).

Record Power := mkPower { power_source : PowerSource; power_target_life_days : option num }.
Definition Power_ok (p : Power) : bool := opt_ok Positive (power_target_life_days p).

Record Experience := mkExperience { exp_alerts : option (list string); exp_dashboard : option bool }.
Definition Experience_ok (e : Experience) : bool :=
  opt_ok (fun l => (length l <=? 12) && forallb Short l) (exp_alerts e).

(** [SpecBody] and [settled]. [act] is its [what]. *)
Record Spec := mkSpec {
  spec_sense : Sense;
  spec_act : option (list string);
  spec_environment : Environment;
  spec_connect : Connect;
  spec_power : Power;
  spec_experience : Experience;
  spec_capability_ids : list string;
  assumptions : list string;
  open_questions : list OpenQuestion;
  settled : bool
}.

Definition Spec_ok (s : Spec) : bool :=
  Sense_ok (spec_sense s) && opt_ok Act_ok (spec_act s) && Environment_ok (spec_environment s) &&
  Connect_ok (spec_connect s) && Power_ok (spec_power s) && Experience_ok (spec_experience s) &&
  (length (spec_capability_ids s) <=? 24) && forallb CapabilityId (spec_capability_ids s) &&
  (length (assumptions s) <=? 20) && forallb Sentence (assumptions s) &&
  (length (open_questions s) <=? 6) && forallb OpenQuestion_ok (open_questions s).

(** ** [SpecPatch]: every field of every section optional *)
Record SpecPatch := mkPatch {
  p_sense : option (option (list string) * option string * option num);
  p_act : option (option (list string));
  p_environment : option (option string * option (list string));
  p_connect : option (option Transport * option (list string));
  p_power : option (option PowerSource * option num);
  p_experience : option (option (list string) * option bool);
  p_capabilities : option (list string);
  p_assumptions : option (list string);
  p_open_questions : option (list OpenQuestion)
}.

Definition SpecPatch_ok (p : SpecPatch) : bool :=
  opt_ok (fun s => opt_ok Act_ok s.1.1 && opt_ok Short s.1.2 && opt_ok Positive s.2) (p_sense p) &&
  opt_ok (opt_ok Act_ok) (p_act p) &&
  opt_ok (fun e => opt_ok Short e.1 &&
            opt_ok (fun l => (length l <=? 16) && forallb (fun f => String.length f <=? 64) l) e.2) (p_environment p) &&
  opt_ok (fun c => opt_ok Act_ok c.2) (p_connect p) &&
  opt_ok (fun w => opt_ok Positive w.2) (p_power p) &&
  opt_ok (fun e => opt_ok Act_ok e.1) (p_experience p) &&
  opt_ok (fun l => (length l <=? 24) && forallb (fun c => String.length c <=? 64) l) (p_capabilities p) &&
  opt_ok (fun l => (length l <=? 20) && forallb Sentence l) (p_assumptions p) &&
  opt_ok (fun l => (length l <=? 6) && forallb OpenQuestion_ok l) (p_open_questions p).

Inductive ReplyKind := kind_spec | kind_off_topic.

(** One model turn. *)
Record SpecTurn := mkTurn {
  reply_kind : ReplyKind;
  spec_patch : SpecPatch;
  candidate_questions : list OpenQuestion;
  turn_assumptions : list string;
  turn_reply : string
}.
Definition SpecTurn_ok (t : SpecTurn) : bool :=
  SpecPatch_ok (spec_patch t) && (length (candidate_questions t) <=? 6) &&
  forallb OpenQuestion_ok (candidate_questions t) && (length (turn_assumptions t) <=? 10) &&
  forallb Sentence (turn_assumptions t) && len_between 1 2000 (turn_reply t).

Inductive IntakeBuildStatus := specifying | asking | planning.
#[export] Instance IntakeBuildStatus_eq_dec : EqDecision IntakeBuildStatus.
Proof. solve_decision. Defined.

(** ** The stored text *)
Definition opt_entry {A} (k : string) (f : A -> json) (o : option A) : list (string * json) :=
  match o with Some x => [(k, f x)] | None => [] end.
Definition texts (l : list string) : json := JArr (JStr <$> l).

Definition question_json (q : OpenQuestion) : json :=
  JObj ([("field", JStr (q_field q)); ("question", JStr (q_question q))] ++ opt_entry "options" texts (q_options q)).

Definition spec_json (s : Spec) : json :=
  JObj ([("sense", JObj ([("what", texts (sense_what (spec_sense s)))] ++
                         opt_entry "accuracy" JStr (sense_accuracy (spec_sense s)) ++
                         opt_entry "interval_s" JNum (sense_interval_s (spec_sense s))))] ++
        opt_entry "act" (fun what => JObj [("what", texts what)]) (spec_act s) ++
        [("environment", JObj [("location", JStr (env_location (spec_environment s)));
                               ("flags", texts (env_flags (spec_environment s)))]);
         ("connect", JObj [("transport", JStr (show_transport (conn_transport (spec_connect s))));
                           ("experience", texts (conn_experience (spec_connect s)))]);
         ("power", JObj ([("source", JStr (show_source (power_source (spec_power s))))] ++
                         opt_entry "target_life_days" JNum (power_target_life_days (spec_power s))));
         ("experience", JObj (opt_entry "alerts" texts (exp_alerts (spec_experience s)) ++
                              opt_entry "dashboard" JBool (exp_dashboard (spec_experience s))));
         ("capabilities", texts (spec_capability_ids s)); ("assumptions", texts (assumptions s));
         ("open_questions", JArr (question_json <$> open_questions s)); ("settled", JBool (settled s))]).
