(* ===== verification/Decide.v ===== *)
(** * One turn of intake ([apps/intake/src/decide.ts], [replies.ts])

    Merging the model's patch, keeping the questions that change the parts,
    deciding whether the spec settles, and writing the reply. *)
From S2P Require Import Prelude JsString Regex JsNumber Part Assembly MatcherTypes Json Rules Spec.
#[local] Open Scope string_scope.
#[local] Open Scope list_scope.
#[local] Open Scope nat_scope.

(** ** Replies code writes ([replies.ts]) *)
Inductive ScopeCategory := weapons_harm | mains_voltage | medical_monitoring | covert_tracking.
#[export] Instance ScopeCategory_eq_dec : EqDecision ScopeCategory.
Proof. solve_decision. Defined.

Definition OUT_OF_SCOPE_REASON (c : ScopeCategory) : string :=
  match c with
  | weapons_harm => "devices meant to hurt people or animals"
  | mains_voltage => "anything wired to mains electricity"
  | medical_monitoring => "devices that monitor or diagnose medical conditions"
  | covert_tracking => "devices that track or record people without their knowledge"
  end.

Definition WHAT_WE_BUILD : string :=
  "Albus Forge designs small connected devices that sense something and tell you about it.".

Definition outOfScopeReply (c : ScopeCategory) : string :=
  ("Sorry — Albus Forge doesn't make " ++ OUT_OF_SCOPE_REASON c ++ ", so this isn't something I can design. " ++
   WHAT_WE_BUILD ++ " If that's what you're after, describe the device and I'll start there.")%string.

Definition REFUSAL_REPLY : string :=
  ("Sorry — that isn't something I can design. " ++ WHAT_WE_BUILD ++
   " If that's what you're after, describe the device and I'll start there.")%string.

Definition offTopicReply (again : bool) : string :=
  if again
  then ("I can't help with that one either — designing a device is all I do here. " ++ WHAT_WE_BUILD ++
        " I'll be here when you have one in mind.")%string
  else ("That's not something I can help with — I only design devices. " ++ WHAT_WE_BUILD ++
        " Tell me what you'd like one to do and we'll get started.")%string.

Definition FALLBACK_REPLY : string :=
  "Something went wrong on my end, so I couldn't get to that — nothing to do with what you wrote. Send it again in a moment and it should go through.".

Definition TOKEN_CEILING_REPLY : string :=
  "This design conversation has reached its length limit, so I can't take more changes here. Start a new build to keep going.".

Definition QUESTIONS_INTRO_ONE : string := "Thanks. One thing changes which parts I'd pick:".
Definition QUESTIONS_INTRO_MANY : string := "Thanks. A few things change which parts I'd pick:".

Definition questionsReply (questions : list OpenQuestion) : string :=
  ((if Nat.eqb (length questions) 1 then QUESTIONS_INTRO_ONE else QUESTIONS_INTRO_MANY) ++ newline ++
   join newline ((fun q => "- " ++ q_question q)%string <$> questions))%string.

Definition settledReply (defaults : list string) : string :=
  let shown := last_n 5 defaults in
  ("That's everything I need to pick parts." ++
   (if Nat.ltb O (length shown)
    then newline ++ newline ++ "I'm going with these defaults, and you can change any of them:" ++ newline ++
         join newline ((fun a => "- " ++ a)%string <$> shown)
    else ""))%string.

Definition NEEDS_MORE_REPLY : string :=
  "Tell me a bit more about what the device should sense or do, and I'll take it from there.".

(** ** Limits *)
Definition SOLVER_RELEVANT_FIELDS : list string :=
  ["sense.what"; "act.what"; "power.source"; "connect.transport"; "power.target_life_days"; "environment.flags"].
Definition MAX_CLARIFICATION_ROUNDS : nat := 4.
Definition MAX_QUESTIONS_PER_ROUND : nat := 1.
Definition MAX_ASSUMPTIONS : nat := 20.

Definition FIELD_LABEL : list (string * string) :=
  [("sense.what", "what it measures"); ("act.what", "what it does"); ("power.source", "how it's powered");
   ("connect.transport", "how it connects"); ("power.target_life_days", "how long the battery should last");
   ("environment.flags", "the conditions where it lives")].

(** The registry vocabulary a spec is checked against. *)
Record Vocabulary := mkVocabulary { voc_capabilities : list string; voc_environmentFlags : list string }.

Definition emptySpec : Spec :=
  mkSpec (mkSense [] None None) None (mkEnvironment "unspecified" []) (mkConnect wifi [])
    (mkPower src_unknown None) (mkExperience None None) [] [] [] false.

Definition FLAG_SHAPE (v : string) : bool :=
  test (Cat (Chr is_lower_digit) (rupto 63 (Chr (fun c => is_lower_digit c || one_of ":.-" c)))) v.

Definition describeDropped (value : string) (shape : string -> bool) (kind : string) : string :=
  if shape value then value else ("an unrecognised " ++ kind)%string.

(** ** [mergePatch] *)
Record MergeResult := mkMerge { merged_spec : Spec; droppedCapabilities : list string; droppedFlags : list string }.

(** A field a patch may override; one it may set. *)
Definition over {A} (old : A) (new : option A) : A := default old new.
Definition over_opt {A} (old new : option A) : option A := match new with Some x => Some x | None => old end.

Definition merge_sense (s : Sense) (p : option (option (list string) * option string * option num)) : Sense :=
  match p with
  | Some (what, acc, i) => mkSense (over (sense_what s) what) (over_opt (sense_accuracy s) acc) (over_opt (sense_interval_s s) i)
  | None => s
  end.

(** [{ what: [], ...spec.act, ...defined(patch.act) }], dropped when empty. *)
Definition merge_act (a : option (list string)) (p : option (option (list string))) : option (list string) :=
  let a' := match p with Some what => Some (over (default [] a) what) | None => a end in
  match a' with Some [] => None | _ => a' end.

Definition merge_environment (e : Environment) (p : option (option string * option (list string))) : Environment :=
  match p with
  | Some (l, f) => mkEnvironment (over (env_location e) l) (over (env_flags e) f)
  | None => e
  end.

Definition merge_connect (c : Connect) (p : option (option Transport * option (list string))) : Connect :=
  match p with
  | Some (t, x) => mkConnect (over (conn_transport c) t) (over (conn_experience c) x)
  | None => c
  end.

Definition merge_power (w : Power) (p : option (option PowerSource * option num)) : Power :=
  match p with
  | Some (s, d) => mkPower (over (power_source w) s) (over_opt (power_target_life_days w) d)
  | None => w
  end.

Definition merge_experience (e : Experience) (p : option (option (list string) * option bool)) : Experience :=
  match p with
  | Some (a, d) => mkExperience (over_opt (exp_alerts e) a) (over_opt (exp_dashboard e) d)
  | None => e
  end.

Definition known_capability (v : Vocabulary) (id : string) : bool := CapabilityId id && inb id (voc_capabilities v).

Definition mergePatch (base : Spec) (patch : SpecPatch) (v : Vocabulary) : MergeResult :=
  let env := merge_environment (spec_environment base) (p_environment patch) in
  let flags := uniq (env_flags env) in
  let known f := inb f (voc_environmentFlags v) in
  let caps := match p_capabilities patch with Some l => uniq (trim <$> l) | None => [] end in
  mkMerge
    (mkSpec (merge_sense (spec_sense base) (p_sense patch)) (merge_act (spec_act base) (p_act patch))
       (mkEnvironment (env_location env) (List.filter known flags))
       (merge_connect (spec_connect base) (p_connect patch)) (merge_power (spec_power base) (p_power patch))
       (merge_experience (spec_experience base) (p_experience patch))
       (match p_capabilities patch with
        | Some _ => List.filter (known_capability v) caps
        | None => spec_capability_ids base
        end)
       (last_n MAX_ASSUMPTIONS (uniq (assumptions base ++ default [] (p_assumptions patch))))
       (open_questions base) (settled base))
    (List.filter (fun c => negb (known_capability v c)) caps)
    (List.filter (fun f => negb (known f)) flags).

(** ** [filterQuestions] *)
Record QuestionFilter := mkFilter {
  kept : list OpenQuestion;
  cappedOut : list OpenQuestion;
  irrelevant : list OpenQuestion
}.

(** The question as the chat shows it. *)
Definition clean_question (q : OpenQuestion) : OpenQuestion :=
  let options := (fun l => List.filter (fun o => 0 <? String.length o) (trim <$> l)) <$> q_options q in
  mkQuestion (trim (q_field q)) (trim (q_question q))
    (match uniq <$> options with
     | Some distinct => if 0 <? length distinct then Some (take 4 distinct) else None
     | None => None
     end).

(** One turn of the loop over the candidates. *)
Definition sort_question (capReached : bool) (st : list string * QuestionFilter) (candidate : OpenQuestion)
    : list string * QuestionFilter :=
  let '(seen, f) := st in
  let field := trim (q_field candidate) in
  if negb (inb field SOLVER_RELEVANT_FIELDS)
  then (seen, mkFilter (kept f) (cappedOut f) (irrelevant f ++ [candidate]))
  else if inb field seen then (seen, f)
  else
    let question := clean_question candidate in
    (seen ++ [field],
     if capReached || (MAX_QUESTIONS_PER_ROUND <=? length (kept f))
     then mkFilter (kept f) (cappedOut f ++ [question]) (irrelevant f)
     else mkFilter (kept f ++ [question]) (cappedOut f) (irrelevant f)).

Definition filterQuestions (candidates : list OpenQuestion) (roundsUsed : nat) : QuestionFilter :=
  (fold_left (sort_question (MAX_CLARIFICATION_ROUNDS <=? roundsUsed)) candidates ([], mkFilter [] [] [])).2.

(** ** [decide] *)
Record Decision := mkDecision {
  dec_spec : Spec;
  dec_reply : string;
  dec_status : IntakeBuildStatus;
  newVersion : bool;
  confidence : num;
  dec_droppedCapabilities : list string;
  dec_droppedFlags : list string
}.

Definition spec_text (s : Spec) : string := stringify (spec_json s).

Definition notes (m : MergeResult) : list string :=
  ((fun c => "Left out, not in the parts catalogue: " ++ describeDropped c CapabilityId "capability")%string
     <$> droppedCapabilities m) ++
  ((fun f => "Left out, not a known environment condition: " ++ describeDropped f FLAG_SHAPE "condition")%string
     <$> droppedFlags m).

Definition default_taken (field : string) : string :=
  ("No answer on " ++ default field (map_get field FIELD_LABEL) ++ "; the spec uses a default for it")%string.

(** The spec before it is parsed, and the questions. *)
Definition draft_decision (previous : option Spec) (turn : SpecTurn) (v : Vocabulary) (roundsUsed : nat)
    : Spec * QuestionFilter * MergeResult :=
  let base := default emptySpec previous in
  let merged := mergePatch base (spec_patch turn) v in
  let s := merged_spec merged in
  let rounds := if settled base then MAX_CLARIFICATION_ROUNDS else roundsUsed in
  let questions := filterQuestions (candidate_questions turn) rounds in
  let capped := List.filter (fun q => negb (existsb (fun k => q_field k ==s q_field q) (kept questions)))
                  (cappedOut questions) in
  let is_settled := (0 <? length (spec_capability_ids s)) && Nat.eqb (length (kept questions)) 0 in
  let defaultsTaken := if is_settled then default_taken <$> uniq (q_field <$> capped) else [] in
  (mkSpec (spec_sense s) (spec_act s) (spec_environment s) (spec_connect s) (spec_power s) (spec_experience s)
     (spec_capability_ids s)
     (last_n MAX_ASSUMPTIONS (uniq (assumptions s ++ turn_assumptions turn ++ notes merged ++ defaultsTaken)))
     (kept questions) is_settled, questions, merged).

Definition decision_reply (turn : SpecTurn) (s : Spec) (questions : QuestionFilter) : string :=
  if Nat.eqb (length (cappedOut questions)) 0 && Nat.eqb (length (irrelevant questions)) 0 then turn_reply turn
  else if 0 <? length (kept questions) then questionsReply (kept questions)
  else if settled s then settledReply (assumptions s)
  else NEEDS_MORE_REPLY.

(** [None] is the [ZodError] of [Spec.parse]. *)
Definition decide_turn (previous : option Spec) (turn : SpecTurn) (v : Vocabulary) (roundsUsed : nat)
    : option Decision :=
  let '(s, questions, merged) := draft_decision previous turn v roundsUsed in
  if Spec_ok s then
    let changed := match previous with Some p => negb (spec_text p ==s spec_text s) | None => true end in
    Some (mkDecision s (decision_reply turn s questions)
      (if settled s then planning else asking)
      (changed || (0 <? length (kept questions)))
      (if settled s then of_Z 1
       else nmax nzero (nsub (of_Z 1) (ndiv (of_nat (length (kept questions)))
                                             (of_nat (length SOLVER_RELEVANT_FIELDS)))))
      (droppedCapabilities merged) (droppedFlags merged))
  else None.
