(* ===== verification/DecideSpec.v ===== *)
(** * What a turn of intake guarantees

    The questions kept, the vocabulary, when a spec settles, when a turn cannot
    be stored, and the bound on clarification rounds over a conversation. *)
From S2P Require Import Prelude JsString Regex JsNumber Part Assembly MatcherTypes Json Rules Spec Decide.
#[local] Open Scope string_scope.
#[local] Open Scope list_scope.
#[local] Open Scope nat_scope.

(** ** The questions *)
Definition relevant (q : OpenQuestion) : bool := inb (trim (q_field q)) SOLVER_RELEVANT_FIELDS.

(** The first question on each relevant field, as shown. *)
Fixpoint first_per_field (seen : list string) (qs : list OpenQuestion) : list OpenQuestion :=
  match qs with
  | [] => []
  | q :: qs =>
      if relevant q && negb (inb (trim (q_field q)) seen)
      then clean_question q :: first_per_field (seen ++ [trim (q_field q)]) qs
      else first_per_field seen qs
  end.

Definition asked (qs : list OpenQuestion) : list OpenQuestion := first_per_field [] qs.

(** How many may be asked in a turn. *)
Definition allowance (roundsUsed : nat) : nat :=
  if MAX_CLARIFICATION_ROUNDS <=? roundsUsed then 0 else MAX_QUESTIONS_PER_ROUND.

Lemma allowance_le r : allowance r <= 1.
Proof. unfold allowance, MAX_QUESTIONS_PER_ROUND. case_match; lia. Qed.

Lemma sort_questions_spec cap qs seen D irr :
  let n := if cap : bool then 0 else MAX_QUESTIONS_PER_ROUND in
  (fold_left (sort_question cap) qs (seen, mkFilter (take n D) (drop n D) irr)).2 =
  mkFilter (take n (D ++ first_per_field seen qs)) (drop n (D ++ first_per_field seen qs))
    (irr ++ List.filter (fun q => negb (relevant q)) qs).
Proof.
  intros n. revert seen D irr. induction qs as [|q qs IH]; intros seen D irr; simpl.
  - by rewrite !app_nil_r.
  - fold (relevant q). destruct (relevant q) eqn:Er; simpl.
    + destruct (inb (trim (q_field q)) seen) eqn:Es; simpl; [by rewrite IH|].
      specialize (IH (seen ++ [trim (q_field q)]) (D ++ [clean_question q]) irr).
      rewrite <- !app_assoc in IH. simpl in IH. rewrite <- IH. do 2 f_equal.
      assert (E : (cap || match length (take n D) with 0 => false | S _ => true end) = (n <=? length D)).
      { unfold n. by destruct cap, D. }
      rewrite E. destruct (Nat.leb_spec n (length D)).
      * rewrite take_app_le, drop_app_le by done. done.
      * rewrite (take_ge D), (drop_ge D) by lia. rewrite take_ge, drop_ge; [done|..];
          rewrite length_app; simpl; unfold n, MAX_QUESTIONS_PER_ROUND in *; destruct cap; lia.
    + specialize (IH seen D (irr ++ [q])). rewrite IH. by rewrite <- app_assoc.
Qed.

Lemma filterQuestions_eq qs rounds :
  filterQuestions qs rounds =
  mkFilter (take (allowance rounds) (asked qs)) (drop (allowance rounds) (asked qs))
    (List.filter (fun q => negb (relevant q)) qs).
Proof.
  unfold filterQuestions, allowance.
  pose proof (sort_questions_spec (MAX_CLARIFICATION_ROUNDS <=? rounds) qs [] [] []) as H.
  cbv zeta in H. rewrite take_nil, drop_nil in H. rewrite H. by destruct (_ <=? rounds).
Qed.

Lemma first_per_field_fields seen qs :
  NoDup (q_field <$> first_per_field seen qs) /\
  (forall f, f ∈ q_field <$> first_per_field seen qs <->
     f ∉ seen /\ exists q, q ∈ qs /\ relevant q = true /\ trim (q_field q) = f).
Proof.
  revert seen. induction qs as [|q qs IH]; intros seen; csimpl.
  - split; [constructor|]. intros f. split; [by intros ?%elem_of_nil|]. by intros (_ & ? & ?%elem_of_nil & _).
  - destruct (relevant q && negb (inb (trim (q_field q)) seen)) eqn:E; csimpl.
    + bools. apply inb_false in H0. destruct (IH (seen ++ [trim (q_field q)])) as [Hd Hf]. split.
      * apply NoDup_cons. split; [|done]. rewrite Hf, elem_of_app, list_elem_of_singleton. tauto.
      * intros f. rewrite elem_of_cons, Hf, not_elem_of_app, list_elem_of_singleton. setoid_rewrite elem_of_cons.
        split.
        -- intros [->|([? ?] & q' & ? & ? & ?)]; [split; [done|by exists q; auto]|]. split; [done|]. exists q'. auto.
        -- intros (Hs & q' & [->|Hq'] & Hr & Hq); [by left|]. destruct (decide (f = trim (q_field q))); [by left|].
           right. split; [done|]. eauto.
    + destruct (IH seen) as [Hd Hf]. split; [done|]. intros f. rewrite Hf. setoid_rewrite elem_of_cons. split.
      * intros (Hs & q' & ? & ? & ?). split; [done|]. exists q'. auto.
      * intros (Hs & q' & [->|Hq'] & Hr & Hq); [|eauto].
        rewrite Hr in E. simpl in E. apply negb_false_iff, inb_true in E. by rewrite Hq in E.
Qed.

(** Of the model's questions a turn asks at most one, and none once four
    rounds have been asked: the first that resolves a field the solver needs,
    cleaned up. The rest are sorted without loss: questions on other fields are
    set aside as they are, each needed field keeps its first question only. *)
Theorem filterQuestions_correct qs rounds :
  let f := filterQuestions qs rounds in
  kept f ++ cappedOut f = asked qs /\
  length (kept f) = Nat.min (if rounds <? 4 then 1 else 0) (length (asked qs)) /\
  irrelevant f = List.filter (fun q => negb (relevant q)) qs /\
  NoDup (q_field <$> asked qs) /\
  (forall g, g ∈ q_field <$> asked qs <-> exists q, q ∈ qs /\ relevant q = true /\ trim (q_field q) = g).
Proof.
  cbv zeta. rewrite filterQuestions_eq. simpl. destruct (first_per_field_fields [] qs) as [Hd Hf].
  split_and!; [apply take_drop| |done|done|].
  - rewrite length_take. unfold allowance, MAX_CLARIFICATION_ROUNDS, MAX_QUESTIONS_PER_ROUND.
    by destruct (Nat.leb_spec 4 rounds), (Nat.ltb_spec rounds 4); try lia.
  - intros g. unfold asked. rewrite Hf. split; [by intros [_ ?]|]. intros H. split; [apply not_elem_of_nil|done].
Qed.

(** ** The spec a turn produces *)
Section Turn.
Context (previous : option Spec) (turn : SpecTurn) (v : Vocabulary) (roundsUsed : nat).
#[local] Abbreviation base := (default emptySpec previous).
#[local] Abbreviation rounds := (if settled base then MAX_CLARIFICATION_ROUNDS else roundsUsed).

(** The question the turn asks, if any. *)
Definition asked_now : list OpenQuestion := take (allowance rounds) (asked (candidate_questions turn)).

Lemma kept_asked_now : kept (filterQuestions (candidate_questions turn) rounds) = asked_now.
Proof. by rewrite filterQuestions_eq. Qed.

Definition merged_capabilities : list string := spec_capability_ids (merged_spec (mergePatch base (spec_patch turn) v)).

Lemma draft_fields s qs m :
  draft_decision previous turn v roundsUsed = (s, qs, m) ->
  m = mergePatch base (spec_patch turn) v /\ kept qs = asked_now /\
  open_questions s = asked_now /\ spec_capability_ids s = merged_capabilities /\
  env_flags (spec_environment s) = env_flags (spec_environment (merged_spec m)) /\
  settled s = (0 <? length merged_capabilities) && Nat.eqb (length asked_now) 0.
Proof.
  unfold draft_decision. cbv zeta. intros [= <- <- <-]. cbn [open_questions spec_capability_ids spec_environment settled].
  by rewrite kept_asked_now.
Qed.

Lemma decide_Some d :
  decide_turn previous turn v roundsUsed = Some d ->
  exists qs, draft_decision previous turn v roundsUsed = (dec_spec d, qs, mergePatch base (spec_patch turn) v) /\
    Spec_ok (dec_spec d) = true /\ dec_reply d = decision_reply turn (dec_spec d) qs /\
    dec_status d = (if settled (dec_spec d) then planning else asking) /\
    (0 < length (kept qs) -> newVersion d = true).
Proof.
  unfold decide_turn. destruct (draft_decision _ _ _ _) as [[s qs] m] eqn:E. destruct (Spec_ok s) eqn:Es; [|done].
  intros [= <-]. simpl. apply draft_fields in E as E'. destruct E' as (-> & _). exists qs. split_and!; try done.
  intros H. apply Nat.ltb_lt in H. rewrite H. by rewrite orb_true_r.
Qed.

Lemma merged_vocabulary c :
  c ∈ merged_capabilities -> (c ∈ voc_capabilities v) \/ c ∈ spec_capability_ids base.
Proof.
  unfold merged_capabilities, mergePatch. simpl. destruct (p_capabilities (spec_patch turn)); [|by right].
  rewrite elem_of_listfilter. unfold known_capability. intros [_ H]. bools. left. by apply inb_true.
Qed.
End Turn.

(** What a decision owes the spec it started from. *)
Definition decided_well (previous : option Spec) (v : Vocabulary) (roundsUsed : nat) (d : Decision) : Prop :=
  let s := dec_spec d in let base := default emptySpec previous in
  Spec_ok s = true /\
  (forall f, f ∈ env_flags (spec_environment s) -> f ∈ voc_environmentFlags v) /\
  (forall c, c ∈ spec_capability_ids s -> c ∈ voc_capabilities v \/ c ∈ spec_capability_ids base) /\
  length (open_questions s) <= 1 /\
  (forall q, q ∈ open_questions s -> q_field q ∈ SOLVER_RELEVANT_FIELDS /\ settled base = false /\ roundsUsed < 4) /\
  (settled s = true <-> spec_capability_ids s <> [] /\ open_questions s = []) /\
  (dec_status d = planning <-> settled s = true) /\
  (open_questions s <> [] -> newVersion d = true).

Lemma decide_decided_well previous turn v roundsUsed d :
  decide_turn previous turn v roundsUsed = Some d -> decided_well previous v roundsUsed d.
Proof.
  intros H. unfold decided_well. set (s := dec_spec d). set (base := default emptySpec previous).
  apply decide_Some in H as (qs & E & Hok & _ & Hst & Hnv).
  apply draft_fields in E as (_ & Ek & Eq & Ec & Ef & Es). unfold s. rewrite Ek in Hnv. split_and!.
  - done.
  - intros f. rewrite Ef. unfold mergePatch. simpl. rewrite elem_of_listfilter. intros [_ Hf]. by apply inb_true.
  - intros c. rewrite Ec. apply merged_vocabulary.
  - rewrite Eq. unfold asked_now. rewrite length_take.
    match goal with |- context [allowance ?r] => pose proof (allowance_le r) end. lia.
  - intros q. rewrite Eq. unfold asked_now, allowance. intros Hq. split.
    + apply list_elem_of_lookup in Hq as [i Hi]. apply lookup_take_Some in Hi as [Hi _].
      assert (Hin : q_field q ∈ q_field <$> asked (candidate_questions turn)).
      { apply list_elem_of_fmap. exists q. split; [done|]. by eapply list_elem_of_lookup_2. }
      apply first_per_field_fields in Hin as (_ & q' & _ & Hr & <-). by apply inb_true.
    + destruct (MAX_CLARIFICATION_ROUNDS <=? _) eqn:El; [by apply elem_of_nil in Hq|].
      apply Nat.leb_gt in El. unfold base. destruct (settled (default emptySpec previous)); [unfold MAX_CLARIFICATION_ROUNDS in El; lia|].
      split; [done|]. unfold MAX_CLARIFICATION_ROUNDS in El. lia.
  - rewrite Es, Ec, Eq, andb_true_iff, Nat.ltb_lt, Nat.eqb_eq.
    split; intros [H1 H2]; split.
    + intros E0. rewrite E0 in H1. simpl in H1. lia.
    + by apply nil_length_inv.
    + destruct (merged_capabilities _ _ _); [done|simpl; lia].
    + by rewrite H2.
  - rewrite Hst. by destruct (settled (dec_spec d)).
  - rewrite Eq. intros Hne. apply Hnv. destruct (asked_now _ _ _); [done|simpl; lia].
Qed.

(** C8: The decision of a turn. The stored spec passes the schema, its
    environment flags are in the registry's vocabulary and so is every
    capability not carried over; it asks at most one question, on a field the
    solver needs, and none after four rounds or once settled; it settles exactly
    when it has capabilities and asks nothing, which is when planning begins;
    and a turn that asks is stored as a version. *)
Theorem decide_correct previous turn v roundsUsed d :
  decide_turn previous turn v roundsUsed = Some d -> decided_well previous v roundsUsed d.
Proof. apply decide_decided_well. Qed.

(** ** When a turn cannot be stored *)
Lemma trim_end_length s : String.length (trim_end s) <= String.length s.
Proof.
  induction s as [|c s IH]; simpl; [lia|]. destruct (trim_end s) as [|d t]; simpl in *; [|lia].
  destruct (is_space c); simpl; lia.
Qed.
Lemma trim_start_length s : String.length (trim_start s) <= String.length s.
Proof. induction s as [|c s IH]; simpl; [lia|]. destruct (is_space c); simpl; lia. Qed.
Lemma trim_length s : String.length (trim s) <= String.length s.
Proof. unfold trim. etransitivity; [apply trim_end_length|apply trim_start_length]. Qed.

Lemma forallb_sub {A} (f : A -> bool) l l' :
  (forall x, x ∈ l' -> x ∈ l) -> forallb f l = true -> forallb f l' = true.
Proof. rewrite !forallb_elem. auto. Qed.

Lemma capped_assumptions l :
  forallb Sentence l = true ->
  (length (last_n MAX_ASSUMPTIONS (uniq l)) <=? 20) = true /\ forallb Sentence (last_n MAX_ASSUMPTIONS (uniq l)) = true.
Proof.
  intros H. split.
  - apply Nat.leb_le. rewrite last_n_length. unfold MAX_ASSUMPTIONS. lia.
  - revert H. apply forallb_sub. intros x Hx. apply elem_of_last_n in Hx. by apply elem_of_uniq.
Qed.

Lemma default_over {A} (f : A -> bool) x o : f x = true -> opt_ok f o = true -> f (over x o) = true.
Proof. by destruct o. Qed.
Lemma default_over_opt {A} (f : A -> bool) (x o : option A) :
  opt_ok f x = true -> opt_ok f o = true -> opt_ok f (over_opt x o) = true.
Proof. by destruct o. Qed.

Section Bounds.
Context (v : Vocabulary).

Lemma filtered_ok {A} `{EqDecision A} (f g : A -> bool) n l :
  (length l <=? n) = true -> forallb g l = true ->
  (length (List.filter f (uniq l)) <=? n) = true /\ forallb g (List.filter f (uniq l)) = true.
Proof.
  intros Hn Hg. split.
  - apply Nat.leb_le. apply Nat.leb_le in Hn. etransitivity; [apply List.filter_length_le|].
    etransitivity; [apply uniq_length_le|done].
  - revert Hg. apply forallb_sub. intros x [Hx _]%elem_of_listfilter. by apply elem_of_uniq.
Qed.

(** The merged spec passes, its assumptions and questions apart. *)
Lemma merged_ok b patch :
  Spec_ok b = true -> SpecPatch_ok patch = true -> Spec_ok (merged_spec (mergePatch b patch v)) = true.
Proof.
  intros Hb Hp. destruct b as [se ac en co po ex ca asm oq st], patch as [pse pac pen pco ppo pex pca pasm poq].
  unfold Spec_ok, SpecPatch_ok in *. simpl in *. bools.
  unfold Sense_ok, Environment_ok, Connect_ok, Power_ok, Experience_ok in *. bools.
  repeat (apply andb_true_iff; split); try done.
  - destruct pse as [[[w a] i]|]; simpl in *; [|done]. bools. unfold Act_ok in *. destruct w; simpl in *; [bools|]; done.
  - destruct pse as [[[w a] i]|]; simpl in *; [|done]. bools. unfold Act_ok in *. destruct w; simpl in *; [bools|]; done.
  - destruct pse as [[[w a] i]|]; simpl in *; [|done]. bools. by apply default_over_opt.
  - destruct pse as [[[w a] i]|]; simpl in *; [|done]. bools. by apply default_over_opt.
  - unfold merge_act. destruct pac as [[w|]|]; simpl in *.
    + destruct w; [done|]. done.
    + destruct ac as [[|x l]|]; done.
    + destruct ac as [[|x l]|]; done.
  - destruct pen as [[l f]|]; simpl in *; [|done]. bools. by apply default_over.
  - destruct pen as [[l f]|]; simpl in *; bools; eapply filtered_ok; try done; destruct f; simpl in *; bools; done.
  - destruct pen as [[l f]|]; simpl in *; bools; eapply filtered_ok; try done; destruct f; simpl in *; bools; done.
  - destruct pco as [[t x]|]; simpl in *; [|done]. unfold Act_ok in *. destruct x; simpl in *; [bools|]; done.
  - destruct pco as [[t x]|]; simpl in *; [|done]. unfold Act_ok in *. destruct x; simpl in *; [bools|]; done.
  - destruct ppo as [[s d]|]; simpl in *; [|done]. by apply default_over_opt.
  - destruct pex as [[a d]|]; simpl in *; [|done]. by apply default_over_opt.
  - destruct pca as [l|]; simpl in *; [|done]. bools. apply Nat.leb_le.
    etransitivity; [apply List.filter_length_le|]. etransitivity; [apply uniq_length_le|].
    rewrite length_fmap. by apply Nat.leb_le.
  - destruct pca as [l|]; simpl in *; [|done]. apply forallb_elem. intros c [_ Hc]%elem_of_listfilter.
    unfold known_capability in Hc. by bools.
  - apply capped_assumptions. rewrite forallb_app. apply andb_true_iff. split; [done|].
    destruct pasm; simpl in *; [by bools|done].
  - apply capped_assumptions. rewrite forallb_app. apply andb_true_iff. split; [done|].
    destruct pasm; simpl in *; [by bools|done].
Qed.

Lemma capability_short c : CapabilityId c = true -> String.length c <= 64.
Proof. unfold CapabilityId. intros H. bools. by apply Nat.leb_le. Qed.

Lemma matches_chr p s : matches (Chr p) s -> String.length s = 1.
Proof. intros H. by inversion H. Qed.

Lemma matches_cat_inv a b s : matches (Cat a b) s -> exists s1 s2, s = (s1 ++ s2)%string /\ matches a s1 /\ matches b s2.
Proof. intros H. inversion H; subst. eauto. Qed.

Lemma rupto_length p n s : matches (rupto n (Chr p)) s -> String.length s <= n.
Proof.
  revert s. induction n as [|n IH]; intros s H; simpl in H; [by inversion H|].
  unfold ropt in H. inversion H as [| | | ? ? ? H'|? ? ? H'| |]; subst; [|by inversion H'; simpl; lia].
  inversion H' as [| |? ? s1 s2 H1 H2| | | |]; subst.
  apply matches_chr in H1. apply IH in H2. rewrite String_length_app. lia.
Qed.

Lemma flag_short f : FLAG_SHAPE f = true -> String.length f <= 64.
Proof.
  unfold FLAG_SHAPE. intros H. apply test_spec in H.
  apply matches_cat_inv in H as (s1 & s2 & -> & H1 & H2).
  apply matches_chr in H1. apply rupto_length in H2. rewrite String_length_app. lia.
Qed.

Lemma described_short value shape kind :
  (forall x, shape x = true -> String.length x <= 64) -> String.length kind <= 48 ->
  String.length (describeDropped value shape kind) <= 64.
Proof.
  intros Hs Hk. unfold describeDropped. destruct (shape value) eqn:E; [by apply Hs|].
  rewrite String_length_app. simpl. lia.
Qed.

Lemma notes_ok m : forallb Sentence (notes m) = true.
Proof.
  unfold notes. rewrite forallb_app. apply andb_true_iff. split; apply forallb_elem;
    intros x (y & -> & _)%list_elem_of_fmap; unfold Sentence; apply Nat.leb_le; rewrite String_length_app.
  - pose proof (described_short y CapabilityId "capability" capability_short). simpl in *. lia.
  - pose proof (described_short y FLAG_SHAPE "condition" flag_short). simpl in *. lia.
Qed.

Lemma relevant_field_facts f :
  f ∈ SOLVER_RELEVANT_FIELDS -> Sentence (default_taken f) = true /\ len_between 1 64 f = true.
Proof.
  intros H.
  assert (Hall : forallb (fun f => Sentence (default_taken f) && len_between 1 64 f) SOLVER_RELEVANT_FIELDS = true)
    by (vm_compute; reflexivity).
  rewrite forallb_elem in Hall. specialize (Hall f H). by apply andb_true_iff in Hall.
Qed.

Lemma clean_question_ok q :
  OpenQuestion_ok q = true -> relevant q = true ->
  OpenQuestion_ok (clean_question q) = negb (trim (q_question q) ==s "").
Proof.
  intros Hq Hr. unfold relevant in Hr. apply inb_true in Hr. apply relevant_field_facts in Hr as [_ Hf].
  unfold OpenQuestion_ok in *. bools. unfold clean_question. cbn [q_field q_question q_options].
  rewrite Hf. simpl.
  assert (Hopt : opt_ok (fun l => len_list 1 4 l && forallb (len_between 1 60) l)
    (match uniq <$> ((fun l => List.filter (fun o => 0 <? String.length o) (trim <$> l)) <$> q_options q) with
     | Some distinct => if 0 <? length distinct then Some (take 4 distinct) else None
     | None => None
     end) = true).
  { destruct (q_options q) as [l|]; simpl in *; [|done]. bools.
    set (d := uniq _). destruct (0 <? length d) eqn:Ed; [|done]. simpl. apply Nat.ltb_lt in Ed.
    apply andb_true_iff. split.
    - unfold len_list. rewrite length_take. apply andb_true_iff. rewrite !Nat.leb_le. lia.
    - apply forallb_elem. intros x Hx. apply list_elem_of_lookup in Hx as [i Hx].
      apply lookup_take_Some in Hx as [Hx _]. apply list_elem_of_lookup_2 in Hx. unfold d in Hx.
      rewrite elem_of_uniq, elem_of_listfilter, list_elem_of_fmap in Hx. destruct Hx as [(y & -> & Hy) Hx].
      rewrite forallb_elem in *. match goal with H : forall x, x ∈ l -> _ |- _ => specialize (H y Hy) end.
      unfold len_between in *. bools. rewrite Nat.ltb_lt in Hx. rewrite Nat.leb_le in *.
      pose proof (trim_length y). apply andb_true_iff. rewrite !Nat.leb_le. lia. }
  rewrite Hopt, andb_true_r. unfold len_between in *. bools.
  match goal with H : (String.length (q_question q) <=? 300) = true |- _ => apply Nat.leb_le in H end.
  pose proof (trim_length (q_question q)) as Ht.
  rewrite (proj2 (Nat.leb_le (String.length (trim (q_question q))) 300)) by lia. rewrite andb_true_r.
  by destruct (trim (q_question q)).
Qed.
End Bounds.

Lemma asked_elem seen qs q :
  q ∈ first_per_field seen qs -> exists q', q' ∈ qs /\ relevant q' = true /\ q = clean_question q'.
Proof.
  revert seen. induction qs as [|x qs IH]; intros seen; simpl; [by intros ?%elem_of_nil|].
  destruct (relevant x && negb _) eqn:E.
  - bools. intros [->|Hin]%elem_of_cons; [exists x; split; [left|by split]|].
    apply IH in Hin as (q' & ? & ? & ?). exists q'. split; [by right|done].
  - intros H. apply IH in H as (q' & ? & ? & ?). exists q'. split; [by right|done].
Qed.

Lemma emptySpec_ok : Spec_ok emptySpec = true.
Proof. vm_compute. reflexivity. Qed.

(** A turn the schemas accept is always stored, except in one case: the
    question it asks is blank once trimmed. Then the spec fails its own schema
    and the turn throws. *)
Theorem decide_throws_only_on_blank previous turn v roundsUsed :
  (forall p, previous = Some p -> Spec_ok p = true) -> SpecTurn_ok turn = true ->
  decide_turn previous turn v roundsUsed = None <->
  exists q, q ∈ asked_now previous turn roundsUsed /\ q_question q = "".
Proof.
  intros Hprev Hturn. assert (Hbase : Spec_ok (default emptySpec previous) = true).
  { destruct previous; [by apply Hprev|apply emptySpec_ok]. }
  unfold SpecTurn_ok in Hturn. bools.
  assert (Hm : Spec_ok (merged_spec (mergePatch (default emptySpec previous) (spec_patch turn) v)) = true) by (apply merged_ok; done).
  assert (Hask : forall q, q ∈ asked_now previous turn roundsUsed ->
                 OpenQuestion_ok q = negb (q_question q ==s "")).
  { intros q Hq. unfold asked_now in Hq. apply list_elem_of_lookup in Hq as [i Hi].
    apply lookup_take_Some in Hi as [Hi _]. apply list_elem_of_lookup_2, asked_elem in Hi as (q' & Hq' & Hr & ->).
    rewrite clean_question_ok; [done| |done]. match goal with H : forallb OpenQuestion_ok _ = true |- _ => rewrite forallb_elem in H; auto end. }
  unfold decide_turn. destruct (draft_decision _ _ _ _) as [[s qs] m] eqn:E. apply draft_fields in E as E'.
  destruct E' as (-> & _ & Eo & _).
  assert (Hs : Spec_ok s = forallb OpenQuestion_ok (open_questions s)).
  { unfold draft_decision in E. cbv zeta in E. injection E as <- <-. unfold Spec_ok in Hm |- *.
    cbn [mergePatch merged_spec spec_sense spec_act spec_environment spec_connect spec_power spec_experience
         spec_capability_ids assumptions open_questions] in *.
    bools. repeat match goal with H : ?x = true |- context [?x] => rewrite H end.
    rewrite kept_asked_now.
    match goal with |- context [last_n MAX_ASSUMPTIONS (uniq ?l)] =>
      destruct (capped_assumptions l) as [Ha1 Ha2] end.
    { rewrite !forallb_app. rewrite notes_ok. repeat (apply andb_true_iff; split); try done.
      destruct (_ && _); [|done]. apply forallb_elem. intros x (f & -> & Hf)%list_elem_of_fmap.
      apply elem_of_uniq, list_elem_of_fmap in Hf as (q & -> & Hq). apply elem_of_listfilter in Hq as [Hq _].
      rewrite filterQuestions_eq in Hq. simpl in Hq. apply list_elem_of_lookup in Hq as [i Hi].
      rewrite lookup_drop in Hi. apply list_elem_of_lookup_2, asked_elem in Hi as (q' & _ & Hr & ->).
      apply inb_true in Hr. by apply relevant_field_facts in Hr as [? _]. }
    rewrite Ha1, Ha2.
    assert (Hlen : length (asked_now previous turn roundsUsed) <= 6).
    { unfold asked_now. rewrite length_take. match goal with |- context [allowance ?r] => pose proof (allowance_le r) end. lia. }
    apply Nat.leb_le in Hlen. rewrite Hlen. cbn [andb]. done. }
  rewrite Hs, Eo. destruct (forallb OpenQuestion_ok (asked_now _ _ _)) eqn:Ef.
  - split; [done|]. intros (q & Hq & Hb). rewrite forallb_elem in Ef. specialize (Ef q Hq).
    rewrite (Hask q Hq), Hb in Ef. done.
  - split; [|done]. intros _. apply not_true_iff_false in Ef. rewrite forallb_elem in Ef.
    destruct (List.existsb (fun q => q_question q ==s "") (asked_now previous turn roundsUsed)) eqn:Ex.
    + apply existsb_elem in Ex as (q & Hq & Hb). exists q. split; [done|by apply String.eqb_eq].
    + exfalso. apply Ef. intros q Hq. rewrite (Hask q Hq). rewrite existsb_elem_false in Ex. by rewrite (Ex q Hq).
Qed.
