(* ===== verification/Policy.v ===== *)
(** * The scope filter ([apps/intake/src/policy.ts])

    Patterns with word boundaries searched anywhere in a text, what they mean,
    the rules, and [screen]. *)
From S2P Require Import Prelude JsString Decide.
#[local] Open Scope string_scope.
#[local] Open Scope list_scope.
#[local] Open Scope nat_scope.

(** ** Searched patterns *)
Inductive pat :=
| PEps
| PChr (p : ascii -> bool)
| PSeq (a b : pat)
| PAlt (a b : pat)
| PStar (p : ascii -> bool)
| PBound.

Definition word (c : ascii) : bool :=
  in_range "a" "z" c || in_range "A" "Z" c || in_range "0" "9" c || Ascii.eqb "_" c.
Definition first_char (s : string) : option ascii := match s with EmptyString => None | String c _ => Some c end.
Definition is_word (o : option ascii) : bool := match o with Some c => word c | None => false end.
(** [\b] between the character before and the text after. *)
Definition boundary (prev : option ascii) (rest : string) : bool := xorb (is_word prev) (is_word (first_char rest)).

Fixpoint star_ends (p : ascii -> bool) (prev : option ascii) (s : string) : list (option ascii * string) :=
  (prev, s) :: match s with
               | String c s' => if p c then star_ends p (Some c) s' else []
               | EmptyString => []
               end.

(** The places where a match that starts at a place may end. *)
Fixpoint ends (r : pat) (st : option ascii * string) : list (option ascii * string) :=
  match r with
  | PEps => [st]
  | PChr p => match st.2 with String c s => if p c then [(Some c, s)] else [] | EmptyString => [] end
  | PSeq a b => flat_map (ends b) (ends a st)
  | PAlt a b => ends a st ++ ends b st
  | PStar p => star_ends p st.1 st.2
  | PBound => if boundary st.1 st.2 then [st] else []
  end.

Fixpoint search_from (r : pat) (prev : option ascii) (s : string) : bool :=
  (0 <? length (ends r (prev, s))) || match s with String c s' => search_from r (Some c) s' | EmptyString => false end.
(** [r.test(s)] without anchors *)
Definition finds (r : pat) (s : string) : bool := search_from r None s.

(** ** What a match is *)
Fixpoint last_char (prev : option ascii) (s : string) : option ascii :=
  match s with EmptyString => prev | String c s => last_char (Some c) s end.

Fixpoint at_ (r : pat) (prev : option ascii) (m post : string) : Prop :=
  match r with
  | PEps => m = ""
  | PChr p => exists c, m = String c "" /\ p c = true
  | PSeq a b => exists m1 m2, m = (m1 ++ m2)%string /\ at_ a prev m1 (m2 ++ post) /\ at_ b (last_char prev m1) m2 post
  | PAlt a b => at_ a prev m post \/ at_ b prev m post
  | PStar p => all_chars p m = true
  | PBound => m = "" /\ boundary prev post = true
  end.

(** The pattern matches somewhere in the text. *)
Definition occurs (r : pat) (s : string) : Prop :=
  exists pre m post, s = (pre ++ m ++ post)%string /\ at_ r (last_char None pre) m post.

Lemma string_app_nil_l s : ("" ++ s)%string = s.
Proof. done. Qed.
Ltac strs := rewrite ?string_app_cons, ?string_app_nil_l in *.

Lemma last_char_app prev s t : last_char prev (s ++ t) = last_char (last_char prev s) t.
Proof. revert prev. by induction s as [|c s IH]; intros prev; simpl. Qed.

Lemma star_ends_spec p prev s st :
  st ∈ star_ends p prev s <-> exists m, s = (m ++ st.2)%string /\ st.1 = last_char prev m /\ all_chars p m = true.
Proof.
  revert prev. induction s as [|c s IH]; intros prev; simpl.
  - rewrite list_elem_of_singleton. split; [intros ->; exists ""; by strs|].
    intros (m & Hm & Hst & _). destruct m; [|done]. destruct st. strs. simpl in *. by subst.
  - rewrite elem_of_cons. split.
    + intros [->|H]; [exists ""; by strs|]. destruct (p c) eqn:Hc; [|by apply elem_of_nil in H].
      apply IH in H as (m & -> & Hst & Hm). exists (String c m). simpl. by rewrite Hc.
    + intros (m & Hm & Hst & Ha). destruct m as [|d m]; [left; destruct st; strs; simpl in *; by subst|].
      right. strs. injection Hm as <- Hm. simpl in Ha. apply andb_true_iff in Ha as [Hc Ha]. rewrite Hc. apply IH. by exists m.
Qed.

Lemma ends_spec r prev s st :
  st ∈ ends r (prev, s) <-> exists m, s = (m ++ st.2)%string /\ st.1 = last_char prev m /\ at_ r prev m st.2.
Proof.
  revert prev s st. induction r as [|p|a IHa b IHb|a IHa b IHb|p|]; intros prev s st; simpl.
  - rewrite list_elem_of_singleton. split; [intros ->; exists ""; by strs|].
    intros (m & -> & Hst & ->). destruct st. strs. simpl in *. by subst.
  - split.
    + destruct s as [|c s]; [by intros ?%elem_of_nil|]. destruct (p c) eqn:Hc; [|by intros ?%elem_of_nil].
      intros ->%list_elem_of_singleton. exists (String c ""). strs. split_and!; try done. by exists c.
    + intros (m & -> & Hst & c & -> & Hc). strs. simpl. rewrite Hc. destruct st. simpl in *. subst. left.
  - rewrite elem_of_flat_map. split.
    + intros ([p1 s1] & H1 & H2). apply IHa in H1 as (m1 & -> & Hp & A1). simpl in *. subst p1.
      apply IHb in H2 as (m2 & -> & Hst & A2). exists (m1 ++ m2)%string. rewrite string_app_assoc, last_char_app.
      split_and!; [done|done|]. by exists m1, m2.
    + intros (m & -> & Hst & m1 & m2 & -> & A1 & A2). exists (last_char prev m1, (m2 ++ st.2)%string). split.
      * apply IHa. exists m1. by rewrite string_app_assoc.
      * apply IHb. exists m2. by rewrite last_char_app in Hst.
  - rewrite elem_of_app, IHa, IHb. split.
    + intros [(m & ? & ? & ?)|(m & ? & ? & ?)]; exists m; auto.
    + intros (m & ? & ? & [?|?]); [left|right]; by exists m.
  - apply star_ends_spec.
  - split.
    + destruct (boundary prev s) eqn:E; [|by intros ?%elem_of_nil]. intros ->%list_elem_of_singleton. exists "". by strs.
    + intros (m & -> & Hst & -> & Hb). strs. rewrite Hb. destruct st. simpl in *. subst. left.
Qed.

Lemma search_from_spec r prev s :
  search_from r prev s = true <->
  exists pre m post, s = (pre ++ m ++ post)%string /\ at_ r (last_char prev pre) m post.
Proof.
  assert (He : forall prev s, (0 <? length (ends r (prev, s))) = true <-> exists m post, s = (m ++ post)%string /\ at_ r prev m post).
  { intros p t. rewrite Nat.ltb_lt. split.
    - destruct (ends r (p, t)) as [|st l] eqn:E; simpl; [lia|]. intros _.
      assert (Hin : st ∈ ends r (p, t)) by (rewrite E; left). apply ends_spec in Hin as (m & ? & _ & ?). by exists m, st.2.
    - intros (m & post & -> & H). assert (Hin : (last_char p m, post) ∈ ends r (p, (m ++ post)%string)).
      { apply ends_spec. by exists m. }
      destruct (ends _ _); [by apply elem_of_nil in Hin|simpl; lia]. }
  revert prev. induction s as [|c s IH]; intros prev; cbn [search_from]; rewrite orb_true_iff, He.
  - split; [intros [(m & post & H)|]; [by exists "", m, post|done]|].
    intros (pre & m & post & H & Ha). left. destruct pre; [by exists m, post|done].
  - rewrite IH. split.
    + intros [(m & post & H)|(pre & m & post & -> & H)]; [by exists "", m, post|]. by exists (String c pre), m, post.
    + intros (pre & m & post & H & Ha). destruct pre as [|d pre]; [left; by exists m, post|right].
      injection H as <- ->. by exists pre, m, post.
Qed.

Lemma search_spec r s : finds r s = true <-> occurs r s.
Proof. apply search_from_spec. Qed.

(** ** Pattern syntax *)
Fixpoint txt (s : string) : pat := match s with EmptyString => PEps | String c s => PSeq (PChr (Ascii.eqb c)) (txt s) end.
Fixpoint alts (l : list pat) : pat := match l with [] => PEps | [r] => r | r :: l => PAlt r (alts l) end.
Fixpoint seqs (l : list pat) : pat := match l with [] => PEps | [r] => r | r :: l => PSeq r (seqs l) end.
Definition opt (r : pat) : pat := PAlt r PEps.
Definition oneOf (s : string) : pat := PChr (fun c => has_char c s).
Definition bounded_ (r : pat) : pat := seqs [PBound; r; PBound].
(** [ws?], a word with an optional last [s] *)
Definition pl (w : string) : pat := PSeq (txt w) (opt (txt "s")).
Definition words (l : list string) : list pat := txt <$> l.

(** ** The rules *)
Record Rule := mkRule { rule_category : ScopeCategory; rule_all : list pat; rule_unless : option pat }.

Definition PERSON : pat :=
  bounded_ (alts (words ["wife"; "husband"; "partner"; "girlfriend"; "boyfriend"; "spouse"; "ex"] ++ [pl "kid"] ++
    [PSeq (txt "child") (opt (txt "ren"))] ++ words ["son"; "daughter"] ++
    [seqs [txt "teen"; opt (txt "ager"); opt (txt "s")]; pl "employee"] ++ words ["staff"] ++ [pl "worker"; pl "roommate";
     pl "flatmate"; seqs [txt "neighbo"; opt (txt "u"); txt "r"; opt (txt "s")]; pl "tenant"] ++
    words ["someone"; "somebody"; "people"; "person"; "him"; "her"; "them"])).

Definition WEAPONS : pat :=
  bounded_ (alts ([pl "weapon"; pl "firearm"; pl "gun"; pl "rifle"; pl "pistol"; pl "taser"; pl "explosive"; pl "bomb";
    pl "detonator"; txt "detonate"; pl "grenade"] ++ words ["ammunition"; "ammo"])).

Definition HARMLESS : pat :=
  alts [seqs [PBound; alts (words ["glue"; "heat"; "nail"; "spray"; "staple"; "caulk"; "grease"; "massage"; "water"; "nerf";
                "temperature"; "temp"; "thermometer"; "radar"; "soldering"; "paint"]);
              opt (oneOf " -"); pl "gun"; PBound];
        seqs [PBound; alts (words ["bath"; "seed"; "photo"]); opt (oneOf " -"); pl "bomb"; PBound]].

Definition HARM : pat :=
  bounded_ (alts (words ["hurt"; "harm"; "injure"; "shock"; "electrocute"; "zap"; "poison"; "attack"; "kill"; "maim"])).
Definition VICTIM : pat :=
  bounded_ (alts ([pl "intruder"; pl "burglar"; PSeq (txt "thie") (alts (words ["f"; "ves"])); pl "trespasser"] ++
    words ["people"; "person"; "someone"; "somebody"; "anyone"; "him"; "her"; "them"] ++
    [seqs [txt "neighbo"; opt (txt "u"); txt "r"; opt (txt "s")]; pl "cat"; pl "dog"; pl "animal"; pl "bird"; pl "squirrel"])).

Definition MAINS : pat :=
  alts [bounded_ (txt "mains");
        seqs [PBound; alts (words ["100"; "110"; "115"; "120"; "127"; "220"; "230"; "240"]); opt (PChr is_space);
              opt (txt "-"); opt (PChr is_space); txt "v"; opt (alts [PSeq (txt "olt") (opt (txt "s")); txt "ac"]); PBound];
        seqs [PBound; alts (words ["line"; "high"]); oneOf " -"; txt "voltage"; PBound];
        seqs [PBound; txt "ac "; alts (words ["mains"; "line"; "voltage"]); PBound];
        bounded_ (alts (words ["light switch"; "breaker"; "fuse box"; "consumer unit"]));
        seqs [PBound; txt "wire"; opt (txt "d"); txt " "; opt (txt "in"); txt "to "; opt (alts (words ["an "; "a "; "the "; "my "]));
              opt (txt "wall "); alts (words ["outlet"; "socket"]); PBound];
        seqs [PBound; txt "hard"; opt (txt "-"); txt "wire"; opt (txt "d"); PBound]].

Definition MEDICAL : pat :=
  bounded_ (alts ([txt "medical"; PSeq (txt "diagnos") (alts (words ["e"; "es"; "is"; "ing"; "tic"])); pl "patient";
    PSeq (txt "blood ") (alts (words ["pressure"; "sugar"; "glucose"; "oxygen"]))] ++ words ["glucose"; "insulin"] ++
    [seqs [txt "heart"; opt (txt " "); txt "rate"]] ++ words ["heartbeat"; "ecg"; "ekg"] ++
    [seqs [txt "pulse"; opt (txt " "); txt "ox"; opt (txt "imeter")]] ++ words ["oximeter"; "spo2"] ++
    [pl "seizure"; pl "arrhythmia"] ++ words ["apnoea"; "apnea"; "vital signs"; "fall detection"])).

Definition SPYING : pat :=
  bounded_ (alts [seqs [txt "spy"; opt (txt "ing"); txt " on"]; PSeq (txt "stalk") (opt (alts (words ["ing"; "er"])))]).

Definition COVERT : pat :=
  bounded_ (alts [PSeq (txt "secret") (opt (txt "ly")); PSeq (txt "covert") (opt (txt "ly")); txt "hidden"; txt "hide";
    seqs [txt "without "; opt (seqs [PChr word; PStar word; txt " "]);
          alts (words ["knowing"; "noticing"; "consent"; "permission"; "knowledge"])];
    seqs [txt "won"; opt (txt "'"); txt "t "; alts (words ["know"; "notice"])];
    seqs [txt "doesn"; opt (txt "'"); txt "t know"]; seqs [txt "don"; opt (txt "'"); txt "t know"]]).

Definition SURVEILLANCE : pat :=
  seqs [PBound; alts (words ["track"; "trace"; "follow"; "locate"; "location"; "gps"; "record"; "listen"; "eavesdrop"; "watch";
          "film"; "camera"; "microphone"; "mic"]); PStar word; PBound].

Definition RULES : list Rule :=
  [mkRule weapons_harm [WEAPONS] (Some HARMLESS); mkRule weapons_harm [HARM; VICTIM] None;
   mkRule mains_voltage [MAINS] None; mkRule medical_monitoring [MEDICAL] None;
   mkRule covert_tracking [SPYING] None; mkRule covert_tracking [COVERT; SURVEILLANCE; PERSON] None].

(** ** [normalize] and [screen]

    [nfkc] is [String.prototype.normalize("NFKC")], a table of the runtime. The
    typographic apostrophes it leaves are outside the one-byte code units texts
    are made of here. *)
Definition lower_char (c : ascii) : ascii :=
  let n := code c in
  if ((65 <=? n) && (n <=? 90)) || ((192 <=? n) && (n <=? 222) && negb (Nat.eqb n 215)) then ascii_of_nat (n + 32) else c.
Fixpoint toLowerCase (s : string) : string :=
  match s with EmptyString => EmptyString | String c s => String (lower_char c) (toLowerCase s) end.

(** [s.replace(/\s+/g, " ")] *)
Fixpoint collapse (after_space : bool) (s : string) : string :=
  match s with
  | EmptyString => EmptyString
  | String c s =>
      if is_space c then (if after_space then collapse true s else String " " (collapse true s))
      else String c (collapse false s)
  end.

Definition normalize (nfkc : string -> string) (text : string) : string :=
  trim (collapse false (toLowerCase (nfkc text))).

Definition fires (normalized : string) (rule : Rule) : bool :=
  forallb (fun p => finds p normalized) (rule_all rule) &&
  negb (match rule_unless rule with Some p => finds p normalized | None => false end).

(** [None] is ALLOW. *)
Definition screen (nfkc : string -> string) (text : string) : option ScopeCategory :=
  rule_category <$> List.find (fires (normalize nfkc text)) RULES.

(** ** What it decides *)
Definition applies (s : string) (rule : Rule) : Prop :=
  (forall p, p ∈ rule_all rule -> occurs p s) /\ (forall p, rule_unless rule = Some p -> ~ occurs p s).

Lemma fires_spec s rule : fires s rule = true <-> applies s rule.
Proof.
  unfold fires, applies. rewrite andb_true_iff, forallb_elem, negb_true_iff. split.
  - intros [H1 H2]. split; [intros p Hp; by apply search_spec, H1|]. intros p Hu Ho. rewrite Hu in H2.
    apply search_spec in Ho. congruence.
  - intros [H1 H2]. split; [intros p Hp; by apply search_spec, H1|]. destruct (rule_unless rule) as [p|] eqn:Hu; [|done].
    apply not_true_iff_false. rewrite search_spec. by apply H2.
Qed.

Lemma find_first {A} (f : A -> bool) l x :
  List.find f l = Some x <-> exists i, l !! i = Some x /\ f x = true /\ forall j y, j < i -> l !! j = Some y -> f y = false.
Proof.
  induction l as [|z l IH]; simpl; [split; [done|by intros (i & Hi & _)]|]. destruct (f z) eqn:Ez.
  - split.
    + intros [= ->]. exists 0. split_and!; try done. intros; lia.
    + intros ([|i] & Hi & Hx & Hj); [by injection Hi as ->|]. specialize (Hj 0 z ltac:(lia) eq_refl). congruence.
  - rewrite IH. split.
    + intros (i & Hi & Hx & Hj). exists (S i). split_and!; try done. intros [|j] y Hlt Hy; [by injection Hy as <-|].
      apply (Hj j); [lia|done].
    + intros ([|i] & Hi & Hx & Hj); [injection Hi as ->; congruence|]. exists i. split_and!; try done.
      intros j y Hlt Hy. apply (Hj (S j)); [lia|done].
Qed.

(** The scope filter refuses a message with the category of the first rule
    whose every pattern occurs somewhere in the normalized text, between the
    word boundaries it names, and whose exception does not; a message is allowed
    exactly when no rule applies. The search is decided, so every message gets a
    decision. *)
Theorem screen_correct nfkc text :
  (forall c, screen nfkc text = Some c <->
     exists i rule, RULES !! i = Some rule /\ rule_category rule = c /\ applies (normalize nfkc text) rule /\
       forall j r, j < i -> RULES !! j = Some r -> ~ applies (normalize nfkc text) r) /\
  (screen nfkc text = None <-> forall rule, rule ∈ RULES -> ~ applies (normalize nfkc text) rule).
Proof.
  unfold screen. split.
  - intros c. rewrite fmap_Some. split.
    + intros (rule & H & ->). apply find_first in H as (i & Hi & Hf & Hj). exists i, rule. split_and!; try done.
      * by apply fires_spec.
      * intros j r Hlt Hr. rewrite <- fires_spec. rewrite (Hj j r Hlt Hr). done.
    + intros (i & rule & Hi & <- & Ha & Hj). exists rule. split; [|done]. apply find_first. exists i.
      split_and!; [done|by apply fires_spec|]. intros j r Hlt Hr. apply not_true_iff_false. rewrite fires_spec. by eapply Hj.
  - rewrite fmap_None, find_None_forall. split; intros H rule Hr.
    + rewrite <- fires_spec. by rewrite H.
    + apply not_true_iff_false. rewrite fires_spec. by apply H.
Qed.

(** The filter on messages like those of its tests. *)
Example screen_examples :
  let id s := s in
  screen id "A box that  TASES  intruders with a Taser" = Some weapons_harm /\
  screen id "a temperature gun holder" = None /\
  screen id "monitor my baby's heart rate" = Some medical_monitoring /\
  screen id "secretly track where my wife goes" = Some covert_tracking /\
  screen id "switch a 230 V lamp" = Some mains_voltage /\
  screen id "tell me when the soil is dry" = None.
Proof. vm_compute. done. Qed.
