(* ===== verification/Effects.v ===== *)
(** * Interaction programs

    The asynchronous code of the services, as trees of operations. An operation
    [e] is one [await] on the outside world (a model call, a statement, a clock
    reading) and [ans e] is what it may answer, a rejection included; nothing is
    assumed about the answers unless a theorem says so. [runs p tr a] holds when
    [p] performs exactly the operations of [tr], with those answers, and ends
    with [a], so a property of all runs is a property of the code against every
    behaviour of the world. *)
From S2P Require Import Prelude.
#[local] Open Scope nat_scope.

Section Programs.
Context {E : Type} {ans : E -> Type}.

Inductive prog (A : Type) : Type :=
| Ret (a : A)
| Op (e : E) (k : ans e -> prog A).

Definition event : Type := { e : E & ans e }.
Definition ev (e : E) (x : ans e) : event := existT e x.

Fixpoint bind {A B} (p : prog A) (f : A -> prog B) : prog B :=
  match p with
  | Ret _ a => f a
  | Op _ e k => Op _ e (fun x => bind (k x) f)
  end.

Definition call (e : E) : prog (ans e) := Op _ e (fun x => Ret _ x).

Fixpoint runs {A} (p : prog A) (tr : list event) (a : A) : Prop :=
  match p with
  | Ret _ b => tr = [] /\ a = b
  | Op _ e k => exists x tr', tr = ev e x :: tr' /\ runs (k x) tr' a
  end.

(** Against a world that is a state machine. *)
Fixpoint exec {A S} (world : forall e, S -> ans e * S) (s : S) (p : prog A) : list event * S * A :=
  match p with
  | Ret _ a => ([], s, a)
  | Op _ e k =>
      let '(x, s') := world e s in
      let '(tr, s'', a) := exec world s' (k x) in
      (ev e x :: tr, s'', a)
  end.

Lemma runs_bind {A B} (p : prog A) (f : A -> prog B) tr b :
  runs (bind p f) tr b <-> exists tr1 tr2 a, tr = tr1 ++ tr2 /\ runs p tr1 a /\ runs (f a) tr2 b.
Proof.
  revert tr. induction p as [a|e k IH]; intros tr; simpl.
  - split; [intros H; by exists [], tr, a|]. by intros (? & tr2 & ? & -> & [-> ->] & H).
  - split.
    + intros (x & tr' & -> & H). apply IH in H as (tr1 & tr2 & a & -> & H1 & H2).
      exists (ev e x :: tr1), tr2, a. split; [done|]. split; [by exists x, tr1|done].
    + intros (? & tr2 & a & -> & (x & tr1 & -> & H1) & H2). exists x, (tr1 ++ tr2). split; [done|].
      apply IH. by exists tr1, tr2, a.
Qed.

Lemma runs_ret {A} (a b : A) tr : runs (Ret _ a) tr b -> tr = [] /\ b = a.
Proof. done. Qed.

Lemma runs_op {A} e (k : ans e -> prog A) tr a :
  runs (Op _ e k) tr a -> exists x tr', tr = ev e x :: tr' /\ runs (k x) tr' a.
Proof. done. Qed.

Lemma exec_runs {A S} (world : forall e, S -> ans e * S) (p : prog A) s tr s' a :
  exec world s p = (tr, s', a) -> runs p tr a.
Proof.
  revert s tr s' a. induction p as [b|e k IH]; intros s tr s' a; simpl; [by intros [= <- _ <-]|].
  destruct (world e s) as [x s1]. destruct (exec world s1 (k x)) as [[tr' s2] b] eqn:Ex.
  intros [= <- <- <-]. exists x, tr'. split; [done|]. by eapply IH.
Qed.

Lemma exec_is_run {A S} (world : forall e, S -> ans e * S) (p : prog A) s :
  runs p (exec world s p).1.1 (exec world s p).2.
Proof. destruct (exec world s p) as [[tr s1] a] eqn:Ex. by eapply exec_runs. Qed.

(** Some run exists when every operation has an answer. *)
Lemma runs_exist {A} (p : prog A) : (forall e, inhabited (ans e)) -> exists tr a, runs p tr a.
Proof.
  intros Hi. induction p as [a|e k IH]; [by exists [], a|].
  destruct (Hi e) as [x]. destruct (IH x) as (tr & a & H). exists (ev e x :: tr), a. by exists x, tr.
Qed.

(** ** Monitored runs

    A monitor watches the operations: [ok] is what the program owes at each of
    them, [assume] what the world is supposed to do, [next] the monitor's state
    afterwards. [wp p s Q] is the weakest condition under which every run of [p]
    watched from [s] keeps its obligations and ends in [Q], as long as the world
    keeps its side. *)
Section Monitor.
Context {S : Type} (assume ok : S -> event -> Prop) (next : S -> event -> S).

Fixpoint wp {A} (p : prog A) (s : S) (Q : A -> S -> Prop) : Prop :=
  match p with
  | Ret _ a => Q a s
  | Op _ e k => forall x, assume s (ev e x) -> ok s (ev e x) /\ wp (k x) (next s (ev e x)) Q
  end.

(** The world kept its side all along; the program did. *)
Fixpoint assumed (s : S) (tr : list event) : Prop :=
  match tr with [] => True | e :: tr => assume s e /\ assumed (next s e) tr end.
Fixpoint obeyed (s : S) (tr : list event) : Prop :=
  match tr with [] => True | e :: tr => ok s e /\ obeyed (next s e) tr end.
Definition after (s : S) (tr : list event) : S := fold_left next tr s.

Lemma wp_runs {A} (p : prog A) s Q tr a :
  wp p s Q -> runs p tr a -> assumed s tr -> obeyed s tr /\ Q a (after s tr).
Proof.
  revert s tr. induction p as [b|e k IH]; intros s tr; simpl; [by intros HQ [-> ->]|].
  intros Hw (x & tr' & -> & Hr) [Ha Hs]. destruct (Hw x Ha) as [Ho Hk].
  destruct (IH x _ _ Hk Hr Hs) as [? ?]. by repeat split.
Qed.

Lemma wp_bind {A B} (p : prog A) (f : A -> prog B) s Q :
  wp (bind p f) s Q <-> wp p s (fun a s' => wp (f a) s' Q).
Proof.
  revert s. induction p as [a|e k IH]; intros s; simpl; [done|].
  split; intros H x Hx; destruct (H x Hx) as [Ho Hk]; (split; [done|]); by apply IH.
Qed.

Lemma wp_mono {A} (p : prog A) s (Q Q' : A -> S -> Prop) :
  (forall a s', Q a s' -> Q' a s') -> wp p s Q -> wp p s Q'.
Proof.
  intros HQ. revert s. induction p as [a|e k IH]; intros s; simpl; [apply HQ|].
  intros H x Hx. destruct (H x Hx) as [Ho Hk]. split; [done|]. by apply IH.
Qed.

(** A world that keeps its side whatever it is asked. *)
Lemma exec_assumed {A W} (I : W -> S -> Prop) (world : forall e, W -> ans e * W) (p : prog A) w s :
  (forall e w s, I w s -> assume s (ev e (world e w).1) /\ I (world e w).2 (next s (ev e (world e w).1))) ->
  I w s -> assumed s (exec world w p).1.1.
Proof.
  intros Hk. revert w s. induction p as [a|e k IH]; intros w s Hi; simpl; [done|].
  destruct (Hk e w s Hi) as [Ha Hi']. destruct (world e w) as [x w'] eqn:Ew.
  specialize (IH x w' _ Hi'). destruct (exec world w' (k x)) as [[tr w''] a]. simpl in *. by split.
Qed.
End Monitor.

Definition count_events (f : event -> bool) (tr : list event) : nat := length (List.filter f tr).

Lemma count_app f tr1 tr2 : count_events f (tr1 ++ tr2) = count_events f tr1 + count_events f tr2.
Proof. unfold count_events. by rewrite List.filter_app, length_app. Qed.
End Programs.

Arguments prog {E} ans A.
Arguments event {E} ans.
Arguments Ret {E ans A} a.
Arguments Op {E ans A} e k.
Arguments call {E ans} e.
Arguments ev {E ans} e x.

(** What an [async] function does: a value, or a rejection. *)
Inductive outcome (X A : Type) := Value (a : A) | Throws (x : X).
Arguments Value {X A} a.
Arguments Throws {X A} x.

Declare Scope prog_scope.
Delimit Scope prog_scope with prog.
Notation "'run!' x ':=' p 'in' q" := (bind p (fun x => q))
  (at level 10, x pattern, q at level 200) : prog_scope.
Notation "'do!' x ':=' e 'in' q" := (Op e (fun x => q))
  (at level 10, x name, q at level 200) : prog_scope.
