(* ===== verification/Llm.v ===== *)
(** * Model calls: data, requests, prices and metering
      ([packages/llm/src/types.ts], [request.ts], [pricing.ts], [meter.ts])

    What a route, a message, a response and its usage are; the request built
    from them; the price of a response; the record and the log line of a
    metered call. *)
From S2P Require Import Prelude JsString JsNumber Json Effects.
#[local] Open Scope string_scope.
#[local] Open Scope list_scope.
#[local] Open Scope nat_scope.

(** ** [types.ts] and the SDK's response *)
Inductive Effort := low | medium | high | xhigh | max_effort.

Record LlmRoute := mkRoute {
  route_name : string;
  route_stage : string;
  route_system : string;
  cachedContext : option string;
  route_effort : Effort;
  route_maxTokens : num;
  retryMaxTokens : num
}.

Record CallAttribution := mkAttribution {
  at_buildId : option string;
  at_tenantId : option string;
  at_anonOwnerHash : option string;
  at_trace : option string
}.

(** A content block of a response: text, a tool use, or a block the code passes
    along unread (thinking, fallback). *)
Inductive Block :=
| BText (text : string)
| BToolUse (id name : string) (input : json)
| BOther (type : string) (payload : json).

Record ToolResult := mkToolResult { tool_use_id : string; is_error : bool; tr_content : option string }.

Inductive MessageRole := role_user | role_assistant | role_system.
#[export] Instance MessageRole_eq_dec : EqDecision MessageRole.
Proof. solve_decision. Defined.

Inductive Content :=
| CText (s : string)
| CBlocks (l : list Block)
| CResults (l : list ToolResult).

Record LlmMessage := mkMessage { msg_role : MessageRole; msg_content : Content }.

Record TokenCounts := mkCounts {
  input_tokens : num;
  output_tokens : num;
  cache_read_input_tokens : option num;
  cache_creation_input_tokens : option num;
  (** five-minute and one-hour writes *)
  cache_creation : option (num * num)
}.

(** An entry of [usage.iterations]. *)
Record Iteration := mkIteration { it_type : string; it_model : option string; it_counts : TokenCounts }.

Record LlmUsage := mkUsage { us_counts : TokenCounts; us_iterations : option (list Iteration) }.

Record LlmResponse := mkResponse {
  rsp_model : string;
  stop_reason : option string;
  rsp_content : list Block;
  rsp_usage : LlmUsage
}.

(** ** [request.ts] *)
Definition FALLBACK_BETA : string := "server-side-fallback-2026-07-01".

(** A system block and whether it carries the cache breakpoint. *)
Definition systemBlocks (route : LlmRoute) : list (string * bool) :=
  let texts := match cachedContext route with
               | None => [route_system route]
               | Some context => [route_system route; context]
               end in
  imap (fun index text => (text, Nat.eqb index (length texts - 1))) texts.

(** The request body; [format] is absent on a tool request and [tools] on a
    structured one. The output format and the tool definitions are opaque. *)
Record LlmRequest (F D : Type) := mkRequest {
  req_model : string;
  max_tokens : num;
  betas : list string;
  fallbacks : string;
  thinking : string;
  req_effort : Effort;
  req_format : option F;
  req_system : list (string * bool);
  req_tools : option (list D);
  req_messages : list LlmMessage
}.
Arguments mkRequest {F D}.
Arguments req_model {F D}. Arguments max_tokens {F D}. Arguments betas {F D}. Arguments fallbacks {F D}.
Arguments thinking {F D}. Arguments req_effort {F D}. Arguments req_format {F D}. Arguments req_system {F D}.
Arguments req_tools {F D}. Arguments req_messages {F D}.

Definition buildRequest {F D} (route : LlmRoute) (model : string) (maxTokens : num) (format : F)
    (messages : list LlmMessage) : LlmRequest F D :=
  mkRequest model maxTokens [FALLBACK_BETA] "default" "adaptive" (route_effort route) (Some format)
    (systemBlocks route) None messages.

(** [sha256] in hexadecimal is the runtime's. *)
Definition prefixHash (sha256_hex : string -> string) (route : LlmRoute) : string :=
  slice_to 16 (sha256_hex (route_system route ++ " " ++ default "" (cachedContext route))%string).

(** The text blocks of a response, joined. *)
Definition text_blocks (content : list Block) : list string :=
  flat_map (fun b => match b with BText t => [t] | _ => [] end) content.
Definition responseText (response : LlmResponse) : string := join "" (text_blocks (rsp_content response)).

(** ** [pricing.ts] *)
Record ModelPrice := mkPrice {
  price_input : num;
  cacheWrite5m : num;
  cacheWrite1h : num;
  cacheRead : num;
  price_output : num
}.

Definition PRICES_USD_PER_MTOK : list (string * ModelPrice) :=
  let opus := mkPrice (of_Z 5) (of_ratio 25 4) (of_Z 10) (of_ratio 1 2) (of_Z 25) in
  let haiku := mkPrice (of_Z 1) (of_ratio 5 4) (of_Z 2) (of_ratio 1 10) (of_Z 5) in
  [("claude-fable-5-1", mkPrice (of_Z 10) (of_ratio 25 2) (of_Z 20) (of_ratio 1 4) (of_Z 50));
   ("claude-opus-5", opus); ("claude-opus-4-8", opus);
   ("claude-sonnet-5", mkPrice (of_Z 2) (of_ratio 5 2) (of_Z 4) (of_ratio 1 5) (of_Z 10));
   ("claude-haiku-4-5-20251001", haiku); ("claude-haiku-4-5", haiku)].

Definition max_price (m p : ModelPrice) : ModelPrice :=
  mkPrice (nmax (price_input m) (price_input p)) (nmax (cacheWrite5m m) (cacheWrite5m p))
    (nmax (cacheWrite1h m) (cacheWrite1h p)) (nmax (cacheRead m) (cacheRead p))
    (nmax (price_output m) (price_output p)).

(** [reduce] with no seed: it starts from the first row. *)
Definition UNKNOWN_MODEL_PRICE : ModelPrice :=
  match (PRICES_USD_PER_MTOK).*2 with
  | p :: ps => fold_left max_price ps p
  | [] => mkPrice nnan nnan nnan nnan nnan
  end.

(** The properties every object literal inherits. *)
Definition object_prototype : list string :=
  ["constructor"; "__defineGetter__"; "__defineSetter__"; "hasOwnProperty"; "__lookupGetter__"; "__lookupSetter__";
   "isPrototypeOf"; "propertyIsEnumerable"; "toString"; "valueOf"; "__proto__"; "toLocaleString"].

(** The lookup is a property read, so an inherited name finds a value that has
    no prices: every amount computed from it is NaN. *)
Definition priceFor (model : string) : ModelPrice * bool :=
  match map_get model PRICES_USD_PER_MTOK with
  | Some price => (price, true)
  | None => if inb model object_prototype then (mkPrice nnan nnan nnan nnan nnan, true)
            else (UNKNOWN_MODEL_PRICE, false)
  end.

Definition costOf (counts : TokenCounts) (price : ModelPrice) : num :=
  let created := default nzero (cache_creation_input_tokens counts) in
  let write1h := match cache_creation counts with Some (_, h) => h | None => nzero end in
  let write5m := match cache_creation counts with Some (m, _) => m | None => created end in
  ndiv (nadd (nadd (nadd (nadd (nmul (input_tokens counts) (price_input price))
                               (nmul write5m (cacheWrite5m price)))
                         (nmul write1h (cacheWrite1h price)))
                   (nmul (default nzero (cache_read_input_tokens counts)) (cacheRead price)))
             (nmul (output_tokens counts) (price_output price)))
       (of_Z 1000000).

Definition round6 (usd : num) : num := ndiv (nround (nmul usd (of_Z 1000000))) (of_Z 1000000).

Definition pricedIterations (usage : LlmUsage) : list (string * TokenCounts) :=
  flat_map (fun e => match it_model e with
                     | Some m => if it_type e ==s "compaction" then [] else [(m, it_counts e)]
                     | None => []
                     end) (default [] (us_iterations usage)).

Definition pricedModels (usage : LlmUsage) (servedModel : string) : list string :=
  let iterations := pricedIterations usage in
  if 0 <? length iterations then iterations.*1 else [servedModel].

Definition costUsd (usage : LlmUsage) (servedModel : string) : num :=
  let iterations := pricedIterations usage in
  if 0 <? length iterations
  then round6 (fold_left (fun sum e => nadd sum (costOf e.2 (priceFor e.1).1)) iterations nzero)
  else round6 (costOf (us_counts usage) (priceFor servedModel).1).

(** ** [meter.ts] *)
Record LlmCallRecord := mkRecord {
  rec_stage : string;
  rec_model : string;
  rec_costUsd : num;
  rec_inputTokens : num;
  rec_outputTokens : num;
  rec_cacheRead : num;
  rec_cacheCreation : num;
  rec_stopReason : option string;
  rec_buildId : option string;
  rec_tenantId : option string;
  rec_anonOwnerHash : option string;
  rec_prefixHash : option string
}.

Record CallContext := mkContext { ctx_stage : string; ctx_prefixHash : option string }.

Definition opt_str (o : option string) : json := match o with Some s => JStr s | None => JNull end.

Definition formatLlmCallLine (record : LlmCallRecord) (trace project : option string) : string :=
  let entry :=
    [("severity", JStr "INFO"); ("message", JStr "llm call"); ("event", JStr "llm_call");
     ("stage", JStr (rec_stage record)); ("model", JStr (rec_model record));
     ("cost_usd", JNum (rec_costUsd record)); ("input_tokens", JNum (rec_inputTokens record));
     ("output_tokens", JNum (rec_outputTokens record));
     ("cache_read_input_tokens", JNum (rec_cacheRead record));
     ("cache_creation_input_tokens", JNum (rec_cacheCreation record));
     ("stop_reason", opt_str (rec_stopReason record)); ("build_id", opt_str (rec_buildId record));
     ("prefix_hash", opt_str (rec_prefixHash record))] in
  let traced := match trace, project with
                | Some t, Some p => if p ==s "" then []
                    else [("logging.googleapis.com/trace", JStr ("projects/" ++ p ++ "/traces/" ++ t)%string)]
                | _, _ => []
                end in
  (stringify (JObj (entry ++ traced)) ++ String (ascii_of_nat 10) EmptyString)%string.

Definition toRecord (call : CallContext) (response : LlmResponse) (a : CallAttribution) : LlmCallRecord :=
  let counts := us_counts (rsp_usage response) in
  mkRecord (ctx_stage call) (rsp_model response) (costUsd (rsp_usage response) (rsp_model response))
    (input_tokens counts) (output_tokens counts) (default nzero (cache_read_input_tokens counts))
    (default nzero (cache_creation_input_tokens counts)) (stop_reason response) (at_buildId a) (at_tenantId a)
    (at_anonOwnerHash a) (ctx_prefixHash call).

(** What [createMeter]'s [record] does in the world. *)
Inductive MeterE :=
| UnknownModel (model : string)
| WriteLine (line : string)
| InsertRecord (record : LlmCallRecord).
Definition MeterA (e : MeterE) : Type := match e with InsertRecord _ => option string | _ => unit end.

Fixpoint each {E ans A} (ops : list E) (p : prog (E := E) ans A) : prog ans A :=
  match ops with [] => p | e :: ops => Op e (fun _ => each ops p) end.

Definition record_call (project : option string) (call : CallContext) (response : LlmResponse) (a : CallAttribution)
    : prog MeterA (outcome string LlmCallRecord) :=
  let record := toRecord call response a in
  each (UnknownModel <$> List.filter (fun m => negb (priceFor m).2)
                           (pricedModels (rsp_usage response) (rsp_model response)))
    (do! written := WriteLine (formatLlmCallLine record (at_trace a) project) in
     do! failed := InsertRecord record in
     match failed with None => Ret (Value record) | Some e => Ret (Throws e) end)%prog.
