(* ===== verification/LlmCall.v ===== *)
(** * One structured model call ([packages/llm/src/call.ts])

    [callStructured] as a program over the provider, the meter, the token
    ceiling, the deadline's signal and the clock. The runtime's [JSON.parse] and
    the caller's schema are parameters. *)
From S2P Require Import Prelude JsString JsNumber Json Effects Llm.
#[local] Open Scope string_scope.
#[local] Open Scope list_scope.
#[local] Open Scope nat_scope.

Inductive CallFailure := f_refusal | f_max_tokens | f_invalid_output | f_token_ceiling | f_deadline | f_provider_error.
#[export] Instance CallFailure_eq_dec : EqDecision CallFailure.
Proof. solve_decision. Defined.

Record CallDiagnostic := mkDiagnostic {
  d_reason : string;
  d_paths : option (list string);
  d_codes : option (list string);
  d_errorName : option string;
  d_status : option num;
  d_requestId : option string;
  d_causeCode : option string;
  d_attempts : option nat
}.

Inductive CallResult (T : Type) :=
| Success (value : T) (calls : nat)
| Failed (failure : CallFailure) (calls : nat) (diagnostic : option CallDiagnostic).
Arguments Success {T} value calls.
Arguments Failed {T} failure calls diagnostic.

Definition MAX_CALLS : nat := 3.
Definition CONNECTION_BACKOFF_MS : list nat := [1000; 3000; 6000].
Definition MAX_REPAIR_DETAIL : nat := 1500.
Definition MAX_DIAGNOSTIC_PATHS : nat := 10.

(** ** What was thrown *)

(** A property of a thrown value that is read as a string. *)
Inductive Field := Absent | Text (s : string) | NotText.

(** A thrown value that is not null or undefined: whether it is an [Error], its
    [name], its constructor's name, and the fields the code reads. [e_codes] is
    the [code] of each [Error] along the cause chain, itself first. *)
Record ErrorInfo := mkError {
  e_isError : bool;
  e_name : string;
  e_constructor : option string;
  e_status : option num;
  e_requestID : Field;
  e_request_id : Field;
  e_codes : list (option string)
}.
Inductive JsError := Nullish | Failure (e : ErrorInfo).

Definition errorClass (error : JsError) : option string :=
  match error with
  | Nullish => None
  | Failure e =>
      if e_isError e
      then Some (if e_name e ==s "Error" then default (e_name e) (e_constructor e) else e_name e)
      else None
  end.

Definition causeCode (e : ErrorInfo) : option string :=
  if e_isError e then head (flat_map (fun c => match c with Some s => [s] | None => [] end) (take 5 (e_codes e)))
  else None.

Definition providerDiagnostic (error : ErrorInfo) (aborted : bool) : CallDiagnostic :=
  mkDiagnostic (if aborted then "aborted" else "provider_error") None None (errorClass (Failure error))
    (e_status error)
    (match (match e_requestID error with Absent => e_request_id error | f => f end) with Text s => Some s | _ => None end)
    (causeCode error) None.

Definition with_attempts (d : CallDiagnostic) (attempts : nat) : CallDiagnostic :=
  mkDiagnostic (d_reason d) (d_paths d) (d_codes d) (d_errorName d) (d_status d) (d_requestId d) (d_causeCode d)
    (if 1 <? attempts then Some attempts else None).

(** ** Reading the response *)

(** An issue of the schema library: its path, message and code. *)
Record Issue := mkIssue { i_path : list string; i_message : string; i_code : string }.

Definition bare_diagnostic (reason : string) (paths codes : option (list string)) : CallDiagnostic :=
  mkDiagnostic reason paths codes None None None None None.

Section Validate.
Context {T : Type} (JSON_parse : string -> string + json) (safeParse : json -> list Issue + T).

Definition issue_path (i : Issue) : string :=
  let p := join "." (i_path i) in if p ==s "" then "(root)" else p.

(** The value, or the detail sent back to the model and the part that may be
    logged. *)
Definition validate (text : string) : T + string * CallDiagnostic :=
  match JSON_parse text with
  | inl message => inr (("Not valid JSON: " ++ message)%string, bare_diagnostic "invalid_json" None None)
  | inr value =>
      match safeParse value with
      | inr v => inl v
      | inl issues =>
          inr (("Schema mismatch: " ++ join "; " ((fun i => issue_path i ++ ": " ++ i_message i)%string <$> issues))%string,
               bare_diagnostic "schema_mismatch" (Some (take MAX_DIAGNOSTIC_PATHS (uniq (issue_path <$> issues))))
                 (Some (uniq (i_code <$> issues))))
      end
  end.
End Validate.

Definition repairTurn (text detail : string) : list LlmMessage :=
  [mkMessage role_assistant (CText (if trim text ==s "" then "{}" else text));
   mkMessage role_user (CText ("That output was rejected. " ++ slice_to MAX_REPAIR_DETAIL detail ++
     String (ascii_of_nat 10) "Return the whole corrected JSON object, matching the schema exactly.")%string)].

(** ** The operations of a call *)
Inductive CallE (F D : Type) :=
| Aborted
| CeilingUsed
| Create (request : LlmRequest F D)
| Record_ (response : LlmResponse)
| MeterError (error : string)
| Pause (ms : nat).
Arguments Aborted {F D}. Arguments CeilingUsed {F D}. Arguments Create {F D} request.
Arguments Record_ {F D} response. Arguments MeterError {F D} error. Arguments Pause {F D} ms.

Definition CallA {F D} (e : CallE F D) : Type :=
  match e with
  | Aborted => bool
  | CeilingUsed => option num
  | Create _ => LlmResponse + JsError
  | Record_ _ => option string
  | MeterError _ | Pause _ => unit
  end.

(** How a call rejects: the ceiling's read does, the provider threw null or
    undefined, or (never, see [callStructured_bounded]) the loop ran out of fuel. *)
Inductive Rejection := CeilingRejects | NullishThrown | OutOfFuel.

Section Call.
Context {F D T : Type} (JSON_parse : string -> string + json) (safeParse : json -> list Issue + T).
Context (route : LlmRoute) (model : string) (format : F) (messages : list LlmMessage) (ceiling : option num).
#[local] Abbreviation prog_ := (prog (E := CallE F D) CallA).

(** The variables of the loop. *)
Record CallState := mkCall {
  transcript : list LlmMessage;
  maxTokens : num;
  truncationRetried : bool;
  repaired : bool;
  calls : nat;
  attempts : nat;
  reconnects : nat
}.

Definition start : CallState := mkCall messages (route_maxTokens route) false false 0 0 0.

(** One iteration ends the call or goes round again. *)
Inductive Pass := Again (st : CallState) | Done (r : outcome Rejection (CallResult T)).
#[local] Abbreviation fail f st d := (Done (Value (Failed f (calls st) d))).

(** [isAbort]: a second reading of the signal, or the SDK's own abort. *)
Definition thrown (st : CallState) (error : JsError) : prog_ Pass :=
  (do! signalled := Aborted in
   let aborted := signalled || bool_decide (errorClass error = Some "APIUserAbortError") in
   match error with
   | Nullish => Ret (Done (Throws NullishThrown))
   | Failure e =>
       let diagnostic := with_attempts (providerDiagnostic e aborted) (attempts st) in
       match CONNECTION_BACKOFF_MS !! reconnects st, aborted, d_status diagnostic with
       | Some backoff, false, None =>
           do! paused := Pause backoff in
           Ret (Again (mkCall (transcript st) (maxTokens st) (truncationRetried st) (repaired st) (calls st)
                         (attempts st) (S (reconnects st))))
       | _, _, _ => Ret (fail (if aborted then f_deadline else f_provider_error) st (Some diagnostic))
       end
   end)%prog.

(** The [switch] on the stop reason; [st] counts the response. *)
Definition read_response (st : CallState) (response : LlmResponse) : Pass :=
  let other :=
    let text := responseText response in
    match validate JSON_parse safeParse text with
    | inl value => Done (Value (Success value (calls st)))
    | inr (detail, diagnostic) =>
        if repaired st then fail f_invalid_output st (Some diagnostic)
        else Again (mkCall (messages ++ repairTurn text detail) (maxTokens st) (truncationRetried st) true (calls st)
                      (attempts st) (reconnects st))
    end in
  match stop_reason response with
  | Some reason =>
      if reason ==s "refusal" then fail f_refusal st None
      else if reason ==s "max_tokens" then
        if truncationRetried st then fail f_max_tokens st None
        else Again (mkCall (transcript st) (nmax (maxTokens st) (retryMaxTokens route)) true (repaired st) (calls st)
                      (attempts st) (reconnects st))
      else if reason ==s "model_context_window_exceeded" then fail f_max_tokens st None
      else other
  | None => other
  end.

Definition answered (st : CallState) (response : LlmResponse) : prog_ Pass :=
  let st := mkCall (transcript st) (maxTokens st) (truncationRetried st) (repaired st) (S (calls st)) (attempts st)
              (reconnects st) in
  (do! failed := Record_ response in
   match failed with
   | Some error => do! told := MeterError error in Ret (read_response st response)
   | None => Ret (read_response st response)
   end)%prog.

Definition send (st : CallState) : prog_ Pass :=
  let st := mkCall (transcript st) (maxTokens st) (truncationRetried st) (repaired st) (calls st) (S (attempts st))
              (reconnects st) in
  (do! reply := Create (buildRequest route model (maxTokens st) format (transcript st)) in
   match reply with inl response => answered st response | inr error => thrown st error end)%prog.

Definition pass (st : CallState) : prog_ Pass :=
  (do! aborted := Aborted in
   if aborted : bool then Ret (fail f_deadline st None)
   else match ceiling with
        | None => send st
        | Some limit =>
            do! used := CeilingUsed in
            match used with
            | None => Ret (Done (Throws CeilingRejects))
            | Some used => if nle limit used then Ret (fail f_token_ceiling st None) else send st
            end
        end)%prog.

Fixpoint call_loop (fuel : nat) (st : CallState) : prog_ (outcome Rejection (CallResult T)) :=
  if calls st <? MAX_CALLS then
    match fuel with
    | O => Ret (Throws OutOfFuel)
    | S fuel =>
        (run! p := pass st in
         match p with Again st' => call_loop fuel st' | Done r => Ret r end)%prog
    end
  else Ret (Value (Failed (if truncationRetried st then f_max_tokens else f_invalid_output) (calls st) None)).

(** Three answered calls and three reconnections at most: six iterations. *)
Definition callStructured : prog_ (outcome Rejection (CallResult T)) := call_loop 6 start.
End Call.
