(* ===== verification/LlmCallSpec.v ===== *)
(** * What a structured model call guarantees

    Against every behaviour of the provider, the meter, the ceiling's read and
    the deadline: the call ends within three answered requests, asks only below
    the ceiling, meters every answer before reading it, and its result is a
    function of the answers it got. *)
From S2P Require Import Prelude JsString JsNumber Json Effects Llm LlmCall.
#[local] Open Scope string_scope.
#[local] Open Scope list_scope.
#[local] Open Scope nat_scope.

Section Observations.
Context {F D : Type}.
#[local] Abbreviation ev_ := (event (E := CallE F D) CallA).

(** What an event of the trace says. *)
Definition created (e : ev_) : option (LlmRequest F D * (LlmResponse + JsError)) :=
  let '(existT op x) := e in
  match op return CallA op -> option (LlmRequest F D * (LlmResponse + JsError)) with
  | Create req => fun a => Some (req, a)
  | _ => fun _ => None
  end x.

Definition answer (e : ev_) : option LlmResponse :=
  match created e with Some (_, inl r) => Some r | _ => None end.

Definition recorded (e : ev_) : option LlmResponse :=
  match projT1 e with Record_ r => Some r | _ => None end.

Definition paused (e : ev_) : option nat :=
  match projT1 e with Pause ms => Some ms | _ => None end.

(** A reading that lets the next request go out: the tokens used, below the
    limit, or the signal when there is no ceiling. *)
Definition go_ahead (ceiling : option num) (e : ev_) : bool :=
  let '(existT op x) := e in
  match op return CallA op -> bool with
  | CeilingUsed => fun used => match ceiling, used with Some limit, Some u => negb (nle limit u) | _, _ => false end
  | Aborted => fun aborted => match ceiling with None => negb aborted | Some _ => false end
  | _ => fun _ => false
  end x.

Definition somes {A B} (f : A -> option B) (l : list A) : list B :=
  flat_map (fun x => match f x with Some y => [y] | None => [] end) l.

Definition responses (tr : list ev_) : list LlmResponse := somes answer tr.
Definition requests_sent (tr : list ev_) : nat := length (somes created tr).
Definition pauses (tr : list ev_) : list nat := somes paused tr.

(** Each request comes right after a reading that allows it, and each response
    is handed to the meter before anything else happens. *)
Fixpoint linked (ceiling : option num) (prev : option ev_) (tr : list ev_) : Prop :=
  match tr with
  | [] => match prev with Some a => answer a = None | None => True end
  | b :: tr =>
      (created b <> None -> match prev with Some a => go_ahead ceiling a = true | None => False end) /\
      match prev with Some a => forall r, answer a = Some r -> recorded b = Some r | None => True end /\
      linked ceiling (Some b) tr
  end.

Lemma somes_app {A B} (f : A -> option B) l1 l2 : somes f (l1 ++ l2) = somes f l1 ++ somes f l2.
Proof. apply flat_map_app. Qed.

Lemma linked_app c prev tr1 tr2 : linked c prev tr1 -> linked c None tr2 -> linked c prev (tr1 ++ tr2).
Proof.
  revert prev. induction tr1 as [|b tr1 IH]; intros prev; simpl.
  - destruct tr2 as [|b tr2]; [done|]. simpl. intros Hp (Hc & _ & H). split_and!; [by intros ?%Hc| |done].
    destruct prev; [by intros r; rewrite Hp|done].
  - intros (H1 & H2 & H3) H. split_and!; [done|done|auto].
Qed.
End Observations.

Definition b2n (b : bool) : nat := if b then 1 else 0.

Section Contract.
Context {F D T : Type} (JSON_parse : string -> string + json) (safeParse : json -> list Issue + T).
Context (route : LlmRoute) (model : string) (format : F) (messages : list LlmMessage) (ceiling : option num).
#[local] Abbreviation ev_ := (event (E := CallE F D) CallA).
#[local] Abbreviation validate_ := (validate JSON_parse safeParse).
#[local] Abbreviation read_ := (read_response JSON_parse safeParse route messages).
#[local] Abbreviation pass_ := (pass JSON_parse safeParse route model format messages ceiling).
#[local] Abbreviation loop_ := (call_loop JSON_parse safeParse route model format messages ceiling).

Definition stopped_by (reason : string) (r : LlmResponse) : bool := bool_decide (stop_reason r = Some reason).
Definition truncated (r : LlmResponse) : bool := stopped_by "max_tokens" r.
Definition readable (r : LlmResponse) : bool :=
  negb (stopped_by "refusal" r) && negb (truncated r) && negb (stopped_by "model_context_window_exceeded" r).
Definition rejected (r : LlmResponse) : option (string * CallDiagnostic) :=
  if readable r then match validate_ (responseText r) with inr d => Some d | inl _ => None end else None.
Definition invalid (r : LlmResponse) : bool := bool_decide (is_Some (rejected r)).

(** The request that follows the responses [rs]: the larger token limit once one
    was truncated, and the correction of the one that failed the schema. *)
Definition request_after (rs : list LlmResponse) : LlmRequest F D :=
  buildRequest route model
    (if existsb truncated rs then nmax (route_maxTokens route) (retryMaxTokens route) else route_maxTokens route)
    format
    (messages ++ flat_map (fun r => match rejected r with Some (detail, _) => repairTurn (responseText r) detail | None => [] end) rs).

(** Every request of the trace is the one its preceding responses call for. *)
Fixpoint asks (rs : list LlmResponse) (tr : list ev_) : Prop :=
  match tr with
  | [] => True
  | e :: tr =>
      (forall req a, created e = Some (req, a) -> req = request_after rs) /\
      asks (rs ++ match answer e with Some r => [r] | None => [] end) tr
  end.

(** Responses the call goes on after: at most one truncated and one invalid. *)
Definition recoverable (rs : list LlmResponse) : Prop :=
  Forall (fun r => truncated r = true \/ invalid r = true) rs /\
  length rs = b2n (existsb truncated rs) + b2n (existsb invalid rs).

(** The result the responses [rs] justify. *)
Definition justified (rs : list LlmResponse) (o : outcome Rejection (CallResult T)) : Prop :=
  match o with
  | Value (Success v calls) =>
      calls = length rs /\ exists init l, rs = init ++ [l] /\ recoverable init /\ readable l = true /\
        validate_ (responseText l) = inl v
  | Value (Failed f calls _) =>
      calls = length rs /\
      match f with
      | f_refusal => exists init l, rs = init ++ [l] /\ recoverable init /\ stopped_by "refusal" l = true
      | f_max_tokens => exists init l, rs = init ++ [l] /\ recoverable init /\
          (stopped_by "model_context_window_exceeded" l = true \/ truncated l = true /\ existsb truncated init = true)
      | f_invalid_output => exists init l, rs = init ++ [l] /\ recoverable init /\
          invalid l = true /\ existsb invalid init = true
      | f_token_ceiling => ceiling <> None /\ recoverable rs
      | f_deadline | f_provider_error => recoverable rs
      end
  | Throws OutOfFuel => False
  | Throws CeilingRejects => ceiling <> None /\ recoverable rs
  | Throws NullishThrown => recoverable rs
  end.

Record Inv (st : CallState) (rs : list LlmResponse) : Prop := {
  inv_calls : calls st = length rs;
  inv_trunc : truncationRetried st = existsb truncated rs;
  inv_rep : repaired st = existsb invalid rs;
  inv_req : buildRequest route model (maxTokens st) format (transcript st) = request_after rs;
  inv_ok : recoverable rs
}.

Lemma start_inv : Inv (start route messages) [].
Proof. split; try done. unfold request_after. simpl. by rewrite app_nil_r. Qed.

Lemma asks_app rs tr1 tr2 : asks rs (tr1 ++ tr2) <-> asks rs tr1 /\ asks (rs ++ responses tr1) tr2.
Proof.
  revert rs. induction tr1 as [|e tr1 IH]; intros rs; simpl.
  - by rewrite app_nil_r; split; [|intros [_ ?]].
  - rewrite IH. unfold responses, somes. simpl. rewrite <- !app_assoc. tauto.
Qed.

(** ** One iteration *)

(** Counting the request sent, and the response read. *)
Definition tried (st : CallState) : CallState :=
  mkCall (transcript st) (maxTokens st) (truncationRetried st) (repaired st) (calls st) (S (attempts st)) (reconnects st).
Definition counted (st : CallState) : CallState :=
  mkCall (transcript st) (maxTokens st) (truncationRetried st) (repaired st) (S (calls st)) (attempts st) (reconnects st).
Definition reconnected (st : CallState) : CallState :=
  mkCall (transcript st) (maxTokens st) (truncationRetried st) (repaired st) (calls st) (attempts st) (S (reconnects st)).

Definition request (st : CallState) : LlmRequest F D := buildRequest route model (maxTokens st) format (transcript st).

(** The events of a request, and how the iteration ends. *)
Inductive sent (st : CallState) : list ev_ -> Pass (T := T) -> Prop :=
| sent_stored r :
    sent st [ev (Create (request st)) (inl r); ev (Record_ r) None] (read_ (counted (tried st)) r)
| sent_unstored r e u :
    sent st [ev (Create (request st)) (inl r); ev (Record_ r) (Some e); ev (MeterError e) u]
      (read_ (counted (tried st)) r)
| sent_paused e b ms u :
    CONNECTION_BACKOFF_MS !! reconnects st = Some ms ->
    sent st [ev (Create (request st)) (inr e); ev Aborted b; ev (Pause ms) u] (Again (reconnected (tried st)))
| sent_failed e b f d : f = f_deadline \/ f = f_provider_error ->
    sent st [ev (Create (request st)) (inr e); ev Aborted b] (Done (Value (Failed f (calls st) d)))
| sent_nullish b : sent st [ev (Create (request st)) (inr Nullish); ev Aborted b] (Done (Throws NullishThrown)).

Lemma send_sent st tr p :
  runs (send JSON_parse safeParse route model format messages st) tr p -> sent st tr p.
Proof.
  unfold send. cbv zeta. intros (x & tr' & -> & H). destruct x as [r|e].
  - unfold answered in H. cbv zeta in H. destruct H as (y & tr2 & -> & H). destruct y as [err|].
    + destruct H as (z & tr3 & -> & [-> ->]). apply sent_unstored.
    + destruct H as [-> ->]. apply sent_stored.
  - unfold thrown in H. destruct H as (b & tr2 & -> & H). destruct e as [|e]; [destruct H as [-> ->]; constructor|].
    set (aborted := (b || _) : bool) in H. clearbody aborted. cbv zeta in H.
    assert (Hf : (if aborted then f_deadline else f_provider_error) = f_deadline \/
                 (if aborted then f_deadline else f_provider_error) = f_provider_error)
      by (destruct aborted; auto).
    cbn [reconnects] in H. destruct (CONNECTION_BACKOFF_MS !! reconnects st) as [ms|] eqn:Em;
      [|destruct H as [-> ->]; by apply (sent_failed st)].
    destruct aborted; [destruct H as [-> ->]; by apply (sent_failed st)|]. simpl in H.
    destruct (e_status e); [destruct H as [-> ->]; by apply (sent_failed st)|].
    destruct H as (u & tr3 & -> & [-> ->]). by apply (sent_paused st).
Qed.

(** An iteration: it stops before a request, or sends one with leave to. *)
Lemma pass_runs st tr p :
  runs (pass_ st) tr p ->
  (exists f, tr = [ev Aborted true] /\ f = f_deadline /\ p = Done (Value (Failed f (calls st) None))) \/
  (ceiling <> None /\ exists u : option num, tr = [ev Aborted false; ev CeilingUsed u] /\ (p = Done (Throws CeilingRejects) \/ p = Done (Value (Failed f_token_ceiling (calls st) None)))) \/
  (exists pre tr', tr = pre ++ tr' /\ sent st tr' p /\ (pre = [ev Aborted false] /\ ceiling = None \/
     exists limit u, pre = [ev Aborted false; ev CeilingUsed (Some u)] /\ ceiling = Some limit /\ nle limit u = false)).
Proof.
  unfold pass. intros (a & tr1 & -> & H). destruct a.
  { destruct H as [-> ->]. left. by exists f_deadline. }
  destruct ceiling as [limit|] eqn:Ec.
  - destruct H as (u & tr2 & -> & H). destruct u as [u|].
    + destruct (nle limit u) eqn:El.
      * destruct H as [-> ->]. right. left. split; [done|]. exists (Some u). auto.
      * right. right. exists [ev Aborted false; ev CeilingUsed (Some u)], tr2. split; [done|].
        split; [by apply send_sent|]. right. by exists limit, u.
    + destruct H as [-> ->]. right. left. split; [done|]. exists None. auto.
  - right. right. exists [ev Aborted false], tr1. split; [done|]. split; [by apply send_sent|]. by left.
Qed.

(** ** Reading a response *)
Lemma recoverable_snoc_truncated rs r :
  recoverable rs -> truncated r = true -> existsb truncated rs = false -> recoverable (rs ++ [r]).
Proof.
  intros [Hf Hl] Hr He. assert (Hi : invalid r = false).
  { unfold invalid, rejected, readable. by rewrite Hr, andb_false_r. }
  split; [apply Forall_app; auto|]. rewrite length_app, !existsb_app. simpl. rewrite Hr, Hi, He in *.
  rewrite Hl, ?orb_false_r, ?orb_true_r. simpl. lia.
Qed.

Lemma recoverable_snoc_invalid rs r :
  recoverable rs -> invalid r = true -> existsb invalid rs = false -> recoverable (rs ++ [r]).
Proof.
  intros [Hf Hl] Hr He. assert (Ht : truncated r = false).
  { apply not_true_iff_false. intros Ht. unfold invalid, rejected, readable in Hr.
    rewrite Ht, andb_false_r in Hr. done. }
  split; [apply Forall_app; auto|]. rewrite length_app, !existsb_app. simpl. rewrite Hr, Ht, He in *.
  rewrite Hl, ?orb_false_r, ?orb_true_r. simpl. lia.
Qed.

(** What the [switch] does, by the class of the response. *)
Lemma read_cases st r :
  (stopped_by "refusal" r = true /\ read_ st r = Done (Value (Failed f_refusal (calls st) None))) \/
  (truncated r = true /\ read_ st r =
     if truncationRetried st then Done (Value (Failed f_max_tokens (calls st) None))
     else Again (mkCall (transcript st) (nmax (maxTokens st) (retryMaxTokens route)) true (repaired st) (calls st)
                   (attempts st) (reconnects st))) \/
  (stopped_by "model_context_window_exceeded" r = true /\
     read_ st r = Done (Value (Failed f_max_tokens (calls st) None))) \/
  (readable r = true /\ exists v, validate_ (responseText r) = inl v /\ read_ st r = Done (Value (Success v (calls st)))) \/
  (exists detail d, rejected r = Some (detail, d) /\ read_ st r =
     if repaired st then Done (Value (Failed f_invalid_output (calls st) (Some d)))
     else Again (mkCall (messages ++ repairTurn (responseText r) detail) (maxTokens st) (truncationRetried st) true
                   (calls st) (attempts st) (reconnects st))).
Proof.
  unfold rejected, readable, truncated, stopped_by, read_response. destruct (stop_reason r) as [s|] eqn:Es; simpl.
  - destruct (String.eqb_spec s "refusal") as [->|N1]; [left; by rewrite bool_decide_true|].
    destruct (String.eqb_spec s "max_tokens") as [->|N2]; [right; left; by rewrite bool_decide_true|].
    destruct (String.eqb_spec s "model_context_window_exceeded") as [->|N3];
      [right; right; left; by rewrite bool_decide_true|].
    rewrite !bool_decide_false by congruence. simpl. right. right. right.
    destruct (validate_ _) as [v|[detail d]]; [left; split; [done|by exists v]|right; by exists detail, d].
  - right. right. right.
    destruct (validate_ _) as [v|[detail d]]; [left; split; [done|by exists v]|right; by exists detail, d].
Qed.

Lemma rejected_iff r : invalid r = true <-> is_Some (rejected r).
Proof. unfold invalid. apply bool_decide_eq_true. Qed.

Lemma truncated_not_rejected r : truncated r = true -> rejected r = None.
Proof. intros H. unfold rejected, readable. by rewrite H, andb_false_r. Qed.

Lemma invalid_not_truncated r : is_Some (rejected r) -> truncated r = false.
Proof. intros [x H]. destruct (truncated r) eqn:E; [|done]. by rewrite truncated_not_rejected in H. Qed.

Lemma no_repair rs : existsb invalid rs = false ->
  flat_map (fun r => match rejected r with Some (d, _) => repairTurn (responseText r) d | None => [] end) rs = [].
Proof.
  intros H. apply flat_map_nil. intros r Hr. destruct (rejected r) as [[d x]|] eqn:E; [|done].
  rewrite existsb_elem_false in H. specialize (H r Hr). unfold invalid in H. rewrite E in H. done.
Qed.

Lemma read_again st rs r st' :
  Inv st rs -> read_ (counted (tried st)) r = Again st' ->
  Inv st' (rs ++ [r]) /\ reconnects st' = reconnects st.
Proof.
  intros [Hc Ht Hr Hq Hok] H. injection Hq as Hm Htr.
  destruct (read_cases (counted (tried st)) r) as [[_ E]|[[Hx E]|[[_ E]|[[_ (v & _ & E)]|(detail & d & Hx & E)]]]];
    rewrite E in H; try done; cbn [counted tried truncationRetried repaired] in H.
  - destruct (truncationRetried st) eqn:Et; [done|]. injection H as <-. split; [|done].
    symmetry in Ht. split; cbn.
    + rewrite length_app. simpl. lia.
    + by rewrite existsb_app, Ht; simpl; rewrite Hx.
    + rewrite existsb_app. simpl. unfold invalid at 2. rewrite truncated_not_rejected by done. simpl.
      by rewrite orb_false_r.
    + unfold request_after. rewrite existsb_app, flat_map_app, Ht. simpl. rewrite Hx, truncated_not_rejected by done.
      simpl. rewrite app_nil_r, <- Htr. by rewrite Hm, Ht.
    + by apply recoverable_snoc_truncated.
  - destruct (repaired st) eqn:Et; [done|]. injection H as <-. split; [|done]. symmetry in Hr.
    assert (Hi : invalid r = true) by (apply rejected_iff; by rewrite Hx).
    assert (Hn : truncated r = false) by (apply invalid_not_truncated; by rewrite Hx).
    split; cbn.
    + rewrite length_app. simpl. lia.
    + by rewrite existsb_app, Ht; simpl; rewrite Hn, !orb_false_r.
    + by rewrite existsb_app, Hr; simpl; rewrite Hi.
    + unfold request_after. rewrite existsb_app, flat_map_app, no_repair by done. simpl. rewrite Hn, Hx, app_nil_r, !orb_false_r.
      simpl. by rewrite <- Hm.
    + by apply recoverable_snoc_invalid.
Qed.

Lemma read_done st rs r o :
  Inv st rs -> read_ (counted (tried st)) r = Done o -> justified (rs ++ [r]) o.
Proof.
  intros [Hc Ht Hr Hq Hok] H. assert (Hn : calls (counted (tried st)) = length (rs ++ [r])).
  { rewrite length_app. simpl. lia. }
  destruct (read_cases (counted (tried st)) r) as [[Hx E]|[[Hx E]|[[Hx E]|[[Hx (v & Hv & E)]|(detail & d & Hx & E)]]]];
    rewrite E in H; cbn [truncationRetried repaired counted tried] in H.
  - injection H as <-. split; [done|]. by exists rs, r.
  - destruct (truncationRetried st) eqn:Et; [|done]. injection H as <-. split; [done|]. exists rs, r. auto.
  - injection H as <-. split; [done|]. exists rs, r. auto.
  - injection H as <-. split; [done|]. by exists rs, r.
  - destruct (repaired st) eqn:Et; [|done]. injection H as <-. split; [done|]. exists rs, r. split_and!; try done.
    apply rejected_iff. by rewrite Hx.
Qed.

(** ** The whole call *)
Definition left_over (st : CallState) (rs : list LlmResponse) : nat := (2 - length rs) + (3 - reconnects st).

Lemma recoverable_le rs : recoverable rs -> length rs <= 2.
Proof. intros [_ H]. destruct (existsb truncated rs), (existsb invalid rs); simpl in H; lia. Qed.

(** What a trace from [st] that ends with [o] satisfies. *)
Record Good (st : CallState) (rs : list LlmResponse) (tr : list ev_) (o : outcome Rejection (CallResult T)) : Prop := {
  good_result : justified (rs ++ responses tr) o;
  good_linked : linked ceiling None tr;
  good_asks : asks rs tr;
  good_pauses : exists k, pauses tr = take k (drop (reconnects st) CONNECTION_BACKOFF_MS);
  good_sent : requests_sent tr <= S (left_over st rs)
}.

(** The observations of one request, with its leave in front. *)
Record Sends (st : CallState) (rs : list LlmResponse) (tr : list ev_) (back : list LlmResponse) (waits : list nat) : Prop := {
  sends_linked : linked ceiling None tr;
  sends_asks : asks rs tr;
  sends_one : requests_sent tr = 1;
  sends_responses : responses tr = back;
  sends_pauses : pauses tr = waits
}.

Lemma sends_intro st rs pre a rest back waits :
  Inv st rs ->
  (pre = [ev Aborted false] /\ ceiling = None \/
   exists limit u, pre = [ev Aborted false; ev CeilingUsed (Some u)] /\ ceiling = Some limit /\ nle limit u = false) ->
  linked ceiling (Some (ev (Create (request st)) a)) rest -> somes created rest = [] ->
  match a with inl r => [r] | inr _ => [] end = back -> pauses rest = waits ->
  Sends st rs (pre ++ ev (Create (request st)) a :: rest) back waits.
Proof.
  intros [_ _ _ Hq _] Hpre Hl Hc Hb Hw.
  assert (Hasks : forall rs', asks rs' rest).
  { clear -Hc. induction rest as [|e rest IH]; intros rs'; simpl; [done|]. unfold somes in Hc. simpl in Hc.
    destruct (created e) eqn:E; [done|]. split; [by intros ? ?|]. by apply IH. }
  assert (Hresp : responses rest = []).
  { clear -Hc. unfold responses, somes in *. induction rest as [|e rest IH]; [done|]. simpl in *.
    unfold answer. destruct (created e); [done|]. simpl. by apply IH. }
  assert (Hcount : requests_sent (ev (Create (request st)) a :: rest) = 1).
  { unfold requests_sent, somes in *. simpl. by rewrite Hc. }
  assert (Hback : responses (ev (Create (request st)) a :: rest) = back).
  { unfold responses, somes in *. simpl. rewrite Hresp, app_nil_r. by destruct a. }
  destruct Hpre as [[-> Ec]|(limit & u & -> & Ec & El)]; (split; [|simpl; split_and!; try done|exact Hcount|exact Hback|exact Hw]).
  - simpl. rewrite Ec. split_and!; try done. by rewrite <- Ec.
  - intros req b [= <- <-]. rewrite ?app_nil_r. exact Hq.
  - simpl. rewrite Ec, El. split_and!; try done. by rewrite <- Ec.
  - intros req b [= <- <-]. rewrite ?app_nil_r. exact Hq.
Qed.

Lemma sent_sends st rs pre tr p :
  Inv st rs ->
  (pre = [ev Aborted false] /\ ceiling = None \/
   exists limit u, pre = [ev Aborted false; ev CeilingUsed (Some u)] /\ ceiling = Some limit /\ nle limit u = false) ->
  sent st tr p ->
  (exists r, Sends st rs (pre ++ tr) [r] [] /\ p = read_ (counted (tried st)) r) \/
  (exists ms, Sends st rs (pre ++ tr) [] [ms] /\ CONNECTION_BACKOFF_MS !! reconnects st = Some ms /\
              p = Again (reconnected (tried st))) \/
  (Sends st rs (pre ++ tr) [] [] /\ (p = Done (Throws NullishThrown) \/
     exists f d, (f = f_deadline \/ f = f_provider_error) /\ p = Done (Value (Failed f (calls st) d)))).
Proof.
  intros Hi Hpre Hs. destruct Hs as [r|r e u|e b ms u Hms|e b f d Hf|b].
  - left. exists r. split; [|done]. by apply sends_intro.
  - left. exists r. split; [|done]. by apply sends_intro.
  - right. left. exists ms. split; [|done]. by apply sends_intro.
  - right. right. split; [by apply sends_intro|]. right. by exists f, d.
  - right. right. split; [by apply sends_intro|]. by left.
Qed.

Lemma backoff_bound n ms : CONNECTION_BACKOFF_MS !! n = Some ms -> n < 3.
Proof. intros H. by apply lookup_lt_Some in H. Qed.

Lemma pass_again st rs tr st' :
  Inv st rs -> runs (pass_ st) tr (Again st') ->
  Inv st' (rs ++ responses tr) /\ left_over st' (rs ++ responses tr) < left_over st rs /\
  linked ceiling None tr /\ asks rs tr /\ requests_sent tr = 1 /\
  exists k, reconnects st' = k + reconnects st /\ pauses tr = take k (drop (reconnects st) CONNECTION_BACKOFF_MS).
Proof.
  intros Hi H. apply pass_runs in H as [(f & _ & _ & H)|[(_ & u & _ & [H|H])|(pre & tr' & -> & Hs & Hpre)]]; try done.
  eapply sent_sends in Hs as [(r & [H1 H2 H3 H4 H5] & E)|[(ms & [H1 H2 H3 H4 H5] & Hms & E)|(_ & [E|(f & d & _ & E)])]];
    try done.
  - symmetry in E. rewrite H4. destruct (read_again _ _ _ _ Hi E) as [Hi' Hre]. split_and!; try done.
    + unfold left_over. rewrite Hre, length_app. simpl.
      pose proof (recoverable_le _ (inv_ok _ _ Hi')) as Hle. rewrite length_app in Hle. simpl in Hle. lia.
    + exists 0. split; [by rewrite Hre|by rewrite H5].
  - injection E as ->. rewrite H4, app_nil_r. split_and!; try done.
    + by destruct Hi.
    + unfold left_over, reconnected, tried. simpl. apply backoff_bound in Hms. lia.
    + exists 1. split; [done|]. rewrite H5. rewrite (drop_S _ _ _ Hms). done.
Qed.

Lemma pass_done st rs tr o : Inv st rs -> runs (pass_ st) tr (Done o) -> Good st rs tr o.
Proof.
  intros Hi H. pose proof (inv_calls _ _ Hi) as Hc. pose proof (inv_ok _ _ Hi) as Hok.
  apply pass_runs in H as [(f & -> & -> & H)|[(Hce & u & -> & H)|(pre & tr' & -> & Hs & Hpre)]].
  - injection H as ->. split; [by rewrite app_nil_r|done|done|by exists 0|unfold requests_sent; simpl; lia].
  - assert (Ho : justified (rs ++ []) o) by (rewrite app_nil_r; destruct H as [[= ->]|[= ->]]; done).
    split; [done|done|done|by exists 0|unfold requests_sent; simpl; lia].
  - eapply sent_sends in Hs as [(r & [H1 H2 H3 H4 H5] & E)|[(ms & [H1 H2 H3 H4 H5] & Hms & E)|([H1 H2 H3 H4 H5] & E)]];
      try done.
    + split; [|done|done|exists 0; by rewrite H5|lia]. rewrite H4. by eapply read_done.
    + split; [|done|done|exists 0; by rewrite H5|lia]. rewrite H4, app_nil_r.
      destruct E as [[= ->]|(f & d & [-> | ->] & [= ->])]; done.
Qed.

Lemma loop_good fuel st rs tr o :
  Inv st rs -> left_over st rs < fuel -> runs (loop_ fuel st) tr o -> Good st rs tr o.
Proof.
  revert st rs tr. induction fuel as [|fuel IH]; intros st rs tr Hi Hfuel H; [lia|].
  cbn [call_loop] in H. pose proof (recoverable_le _ (inv_ok _ _ Hi)) as Hle. rewrite (inv_calls _ _ Hi) in H.
  rewrite (proj2 (Nat.ltb_lt (length rs) MAX_CALLS)) in H by (unfold MAX_CALLS; lia).
  apply runs_bind in H as (tr1 & tr2 & p & -> & H1 & H2). destruct p as [st'|r].
  - destruct (pass_again _ _ _ _ Hi H1) as (Hi' & Hm & Hl & Ha & Hs & k & Hk & Hp).
    destruct (IH _ _ _ Hi' ltac:(lia) H2) as [R1 R2 R3 [k' R4] R5]. split.
    + unfold responses in *. by rewrite somes_app, app_assoc.
    + by apply linked_app.
    + apply asks_app. done.
    + exists (k + k'). unfold pauses in *. rewrite somes_app, Hp, R4, Hk.
      rewrite (Nat.add_comm k (reconnects st)), <- drop_drop. apply take_take_drop.
    + unfold requests_sent in *. rewrite somes_app, length_app. lia.
  - destruct H2 as [-> ->]. rewrite app_nil_r. by apply pass_done.
Qed.

#[local] Abbreviation call_ := (callStructured JSON_parse safeParse route model format messages ceiling).

Lemma call_good tr o : runs call_ tr o -> Good (start route messages) [] tr o.
Proof. apply loop_good; [apply start_inv|unfold left_over; simpl; lia]. Qed.

(** A call rejects only where the ceiling's read did, or null was thrown. *)
Definition rejecting (r : Rejection) (e : ev_) : Prop :=
  match r with
  | CeilingRejects => e = ev CeilingUsed None
  | NullishThrown => exists req, e = ev (Create req) (inr Nullish)
  | OutOfFuel => False
  end.
Lemma read_value st x r : read_ st x <> Done (Throws r).
Proof.
  intros H. destruct (read_cases st x) as [[_ E]|[[_ E]|[[_ E]|[[_ (v & _ & E)]|(detail & d & _ & E)]]]]; rewrite E in H; try done;
    by case_match.
Qed.
Lemma pass_rejects st tr r : runs (pass_ st) tr (Done (Throws r)) -> exists e, e ∈ tr /\ rejecting r e.
Proof.
  unfold pass. intros (a & tr1 & -> & H). destruct a; [by destruct H|].
  assert (Hsend : forall tr', runs (send JSON_parse safeParse route model format messages st) tr' (Done (Throws r)) ->
            exists e, e ∈ tr' /\ rejecting r e).
  { intros tr' Hs. apply send_sent in Hs. inversion Hs as [x Hp Hr|x e u Hp Hr| |e b f d Hf|b]; subst.
    - by destruct (read_value _ _ _ Hr).
    - by destruct (read_value _ _ _ Hr).
    - eexists. split; [left|]. by eexists. }
  destruct ceiling as [limit|].
  - destruct H as (u & tr2 & -> & H). destruct u as [u|].
    + destruct (nle limit u); [by destruct H|]. apply Hsend in H as (e & He & Hr). exists e. split; [by do 2 right|done].
    + destruct H as [-> [= ->]]. eexists. split; [right; left|done].
  - apply Hsend in H as (e & He & Hr). exists e. split; [by right|done].
Qed.
Lemma loop_rejects fuel st tr r : runs (loop_ fuel st) tr (Throws r) -> r = OutOfFuel \/ exists e, e ∈ tr /\ rejecting r e.
Proof.
  revert st tr. induction fuel as [|fuel IH]; intros st tr H; cbn [call_loop] in H.
  - destruct (_ <? _); destruct H as [-> [= ->]]. by left.
  - destruct (_ <? _); [|by destruct H]. apply runs_bind in H as (tr1 & tr2 & p & -> & H1 & H2). destruct p as [st'|o].
    + apply IH in H2 as [?|(e & He & Hr)]; [by left|right]. exists e. split; [apply elem_of_app; by right|done].
    + destruct H2 as [-> <-]. right. apply pass_rejects in H1 as (e & He & Hr). exists e. split; [apply elem_of_app; by left|done].
Qed.
Lemma call_rejects tr r : runs call_ tr (Throws r) -> exists e, e ∈ tr /\ rejecting r e.
Proof. intros H. pose proof (good_result _ _ _ _ (call_good _ _ H)) as Hj. apply loop_rejects in H as [->|H]; done. Qed.

Lemma justified_length rs o : justified rs o -> length rs <= 3.
Proof.
  intros H. assert (Hr : recoverable rs -> length rs <= 3) by (intros Hr%recoverable_le; lia).
  assert (Hs : forall P, (exists init l, rs = init ++ [l] /\ recoverable init /\ P init l) -> length rs <= 3).
  { intros P (init & l & -> & Hi%recoverable_le & _). rewrite length_app. simpl. lia. }
  destruct o as [[v c|f c d]|[]]; simpl in H.
  - destruct H as [_ (init & l & ? & ? & ?)]. apply (Hs (fun _ _ => True)). by exists init, l.
  - destruct H as [_ H]. destruct f; try (by apply Hr; tauto);
      destruct H as (init & l & ? & ? & ?); apply (Hs (fun _ _ => True)); by exists init, l.
  - apply Hr. tauto.
  - auto.
  - done.
Qed.

(** C11: The result of a structured call is the one its responses justify: a
    value only from the last response, readable and valid; a refusal, a second
    truncation or a second invalid output ends it; before that at most one
    response was truncated and at most one invalid, and the request sent after
    any responses carries exactly the larger limit and the correction they call
    for. *)
Theorem callStructured_result (tr : list ev_) o :
  runs call_ tr o -> justified (responses tr) o /\ asks [] tr.
Proof. intros H%call_good. destruct H. done. Qed.

(** C10: A structured call ends, whatever the provider does: the loop never runs
    out, at most three requests are answered and six sent, and the pauses
    between reconnections are the first ones of the backoff. *)
Theorem callStructured_bounded (tr : list ev_) o :
  runs call_ tr o ->
  o <> Throws OutOfFuel /\ length (responses tr) <= 3 /\ requests_sent tr <= 6 /\
  exists k, pauses tr = take k CONNECTION_BACKOFF_MS.
Proof.
  intros H%call_good. destruct H as [Hj _ _ [k Hk] Hs]. split_and!; [|by eapply justified_length|done|by exists k].
  intros ->. by destruct Hj.
Qed.

(** C9: No request goes out except right after a reading that allows it: the
    tokens used so far, below the build's ceiling, or the deadline's signal when
    there is no ceiling. And every response is handed to the meter before
    anything else happens. *)
Theorem callStructured_guarded (tr : list ev_) o : runs call_ tr o -> linked ceiling None tr.
Proof. intros H%call_good. by destruct H. Qed.
End Contract.
