(* ===== verification/LlmTools.v ===== *)
(** * The tool loop ([packages/llm/src/tools.ts])

    [runToolLoop]: request, run the tools the model asked for, send the results
    back, up to a number of model calls; and what it guarantees against every
    behaviour of the provider and the executors. *)
From S2P Require Import Prelude JsString JsNumber Json Effects Llm.
#[local] Open Scope string_scope.
#[local] Open Scope list_scope.
#[local] Open Scope nat_scope.

(** What an executor does: a result ([None] is [undefined]) and a note, or a
    throw with the [code] of what was thrown when it is an object having one. *)
Inductive Executed := Returned (result note : option json) | Thrown (code : option string).

Inductive ToolFailure := t_max_iterations | t_refusal | t_max_tokens | t_no_text | t_provider_error.
Inductive ToolLoopOutcome :=
| Answered (text : string) (toolCalls iterations : nat)
| Stopped (failure : ToolFailure) (toolCalls iterations : nat).

Inductive ToolE (D : Type) :=
| Signal
| CreateT (request : LlmRequest unit D)
| OnResponse (response : LlmResponse)
| Execute (name : string) (input : json)
| OnToolCall (name : string) (note : option json).
Arguments Signal {D}. Arguments CreateT {D} request. Arguments OnResponse {D} response.
Arguments Execute {D} name input. Arguments OnToolCall {D} name note.

Definition ToolA {D} (e : ToolE D) : Type :=
  match e with
  | Signal => bool
  | CreateT _ => option LlmResponse
  | Execute _ _ => Executed
  | OnResponse _ | OnToolCall _ _ => unit
  end.

(** The loop rejects when the signal is aborted. *)
Inductive ToolRejection := SignalAborted | ExecutorThrew.

Definition buildToolRequest {D} (route : LlmRoute) (model : string) (maxTokens : num) (tools : list D)
    (messages : list LlmMessage) : LlmRequest unit D :=
  mkRequest model maxTokens [FALLBACK_BETA] "default" "adaptive" (route_effort route) None (systemBlocks route)
    (Some tools) messages.

Definition textOf (response : LlmResponse) : string :=
  trim (join (String (ascii_of_nat 10) EmptyString) (text_blocks (rsp_content response))).

Definition stop_is (response : LlmResponse) (reason : string) : bool :=
  match stop_reason response with Some s => s ==s reason | None => false end.

Definition tool_uses (content : list Block) : list (string * string * json) :=
  flat_map (fun b => match b with BToolUse id name input => [(id, name, input)] | _ => [] end) content.

Section Loop.
Context {D : Type} (route : LlmRoute) (model : string) (maxTokens : num) (tools : list D).
(** The names of [options.executors]. *)
Context (executors : list string) (maxIterations : nat).
#[local] Abbreviation prog_ := (prog (E := ToolE D) ToolA).

(** [options.executors[use.name]] finds something: an executor, or a property
    every object inherits. *)
Definition has_executor (name : string) : bool := inb name executors || inb name object_prototype.

Definition error_content (error : string) : string := stringify (JObj [("error", JStr error)]).

Definition run_use (use : string * string * json) : prog_ (outcome ToolRejection ToolResult) :=
  let '(id, name, input) := use in
  if has_executor name then
    (do! executed := Execute name input in
     match executed with
     | Returned result note =>
         do! told := OnToolCall name note in Ret (Value (mkToolResult id false (stringify <$> result)))
     | Thrown code =>
         do! aborted := Signal in
         if aborted : bool then Ret (Throws ExecutorThrew)
         else Ret (Value (mkToolResult id true (Some (error_content (default "failed" code)))))
     end)%prog
  else Ret (Value (mkToolResult id true (Some (error_content "unknown_tool")))).

Fixpoint run_uses (uses : list (string * string * json)) : prog_ (outcome ToolRejection (list ToolResult)) :=
  match uses with
  | [] => Ret (Value [])
  | use :: uses =>
      (run! r := run_use use in
       match r with
       | Throws x => Ret (Throws x)
       | Value r => run! rs := run_uses uses in
                    match rs with Throws x => Ret (Throws x) | Value rs => Ret (Value (r :: rs)) end
       end)%prog
  end.

(** [remaining] more iterations; the current one is [iteration]. *)
Fixpoint tool_loop (remaining iteration : nat) (messages : list LlmMessage) (toolCalls : nat)
    : prog_ (outcome ToolRejection ToolLoopOutcome) :=
  match remaining with
  | O => Ret (Value (Stopped t_max_iterations toolCalls maxIterations))
  | S remaining =>
      (do! aborted := Signal in
       if aborted : bool then Ret (Throws SignalAborted)
       else
         do! reply := CreateT (buildToolRequest route model maxTokens tools messages) in
         match reply with
         | None => Ret (Value (Stopped t_provider_error toolCalls iteration))
         | Some response =>
             do! metered := OnResponse response in
             if stop_is response "refusal" then Ret (Value (Stopped t_refusal toolCalls iteration))
             else if stop_is response "max_tokens" then Ret (Value (Stopped t_max_tokens toolCalls iteration))
             else if stop_is response "tool_use" then
               run! results := run_uses (tool_uses (rsp_content response)) in
               match results with
               | Throws x => Ret (Throws x)
               | Value results =>
                   tool_loop remaining (S iteration)
                     (messages ++ [mkMessage role_assistant (CBlocks (rsp_content response));
                                   mkMessage role_user (CResults results)])
                     (toolCalls + length (tool_uses (rsp_content response)))
               end
             else
               let text := textOf response in
               Ret (Value (if text ==s "" then Stopped t_no_text toolCalls iteration
                           else Answered text toolCalls iteration))
         end)%prog
  end.

Definition runToolLoop (messages : list LlmMessage) : prog_ (outcome ToolRejection ToolLoopOutcome) :=
  tool_loop maxIterations 1 messages 0.

(** ** What a trace says *)
#[local] Abbreviation ev_ := (event (E := ToolE D) ToolA).

Definition sent_and_got (e : ev_) : option (LlmRequest unit D * option LlmResponse) :=
  let '(existT op x) := e in
  match op return ToolA op -> option (LlmRequest unit D * option LlmResponse) with
  | CreateT req => fun a => Some (req, a)
  | _ => fun _ => None
  end x.

Definition told (e : ev_) : option LlmResponse := match projT1 e with OnResponse r => Some r | _ => None end.
Definition executed (e : ev_) : option string := match projT1 e with Execute name _ => Some name | _ => None end.

(** The turns of the conversation: a response and the results sent for it. *)
Definition turn_messages (t : LlmResponse * list ToolResult) : list LlmMessage :=
  [mkMessage role_assistant (CBlocks (rsp_content t.1)); mkMessage role_user (CResults t.2)].
(** The results answer the tool uses one for one, in their order. *)
Definition answers_all (t : LlmResponse * list ToolResult) : Prop :=
  stop_is t.1 "tool_use" = true /\ tool_use_id <$> t.2 = (fun u => u.1.1) <$> tool_uses (rsp_content t.1).

(** Every request carries the first messages, then each earlier response with
    the results of its tools; every response is reported before any tool runs. *)
Fixpoint conversation (messages : list LlmMessage) (turns : list LlmResponse) (prev : option LlmResponse)
    (tr : list ev_) : Prop :=
  match tr with
  | [] => prev = None
  | e :: tr =>
      match prev with
      | Some r => told e = Some r /\ conversation messages turns None tr
      | None =>
          match sent_and_got e with
          | Some (req, a) =>
              (exists done_ : list (LlmResponse * list ToolResult),
                 req = buildToolRequest route model maxTokens tools (messages ++ flat_map turn_messages done_) /\
                 done_.*1 = turns /\ Forall answers_all done_) /\
              conversation messages (turns ++ match a with Some r => [r] | None => [] end) a tr
          | None => (forall n, executed e = Some n -> turns <> [] /\ has_executor n = true) /\
                    conversation messages turns None tr
          end
      end
  end.

Definition iterations_of (o : ToolLoopOutcome) : nat :=
  match o with Answered _ _ i | Stopped _ _ i => i end.
Definition toolCalls_of (o : ToolLoopOutcome) : nat :=
  match o with Answered _ c _ | Stopped _ c _ => c end.
Definition requests (tr : list ev_) : nat := count_events (fun e => bool_decide (is_Some (sent_and_got e))) tr.

(** An event that sends no request and runs only tools that exist. *)
Definition quiet (turns : list LlmResponse) (e : ev_) : Prop :=
  sent_and_got e = None /\ forall n, executed e = Some n -> turns <> [] /\ has_executor n = true.

Lemma quiet_told turns name note u : quiet turns (ev (OnToolCall name note) u).
Proof. done. Qed.
Lemma quiet_signal turns b : quiet turns (ev Signal b).
Proof. done. Qed.
Lemma quiet_execute turns name input x : turns <> [] -> has_executor name = true -> quiet turns (ev (Execute name input) x).
Proof. intros Ht Hn. split; [done|]. by intros n [= <-]. Qed.

Lemma conversation_app messages turns tr1 tr2 :
  Forall (quiet turns) tr1 ->
  conversation messages turns None tr2 -> conversation messages turns None (tr1 ++ tr2).
Proof.
  intros Hf H. induction Hf as [|e tr1 [He Hx] _ IH]; [done|]. simpl. rewrite He. auto.
Qed.

Lemma run_use_runs (turns : list LlmResponse) use tr o : turns <> [] -> runs (run_use use) tr o ->
  Forall (quiet turns) tr /\
  match o with Value r => tool_use_id r = use.1.1 | Throws _ => True end.
Proof.
  intros Ht. destruct use as [[id name] input]. unfold run_use. destruct (has_executor name) eqn:Hn.
  - intros (x & tr' & -> & H). destruct x as [result note|code].
    + destruct H as (u & tr2 & -> & [-> ->]). split; [|done].
      repeat (apply Forall_cons; split); auto using quiet_told, quiet_signal, quiet_execute.
    + destruct H as (b & tr2 & -> & H). assert (Hf : tr2 = [] /\ match o with Value r => tool_use_id r = id | Throws _ => True end).
      { by destruct b; destruct H as [-> ->]. }
      destruct Hf as [-> Ho]. split; [|done].
      repeat (apply Forall_cons; split); auto using quiet_told, quiet_signal, quiet_execute.
  - intros [-> ->]. by split.
Qed.

Lemma run_uses_runs (turns : list LlmResponse) uses tr o : turns <> [] -> runs (run_uses uses) tr o ->
  Forall (quiet turns) tr /\
  match o with Value rs => tool_use_id <$> rs = (fun u => u.1.1) <$> uses | Throws _ => True end.
Proof.
  intros Ht. revert tr o. induction uses as [|use uses IH]; intros tr o; simpl; [by intros [-> ->]|].
  intros (tr1 & tr2 & r & -> & H1 & H2)%runs_bind. apply (run_use_runs turns) in H1 as [F1 R1]; [|done].
  destruct r as [r|x]; [|destruct H2 as [-> ->]; by rewrite app_nil_r].
  apply runs_bind in H2 as (tr3 & tr4 & rs & -> & H3 & H4). apply IH in H3 as [F2 R2].
  destruct rs as [rs|x]; destruct H4 as [-> ->]; rewrite app_nil_r; (split; [by apply Forall_app|]); [|done].
  by rewrite !fmap_cons, R1, R2.
Qed.

Lemma quiet_requests turns tr : Forall (quiet turns) tr -> requests tr = 0.
Proof.
  induction 1 as [|e tr [He _] _ IH]; [done|]. unfold requests, count_events in *. simpl. by rewrite He.
Qed.

Lemma requests_app tr1 tr2 : requests (tr1 ++ tr2) = requests tr1 + requests tr2.
Proof. apply count_app. Qed.

(** What the loop does from an iteration on. *)
Record Loops (messages : list LlmMessage) (remaining iteration : nat) (turns : list LlmResponse) (toolCalls : nat)
    (tr : list ev_) (o : outcome ToolRejection ToolLoopOutcome) : Prop := {
  loops_conversation : conversation messages turns None tr;
  loops_requests : requests tr <= remaining;
  loops_outcome : forall r, o = Value r ->
    match r with
    | Stopped t_max_iterations _ i => i = maxIterations /\ requests tr = remaining
    | Stopped _ _ i => iteration + requests tr = S i /\ 0 < requests tr
    | Answered text _ i => iteration + requests tr = S i /\ 0 < requests tr /\ text <> ""
    end
}.

Lemma tool_loop_runs remaining : forall messages done_ iteration toolCalls tr o,
  Forall answers_all done_ ->
  runs (tool_loop remaining iteration (messages ++ flat_map turn_messages done_) toolCalls) tr o ->
  Loops messages remaining iteration done_.*1 toolCalls tr o.
Proof.
  induction remaining as [|remaining IH]; intros messages done_ iteration toolCalls tr o Hd H; cbn [tool_loop] in H.
  { destruct H as [-> ->]. split; [done|done|]. by intros r [= <-]. }
  destruct H as (a & tr1 & -> & H). destruct a.
  { destruct H as [-> ->]. split; [done|unfold requests, count_events; simpl; lia|done]. }
  destruct H as (reply & tr2 & -> & H).
  set (req := buildToolRequest _ _ _ _ _) in H |- *.
  assert (Hreq : exists d, req = buildToolRequest route model maxTokens tools (messages ++ flat_map turn_messages d) /\
                   d.*1 = done_.*1 /\ Forall answers_all d) by (by exists done_).
  destruct reply as [response|].
  2: { destruct H as [-> ->]. split; [by simpl|unfold requests, count_events; simpl; lia|].
       intros r [= <-]. unfold requests, count_events. simpl. lia. }
  destruct H as (u & tr3 & -> & H).
  assert (Hstop : forall r, runs (Ret (Value r)) tr3 o -> iterations_of r = iteration ->
            match r with Stopped t_max_iterations _ _ => False | Answered text _ _ => text <> "" | _ => True end ->
            Loops messages (S remaining) iteration done_.*1 toolCalls
              (ev Signal false :: ev (CreateT req) (Some response) :: ev (OnResponse response) u :: tr3) o).
  { intros r [-> ->] Hi Hr. split; [by simpl|unfold requests, count_events; simpl; lia|].
    intros r' [= <-]. unfold requests, count_events. destruct r as [| []]; simpl in *; split_and?; try done; lia. }
  destruct (stop_is response "refusal"); [by eapply Hstop|].
  destruct (stop_is response "max_tokens"); [by eapply Hstop|].
  destruct (stop_is response "tool_use") eqn:Etool.
  2: { cbv zeta in H. destruct (String.eqb_spec (textOf response) ""); (eapply Hstop; [exact H|done|done]). }
  apply runs_bind in H as (tr4 & tr5 & results & -> & H1 & H2).
  apply (run_uses_runs (done_.*1 ++ [response])) in H1 as [Hq Hr]; [|by destruct (done_.*1)].
  destruct results as [results|x].
  - rewrite <- app_assoc in H2.
    replace (flat_map turn_messages done_ ++ _) with (flat_map turn_messages (done_ ++ [(response, results)])) in H2
      by (by rewrite flat_map_app).
    apply IH in H2 as [Hc Hn Ho]; [|by apply Forall_app; split; [|apply Forall_singleton]].
    rewrite fmap_app in Hc. split.
    + simpl. split; [done|]. split; [done|]. split; [done|]. by apply conversation_app.
    + unfold requests, count_events in *. simpl. rewrite List.filter_app, length_app.
      apply quiet_requests in Hq. unfold requests, count_events in Hq. lia.
    + intros r Hv. specialize (Ho r Hv). apply quiet_requests in Hq. unfold requests in *.
      change (ev Signal false :: ev (CreateT req) (Some response) :: ev (OnResponse response) u :: tr4 ++ tr5)
        with ([ev Signal false; ev (CreateT req) (Some response); ev (OnResponse response) u] ++ tr4 ++ tr5).
      rewrite !count_app, Hq. destruct r as [| []]; simpl in *; split_and?; try tauto; lia.
  - destruct H2 as [-> ->]. rewrite app_nil_r. split; [| |done].
    + simpl. split; [done|]. split; [done|]. split; [done|]. rewrite <- (app_nil_r tr4).
      apply conversation_app; [done|]. done.
    + apply quiet_requests in Hq. unfold requests, count_events in *. simpl. lia.
Qed.

(** The tool loop, against every provider and every executor: it sends at
    most [maxIterations] requests and reports exactly the number it sent; each
    request carries the opening messages followed by every earlier response and,
    in one message right after it, one result per tool it used, in the same
    order; each response is reported before any of its tools runs, and only a
    tool that exists runs; an answer is never empty. *)
Theorem runToolLoop_correct messages (tr : list ev_) o :
  runs (runToolLoop messages) tr o ->
  conversation messages [] None tr /\ requests tr <= maxIterations /\
  forall r, o = Value r ->
    iterations_of r = requests tr /\ match r with Answered text _ _ => text <> "" | Stopped _ _ _ => True end.
Proof.
  intros H. unfold runToolLoop in H. rewrite <- (app_nil_r messages) in H.
  apply (tool_loop_runs _ messages [] 1 0) in H as [Hc Hn Ho]; [|done].
  split_and!; [done|done|]. intros r Hr. specialize (Ho r Hr).
  destruct r as [text c i|[] c i]; simpl in *; split; try done; try tauto; lia.
Qed.
End Loop.
