(* ===== verification/Db.v ===== *)
(** * The tables intake and the gateway share ([packages/db/src/schema/builds.ts])

    Rows of [builds], [build_messages], [specs] and [llm_calls], and the queries
    both services make over them: a table is the list of its rows, a timestamp
    is in microseconds (the database's resolution), and [ORDER BY ... LIMIT 1]
    is the head of the sorted rows. *)
From S2P Require Import Prelude JsString JsNumber Spec.
#[local] Open Scope list_scope.
#[local] Open Scope Z_scope.

Inductive BuildStatus := st_asking | st_specifying | st_planning | st_coding | st_bodying | st_ready | st_ordered.
#[export] Instance BuildStatus_eq_dec : EqDecision BuildStatus.
Proof. solve_decision. Defined.

Inductive Role := user | assistant.
#[export] Instance Role_eq_dec : EqDecision Role.
Proof. solve_decision. Defined.

Record Build := mkBuild {
  b_id : string;
  b_tenantId : option string;
  b_anonOwnerHash : option string;
  b_status : BuildStatus;
  b_askText : string;
  b_createdAt : Z;
  b_updatedAt : Z
}.

Record Message := mkMsg {
  m_id : string;
  m_buildId : string;
  m_role : Role;
  m_text : string;
  m_clientMessageId : option string;
  m_createdAt : Z
}.

#[export] Instance Message_eq_dec : EqDecision Message.
Proof. solve_decision. Defined.

Record SpecVersion := mkVersion {
  sv_buildId : string;
  sv_version : nat;
  sv_data : Spec;
  sv_confidence : num;
  sv_openQuestions : list OpenQuestion
}.

Record LlmCall := mkLlmCall {
  lc_id : string;
  lc_buildId : option string;
  lc_tenantId : option string;
  lc_anonOwnerHash : option string;
  lc_inputTokens : Z;
  lc_outputTokens : Z;
  lc_cacheRead : Z;
  lc_cacheCreation : Z
}.

Record Db := mkDb {
  t_builds : list Build;
  t_messages : list Message;
  t_specs : list SpecVersion;
  t_llmCalls : list LlmCall
}.

Definition with_builds (d : Db) (l : list Build) : Db := mkDb l (t_messages d) (t_specs d) (t_llmCalls d).
Definition with_messages (d : Db) (l : list Message) : Db := mkDb (t_builds d) l (t_specs d) (t_llmCalls d).
Definition with_specs (d : Db) (l : list SpecVersion) : Db := mkDb (t_builds d) (t_messages d) l (t_llmCalls d).
Definition with_llmCalls (d : Db) (l : list LlmCall) : Db := mkDb (t_builds d) (t_messages d) (t_specs d) l.

(** [CHECK ("tenant_id" IS NOT NULL OR "anon_owner_hash" IS NOT NULL)] *)
Definition builds_owner_check (b : Build) : bool :=
  match b_tenantId b, b_anonOwnerHash b with None, None => false | _, _ => true end.

Definition build_by_id (d : Db) (id : string) : option Build := List.find (fun b => b_id b ==s id) (t_builds d).

Definition set_status (d : Db) (id : string) (status : BuildStatus) (now : Z) : Db :=
  with_builds d ((fun b => if b_id b ==s id
    then mkBuild (b_id b) (b_tenantId b) (b_anonOwnerHash b) status (b_askText b) (b_createdAt b) now
    else b) <$> t_builds d).

(** ** The order of a transcript: [(created_at, id)] *)
Definition message_gt (a b : Message) : bool :=
  (m_createdAt b <? m_createdAt a) || ((m_createdAt a =? m_createdAt b) && text_gt (m_id a) (m_id b)).

Definition of_build (id : string) (m : Message) : bool := m_buildId m ==s id.
Definition messages_of (d : Db) (id : string) : list Message := List.filter (of_build id) (t_messages d).

(** [ORDER BY created_at, id] *)
Definition transcript_of (d : Db) (id : string) : list Message := js_sort message_gt (messages_of d id).
(** [ORDER BY created_at DESC, id DESC LIMIT 1] *)
Definition newest (l : list Message) : option Message := head (js_sort (fun a b => message_gt b a) l).
Definition latestMessage (d : Db) (id : string) : option Message := newest (messages_of d id).

Definition specs_of (d : Db) (id : string) : list SpecVersion :=
  List.filter (fun s => sv_buildId s ==s id) (t_specs d).
(** [ORDER BY version DESC LIMIT 1] *)
Definition latestSpec (d : Db) (id : string) : option SpecVersion :=
  head (js_sort (fun a b => Nat.ltb (sv_version a) (sv_version b)) (specs_of d id)).

(** ** Facts *)
Lemma message_order P : total_preorder_on message_gt P.
Proof.
  assert (Ht : forall x y, le_of text_gt (m_id x) (m_id y) \/ le_of text_gt (m_id y) (m_id x)).
  { intros x y. by apply (tpo_total _ _ text_order). }
  split; unfold le_of, message_gt.
  - intros x y _ _. destruct (Ht x y) as [H|H]; unfold le_of in H;
      destruct (Z.ltb_spec (m_createdAt y) (m_createdAt x)), (Z.ltb_spec (m_createdAt x) (m_createdAt y)),
        (Z.eqb_spec (m_createdAt x) (m_createdAt y)), (Z.eqb_spec (m_createdAt y) (m_createdAt x)); simpl;
      rewrite ?H; try lia; auto.
  - intros x y z _ _ _. pose proof (tpo_trans _ _ text_order (m_id x) (m_id y) (m_id z) I I I) as Htr.
    unfold le_of in Htr.
    destruct (Z.ltb_spec (m_createdAt y) (m_createdAt x)), (Z.ltb_spec (m_createdAt z) (m_createdAt y)),
      (Z.ltb_spec (m_createdAt z) (m_createdAt x)), (Z.eqb_spec (m_createdAt x) (m_createdAt y)),
      (Z.eqb_spec (m_createdAt y) (m_createdAt z)), (Z.eqb_spec (m_createdAt x) (m_createdAt z)); simpl;
      intros; try done; try lia; auto.
Qed.

Lemma flip_order {A} (gt : A -> A -> bool) P :
  (forall x y, le_of gt x y \/ le_of gt y x) -> (forall x y z, le_of gt x y -> le_of gt y z -> le_of gt x z) ->
  total_preorder_on (fun a b => gt b a) P.
Proof. intros Ht Htr. split; unfold le_of in *; [intros x y _ _; apply Ht|intros x y z _ _ _ H1 H2; by eapply Htr]. Qed.

Lemma sorted_head {A} (gt : A -> A -> bool) l x :
  total_preorder_on gt (fun _ => True) ->
  head (js_sort gt l) = Some x -> x ∈ l /\ forall y, y ∈ l -> le_of gt x y \/ x = y.
Proof.
  intros Hord H. assert (Hs : StronglySorted (le_of gt) (js_sort gt l)).
  { eapply js_sort_sorted; [done|]. by apply Forall_forall. }
  destruct (js_sort gt l) as [|z l'] eqn:E; [done|]. injection H as ->. split.
  - rewrite <- (elem_of_js_sort gt), E. left.
  - intros y Hy. rewrite <- (elem_of_js_sort gt), E in Hy. apply elem_of_cons in Hy as [->|Hy]; [by right|].
    left. inversion Hs as [|? ? _ Hf]. rewrite Forall_forall in Hf. by apply Hf.
Qed.

Lemma newest_spec l x : newest l = Some x -> x ∈ l /\ forall y, y ∈ l -> m_createdAt y <= m_createdAt x.
Proof.
  intros H. apply sorted_head in H as [Hx Hle].
  2: { apply flip_order; [intros; by apply (tpo_total _ _ (message_order (fun _ => True)))|].
       intros ? ? ?. by apply (tpo_trans _ _ (message_order (fun _ => True))). }
  split; [done|]. intros y Hy. destruct (Hle y Hy) as [H|<-]; [|lia]. unfold le_of, message_gt in H.
  apply orb_false_iff in H as [H _]. lia.
Qed.

Lemma newest_None l : newest l = None <-> l = [].
Proof.
  unfold newest. rewrite head_None. split; intros H; [|by rewrite H].
  apply Permutation_nil. by rewrite <- H, js_sort_perm.
Qed.

(** The newest message is the one strictly after all others. *)
Lemma newest_unique l x :
  x ∈ l -> (forall y, y ∈ l -> y <> x -> m_createdAt y < m_createdAt x) -> newest l = Some x.
Proof.
  intros Hx Hmax. destruct (newest l) as [z|] eqn:E; [|apply newest_None in E; subst; by apply not_elem_of_nil in Hx].
  apply newest_spec in E as [Hz Hle]. f_equal. destruct (decide (z = x)) as [|N]; [done|].
  specialize (Hle x Hx). specialize (Hmax z Hz N). lia.
Qed.
