(* ===== verification/Chat.v ===== *)
(** * The gateway's chat store ([apps/gateway/src/chat-store.ts])

    Creating a build from an ask, submitting a message, and the reads, scoped by
    owner. A transaction that holds its lock from before its first read to its
    commit is one function of the tables. *)
From S2P Require Import Prelude JsString Regex JsNumber JsNumberFacts Spec Db.
#[local] Open Scope string_scope.
#[local] Open Scope list_scope.
#[local] Open Scope Z_scope.
Record Owner := mkOwner { o_tenantId : option string; o_anonHash : option string }.

Definition ownerKey (owner : Owner) : string :=
  match o_tenantId owner with
  | Some t => ("tenant:" ++ t)%string
  | None => ("anon:" ++ default "" (o_anonHash owner))%string
  end.

(** ** Cursors *)
Record Cursor := mkCursor { c_micros : Z; c_id : string }.

Definition is_hex (c : ascii) : bool := in_range "0" "9" c || in_range "a" "f" c.
Definition is_hex_i (c : ascii) : bool := is_hex c || in_range "A" "F" c.
Definition uuid_re (h : ascii -> bool) : re :=
  rcat [rrep 8 (Chr h); lit "-"; rrep 4 (Chr h); lit "-"; rrep 4 (Chr h); lit "-"; rrep 4 (Chr h); lit "-"; rrep 12 (Chr h)].
Definition CURSOR_PATTERN : re := rcat [rplus (Chr is_digit); lit "."; uuid_re is_hex].
Definition isUuid (value : string) : bool := test (uuid_re is_hex_i) value.

(** [\d{1,19}] is [\d+] of at most nineteen digits; the digits end at the first
    dot. *)
Definition parseCursor (value : option string) : option Cursor :=
  let v := trim (default "" value) in
  match index_of "." v with
  | Some n =>
      if test CURSOR_PATTERN v && Nat.leb n 19
      then Some (mkCursor (BigInt (slice_to n v)) (slice_from (S n) v))
      else None
  | None => None
  end.

Definition compareCursors (a b : Cursor) : Z :=
  if negb (c_micros a =? c_micros b) then (if c_micros a <? c_micros b then -1 else 1)
  else compareText (c_id a) (c_id b).

Definition cursor_of (m : Message) : Cursor := mkCursor (m_createdAt m) (m_id m).
(** [cursorSql] *)
Definition show_cursor (c : Cursor) : string := (ToString.dec (c_micros c) ++ "." ++ c_id c)%string.

(** ** Ownership *)
Definition ownedBy (owner : Owner) (b : Build) : bool :=
  match o_tenantId owner with Some t => bool_decide (b_tenantId b = Some t) | None => false end ||
  match o_anonHash owner with
  | Some h => bool_decide (b_anonOwnerHash b = Some h) && bool_decide (b_tenantId b = None)
  | None => false
  end.

Definition owned_build (d : Db) (id : string) (owner : Owner) : option Build :=
  List.find (fun b => (b_id b ==s id) && ownedBy owner b) (t_builds d).

(** [order by created_at] over the rows of the join. *)
Definition build_older (a b : Build) : bool := b_createdAt b <? b_createdAt a.
Definition first_message (owner : Owner) (clientMessageId : string) (b : Build) (m : Message) : bool :=
  of_build (b_id b) m && ownedBy owner b && bool_decide (m_clientMessageId m = Some clientMessageId) &&
  bool_decide (m_role m = user) && (m_text m ==s b_askText b).
Definition findBuildByFirstMessage (d : Db) (owner : Owner) (clientMessageId : string) : option Build :=
  head (js_sort build_older
    (flat_map (fun b =>
       (fun _ : Message => b) <$>
         List.filter (first_message owner clientMessageId b) (t_messages d))
       (t_builds d))).

(** ** [createBuild] *)
Inductive CreateBuildResult := Created (b : Build) (m : Message) | Replayed (b : Build).

(** What the database supplies to a transaction: its timestamps and new ids. *)
Record TxEnv := mkEnv { env_now : Z; env_clock : Z; env_id1 : string; env_id2 : string }.

(** [admission] refuses by throwing, which rolls back. *)
Definition createBuild {X} (owner : Owner) (askText : string) (clientMessageId : option string)
    (admission : bool -> option X) (env : TxEnv) (d : Db) : result X CreateBuildResult * Db :=
  match clientMessageId ≫= findBuildByFirstMessage d owner with
  | Some replayed => (Ok (Replayed replayed), d)
  | None =>
      let isNewOwner :=
        match o_tenantId owner with
        | None => negb (existsb (fun b => bool_decide (b_anonOwnerHash b = o_anonHash owner) &&
                                          bool_decide (is_Some (o_anonHash owner))) (t_builds d))
        | Some _ => false
        end in
      match admission isNewOwner with
      | Some x => (Err x, d)
      | None =>
          let b := mkBuild (env_id1 env) (o_tenantId owner)
                     (match o_tenantId owner with Some _ => None | None => o_anonHash owner end)
                     st_asking askText (env_now env) (env_now env) in
          let m := mkMsg (env_id2 env) (env_id1 env) user askText clientMessageId (env_now env) in
          (Ok (Created b m), with_messages (with_builds d (t_builds d ++ [b])) (t_messages d ++ [m]))
      end
  end.

(** ** Reads *)
Definition findOwnedBuild (d : Db) (id : string) (owner : Owner) : option Build :=
  if isUuid id then owned_build d id owner else None.

(** [order by updated_at desc, id desc] *)
Definition build_newer (a b : Build) : bool :=
  (b_updatedAt a <? b_updatedAt b) || ((b_updatedAt a =? b_updatedAt b) && text_gt (b_id b) (b_id a)).
Definition listBuilds (d : Db) (tenantId : string) : list Build :=
  js_sort build_newer (List.filter (fun b => bool_decide (b_tenantId b = Some tenantId)) (t_builds d)).

Record BuildState := mkState { bs_status : BuildStatus; bs_specVersion : option nat }.
Definition max_version (l : list SpecVersion) : option nat :=
  match l with [] => None | s :: l => Some (fold_left Nat.max (sv_version <$> l) (sv_version s)) end.
Definition buildState (d : Db) (buildId : string) (owner : Owner) : option BuildState :=
  (fun b => mkState (b_status b) (max_version (specs_of d (b_id b)))) <$> owned_build d buildId owner.

Definition listMessages (d : Db) (buildId : string) (owner : Owner) : list Message :=
  match owned_build d buildId owner with Some _ => transcript_of d buildId | None => [] end.

(** [created_at > now() - withinS] *)
Definition recent (now withinS : Z) (m : Message) : bool := now - withinS * 1000000 <? m_createdAt m.
Definition lastMessage (d : Db) (buildId : string) (withinS now : Z) : option (Message * bool) :=
  (fun m => (m, recent now withinS m)) <$> latestMessage d buildId.

(** [make_interval(secs => x)] rounds [x] seconds to microseconds. *)
Definition messagesSince (secs_to_micros : num -> Z) (d : Db) (buildId : string) (owner : Owner) (after : option Cursor)
    (lookbackMs : Z) : list Message :=
  let since m :=
    match after with
    | None => true
    | Some c => secs_to_micros (ndiv (of_Z (c_micros c - lookbackMs * 1000)) (of_Z 1000000)) <? m_createdAt m
    end in
  List.filter since (listMessages d buildId owner).

(** ** [submitUserMessage] *)
Inductive SubmitMessageResult :=
| SCreated (m : Message)
| SReplayed (m : Message)
| SPending (pendingMessageId : string)
| SNotFound.

(** [greatest(clock_timestamp(), max(created_at) + 2 microseconds)] *)
Definition next_time (clock : Z) (l : list Message) : Z :=
  fold_left (fun t m => Z.max t (m_createdAt m + 2)) l clock.

(** A recent user message without a reply after it. *)
Definition pending_message (last : option (Message * bool)) : option string :=
  match last with
  | Some (m, true) => match m_role m with user => Some (m_id m) | assistant => None end
  | _ => None
  end.

Definition submitUserMessage {X} (buildId : string) (owner : Owner) (text clientMessageId : string)
    (pendingWithinS : Z) (admission : option X) (env : TxEnv) (d : Db) : result X SubmitMessageResult * Db :=
  if negb (isUuid buildId) then (Ok SNotFound, d)
  else match owned_build d buildId owner with
       | None => (Ok SNotFound, d)
       | Some _ =>
           match List.find (fun m => of_build buildId m && bool_decide (m_clientMessageId m = Some clientMessageId))
                   (t_messages d) with
           | Some replayed => (Ok (SReplayed replayed), d)
           | None =>
               match pending_message (lastMessage d buildId pendingWithinS (env_now env)), admission with
               | Some id, _ => (Ok (SPending id), d)
               | None, Some x => (Err x, d)
               | None, None =>
                   let m := mkMsg (env_id1 env) buildId user text (Some clientMessageId)
                              (next_time (env_clock env) (messages_of d buildId)) in
                   (Ok (SCreated m), with_messages d (t_messages d ++ [m]))
               end
           end
       end.

(** ** What the chat store promises

    Cursors read back and order a transcript as the database does; a build is
    created once per client message; a message is stored once, and after all
    that came before it. *)
(** ** Texts without white space *)
Lemma digit_visible c : is_digit c = true -> visible c = true /\ Ascii.eqb "." c = false.
Proof. destruct c as [[][][][][][][][]]; by vm_compute. Qed.

Lemma digits_match s : all_chars is_digit s = true -> matches (Star (Chr is_digit)) s.
Proof.
  induction s as [|c s IH]; simpl; [constructor|]. intros [Hc Hs]%andb_true_iff.
  apply (m_star_app _ (String c "") s); [by constructor|by apply IH].
Qed.

Lemma digits_plus_match s : all_chars is_digit s = true -> s <> "" -> matches (rplus (Chr is_digit)) s.
Proof.
  destruct s as [|c s]; [done|]. simpl. intros [Hc Hs]%andb_true_iff _.
  apply (m_cat _ _ (String c "") s); [by constructor|by apply digits_match].
Qed.

(** A message's cursor: a time the pattern has room for, and the canonical text
    of its id. *)
Definition cursor_ok (c : Cursor) : Prop := 0 <= c_micros c < 10 ^ 19 /\ test (uuid_re is_hex) (c_id c) = true.

Lemma parse_show_cursor c : cursor_ok c -> parseCursor (Some (show_cursor c)) = Some c.
Proof.
  intros [Hm Hid]. destruct c as [z id]. simpl in *. destruct (dec_digits z ltac:(lia)) as (Hd & Hb & Hne & Hl).
  unfold parseCursor, show_cursor. cbn [c_micros c_id default]. set (ds := ToString.dec z) in *.
  assert (Hv : all_chars visible (ds ++ "." ++ id)%string = true).
  { rewrite !all_chars_app. rewrite (all_chars_impl is_digit visible); [|by intros c [? _]%digit_visible|done].
    simpl. apply (test_only visible (uuid_re is_hex)); [exact Hid|vm_compute; reflexivity]. }
  rewrite visible_trim by done.
  assert (Hi : index_of "." (ds ++ "." ++ id)%string = Some (String.length ds)).
  { apply index_of_char. eapply all_chars_impl; [|exact Hd]. intros c [_ Hc]%digit_visible. by rewrite Hc. }
  unfold Datatypes.id. rewrite Hi. rewrite (proj2 (test_spec _ _)).
  2: { unfold CURSOR_PATTERN, rcat. apply m_cat; [by apply digits_plus_match|].
       apply m_cat; [|by apply test_spec]. simpl. apply (m_cat _ _ "." ""); [by constructor|constructor]. }
  rewrite (proj2 (Nat.leb_le _ _)) by (apply Hl; [lia|exact (proj2 Hm)]). simpl.
  rewrite slice_to_app, Hb. do 2 f_equal.
  change (slice_from (S (String.length ds)) (ds ++ String "." id)%string = id).
  clear. induction ds as [|c ds IH]; [done|]. simpl. exact IH.
Qed.

Lemma message_gt_cursor a b : message_gt a b = (0 <? compareCursors (cursor_of a) (cursor_of b)).
Proof.
  unfold message_gt, compareCursors, cursor_of, text_gt. simpl.
  destruct (Z.eqb_spec (m_createdAt a) (m_createdAt b)) as [E|N]; simpl; [rewrite E, Z.ltb_irrefl; done|].
  rewrite orb_false_r. destruct (Z.ltb_spec (m_createdAt a) (m_createdAt b)), (Z.ltb_spec (m_createdAt b) (m_createdAt a));
    simpl; try done; lia.
Qed.

(** A cursor sent to the client reads back as the position of its message:
    [parseCursor] inverts the text the database computes for every time of up to
    nineteen digits and every canonical id; [compareCursors] on two messages
    agrees with the database's order of the transcript, and says they are in the
    same place only when time and id are the same. *)
Theorem cursor_roundtrip a b :
  cursor_ok (cursor_of a) ->
  parseCursor (Some (show_cursor (cursor_of a))) = Some (cursor_of a) /\
  (message_gt a b = true <-> 0 < compareCursors (cursor_of a) (cursor_of b)) /\
  (compareCursors (cursor_of a) (cursor_of b) = 0 <-> cursor_of a = cursor_of b).
Proof.
  intros Hok. split_and!; [by apply parse_show_cursor|rewrite message_gt_cursor; apply Z.ltb_lt|].
  unfold compareCursors, cursor_of. simpl. destruct (Z.eqb_spec (m_createdAt a) (m_createdAt b)) as [E|N]; simpl.
  - rewrite compareText_zero, E. split; [by intros ->|by intros [= ->]].
  - split; [by destruct (_ <? _)|by intros [= ?]].
Qed.

(** ** Creating a build *)
Lemma flat_map_nil_iff {A B} (f : A -> list B) l : flat_map f l = [] -> forall x, x ∈ l -> f x = [].
Proof.
  induction l as [|y l IH]; simpl; [by intros _ ? ?%elem_of_nil|]. intros [H1 H2]%app_eq_nil x [->|Hx]%elem_of_cons; auto.
Qed.

Section Create.
Context (owner : Owner) (cid : string).
Lemma find_first_None d :
  findBuildByFirstMessage d owner cid = None ->
  forall b m, b ∈ t_builds d -> m ∈ t_messages d -> first_message owner cid b m = false.
Proof.
  unfold findBuildByFirstMessage. rewrite head_None. intros H b m Hb Hm.
  assert (Hn : flat_map (fun b => (fun _ : Message => b) <$> List.filter (first_message owner cid b) (t_messages d)) (t_builds d) = []).
  { apply Permutation_nil. rewrite <- H. apply js_sort_perm. }
  apply flat_map_nil_iff with (x := b) in Hn; [|done]. apply fmap_nil_inv in Hn.
  apply not_true_iff_false. intros Ht. assert (Hin : m ∈ List.filter (first_message owner cid b) (t_messages d)).
  { by apply elem_of_listfilter. }
  rewrite Hn in Hin. by apply elem_of_nil in Hin.
Qed.

Lemma filter_none {A} (f : A -> bool) l : (forall x, x ∈ l -> f x = false) -> List.filter f l = [].
Proof.
  induction l as [|x l IH]; intros H; [done|]. simpl. rewrite (H x) by left. apply IH. intros y Hy. apply H. by right.
Qed.

Lemma find_first_added d b m :
  findBuildByFirstMessage d owner cid = None -> first_message owner cid b m = true ->
  (forall b0, b0 ∈ t_builds d -> b_id b0 <> b_id b) -> (forall m0, m0 ∈ t_messages d -> m_buildId m0 <> b_id b) ->
  findBuildByFirstMessage (with_messages (with_builds d (t_builds d ++ [b])) (t_messages d ++ [m])) owner cid = Some b.
Proof.
  intros Hn Hm Hb0 Hm0. pose proof (find_first_None d Hn) as Hold.
  assert (Hmb : m_buildId m = b_id b).
  { unfold first_message, of_build in Hm. bools. by apply String.eqb_eq. }
  unfold findBuildByFirstMessage. cbn [t_builds t_messages with_messages with_builds].
  rewrite flat_map_app.
  assert (H1 : flat_map (fun b0 => (fun _ : Message => b0) <$> List.filter (first_message owner cid b0) (t_messages d ++ [m])) (t_builds d) = []).
  { apply flat_map_nil. intros b0 Hin. rewrite filter_none; [done|]. intros m0 [Hm'|Hm']%elem_of_app; [by apply Hold|].
    apply list_elem_of_singleton in Hm' as ->. unfold first_message, of_build. rewrite Hmb.
    destruct (String.eqb_spec (b_id b) (b_id b0)) as [E|]; [|done]. by destruct (Hb0 b0 Hin). }
  rewrite H1. simpl. rewrite app_nil_r, List.filter_app, filter_none.
  - simpl. by rewrite Hm.
  - intros m0 Hin. unfold first_message, of_build. destruct (String.eqb_spec (m_buildId m0) (b_id b)) as [E|]; [|done].
    by destruct (Hm0 m0 Hin).
Qed.
End Create.

(** An id no build or message carries yet. *)
Definition unused (d : Db) (id : string) : Prop :=
  (forall b, b ∈ t_builds d -> b_id b <> id) /\ (forall m, m ∈ t_messages d -> m_buildId m <> id).

(** A build is created once per owner and client message: after a creation,
    repeating the request (whatever its text, its time or its limits) returns
    the same build and changes nothing, and its limits are not even consulted;
    a refused creation changes nothing. *)
Theorem createBuild_once {X} owner ask cid (admission : bool -> option X) env d :
  (o_tenantId owner <> None \/ o_anonHash owner <> None) ->
  unused d (env_id1 env) ->
  (forall x d', createBuild owner ask (Some cid) admission env d = (Err x, d') -> d' = d) /\
  (forall b m d', createBuild owner ask (Some cid) admission env d = (Ok (Created b m), d') ->
     (exists new, admission new = None) /\ ownedBy owner b = true /\ builds_owner_check b = true /\
     forall Y ask' (admission' : bool -> option Y) env',
       createBuild owner ask' (Some cid) admission' env' d' = (Ok (Replayed b), d')).
Proof.
  intros Ho [Hb Hm]. unfold createBuild at 1 2. simpl. destruct (findBuildByFirstMessage d owner cid) as [r|] eqn:Ef.
  { by split; intros; simplify_eq. }
  match goal with |- context [admission ?e] => destruct (admission e) as [x|] eqn:Ea end.
  { split; intros; by simplify_eq. }
  split; [by intros|]. intros b m d' [= <- <- <-]. split; [by eexists|].
  set (b := mkBuild _ _ _ _ _ _ _). set (m := mkMsg _ _ _ _ _ _).
  assert (Hown : ownedBy owner b = true).
  { unfold ownedBy, b. simpl. destruct owner as [[t|] [h|]]; simpl in *; rewrite ?bool_decide_true by done; try done.
    by destruct Ho. }
  split_and!; [done| |].
  - unfold builds_owner_check, b. simpl. destruct owner as [[t|] [h|]]; simpl in *; try done.
  - intros Y ask' admission' env'. unfold createBuild. simpl.
    change (mkDb (t_builds d ++ [b]) _ _ _) with (with_messages (with_builds d (t_builds d ++ [b])) (t_messages d ++ [m])).
    rewrite find_first_added; try done. unfold first_message. rewrite Hown. unfold of_build, b, m. simpl.
    by rewrite !String.eqb_refl, !bool_decide_true.
Qed.
