(* ===== verification/Turn.v ===== *)
(** * One turn without the database ([apps/intake/src/turn.ts], [prompts.ts])

    Scope filter, catalogue, model call, decision. Log lines are left out. *)
From S2P Require Import Prelude JsString Regex JsNumber Part Assembly MatcherTypes Rules Json Spec Decide Policy.
From S2P Require Import Effects Llm LlmCall LlmCallSpec Db.
#[local] Open Scope string_scope.
#[local] Open Scope list_scope.
#[local] Open Scope nat_scope.
(** ** [renderTemplate] *)

(** The [\w] characters at the front of a text, and the rest. *)
Fixpoint span_word (s : string) : string * string :=
  match s with
  | String c s' => if word c then let '(k, r) := span_word s' in (String c k, r) else (EmptyString, s)
  | EmptyString => (EmptyString, s)
  end.

(** A placeholder at the front of a text: its key and what follows it. *)
Definition placeholder (s : string) : option (string * string) :=
  match s with
  | String "{" (String "{" s') =>
      match span_word s' with
      | (String c k, String "}" (String "}" r)) => Some (String c k, r)
      | _ => None
      end
  | _ => None
  end.

(** [None] is the error of a placeholder without a value. The fuel is the length
    of the template. *)
Fixpoint render (fuel : nat) (values : string -> option string) (s : string) : option string :=
  match fuel with
  | O => Some s
  | S fuel =>
      match placeholder s with
      | Some (key, rest) => match values key, render fuel values rest with
                            | Some v, Some t => Some (v ++ t)%string
                            | _, _ => None
                            end
      | None => match s with
                | EmptyString => Some EmptyString
                | String c s => String c <$> render fuel values s
                end
      end
  end.
Definition renderTemplate (template : string) (values : string -> option string) : option string :=
  render (String.length template) values template.

(** ** [JSON.stringify(value, null, 2)] *)
Fixpoint spaces (n : nat) : string := match n with O => EmptyString | S n => String " " (spaces n) end.
Definition line_break (depth : nat) : string := (newline ++ spaces (2 * depth))%string.
Definition block (open close : string) (depth : nat) (items : list string) : string :=
  match items with
  | [] => (open ++ close)%string
  | _ => (open ++ line_break (S depth) ++ join ("," ++ line_break (S depth))%string items ++ line_break depth ++ close)%string
  end.
Fixpoint stringify2 (depth : nat) (v : json) : string :=
  match v with
  | JArr l => block "[" "]" depth (stringify2 (S depth) <$> l)
  | JObj l => block "{" "}" depth ((fun kv => json_string kv.1 ++ ": " ++ stringify2 (S depth) kv.2)%string <$> l)
  | _ => stringify v
  end.

(** ** The model call of a turn *)
Record Prompts := mkPrompts { prompt_extract : string; prompt_turn : string }.
Definition EXTRACT_ROUTE_NAME : string := "intake.extract.v2".
Definition EXTRACT_MAX_TOKENS : num := of_Z 8000.
Definition EXTRACT_RETRY_MAX_TOKENS : num := of_Z 16000.

Definition extractRoute (prompts : Prompts) (catalogueText : string) (effort : Effort) : LlmRoute :=
  mkRoute EXTRACT_ROUTE_NAME "intake" (prompt_extract prompts) (Some catalogueText) effort EXTRACT_MAX_TOKENS
    EXTRACT_RETRY_MAX_TOKENS.

Definition NO_ROUNDS_LEFT : string := "No rounds are left: ask no questions, and settle with stated assumptions.".
Definition ROUNDS_LEFT : string := "You may ask questions this turn if an answer would change the parts.".

(** [values[key]]: the keys the template is given. A property every object
    inherits would be found too; no template names one. *)
Definition turn_values (previous : option Spec) (roundsUsed : nat) (key : string) : option string :=
  let left := MAX_CLARIFICATION_ROUNDS - roundsUsed in
  let is_settled := match previous with Some p => settled p | None => false end in
  if key ==s "rounds_used" then Some (ToString.dec (Z.of_nat (Nat.min roundsUsed MAX_CLARIFICATION_ROUNDS)))
  else if key ==s "max_rounds" then Some (ToString.dec (Z.of_nat MAX_CLARIFICATION_ROUNDS))
  else if key ==s "round_rule" then Some (if is_settled || Nat.eqb left 0 then NO_ROUNDS_LEFT else ROUNDS_LEFT)
  else if key ==s "spec_json"
       then Some (stringify2 0 (match previous with Some p => spec_json p | None => JNull end))
  else None.
Definition renderTurnContext (template : string) (previous : option Spec) (roundsUsed : nat) : option string :=
  renderTemplate template (turn_values previous roundsUsed).

Record TranscriptMessage := mkLine { tm_role : Role; tm_text : string }.

Definition message_role (r : Role) : MessageRole := match r with user => role_user | assistant => role_assistant end.
(** [transcript.slice(Math.max(firstUser, 0))] *)
Fixpoint from_first_user (t : list TranscriptMessage) : option (list TranscriptMessage) :=
  match t with
  | [] => None
  | m :: t' => match tm_role m with user => Some t | assistant => from_first_user t' end
  end.
Definition modelMessages (transcript : list TranscriptMessage) (turnContext : string) : list LlmMessage :=
  ((fun m => mkMessage (message_role (tm_role m)) (CText (tm_text m))) <$>
     default transcript (from_first_user transcript)) ++ [mkMessage role_system (CText turnContext)].

Definition is_assistant (m : TranscriptMessage) : bool := bool_decide (tm_role m = assistant).
Definition wasOffTopic (transcript : list TranscriptMessage) : bool :=
  match last (List.filter is_assistant transcript) with
  | Some m => (tm_text m ==s offTopicReply false) || (tm_text m ==s offTopicReply true)
  | None => false
  end.

Definition FAILURE_REPLY (f : CallFailure) : string :=
  match f with
  | f_refusal => REFUSAL_REPLY
  | f_token_ceiling => TOKEN_CEILING_REPLY
  | f_max_tokens | f_invalid_output | f_deadline | f_provider_error => FALLBACK_REPLY
  end.

(** ** [runTurn] *)
Inductive ReplyReason := r_out_of_scope | r_off_topic | r_failure (f : CallFailure) | r_error.
Inductive TurnOutcome :=
| OSpec (d : Decision)
| OReply (reason : ReplyReason) (reply : string) (category : option ScopeCategory).

Inductive TurnError := NoUserMessage | CatalogueFailed | TemplateFailed | CallRejected (r : Rejection) | SpecInvalid.

(** The registry's catalogue, then the operations of the call. *)
Inductive TurnE (F : Type) := Catalogue | InCall (e : CallE F unit).
Arguments Catalogue {F}. Arguments InCall {F} e.
Definition TurnA {F} (e : TurnE F) : Type :=
  match e with
  | Catalogue => option (string * Vocabulary)
  | InCall e => CallA e
  end.

Fixpoint in_call {F A} (p : prog (E := CallE F unit) CallA A) : prog (E := TurnE F) TurnA A :=
  match p with
  | Ret a => Ret a
  | Op e k => Op (ans := TurnA) (InCall e) (fun x => in_call (k x))
  end.

Record TurnContext (F : Type) := mkTurnContext {
  tc_model : string;
  tc_effort : Effort;
  tc_prompts : Prompts;
  tc_tokenCeiling : num;
  tc_format : F
}.
Arguments mkTurnContext {F}. Arguments tc_model {F}. Arguments tc_effort {F}. Arguments tc_prompts {F}.
Arguments tc_tokenCeiling {F}. Arguments tc_format {F}.

Record TurnInput := mkTurnInput {
  ti_transcript : list TranscriptMessage;
  ti_previous : option Spec;
  ti_roundsUsed : nat
}.

Section Run.
Context {F : Type} (nfkc : string -> string) (JSON_parse : string -> string + json)
  (parse_turn : json -> list Issue + SpecTurn).

Definition turn_result (input : TurnInput) (v : Vocabulary) (r : outcome Rejection (CallResult SpecTurn))
    : outcome TurnError TurnOutcome :=
  match r with
  | Throws e => Throws (CallRejected e)
  | Value (Failed failure _ _) => Value (OReply (r_failure failure) (FAILURE_REPLY failure) None)
  | Value (Success turn _) =>
      match reply_kind turn with
      | kind_off_topic => Value (OReply r_off_topic (offTopicReply (wasOffTopic (ti_transcript input))) None)
      | kind_spec =>
          match decide_turn (ti_previous input) turn v (ti_roundsUsed input) with
          | Some d => Value (OSpec d)
          | None => Throws SpecInvalid
          end
      end
  end.

Definition runTurn (ctx : TurnContext F) (input : TurnInput) : prog (E := TurnE F) TurnA (outcome TurnError TurnOutcome) :=
  match last (ti_transcript input) with
  | Some (mkLine user text) =>
      match screen nfkc text with
      | Some category => Ret (Value (OReply r_out_of_scope (outOfScopeReply category) (Some category)))
      | None =>
          (do! catalogue := Catalogue in
           match catalogue with
           | None => Ret (Throws CatalogueFailed)
           | Some (text, vocabulary) =>
               match renderTurnContext (prompt_turn (tc_prompts ctx)) (ti_previous input) (ti_roundsUsed input) with
               | None => Ret (Throws TemplateFailed)
               | Some turnContext =>
                   run! r := in_call (callStructured JSON_parse parse_turn
                               (extractRoute (tc_prompts ctx) text (tc_effort ctx)) (tc_model ctx) (tc_format ctx)
                               (modelMessages (ti_transcript input) turnContext) (Some (tc_tokenCeiling ctx))) in
                   Ret (turn_result input vocabulary r)
               end
           end)%prog
      end
  | _ => Ret (Throws NoUserMessage)
  end.
End Run.

(** ** What a turn guarantees *)
Section Lift.
Context {F : Type}.

Definition lift (e : event (E := CallE F unit) CallA) : event (E := TurnE F) TurnA :=
  existT (P := TurnA) (InCall (projT1 e)) (projT2 e).

Lemma in_call_runs {A} (p : prog (E := CallE F unit) CallA A) tr a :
  runs (in_call p) tr a -> exists tr', tr = lift <$> tr' /\ runs p tr' a.
Proof.
  revert tr. induction p as [b|e k IH]; intros tr; simpl; [by intros [-> ->]; exists []|].
  intros (x & tr' & -> & H). apply IH in H as (tr1 & -> & H). exists (ev e x :: tr1). split; [done|]. by exists x, tr1.
Qed.

(** The request of an event, when it is one. *)
Definition sent_request (e : event (E := TurnE F) TurnA) : option (LlmRequest F unit) :=
  match projT1 e with InCall (Create req) => Some req | _ => None end.

(** The catalogue a trace read. *)
Definition catalogue_read (e : event (E := TurnE F) TurnA) : option (string * Vocabulary) :=
  let '(existT op x) := e in
  match op return TurnA op -> option (string * Vocabulary) with Catalogue => fun c => c | InCall _ => fun _ => None end x.

(** The events of the model call, and the responses it got. *)
Definition of_call (e : event (E := TurnE F) TurnA) : option (event (E := CallE F unit) CallA) :=
  let '(existT op x) := e in
  match op return TurnA op -> option (event (E := CallE F unit) CallA) with
  | Catalogue => fun _ => None
  | InCall c => fun a => Some (existT (P := CallA) c a)
  end x.
Definition model_responses (tr : list (event (E := TurnE F) TurnA)) : list LlmResponse := responses (somes of_call tr).

Lemma somes_lift tr : somes of_call (lift <$> tr) = tr.
Proof. induction tr as [|[e x] tr IH]; [done|]. simpl. f_equal. exact IH. Qed.
End Lift.

Lemma asks_requests {F T} JP (sp : json -> list Issue + T) route model (format : F) messages rs tr e req a :
  asks (D := unit) JP sp route model format messages rs tr -> e ∈ tr -> created e = Some (req, a) ->
  exists rs', req = request_after JP sp route model format messages rs'.
Proof.
  revert rs. induction tr as [|x tr IH]; intros rs; [by intros _ ?%elem_of_nil|]. simpl.
  intros [Hx Ht] [->|He]%elem_of_cons Hc; [exists rs; by eapply Hx|by eapply IH].
Qed.

Section Turn.
Context {F : Type} (nfkc : string -> string) (JSON_parse : string -> string + json)
  (parse_turn : json -> list Issue + SpecTurn).
Context (ctx : TurnContext F) (input : TurnInput).

#[local] Abbreviation trace := (list (event (E := TurnE F) TurnA)).

(** The turn a readable last response holds, once the schema accepted it. *)
Definition answered_turn (rs : list LlmResponse) (turn : SpecTurn) : Prop :=
  exists init l, rs = init ++ [l] /\ readable l = true /\ validate JSON_parse parse_turn (responseText l) = inl turn.
Definition accepted_turn (tr : trace) (v : Vocabulary) (turn : SpecTurn) : Prop :=
  (exists text, head tr = Some (ev (ans := TurnA (F := F)) Catalogue (Some (text, v)))) /\
  answered_turn (model_responses tr) turn.

(** How each outcome comes about, after the operations [tr]. *)
Definition explained (tr : trace) (o : outcome TurnError TurnOutcome) : Prop :=
  match o with
  | Value (OReply r_out_of_scope reply category) =>
      tr = [] /\ exists text c, last (ti_transcript input) = Some (mkLine user text) /\ screen nfkc text = Some c /\
        reply = outOfScopeReply c /\ category = Some c
  | Value (OReply r_off_topic reply category) =>
      (exists v turn, accepted_turn tr v turn /\ reply_kind turn = kind_off_topic) /\
      reply = offTopicReply (wasOffTopic (ti_transcript input)) /\ category = None
  | Value (OReply (r_failure f) reply category) =>
      (exists n d, justified JSON_parse parse_turn (Some (tc_tokenCeiling ctx)) (model_responses tr) (Value (Failed f n d))) /\
      reply = FAILURE_REPLY f /\ category = None
  | Value (OReply r_error _ _) => False
  | Value (OSpec d) =>
      exists v turn, accepted_turn tr v turn /\ reply_kind turn = kind_spec /\
        decide_turn (ti_previous input) turn v (ti_roundsUsed input) = Some d
  | Throws NoUserMessage => tr = [] /\ forall m, last (ti_transcript input) = Some m -> tm_role m = assistant
  | Throws CatalogueFailed => tr = [ev (ans := TurnA (F := F)) Catalogue None]
  | Throws TemplateFailed => renderTurnContext (prompt_turn (tc_prompts ctx)) (ti_previous input) (ti_roundsUsed input) = None
  | Throws (CallRejected r) => exists e, e ∈ somes of_call tr /\ rejecting r e
  | Throws SpecInvalid =>
      exists v turn, accepted_turn tr v turn /\ reply_kind turn = kind_spec /\
        decide_turn (ti_previous input) turn v (ti_roundsUsed input) = None
  end.

Lemma model_responses_call c tr :
  model_responses (ev (ans := TurnA (F := F)) Catalogue c :: (lift <$> tr)) = responses tr.
Proof. unfold model_responses. f_equal. apply somes_lift. Qed.

Lemma turn_result_explained text v messages tr r :
  runs (callStructured JSON_parse parse_turn (extractRoute (tc_prompts ctx) text (tc_effort ctx)) (tc_model ctx) (tc_format ctx)
    messages (Some (tc_tokenCeiling ctx))) tr r ->
  explained (ev (ans := TurnA (F := F)) Catalogue (Some (text, v)) :: (lift <$> tr)) (turn_result input v r).
Proof.
  set (tr' := ev _ _ :: _). assert (Etr : model_responses tr' = responses tr) by apply model_responses_call.
  intros H. destruct (call_good _ _ _ _ _ _ _ _ _ H) as [Hj _ _ _ _]. simpl in Hj.
  assert (Hok : forall t n, r = Value (Success t n) -> accepted_turn tr' v t).
  { intros t n ->. destruct Hj as (_ & init & l & Hr & _ & Hread & Hv). split; [by exists text|]. exists init, l. by rewrite Etr. }
  destruct r as [[turn c|f c d]|e]; simpl.
  - specialize (Hok turn c eq_refl). destruct (reply_kind turn) eqn:Ek; [|simpl; split; [by exists v, turn|done]].
    destruct (decide_turn _ _ _ _) eqn:Ed; by exists v, turn.
  - rewrite Etr. split; [by exists c, d|done].
  - apply call_rejects in H as (x & Hx & Hr). exists x. split; [|done].
    change (x ∈ somes of_call (lift <$> tr)). by rewrite somes_lift.
Qed.

(** The requests of a turn: code's system prompt over the catalogue it read, the
    transcript, code's context, and corrections to the model. *)
Definition asks_as_written (tr : trace) (req : LlmRequest F unit) : Prop :=
  exists text v context rs,
    head tr = Some (ev (ans := TurnA (F := F)) Catalogue (Some (text, v))) /\
    renderTurnContext (prompt_turn (tc_prompts ctx)) (ti_previous input) (ti_roundsUsed input) = Some context /\
    req = request_after JSON_parse parse_turn (extractRoute (tc_prompts ctx) text (tc_effort ctx)) (tc_model ctx)
            (tc_format ctx) (modelMessages (ti_transcript input) context) rs /\
    req_system req = [(prompt_extract (tc_prompts ctx), false); (text, true)] /\
    forall m, m ∈ req_messages req -> msg_role m = role_system -> m = mkMessage role_system (CText context).

Lemma system_context transcript context m :
  m ∈ modelMessages transcript context -> msg_role m = role_system -> m = mkMessage role_system (CText context).
Proof.
  unfold modelMessages. rewrite elem_of_app, list_elem_of_singleton. intros [(x & -> & _)%list_elem_of_fmap | ->]; [|done].
  by destruct x as [[] ?].
Qed.
Lemma correction_roles (sp : json -> list Issue + SpecTurn) rs m :
  m ∈ flat_map (fun r => match rejected JSON_parse sp r with Some (detail, _) => repairTurn (responseText r) detail | None => [] end) rs ->
  msg_role m <> role_system.
Proof.
  rewrite elem_of_flat_map. intros (r & _ & H). destruct (rejected _ _ r) as [[detail ?]|]; [|by apply elem_of_nil in H].
  unfold repairTurn in H. rewrite !elem_of_cons in H. by destruct H as [-> | [-> | ?%elem_of_nil]].
Qed.

(** C40: A turn, against every behaviour of the registry, the model API, the meter
    and the deadline. A message out of scope is refused before anything is read
    or sent. A spec is what [decide] makes, in the vocabulary of the catalogue
    this turn read, of the turn the schema accepted in the model's last
    response; every other reply is the text code keeps for its reason. A turn
    throws only when its transcript does not end in a person's message, the
    catalogue or the ceiling could not be read, the template names an unknown
    value, null was thrown, or the decided spec is not valid. And every
    request's system prompt is code's prompt and that catalogue, its only system
    message code's template filled from the previous spec and the round count,
    so that no word of the transcript reaches either. *)
Theorem runTurn_correct tr o :
  runs (runTurn nfkc JSON_parse parse_turn ctx input) tr o ->
  explained tr o /\
  (forall m, last (ti_transcript input) = Some m -> tm_role m = user -> screen nfkc (tm_text m) <> None -> tr = []) /\
  (forall e req, e ∈ tr -> sent_request e = Some req -> asks_as_written tr req).
Proof.
  unfold runTurn. destruct (last (ti_transcript input)) as [[[] text]|] eqn:El.
  2,3: intros [-> ->]; split_and!; [split; [done|]; rewrite El; intros ? ?; by simplify_eq|intros ? ?; by simplify_eq|by intros ? ? ?%elem_of_nil].
  destruct (screen nfkc text) as [c|] eqn:Es.
  { intros [-> ->]. split_and!; [|done|by intros ? ? ?%elem_of_nil]. split; [done|]. exists text, c. by rewrite El. }
  intros (cat & tr1 & -> & H). assert (Hscope : forall m, Some (mkLine user text) = Some m -> tm_role m = user ->
    screen nfkc (tm_text m) <> None -> ev (ans := TurnA (F := F)) Catalogue cat :: tr1 = []) by (by intros m [= <-]; simpl; rewrite Es).
  destruct cat as [[ctext v]|].
  2: { destruct H as [-> ->]. split_and!; [done|done|]. intros e req He Hr. apply list_elem_of_singleton in He as ->. done. }
  destruct (renderTurnContext _ _ _) as [context|] eqn:Et.
  2: { destruct H as [-> ->]. split_and!; [done|done|]. intros e req He Hr. apply list_elem_of_singleton in He as ->. done. }
  apply runs_bind in H as (tr2 & tr3 & r & -> & H1 & [-> ->]). rewrite app_nil_r in *.
  apply in_call_runs in H1 as (tr' & -> & H1).
  split_and!; [by apply (turn_result_explained _ _ (modelMessages (ti_transcript input) context))|done|].
  intros e req He Hr. apply elem_of_cons in He as [->|He]; [done|]. apply list_elem_of_fmap in He as (x & -> & Hx).
  assert (Hc : exists a, created x = Some (req, a)).
  { destruct x as [[] a]; try done. simpl in *. injection Hr as ->. by eexists. }
  apply call_good in H1 as [_ _ Ha _ _]. destruct Hc as [a Hc]. eapply asks_requests in Ha as (rs & ->); try done.
  exists ctext, v, context, rs. split_and!; [done..|]. intros m [Hm|Hm]%elem_of_app Hrole; [by eapply system_context|].
  by apply correction_roles in Hm.
Qed.
End Turn.
