(* ===== verification/Handler.v ===== *)
(** * Answering a build's messages ([apps/intake/src/handler.ts])

    [handleTurn] as a program over one connection, the clock and the turn.
    Times are whole milliseconds. A statement may answer, reject, or still be
    outstanding when the call's budget runs out: then the race around the whole
    call ends it, and what was running is fenced. *)
From S2P Require Import Prelude JsString Regex JsNumber Part Assembly MatcherTypes Json Rules Spec Decide Policy.
From S2P Require Import Effects Llm LlmCall Db Turn.
#[local] Open Scope string_scope.
#[local] Open Scope list_scope.
#[local] Open Scope Z_scope.

(** ** Budget *)
Definition MAX_PASSES : nat := 3.
Definition MIN_CLEANUP_MS : Z := 25.
(** [Math.round(deadlineMs / 15)]: no quotient of two integers by 15 is a tie. *)
Definition defaultReserve (deadlineMs : Z) : Z := Z.max 40 ((2 * deadlineMs + 15) / 30).
Definition total_budget (budgetMs : option Z) (deadlineMs : Z) : Z :=
  default (deadlineMs + defaultReserve deadlineMs) budgetMs.
Definition reserveMs (budgetMs : option Z) (deadlineMs : Z) : Z := Z.max 0 (total_budget budgetMs deadlineMs - deadlineMs).
(** [cleanupMs] of what remains *)
Definition cleanupMs (remaining : Z) : Z := if remaining <? MIN_CLEANUP_MS then 0 else remaining.

(** ** Errors *)

(** [TurnRetryableError]; running out of budget; anything else (a rejected
    statement, a stored spec the schema refuses). *)
Inductive HandlerError := TurnRetryable (reason : ReplyReason) | OutOfBudget | OtherError.
Definition is_retryable (e : HandlerError) : bool := match e with TurnRetryable _ => true | _ => false end.

(** [RETRYABLE_REASONS] *)
Definition retryable_reason (r : ReplyReason) : bool :=
  match r with r_failure f_provider_error | r_error => true | _ => false end.

(** ** The operations *)
Record Answered := mkAnswered { message_id : string; spec_version : option nat; answered_status : IntakeBuildStatus }.

(** The final transaction's rows: the message answered, the reply, the build's
    status and, when there is a new version, what it stores. *)
Record Answer := mkAnswer {
  an_target : Message;
  an_reply : string;
  an_status : IntakeBuildStatus;
  an_latest : option nat;
  an_spec : option (nat * Decision)
}.

Inductive HandlerE :=
| Connect
| Remaining
| FindBuild
| TryLock
| Unlock
| LatestRole
| FindOwner
| ReadTranscript
| ReadSpec
| CountRounds
| SetSpecifying
| RunTurn (input : TurnInput) (deadlineMs : Z)
| CloseTurn (withinMs : Z)
| Write (a : Answer)
| CloseHandles (withinMs : Z)
| Release (destroyed : bool).

(** A statement's end. The turn itself never rejects, but the call's race may be
    lost while it runs. *)
Inductive reply (X : Type) := Got (x : X) | Rejected | Outstanding.
Arguments Got {X} x. Arguments Rejected {X}. Arguments Outstanding {X}.

Definition HandlerA (e : HandlerE) : Type :=
  match e with
  | Connect => bool
  | Remaining => Z
  | FindBuild | FindOwner | TryLock => reply bool
  | Unlock | SetSpecifying | CloseTurn _ => reply unit
  | LatestRole => reply (option Role)
  | ReadTranscript => reply (list Message)
  | ReadSpec => reply (option SpecVersion)
  | CountRounds => reply nat
  | RunTurn _ _ => option (option (outcome TurnError TurnOutcome))
  | Write _ => reply string
  | CloseHandles _ => bool
  | Release _ => unit
  end.

(** The end of a piece of the call: a value, a rejection, or the race lost. *)
Inductive res (A : Type) := Val (a : A) | Err (e : HandlerError) | Expired.
Arguments Val {A} a. Arguments Err {A} e. Arguments Expired {A}.

#[local] Abbreviation act A := (prog (E := HandlerE) HandlerA (res A)).

Definition got {X A} (r : reply X) (k : X -> act A) : act A :=
  match r with Got x => k x | Rejected => Ret (Err OtherError) | Outstanding => Ret Expired end.

Definition andThen {A B} (p : act A) (k : A -> act B) : act B :=
  bind p (fun r => match r with Val a => k a | Err e => Ret (Err e) | Expired => Ret Expired end).

(** ** [withDeadline] *)

(** [None]: the timer won the race. *)
Definition withDeadline (r : option (outcome TurnError TurnOutcome)) : TurnOutcome :=
  match r with
  | None => OReply (r_failure f_deadline) FALLBACK_REPLY None
  | Some (Value o) => o
  | Some (Throws _) => OReply r_error FALLBACK_REPLY None
  end.

(** ** [answerLatest] *)
Definition idle_status (previous : option Spec) : IntakeBuildStatus :=
  match previous with Some p => if settled p then planning else asking | None => asking end.

Definition answer_of (target : Message) (latestSpec : option SpecVersion) (o : TurnOutcome) : Answer :=
  let previous := sv_data <$> latestSpec in
  match o with
  | OSpec d =>
      mkAnswer target (dec_reply d) (dec_status d) (sv_version <$> latestSpec)
        (if newVersion d then Some (S (default O (sv_version <$> latestSpec)), d) else None)
  | OReply _ reply _ => mkAnswer target reply (idle_status previous) (sv_version <$> latestSpec) None
  end.

Definition written (a : Answer) (id : string) : Answered :=
  mkAnswered id (match an_spec a with Some (v, _) => Some v | None => an_latest a end) (an_status a).

Definition turn_input (transcript : list Message) (latestSpec : option SpecVersion) (rounds : nat) : TurnInput :=
  mkTurnInput ((fun m => mkLine (m_role m) (m_text m)) <$> transcript) (sv_data <$> latestSpec) rounds.

Section Handler.
Context (deadlineMs : Z) (budgetMs : option Z) (mayRetry : bool).
#[local] Abbreviation reserve := (reserveMs budgetMs deadlineMs).

(** The handle is closed in a [finally]; its rejection replaces the outcome. *)
Definition run_and_close (input : TurnInput) : act TurnOutcome :=
  (do! remaining := Remaining in
   do! r := RunTurn input (Z.min deadlineMs (remaining - reserve)) in
   match r with
   | None => Ret Expired
   | Some r =>
       do! remaining := Remaining in
       do! closed := CloseTurn (cleanupMs remaining) in
       got closed (fun _ => Ret (Val (withDeadline r)))
   end)%prog.

Definition retried (o : TurnOutcome) : option ReplyReason :=
  match o with OReply reason _ _ => if mayRetry && retryable_reason reason then Some reason else None | OSpec _ => None end.

Definition answerLatest : act (option Answered) :=
  (do! owner := FindOwner in got owner (fun found =>
   if negb found then Ret (Val None) else
   do! transcript := ReadTranscript in got transcript (fun transcript =>
   match last transcript with
   | Some target =>
       match m_role target with
       | assistant => Ret (Val None)
       | user =>
           do! latestSpec := ReadSpec in got latestSpec (fun latestSpec =>
           do! rounds := CountRounds in got rounds (fun rounds =>
           do! status := SetSpecifying in got status (fun _ =>
           andThen (run_and_close (turn_input transcript latestSpec rounds)) (fun o =>
           match retried o with
           | Some reason => Ret (Err (TurnRetryable reason))
           | None =>
               let a := answer_of target latestSpec o in
               do! id := Write a in got id (fun id => Ret (Val (Some (written a id))))
           end))))
       end
   | None => Ret (Val None)
   end)))%prog.

(** ** The loops *)

(** The inner loop, under the lock: [n] more passes; it returns the passes left
    and the last answer. *)
Fixpoint answer_loop (n : nat) (last : option Answered) : act (nat * option Answered) :=
  match n with
  | O => Ret (Val (O, last))
  | S n =>
      andThen answerLatest (fun answered =>
        match answered with
        | None => Ret (Val (S n, last))
        | Some a =>
            (do! remaining := Remaining in
             if remaining <=? reserve then Ret (Val (n, Some a)) else answer_loop n (Some a))%prog
        end)
  end.

(** The [finally] that releases the lock; a rejection of the unlock replaces
    what was being returned or thrown. *)
Definition release_lock {A} (r : res A) : act A :=
  match r with
  | Expired => Ret Expired
  | Err e =>
      if is_retryable e then
        (do! remaining := Remaining in
         if 0 <? cleanupMs remaining then do! u := Unlock in got u (fun _ => Ret (Err e)) else Ret (Err e))%prog
      else Ret (Err e)
  | Val a =>
      (do! remaining := Remaining in
       if 0 <? cleanupMs remaining then do! u := Unlock in got u (fun _ => Ret (Val a)) else Ret (Val a))%prog
  end.

(** The outer loop. [fuel] bounds how often the lock is taken. *)
Fixpoint lock_loop (fuel n : nat) (last : option Answered) : act (option (option Answered)) :=
  match n, fuel with
  | O, _ => Ret (Val (Some last))
  | _, O => Ret (Val None)
  | S _, S fuel =>
      (do! remaining := Remaining in
       if remaining <=? reserve then Ret (Err OutOfBudget) else
       do! locked := TryLock in got locked (fun locked =>
       if negb locked then Ret (Val (Some last)) else
       andThen (bind (answer_loop n last) release_lock) (fun '(n', last') =>
       do! latest := LatestRole in got latest (fun latest =>
       if bool_decide (latest = Some user) then lock_loop fuel n' last' else Ret (Val (Some last'))))))%prog
  end.

Inductive TurnResponse := NoSuchBuild | Noop | Reply (a : Answered) | NoFuel.

Definition answerWhileUnanswered (fuel : nat) : act TurnResponse :=
  (do! found := FindBuild in got found (fun found =>
   if negb found then Ret (Val NoSuchBuild) else
   andThen (lock_loop fuel MAX_PASSES None) (fun r =>
   Ret (Val (match r with None => NoFuel | Some None => Noop | Some (Some a) => Reply a end)))))%prog.

(** [handleTurn]: the race, then the [finally] that closes every handle and
    returns the connection to the pool, destroyed when anything was wrong with
    it. *)
Definition handleTurn (fuel : nat) : prog (E := HandlerE) HandlerA (outcome HandlerError TurnResponse) :=
  (do! connected := Connect in
   if negb connected then Ret (Throws OtherError) else
   run! r := answerWhileUnanswered fuel in
   let broken := match r with Val _ => false | Err e => negb (is_retryable e) | Expired => true end in
   do! remaining := Remaining in
   do! closed := CloseHandles (cleanupMs remaining) in
   do! released := Release (broken || negb closed) in
   Ret (match r with Val a => Value a | Err e => Throws e | Expired => Throws OutOfBudget end))%prog.
End Handler.

(** ** The final transaction on the tables *)
Definition status_of (s : IntakeBuildStatus) : BuildStatus :=
  match s with specifying => st_specifying | asking => st_asking | planning => st_planning end.

(** [id] and [now] are the database's. *)
Definition write_answer (buildId id : string) (now : Z) (a : Answer) (d : Db) : Db :=
  let d := with_messages d (t_messages d ++
             [mkMsg id buildId assistant (an_reply a) None (m_createdAt (an_target a) + 1)]) in
  let d := match an_spec a with
           | Some (v, dec) => with_specs d (t_specs d ++
               [mkVersion buildId v (dec_spec dec) (confidence dec) (open_questions (dec_spec dec))])
           | None => d
           end in
  set_status d buildId (status_of (an_status a)) now.

(** [jsonb_array_length(open_questions) > 0] *)
Definition asks_questions (s : SpecVersion) : bool := Nat.ltb O (length (sv_openQuestions s)).
Definition count_rounds (d : Db) (buildId : string) : nat := length (List.filter asks_questions (specs_of d buildId)).
