(* ===== verification/HandlerSpec.v ===== *)
(** * What answering a build's messages guarantees

    A monitor of the connection: whether it holds the build's lock, what was
    read under it, the turn's outcome and the replies written. *)
From S2P Require Import Prelude JsString Regex JsNumber Part Assembly MatcherTypes Json Rules Spec Decide Policy.
From S2P Require Import Effects Llm LlmCall Db Turn Handler.
#[local] Open Scope string_scope.
#[local] Open Scope list_scope.
#[local] Open Scope Z_scope.

Record Monitor := mkMonitor {
  mo_held : bool;
  mo_clock : option Z;
  mo_read : option (list Message);
  mo_latest : option (option SpecVersion);
  mo_rounds : option nat;
  mo_outcome : option TurnOutcome;
  mo_writes : list Answered;
  mo_locks : nat
}.
Definition watched : Monitor := mkMonitor false None None None None None [] 0.

Definition tick (m : Monitor) (x : Z) : Monitor :=
  mkMonitor (mo_held m) (Some x) (mo_read m) (mo_latest m) (mo_rounds m) (mo_outcome m) (mo_writes m) (mo_locks m).
(** What was read is used once. *)
Definition forget (m : Monitor) : Monitor :=
  mkMonitor (mo_held m) (mo_clock m) None None None None (mo_writes m) (mo_locks m).
Definition hold (m : Monitor) (h : bool) : Monitor :=
  mkMonitor h (mo_clock m) (mo_read m) (mo_latest m) (mo_rounds m) (mo_outcome m) (mo_writes m) (mo_locks m).

#[local] Abbreviation ev_ := (event (E := HandlerE) HandlerA).

Definition next (m : Monitor) (e : ev_) : Monitor :=
  let '(existT op x) := e in
  match op return HandlerA op -> Monitor with
  | Remaining => fun x => tick m x
  | TryLock => fun r =>
      match r with
      | Got false => m
      | Got true => let m := forget m in
          mkMonitor true (mo_clock m) None None None None (mo_writes m) (S (mo_locks m))
      | _ => hold m true
      end
  | Unlock => fun r => match r with Got _ => hold m false | _ => m end
  | ReadTranscript => fun r =>
      match r with
      | Got t => mkMonitor (mo_held m) (mo_clock m) (Some t) None None None (mo_writes m) (mo_locks m)
      | _ => m
      end
  | ReadSpec => fun r =>
      match r with
      | Got s => mkMonitor (mo_held m) (mo_clock m) (mo_read m) (Some s) (mo_rounds m) None (mo_writes m) (mo_locks m)
      | _ => m
      end
  | CountRounds => fun r =>
      match r with
      | Got n => mkMonitor (mo_held m) (mo_clock m) (mo_read m) (mo_latest m) (Some n) None (mo_writes m) (mo_locks m)
      | _ => m
      end
  | RunTurn _ _ => fun r =>
      match r with
      | Some o => mkMonitor (mo_held m) (mo_clock m) (mo_read m) (mo_latest m) (mo_rounds m) (Some (withDeadline o))
                    (mo_writes m) (mo_locks m)
      | None => m
      end
  | Write a => fun r =>
      let m := forget m in
      match r with
      | Got id => mkMonitor (mo_held m) (mo_clock m) None None None None (mo_writes m ++ [written a id]) (mo_locks m)
      | _ => m
      end
  | _ => fun _ => m
  end x.

(** The clock does not go back, and closing a handle with no time left rejects
    ([createClientDb] in [packages/db/src/client.ts]). *)
Definition fair (m : Monitor) (e : ev_) : Prop :=
  let '(existT op x) := e in
  match op return HandlerA op -> Prop with
  | Remaining => fun x => forall c, mo_clock m = Some c -> x <= c
  | CloseHandles withinMs => fun closed => withinMs <= 0 -> closed = false
  | _ => fun _ => True
  end x.

Section Handler.
Context (deadlineMs : Z) (budgetMs : option Z) (mayRetry : bool).

(** What the handler owes. *)
Definition owed (m : Monitor) (e : ev_) : Prop :=
  match projT1 e with
  | TryLock => mo_held m = false
  | Unlock => mo_held m = true
  | RunTurn input limit =>
      mo_held m = true /\ limit <= deadlineMs /\
      exists t sp n, mo_read m = Some t /\ mo_latest m = Some sp /\ mo_rounds m = Some n /\ input = turn_input t sp n
  | Write a =>
      mo_held m = true /\
      exists t target sp o, mo_read m = Some t /\ last t = Some target /\ m_role target = user /\
        mo_latest m = Some sp /\ mo_outcome m = Some o /\ a = answer_of target sp o /\
        retried mayRetry o = None
  | Release destroyed => destroyed = false -> mo_held m = false
  | _ => True
  end.

#[local] Abbreviation wp_ := (wp fair owed next).

(** The lock is free, or there is too little time left to keep the connection. *)
Definition loose (m : Monitor) : Prop := mo_held m = false \/ exists c, mo_clock m = Some c /\ c < MIN_CLEANUP_MS.

Lemma wp_seq {A B} (p : prog HandlerA (res A)) (k : A -> prog HandlerA (res B)) s Q :
  wp_ p s (fun r s' => match r with Val a => wp_ (k a) s' Q | Err e => Q (Err e) s' | Expired => Q Expired s' end) ->
  wp_ (andThen p k) s Q.
Proof. intros H. apply wp_bind. eapply wp_mono; [|exact H]. by intros [a|e|] s'. Qed.

(** A pass: at most one reply, the lock kept. *)
Definition passed (s : Monitor) (r : res (option Answered)) (s' : Monitor) : Prop :=
  mo_held s' = true /\ mo_locks s' = mo_locks s /\
  mo_writes s' = mo_writes s ++ match r with Val (Some a) => [a] | _ => [] end.

Ltac step := simpl; intros ? ?; split; [try done|].
Ltac ends := simpl; unfold passed; simpl; rewrite ?app_nil_r; auto.

Lemma wp_answerLatest s :
  mo_held s = true -> wp_ (answerLatest deadlineMs budgetMs mayRetry) s (passed s).
Proof.
  intros Hh. unfold answerLatest. simpl. intros found _. split; [done|]. destruct found as [[]| |]; [|ends..].
  simpl. intros t _. split; [done|]. destruct t as [t| |]; [|ends..]. simpl.
  destruct (last t) as [target|] eqn:El; [|ends]. destruct (m_role target) eqn:Er; [|ends].
  simpl. intros sp _. split; [done|]. destruct sp as [sp| |]; [|ends..].
  simpl. intros n _. split; [done|]. destruct n as [n| |]; [|ends..].
  simpl. intros u _. split; [done|]. destruct u as [u| |]; [|ends..].
  unfold got. apply wp_seq. unfold run_and_close. simpl. intros rem _. split; [done|]. intros r _. split.
  { split_and!; [done|lia|]. by exists t, sp, n. }
  destruct r as [r|]; [|ends]. simpl. intros rem2 _. split; [done|]. intros c _. split; [done|].
  destruct c as [c| |]; [|ends..]. simpl. destruct (retried mayRetry (withDeadline r)) eqn:Ert; [ends|].
  simpl. intros id _. split.
  { split; [done|]. by exists t, target, sp, (withDeadline r). }
  destruct id as [id| |]; ends.
Qed.

(** Replies so far, passes left, and the last answer. *)
Definition tally (s : Monitor) (n : nat) (l : option Answered) : Prop :=
  (length (mo_writes s) + n = MAX_PASSES)%nat /\ l = last (mo_writes s).
Definition few (s : Monitor) : Prop := (length (mo_writes s) <= MAX_PASSES)%nat.

Lemma wp_answer_loop n l s :
  mo_held s = true -> tally s n l ->
  wp_ (answer_loop deadlineMs budgetMs mayRetry n l) s (fun r s' =>
    mo_held s' = true /\ mo_locks s' = mo_locks s /\ few s' /\
    match r with Val (n', l') => tally s' n' l' | _ => True end).
Proof.
  unfold few. revert l s. induction n as [|n IH]; intros l s Hh [Hn Hl]; cbn [answer_loop].
  { simpl. unfold tally. split_and!; try done. lia. }
  apply wp_seq. eapply wp_mono; [|by apply wp_answerLatest]. intros r s' (H1 & H2 & H3).
  destruct r as [[a|]|e|]; rewrite ?app_nil_r in H3.
  - simpl. intros rem _. split; [done|].
    assert (Ht : tally (tick s' rem) n (Some a)).
    { unfold tally. simpl. rewrite H3, length_app, last_snoc. simpl. split; [lia|done]. }
    destruct (rem <=? _).
    + simpl. rewrite H3, length_app in *. simpl. split_and!; try done; lia.
    + eapply wp_mono; [|apply IH; [exact H1|exact Ht]]. simpl. intros r s2. by rewrite H2.
  - simpl. unfold tally. rewrite H3. split_and!; try done. lia.
  - simpl. rewrite H3. split_and!; try done. lia.
  - simpl. rewrite H3. split_and!; try done. lia.
Qed.

(** A connection on which the lock was let go, or that has no time left. *)
Lemma wp_release {A} (r : res A) s :
  mo_held s = true ->
  wp_ (release_lock r) s (fun r' s' =>
    mo_writes s' = mo_writes s /\ mo_locks s' = mo_locks s /\
    match r' with
    | Val a => r = Val a /\ loose s'
    | Err e => is_retryable e = true -> loose s'
    | Expired => True
    end).
Proof.
  intros Hh. assert (Hc : forall rem, (0 <? cleanupMs rem) = false -> loose (tick s rem)).
  { intros rem H. right. exists rem. split; [done|]. unfold cleanupMs, MIN_CLEANUP_MS in *.
    destruct (Z.ltb_spec rem 25); [done|]. apply Z.ltb_ge in H. lia. }
  destruct r as [a|e|]; simpl; [| |done].
  - intros rem _. split; [done|]. destruct (0 <? cleanupMs rem) eqn:E; simpl; [|auto].
    intros u _. split; [done|]. destruct u; simpl; try done. unfold loose. auto.
  - destruct (is_retryable e) eqn:Er; simpl; [|rewrite Er; done].
    intros rem _. split; [done|]. destruct (0 <? cleanupMs rem) eqn:E; simpl; [|auto].
    intros u _. split; [done|]. destruct u; simpl; try done. unfold loose. auto.
Qed.

Context (Hreserve : MIN_CLEANUP_MS <= reserveMs budgetMs deadlineMs).

Lemma wp_lock_loop fuel : forall n l s,
  loose s -> tally s n l ->
  wp_ (lock_loop deadlineMs budgetMs mayRetry fuel n l) s (fun r s' =>
    few s' /\
    match r with
    | Val (Some l') => loose s' /\ l' = last (mo_writes s')
    | Val None => loose s' /\ mo_locks s' = (fuel + mo_locks s)%nat
    | Err e => is_retryable e = true -> loose s'
    | Expired => True
    end).
Proof using Hreserve.
  unfold few. induction fuel as [|fuel IH]; intros n l s Hl Ht; cbn [lock_loop];
    (destruct n as [|n]; [ destruct Ht as [Hn Hw]; split_and!; [lia|done|done]|]).
  { simpl. destruct Ht. split_and!; [lia|done|done]. }
  intros rem Hrem. split; [done|]. assert (Hf : (length (mo_writes s) <= MAX_PASSES)%nat) by (destruct Ht; lia).
  destruct (Z.leb_spec rem (reserveMs budgetMs deadlineMs)) as [|Hgt]; [by split|].
  assert (Hfree : mo_held s = false).
  { destruct Hl as [|(c & Hc & Hlt)]; [done|]. specialize (Hrem c Hc). lia. }
  intros locked _. split; [done|]. destruct locked as [[]| |]; cbn [got negb].
  2: { split; [done|]. split; [by left|]. by destruct Ht. }
  2,3: by split.
  apply wp_seq, wp_bind. eapply wp_mono; [|apply wp_answer_loop; [done|exact Ht]].
  intros r s1 (Hh1 & Hk1 & Hf1 & Hr). eapply wp_mono; [|by apply wp_release].
  intros r' s2 (Hw2 & Hk2 & Hr2). unfold few in Hf1. rewrite <- Hw2 in Hf1.
  destruct r' as [[n' l']|e|]; [|split; done..]. destruct Hr2 as [-> Hl2].
  assert (Ht2 : tally s2 n' l') by (unfold tally in *; by rewrite Hw2).
  intros latest _. split; [done|]. destruct latest as [latest| |]; cbn [got]; [|by split..].
  destruct (bool_decide _).
  - eapply wp_mono; [|by apply IH]. intros r3 s3 [Hf3 H3]. split; [done|]. destruct r3 as [[l3|]|e|]; try done.
    destruct H3 as [? H3]. split; [done|]. simpl in H3, Hk1. rewrite H3, Hk2, Hk1. simpl. lia.
  - simpl. split; [done|]. split; [done|]. by destruct Ht2.
Qed.

(** What the whole call ends with. *)
Definition concluded (fuel : nat) (o : outcome HandlerError TurnResponse) (s : Monitor) : Prop :=
  few s /\
  match o with
  | Value NoSuchBuild => mo_writes s = []
  | Value Noop => mo_writes s = []
  | Value (Reply a) => last (mo_writes s) = Some a
  | Value NoFuel => mo_locks s = fuel
  | Throws _ => True
  end.

Lemma wp_handleTurn fuel : wp_ (handleTurn deadlineMs budgetMs mayRetry fuel) watched (concluded fuel).
Proof using Hreserve.
  unfold handleTurn. intros connected _. split; [done|]. destruct connected; cbn [negb].
  2: { split; [unfold few; simpl; lia|done]. }
  apply wp_bind. eapply wp_mono with (Q := fun r s =>
    few s /\ match r with
             | Val a => loose s /\ concluded fuel (Value a) s
             | Err e => is_retryable e = true -> loose s
             | Expired => True
             end).
  - intros r s [Hf Hr] rem Hrem. split; [done|]. intros closed Hclosed. split; [done|]. intros u _. split.
    + intros [Hb Hc]%orb_false_iff. apply negb_false_iff in Hc. subst closed.
      assert (Hl : loose s).
      { destruct r as [a|e|]; [by destruct Hr| |done]. apply Hr. by apply negb_false_iff in Hb. }
      destruct Hl as [|(c & Hc & Hlt)]; [done|]. specialize (Hrem c Hc). simpl in Hclosed. unfold cleanupMs in Hclosed.
      destruct (Z.ltb_spec rem MIN_CLEANUP_MS); [|lia]. by specialize (Hclosed ltac:(lia)).
    + destruct r as [a|e|]; [by destruct Hr|by split|by split].
  - unfold answerWhileUnanswered. intros found _. split; [done|].
    assert (Hfew : few watched) by (unfold few; simpl; lia).
    destruct found as [[]| |]; cbn [got negb]; [|split; [done|]; by split; [left|]|by split..].
    apply wp_seq. eapply wp_mono; [|apply wp_lock_loop; [by left|by split]].
    intros r s [Hf Hr]. destruct r as [[l|]|e|]; [| |by split|by split].
    + destruct Hr as [Hl ->]. split; [done|]. split; [done|]. split; [done|].
      destruct (mo_writes s) as [|a w] ; [done|].
      rewrite last_cons. by destruct (last w).
    + destruct Hr as [Hl Hk]. simpl in Hk. split; [done|]. split; [done|]. split; [done|]. simpl. lia.
Qed.

(** C5: Answering a build, whatever its connection, its clock and its turns do:
    turns run and replies are written only while the connection holds the
    build's lock, each reply for the user message read last under it and as the
    outcome of a turn on what was read, never twice for one reading, and not when
    the failure is handed back for a retry; at most three replies are written,
    and the call reports the last of them, or nothing when it wrote none; and the
    connection goes back to the pool only with the lock released, otherwise it is
    destroyed. *)
Theorem handleTurn_disciplined fuel tr o :
  runs (handleTurn deadlineMs budgetMs mayRetry fuel) tr o -> assumed fair next watched tr ->
  obeyed owed next watched tr /\ concluded fuel o (after next watched tr).
Proof using Hreserve. apply wp_runs, wp_handleTurn. Qed.
End Handler.

(** The default reserve, and the configured one, leave more than a cleanup
    needs. *)
Lemma default_reserve deadlineMs : MIN_CLEANUP_MS <= reserveMs None deadlineMs.
Proof. unfold reserveMs, total_budget, defaultReserve, MIN_CLEANUP_MS. simpl. lia. Qed.
