(* ===== verification/Conversation.v ===== *)
(** * A build's conversation: gateway and intake together

    The chat store's submissions ([apps/gateway/src/chat-store.ts]) interleaved
    with intake's answers ([apps/intake/src/handler.ts]). The build's lock makes
    an answer two steps that no other answer comes between, reading and writing
    ([HandlerSpec.handleTurn_disciplined]); a submission may come at any point. *)
From S2P Require Import Prelude JsString Regex JsNumber Part Assembly MatcherTypes Json Rules Spec Decide DecideSpec Policy.
From S2P Require Import Effects Llm LlmCall Db Chat Turn Handler.
#[local] Open Scope string_scope.
#[local] Open Scope list_scope.
#[local] Open Scope Z_scope.

Section Conversation.
Context (buildId : string).

(** What the lock's holder read: the message to answer, the latest spec, the
    rounds used. *)
Record Conversation := mkConversation {
  cv_db : Db;
  cv_working : option (Message * option SpecVersion * nat)
}.

(** A turn's outcome on what was read: a reply, or a decision of [decide]. *)
Definition outcome_of (latest : option SpecVersion) (rounds : nat) (o : TurnOutcome) : Prop :=
  match o with
  | OReply _ _ _ => True
  | OSpec d => exists turn v, decide_turn (sv_data <$> latest) turn v rounds = Some d
  end.

(** The rows of this build are the same in both. *)
Definition same_rows (d d' : Db) : Prop :=
  messages_of d' buildId = messages_of d buildId /\ specs_of d' buildId = specs_of d buildId.

Inductive step : Conversation -> Conversation -> Prop :=
| step_submit d w owner text cid pending env m d' :
    submitUserMessage (X := Empty_set) buildId owner text cid pending None env d = (Ok (SCreated m), d') ->
    step (mkConversation d w) (mkConversation d' w)
| step_read d target :
    last (transcript_of d buildId) = Some target -> m_role target = user ->
    step (mkConversation d None) (mkConversation d (Some (target, latestSpec d buildId, count_rounds d buildId)))
| step_write d target latest rounds o id now :
    outcome_of latest rounds o ->
    step (mkConversation d (Some (target, latest, rounds)))
         (mkConversation (write_answer buildId id now (answer_of target latest o) d) None)
| step_give_up d w : step (mkConversation d w) (mkConversation d None)
| step_elsewhere d d' w : same_rows d d' -> step (mkConversation d w) (mkConversation d' w).

(** A new build: its first message, and no spec. *)
Definition opened (c : Conversation) : Prop :=
  cv_working c = None /\ specs_of (cv_db c) buildId = [] /\
  exists m, messages_of (cv_db c) buildId = [m] /\ m_role m = user.

Inductive reachable : Conversation -> Prop :=
| reach_opened c : opened c -> reachable c
| reach_step c c' : reachable c -> step c c' -> reachable c'.

(** ** The transcript *)

(** What the two services keep of a transcript between them. *)
Record spaced (M : list Message) : Prop := {
  sp_times : NoDup (m_createdAt <$> M);
  sp_reply : forall r, r ∈ M -> m_role r = assistant ->
    exists u, u ∈ M /\ m_role u = user /\ m_createdAt r = m_createdAt u + 1;
  sp_gap : forall u m, u ∈ M -> m ∈ M -> m_role u = user ->
    m_createdAt m <= m_createdAt u \/ m_createdAt u + 2 <= m_createdAt m \/
    (m_role m = assistant /\ m_createdAt m = m_createdAt u + 1)
}.

Lemma next_time_ge c M m : m ∈ M -> m_createdAt m + 2 <= next_time c M.
Proof.
  unfold next_time. assert (Hmono : forall M c, c <= fold_left (fun t m => Z.max t (m_createdAt m + 2)) M c).
  { clear. induction M as [|x M IH]; intros c; simpl; [lia|]. specialize (IH (Z.max c (m_createdAt x + 2))). lia. }
  revert c. induction M as [|x M IH]; intros c; [by intros ?%elem_of_nil|]. simpl.
  intros [->|H]%elem_of_cons; [|by apply IH]. specialize (Hmono M (Z.max c (m_createdAt x + 2))). lia.
Qed.

Lemma messages_of_snoc d m :
  m_buildId m = buildId -> messages_of (with_messages d (t_messages d ++ [m])) buildId = messages_of d buildId ++ [m].
Proof.
  intros <-. unfold messages_of. simpl. rewrite List.filter_app. simpl. unfold of_build. by rewrite String.eqb_refl.
Qed.

Lemma submit_created X owner text cid pending (admission : option X) env d m d' :
  submitUserMessage buildId owner text cid pending admission env d = (Ok (SCreated m), d') ->
  d' = with_messages d (t_messages d ++ [m]) /\ m_buildId m = buildId /\ m_role m = user /\
  m_createdAt m = next_time (env_clock env) (messages_of d buildId).
Proof.
  unfold submitUserMessage. destruct (isUuid buildId); [|done]. simpl. destruct (owned_build _ _ _); [|done].
  destruct (List.find _ _); [done|]. destruct (pending_message _); [done|]. destruct admission; [done|].
  by intros [= <- <-].
Qed.

Lemma spaced_snoc_time M (m : Message) :
  NoDup (m_createdAt <$> M) -> (forall x, x ∈ M -> m_createdAt x <> m_createdAt m) ->
  NoDup (m_createdAt <$> M ++ [m]).
Proof.
  intros Hn Hx. rewrite fmap_app. apply NoDup_app. split_and!; [done| |apply NoDup_singleton].
  intros t Ht ->%list_elem_of_singleton. apply list_elem_of_fmap in Ht as (x & He & Hin). by eapply Hx.
Qed.

Lemma spaced_submit M m c :
  spaced M -> m_role m = user -> m_createdAt m = next_time c M -> spaced (M ++ [m]).
Proof.
  intros [Ht Hr Hg] Hm Hc. assert (Hlt : forall x, x ∈ M -> m_createdAt x + 2 <= m_createdAt m).
  { intros x Hx. rewrite Hc. by apply next_time_ge. }
  split.
  - apply spaced_snoc_time; [done|]. intros x Hx. specialize (Hlt x Hx). lia.
  - intros r [Hin| ->%list_elem_of_singleton]%elem_of_app Ha; [|congruence].
    destruct (Hr r Hin Ha) as (u & Hu & ?). exists u. split; [|done]. apply elem_of_app. by left.
  - intros u x [Hu| ->%list_elem_of_singleton]%elem_of_app [Hx| ->%list_elem_of_singleton]%elem_of_app Hur.
    + by apply Hg.
    + specialize (Hlt u Hu). lia.
    + specialize (Hlt x Hx). lia.
    + lia.
Qed.

Lemma spaced_reply M t r :
  spaced M -> t ∈ M -> m_role t = user -> (forall x, x ∈ M -> m_createdAt x <> m_createdAt t + 1) ->
  m_role r = assistant -> m_createdAt r = m_createdAt t + 1 -> spaced (M ++ [r]).
Proof.
  intros [Ht Hr Hg] Hin Htu Hfree Hra Hrt. split.
  - apply spaced_snoc_time; [done|]. intros x Hx. rewrite Hrt. by apply Hfree.
  - intros x [Hx| ->%list_elem_of_singleton]%elem_of_app Ha.
    + destruct (Hr x Hx Ha) as (u & Hu & ?). exists u. split; [|done]. apply elem_of_app. by left.
    + exists t. split_and!; [|done|done]. apply elem_of_app. by left.
  - intros u x [Hu| ->%list_elem_of_singleton]%elem_of_app [Hx| ->%list_elem_of_singleton]%elem_of_app Hur;
      [by apply Hg| |congruence..].
    rewrite Hrt. destruct (Hg t u Hin Hu Htu) as [H|[H|[H _]]]; [|lia|congruence].
    destruct (Hg u t Hu Hin Hur) as [H'|[H'|[H' _]]]; [|lia|congruence].
    right. right. split; [done|]. lia.
Qed.

(** ** The specs *)
Record versioned (V : list SpecVersion) : Prop := {
  ve_versions : sv_version <$> V = seq 1%nat (length V);
  ve_rounds : (length (List.filter asks_questions V) <= MAX_CLARIFICATION_ROUNDS)%nat;
  ve_stored : forall s, s ∈ V -> Spec_ok (sv_data s) = true /\ sv_openQuestions s = open_questions (sv_data s)
}.

Lemma versioned_lookup V i s : versioned V -> V !! i = Some s -> sv_version s = S i.
Proof.
  intros [Hv _ _] Hi. assert (H : (sv_version <$> V) !! i = Some (sv_version s)) by (by rewrite list_lookup_fmap, Hi).
  rewrite Hv in H. apply lookup_seq in H as [H _]. lia.
Qed.

Lemma latest_is_last V s :
  versioned V -> head (js_sort (fun a b => Nat.ltb (sv_version a) (sv_version b)) V) = Some s -> last V = Some s.
Proof.
  intros Hv H. apply sorted_head in H as [Hin Hmax].
  2: { apply flip_order; intros; unfold le_of in *; rewrite !Nat.ltb_ge in *; lia. }
  apply list_elem_of_lookup in Hin as [i Hi]. pose proof (versioned_lookup _ _ _ Hv Hi) as Hs.
  rewrite last_lookup. destruct (decide (i = pred (length V))) as [<-|N]; [done|].
  pose proof (lookup_lt_Some _ _ _ Hi). destruct (lookup_lt_is_Some_2 V (pred (length V))) as [x Hx]; [lia|].
  pose proof (versioned_lookup _ _ _ Hv Hx) as Hxv.
  destruct (Hmax x) as [Hle|<-]; [by eapply list_elem_of_lookup_2| |done].
  unfold le_of in Hle. rewrite Nat.ltb_ge in Hle. lia.
Qed.

Lemma latest_version V :
  versioned V -> default O (sv_version <$> head (js_sort (fun a b => Nat.ltb (sv_version a) (sv_version b)) V)) = length V.
Proof.
  intros Hv. destruct (head _) as [s|] eqn:E.
  - apply latest_is_last in E; [|done]. rewrite last_lookup in E. simpl. rewrite (versioned_lookup _ _ _ Hv E).
    apply lookup_lt_Some in E. lia.
  - simpl. apply head_None in E. apply (f_equal length) in E. rewrite length_js_sort in E. simpl in E. lia.
Qed.

Lemma versioned_snoc V s :
  versioned V -> sv_version s = S (length V) -> Spec_ok (sv_data s) = true ->
  sv_openQuestions s = open_questions (sv_data s) ->
  (asks_questions s = true -> (length (List.filter asks_questions V) < MAX_CLARIFICATION_ROUNDS)%nat) ->
  versioned (V ++ [s]).
Proof.
  intros [Hv Hr Hs] Hsv Hok Hq Ha. split.
  - rewrite fmap_app, length_app, Nat.add_1_r, seq_S, Hv. simpl. by rewrite Hsv.
  - rewrite List.filter_app, length_app. simpl. destruct (asks_questions s); simpl; [|lia]. specialize (Ha eq_refl). lia.
  - intros x [Hx | ->%list_elem_of_singleton]%elem_of_app; auto.
Qed.

(** ** The invariant *)
Record Inv (c : Conversation) : Prop := {
  inv_spaced : spaced (messages_of (cv_db c) buildId);
  inv_versioned : versioned (specs_of (cv_db c) buildId);
  inv_working : forall t latest n, cv_working c = Some (t, latest, n) ->
    t ∈ messages_of (cv_db c) buildId /\ m_role t = user /\
    (forall x, x ∈ messages_of (cv_db c) buildId -> m_createdAt x <> m_createdAt t + 1) /\
    latest = latestSpec (cv_db c) buildId /\ n = count_rounds (cv_db c) buildId
}.

Lemma messages_written id now a d :
  messages_of (write_answer buildId id now a d) buildId =
  messages_of d buildId ++ [mkMsg id buildId assistant (an_reply a) None (m_createdAt (an_target a) + 1)].
Proof. unfold write_answer. destruct (an_spec a) as [[v dec]|]; by apply messages_of_snoc. Qed.

Lemma specs_written id now a d :
  specs_of (write_answer buildId id now a d) buildId =
  specs_of d buildId ++ match an_spec a with
    | Some (v, dec) => [mkVersion buildId v (dec_spec dec) (confidence dec) (open_questions (dec_spec dec))]
    | None => []
    end.
Proof.
  unfold write_answer, specs_of. destruct (an_spec a) as [[v dec]|]; simpl; [|by rewrite app_nil_r].
  rewrite List.filter_app. simpl. by rewrite String.eqb_refl.
Qed.

Lemma newest_read d t :
  last (transcript_of d buildId) = Some t ->
  t ∈ messages_of d buildId /\ forall x, x ∈ messages_of d buildId -> m_createdAt x <= m_createdAt t.
Proof.
  unfold transcript_of. intros H.
  assert (Hs : StronglySorted (le_of message_gt) (js_sort message_gt (messages_of d buildId))).
  { eapply js_sort_sorted; [apply (message_order (fun _ => True))|]. by apply Forall_forall. }
  apply last_Some in H as [l E]. rewrite E in Hs. split.
  - rewrite <- (elem_of_js_sort message_gt), E. apply elem_of_app. right. left.
  - intros x Hx. rewrite <- (elem_of_js_sort message_gt), E in Hx.
    apply elem_of_app in Hx as [Hx | ->%list_elem_of_singleton]; [|lia].
    assert (Hle : le_of message_gt x t) by (eapply StronglySorted_app_1_elem_of; [exact Hs|done|left]).
    unfold le_of, message_gt in Hle. apply orb_false_iff in Hle as [Hle _]. lia.
Qed.

Lemma step_inv c c' : Inv c -> step c c' -> Inv c'.
Proof.
  intros [Hs Hv Hw] Hstep.
  destruct Hstep as [d w owner text cid pending env m d' Hsub|d target Hl Hu|d t latest n o id now Ho|d w|d d' w [Hm Hsp]];
    simpl in *.
  - apply submit_created in Hsub as (-> & Hb & Hr & Ht). split; simpl; rewrite ?messages_of_snoc by done.
    + by eapply spaced_submit.
    + done.
    + intros t latest n E. destruct (Hw t latest n E) as (Hin & Hu & Hfree & -> & ->).
      split_and!; try done; [apply elem_of_app; by left|].
      intros x [Hx | ->%list_elem_of_singleton]%elem_of_app; [by apply Hfree|].
      pose proof (next_time_ge (env_clock env) _ _ Hin). lia.
  - apply newest_read in Hl as [Hin Hmax]. split; simpl; [done|done|]. intros t latest n [= <- <- <-].
    split_and!; try done. intros x Hx. specialize (Hmax x Hx). lia.
  - destruct (Hw t latest n eq_refl) as (Hin & Hu & Hfree & -> & ->). split; simpl; [| |done].
    + rewrite messages_written. destruct o; by eapply spaced_reply.
    + rewrite specs_written. destruct o as [d0|]; simpl; [|by rewrite app_nil_r].
      destruct (newVersion d0) eqn:En; [|by rewrite app_nil_r].
      destruct Ho as (turn & v & Hd). apply decide_decided_well in Hd as (Hok & _ & _ & _ & Hq & _).
      apply versioned_snoc; simpl; try done.
      * unfold latestSpec. by rewrite latest_version.
      * unfold asks_questions. simpl. destruct (open_questions (dec_spec d0)) as [|q l] eqn:Eq; [done|]. intros _.
        destruct (Hq q) as (_ & _ & Hlt); [left|]. exact Hlt.
  - split; simpl; [done|done|]. by intros.
  - split; simpl; rewrite ?Hm, ?Hsp; [done|done|]. intros t latest n E. destruct (Hw t latest n E) as (? & ? & ? & -> & ->).
    unfold latestSpec, count_rounds. by rewrite Hsp.
Qed.

Lemma reachable_inv c : reachable c -> Inv c.
Proof.
  induction 1 as [c (Hw & Hs & m & Hm & Hr)|c c' _ IH Hstep]; [|by eapply step_inv].
  split; rewrite ?Hs, ?Hm, ?Hw; [| |done].
  - split; simpl.
    + apply NoDup_singleton.
    + intros r ->%list_elem_of_singleton Ha. congruence.
    + intros u x ->%list_elem_of_singleton ->%list_elem_of_singleton _. lia.
  - split; simpl; [done|lia|by intros ? ?%elem_of_nil].
Qed.

(** C4: However submissions and answers interleave, whatever the clock says and
    however often an answer is given up: no two messages of a build carry the
    same time; every reply stands directly after a user message of its own, one
    microsecond later, so a message never gets two; no submission ever comes
    between a message and its reply; and while an answer is being worked on, its
    place is still free. *)
Theorem one_reply_each c :
  reachable c ->
  spaced (messages_of (cv_db c) buildId) /\
  (forall u r1 r2, r1 ∈ messages_of (cv_db c) buildId -> r2 ∈ messages_of (cv_db c) buildId ->
     m_createdAt r1 = m_createdAt u + 1 -> m_createdAt r2 = m_createdAt u + 1 -> r1 = r2) /\
  (forall t latest n x, cv_working c = Some (t, latest, n) -> x ∈ messages_of (cv_db c) buildId ->
     m_createdAt x <> m_createdAt t + 1).
Proof.
  intros [Hs _ Hw]%reachable_inv. split_and!; [done| |].
  - intros u r1 r2 H1 H2 E1 E2. destruct Hs as [Ht _ _].
    apply list_elem_of_lookup in H1 as [i Hi], H2 as [j Hj].
    assert (i = j) as ->; [|congruence]. apply (NoDup_lookup _ i j (m_createdAt u + 1) Ht).
    + rewrite list_lookup_fmap, Hi. simpl. by rewrite E1.
    + rewrite list_lookup_fmap, Hj. simpl. by rewrite E2.
  - intros t latest n x E Hx. by apply (Hw t latest n E).
Qed.

(** C39: However a conversation goes, its specs are numbered one by one from 1
    with none missing or stored twice, each is one the schema accepts (so the
    next turn reads it back), and at most four of them ever asked a question. *)
Theorem four_rounds c :
  reachable c ->
  versioned (specs_of (cv_db c) buildId) /\
  forall s, latestSpec (cv_db c) buildId = Some s -> sv_version s = length (specs_of (cv_db c) buildId).
Proof.
  intros [_ Hv _]%reachable_inv. split; [done|]. intros s Hs. pose proof (latest_version _ Hv) as H.
  unfold latestSpec in Hs. rewrite Hs in H. exact H.
Qed.
End Conversation.
