(* ===== verification/IntakeWitness.v ===== *)
(** * Intake and model calls on concrete inputs

    The theorems on [decide], [callStructured] and the tool loop applied to a
    first turn, to a provider that fails in every recoverable way before it
    answers, and to a turn that uses a tool. *)
From S2P Require Import Prelude JsString Regex JsNumber Part Assembly MatcherTypes Rules Json Spec Decide DecideSpec.
From S2P Require Import Policy Effects Llm LlmCall LlmCallSpec LlmTools Db Chat Turn Handler.
From S2P Require Import HandlerSpec Conversation.
#[local] Open Scope string_scope.
#[local] Open Scope list_scope.
#[local] Open Scope nat_scope.
(** ** A turn *)
Definition vocabulary : Vocabulary := mkVocabulary ["sense.temperature"; "sense.humidity"] ["env:outdoor"].
Definition no_patch : SpecPatch := mkPatch None None None None None None None None None.
Definition first_patch : SpecPatch :=
  mkPatch (Some (Some ["temperature"], None, None)) None (Some (Some "garden", Some ["env:outdoor"; "moon"])) None None None
    (Some ["sense.temperature "; "make.tea"]) None None.
Definition power_question (text : string) : OpenQuestion := mkQuestion "power.source" text (Some ["Battery"; " Battery "]).
Definition turn_with (text : string) : SpecTurn :=
  mkTurn kind_spec first_patch [power_question text; mkQuestion "colour" "Which colour?" None] ["Indoors is fine"] "Sure.".
Definition first_decision : option Decision := decide_turn None (turn_with "How is it powered?") vocabulary 0.

Lemma decide_correct_witness :
  exists d, first_decision = Some d /\ newVersion d = true /\ length (open_questions (dec_spec d)) = 1 /\
    forall f, f ∈ env_flags (spec_environment (dec_spec d)) -> f ∈ voc_environmentFlags vocabulary.
Proof.
  destruct first_decision as [d|] eqn:E; [|vm_compute in E; discriminate].
  exists d. pose proof (decide_correct None (turn_with "How is it powered?") vocabulary 0 d E) as H. unfold decided_well in H. cbv zeta in H.
  destruct H as (_ & Hf & _). split_and!; [done| | |exact Hf]; vm_compute in E; injection E as <-; reflexivity.
Defined.

Lemma decide_throws_only_on_blank_witness : decide_turn None (turn_with "   ") vocabulary 0 = None.
Proof.
  apply (decide_throws_only_on_blank None (turn_with "   ") vocabulary 0); [done|vm_compute; reflexivity|].
  exists (mkQuestion "power.source" "" (Some ["Battery"])). split; [|reflexivity].
  assert (E : asked_now None (turn_with "   ") 0 = [mkQuestion "power.source" "" (Some ["Battery"])])
    by (vm_compute; reflexivity).
  rewrite E. left.
Defined.

(** ** A structured call *)
Definition route : LlmRoute := mkRoute "intake.extract.v1" "intake" "Extract." (Some "Parts.") medium (of_Z 8000) (of_Z 16000).
Definition counts : TokenCounts := mkCounts (of_Z 100) (of_Z 20) None None None.
Definition reply (stop text : string) : LlmResponse :=
  mkResponse "claude-opus-5" (Some stop) [BText text] (mkUsage counts None).
Definition parse_one (s : string) : string + json := if s ==s "{}" then inr (JObj []) else inl "Unexpected token".
Definition accept (v : json) : list Issue + json := inr v.
Definition dropped : ErrorInfo := mkError true "Error" (Some "APIConnectionError") None Absent Absent [None; Some "ENOTFOUND"].

(** A provider that never connects, then truncates, then writes prose, then
    answers; [n] requests have been sent. *)
Definition provider (e : CallE unit unit) (n : nat) : CallA e * nat :=
  match e return CallA e * nat with
  | Aborted => (false, n)
  | CeilingUsed => (Some (of_Z 500), n)
  | Create _ =>
      (match n with
       | 0 => inr (Failure dropped)
       | 1 => inl (reply "max_tokens" "{")
       | 2 => inl (reply "end_turn" "Here you go")
       | _ => inl (reply "end_turn" "{}")
       end, S n)
  | Record_ _ => (None, n)
  | MeterError _ => (tt, n)
  | Pause _ => (tt, n)
  end.

Definition one_call : prog (E := CallE unit unit) CallA (outcome Rejection (CallResult json)) :=
  callStructured parse_one accept route "claude-opus-5" tt [mkMessage role_user (CText "A sensor")] (Some (of_Z 1000)).
Definition one_run : list (event (E := CallE unit unit) CallA) * nat * outcome Rejection (CallResult json) :=
  exec provider 0 one_call.

Lemma one_run_runs : runs one_call one_run.1.1 one_run.2.
Proof. apply exec_is_run. Qed.

Lemma callStructured_result_witness :
  one_run.2 = Value (Success (JObj []) 3) /\
  justified (T := json) parse_one accept (Some (of_Z 1000)) (responses one_run.1.1) (Value (Success (JObj []) 3)).
Proof.
  assert (E : one_run.2 = Value (Success (JObj []) 3)) by (vm_compute; reflexivity). split; [exact E|].
  rewrite <- E. exact (proj1 (callStructured_result _ _ _ _ _ _ _ _ _ one_run_runs)).
Defined.

Lemma callStructured_bounded_witness : pauses one_run.1.1 = [1000] /\ requests_sent one_run.1.1 <= 6.
Proof.
  split; [vm_compute; reflexivity|].
  exact (proj1 (proj2 (proj2 (callStructured_bounded _ _ _ _ _ _ _ _ _ one_run_runs)))).
Defined.

Lemma callStructured_guarded_witness : length one_run.1.1 = 17 /\ linked (Some (of_Z 1000)) None one_run.1.1.
Proof. split; [vm_compute; reflexivity|]. exact (callStructured_guarded _ _ _ _ _ _ _ _ _ one_run_runs). Defined.

(** ** A tool *)
Definition uses_tool : LlmResponse :=
  mkResponse "claude-opus-5" (Some "tool_use")
    [BText "Looking"; BToolUse "t1" "query" (JObj []); BToolUse "t2" "missing" (JObj [])] (mkUsage counts None).
Definition tool_world (e : ToolE unit) (n : nat) : ToolA e * nat :=
  match e return ToolA e * nat with
  | Signal => (false, n)
  | CreateT _ => (Some (match n with 0 => uses_tool | _ => reply "end_turn" " 21 degrees " end), S n)
  | OnResponse _ => (tt, n)
  | Execute _ _ => (Returned (Some (JNum (of_Z 21))) None, n)
  | OnToolCall _ _ => (tt, n)
  end.
Definition tool_prog : prog (E := ToolE unit) ToolA (outcome ToolRejection ToolLoopOutcome) :=
  runToolLoop route "claude-opus-5" (of_Z 1000) [] ["query"] 4 [mkMessage role_user (CText "How warm is it?")].
Definition tool_run : list (event (E := ToolE unit) ToolA) * nat * outcome ToolRejection ToolLoopOutcome :=
  exec tool_world 0 tool_prog.

Lemma tool_run_runs : runs tool_prog tool_run.1.1 tool_run.2.
Proof. apply exec_is_run. Qed.

Lemma runToolLoop_correct_witness :
  tool_run.2 = Value (LlmTools.Answered "21 degrees" 2 2) /\ requests tool_run.1.1 <= 4.
Proof.
  split; [vm_compute; reflexivity|].
  exact (proj1 (proj2 (runToolLoop_correct _ _ _ _ _ _ _ _ _ tool_run_runs))).
Defined.

(** ** The chat store *)
Definition anyone : Owner := mkOwner None (Some "hash").
Definition env0 : TxEnv := mkEnv 1000000 1000000 "00000000-0000-4000-8000-000000000001" "00000000-0000-4000-8000-000000000002".
Definition empty_db : Db := mkDb [] [] [] [].
Definition admit_all (b : bool) : option unit := None.
Definition created_once := createBuild anyone "A soil sensor" (Some "c1") admit_all env0 empty_db.

Lemma createBuild_once_witness :
  exists b m d', created_once = (Ok (Created b m), d') /\
    createBuild anyone "again" (Some "c1") admit_all env0 d' = (Ok (Replayed b), d').
Proof.
  destruct created_once as [[[b m|b]|x] d'] eqn:E; try (vm_compute in E; discriminate).
  exists b, m, d'. split; [reflexivity|].
  refine (proj2 (proj2 (proj2 (proj2 (createBuild_once anyone "A soil sensor" "c1" admit_all env0 empty_db _ _) b m d' E)))
            _ _ _ _); [by right|by split; intros ? ?%elem_of_nil].
Defined.

Lemma cursor_roundtrip_witness :
  let m := mkMsg "00000000-0000-4000-8000-000000000002" "b" user "hi" None 1770000000123456%Z in
  parseCursor (Some "1770000000123456.00000000-0000-4000-8000-000000000002") = Some (cursor_of m).
Proof.
  intros m. refine (proj1 (cursor_roundtrip m m _)). split; [vm_compute; split; congruence|vm_compute; reflexivity].
Defined.

(** ** A turn, an answer and a conversation on concrete inputs *)
#[local] Open Scope string_scope.
#[local] Open Scope list_scope.
#[local] Open Scope Z_scope.
(** ** A turn the model answers *)
Definition parse_first (v : json) : list Issue + SpecTurn := inr (turn_with "How is it powered?").
Definition prompts : Prompts := mkPrompts "Extract." "Round {{rounds_used}} of {{max_rounds}}: {{round_rule}}".
Definition turn_context : TurnContext unit := mkTurnContext "claude-opus-5" medium prompts (of_Z 1000) tt.
Definition first_input : TurnInput := mkTurnInput [mkLine user "A soil sensor"] None 0.
Definition a_turn := runTurn (fun s => s) parse_one parse_first turn_context first_input.
Definition turn_world (e : TurnE unit) (n : nat) : TurnA e * nat :=
  match e return TurnA e * nat with
  | Catalogue => (Some ("Parts.", vocabulary), n)
  | InCall e => provider e n
  end.
Definition turn_run := exec turn_world 0%nat a_turn.

Lemma turn_run_runs : runs a_turn turn_run.1.1 turn_run.2.
Proof. unfold turn_run. apply exec_is_run. Qed.

Lemma runTurn_correct_witness :
  match turn_run.2 with Value (OSpec d) => newVersion d = true | _ => False end /\
  explained (fun s => s) parse_one parse_first turn_context first_input turn_run.1.1 turn_run.2.
Proof.
  split; [vm_compute; reflexivity|].
  exact (proj1 (runTurn_correct _ _ _ _ _ _ _ turn_run_runs)).
Defined.

(** ** An answer, with a later message while the turn ran *)
Definition hello : Message := mkMsg "m1" "b1" user "A soil sensor" None 1000000.
Definition greeting : Message := mkMsg "m2" "b1" assistant "Hello" None 1000001.
Definition more : Message := mkMsg "m3" "b1" user "And humidity" None 2000000.
Definition turn_reply (input : TurnInput) : outcome TurnError TurnOutcome :=
  match decide_turn (ti_previous input) (turn_with "How is it powered?") vocabulary (ti_roundsUsed input) with
  | Some d => Value (OSpec d)
  | None => Throws SpecInvalid
  end.

(** The clock runs down by a second per reading; [n] replies are written. *)
Definition handler_world (e : HandlerE) (s : Z * nat) : HandlerA e * (Z * nat) :=
  let '(t, n) := s in
  match e return HandlerA e * (Z * nat) with
  | Connect => (true, s)
  | Remaining => (t - 1000, (t - 1000, n))
  | FindBuild => (Got true, s)
  | FindOwner => (Got true, s)
  | TryLock => (Got true, s)
  | Unlock => (Got tt, s)
  | SetSpecifying => (Got tt, s)
  | CloseTurn _ => (Got tt, s)
  | LatestRole => (Got (Some assistant), s)
  | ReadTranscript => (Got (match n with O => [hello] | S O => [hello; greeting; more] | _ => [hello; greeting] end), s)
  | ReadSpec => (Got None, s)
  | CountRounds => (Got O, s)
  | RunTurn input _ => (Some (Some (turn_reply input)), s)
  | Write _ => (Got "m4", (t, S n))
  | CloseHandles withinMs => (0 <? withinMs, s)
  | Release _ => (tt, s)
  end.
Definition an_answer := handleTurn 90000 None true 5.
Definition answer_run := exec handler_world (100000, O) an_answer.

Lemma answer_run_runs : runs an_answer answer_run.1.1 answer_run.2.
Proof. unfold answer_run. apply exec_is_run. Qed.

Lemma answer_run_fair : assumed fair next watched answer_run.1.1.
Proof.
  apply exec_assumed with (I := fun w m => forall c, mo_clock m = Some c -> w.1 <= c).
  - intros e [t n] m Hi. destruct e; simpl in *; try done.
    + split; [intros c Hc; specialize (Hi c Hc); lia|]. intros c [= <-]. lia.
    + split; [|done]. intros. by apply Z.ltb_ge.
  - done.
Qed.

Lemma handleTurn_disciplined_witness :
  answer_run.2 = Value (Reply (mkAnswered "m4" (Some 1%nat) asking)) /\
  concluded 5 (Value (Reply (mkAnswered "m4" (Some 1%nat) asking))) (after next watched answer_run.1.1).
Proof.
  assert (E : answer_run.2 = Value (Reply (mkAnswered "m4" (Some 1%nat) asking))) by (vm_compute; reflexivity).
  split; [exact E|]. rewrite <- E.
  exact (proj2 (handleTurn_disciplined 90000 None true (default_reserve 90000) 5 _ _ answer_run_runs answer_run_fair)).
Defined.

(** ** A conversation: a submission while the first message is answered *)
Definition build_id : string := "00000000-0000-4000-8000-000000000001".
Definition the_build : Build := mkBuild build_id None (Some "hash") st_asking "A soil sensor" 1000000 1000000.
Definition ask : Message := mkMsg "00000000-0000-4000-8000-000000000002" build_id user "A soil sensor" None 1000000.
Definition late : Message := mkMsg (env_id1 env0) build_id user "And humidity" (Some "c2") 1000002.
Definition opened_db : Db := mkDb [the_build] [ask] [] [].
Definition started : Conversation := mkConversation opened_db None.
Definition reading : Conversation := mkConversation opened_db (Some (ask, None, O)).
Definition submitted : Conversation := mkConversation (with_messages opened_db [ask; late]) (Some (ask, None, O)).
Definition first_outcome : TurnOutcome := match first_decision with Some d => OSpec d | None => OReply r_error "" None end.
Definition replied : Conversation :=
  mkConversation (write_answer build_id "m2" 3000000 (answer_of ask None first_outcome) (cv_db submitted)) None.

Lemma replied_reachable : reachable build_id replied.
Proof.
  apply reach_step with submitted; [apply reach_step with reading; [apply reach_step with started|]|].
  - apply reach_opened. split_and!; [done|done|]. by exists ask.
  - apply step_read; done.
  - apply (step_submit build_id opened_db _ anyone "And humidity" "c2" 0 env0 late). vm_compute. reflexivity.
  - apply step_write. unfold first_outcome. destruct first_decision as [d|] eqn:E; [|done].
    exists (turn_with "How is it powered?"), vocabulary. exact E.
Qed.

Lemma one_reply_each_witness :
  (m_createdAt <$> messages_of (cv_db replied) build_id) = [1000000; 1000002; 1000001] /\
  spaced (messages_of (cv_db replied) build_id).
Proof.
  split; [vm_compute; reflexivity|]. exact (proj1 (one_reply_each build_id _ replied_reachable)).
Defined.

Lemma four_rounds_witness :
  length (List.filter asks_questions (specs_of (cv_db replied) build_id)) = 1%nat /\
  versioned (specs_of (cv_db replied) build_id).
Proof.
  split; [vm_compute; reflexivity|]. exact (proj1 (four_rounds build_id _ replied_reachable)).
Defined.
