(* ===== verification/Auth.v ===== *)
(** * Sign-in ([apps/gateway/src/auth-store.ts])

    Email codes, users, tenants, members and sessions, and the transactions on
    them. [issueCode] and [verifyCode] hold a lock per email from before their
    first read to their commit, so each is one function of the tables. Dates of
    the code are milliseconds, timestamps of the tables microseconds. The hash
    is a parameter. *)
From S2P Require Import Prelude JsString Spec Db.
#[local] Open Scope string_scope.
#[local] Open Scope list_scope.
#[local] Open Scope Z_scope.

(** ** The tables ([packages/db/src/schema/users.ts]) *)
Record EmailCode := mkCode {
  ec_id : string;
  ec_email : string;
  ec_codeHash : string;
  ec_expiresAt : Z;
  ec_attempts : nat;
  ec_consumedAt : option Z;
  ec_createdAt : Z
}.

Record UserRow := mkUser { us_id : string; us_email : string }.
Record TenantRow := mkTenant { tn_id : string; tn_name : string; tn_slug : option string }.

Inductive TenantRole := role_admin | role_operator | role_viewer.
Record MemberRow := mkMember { mb_tenantId : string; mb_userId : string; mb_role : TenantRole; mb_createdAt : Z }.

Record SessionRow := mkSession {
  ss_id : string;
  ss_tokenHash : string;
  ss_userId : string;
  ss_activeTenantId : string;
  ss_parentSessionId : option string;
  ss_expiresAt : Z;
  ss_revokedAt : option Z
}.

Record AuthDb := mkAuth {
  t_codes : list EmailCode;
  t_users : list UserRow;
  t_tenants : list TenantRow;
  t_members : list MemberRow;
  t_sessions : list SessionRow;
  t_chat : Db
}.

Definition with_codes d l := mkAuth l (t_users d) (t_tenants d) (t_members d) (t_sessions d) (t_chat d).
Definition with_users d l := mkAuth (t_codes d) l (t_tenants d) (t_members d) (t_sessions d) (t_chat d).
Definition with_tenants d l m := mkAuth (t_codes d) (t_users d) l m (t_sessions d) (t_chat d).
Definition with_sessions d l := mkAuth (t_codes d) (t_users d) (t_tenants d) (t_members d) l (t_chat d).
Definition with_chat d c := mkAuth (t_codes d) (t_users d) (t_tenants d) (t_members d) (t_sessions d) c.

Definition micros (ms : Z) : Z := ms * 1000.

(** ** Emails *)

(** [toLowerCase], on the letters of Latin-1; [lower] of the database agrees on
    what it left. *)
Definition lower_char (c : ascii) : ascii :=
  if in_range "A" "Z" c || (Nat.leb 192 (code c) && Nat.leb (code c) 222 && negb (Nat.eqb (code c) 215))
  then ascii_of_nat (code c + 32) else c.
Fixpoint lower (s : string) : string :=
  match s with EmptyString => EmptyString | String c s => String (lower_char c) (lower s) end.
Definition normalizeEmail (email : string) : string := lower (trim email).

Definition CODE_TTL_MS : Z := 10 * 60000.
Definition CODE_MAX_ATTEMPTS : nat := 5.
Definition PERSONAL_TENANT_NAME : string := "Personal".

Section Hash.
Context (sha256 : string -> string).

Definition hashCode (codeId code : string) : string := sha256 (codeId ++ ":" ++ code)%string.
Definition hashSessionToken (token : string) : string := sha256 token.

(** ** [issueCode] *)

(** A random code and row id, the caller's clock, the transaction's timestamp. *)
Record IssueEnv := mkIssue { is_now : Z; is_dbNow : Z; is_id : string; is_code : string }.

Definition consume (now : Z) (c : EmailCode) : EmailCode :=
  mkCode (ec_id c) (ec_email c) (ec_codeHash c) (ec_expiresAt c) (ec_attempts c) (Some (micros now)) (ec_createdAt c).
Definition unconsumed (c : EmailCode) : bool := match ec_consumedAt c with None => true | Some _ => false end.

Definition issueCode (rawEmail : string) (env : IssueEnv) (d : AuthDb) : (string * Z) * AuthDb :=
  let email := normalizeEmail rawEmail in
  let expiresAt := is_now env + CODE_TTL_MS in
  let codes := (fun c => if (ec_email c ==s email) && unconsumed c then consume (is_now env) c else c) <$> t_codes d in
  let c := mkCode (is_id env) email (hashCode (is_id env) (is_code env)) (micros expiresAt) 0 None (is_dbNow env) in
  ((is_code env, expiresAt), with_codes d (codes ++ [c])).

(** ** Memberships *)
Record TenantMembership := mkMembership {
  tm_id : string; tm_name : string; tm_slug : option string; tm_memberRole : TenantRole; tm_since : Z }.

(** [order by tenant_members.created_at, tenants.id] *)
Definition member_gt (a b : TenantMembership) : bool :=
  (tm_since b <? tm_since a) || ((tm_since a =? tm_since b) && text_gt (tm_id a) (tm_id b)).
Definition join_tenant (d : AuthDb) (m : MemberRow) : list TenantMembership :=
  (fun t => mkMembership (tn_id t) (tn_name t) (tn_slug t) (mb_role m) (mb_createdAt m)) <$>
    List.filter (fun t => tn_id t ==s mb_tenantId m) (t_tenants d).
Definition membershipsOf (d : AuthDb) (userId : string) : list TenantMembership :=
  js_sort member_gt (flat_map (join_tenant d) (List.filter (fun m => mb_userId m ==s userId) (t_members d))).

(** [strip] drops [tm_since], which no answer shows. *)
Record Me := mkMe { me_userId : string; me_email : string; me_tenant : TenantMembership; me_tenants : list TenantMembership }.

Definition meOf (d : AuthDb) (account : UserRow) (activeTenantId : string) : option Me :=
  let memberships := membershipsOf d (us_id account) in
  match List.find (fun m => tm_id m ==s activeTenantId) memberships with
  | None => None
  | Some active => Some (mkMe (us_id account) (us_email account) active memberships)
  end.

(** ** Sessions *)
Definition alive (now : Z) (s : SessionRow) : bool :=
  match ss_revokedAt s with None => now <? ss_expiresAt s | Some _ => false end.

Definition user_of (d : AuthDb) (id : string) : option UserRow := List.find (fun u => us_id u ==s id) (t_users d).

Definition liveSession (d : AuthDb) (now : Z) (token : string) : option (SessionRow * UserRow) :=
  match List.find (fun s => (ss_tokenHash s ==s hashSessionToken token) && alive now s) (t_sessions d) with
  | None => None
  | Some s => (fun u => (s, u)) <$> user_of d (ss_userId s)
  end.

Definition is_member (d : AuthDb) (tenantId userId : string) : bool :=
  existsb (fun m => (mb_tenantId m ==s tenantId) && (mb_userId m ==s userId)) (t_members d).

Definition sessionTenantIn (d : AuthDb) (now : Z) (token : string) : option string :=
  ss_activeTenantId <$>
    List.find (fun s => (ss_tokenHash s ==s hashSessionToken token) && alive now s &&
                        is_member d (ss_activeTenantId s) (ss_userId s)) (t_sessions d).

Definition me (d : AuthDb) (now : Z) (token : string) : option Me :=
  liveSession d now token ≫= fun '(s, u) => meOf d u (ss_activeTenantId s).

(** ** [verifyCode] *)
Record VerifyInput := mkVerify {
  vi_email : string;
  vi_code : string;
  vi_anonOwnerHash : option string;
  vi_currentSessionToken : option string;
  vi_sessionMaxAgeS : Z
}.
Record VerifyEnv := mkVerifyEnv {
  ve_now : Z;
  ve_dbNow : Z;
  ve_userId : string;
  ve_newTenantId : string;
  ve_sessionId : string;
  ve_token : string
}.
Inductive VerifyResult :=
| Verified (m : Me) (sessionToken : string) (claimedBuilds claimedCalls : nat)
| RejectedCode.
Inductive VerifyError := UserRowMissing | ActiveTenantMissing.

(** [order by created_at desc limit 1] of the live codes. *)
Definition code_older (a b : EmailCode) : bool := ec_createdAt a <? ec_createdAt b.
Definition live_code (d : AuthDb) (email : string) (now : Z) : option EmailCode :=
  head (js_sort code_older
    (List.filter (fun c => (ec_email c ==s email) && unconsumed c && (micros now <? ec_expiresAt c)) (t_codes d))).

Definition miss (now : Z) (c : EmailCode) : EmailCode :=
  let attempts := S (ec_attempts c) in
  mkCode (ec_id c) (ec_email c) (ec_codeHash c) (ec_expiresAt c) attempts
    (if Nat.leb CODE_MAX_ATTEMPTS attempts then Some (micros now) else ec_consumedAt c) (ec_createdAt c).
Definition update_code (d : AuthDb) (id : string) (f : EmailCode -> EmailCode) : AuthDb :=
  with_codes d ((fun c => if ec_id c ==s id then f c else c) <$> t_codes d).

(** [insert ... on conflict do nothing], then the row by its lowered email. *)
Definition ensure_user (d : AuthDb) (email id : string) : AuthDb :=
  if existsb (fun u => lower (us_email u) ==s lower email) (t_users d) then d
  else with_users d (t_users d ++ [mkUser id email]).
Definition user_by_email (d : AuthDb) (email : string) : option UserRow :=
  List.find (fun u => lower (us_email u) ==s email) (t_users d).

(** The personal tenant of a first sign-in. *)
Definition ensure_tenant (d : AuthDb) (userId tenantId : string) (dbNow : Z) : AuthDb :=
  match membershipsOf d userId with
  | [] => with_tenants d (t_tenants d ++ [mkTenant tenantId PERSONAL_TENANT_NAME None])
            (t_members d ++ [mkMember tenantId userId role_admin dbNow])
  | _ => d
  end.

(** The tenant of the current session, when it is the same user's and still
    theirs; the oldest membership otherwise. *)
Definition active_tenant (d : AuthDb) (now : Z) (userId : string) (currentSessionToken : option string) : option string :=
  let memberships := membershipsOf d userId in
  match currentSessionToken ≫= liveSession d now with
  | Some (s, u) =>
      if (us_id u ==s userId) && existsb (fun m => tm_id m ==s ss_activeTenantId s) memberships
      then Some (ss_activeTenantId s) else tm_id <$> head memberships
  | None => tm_id <$> head memberships
  end.

Definition claims_build (h : string) (b : Build) : bool :=
  bool_decide (b_anonOwnerHash b = Some h) && bool_decide (b_tenantId b = None).
Definition claim_build (tenantId : string) (now : Z) (b : Build) : Build :=
  mkBuild (b_id b) (Some tenantId) None (b_status b) (b_askText b) (b_createdAt b) (micros now).
Definition claims_call (h : string) (c : LlmCall) : bool :=
  bool_decide (lc_anonOwnerHash c = Some h) && bool_decide (lc_tenantId c = None).
Definition claim_call (tenantId : string) (c : LlmCall) : LlmCall :=
  mkLlmCall (lc_id c) (lc_buildId c) (Some tenantId) None (lc_inputTokens c) (lc_outputTokens c) (lc_cacheRead c) (lc_cacheCreation c).

Definition claim_builds (tenantId h : string) (now : Z) (d : Db) : Db :=
  with_builds d ((fun b => if claims_build h b then claim_build tenantId now b else b) <$> t_builds d).
Definition claim_calls (tenantId h : string) (d : Db) : Db :=
  with_llmCalls d ((fun c => if claims_call h c then claim_call tenantId c else c) <$> t_llmCalls d).
Definition claim (tenantId h : string) (now : Z) (d : Db) : Db :=
  claim_calls tenantId h (claim_builds tenantId h now d).

(** The code's transaction: an error rolls it back, a rejection is committed. *)
Definition sign_in (i : VerifyInput) (env : VerifyEnv) (email : string) (d : AuthDb)
    : result VerifyError (VerifyResult * AuthDb) :=
  let d := ensure_user d email (ve_userId env) in
  match user_by_email d email with
  | None => Err UserRowMissing
  | Some account =>
      let d := ensure_tenant d (us_id account) (ve_newTenantId env) (ve_dbNow env) in
      match active_tenant d (ve_dbNow env) (us_id account) (vi_currentSessionToken i) with
      | None => Err ActiveTenantMissing
      | Some activeTenantId =>
          let d := with_sessions d (t_sessions d ++
            [mkSession (ve_sessionId env) (hashSessionToken (ve_token env)) (us_id account) activeTenantId None
               (micros (ve_now env + vi_sessionMaxAgeS i * 1000)) None]) in
          let '(d, nb, nc) :=
            match vi_anonOwnerHash i with
            | None => (d, O, O)
            | Some h => (with_chat d (claim activeTenantId h (ve_now env) (t_chat d)),
                         length (List.filter (claims_build h) (t_builds (t_chat d))),
                         length (List.filter (claims_call h) (t_llmCalls (t_chat d))))
            end in
          match meOf d account activeTenantId with
          | None => Err ActiveTenantMissing
          | Some m => Ok (Verified m (ve_token env) nb nc, d)
          end
      end
  end.

Definition verifyCode (i : VerifyInput) (env : VerifyEnv) (d : AuthDb) : result VerifyError VerifyResult * AuthDb :=
  let email := normalizeEmail (vi_email i) in
  match live_code d email (ve_now env) with
  | None => (Ok RejectedCode, d)
  | Some live =>
      if negb (hashCode (ec_id live) (vi_code i) ==s ec_codeHash live)
      then (Ok RejectedCode, update_code d (ec_id live) (miss (ve_now env)))
      else match sign_in i env email (update_code d (ec_id live) (consume (ve_now env))) with
           | Ok (r, d') => (Ok r, d')
           | Err e => (Err e, d)
           end
  end.

(** ** Signing out and switching *)

(** [with recursive]: a session and its parents; a fuel of one step per row is
    enough when parents are stored before their children ([AuthSpec.forest]). *)
Definition session_by_id (l : list SessionRow) (id : string) : option SessionRow :=
  List.find (fun s => ss_id s ==s id) l.
Fixpoint ancestors (fuel : nat) (l : list SessionRow) (id : string) : list SessionRow :=
  match fuel with
  | O => []
  | S fuel =>
      match session_by_id l id with
      | None => []
      | Some s => s :: match ss_parentSessionId s with Some p => ancestors fuel l p | None => [] end
      end
  end.
Definition up (l : list SessionRow) (id : string) : list SessionRow := ancestors (length l) l id.

Definition children (l : list SessionRow) (ids : list string) : list string :=
  ss_id <$> List.filter (fun s => match ss_parentSessionId s with Some p => inb p ids | None => false end) l.
Fixpoint descendants (fuel : nat) (l : list SessionRow) (ids : list string) : list string :=
  match fuel with
  | O => []
  | S fuel => ids ++ descendants fuel l (children l ids)
  end.
Definition is_root (s : SessionRow) : bool := match ss_parentSessionId s with None => true | Some _ => false end.
Definition family (l : list SessionRow) (id : string) : list string :=
  descendants (length l) l (ss_id <$> List.filter is_root (up l id)).

Definition revoked (now : Z) (s : SessionRow) : SessionRow :=
  mkSession (ss_id s) (ss_tokenHash s) (ss_userId s) (ss_activeTenantId s) (ss_parentSessionId s) (ss_expiresAt s) (Some now).
Definition unrevoked (s : SessionRow) : bool := match ss_revokedAt s with None => true | Some _ => false end.

Definition revokeSessionFamily (token : string) (now : Z) (d : AuthDb) : nat * AuthDb :=
  match liveSession d now token with
  | None => (O, d)
  | Some (s, _) =>
      let ids := family (t_sessions d) (ss_id s) in
      let hit s := inb (ss_id s) ids && unrevoked s in
      (length (List.filter hit (t_sessions d)),
       with_sessions d ((fun s => if hit s then revoked now s else s) <$> t_sessions d))
  end.

Inductive SwitchResult := Switched | Unauthenticated | Forbidden.

(** The family of [switchTenant] and [withSession]: the session and its
    parents. *)
Definition valid_chain (now : Z) (userId : string) (chain : list SessionRow) : bool :=
  forallb (fun s => alive now s && (ss_userId s ==s userId)) chain.

Definition switchTenant (token tenantId : string) (now : Z) (d : AuthDb) : SwitchResult * AuthDb :=
  match List.find (fun s => ss_tokenHash s ==s hashSessionToken token) (t_sessions d) with
  | None => (Unauthenticated, d)
  | Some s =>
      if negb (valid_chain now (ss_userId s) (up (t_sessions d) (ss_id s))) then (Unauthenticated, d)
      else if negb (is_member d tenantId (ss_userId s)) then (Forbidden, d)
      else if alive now s
      then (Switched, with_sessions d ((fun x =>
             if ss_id x ==s ss_id s
             then mkSession (ss_id x) (ss_tokenHash x) (ss_userId x) tenantId (ss_parentSessionId x) (ss_expiresAt x) (ss_revokedAt x)
             else x) <$> t_sessions d))
      else (Unauthenticated, d)
  end.

(** ** [withSession] ([apps/gateway/src/session.ts]): who a request acts as *)
Inductive Denied := SignInRequired | UnknownTenantHost | UnknownTenant | MembershipRequired | WorkspaceChanged | RoleRequired.

Definition session_of (d : AuthDb) (now : Z) (hash : string) : option SessionRow :=
  match List.find (fun s => ss_tokenHash s ==s hash) (t_sessions d) with
  | None => None
  | Some s => if valid_chain now (ss_userId s) (up (t_sessions d) (ss_id s)) then Some s else None
  end.

Definition request_tenant (d : AuthDb) (slug : option string) (s : SessionRow) : option TenantRow :=
  List.find (fun t => match slug with
                      | None => tn_id t ==s ss_activeTenantId s
                      | Some slug => bool_decide (tn_slug t = Some slug)
                      end) (t_tenants d).

Definition authorize (d : AuthDb) (now : Z) (hash : string) (slug : option string) : result Denied (string * string) :=
  match session_of d now hash with
  | None => Err SignInRequired
  | Some s =>
      match request_tenant d slug s with
      | None => Err UnknownTenant
      | Some t => if is_member d (tn_id t) (ss_userId s) then Ok (tn_id t, ss_userId s) else Err MembershipRequired
      end
  end.

(** [withPublicTenant]: the configured tenant, when it exists. *)
Definition public_tenant (d : AuthDb) (tenantId : string) : result Denied string :=
  match List.find (fun t => tn_id t ==s tenantId) (t_tenants d) with
  | Some t => Ok (tn_id t)
  | None => Err UnknownTenant
  end.
End Hash.
