(* ===== verification/AuthSpec.v ===== *)
(** * What sign-in guarantees

    Guesses at a code over any history, what a sign-in leaves behind, and what
    a sign-out takes away. *)
From S2P Require Import Prelude JsString Spec Db Auth.
#[local] Open Scope string_scope.
#[local] Open Scope list_scope.
#[local] Open Scope nat_scope.

(** ** Guesses *)
Section Guesses.
Context (sha256 : string -> string).

(** What a verification showed about the live code: its id and whether the code
    was right. *)
Definition shown (i : VerifyInput) (env : VerifyEnv) (d : AuthDb) : list (string * bool) :=
  match live_code d (normalizeEmail (vi_email i)) (ve_now env), (verifyCode sha256 i env d).1 with
  | Some c, Ok (Verified _ _ _ _) => [(ec_id c, true)]
  | Some c, Ok RejectedCode => [(ec_id c, false)]
  | _, _ => []
  end.

(** A history of answered guesses and the tables after it. *)
Inductive code_step : list (string * bool) * AuthDb -> list (string * bool) * AuthDb -> Prop :=
| code_issue h d email env :
    (forall c, c ∈ t_codes d -> ec_id c <> is_id env) -> code_step (h, d) (h, (issueCode sha256 email env d).2)
| code_verify h d i env : code_step (h, d) (h ++ shown i env d, (verifyCode sha256 i env d).2)
| code_elsewhere h d d' : t_codes d' = t_codes d -> code_step (h, d) (h, d').

Inductive code_history : list (string * bool) * AuthDb -> Prop :=
| history_start d : t_codes d = [] -> code_history ([], d)
| history_step s s' : code_history s -> code_step s s' -> code_history s'.

End Guesses.

Definition answers_of (h : list (string * bool)) (id : string) : list bool :=
  snd <$> List.filter (fun e => e.1 ==s id) h.

Lemma answers_app h1 h2 id : answers_of (h1 ++ h2) id = answers_of h1 id ++ answers_of h2 id.
Proof. unfold answers_of. by rewrite List.filter_app, fmap_app. Qed.

Lemma answers_one x b id : answers_of [(x, b)] id = if x ==s id then [b] else [].
Proof. unfold answers_of. simpl. by destruct (x ==s id). Qed.

(** A code's row agrees with the guesses answered on it. *)
Definition counted (h : list (string * bool)) (c : EmailCode) : Prop :=
  exists hit : bool,
    answers_of h (ec_id c) = replicate (ec_attempts c) false ++ (if hit then [true] else []) /\
    ec_attempts c + (if hit then 1 else 0) <= CODE_MAX_ATTEMPTS /\
    (unconsumed c = true -> hit = false /\ ec_attempts c < CODE_MAX_ATTEMPTS).

Record CodesOk (h : list (string * bool)) (l : list EmailCode) : Prop := {
  co_ids : NoDup (ec_id <$> l);
  co_counted : Forall (counted h) l;
  co_known : forall e, e ∈ h -> e.1 ∈ ec_id <$> l;
  co_single : forall c c', c ∈ l -> c' ∈ l -> ec_email c = ec_email c' -> unconsumed c = true -> unconsumed c' = true -> c = c'
}.

Lemma answers_unknown h (l : list EmailCode) id :
  (forall e, e ∈ h -> e.1 ∈ ec_id <$> l) -> id ∉ ec_id <$> l -> answers_of h id = [].
Proof.
  intros Hk Hid. unfold answers_of. assert (E : List.filter (fun e => e.1 ==s id) h = []); [|by rewrite E].
  destruct (List.filter _ _) as [|e l'] eqn:E; [done|]. assert (He : e ∈ e :: l') by left. rewrite <- E in He.
  apply elem_of_listfilter in He as [Hin Heq]. apply String.eqb_eq in Heq. subst. by specialize (Hk e Hin).
Qed.

Lemma same_code (l : list EmailCode) c c' : NoDup (ec_id <$> l) -> c ∈ l -> c' ∈ l -> ec_id c = ec_id c' -> c = c'.
Proof.
  intros Hn [i Hi]%list_elem_of_lookup [j Hj]%list_elem_of_lookup E.
  assert (i = j) as ->; [|congruence]. apply (NoDup_lookup _ i j (ec_id c) Hn); rewrite list_lookup_fmap, ?Hi, ?Hj; simpl; by rewrite ?E.
Qed.

(** Rows change but keep their ids, emails and, when consumed, their state. *)
Lemma codes_update h h' (f : EmailCode -> EmailCode) l :
  CodesOk h l ->
  (forall c, ec_id (f c) = ec_id c /\ ec_email (f c) = ec_email c) ->
  (forall c, unconsumed (f c) = true -> unconsumed c = true) ->
  (forall c, c ∈ l -> counted h c -> counted h' (f c)) ->
  (forall e, e ∈ h' -> e.1 ∈ ec_id <$> l) ->
  CodesOk h' (f <$> l).
Proof.
  intros [Hn Hc Hk Hs] Hf Hu Hcf Hk'. assert (E : ec_id <$> (f <$> l) = ec_id <$> l).
  { rewrite <- list_fmap_compose. apply list_fmap_ext. intros i c _. apply Hf. }
  split; rewrite ?E; try done.
  - rewrite Forall_fmap. rewrite Forall_forall in Hc |- *. intros c Hin. apply Hcf; [done|]. by apply Hc.
  - intros c c' (x & -> & Hx)%list_elem_of_fmap (y & -> & Hy)%list_elem_of_fmap He Hux Huy.
    destruct (Hf x) as [_ Ex], (Hf y) as [_ Ey]. f_equal. apply Hs; try done; [congruence|by apply Hu|by apply Hu].
Qed.

Lemma live_code_spec d email now c :
  live_code d email now = Some c -> c ∈ t_codes d /\ ec_email c = email /\ unconsumed c = true.
Proof.
  unfold live_code. intros H. assert (Hin : c ∈ js_sort code_older
    (List.filter (fun c => (ec_email c ==s email) && unconsumed c && (micros now <? ec_expiresAt c)%Z) (t_codes d))).
  { destruct (js_sort _ _); [done|]. injection H as ->. left. }
  rewrite elem_of_js_sort, elem_of_listfilter, !andb_true_iff, String.eqb_eq in Hin. tauto.
Qed.

Section History.
Context (sha256 : string -> string).

Lemma counted_other h c x b : x <> ec_id c -> counted h c -> counted (h ++ [(x, b)]) c.
Proof.
  intros Hne (hit & Ha & Hr). exists hit. split; [|done]. rewrite answers_app, answers_one.
  assert (E : (x ==s ec_id c) = false) by (by apply String.eqb_neq). by rewrite E, app_nil_r.
Qed.

Lemma counted_miss h c now : unconsumed c = true -> counted h c -> counted (h ++ [(ec_id c, false)]) (miss now c).
Proof.
  intros Hu (hit & Ha & Hle & Hun). destruct (Hun Hu) as [-> Hlt]. exists false. unfold miss.
  cbn [ec_id ec_attempts]. rewrite answers_app, answers_one, String.eqb_refl, Ha, !app_nil_r.
  split_and!; [by rewrite replicate_S_end|lia|]. unfold unconsumed. cbn [ec_consumedAt].
  destruct (Nat.leb_spec CODE_MAX_ATTEMPTS (S (ec_attempts c))); [done|]. by intros _.
Qed.

Lemma counted_hit h c now : unconsumed c = true -> counted h c -> counted (h ++ [(ec_id c, true)]) (consume now c).
Proof.
  intros Hu (hit & Ha & Hle & Hun). destruct (Hun Hu) as [-> Hlt]. exists true. unfold consume.
  cbn [ec_id ec_attempts]. rewrite answers_app, answers_one, String.eqb_refl, Ha, app_nil_r.
  split_and!; [done|lia|done].
Qed.

(** A guess at a live code changes that code's row and nothing else of it. *)
Lemma codes_tested h d c b f :
  CodesOk h (t_codes d) -> c ∈ t_codes d -> unconsumed c = true ->
  (forall x, ec_id (f x) = ec_id x /\ ec_email (f x) = ec_email x) ->
  (forall x, unconsumed (f x) = true -> unconsumed x = true) ->
  (counted h c -> counted (h ++ [(ec_id c, b)]) (f c)) ->
  CodesOk (h ++ [(ec_id c, b)]) (t_codes (update_code d (ec_id c) f)).
Proof.
  intros Hok Hin Hu Hf Hun Hcf. apply codes_update with (h := h); simpl.
  - done.
  - intros x. by destruct (ec_id x ==s ec_id c).
  - intros x. destruct (ec_id x ==s ec_id c); [apply Hun|done].
  - intros x Hx Hc. destruct (String.eqb_spec (ec_id x) (ec_id c)) as [E|N].
    + rewrite (same_code _ _ _ (co_ids _ _ Hok) Hx Hin E) in *. by apply Hcf.
    + apply counted_other; [congruence|done].
  - intros e [He| ->%list_elem_of_singleton]%elem_of_app; [by apply (co_known _ _ Hok)|].
    apply list_elem_of_fmap. by exists c.
Qed.

Lemma ensure_user_codes d email id : t_codes (ensure_user d email id) = t_codes d.
Proof. unfold ensure_user. by destruct (existsb _ _). Qed.
Lemma ensure_tenant_codes d u t now : t_codes (ensure_tenant d u t now) = t_codes d.
Proof. unfold ensure_tenant. by destruct (membershipsOf d u). Qed.

Lemma sign_in_codes i env email d r d' :
  sign_in sha256 i env email d = Ok (r, d') ->
  t_codes d' = t_codes d /\ exists m t nb nc, r = Verified m t nb nc.
Proof.
  unfold sign_in. destruct (user_by_email _ _) as [u|]; [|done]. destruct (active_tenant _ _ _ _ _) as [a|]; [|done].
  destruct (vi_anonOwnerHash i); destruct (meOf _ _ _); try done; intros [= <- <-]; simpl;
    rewrite ensure_tenant_codes, ensure_user_codes; (split; [done|by repeat eexists]).
Qed.

Lemma code_step_ok h d h' d' : CodesOk h (t_codes d) -> code_step sha256 (h, d) (h', d') -> CodesOk h' (t_codes d').
Proof.
  intros Hok Hs. inversion Hs; subst; clear Hs; [| |by congruence].
  - match goal with H : forall c, c ∈ _ -> _ |- _ => rename H into Hfresh end.
    set (f := fun c : EmailCode => if (ec_email c ==s normalizeEmail email) && unconsumed c then consume (is_now env) c else c).
    assert (Hf : CodesOk h' (f <$> t_codes d)).
    { apply codes_update with (h := h'); unfold f; try done.
      - intros c. by destruct ((_ ==s _) && _).
      - intros c. by destruct ((_ ==s _) && _).
      - intros c _ Hc. destruct ((_ ==s _) && _); [|done]. destruct Hc as (hit & ? & ? & ?). by exists hit.
      - apply (co_known _ _ Hok). }
    assert (Hnew : is_id env ∉ ec_id <$> (f <$> t_codes d)).
    { intros (x & Hx & (c & -> & Hc)%list_elem_of_fmap)%list_elem_of_fmap. apply (Hfresh c Hc).
      rewrite Hx. unfold f. by destruct ((_ ==s _) && _). }
    destruct Hf as [Hn Hc Hk Hsg]. simpl. fold f. split.
    + rewrite fmap_app. apply NoDup_app. split_and!; [done| |apply NoDup_singleton].
      by intros x Hx ->%list_elem_of_singleton.
    + apply Forall_app. split; [done|]. apply Forall_singleton. exists false. simpl.
      rewrite (answers_unknown h' _ (is_id env) Hk Hnew). unfold CODE_MAX_ATTEMPTS. split_and!; [done|lia|]. intros _. split; [done|lia].
    + intros e He. rewrite fmap_app. apply elem_of_app. left. by apply Hk.
    + assert (Hdead : forall c, c ∈ f <$> t_codes d -> ec_email c = normalizeEmail email -> unconsumed c = true -> False).
      { intros c (x & -> & _)%list_elem_of_fmap. unfold f. destruct (String.eqb_spec (ec_email x) (normalizeEmail email)) as [E|N];
          destruct (unconsumed x) eqn:Eu; simpl; intros He Hue; try congruence. discriminate Hue. }
      intros c c' [Hx| ->%list_elem_of_singleton]%elem_of_app [Hy| ->%list_elem_of_singleton]%elem_of_app He Hu Hu'.
      * by apply Hsg.
      * simpl in He. by destruct (Hdead c Hx He Hu).
      * simpl in He. by destruct (Hdead c' Hy (eq_sym He) Hu').
      * done.
  - unfold shown, verifyCode. destruct (live_code d _ (ve_now env)) as [c|] eqn:El.
    2: { simpl. by rewrite app_nil_r. }
    apply live_code_spec in El as (Hin & _ & Hu). destruct (negb _) eqn:Eh.
    + simpl. apply codes_tested; try done.
      * intros x. unfold miss, unconsumed. cbn [ec_consumedAt]. by destruct (_ <=? _)%nat.
      * by apply counted_miss.
    + destruct (sign_in _ _ _ _ _) as [[r d2]|e] eqn:Es; [|simpl; by rewrite app_nil_r].
      apply sign_in_codes in Es as (Ec & m & t & nb & nc & ->). cbn [fst snd]. rewrite Ec.
      apply codes_tested; try done. by apply counted_hit.
Qed.

Lemma code_history_ok s : code_history sha256 s -> CodesOk s.1 (t_codes s.2).
Proof.
  induction 1 as [d H|[h d] [h' d'] _ IH Hs]; simpl in *; [|by eapply code_step_ok].
  rewrite H. split; [constructor|constructor|by intros e ?%elem_of_nil|by intros c c' ?%elem_of_nil].
Qed.

(** C7: Whatever codes are issued and guessed, over any history: a code is
    guessed at most five times, its answers are misses and then at most one hit,
    which ends it; its row counts its misses exactly; and an email has at most
    one code that can still be guessed. *)
Theorem guesses_bounded h d :
  code_history sha256 (h, d) ->
  (forall c, c ∈ t_codes d -> exists hit : bool,
     answers_of h (ec_id c) = replicate (ec_attempts c) false ++ (if hit then [true] else []) /\
     length (answers_of h (ec_id c)) <= 5 /\
     (hit = true \/ ec_attempts c = 5 -> unconsumed c = false)) /\
  (forall c c', c ∈ t_codes d -> c' ∈ t_codes d -> ec_email c = ec_email c' ->
     unconsumed c = true -> unconsumed c' = true -> c = c').
Proof.
  intros Hok%code_history_ok. simpl in Hok.
  split; [|apply (co_single _ _ Hok)]. intros c Hc. pose proof (co_counted _ _ Hok) as Hf. rewrite Forall_forall in Hf.
  destruct (Hf c Hc) as (hit & Ha & Hle & Hu). unfold CODE_MAX_ATTEMPTS in *. exists hit. split_and!; [done| |].
  - rewrite Ha, length_app, length_replicate. destruct hit; simpl; lia.
  - intros Hor. destruct (unconsumed c); [|done]. destruct (Hu eq_refl) as [-> ?]. destruct Hor; [done|lia].
Qed.
End History.

(** ** Signing in *)
Lemma lower_char_idem c : lower_char (lower_char c) = lower_char c.
Proof. destruct c as [[] [] [] [] [] [] [] []]; reflexivity. Qed.
Lemma lower_idem s : lower (lower s) = lower s.
Proof. induction s as [|c s IH]; simpl; [done|]. by rewrite lower_char_idem, IH. Qed.

Lemma user_ensured d email id : lower email = email -> exists u, user_by_email (ensure_user d email id) email = Some u.
Proof.
  intros He. unfold user_by_email, ensure_user. rewrite He. destruct (existsb _ (t_users d)) eqn:Ex.
  - apply existsb_elem in Ex as (u & Hu & Hl). destruct (List.find _ (t_users d)) as [v|] eqn:Ef; [by exists v|].
    by rewrite (proj1 (find_None_forall _ _) Ef u Hu) in Hl.
  - simpl. destruct (List.find _ _) as [v|] eqn:Ef; [by exists v|].
    assert (Hin : mkUser id email ∈ t_users d ++ [mkUser id email]) by (apply elem_of_app; right; left).
    pose proof (proj1 (find_None_forall _ _) Ef _ Hin) as H. simpl in H. by rewrite He, String.eqb_refl in H.
Qed.

Lemma elem_of_memberships d u m :
  m ∈ membershipsOf d u <->
  exists r t, r ∈ t_members d /\ mb_userId r = u /\ t ∈ t_tenants d /\ tn_id t = mb_tenantId r /\
    m = mkMembership (tn_id t) (tn_name t) (tn_slug t) (mb_role r) (mb_createdAt r).
Proof.
  unfold membershipsOf. rewrite elem_of_js_sort, elem_of_flat_map. split.
  - intros (r & [Hr Hu]%elem_of_listfilter & (t & -> & [Ht Hi]%elem_of_listfilter)%list_elem_of_fmap).
    apply String.eqb_eq in Hu, Hi. by exists r, t.
  - intros (r & t & Hr & <- & Ht & Hi & ->). exists r. split.
    + apply elem_of_listfilter. by rewrite String.eqb_refl.
    + apply list_elem_of_fmap. exists t. split; [done|]. apply elem_of_listfilter. split; [done|]. by apply String.eqb_eq.
Qed.

Lemma tenant_ensured d u t now : membershipsOf (ensure_tenant d u t now) u <> [].
Proof.
  unfold ensure_tenant. destruct (membershipsOf d u) as [|m l] eqn:E; [|by rewrite E]. intros Hn.
  assert (H : mkMembership t PERSONAL_TENANT_NAME None role_admin now ∈
    membershipsOf (with_tenants d (t_tenants d ++ [mkTenant t PERSONAL_TENANT_NAME None])
                     (t_members d ++ [mkMember t u role_admin now])) u).
  { apply elem_of_memberships. eexists _, _. split_and!; [apply elem_of_app; right; left|done|apply elem_of_app; right; left|done..]. }
  rewrite Hn in H. by apply elem_of_nil in H.
Qed.

Section SignIn.
Context (sha256 : string -> string).

Lemma active_tenant_member d now u tok a :
  active_tenant sha256 d now u tok = Some a -> exists m, m ∈ membershipsOf d u /\ tm_id m = a.
Proof.
  unfold active_tenant. assert (Hhead : forall a, tm_id <$> head (membershipsOf d u) = Some a ->
    exists m, m ∈ membershipsOf d u /\ tm_id m = a).
  { intros x. destruct (membershipsOf d u) as [|m l]; [done|]. intros [= <-]. exists m. split; [left|done]. }
  destruct (_ ≫= _) as [[s v]|]; [|apply Hhead]. destruct (_ && _) eqn:E; [|apply Hhead]. intros [= <-].
  apply andb_true_iff in E as [_ (m & Hm & Hid)%existsb_elem]. apply String.eqb_eq in Hid. by exists m.
Qed.

Lemma active_tenant_some d now u tok : membershipsOf d u <> [] -> is_Some (active_tenant sha256 d now u tok).
Proof.
  intros H. unfold active_tenant. assert (Hh : is_Some (tm_id <$> head (membershipsOf d u))).
  { destruct (membershipsOf d u); [done|]. by eexists. }
  destruct (_ ≫= _) as [[s v]|]; [|done]. by destruct (_ && _).
Qed.

Lemma meOf_some d u a : (exists m, m ∈ membershipsOf d (us_id u) /\ tm_id m = a) ->
  exists m, meOf d u a = Some m /\ me_email m = us_email u /\ me_userId m = us_id u /\ tm_id (me_tenant m) = a /\ me_tenant m ∈ me_tenants m /\
    me_tenants m = membershipsOf d (us_id u).
Proof.
  intros (x & Hx & <-). unfold meOf. destruct (List.find _ _) as [y|] eqn:E.
  - apply find_Some_elem in E as [Hy Ey]. apply String.eqb_eq in Ey. by eexists.
  - pose proof (proj1 (find_None_forall _ _) E x Hx) as H. simpl in H. by rewrite String.eqb_refl in H.
Qed.

(** What the keys of the tables keep, and ids the database has not used. *)
Record keyed (d : AuthDb) (env : VerifyEnv) : Prop := {
  kd_users : NoDup (us_id <$> t_users d);
  kd_user : ve_userId env ∉ us_id <$> t_users d;
  kd_token : hashSessionToken sha256 (ve_token env) ∉ ss_tokenHash <$> t_sessions d
}.

Lemma user_row d env email u :
  keyed d env -> user_by_email (ensure_user d email (ve_userId env)) email = Some u ->
  user_of (ensure_user d email (ve_userId env)) (us_id u) = Some u /\ lower (us_email u) = email.
Proof.
  intros [Hn Hf _] H. apply find_Some_elem in H as [Hu He]. apply String.eqb_eq in He. split; [|done].
  assert (Hn' : NoDup (us_id <$> t_users (ensure_user d email (ve_userId env)))).
  { unfold ensure_user. destruct (existsb _ _); [done|]. simpl. rewrite fmap_app. apply NoDup_app.
    split_and!; [done| |apply NoDup_singleton]. by intros x Hx ->%list_elem_of_singleton. }
  unfold user_of. revert Hn' Hu. generalize (t_users (ensure_user d email (ve_userId env))). clear.
  induction l as [|x l IH]; intros Hn Hu; [by apply elem_of_nil in Hu|]. simpl. apply NoDup_cons in Hn as [Hx Hn].
  apply elem_of_cons in Hu as [->|Hu]; [by rewrite String.eqb_refl|].
  destruct (String.eqb_spec (us_id x) (us_id u)) as [E|_]; [|by apply IH].
  destruct Hx. apply list_elem_of_fmap. by exists u.
Qed.
(** A session and what the store keeps of the anonymous builds. *)
Definition signed_in (i : VerifyInput) (env : VerifyEnv) (email : string) (d d' : AuthDb) (m : Me) : Prop :=
  lower (me_email m) = email /\
  me_tenant m ∈ me_tenants m /\ me_tenants m = membershipsOf d' (me_userId m) /\
  t_chat d' = match vi_anonOwnerHash i with
              | Some h => claim (tm_id (me_tenant m)) h (ve_now env) (t_chat d)
              | None => t_chat d
              end /\
  ((ve_dbNow env < micros (ve_now env + vi_sessionMaxAgeS i * 1000))%Z ->
   me sha256 d' (ve_dbNow env) (ve_token env) = Some m /\
   sessionTenantIn sha256 d' (ve_dbNow env) (ve_token env) = Some (tm_id (me_tenant m))).

Lemma new_session_found d s now hash f :
  hash ∉ ss_tokenHash <$> t_sessions d -> ss_tokenHash s = hash -> f s = true ->
  List.find (fun x => (ss_tokenHash x ==s hash) && alive now x && f x) (t_sessions d ++ [s]) =
    if alive now s then Some s else None.
Proof.
  intros Hf Hs Hp. induction (t_sessions d) as [|x l IH]; simpl.
  - rewrite Hs, String.eqb_refl, Hp. simpl. by destruct (alive now s).
  - apply not_elem_of_cons in Hf as [Hx Hl]. destruct (String.eqb_spec (ss_tokenHash x) hash) as [E|_]; [congruence|by apply IH].
Qed.

Lemma sign_in_total i env email d :
  lower email = email -> keyed d env ->
  exists m nb nc d', sign_in sha256 i env email d = Ok (Verified m (ve_token env) nb nc, d') /\ signed_in i env email d d' m.
Proof.
  intros He Hk. unfold sign_in. set (d1 := ensure_user d email (ve_userId env)).
  destruct (user_ensured d email (ve_userId env) He) as [u Hu]. fold d1 in Hu. rewrite Hu.
  destruct (user_row d env email u Hk Hu) as [Hrow Hlow]. fold d1 in Hrow.
  set (d2 := ensure_tenant d1 (us_id u) (ve_newTenantId env) (ve_dbNow env)).
  assert (Hmem : membershipsOf d2 (us_id u) <> []) by apply tenant_ensured.
  destruct (active_tenant_some d2 (ve_dbNow env) (us_id u) (vi_currentSessionToken i) Hmem) as [a Ha]. rewrite Ha.
  apply active_tenant_member in Ha. set (row := mkSession _ _ _ _ _ _ _).
  set (d3 := with_sessions d2 (t_sessions d2 ++ [row])).
  assert (Hu3 : t_users d2 = t_users d1) by (unfold d2, ensure_tenant; by destruct (membershipsOf d1 (us_id u))).
  assert (Hs2 : t_sessions d2 = t_sessions d).
  { transitivity (t_sessions d1); [unfold d2, ensure_tenant; by destruct (membershipsOf d1 (us_id u))|].
    unfold d1, ensure_user. by destruct (existsb _ _). }
  assert (Hc2 : t_chat d2 = t_chat d).
  { transitivity (t_chat d1); [unfold d2, ensure_tenant; by destruct (membershipsOf d1 (us_id u))|].
    unfold d1, ensure_user. by destruct (existsb _ _). }
  set (d4 := match vi_anonOwnerHash i with Some h => with_chat d3 (claim a h (ve_now env) (t_chat d3)) | None => d3 end).
  destruct (meOf_some d4 u a) as (m & Hm & Hmail & Huid & Hten & Hin & Hall); [by unfold d4; destruct (vi_anonOwnerHash i)|].
  match goal with |- context [?x = Ok _] => match x with context [meOf _ _ _] => set (ends := x) end end.
  assert (Hends : exists nb nc, ends = Ok (Verified m (ve_token env) nb nc, d4)).
  { unfold ends, d4 in *. destruct (vi_anonOwnerHash i); rewrite Hm; by eexists _, _. }
  destruct Hends as (nb & nc & ->). exists m, nb, nc, d4. split; [done|].
  unfold signed_in. rewrite Hmail, Huid, Hten. split_and!; try done.
  - unfold d4, d3. destruct (vi_anonOwnerHash i); simpl; by rewrite Hc2.
  - intros Hlive. assert (Halive : alive (ve_dbNow env) row = true) by (unfold alive; simpl; by apply Z.ltb_lt).
    assert (Hs4 : t_sessions d4 = t_sessions d ++ [row]) by (unfold d4, d3; destruct (vi_anonOwnerHash i); simpl; by rewrite Hs2).
    assert (Hu4 : user_of d4 (us_id u) = Some u).
    { unfold user_of, d4, d3. destruct (vi_anonOwnerHash i); simpl; by rewrite Hu3. }
    split.
    + unfold me, liveSession. rewrite Hs4.
      pose proof (new_session_found d row (ve_dbNow env) _ (fun _ => true) (kd_token _ _ Hk) eq_refl eq_refl) as Hf.
      rewrite Halive in Hf. rewrite (find_ext _ _ _ (fun x => eq_sym (andb_true_r _))), Hf. simpl. by rewrite Hu4.
    + unfold sessionTenantIn. rewrite Hs4, (new_session_found d row (ve_dbNow env) _ _ (kd_token _ _ Hk) eq_refl), Halive; [done|].
      simpl. rewrite <- Hten. rewrite Hall in Hin. apply elem_of_memberships in Hin as (r & t & Hr & Hru & _ & Ht & ->). simpl.
      apply existsb_elem. exists r. split; [done|]. by rewrite Ht, Hru, !String.eqb_refl.
Qed.
Lemma claimed_builds tenantId h now c b : b ∈ t_builds (claim tenantId h now c) -> claims_build h b = false.
Proof.
  simpl. intros (x & -> & _)%list_elem_of_fmap. destruct (claims_build h x) eqn:E; [|done].
  unfold claims_build, claim_build. cbn. by rewrite andb_false_r.
Qed.
Lemma claimed_calls tenantId h now c x : x ∈ t_llmCalls (claim tenantId h now c) -> claims_call h x = false.
Proof.
  simpl. intros (y & -> & _)%list_elem_of_fmap. destruct (claims_call h y) eqn:E; [|done].
  unfold claims_call, claim_call. cbn. by rewrite andb_false_r.
Qed.

(** The row of one code changes as [f] says, and no other row does. *)
Definition only_code (id : string) (f : EmailCode -> EmailCode) (l l' : list EmailCode) : Prop :=
  Forall2 (fun c c' => c' = if ec_id c ==s id then f c else c) l l'.
Lemma update_only d id f : only_code id f (t_codes d) (t_codes (update_code d id f)).
Proof. unfold only_code. simpl. apply Forall2_fmap_r. induction (t_codes d); by constructor. Qed.

(** C14: Verifying a code never fails half-way. Without a live code of the email
    nothing changes; with a wrong one nothing but that code's own row does, which
    counts the attempt and is spent at the last one. With the right one that row
    alone among the codes is spent; the session it opens is live and acts as a
    user of that email in a tenant the user belongs to, the one the answer names;
    and no build and no call of the anonymous owner is left behind. *)
Theorem verifyCode_signs_in i env d :
  keyed d env ->
  exists r d', verifyCode sha256 i env d = (Ok r, d') /\
    match r with
    | RejectedCode =>
        match live_code d (normalizeEmail (vi_email i)) (ve_now env) with
        | None => d' = d
        | Some c =>
            hashCode sha256 (ec_id c) (vi_code i) <> ec_codeHash c /\ d' = with_codes d (t_codes d') /\
            only_code (ec_id c) (fun x => mkCode (ec_id x) (ec_email x) (ec_codeHash x) (ec_expiresAt x) (S (ec_attempts x))
              (if CODE_MAX_ATTEMPTS <=? S (ec_attempts x) then Some (micros (ve_now env)) else ec_consumedAt x) (ec_createdAt x))
              (t_codes d) (t_codes d')
        end
    | Verified m token nb nc =>
        token = ve_token env /\
        (exists c, live_code d (normalizeEmail (vi_email i)) (ve_now env) = Some c /\
           hashCode sha256 (ec_id c) (vi_code i) = ec_codeHash c /\
           only_code (ec_id c) (fun x => mkCode (ec_id x) (ec_email x) (ec_codeHash x) (ec_expiresAt x) (ec_attempts x)
             (Some (micros (ve_now env))) (ec_createdAt x)) (t_codes d) (t_codes d')) /\
        signed_in i env (normalizeEmail (vi_email i)) d d' m /\
        (forall h, vi_anonOwnerHash i = Some h ->
           (forall b, b ∈ t_builds (t_chat d') -> claims_build h b = false) /\
           (forall c, c ∈ t_llmCalls (t_chat d') -> claims_call h c = false))
    end.
Proof.
  intros Hk. unfold verifyCode. destruct (live_code d _ (ve_now env)) as [c|] eqn:El.
  2: { by exists RejectedCode, d. }
  destruct (negb _) eqn:Eh.
  { eexists RejectedCode, _. split; [done|]. apply negb_true_iff, String.eqb_neq in Eh.
    split_and!; [done|done|apply update_only]. }
  apply negb_false_iff, String.eqb_eq in Eh. set (d0 := update_code d (ec_id c) (consume (ve_now env))).
  destruct (sign_in_total i env (normalizeEmail (vi_email i)) d0) as (m & nb & nc & d' & Hs & Hin);
    [apply lower_idem|by destruct Hk|].
  rewrite Hs. eexists _, d'. split; [done|]. apply sign_in_codes in Hs as [Hc _]. split_and!; [done| |exact Hin|].
  - exists c. rewrite Hc. split_and!; [done|done|apply update_only].
  - intros h Hh. destruct Hin as (_ & _ & _ & Hchat & _). rewrite Hh in Hchat. rewrite Hchat.
    split; intros ?; [apply claimed_builds|apply claimed_calls].
Qed.
End SignIn.
