(* ===== verification/SessionFamily.v ===== *)
(** * Signing out of a whole session family

    The recursive queries of [revokeSessionFamily], [switchTenant] and
    [withSession] over sessions that point at their parents. What a sign-out
    takes away is in [Access]. *)
From stdpp Require Import relations.
From S2P Require Import Prelude JsString Spec Db Auth.
#[local] Open Scope string_scope.
#[local] Open Scope list_scope.
#[local] Open Scope nat_scope.

(** A session is stored after its parent, and its id is its own: a foreign key
    into the same table, and a primary key. *)
Record forest (l : list SessionRow) : Prop := {
  fo_ids : NoDup (ss_id <$> l);
  fo_parents : forall i s p, l !! i = Some s -> ss_parentSessionId s = Some p ->
    exists j t, j < i /\ l !! j = Some t /\ ss_id t = p
}.

Definition child (l : list SessionRow) (p c : string) : Prop :=
  exists s, s ∈ l /\ ss_id s = c /\ ss_parentSessionId s = Some p.

(** A root above both. *)
Definition same_family (l : list SessionRow) (a b : string) : Prop :=
  exists r, r ∈ l /\ ss_parentSessionId r = None /\ rtc (child l) (ss_id r) a /\ rtc (child l) (ss_id r) b.

Section Family.
Context (l : list SessionRow) (Hl : forest l).

Lemma row_unique s t : s ∈ l -> t ∈ l -> ss_id s = ss_id t -> s = t.
Proof using Hl.
  intros [i Hi]%list_elem_of_lookup [j Hj]%list_elem_of_lookup E. assert (i = j) as ->; [|congruence].
  apply (NoDup_lookup _ i j (ss_id s) (fo_ids _ Hl)); rewrite list_lookup_fmap, ?Hi, ?Hj; simpl; by rewrite ?E.
Qed.

Lemma session_by_id_spec id s : session_by_id l id = Some s <-> s ∈ l /\ ss_id s = id.
Proof using Hl.
  unfold session_by_id. split.
  - intros [Hs E]%find_Some_elem. by apply String.eqb_eq in E.
  - intros [Hs <-]. destruct (List.find _ l) as [t|] eqn:Ef.
    + apply find_Some_elem in Ef as [Ht E]. apply String.eqb_eq in E. f_equal. by apply row_unique.
    + pose proof (proj1 (find_None_forall _ _) Ef s Hs) as H. simpl in H. by rewrite String.eqb_refl in H.
Qed.

(** A path goes down the table. *)
Lemma path_depth n a b i s :
  nsteps (child l) n a b -> l !! i = Some s -> ss_id s = b ->
  exists j t, l !! j = Some t /\ ss_id t = a /\ j + n <= i.
Proof using Hl.
  revert a. induction n as [|n IH]; intros a Hn Hi Hb.
  - inversion Hn; subst. exists i, s. split_and!; [done|done|lia].
  - inversion Hn as [|? ? c ? (t & Ht & Htc & Hp) Hn']; subst. apply IH in Hn' as (j & u & Hj & Hu & Hle); [|done..].
    assert (u = t) as -> by (apply row_unique; [by eapply list_elem_of_lookup_2|done|congruence]).
    destruct (fo_parents _ Hl _ _ _ Hj Hp) as (k & v & Hk & Hv & Hid). exists k, v. split_and!; [done|done|lia].
Qed.

Lemma path_short n a s : nsteps (child l) n a (ss_id s) -> s ∈ l -> n < length l.
Proof using Hl.
  intros Hn [i Hi]%list_elem_of_lookup. destruct (path_depth _ _ _ _ _ Hn Hi eq_refl) as (j & t & _ & _ & Hle).
  apply lookup_lt_Some in Hi. lia.
Qed.

Lemma elem_of_children ids x : x ∈ children l ids <-> exists p, p ∈ ids /\ child l p x.
Proof using.
  unfold children. rewrite list_elem_of_fmap. split.
  - intros (s & -> & [Hs Hp]%elem_of_listfilter). destruct (ss_parentSessionId s) as [p|] eqn:E; [|done].
    exists p. split; [by apply inb_true|by exists s].
  - intros (p & Hp & s & Hs & <- & E). exists s. split; [done|]. apply elem_of_listfilter. rewrite E. split; [done|by apply inb_true].
Qed.

Lemma elem_of_descendants fuel ids x :
  x ∈ descendants fuel l ids <-> exists n a, n < fuel /\ a ∈ ids /\ nsteps (child l) n a x.
Proof using.
  revert ids. induction fuel as [|fuel IH]; intros ids; simpl.
  - rewrite elem_of_nil. split; [done|]. intros (n & a & Hn & _). lia.
  - rewrite elem_of_app, IH. split.
    + intros [Hx|(n & a & Hn & (p & Hp & Hc)%elem_of_children & Hs)].
      * exists 0, x. split_and!; [lia|done|constructor].
      * exists (S n), p. split_and!; [lia|done|]. by econstructor.
    + intros (n & a & Hn & Ha & Hs). inversion Hs as [|m ? c ? Hc Hs']; subst; [by left|]. right.
      exists m, c. split_and!; [lia| |done]. apply elem_of_children. by exists a.
Qed.

Lemma elem_of_ancestors fuel id s :
  s ∈ ancestors fuel l id <-> s ∈ l /\ exists n, n < fuel /\ nsteps (child l) n (ss_id s) id /\ (exists t, t ∈ l /\ ss_id t = id).
Proof using Hl.
  revert id. induction fuel as [|fuel IH]; intros id; simpl.
  - rewrite elem_of_nil. split; [done|]. intros (_ & n & Hn & _). lia.
  - destruct (session_by_id l id) as [t|] eqn:E.
    2: { rewrite elem_of_nil. split; [done|]. intros (_ & n & _ & _ & t & Ht & Hid).
         by rewrite (proj2 (session_by_id_spec id t) (conj Ht Hid)) in E. }
    apply session_by_id_spec in E as [Ht Hid]. rewrite elem_of_cons. split.
    + intros [->|Hs].
      * split; [done|]. exists 0. split_and!; [lia|rewrite Hid; constructor|by exists t].
      * destruct (ss_parentSessionId t) as [p|] eqn:Ep; [|by apply elem_of_nil in Hs].
        apply IH in Hs as (Hs & n & Hn & Hp & _). split; [done|]. exists (S n). split_and!; [lia| |by exists t].
        eapply nsteps_r; [exact Hp|]. by exists t.
    + intros (Hs & n & Hn & Hp & _). destruct n as [|n].
      * inversion Hp; subst. left. apply row_unique; [done|done|congruence].
      * apply nsteps_inv_r in Hp as (p & Hp & t' & Ht' & Hid' & Epar). right.
        assert (t' = t) as -> by (apply row_unique; [done|done|congruence]). rewrite Epar. apply IH.
        split; [done|]. exists n. split_and!; [lia|done|].
        apply list_elem_of_lookup in Ht as [i Hi]. destruct (fo_parents _ Hl _ _ _ Hi Epar) as (j & v & _ & Hv & Hvid).
        exists v. split; [by eapply list_elem_of_lookup_2|done].
Qed.

Lemma elem_of_family s x :
  s ∈ l -> x ∈ l -> ss_id x ∈ family l (ss_id s) <-> same_family l (ss_id s) (ss_id x).
Proof using Hl.
  intros Hs Hx. unfold family. rewrite elem_of_descendants. split.
  - intros (n & a & _ & (r & -> & [Hr Hroot]%elem_of_listfilter)%list_elem_of_fmap & Hn).
    apply elem_of_ancestors in Hr as (Hr & m & _ & Hm & _). exists r. split_and!; [done| | |].
    + unfold is_root in Hroot. by destruct (ss_parentSessionId r).
    + by eapply rtc_nsteps_2.
    + by eapply rtc_nsteps_2.
  - intros (r & Hr & Hroot & [m Hm]%rtc_nsteps_1 & [n Hn]%rtc_nsteps_1). exists n, (ss_id r).
    split_and!; [by eapply path_short| |done]. apply list_elem_of_fmap. exists r. split; [done|].
    apply elem_of_listfilter. unfold is_root. rewrite Hroot. split; [|done]. apply elem_of_ancestors.
    split; [done|]. exists m. split_and!; [by eapply path_short|done|by exists s].
Qed.

Lemma up_self s : s ∈ l -> s ∈ up l (ss_id s).
Proof using Hl.
  intros Hs. apply elem_of_ancestors. split; [done|]. exists 0. split_and!; [|constructor|by exists s].
  destruct l; [by apply elem_of_nil in Hs|simpl; lia].
Qed.
End Family.

(** Rows change but keep their ids and parents. *)
Lemma forest_map l (f : SessionRow -> SessionRow) :
  (forall s, ss_id (f s) = ss_id s /\ ss_parentSessionId (f s) = ss_parentSessionId s) -> forest l -> forest (f <$> l).
Proof.
  intros Hf [Hn Hp]. split.
  - assert (E : ss_id <$> (f <$> l) = ss_id <$> l); [|by rewrite E].
    rewrite <- list_fmap_compose. apply list_fmap_ext. intros i s _. apply Hf.
  - intros i s p. rewrite list_lookup_fmap. destruct (l !! i) as [t|] eqn:Ht; [|done]. intros [= <-].
    rewrite (proj2 (Hf t)). intros (j & u & Hj & Hu & Hid)%(Hp _ _ _ Ht). exists j, (f u).
    rewrite list_lookup_fmap, Hu. split_and!; [done|done|by rewrite (proj1 (Hf u))].
Qed.

(** A session opened from another, or at sign-in. *)
Lemma forest_snoc l s :
  forest l -> ss_id s ∉ ss_id <$> l ->
  (forall p, ss_parentSessionId s = Some p -> p ∈ ss_id <$> l) -> forest (l ++ [s]).
Proof.
  intros [Hn Hp] Hid Hpar. split.
  - rewrite fmap_app. apply NoDup_app. split_and!; [done| |apply NoDup_singleton]. by intros x Hx ->%list_elem_of_singleton.
  - intros i x p [Hi|[Hge Hi]]%lookup_app_Some Hx.
    + destruct (Hp _ _ _ Hi Hx) as (j & t & Hj & Ht & ?). exists j, t. split_and!; [done|by apply lookup_app_l_Some|done].
    + apply list_lookup_singleton_Some in Hi as [Hi <-]. apply Hpar, list_elem_of_fmap in Hx as (t & -> & [j Hj]%list_elem_of_lookup).
      exists j, t. pose proof (lookup_lt_Some _ _ _ Hj). split_and!; [lia|by apply lookup_app_l_Some|done].
Qed.
