(* ===== verification/Ledger.v ===== *)
(** * Metering against a claim

    A model call's row ([llmCallsInserter] in [packages/llm/src/meter.ts]) is
    inserted while a sign-in may be moving the build and its calls to a tenant
    ([verifyCode] in [apps/gateway/src/auth-store.ts]). The two are transactions
    at read committed, statement by statement: a statement sees what was
    committed when it started, an update waits for a row another transaction
    holds and then looks at it again. *)
From stdpp Require Import gmap.
From S2P Require Import Prelude JsString Spec Db Auth.
#[local] Open Scope string_scope.
#[local] Open Scope list_scope.
#[local] Open Scope nat_scope.

(** ** [llmCallsInserter] *)
Definition attributed (d : Db) (r : LlmCall) : option string * option string :=
  match lc_buildId r ≫= build_by_id d with
  | Some b => (b_tenantId b, b_anonOwnerHash b)
  | None => (lc_tenantId r, lc_anonOwnerHash r)
  end.
Definition owned_by (r : LlmCall) (o : option string * option string) : LlmCall :=
  mkLlmCall (lc_id r) (lc_buildId r) o.1 o.2 (lc_inputTokens r) (lc_outputTokens r) (lc_cacheRead r) (lc_cacheCreation r).
Definition add_call (d : Db) (c : LlmCall) : Db := with_llmCalls d (t_llmCalls d ++ [c]).

(** ** The transactions, between two statements *)
Inductive Tx :=
| Metering (r : LlmCall) (owner : option string * option string)
| ClaimBuilds (tenantId h : string) (now : Z) (todo held : list string)
| ClaimCalls (tenantId h : string) (now : Z) (held calls : list string).

(** The build rows a transaction has locked. *)
Definition holds (t : Tx) (b : string) : Prop :=
  match t with
  | Metering r _ => lc_buildId r = Some b
  | ClaimBuilds _ _ _ _ held | ClaimCalls _ _ _ held _ => b ∈ held
  end.

Record Ledger := mkLedger { lg_db : Db; lg_txs : gmap nat Tx }.

Definition unlocked (txs : gmap nat Tx) (b : string) : Prop := forall i t, txs !! i = Some t -> ~ holds t b.

Definition claim_held (tenantId : string) (now : Z) (held : list string) (d : Db) : Db :=
  with_builds d ((fun b => if inb (b_id b) held then claim_build tenantId now b else b) <$> t_builds d).
Definition claim_seen (tenantId h : string) (calls : list string) (d : Db) : Db :=
  with_llmCalls d ((fun c => if inb (lc_id c) calls && claims_call h c then claim_call tenantId c else c) <$> t_llmCalls d).

Inductive ledger_step : Ledger -> Ledger -> Prop :=
| new_build d txs b :
    b_id b ∉ b_id <$> t_builds d -> builds_owner_check b = true ->
    ledger_step (mkLedger d txs) (mkLedger (with_builds d (t_builds d ++ [b])) txs)
| meter_lock d txs i r :
    txs !! i = None ->
    (forall b, lc_buildId r = Some b -> is_Some (build_by_id d b) /\ unlocked txs b) ->
    ledger_step (mkLedger d txs) (mkLedger d (<[i := Metering r (attributed d r)]> txs))
| meter_insert d txs i r o :
    txs !! i = Some (Metering r o) -> lc_id r ∉ lc_id <$> t_llmCalls d ->
    ledger_step (mkLedger d txs) (mkLedger (add_call d (owned_by r o)) (delete i txs))
| claim_start d txs i tenantId h now :
    txs !! i = None ->
    ledger_step (mkLedger d txs)
      (mkLedger d (<[i := ClaimBuilds tenantId h now (b_id <$> List.filter (claims_build h) (t_builds d)) []]> txs))
| claim_row d txs i tenantId h now todo1 b todo2 held :
    txs !! i = Some (ClaimBuilds tenantId h now (todo1 ++ b :: todo2) held) -> unlocked txs b ->
    ledger_step (mkLedger d txs)
      (mkLedger d (<[i := ClaimBuilds tenantId h now (todo1 ++ todo2)
          (if bool_decide (claims_build h <$> build_by_id d b = Some true) then b :: held else held)]> txs))
| claim_turn d txs i tenantId h now held :
    txs !! i = Some (ClaimBuilds tenantId h now [] held) ->
    ledger_step (mkLedger d txs)
      (mkLedger d (<[i := ClaimCalls tenantId h now held (lc_id <$> List.filter (claims_call h) (t_llmCalls d))]> txs))
| claim_commit d txs i tenantId h now held calls :
    txs !! i = Some (ClaimCalls tenantId h now held calls) ->
    ledger_step (mkLedger d txs)
      (mkLedger (claim_seen tenantId h calls (claim_held tenantId now held d)) (delete i txs))
| rolled_back d txs i t :
    txs !! i = Some t -> ledger_step (mkLedger d txs) (mkLedger d (delete i txs)).

Inductive ledger_reachable : Ledger -> Prop :=
| ledger_empty d : t_builds d = [] -> t_llmCalls d = [] -> ledger_reachable (mkLedger d ∅)
| ledger_next s s' : ledger_reachable s -> ledger_step s s' -> ledger_reachable s'.

(** ** The invariant *)

(** A call that is still anonymous belongs to the owner of its build. *)
Definition in_step (d : Db) (c : LlmCall) : Prop :=
  forall b, lc_buildId c = Some b -> exists B, build_by_id d b = Some B /\
    (lc_tenantId c = None -> b_tenantId B = None /\ lc_anonOwnerHash c = b_anonOwnerHash B).

Definition tx_ok (d : Db) (t : Tx) : Prop :=
  match t with
  | Metering r o => forall b, lc_buildId r = Some b -> exists B, build_by_id d b = Some B /\ o = (b_tenantId B, b_anonOwnerHash B)
  | ClaimBuilds _ h _ _ held => forall b, b ∈ held -> exists B, build_by_id d b = Some B /\ claims_build h B = true
  | ClaimCalls _ h _ held calls =>
      (forall b, b ∈ held -> exists B, build_by_id d b = Some B /\ claims_build h B = true) /\
      forall c b, c ∈ t_llmCalls d -> lc_buildId c = Some b -> b ∈ held -> claims_call h c = true -> lc_id c ∈ calls
  end.

(** A build row is held by one transaction. *)
Definition exclusive (txs : gmap nat Tx) : Prop :=
  forall i j t t' b, txs !! i = Some t -> txs !! j = Some t' -> holds t b -> holds t' b -> i = j.

Lemma exclusive_delete txs i : exclusive txs -> exclusive (delete i txs).
Proof. intros H j k t t' b. rewrite !lookup_delete_Some. intros [_ Hj] [_ Hk]. by eapply H. Qed.

Lemma exclusive_insert txs i t :
  exclusive txs ->
  (forall b, holds t b -> unlocked txs b \/ exists t0, txs !! i = Some t0 /\ holds t0 b) -> exclusive (<[i := t]> txs).
Proof.
  intros H Ht. assert (Hother : forall j t' b, i <> j -> txs !! j = Some t' -> holds t b -> holds t' b -> False).
  { intros j t' b Hne Hj Hb Hb'. destruct (Ht b Hb) as [Hf|(t0 & Hi & H0)]; [by apply (Hf j t')|]. apply Hne. by eapply H. }
  intros j k u v b. rewrite !lookup_insert_Some. intros [[<- <-]|[Hne Hj]] [[<- <-]|[Hne' Hk]] H1 H2; [done| | |by eapply H].
  - by destruct (Hother k v b).
  - by destruct (Hother j u b).
Qed.

Record LedgerOk (s : Ledger) : Prop := {
  lo_builds : NoDup (b_id <$> t_builds (lg_db s));
  lo_calls : forall c, c ∈ t_llmCalls (lg_db s) -> in_step (lg_db s) c;
  lo_txs : map_Forall (fun _ t => tx_ok (lg_db s) t) (lg_txs s);
  lo_locks : exclusive (lg_txs s)
}.

Lemma build_by_id_spec d b B :
  NoDup (b_id <$> t_builds d) -> build_by_id d b = Some B <-> B ∈ t_builds d /\ b_id B = b.
Proof.
  intros Hn. unfold build_by_id. split.
  - intros [Hs E]%find_Some_elem. by apply String.eqb_eq in E.
  - intros [Hs <-]. destruct (List.find _ _) as [t|] eqn:Ef.
    + apply find_Some_elem in Ef as [Ht E]. apply String.eqb_eq in E. f_equal.
      apply list_elem_of_lookup in Hs as [i Hi], Ht as [j Hj]. assert (i = j) as ->; [|congruence].
      apply (NoDup_lookup _ i j (b_id B) Hn); rewrite list_lookup_fmap, ?Hi, ?Hj; simpl; by rewrite ?E.
    + pose proof (proj1 (find_None_forall _ _) Ef B Hs) as H. simpl in H. by rewrite String.eqb_refl in H.
Qed.

Lemma build_by_id_map d f b :
  (forall B, b_id (f B) = b_id B) -> build_by_id (with_builds d (f <$> t_builds d)) b = f <$> build_by_id d b.
Proof.
  intros Hf. unfold build_by_id. simpl. induction (t_builds d) as [|B l IH]; simpl; [done|].
  rewrite Hf. by destruct (b_id B ==s b).
Qed.

Lemma build_by_id_snoc d b x B :
  build_by_id d b = Some B -> build_by_id (with_builds d (t_builds d ++ [x])) b = Some B.
Proof.
  unfold build_by_id. simpl. induction (t_builds d) as [|B' l IH]; simpl; [done|]. by destruct (b_id B' ==s b).
Qed.

(** ** Its steps *)
Lemma tx_ok_new_build d b t : tx_ok d t -> tx_ok (with_builds d (t_builds d ++ [b])) t.
Proof.
  assert (H : forall (P : Build -> Prop) x, (exists B, build_by_id d x = Some B /\ P B) ->
    exists B, build_by_id (with_builds d (t_builds d ++ [b])) x = Some B /\ P B).
  { intros P x (B & Hb & Hp). exists B. split; [by apply build_by_id_snoc|done]. }
  destruct t as [r o|? h ? ? held|? h ? held calls]; simpl.
  - intros Ht x Hx. apply H. by apply Ht.
  - intros Ht x Hx. apply H. by apply Ht.
  - intros [Ht Hc]. split; [|done]. intros x Hx. apply H. by apply Ht.
Qed.

Lemma tx_ok_add_call d c t :
  (forall b, lc_buildId c = Some b -> ~ holds t b) -> tx_ok d t -> tx_ok (add_call d c) t.
Proof.
  destruct t as [r o|? h ? ? held|? h ? held calls]; simpl; try done. intros Hn [Ht Hc]. split; [done|].
  intros x b [Hx| ->%list_elem_of_singleton]%elem_of_app Hb Hin; [by eapply Hc|]. by destruct (Hn b Hb).
Qed.

Lemma claim_held_other tenantId now held d b :
  b ∉ held -> build_by_id (claim_held tenantId now held d) b = build_by_id d b.
Proof.
  intros Hb. unfold claim_held. rewrite build_by_id_map; [|intros B; by destruct (inb _ _)].
  destruct (build_by_id d b) as [B|] eqn:E; [|done]. simpl. apply find_Some_elem in E as [_ E]. apply String.eqb_eq in E.
  rewrite E, (proj2 (inb_false b held)); done.
Qed.

Lemma claim_call_done h tenantId c : claims_call h (claim_call tenantId c) = false.
Proof. unfold claims_call, claim_call. cbn. by rewrite andb_false_r. Qed.

Lemma tx_ok_commit d t tenantId h now held calls :
  (forall b, b ∈ held -> ~ holds t b) -> tx_ok d t -> tx_ok (claim_seen tenantId h calls (claim_held tenantId now held d)) t.
Proof.
  intros Hn. assert (H : forall b, holds t b -> build_by_id (claim_seen tenantId h calls (claim_held tenantId now held d)) b = build_by_id d b).
  { intros b Hb. apply claim_held_other. intros Hin. by apply (Hn b Hin). }
  destruct t as [r o|? h' ? ? held'|? h' ? held' calls']; simpl in *.
  - intros Ht b Hb. rewrite H by done. by apply Ht.
  - intros Ht b Hb. rewrite H by done. by apply Ht.
  - intros [Ht Hc]. split; [intros b Hb; rewrite H by done; by apply Ht|].
    intros c b (x & -> & Hx)%list_elem_of_fmap. destruct (_ && _); [|by apply Hc]. by rewrite claim_call_done.
Qed.

Lemma in_step_new_build d b c : in_step d c -> in_step (with_builds d (t_builds d ++ [b])) c.
Proof. intros H x Hx. destruct (H x Hx) as (B & Hb & Ho). exists B. split; [by apply build_by_id_snoc|done]. Qed.

Lemma in_step_commit d tenantId h now held calls c :
  in_step d c ->
  (forall b, b ∈ held -> exists B, build_by_id d b = Some B /\ claims_build h B = true) ->
  (forall b, lc_buildId c = Some b -> b ∈ held -> claims_call h c = true -> lc_id c ∈ calls) ->
  in_step (claim_seen tenantId h calls (claim_held tenantId now held d))
    (if inb (lc_id c) calls && claims_call h c then claim_call tenantId c else c).
Proof.
  intros Hc Hheld Hseen b Hb. assert (Hb' : lc_buildId c = Some b) by (destruct (_ && _); exact Hb).
  destruct (Hc b Hb') as (B & HB & Ho).
  destruct (decide (b ∈ held)) as [Hin|Hout].
  - destruct (Hheld b Hin) as (B' & HB' & Hcl). rewrite HB in HB'. injection HB' as <-.
    exists (claim_build tenantId now B). split.
    { change (build_by_id (claim_held tenantId now held d) b = Some (claim_build tenantId now B)). unfold claim_held.
      rewrite build_by_id_map by (intros x; simpl; by destruct (inb (b_id x) held)). rewrite HB. simpl. apply find_Some_elem in HB as [_ E].
      apply String.eqb_eq in E. by rewrite E, (proj2 (inb_true b held)). }
    destruct (claims_call h c) eqn:Ec.
    + by rewrite (proj2 (inb_true _ _) (Hseen b Hb' Hin eq_refl)).
    + rewrite andb_false_r. intros Hn. destruct (Ho Hn) as [_ Ha]. unfold claims_build in Hcl. unfold claims_call in Ec.
      apply andb_true_iff in Hcl as [Hcl _]. rewrite Ha, Hcl, (bool_decide_eq_true_2 _ Hn) in Ec. done.
  - exists B. split; [by rewrite <- HB; apply claim_held_other|]. destruct (_ && _); [done|exact Ho].
Qed.

Lemma commit_ids tenantId now held d : b_id <$> t_builds (claim_held tenantId now held d) = b_id <$> t_builds d.
Proof. simpl. rewrite <- list_fmap_compose. apply list_fmap_ext. intros j x _. simpl. by destruct (inb (b_id x) held). Qed.

Lemma ledger_step_ok s s' : LedgerOk s -> ledger_step s s' -> LedgerOk s'.
Proof.
  intros [Hn Hc Ht Hl] Hstep. destruct Hstep as [d txs b Hfresh _|d txs i r Hi Hr|d txs i r o Hi Hfresh|d txs i te h now Hi
    |d txs i te h now todo1 b todo2 held Hi Hfree|d txs i te h now held Hi|d txs i te h now held calls Hi|d txs i t Hi]; simpl in *;
    try (pose proof (map_Forall_lookup_1 _ _ _ _ Ht Hi) as Hti; simpl in Hti); split; simpl; try done;
    try (by apply map_Forall_delete); try (by apply exclusive_delete); try (apply map_Forall_insert_2; [|done]).
  - rewrite fmap_app. apply NoDup_app. split_and!; [done| |apply NoDup_singleton]. by intros x Hx ->%list_elem_of_singleton.
  - intros c Hin. by apply in_step_new_build, Hc.
  - eapply map_Forall_impl; [exact Ht|]. intros i t. apply tx_ok_new_build.
  - intros b Hb. destruct (Hr b Hb) as [[B HB] _]. exists B. unfold attributed. rewrite Hb. simpl. by rewrite HB.
  - apply exclusive_insert; [done|]. intros b Hb. left. by apply Hr.
  - intros c [Hin| ->%list_elem_of_singleton]%elem_of_app; [by apply Hc|]. intros b Hb.
    destruct (Hti b Hb) as (B & HB & ->). exists B. by split.
  - intros j t [Hne Hj]%lookup_delete_Some. apply tx_ok_add_call; [|by apply (map_Forall_lookup_1 _ _ _ _ Ht Hj)].
    intros b Hb Hh. apply Hne. by eapply (Hl i j).
  - by intros b Hb%elem_of_nil.
  - apply exclusive_insert; [done|]. by intros b Hb%elem_of_nil.
  - simpl. destruct (bool_decide_reflect (claims_build h <$> build_by_id d b = Some true)) as [Hb|]; [|done].
    intros x [->|Hx]%elem_of_cons; [|by apply Hti]. destruct (build_by_id d b) as [B|]; [|done]. injection Hb as Hb. by exists B.
  - apply exclusive_insert; [done|]. simpl. intros x Hx. assert (Hor : x = b \/ x ∈ held).
    { destruct (bool_decide _); [by apply elem_of_cons in Hx|by right]. }
    destruct Hor as [->|Hin]; [by left|]. right. by eexists.
  - split; [exact Hti|]. intros c b Hin _ _ Hcl. apply list_elem_of_fmap. exists c. split; [done|]. by apply elem_of_listfilter.
  - apply exclusive_insert; [done|]. intros b Hb. right. by eexists.
  - rewrite <- (commit_ids te now held d) in Hn. exact Hn.
  - destruct Hti as [Hheld Hseen]. intros c (x & -> & Hx)%list_elem_of_fmap.
    apply in_step_commit; [by apply Hc|done|]. intros b Hb Hin Hcl. by eapply Hseen.
  - intros j t [Hne Hj]%lookup_delete_Some. apply tx_ok_commit; [|by apply (map_Forall_lookup_1 _ _ _ _ Ht Hj)].
    intros b Hb Hh. apply Hne. by eapply (Hl i j _ _ b Hi Hj).
Qed.

Lemma ledger_reachable_ok s : ledger_reachable s -> LedgerOk s.
Proof.
  induction 1 as [d Hb Hc|s s' _ IH Hs]; [|by eapply ledger_step_ok].
  split; simpl; rewrite ?Hb, ?Hc; [constructor|by intros c ?%elem_of_nil|apply map_Forall_empty|by intros i j t t' b ?%lookup_empty_Some].
Qed.

(** C6: However model calls are metered while builds are claimed, statement by
    statement, with any number of each at once and any of them rolled back: a
    call of a build stays anonymous only as long as the build does, and then
    under the build's own owner, so a claim leaves no call of its builds
    behind. *)
Theorem no_call_left_behind s c b :
  ledger_reachable s -> c ∈ t_llmCalls (lg_db s) -> lc_buildId c = Some b ->
  exists B, build_by_id (lg_db s) b = Some B /\
    (lc_tenantId c = None -> b_tenantId B = None /\ lc_anonOwnerHash c = b_anonOwnerHash B) /\
    (is_Some (b_tenantId B) -> is_Some (lc_tenantId c)).
Proof.
  intros Hs%ledger_reachable_ok Hc Hb. destruct (lo_calls _ Hs c Hc b Hb) as (B & HB & Ho). exists B.
  split_and!; [done|done|]. intros [t Ht]. destruct (lc_tenantId c) eqn:E; [by eexists|].
  destruct (Ho eq_refl) as [Hn _]. congruence.
Qed.
