(* ===== verification/Scheduler.v ===== *)
(** * Asking intake for a turn ([apps/gateway/src/intake.ts])

    One turn per build at a time on an instance, a trigger during a turn queued
    as one more. Log lines are left out, so is a logger that throws. *)
From stdpp Require Import gmap.
From S2P Require Import Prelude JsString Effects.
#[local] Open Scope string_scope.
#[local] Open Scope list_scope.
#[local] Open Scope nat_scope.

(** ** One run *)

(** What a call may be rejected with: an [IntakeError] with its status, the
    deadline of [withDeadline] or an abort, what [fetch] rejects with, and the
    rest. *)
Inductive TurnFailure :=
| FailIntake (status : option Z)
| FailTimeout
| FailAbort
| FailNetwork
| FailOther.

Definition isRetryable (error : TurnFailure) : bool :=
  match error with
  | FailIntake (Some status) => (500 <=? status)%Z
  | FailIntake None => false
  | FailTimeout | FailAbort => false
  | FailNetwork => true
  | FailOther => false
  end.

Definition INTAKE_TIMEOUT_MS : nat := 50 * 1000.
Definition INTAKE_RETRY_DELAY_MS : nat := 5 * 1000.

(** A call under its deadline, and the wait before the retry. *)
Inductive RunE := Turn (mayRetry : bool) (withinMs : nat) | Sleep (ms : nat).
Definition RunA (e : RunE) : Type := match e with Turn _ _ => option TurnFailure | Sleep _ => unit end.

(** [None]: the loop went on for longer than [fuel]. *)
Inductive RunEnd := Skipped | Completed (attempt : nat) | GaveUp (attempt : nat) (e : TurnFailure).

Section Run.
Context (configured : bool) (timeoutMs retryDelayMs : nat).

Fixpoint attempts (fuel attempt : nat) : prog (E := RunE) RunA (option RunEnd) :=
  match fuel with
  | O => Ret None
  | S fuel =>
      (do! r := Turn (Nat.eqb attempt 1) timeoutMs in
       match r with
       | None => Ret (Some (Completed attempt))
       | Some e =>
           if Nat.eqb attempt 1 && isRetryable e
           then do! slept := Sleep retryDelayMs in attempts fuel (S attempt)
           else Ret (Some (GaveUp attempt e))
       end)%prog
  end.
Definition runOnce (fuel : nat) : prog (E := RunE) RunA (option RunEnd) :=
  if negb configured then Ret (Some Skipped) else attempts fuel 1.

(** The calls of a run, with what they said about a retry and how they ended. *)
Definition calls_of (tr : list (event (E := RunE) RunA)) : list (bool * option TurnFailure) :=
  flat_map (fun e => let '(existT op x) := e in
    match op return RunA op -> list (bool * option TurnFailure) with
    | Turn mayRetry _ => fun r => [(mayRetry, r)]
    | Sleep _ => fun _ => []
    end x) tr.

(** A run asks intake at most twice and always ends: the first call says
    that a retry may follow, the second, made only when the first failed in a
    way worth retrying, that none will; and it ends well exactly when the last
    call did. *)
Theorem runOnce_ends fuel tr r :
  2 <= fuel -> runs (runOnce fuel) tr r ->
  match r with
  | None => False
  | Some Skipped => configured = false /\ calls_of tr = []
  | Some (Completed 1) => calls_of tr = [(true, None)]
  | Some (Completed n) => n = 2 /\ exists e, isRetryable e = true /\ calls_of tr = [(true, Some e); (false, None)]
  | Some (GaveUp 1 e) => isRetryable e = false /\ calls_of tr = [(true, Some e)]
  | Some (GaveUp n e) => n = 2 /\ exists e1, isRetryable e1 = true /\ calls_of tr = [(true, Some e1); (false, Some e)]
  end.
Proof.
  intros Hf. destruct fuel as [|[|fuel]]; [lia|lia|]. unfold runOnce. destruct configured; simpl.
  2: { by intros [-> ->]. }
  intros (r1 & tr1 & -> & H). destruct r1 as [e|]; [|by destruct H as [-> ->]].
  destruct (isRetryable e) eqn:He; [|by destruct H as [-> ->]].
  destruct H as (u & tr2 & -> & r2 & tr3 & -> & H).
  destruct r2 as [e2|]; destruct H as [-> ->]; (split; [done|]; by exists e).
Qed.
End Run.

(** ** The runs of an instance *)

(** [running]: the builds with a run, and whether one more is queued. *)
Abbreviation Running := (gmap string bool).

Inductive SchedEvent := Triggered (buildId : string) | Started (buildId : string) | Ended (buildId : string).

(** [trigger]: the run starts before it returns. *)
Definition trigger (buildId : string) (s : Running) : Running * list SchedEvent :=
  match s !! buildId with
  | Some _ => (<[buildId := true]> s, [Triggered buildId])
  | None => (<[buildId := false]> s, [Triggered buildId; Started buildId])
  end.

(** A run ends: the loop goes round, or the entry is removed. *)
Definition ended (buildId : string) (s : Running) : Running * list SchedEvent :=
  match s !! buildId with
  | Some true => (<[buildId := false]> s, [Ended buildId; Started buildId])
  | Some false => (delete buildId s, [Ended buildId])
  | None => (s, [])
  end.

Definition isRunning (buildId : string) (s : Running) : bool := bool_decide (is_Some (s !! buildId)).

Inductive Input := DoTrigger (buildId : string) | RunEnds (buildId : string).
Definition input_step (i : Input) (s : Running) : Running * list SchedEvent :=
  match i with DoTrigger b => trigger b s | RunEnds b => ended b s end.
Fixpoint schedule (s : Running) (l : list Input) : Running * list SchedEvent :=
  match l with
  | [] => (s, [])
  | i :: l => let '(s1, tr1) := input_step i s in let '(s2, tr2) := schedule s1 l in (s2, tr1 ++ tr2)
  end.

#[export] Instance SchedEvent_eq_dec : EqDecision SchedEvent.
Proof. solve_decision. Defined.
Definition occurrences (e : SchedEvent) (tr : list SchedEvent) : nat := length (filter (e =.) tr).

(** Whether a trigger waits for a start, read off the events. *)
Definition waits (b : string) (w : bool) (e : SchedEvent) : bool :=
  match e with
  | Triggered x => (x ==s b) || w
  | Started x => negb (x ==s b) && w
  | Ended _ => w
  end.
Definition waiting (b : string) (tr : list SchedEvent) : bool := fold_left (waits b) tr false.

Lemma waits_started b w tr : fold_left (waits b) tr w = false -> w = true -> Started b ∈ tr.
Proof.
  revert w. induction tr as [|e tr IH]; intros w; simpl; [by intros -> ?|]. intros H Hw.
  destruct (decide (e = Started b)) as [->|N]; [left|]. right. apply (IH _ H). destruct e as [x|x|x]; simpl.
  - by rewrite Hw, orb_true_r.
  - destruct (String.eqb_spec x b); [by subst|done].
  - done.
Qed.

Lemma schedule_snoc s l i :
  schedule s (l ++ [i]) =
    ((input_step i (schedule s l).1).1, (schedule s l).2 ++ (input_step i (schedule s l).1).2).
Proof.
  revert s. induction l as [|j l IH]; intros s; simpl.
  - destruct (input_step i s) as [s1 tr1]. simpl. by rewrite app_nil_r.
  - destruct (input_step j s) as [s1 tr1]. rewrite IH. destruct (schedule s1 l) as [s2 tr2]. simpl. by rewrite app_assoc.
Qed.

Definition queued (b : string) (s : Running) : bool := bool_decide (s !! b = Some true).

(** The instance and the events of a build agree. *)
Record tracked (b : string) (s : Running) (tr : list SchedEvent) : Prop := {
  tk_waiting : waiting b tr = queued b s;
  tk_single : occurrences (Started b) tr = occurrences (Ended b) tr + (if isRunning b s then 1 else 0);
  tk_bounded : occurrences (Started b) tr + (if queued b s then 1 else 0) <= occurrences (Triggered b) tr
}.

Lemma occurrences_app e tr1 tr2 : occurrences e (tr1 ++ tr2) = occurrences e tr1 + occurrences e tr2.
Proof. unfold occurrences. by rewrite filter_app, length_app. Qed.

Definition build_of (i : Input) : string := match i with DoTrigger b | RunEnds b => b end.

Lemma input_step_other i b s :
  build_of i <> b ->
  (input_step i s).1 !! b = s !! b /\
  forall e, e ∈ (input_step i s).2 -> e <> Triggered b /\ e <> Started b /\ e <> Ended b.
Proof.
  intros Hne. destruct i as [x|x]; simpl in *; unfold trigger, ended; destruct (s !! x) as [[]|]; simpl;
    rewrite ?lookup_insert_ne, ?lookup_delete_ne by done; (split; [done|]); intros e;
    rewrite ?elem_of_cons, elem_of_nil; naive_solver.
Qed.

Lemma events_elsewhere b tr :
  (forall e, e ∈ tr -> e <> Triggered b /\ e <> Started b /\ e <> Ended b) ->
  (forall w, fold_left (waits b) tr w = w) /\
  occurrences (Triggered b) tr = 0 /\ occurrences (Started b) tr = 0 /\ occurrences (Ended b) tr = 0.
Proof.
  induction tr as [|e tr IH]; intros H; [done|]. destruct (H e) as (H1 & H2 & H3); [left|].
  destruct IH as (Hw & Ht & Hs & He); [intros x Hx; apply H; by right|]. split.
  - intros w. simpl. rewrite Hw. destruct e as [x|x|x]; simpl; [| |done];
      (destruct (String.eqb_spec x b); [by subst|done]).
  - unfold occurrences in *. rewrite !filter_cons_False by congruence. done.
Qed.

Lemma tracked_step b i s tr :
  tracked b s tr -> tracked b (input_step i s).1 (tr ++ (input_step i s).2).
Proof.
  intros [Hw Hs Hb]. destruct (decide (build_of i = b)) as [<-|Hne].
  - assert (Hocc : forall (e x : SchedEvent), occurrences e [x] = if bool_decide (e = x) then 1 else 0).
    { intros e x. unfold occurrences. rewrite filter_cons. case_bool_decide; by case_decide. }
    assert (Hcons : forall e x y, occurrences e [x; y] = occurrences e [x] + occurrences e [y]).
    { intros e x y. by rewrite <- (occurrences_app e [x] [y]). }
    assert (Hnil : forall e, occurrences e [] = 0) by done.
    unfold waiting, queued, isRunning in *.
    destruct i as [x|x]; simpl in *; unfold trigger, ended; destruct (s !! x) as [[]|] eqn:E; simpl in *;
      split; unfold waiting, queued, isRunning; rewrite ?occurrences_app, ?fold_left_app, ?Hcons, ?Hocc, ?Hnil, ?lookup_insert_eq, ?lookup_delete_eq, ?app_nil_r, ?E; simpl;
      rewrite ?String.eqb_refl, ?Hw; simpl; repeat case_bool_decide; simpl in *; simplify_eq; try done; try lia.
  - destruct (input_step_other i b s Hne) as [Hl He]. apply events_elsewhere in He as (Hf & H1 & H2 & H3).
    split; unfold waiting, queued, isRunning in *; rewrite ?fold_left_app, ?Hf, ?occurrences_app, ?Hl, ?H1, ?H2, ?H3; try done; lia.
Qed.

Lemma schedule_tracked b l : tracked b (schedule ∅ l).1 (schedule ∅ l).2.
Proof.
  induction l as [|i l IH] using rev_ind.
  - split; [|done|]; unfold queued; simpl; rewrite bool_decide_eq_false_2; [done| |simpl|]; try done; lia.
  - rewrite schedule_snoc. by apply tracked_step.
Qed.

(** C38: However triggers arrive and runs end on an instance: every trigger of a
    build is followed by the start of a run, unless one is queued behind the run
    in progress, and then two more ends of runs serve it and leave the build
    idle; a build never has two runs at once; and no run starts without a
    trigger of its own. *)
Theorem triggers_served b l :
  let s := (schedule ∅ l).1 in let tr := (schedule ∅ l).2 in
  (forall tr1 tr2, tr = tr1 ++ Triggered b :: tr2 -> Started b ∈ tr2 \/ s !! b = Some true) /\
  (let after := schedule ∅ (l ++ [RunEnds b; RunEnds b]) in
   isRunning b after.1 = false /\ forall tr1 tr2, after.2 = tr1 ++ Triggered b :: tr2 -> Started b ∈ tr2) /\
  occurrences (Started b) tr = occurrences (Ended b) tr + (if isRunning b s then 1 else 0) /\
  occurrences (Started b) tr <= occurrences (Triggered b) tr.
Proof.
  assert (Hserved : forall l tr1 tr2, (schedule ∅ l).2 = tr1 ++ Triggered b :: tr2 ->
    Started b ∈ tr2 \/ (schedule ∅ l).1 !! b = Some true).
  { intros k tr1 tr2 E. destruct (schedule_tracked b k) as [Hw _ _]. rewrite E in Hw. unfold waiting, queued in Hw.
    rewrite fold_left_app in Hw. simpl in Hw. rewrite String.eqb_refl in Hw. simpl in Hw.
    case_bool_decide as Hq; [by right|]. left. by apply (waits_started b true). }
  cbv zeta. destruct (schedule_tracked b l) as [_ Hs Hb]. split; [apply Hserved|]. split; [|split; [done|lia]].
  assert (Hidle : (schedule ∅ (l ++ [RunEnds b; RunEnds b])).1 !! b = None).
  { change (l ++ [RunEnds b; RunEnds b]) with (l ++ [RunEnds b] ++ [RunEnds b]). rewrite app_assoc, !schedule_snoc. simpl.
    unfold ended. destruct ((schedule ∅ l).1 !! b) as [[]|] eqn:E; simpl;
      rewrite ?lookup_insert_eq, ?lookup_delete_eq, ?E; simpl; rewrite ?lookup_delete_eq, ?E; done. }
  split; [unfold isRunning; rewrite Hidle; by apply bool_decide_eq_false_2, is_Some_None|].
  intros tr1 tr2 E. destruct (Hserved _ _ _ E) as [|H]; [done|congruence].
Qed.
