(* ===== verification/RateLimit.v ===== *)
(** * The sliding-window limiter ([apps/gateway/src/rate-limit.ts])

    Times are whole milliseconds, from a clock that does not go back. *)
From stdpp Require Import gmap.
From S2P Require Import Prelude JsString.
#[local] Open Scope list_scope.
#[local] Open Scope Z_scope.

Record RateLimiter := mkLimiter { hits : gmap string (list Z); taken : nat }.
Definition new_limiter : RateLimiter := mkLimiter ∅ 0.

Section Limiter.
Context (limit : nat) (windowMs : Z).

(** [at > now - windowMs] *)
Definition within (now at_ : Z) : bool := now - windowMs <? at_.
Definition recent_of (now : Z) (l : list Z) : list Z := List.filter (within now) l.

(** Keys whose every hit has left the window are dropped. *)
Definition sweep (now : Z) (m : gmap string (list Z)) : gmap string (list Z) :=
  filter (fun kv => existsb (within now) kv.2 = true) m.

(** The wait; [None] is the [NaN] of a limit of zero. *)
Definition wait (recent : list Z) (now : Z) : option Z := (fun first => first + windowMs - now) <$> head recent.

Definition take (key : string) (now : Z) (s : RateLimiter) : option Z * RateLimiter :=
  let n := S (taken s) in
  let m := if Nat.eqb (Nat.modulo n 1000) 0 then sweep now (hits s) else hits s in
  let recent := recent_of now (default [] (m !! key)) in
  if Nat.leb limit (length recent)
  then (wait recent now, mkLimiter (<[key := recent]> m) n)
  else (Some 0, mkLimiter (<[key := recent ++ [now]]> m) n).

Definition size (s : RateLimiter) : nat := base.size (hits s).

Fixpoint takes (s : RateLimiter) (l : list (string * Z)) : list (option Z) :=
  match l with
  | [] => []
  | (key, now) :: l => let '(r, s) := take key now s in r :: takes s l
  end.

(** ** The limiter that forgets nothing *)
Definition Log := string -> list Z.
Definition recorded (log : Log) (key : string) (now : Z) : Log := fun k => if String.eqb k key then log k ++ [now] else log k.
Definition answer (log : Log) (key : string) (now : Z) : option Z :=
  let recent := recent_of now (log key) in
  if Nat.leb limit (length recent) then wait recent now else Some 0.
Definition log_step (log : Log) (key : string) (now : Z) : Log :=
  if Nat.leb limit (length (recent_of now (log key))) then log else recorded log key now.
Fixpoint answers (log : Log) (l : list (string * Z)) : list (option Z) :=
  match l with
  | [] => []
  | (key, now) :: l => answer log key now :: answers (log_step log key now) l
  end.
Fixpoint log_of (log : Log) (l : list (string * Z)) : Log :=
  match l with [] => log | (key, now) :: l => log_of (log_step log key now) l end.

(** Calls in order, from a time on. *)
Fixpoint ordered (from : Z) (l : list (string * Z)) : Prop :=
  match l with [] => True | (_, now) :: l => from <= now /\ ordered now l end.

(** From [now] on, the limiter and the log show the same hits. *)
Definition agrees (now : Z) (m : gmap string (list Z)) (log : Log) : Prop :=
  forall key t, now <= t -> recent_of t (default [] (m !! key)) = recent_of t (log key).

Lemma recent_of_later now t l : now <= t -> recent_of t (recent_of now l) = recent_of t l.
Proof.
  intros Ht. unfold recent_of. induction l as [|x l IH]; simpl; [done|]. unfold within in *.
  destruct (Z.ltb_spec (now - windowMs) x); simpl; destruct (Z.ltb_spec (t - windowMs) x); rewrite ?IH; done || lia.
Qed.

Lemma recent_of_app now l1 l2 : recent_of now (l1 ++ l2) = recent_of now l1 ++ recent_of now l2.
Proof. apply List.filter_app. Qed.

Lemma agrees_later now t m log : now <= t -> agrees now m log -> agrees t m log.
Proof. intros Ht H key u Hu. apply H. lia. Qed.

Lemma sweep_agrees now m log : agrees now m log -> agrees now (sweep now m) log.
Proof.
  intros H key t Ht. rewrite <- (H key t Ht). unfold sweep. destruct (m !! key) as [l|] eqn:E.
  - destruct (existsb (within now) l) eqn:Ex.
    + by rewrite (map_lookup_filter_Some_2 _ _ _ _ E Ex).
    + assert (En : filter (fun kv : string * list Z => existsb (within now) kv.2 = true) m !! key = None).
      { apply map_lookup_filter_None. right. intros x Hx. rewrite E in Hx. injection Hx as <-. simpl. by rewrite Ex. }
      rewrite En. simpl. rewrite <- (recent_of_later now t l Ht).
      assert (E0 : recent_of now l = []); [|by rewrite E0].
      unfold recent_of. destruct (List.filter (within now) l) as [|x l'] eqn:Ef; [done|].
      assert (Hx : x ∈ List.filter (within now) l) by (rewrite Ef; left). apply elem_of_listfilter in Hx as [Hx Hw].
      assert (Ht' : existsb (within now) l = true) by (apply existsb_elem; by exists x). congruence.
  - assert (En : filter (fun kv : string * list Z => existsb (within now) kv.2 = true) m !! key = None); [|by rewrite En].
    apply map_lookup_filter_None. by left.
Qed.

Lemma take_agrees from key now s log :
  from <= now -> agrees from (hits s) log ->
  (take key now s).1 = answer log key now /\ agrees now (hits (take key now s).2) (log_step log key now).
Proof.
  intros Hle Ha. unfold take. set (m := if Nat.eqb _ 0 then _ else _).
  assert (Hm : agrees now m log).
  { unfold m. destruct (Nat.eqb _ 0); [apply sweep_agrees|]; by eapply agrees_later. }
  unfold answer, log_step. rewrite (Hm key now) by lia. destruct (Nat.leb _ _); simpl; (split; [done|]); intros k t Ht.
  - destruct (decide (k = key)) as [->|N]; [|by rewrite lookup_insert_ne by done; apply Hm].
    rewrite lookup_insert_eq. simpl. by apply recent_of_later.
  - unfold recorded. destruct (String.eqb_spec k key) as [->|N].
    + rewrite lookup_insert_eq. simpl. by rewrite !recent_of_app, recent_of_later.
    + rewrite lookup_insert_ne by done. by apply Hm.
Qed.

Lemma takes_answers from s log l :
  ordered from l -> agrees from (hits s) log -> takes s l = answers log l.
Proof.
  revert from s log. induction l as [|[key now] l IH]; intros from s log; [done|]. intros [Hle Ho] Ha.
  destruct (take_agrees from key now s log Hle Ha) as [Hr Hs]. simpl. destruct (take key now s) as [r s']. simpl in *.
  rewrite Hr. f_equal. by apply (IH now).
Qed.

(** Hits of the log in the window that ends at [t]. *)
Definition in_window (t at_ : Z) : bool := within t at_ && (at_ <=? t).
Definition capped (log : Log) : Prop := forall key t, (length (List.filter (in_window t) (log key)) <= limit)%nat.
Definition past (now : Z) (log : Log) : Prop := forall key, Forall (fun a => a <= now) (log key).

Lemma filter_imp (f g : Z -> bool) l :
  Forall (fun x => f x = true -> g x = true) l -> (length (List.filter f l) <= length (List.filter g l))%nat.
Proof.
  induction 1 as [|x l Hx _ IH]; simpl; [lia|]. destruct (f x); [rewrite (Hx eq_refl); simpl; lia|].
  destruct (g x); simpl; lia.
Qed.

Lemma log_step_capped from key now log :
  from <= now -> capped log -> past from log -> capped (log_step log key now) /\ past now (log_step log key now).
Proof.
  intros Hle Hc Hp. assert (Hp' : past now log).
  { intros k. eapply Forall_impl; [apply Hp|]. simpl. lia. }
  unfold log_step. destruct (Nat.leb_spec limit (length (recent_of now (log key)))) as [|Hlt]; [done|]. split.
  - intros k t. unfold recorded. destruct (String.eqb_spec k key) as [->|N]; [|apply Hc].
    rewrite List.filter_app, length_app. simpl. destruct (in_window t now) eqn:Ew; simpl; [|rewrite Nat.add_0_r; apply Hc].
    enough (length (List.filter (in_window t) (log key)) <= length (recent_of now (log key)))%nat by lia.
    apply filter_imp. unfold in_window, within in *. eapply Forall_impl; [apply Hp'|]. simpl. intros a Ha. lia.
  - intros k. unfold recorded. destruct (String.eqb_spec k key) as [->|N]; [|apply Hp'].
    apply Forall_app. split; [apply Hp'|]. apply Forall_singleton. lia.
Qed.

Lemma log_of_capped from l log : ordered from l -> capped log -> past from log -> capped (log_of log l).
Proof.
  revert from log. induction l as [|[key now] l IH]; intros from log; [done|]. intros [Hle Ho] Hc Hp.
  destruct (log_step_capped from key now log Hle Hc Hp) as [Hc' Hp']. by apply (IH now).
Qed.

Definition no_hits : Log := fun _ => [].

(** The log of a key is in the order of time. *)
Lemma log_of_sorted from l key now log :
  ordered from (l ++ [(key, now)]) -> past from log -> (forall k, StronglySorted Z.le (log k)) ->
  past now (log_of log l) /\ forall k, StronglySorted Z.le (log_of log l k).
Proof.
  assert (Hlater : forall a b lg, a <= b -> past a lg -> past b lg).
  { intros a b lg Hab Hp k. eapply Forall_impl; [apply Hp|]. simpl. lia. }
  revert from log. induction l as [|[key1 t1] l IH]; intros from log; simpl.
  - intros [Hle _] Hp Hs. split; [by eapply Hlater|done].
  - intros [Hle Ho] Hp Hs. apply (Hlater _ _ _ Hle) in Hp.
    apply (IH t1); [done| |]; unfold log_step; (destruct (Nat.leb _ _); [done|]); intros k; unfold recorded;
      (destruct (String.eqb_spec k key1) as [->|N]; [|done]).
    + apply Forall_app. split; [done|]. apply Forall_singleton. lia.
    + apply StronglySorted_app_2; [|done|repeat constructor]. intros a b Ha ->%list_elem_of_singleton.
      specialize (Hp key1). rewrite Forall_forall in Hp. by apply Hp.
Qed.

Lemma refused_wait log key now r :
  answer log key now = Some r -> r <> 0 ->
  exists first rest, recent_of now (log key) = first :: rest /\ r = first + windowMs - now /\ (limit <= S (length rest))%nat.
Proof.
  unfold answer, wait. intros Ha Hr. destruct (Nat.leb_spec limit (length (recent_of now (log key)))) as [Hle|]; [|by injection Ha as <-].
  destruct (recent_of now (log key)) as [|first rest]; [done|]. injection Ha as <-. by exists first, rest.
Qed.

Lemma recent_sorted now l first rest :
  StronglySorted Z.le l -> recent_of now l = first :: rest -> Forall (fun a => first <= a) (first :: rest) /\ now - windowMs < first.
Proof.
  intros Hs E. assert (Hf : first ∈ recent_of now l) by (rewrite E; left). apply elem_of_listfilter in Hf as [_ Hf].
  unfold within in Hf. split; [|lia]. clear Hf. revert first rest E. induction Hs as [|x l Hs IH Hx]; intros first rest E; [done|].
  unfold recent_of in E. simpl in E. destruct (within now x); [|by apply IH]. injection E as <- <-. constructor; [lia|].
  apply Forall_forall. intros a [Ha _]%elem_of_listfilter. rewrite Forall_forall in Hx. by apply Hx.
Qed.

(** A refusal's wait is exact on any log in order and within the limit. *)
Lemma wait_exact log key now r t :
  StronglySorted Z.le (log key) -> past now log -> capped log -> (0 < limit)%nat ->
  answer log key now = Some r -> r <> 0 -> now <= t ->
  0 < r <= windowMs /\ (answer log key t = Some 0 <-> now + r <= t).
Proof.
  intros Hs Hp Hc Hlim Ha Hr Ht. destruct (refused_wait _ _ _ _ Ha Hr) as (first & rest & E & -> & Hlen).
  destruct (recent_sorted _ _ _ _ Hs E) as [Hmin Hfirst]. specialize (Hp key). rewrite Forall_forall in Hp.
  assert (Hfin : first <= now).
  { apply Hp. assert (Hin : first ∈ recent_of now (log key)) by (rewrite E; left). by apply elem_of_listfilter in Hin as [? _]. }
  split; [lia|]. assert (Er : recent_of t (log key) = recent_of t (first :: rest)).
  { rewrite <- E. symmetry. by apply recent_of_later. }
  assert (Hn : (length (recent_of now (log key)) <= limit)%nat).
  { etransitivity; [|apply (Hc key now)]. apply filter_imp. apply Forall_forall. intros a Hin Hw. unfold in_window.
    rewrite Hw. simpl. apply Z.leb_le. by apply Hp. }
  unfold answer. rewrite Er. rewrite E in Hn. simpl in Hn. destruct (Z.le_gt_cases (now + (first + windowMs - now)) t) as [Hle|Hlt].
  - split; [done|]. intros _. assert (Hout : within t first = false) by (unfold within; lia).
    unfold recent_of. simpl. rewrite Hout. pose proof (List.filter_length_le (within t) rest).
    destruct (Nat.leb_spec limit (length (List.filter (within t) rest))); [lia|done].
  - split; [|lia]. assert (Eall : recent_of t (first :: rest) = first :: rest).
    { unfold recent_of. rewrite Forall_forall in Hmin. assert (H : forall x, x ∈ first :: rest -> within t x = true).
      { intros x Hx. specialize (Hmin x Hx). unfold within. lia. }
      clear -H. induction (first :: rest) as [|x l IH]; simpl; [done|]. rewrite H by left. f_equal. apply IH. intros y Hy. apply H. by right. }
    rewrite Eall. simpl. destruct (Nat.leb_spec limit (S (length rest))); [|lia]. intros [= Hz]. lia.
Qed.

(** On any calls in the order of time, the limiter answers what one that
    forgets nothing would, in spite of its sweeps and of the hits it drops; of
    the hits it admits, no window of [windowMs], wherever it ends, holds more
    than [limit] of any key; and the wait of a refusal is exact: as long as
    nothing of the key is admitted between, it is refused before that time and
    admitted from then on. *)
Theorem take_sliding_window from l :
  ordered from l -> (0 < limit)%nat ->
  takes new_limiter l = answers no_hits l /\
  (forall key t, (length (List.filter (in_window t) (log_of no_hits l key)) <= limit)%nat) /\
  (forall key now r t, ordered from (l ++ [(key, now)]) -> answer (log_of no_hits l) key now = Some r -> r <> 0 -> now <= t ->
     0 < r <= windowMs /\ (answer (log_of no_hits l) key t = Some 0 <-> now + r <= t)).
Proof.
  intros Ho Hlim. assert (Hc : capped (log_of no_hits l)).
  { apply (log_of_capped from); [done| |]; intros k; [intros t; simpl; lia|constructor]. }
  split; [by apply (takes_answers from)|]. split; [apply Hc|]. intros key now r t Ho' Ha Hr Ht.
  destruct (log_of_sorted from l key now no_hits Ho') as (Hp & Hs); [intros k; constructor..|].
  by apply (wait_exact _ _ _ _ _ (Hs key)).
Qed.
End Limiter.
