(* ===== verification/ClientDb.v ===== *)
(** * One handle on a checked-out connection ([packages/db/src/client.ts]) and
    the short transactions on it ([managed-transaction.ts])

    The handle's fence and its cleanup as a state machine over the statements
    sent to the connection, in the order they are sent. *)
From S2P Require Import Prelude JsString Effects.
#[local] Open Scope list_scope.
#[local] Open Scope Z_scope.

(** ** [createClientDb] *)
Inductive CleanupError := DB_CLEANUP_TIMEOUT | DB_CLEANUP_FAILED.

(** [drainAndRollback]: waiting for the queries in flight when it started, the
    rollback sent, and its two ends. *)
Inductive Cleanup :=
| Draining (until : Z)
| RollingBack
| Clean
| Unclean (e : CleanupError).

Inductive Sent := Statement (id : nat) | Rollback.

Record Handle := mkHandle {
  closed : bool;
  issued : bool;
  inFlight : list nat;
  cleanup : option Cleanup;
  wire : list Sent
}.
Definition createClientDb : Handle := mkHandle false false [] None [].

(** [query] of the fenced client: refused once the fence is up. *)
Definition query (id : nat) (h : Handle) : option Handle :=
  if closed h then None
  else Some (mkHandle false true (inFlight h ++ [id]) (cleanup h) (wire h ++ [Statement id])).
Definition settle (id : nat) (h : Handle) : Handle :=
  mkHandle (closed h) (issued h) (List.filter (fun x => negb (Nat.eqb x id)) (inFlight h)) (cleanup h) (wire h).

(** [close]: what the caller is told at once, when it is; [None] waits for the
    cleanup or for the end of [withinMs]. *)
Definition close (withinMs now : Z) (h : Handle) : option CleanupError * Handle :=
  if withinMs <=? 0 then (Some DB_CLEANUP_TIMEOUT, mkHandle true (issued h) (inFlight h) (cleanup h) (wire h))
  else (None, mkHandle true (issued h) (inFlight h)
                (match cleanup h with Some c => Some c | None => Some (Draining (now + withinMs)) end) (wire h)).

(** The cleanup goes on once everything in flight has settled. *)
Definition drained (now : Z) (h : Handle) : Handle :=
  match cleanup h, inFlight h with
  | Some (Draining until), [] =>
      if negb (issued h) then mkHandle (closed h) (issued h) [] (Some Clean) (wire h)
      else if until <=? now then mkHandle (closed h) (issued h) [] (Some (Unclean DB_CLEANUP_TIMEOUT)) (wire h)
      else mkHandle (closed h) (issued h) [] (Some RollingBack) (wire h ++ [Rollback])
  | _, _ => h
  end.
Definition rolled_back (ok : bool) (h : Handle) : Handle :=
  match cleanup h with
  | Some RollingBack =>
      mkHandle (closed h) (issued h) (inFlight h) (Some (if ok then Clean else Unclean DB_CLEANUP_FAILED)) (wire h)
  | _ => h
  end.

Inductive handle_step : Handle -> Handle -> Prop :=
| step_query id h h' : query id h = Some h' -> handle_step h h'
| step_settle id h : handle_step h (settle id h)
| step_close withinMs now h : handle_step h (close withinMs now h).2
| step_drained now h : handle_step h (drained now h)
| step_rolled_back ok h : handle_step h (rolled_back ok h).

(** The states of a handle since it was created. *)
Inductive handle_run : Handle -> Handle -> Prop :=
| run_refl h : handle_run h h
| run_step h h' h'' : handle_run h h' -> handle_step h' h'' -> handle_run h h''.

Definition is_statement (s : Sent) : bool := match s with Statement _ => true | Rollback => false end.
Definition is_rollback (s : Sent) : bool := negb (is_statement s).
Definition rollbacks (h : Handle) : nat := length (List.filter is_rollback (wire h)).

(** What the cleanup's phase says about the handle. *)
Definition phase_ok (h : Handle) : Prop :=
  match cleanup h with
  | None => rollbacks h = 0%nat
  | Some (Draining _) => closed h = true /\ rollbacks h = 0%nat
  | Some RollingBack => closed h = true /\ inFlight h = [] /\ exists l, wire h = l ++ [Rollback] /\ forallb is_statement l = true
  | Some Clean => closed h = true /\ inFlight h = [] /\
      (wire h = [] \/ exists l, wire h = l ++ [Rollback] /\ forallb is_statement l = true)
  | Some (Unclean _) => closed h = true /\ inFlight h = [] /\ (rollbacks h <= 1)%nat
  end.
Definition HandleOk (h : Handle) : Prop := phase_ok h /\ (issued h = false -> wire h = []).

Lemma no_rollbacks l : length (List.filter is_rollback l) = 0%nat -> forallb is_statement l = true.
Proof.
  induction l as [|s l IH]; simpl; [done|]. unfold is_rollback at 1. destruct (is_statement s); simpl; [exact IH|done].
Qed.
Lemma one_rollback l : forallb is_statement l = true -> length (List.filter is_rollback (l ++ [Rollback])) = 1%nat.
Proof.
  intros H. rewrite List.filter_app, length_app. simpl. enough (length (List.filter is_rollback l) = 0%nat) by lia.
  induction l as [|s l IH]; simpl in *; [done|]. apply andb_true_iff in H as [Hs Hl]. unfold is_rollback at 1.
  rewrite Hs. simpl. by apply IH.
Qed.

Lemma handle_step_ok h h' : HandleOk h -> handle_step h h' -> HandleOk h'.
Proof.
  intros [Hp Hi] Hstep. unfold HandleOk, phase_ok, rollbacks in *.
  destruct Hstep as [id h h'' Hq|id h|withinMs now h|now h|ok h].
  - unfold query in Hq. destruct (closed h) eqn:Ec; [done|]. injection Hq as <-. simpl. split; [|done].
    destruct (cleanup h) as [[until| | |e]|]; try (destruct Hp; congruence).
    rewrite List.filter_app, length_app, Hp. done.
  - simpl. split; [|done]. destruct (cleanup h) as [[until| | |e]|]; try done.
    + destruct Hp as (? & -> & ?). done.
    + destruct Hp as (? & -> & ?). done.
    + destruct Hp as (? & -> & ?). done.
  - unfold close. destruct (withinMs <=? 0); simpl; (split; [|done]); destruct (cleanup h) as [[until| | |e]|]; try done;
      destruct Hp; split; done.
  - unfold drained. destruct (cleanup h) as [[until| | |e]|] eqn:E; try (simpl; rewrite ?E; done).
    destruct (inFlight h) as [|q l] eqn:Ef; [|simpl; rewrite ?E; done]. destruct Hp as [Hc Hr].
    destruct (issued h) eqn:Ei; simpl; [|split; [|done]; split_and!; [done|done|left; by apply Hi]].
    destruct (until <=? now); simpl; (split; [|done]); split_and!; try done; [lia|].
    exists (wire h). split; [done|]. by apply no_rollbacks.
  - unfold rolled_back. destruct (cleanup h) as [[until| | |e]|] eqn:E; try (simpl; rewrite ?E; done). simpl.
    split; [|done]. destruct Hp as (Hc & Hf & l & Hw & Hl). destruct ok; split_and!; try done.
    + right. by exists l.
    + rewrite Hw, one_rollback by done. lia.
Qed.

(** The cleanup is past its only rollback. *)
Definition spent (h : Handle) : Prop :=
  match cleanup h with None | Some (Draining _) => False | Some _ => True end.

Lemma closed_step h h' :
  closed h = true -> handle_step h h' ->
  closed h' = true /\ (spent h -> wire h' = wire h /\ spent h') /\
  (wire h' = wire h \/ (wire h' = wire h ++ [Rollback] /\ spent h')).
Proof.
  intros Hc Hs. destruct Hs as [id h h'' Hq|id h|withinMs now h|now h|ok h]; unfold spent.
  - unfold query in Hq. by rewrite Hc in Hq.
  - simpl. auto.
  - unfold close. destruct (withinMs <=? 0); simpl; (split; [done|]); [auto|]. destruct (cleanup h); auto.
  - unfold drained. destruct (cleanup h) as [[until| | |e]|] eqn:E; try (rewrite ?E; auto).
    destruct (inFlight h); [|rewrite ?E; auto]. destruct (issued h), (until <=? now); simpl; (split; [done|]); split; auto; done.
  - unfold rolled_back. destruct (cleanup h) as [[until| | |e]|] eqn:E; try (rewrite ?E; auto). simpl. destruct ok; auto.
Qed.

Lemma closed_run h h' :
  closed h = true -> handle_run h h' ->
  closed h' = true /\ (wire h' = wire h \/ (wire h' = wire h ++ [Rollback] /\ spent h')).
Proof.
  intros Hc Hr. induction Hr as [h|h h1 h2 _ IH Hs]; [by auto|]. destruct (IH Hc) as [Hc1 Hw1].
  destruct (closed_step h1 h2 Hc1 Hs) as (Hc2 & Hk & Hw2). split; [done|]. destruct Hw1 as [E1|[E1 Hs1]].
  - rewrite <- E1. exact Hw2.
  - right. destruct (Hk Hs1) as [E2 ?]. by rewrite E2, E1.
Qed.

(** Whatever runs on a handle, whenever and however often it is closed: a
    cleanup that succeeded left nothing in flight, and the last statement the
    connection was sent is a rollback, unless none was ever sent; at most one
    rollback is sent; and once the handle is closed the connection is sent
    nothing else, whatever is asked of it. *)
Theorem close_leaves_clean h :
  handle_run createClientDb h ->
  (cleanup h = Some Clean -> inFlight h = [] /\ (wire h = [] \/ last (wire h) = Some Rollback)) /\
  (rollbacks h <= 1)%nat /\
  (closed h = true -> forall id, query id h = None) /\
  (closed h = true -> forall h', handle_run h h' -> closed h' = true /\ (wire h' = wire h \/ wire h' = wire h ++ [Rollback])).
Proof.
  intros Hr. assert (Hok : HandleOk h).
  { remember createClientDb as h0 eqn:E. induction Hr as [h0|h0 h1 h2 _ IH Hs]; [by subst|].
    eapply handle_step_ok; [by apply IH|done]. }
  split_and!.
  - destruct Hok as [Hp _]. unfold phase_ok in Hp. intros E. rewrite E in Hp. destruct Hp as (_ & Hf & Hw).
    split; [done|]. destruct Hw as [|(l & -> & _)]; [by left|right; apply last_snoc].
  - destruct Hok as [Hp _]. unfold phase_ok, rollbacks in *. destruct (cleanup h) as [[until| | |e]|].
    + destruct Hp. lia.
    + destruct Hp as (_ & _ & l & -> & Hl). by rewrite one_rollback.
    + destruct Hp as (_ & _ & [->|(l & -> & Hl)]); [simpl; lia|by rewrite one_rollback].
    + tauto.
    + lia.
  - intros Hc id. unfold query. by rewrite Hc.
  - intros Hc h' Hrun. destruct (closed_run h h' Hc Hrun) as [? [?|[? _]]]; tauto.
Qed.

(** ** [managedTransaction] *)
Section Managed.
Context {X T : Type} (begin_ : string).

Inductive LeaseE :=
| Checkout
| ConnectionError
| Statement_ (sql : string)
| Body
| CloseScoped (withinMs : Z)
| ReleaseClient (destroyed : bool)
| OffError.

(** A checkout that fails; whether the connection has failed so far; the ends of
    a statement, of the caller's work and of the handle's cleanup. *)
Definition LeaseA (e : LeaseE) : Type :=
  match e with
  | Checkout => option X
  | ConnectionError => option X
  | Statement_ _ => option X
  | Body => outcome X T
  | CloseScoped _ => option X
  | ReleaseClient _ | OffError => unit
  end.

#[local] Abbreviation lease A := (prog (E := LeaseE) LeaseA A).

Definition orThrow (e : LeaseE) (thrown : LeaseA e -> option X) (k : lease (outcome X T)) : lease (outcome X T) :=
  Op (ans := LeaseA) e (fun r => match thrown r with Some x => Ret (Throws x) | None => k end).

(** The [try]: a value means that [clean] was set. *)
Definition lease_body : lease (outcome X T) :=
  orThrow ConnectionError (fun r => r)
    (orThrow (Statement_ begin_) (fun r => r)
      (do! result := Body in
       match result with
       | Throws x => Ret (Throws x)
       | Value v =>
           orThrow ConnectionError (fun r => r)
             (orThrow (Statement_ "COMMIT") (fun r => r)
               (orThrow (CloseScoped 1000) (fun r => r)
                 (orThrow ConnectionError (fun r => r) (Ret (Value v)))))
       end)%prog).

Definition managedTransaction : lease (outcome X T) :=
  (do! acquired := Checkout in
   match acquired with
   | Some x => Ret (Throws x)
   | None =>
       run! r := lease_body in
       let clean := match r with Value _ => true | Throws _ => false end in
       run! fence := (if clean then Ret None else call (CloseScoped 0)) in
       do! error := ConnectionError in
       do! released := ReleaseClient (negb clean || bool_decide (is_Some error)) in
       do! error := ConnectionError in
       if clean && bool_decide (error = None) then do! off := OffError in Ret r else Ret r
   end)%prog.

#[local] Abbreviation lease_event := (event (E := LeaseE) LeaseA).

(** What became of the client, in order. *)
Definition released (tr : list lease_event) : list bool :=
  flat_map (fun e => match projT1 e with ReleaseClient d => [d] | _ => [] end) tr.

#[local] Abbreviation did e x := (ev (ans := LeaseA) e x).

(** The transaction's way to a value. *)
Definition committed (v : T) : list lease_event :=
  [did Checkout None; did ConnectionError None; did (Statement_ begin_) None; did Body (Value v);
   did ConnectionError None; did (Statement_ "COMMIT") None; did (CloseScoped 1000) None; did ConnectionError None].

Lemma lease_body_runs tr r :
  runs lease_body tr r ->
  released tr = [] /\ forall v, r = Value v -> did Checkout None :: tr = committed v.
Proof.
  unfold lease_body, orThrow. simpl. intros (e1 & tr1 & -> & H). destruct e1; [by destruct H as [-> ->]|].
  destruct H as (e2 & tr2 & -> & H). destruct e2; [by destruct H as [-> ->]|].
  destruct H as (b & tr3 & -> & H). destruct b as [v|]; [|by destruct H as [-> ->]].
  destruct H as (e4 & tr4 & -> & H). destruct e4; [by destruct H as [-> ->]|].
  destruct H as (e5 & tr5 & -> & H). destruct e5; [by destruct H as [-> ->]|].
  destruct H as (e6 & tr6 & -> & H). destruct e6; [by destruct H as [-> ->]|].
  destruct H as (e7 & tr7 & -> & H). destruct e7; [by destruct H as [-> ->]|].
  destruct H as [-> ->]. split; [done|]. by intros v' [= ->].
Qed.

Lemma released_app tr1 tr2 : released (tr1 ++ tr2) = released tr1 ++ released tr2.
Proof. apply flat_map_app. Qed.

(** Every client a transaction takes it gives back exactly once, whatever
    fails. A value is returned only when the caller's work produced it inside an
    answered BEGIN and COMMIT and the handle was closed clean after them; and
    the client goes back to the pool alive only then, and only when its
    connection had not failed. *)
Theorem managedTransaction_leases tr r :
  runs managedTransaction tr r ->
  ((exists x, tr = [did Checkout (Some x)] /\ r = Throws x) \/
   exists destroyed, released tr = [destroyed] /\
     (destroyed = false -> exists v tl, r = Value v /\
        tr = committed v ++ did ConnectionError None :: did (ReleaseClient false) tt :: tl)) /\
  (forall v, r = Value v -> exists tl, tr = committed v ++ tl).
Proof.
  unfold managedTransaction. intros (x & tr0 & -> & H). destruct x as [x|].
  { destruct H as [-> ->]. split; [left; by exists x|done]. }
  apply runs_bind in H as (tr1 & tr2 & r1 & -> & H1 & H). apply lease_body_runs in H1 as [Hr1 Hv1].
  apply runs_bind in H as (tr3 & tr4 & f & -> & H3 & H).
  assert (Hr3 : released tr3 = []) by (destruct r1; [by destruct H3 as [-> ->]|by destruct H3 as (? & ? & -> & -> & _)]).
  destruct H as (err & tr5 & -> & u & tr6 & -> & err2 & tr7 & -> & H). destruct u.
  assert (Hend : released tr7 = [] /\ r = r1) by (destruct (_ && _); [destruct H as (? & ? & -> & -> & ->)|destruct H as [-> ->]]; done).
  destruct Hend as [Hr7 ->]. split.
  - right. eexists. split.
    + change (did Checkout None :: tr1 ++ ?t) with ([did Checkout None] ++ tr1 ++ t).
      rewrite !released_app, Hr1, Hr3. simpl. by rewrite Hr7.
    + intros [Hc He]%orb_false_iff. destruct r1 as [v|]; [|done]. destruct err as [e|]; [by case_bool_decide as E; destruct E|].
      destruct H3 as [-> _]. exists v. eexists. split; [done|]. rewrite <- (Hv1 v eq_refl). simpl. reflexivity.
  - intros v ->. destruct H3 as [-> _]. eexists. rewrite <- (Hv1 v eq_refl). reflexivity.
Qed.
End Managed.
