(* ===== verification/Cookies.v ===== *)
(** * The credential cookies

    [apps/gateway/src/session-cookie.ts], [owner.ts] and the stricter reader of
    [session.ts]. A byte is a number below 256. *)
From S2P Require Import Prelude JsString JsNumber Spec Db Auth.
#[local] Open Scope string_scope.
#[local] Open Scope list_scope.
#[local] Open Scope nat_scope.
Definition SESSION_COOKIE : string := "__Host-albus_session".
Definition ANON_OWNER_COOKIE : string := "__Host-albus_anon".
Definition SESSION_MAX_AGE_S : Z := 30 * 24 * 60 * 60.
Definition COOKIE_ATTRIBUTES : string := "Path=/; Secure; HttpOnly; SameSite=Lax".

(** ** [base64url] without padding *)
Definition B64_ALPHABET : string := "ABCDEFGHIJKLMNOPQRSTUVWXYZabcdefghijklmnopqrstuvwxyz0123456789-_".
Definition b64_char (n : nat) : ascii := default "A"%char (String.get n B64_ALPHABET).
Definition b64_value (c : ascii) : option nat := index_of c B64_ALPHABET.

(** The [w] low bits of a number, the highest first, and back. *)
Fixpoint bits (w n : nat) : list bool :=
  match w with O => [] | S w => Nat.odd (n / 2 ^ w) :: bits w n end.
Definition of_bits (l : list bool) : nat := fold_left (fun n b => 2 * n + (if b : bool then 1 else 0)) l 0.

(** Six bits at a time, the last ones padded with zeros; eight at a time, what is
    left over dropped. *)
Fixpoint sextets (l : list bool) : list (list bool) :=
  match l with
  | a :: b :: c :: d :: e :: f :: l => [a; b; c; d; e; f] :: sextets l
  | [] => []
  | l => [take 6 (l ++ replicate 6 false)]
  end.
Fixpoint octets (l : list bool) : list (list bool) :=
  match l with
  | a :: b :: c :: d :: e :: f :: g :: h :: l => [a; b; c; d; e; f; g; h] :: octets l
  | _ => []
  end.

Definition of_chars (l : list ascii) : string := string_of_list_ascii l.
Definition base64url (bytes : list nat) : string :=
  of_chars ((fun s => b64_char (of_bits s)) <$> sextets (flat_map (bits 8) bytes)).
(** [Buffer.from(s, "base64url")] of a text of the alphabet. *)
Definition from_base64url (s : string) : list nat :=
  of_bits <$> octets (flat_map (fun c => bits 6 (default O (b64_value c))) (list_ascii_of_string s)).

Definition is_b64 (c : ascii) : bool :=
  in_range "A" "Z" c || in_range "a" "z" c || is_digit c || Ascii.eqb c "_" || Ascii.eqb c "-".
(** [/^[A-Za-z0-9_-]{43}$/] *)
Definition TOKEN_PATTERN (s : string) : bool := Nat.eqb (String.length s) 43 && all_chars is_b64 s.

(** ** Writing *)

(** [randomBytes] are an argument. *)
Definition newSessionToken (random : list nat) : string := base64url random.
Definition newAnonToken (random : list nat) : string := base64url random.

Definition set_cookie (name value : string) (maxAgeS : Z) : string :=
  (name ++ "=" ++ value ++ "; " ++ COOKIE_ATTRIBUTES ++ "; Max-Age=" ++ JsNumber.ToString.dec maxAgeS)%string.
Definition sessionSetCookie (token : string) (maxAgeS : Z) : string := set_cookie SESSION_COOKIE token maxAgeS.
Definition sessionClearCookie : string := set_cookie SESSION_COOKIE "" 0.
Definition anonOwnerClearCookie : string := set_cookie ANON_OWNER_COOKIE "" 0.
Definition ANON_COOKIE_MAX_AGE_S : Z := 30 * 24 * 60 * 60.
Definition anonOwnerSetCookie (token : string) : string := set_cookie ANON_OWNER_COOKIE token ANON_COOKIE_MAX_AGE_S.

(** ** Reading a header *)

(** A pair: the name, trimmed, and the value, trimmed. *)
Definition cookie_pair (pair : string) : option (string * string) :=
  (fun i => (trim (slice_to i pair), trim (slice_from (S i) pair))) <$> index_of "=" pair.
Definition cookies_named (name header : string) : list string :=
  flat_map (fun pair => match cookie_pair pair with
                        | Some (n, v) => if n ==s name then [v] else []
                        | None => []
                        end) (split_on ";" header).

(** A header sent more than once is joined. *)
Definition raw_header (header : option (string + list string)) : option string :=
  match header with
  | Some (inl s) => Some s
  | Some (inr l) => Some (join "; " l)
  | None => None
  end.

Definition cookieValue (header : option (string + list string)) (name : string) : option string :=
  raw_header header ≫= fun raw => head (cookies_named name raw).

Definition sessionTokenFromCookieHeader (header : option (string + list string)) : option string :=
  match cookieValue header SESSION_COOKIE with
  | Some v => if TOKEN_PATTERN v then Some v else None
  | None => None
  end.

(** The first well-formed one wins here. *)
Definition anonTokenFromCookieHeader (header : option (string + list string)) : option string :=
  raw_header header ≫= fun raw => List.find TOKEN_PATTERN (cookies_named ANON_OWNER_COOKIE raw).

(** [sessionTokenHash]: exactly one cookie, spelled as [base64url] spells it. *)
Definition canonical (token : string) : bool := base64url (from_base64url token) ==s token.
Definition sessionTokenHash (sha256 : string -> string) (cookie : option string) : result Denied string :=
  match cookies_named SESSION_COOKIE (default "" cookie) with
  | [token] => if TOKEN_PATTERN token && canonical token then Ok (hashSessionToken sha256 token) else Err SignInRequired
  | _ => Err SignInRequired
  end.

(** ** The credential cookies, there and back *)
(** ** [base64url] *)
Lemma bits_octet n : n < 256 -> of_bits (bits 8 n) = n.
Proof.
  intros H. assert (Hall : forallb (fun n => Nat.eqb (of_bits (bits 8 n)) n) (seq 0 256) = true) by (vm_compute; reflexivity).
  rewrite forallb_elem in Hall. apply Nat.eqb_eq, Hall. apply elem_of_seq. lia.
Qed.

Lemma b64_char_value n : n < 64 -> b64_value (b64_char n) = Some n.
Proof.
  intros H. assert (Hall : forallb (fun n => bool_decide (b64_value (b64_char n) = Some n)) (seq 0 64) = true) by (vm_compute; reflexivity).
  rewrite forallb_elem in Hall. eapply bool_decide_eq_true_1, Hall. apply elem_of_seq. lia.
Qed.

Lemma sextet_bits l : length l = 6 -> of_bits l < 64 /\ bits 6 (of_bits l) = l.
Proof.
  destruct l as [|a [|b [|c [|d [|e [|f [|]]]]]]]; try done. intros _.
  destruct a, b, c, d, e, f; (split; [vm_compute; lia|vm_compute; reflexivity]).
Qed.

Lemma sextets_concat n : forall l, length l <= n ->
  Forall (fun s => length s = 6) (sextets l) /\ exists k, k < 6 /\ List.concat (sextets l) = l ++ replicate k false.
Proof.
  induction n as [|n IH]; intros l Hl.
  { destruct l; [|simpl in Hl; lia]. split; [constructor|]. by exists 0; split; [lia|]. }
  destruct l as [|a [|b [|c [|d [|e [|f l]]]]]].
  1: { split; [constructor|]. by exists 0; split; [lia|]. }
  1-5: split; [by repeat constructor|].
  - by exists 5; split; [lia|].
  - by exists 4; split; [lia|].
  - by exists 3; split; [lia|].
  - by exists 2; split; [lia|].
  - by exists 1; split; [lia|].
  - destruct (IH l) as (Hf & k & Hk & Hc); [simpl in Hl; lia|]. split; [by constructor|]. exists k. split; [done|].
    simpl. by rewrite Hc.
Qed.

Lemma octets_bytes bytes k : k < 8 -> octets (flat_map (bits 8) bytes ++ replicate k false) = bits 8 <$> bytes.
Proof.
  intros Hk. induction bytes as [|b bytes IH]; simpl; [|by f_equal].
  do 8 (destruct k as [|k]; [done|]). lia.
Qed.

Lemma from_chars_sextets l :
  Forall (fun s => length s = 6) l ->
  flat_map (fun c => bits 6 (default 0 (b64_value c))) ((fun s => b64_char (of_bits s)) <$> l) = List.concat l.
Proof.
  induction 1 as [|s l Hs _ IH]; [done|]. cbn [fmap list_fmap flat_map List.concat]. rewrite <- IH. f_equal.
  destruct (sextet_bits s Hs) as [Hlt Hb]. by rewrite b64_char_value.
Qed.

Lemma base64url_roundtrip bytes : Forall (fun b => b < 256) bytes -> from_base64url (base64url bytes) = bytes.
Proof.
  intros Hb. unfold from_base64url, base64url, of_chars. rewrite list_ascii_of_string_of_list_ascii.
  destruct (sextets_concat _ (flat_map (bits 8) bytes) (le_n _)) as (Hf & k & Hk & Hc).
  rewrite from_chars_sextets, Hc, octets_bytes by (done || lia). clear Hf Hc.
  induction Hb as [|b bytes Hlt _ IH]; simpl; [done|]. f_equal; [by apply bits_octet|exact IH].
Qed.

Lemma get_all_chars p s n c : all_chars p s = true -> String.get n s = Some c -> p c = true.
Proof.
  revert n. induction s as [|d s IH]; intros [|n]; simpl; try done; intros [Hd Hs]%andb_true_iff; [by intros [= <-]|by apply IH].
Qed.

Lemma b64_char_is n : is_b64 (b64_char n) = true.
Proof.
  unfold b64_char. destruct (String.get n B64_ALPHABET) as [c|] eqn:E; [|done]. simpl.
  eapply get_all_chars; [|exact E]. vm_compute. reflexivity.
Qed.

Lemma all_chars_of_list p l : Forall (fun c => p c = true) l -> all_chars p (of_chars l) = true.
Proof. induction 1 as [|c l Hc _ IH]; simpl; [done|]. by rewrite Hc. Qed.
Lemma length_of_chars l : String.length (of_chars l) = length l.
Proof. induction l; simpl; auto. Qed.

Lemma flat_map_length {A B} (f : A -> list B) n l : (forall x, length (f x) = n) -> length (flat_map f l) = n * length l.
Proof. intros H. induction l as [|x l IH]; simpl; [lia|]. rewrite length_app, H, IH. lia. Qed.

Lemma token_pattern bytes : length bytes = 32 -> TOKEN_PATTERN (base64url bytes) = true.
Proof.
  intros Hl. unfold TOKEN_PATTERN, base64url. rewrite length_of_chars, length_fmap.
  destruct (sextets_concat _ (flat_map (bits 8) bytes) (le_n _)) as (Hf & k & Hk & Hc).
  assert (E : 6 * length (sextets (flat_map (bits 8) bytes)) = 256 + k).
  { transitivity (length (List.concat (sextets (flat_map (bits 8) bytes)))).
    - clear -Hf. induction Hf as [|x l Hx _ IH]; simpl; [done|]. rewrite length_app, <- IH, Hx. lia.
    - rewrite Hc, length_app, length_replicate, (flat_map_length (bits 8) 8) by done. by rewrite Hl. }
  apply andb_true_iff. split; [apply Nat.eqb_eq; lia|]. apply all_chars_of_list, Forall_fmap, Forall_forall.
  intros s _. apply b64_char_is.
Qed.

(** ** Headers *)
Lemma split_join_pairs (pairs : list string) :
  pairs <> [] -> Forall (fun p => index_of ";" p = None) pairs ->
  split_on ";" (join "; " pairs) = match pairs with p :: ps => p :: (String " " <$> ps) | [] => [] end.
Proof.
  intros Hne Hf. destruct pairs as [|p ps]; [done|]. clear Hne. revert p Hf. induction ps as [|q ps IH]; intros p Hf.
  - simpl. apply Forall_cons in Hf as [Hp _]. by apply split_on_none.
  - apply Forall_cons in Hf as [Hp Hf]. change (join "; " (p :: q :: ps)) with (p ++ String ";" (String " " (join "; " (q :: ps))))%string.
    rewrite split_on_app by done. f_equal. specialize (IH q Hf).
    change (split_on ";" (String " " (join "; " (q :: ps)))) with
      (match split_on ";" (join "; " (q :: ps)) with [] => [String " " EmptyString] | w :: ws => String " " w :: ws end).
    by rewrite IH.
Qed.

Lemma cookie_pair_space p : cookie_pair (String " " p) = cookie_pair p.
Proof.
  unfold cookie_pair. change (index_of "=" (String " " p)) with (S <$> index_of "=" p). by destruct (index_of "=" p).
Qed.

(** What the pairs of a header hold under a name. *)
Definition named (name : string) (pair : string) : list string :=
  match cookie_pair pair with Some (n, v) => if n ==s name then [v] else [] | None => [] end.

Lemma cookies_named_pairs name pairs :
  Forall (fun p => index_of ";" p = None) pairs -> cookies_named name (join "; " pairs) = flat_map (named name) pairs.
Proof.
  intros Hf. destruct pairs as [|p ps]; [done|]. 
  change (flat_map (named name) (split_on ";" (join "; " (p :: ps))) = flat_map (named name) (p :: ps)).
  rewrite split_join_pairs by done. cbn [flat_map]. f_equal. clear Hf. induction ps as [|q ps IH]; [done|].
  cbn [fmap list_fmap flat_map]. f_equal; [|exact IH]. unfold named. by rewrite cookie_pair_space.
Qed.

Lemma named_self name v :
  all_chars (fun c => visible c && negb (Ascii.eqb "=" c)) name = true -> all_chars visible v = true ->
  named name (name ++ "=" ++ v) = [v].
Proof.
  intros Hn Hv. unfold named, cookie_pair. change (name ++ "=" ++ v)%string with (name ++ String "=" v)%string.
  rewrite index_of_char; [|eapply all_chars_impl; [|exact Hn]; by intros c [? ?]%andb_true_iff].
  simpl. rewrite slice_to_app, visible_trim; [|eapply all_chars_impl; [|exact Hn]; by intros c [? ?]%andb_true_iff].
  rewrite String.eqb_refl. do 2 f_equal.
  assert (E : slice_from (S (String.length name)) (name ++ String "=" v) = v) by (clear; induction name; simpl; auto).
  transitivity (trim v); [exact (f_equal trim E)|by apply visible_trim].
Qed.

Lemma b64_visible c : is_b64 c = true -> visible c = true /\ Ascii.eqb ";" c = false.
Proof. destruct c as [[] [] [] [] [] [] [] []]; by vm_compute. Qed.

Lemma no_char_app c s t : index_of c s = None -> index_of c t = None -> index_of c (s ++ t)%string = None.
Proof. intros Hs Ht. by rewrite index_of_app, Ht. Qed.

Lemma all_chars_no_char c p s : (forall d, p d = true -> Ascii.eqb c d = false) -> all_chars p s = true -> index_of c s = None.
Proof.
  intros H. induction s as [|d s IH]; simpl; [done|]. intros [Hd Hs]%andb_true_iff. by rewrite (H d Hd), IH.
Qed.

Section Roundtrip.
Context (sha256 : string -> string).

(** Other cookies of a header: any pairs of other names. *)
Definition others (name : string) (pairs : list string) : Prop :=
  Forall (fun p => index_of ";" p = None /\ named name p = []) pairs.

Lemma read_back name value before after :
  all_chars (fun c => visible c && negb (Ascii.eqb "=" c) && negb (Ascii.eqb ";" c)) name = true -> all_chars is_b64 value = true ->
  others name before -> others name after ->
  cookies_named name (join "; " (before ++ [name ++ "=" ++ value]%string ++ after)) = [value].
Proof.
  intros Hn Hv Hb Ha. assert (Hnone : forall l, others name l -> flat_map (named name) l = []).
  { induction 1 as [|p l [_ Hp] _ IH]; simpl; [done|]. by rewrite Hp. }
  assert (Hsemi : forall l, others name l -> Forall (fun p => index_of ";" p = None) l).
  { intros l Hl. eapply Forall_impl; [exact Hl|]. by intros p [? _]. }
  rewrite cookies_named_pairs.
  - rewrite !flat_map_app, (Hnone before Hb), (Hnone after Ha), app_nil_r. cbn [flat_map app]. rewrite app_nil_r. apply named_self.
    + eapply all_chars_impl; [|exact Hn]. intros c. by intros [? _]%andb_true_iff.
    + eapply all_chars_impl; [|exact Hv]. intros c Hc. by apply b64_visible.
  - apply Forall_app. split; [by apply Hsemi|]. constructor; [|by apply Hsemi].
    apply no_char_app; [|apply no_char_app; [done|]].
    + eapply all_chars_no_char; [|exact Hn]. intros d [_ Hd]%andb_true_iff. by apply negb_true_iff.
    + eapply all_chars_no_char; [|exact Hv]. intros d Hd. by apply b64_visible.
Qed.

Lemma token_chars s : TOKEN_PATTERN s = true -> all_chars is_b64 s = true.
Proof. unfold TOKEN_PATTERN. by intros [_ ?]%andb_true_iff. Qed.

(** A token of 32 random bytes set as a cookie reads back as itself from any
    header the browser may send it in, whatever other cookies stand around it: by
    the session reader, by the stricter reader of the data routes, which finds it
    under the hash the session was stored with, and for the anonymous owner; and
    whatever the stricter reader accepts, the other reads as the same token. *)
Theorem tokens_read_back random before after :
  length random = 32 -> Forall (fun b => b < 256) random ->
  let token := newSessionToken random in
  (others SESSION_COOKIE before -> others SESSION_COOKIE after ->
   let header := join "; " (before ++ [SESSION_COOKIE ++ "=" ++ token]%string ++ after) in
   sessionTokenFromCookieHeader (Some (inl header)) = Some token /\
   sessionTokenHash sha256 (Some header) = Ok (hashSessionToken sha256 token)) /\
  (others ANON_OWNER_COOKIE before -> others ANON_OWNER_COOKIE after ->
   anonTokenFromCookieHeader (Some (inl (join "; " (before ++ [ANON_OWNER_COOKIE ++ "=" ++ token]%string ++ after)))) = Some token) /\
  (forall header h, sessionTokenHash sha256 (Some header) = Ok h ->
   exists t, sessionTokenFromCookieHeader (Some (inl header)) = Some t /\ h = hashSessionToken sha256 t).
Proof.
  intros Hl Hb. cbv zeta. assert (Ht : TOKEN_PATTERN (newSessionToken random) = true) by (by apply token_pattern).
  split_and!.
  - intros H1 H2.
    pose proof (read_back SESSION_COOKIE (newSessionToken random) before after eq_refl (token_chars _ Ht) H1 H2) as E.
    revert E. generalize (join "; " (before ++ [(SESSION_COOKIE ++ "=" ++ newSessionToken random)%string] ++ after)).
    intros header E. unfold sessionTokenFromCookieHeader, sessionTokenHash, cookieValue, raw_header. simpl. rewrite E. simpl. rewrite Ht.
    split; [done|]. simpl. unfold canonical, newSessionToken. by rewrite base64url_roundtrip, String.eqb_refl.
  - intros H1 H2.
    pose proof (read_back ANON_OWNER_COOKIE (newSessionToken random) before after eq_refl (token_chars _ Ht) H1 H2) as E.
    unfold anonTokenFromCookieHeader, raw_header. revert E.
    generalize (join "; " (before ++ [(ANON_OWNER_COOKIE ++ "=" ++ newSessionToken random)%string] ++ after)).
    intros header E. simpl. rewrite E. simpl. by rewrite Ht.
  - intros header h. unfold sessionTokenHash, sessionTokenFromCookieHeader, cookieValue, raw_header. simpl.
    destruct (cookies_named SESSION_COOKIE header) as [|t [|]]; [done| |done]. simpl. destruct (TOKEN_PATTERN t); [|done]. simpl.
    destruct (canonical t); [|done]. intros [= <-]. by exists t.
Qed.
End Roundtrip.
