(* ===== verification/Access.v ===== *)
(** * Who a request acts as

    The three guards of the gateway's data routes: [withSession]
    ([apps/gateway/src/session.ts]), [withAuthorizedRead]
    ([authorized-read.ts]) and [withAuthorizedWrite] ([authorized-write.ts]),
    each as what its queries read of one snapshot of the tables. *)
From stdpp Require Import relations.
From S2P Require Import Prelude JsString Regex Spec Db Auth SessionFamily Cookies.
#[local] Open Scope string_scope.
#[local] Open Scope list_scope.
#[local] Open Scope nat_scope.

(** ** [tenantSlug] *)

(** [replace(/:\d+$/, "")] and [replace(/\.$/, "")] *)
Fixpoint strip_port (s : string) : string :=
  match s with
  | EmptyString => EmptyString
  | String c s' => if Ascii.eqb c ":" && all_digits s' then EmptyString else String c (strip_port s')
  end.
Fixpoint strip_dot (s : string) : string :=
  match s with
  | EmptyString => EmptyString
  | String "." EmptyString => EmptyString
  | String c s' => String c (strip_dot s')
  end.
Definition host_name (host : string) : string := strip_dot (strip_port (lower host)).

Definition PUBLIC_DOMAIN : string := ".albusforge.ai".
Definition RESERVED_SLUGS : list string := ["app"; "api"; "www"; "ingest"].
Definition is_slug_char (c : ascii) : bool := in_range "a" "z" c || is_digit c.
Definition SLUG_PATTERN : re :=
  Cat (Chr is_slug_char) (ropt (Cat (Star (Chr (fun c => is_slug_char c || Ascii.eqb c "-"))) (Chr is_slug_char))).

Definition tenantSlug (host : string) : result Denied (option string) :=
  let name := host_name host in
  if (name ==s "albusforge.ai") || (name ==s "staging.albusforge.ai") then Ok None
  else if negb (endsWith PUBLIC_DOMAIN name) then Ok None
  else
    let slug := slice_to (String.length name - String.length PUBLIC_DOMAIN) name in
    if negb (test SLUG_PATTERN slug) || inb slug RESERVED_SLUGS then Err UnknownTenantHost else Ok (Some slug).

Section Guards.
Context (sha256 : string -> string).

(** The hash of the request's token, and the tenant its host names. *)
Definition identify {A} (cookie : option string) (host : string) (k : string -> option string -> result Denied A) : result Denied A :=
  (let! hash := sessionTokenHash sha256 cookie in let! slug := tenantSlug host in k hash slug)%forge.

Definition withSession (d : AuthDb) (now : Z) (cookie : option string) (host : string) : result Denied (string * string) :=
  identify cookie host (fun hash slug => authorize d now hash slug).

(** Every parent a row names is among the rows. *)
Definition parents_seen (chain : list SessionRow) : bool :=
  forallb (fun s => match ss_parentSessionId s with Some p => inb p (ss_id <$> chain) | None => true end) chain.

Definition member_role (d : AuthDb) (tenantId userId : string) : option TenantRole :=
  mb_role <$> List.find (fun m => (mb_tenantId m ==s tenantId) && (mb_userId m ==s userId)) (t_members d).

Definition own_session (d : AuthDb) (hash : string) : option (SessionRow * list SessionRow) :=
  (fun s => (s, up (t_sessions d) (ss_id s))) <$> List.find (fun s => ss_tokenHash s ==s hash) (t_sessions d).

Definition withAuthorizedRead (d : AuthDb) (now : Z) (cookie : option string) (host : string)
    : result Denied (string * string * TenantRole) :=
  identify cookie host (fun hash slug =>
    match own_session d hash with
    | None => Err SignInRequired
    | Some (s, chain) =>
        if negb (valid_chain now (ss_userId s) chain && parents_seen chain) then Err SignInRequired
        else match request_tenant d slug s with
             | None => Err UnknownTenant
             | Some t =>
                 match member_role d (tn_id t) (ss_userId s) with
                 | None => Err MembershipRequired
                 | Some role => Ok (tn_id t, ss_userId s, role)
                 end
             end
    end).

(** [checkExpiry], before the work and again after it. *)
Definition unexpired (now : Z) (chain : list SessionRow) : bool := forallb (fun s => negb (ss_expiresAt s <=? now)%Z) chain.
Definition may_write (role : TenantRole) : bool := match role with role_admin | role_operator => true | role_viewer => false end.

Definition withAuthorizedWrite (d : AuthDb) (now after : Z) (cookie : option string) (host : string) (expectedTenant : option string)
    : result Denied (string * string) :=
  identify cookie host (fun hash slug =>
    match own_session d hash with
    | None => Err SignInRequired
    | Some (s, chain) =>
        if negb (forallb (fun x => unrevoked x && (ss_userId x ==s ss_userId s)) chain && parents_seen chain) then Err SignInRequired
        else if negb (unexpired now chain) then Err SignInRequired
        else match request_tenant d slug s with
             | None => Err UnknownTenant
             | Some t =>
                 if match expectedTenant with Some e => negb (tn_id t ==s e) | None => false end then Err WorkspaceChanged
                 else match member_role d (tn_id t) (ss_userId s) with
                      | Some role =>
                          if negb (may_write role) then Err RoleRequired
                          else if negb (unexpired after chain) then Err SignInRequired
                          else Ok (tn_id t, ss_userId s)
                      | None => Err RoleRequired
                      end
             end
    end).
End Guards.

(** ** The guards against each other *)
Lemma parents_up l s : forest l -> s ∈ l -> parents_seen (up l (ss_id s)) = true.
Proof.
  intros Hl Hs. apply forallb_elem. intros x Hx. destruct (ss_parentSessionId x) as [p|] eqn:Ep; [|done].
  apply inb_true. apply elem_of_ancestors in Hx as (Hx & n & _ & Hn & Hid); [|done].
  pose proof Hx as [i Hi]%list_elem_of_lookup. destruct (fo_parents _ Hl _ _ _ Hi Ep) as (j & q & _ & Hq & <-).
  apply list_elem_of_fmap. exists q. split; [done|]. apply list_elem_of_lookup_2 in Hq. apply elem_of_ancestors; [done|].
  split; [done|]. exists (S n). assert (Hp : nsteps (child l) (S n) (ss_id q) (ss_id s)).
  { econstructor; [|exact Hn]. by exists x. }
  split_and!; [by apply (path_short l Hl _ (ss_id q) s)|done|done].
Qed.

Lemma valid_split now u chain :
  valid_chain now u chain = forallb (fun x => unrevoked x && (ss_userId x ==s u)) chain && unexpired now chain.
Proof.
  unfold valid_chain, unexpired. induction chain as [|x chain IH]; simpl; [done|]. rewrite IH. unfold alive, unrevoked.
  rewrite Z.ltb_antisym. destruct (ss_revokedAt x), (_ <=? _)%Z, (_ ==s _), (forallb _ chain); simpl; rewrite ?andb_false_r; done.
Qed.

Lemma unexpired_before now after chain : (now <= after)%Z -> unexpired after chain = true -> unexpired now chain = true.
Proof.
  intros Hle. unfold unexpired. rewrite !forallb_elem. intros H x Hx. specialize (H x Hx).
  apply negb_true_iff, Z.leb_gt in H. apply negb_true_iff, Z.leb_gt. lia.
Qed.

Lemma member_role_spec d t u : is_member d t u = bool_decide (is_Some (member_role d t u)).
Proof.
  unfold is_member, member_role. symmetry. destruct (existsb _ (t_members d)) eqn:E; case_bool_decide as H; try done.
  - apply existsb_elem in E as (m & Hm & Hb). destruct H. destruct (List.find _ _) as [y|] eqn:Ef; [by eexists|].
    by rewrite (proj1 (find_None_forall _ _) Ef m Hm) in Hb.
  - destruct H as [r Hr]. destruct (List.find _ _) as [y|] eqn:Ef; [|done]. apply find_Some_elem in Ef as [Hy Hb].
    assert (Hx : existsb (fun m => (mb_tenantId m ==s t) && (mb_userId m ==s u)) (t_members d) = true) by (apply existsb_elem; by exists y).
    congruence.
Qed.

Section Agree.
Context (sha256 : string -> string) (d : AuthDb) (Hd : forest (t_sessions d)).

(** What a request asks for: its session, and the tenant its host or its session
    names. *)
Definition asks_as (now : Z) (cookie : option string) (host : string) (s : SessionRow) (t : TenantRow) : Prop :=
  exists hash slug, sessionTokenHash sha256 cookie = Ok hash /\ tenantSlug host = Ok slug /\
    session_of d now hash = Some s /\ request_tenant d slug s = Some t.

Lemma own_session_of now hash :
  session_of d now hash =
    match own_session d hash with
    | Some (s, chain) => if valid_chain now (ss_userId s) chain && parents_seen chain then Some s else None
    | None => None
    end.
Proof using Hd.
  unfold session_of, own_session. destruct (List.find _ _) as [s|] eqn:E; [|done]. simpl.
  apply find_Some_elem in E as [Hs _]. by rewrite (parents_up _ _ Hd Hs), andb_true_r.
Qed.

Lemma session_reads now cookie host t u role :
  withAuthorizedRead sha256 d now cookie host = Ok (t, u, role) <->
  exists s tn, asks_as now cookie host s tn /\ t = tn_id tn /\ u = ss_userId s /\ member_role d t u = Some role.
Proof using Hd.
  unfold withAuthorizedRead, identify, asks_as, rbind. destruct (sessionTokenHash sha256 cookie) as [hash|e]; [|naive_solver].
  destruct (tenantSlug host) as [slug|e]; [|naive_solver]. pose proof (own_session_of now hash) as Hs.
  destruct (own_session d hash) as [[s chain]|]; [|naive_solver].
  destruct (valid_chain now (ss_userId s) chain && parents_seen chain); simpl; [|naive_solver].
  destruct (request_tenant d slug s) as [tn|] eqn:Et; [|naive_solver].
  destruct (member_role d (tn_id tn) (ss_userId s)) eqn:Em; naive_solver.
Qed.

Lemma writes_read now after cookie host expected t u :
  (now <= after)%Z ->
  withAuthorizedWrite sha256 d now after cookie host expected = Ok (t, u) <->
  (exists role, withAuthorizedRead sha256 d after cookie host = Ok (t, u, role) /\ may_write role = true) /\
  (expected = None \/ expected = Some t).
Proof using Hd.
  intros Hle. unfold withAuthorizedWrite, withAuthorizedRead, identify, rbind.
  destruct (sessionTokenHash sha256 cookie) as [hash|e]; [|naive_solver]. destruct (tenantSlug host) as [slug|e]; [|naive_solver].
  destruct (own_session d hash) as [[s chain]|]; [|naive_solver]. rewrite valid_split.
  destruct (forallb _ chain && parents_seen chain) eqn:Ef; simpl.
  2: { match goal with |- context [?a && ?b && parents_seen chain] =>
         assert (E : a && b && parents_seen chain = false) by (destruct a, b, (parents_seen chain); done); rewrite E end.
       simpl. naive_solver. }
  apply andb_true_iff in Ef as [-> ->]. simpl. rewrite andb_true_r.
  destruct (unexpired after chain) eqn:Ea; simpl.
  - rewrite (unexpired_before _ _ _ Hle Ea). simpl. destruct (request_tenant d slug s) as [tn|]; [|naive_solver].
    destruct (member_role d (tn_id tn) (ss_userId s)) as [role|]; simpl.
    + destruct expected as [e|]; [destruct (String.eqb_spec (tn_id tn) e) as [<-|N]|]; simpl;
        (destruct (may_write role) eqn:Em; simpl;
           (split; [intros H; simplify_eq; try (split; [by exists role|by auto])|intros ((r & Hr & Hw) & Hor); simplify_eq]); try done;
           destruct Hor; congruence).
    + destruct expected as [e|]; [destruct (negb _)|]; (split; [done|by intros ((r & Hr & _) & _)]).
  - split; [|naive_solver]. destruct (unexpired now chain); simpl; [|done]. destruct (request_tenant d slug s) as [tn|]; [|done].
    destruct expected as [e|]; [destruct (negb _); [done|]|]; (destruct (member_role _ _ _) as [role|]; [|done]); by destruct (may_write role).
Qed.

Lemma session_is_read now cookie host :
  withSession sha256 d now cookie host = (let! x := withAuthorizedRead sha256 d now cookie host in Ok x.1)%forge.
Proof using Hd.
  unfold withSession, withAuthorizedRead, identify, authorize, rbind. destruct (sessionTokenHash sha256 cookie) as [hash|e]; [|done].
  destruct (tenantSlug host) as [slug|e]; [|done]. rewrite own_session_of.
  destruct (own_session d hash) as [[s chain]|]; [|done]. destruct (valid_chain _ _ _ && _); simpl; [|done].
  destruct (request_tenant d slug s) as [tn|]; [|done]. rewrite member_role_spec.
  by destruct (member_role d (tn_id tn) (ss_userId s)).
Qed.

(** C33: The three guards of the data routes let the same people through. The
    plain one answers exactly as the reading one, errors included; the writing
    one lets through exactly those the reading one would at its second look at
    the clock, who are admins or operators, and who are not surprised by another
    workspace than they expected; and whoever is let through is a member of the
    tenant, which is the one the host names when it names one. *)
Theorem guards_agree now after cookie host expected :
  (now <= after)%Z ->
  withSession sha256 d now cookie host = (let! x := withAuthorizedRead sha256 d now cookie host in Ok x.1)%forge /\
  (forall t u, withAuthorizedWrite sha256 d now after cookie host expected = Ok (t, u) <->
     (exists role, withAuthorizedRead sha256 d after cookie host = Ok (t, u, role) /\ may_write role = true) /\
     (expected = None \/ expected = Some t)) /\
  (forall t u role, withAuthorizedRead sha256 d now cookie host = Ok (t, u, role) ->
     is_member d t u = true /\
     forall slug, tenantSlug host = Ok (Some slug) -> exists tn, tn ∈ t_tenants d /\ tn_id tn = t /\ tn_slug tn = Some slug).
Proof using Hd.
  intros Hle. split_and!; [apply session_is_read|intros t u; by apply writes_read|].
  intros t u role (s & tn & (hash & slug & _ & Hslug & _ & Ht) & -> & -> & Hm)%session_reads. split.
  - by rewrite member_role_spec, Hm.
  - intros slug' E. rewrite Hslug in E. injection E as ->. apply find_Some_elem in Ht as [Hin Hb].
    apply bool_decide_eq_true_1 in Hb. by exists tn.
Qed.
End Agree.

(** ** Signing out *)
Section SignOut.
Context (sha256 : string -> string).

(** No path that starts from a session's token answers one whose only row is
    revoked: not the sign-in service's reads, nor switching, nor signing out
    again, nor the session another sign-in names as its current one, nor the
    three guards of the gateway's routes, for whatever cookie holds it. *)
Definition guarded {A} (host : string) (r : result Denied A) : Prop :=
  r = match tenantSlug host with Ok _ => Err SignInRequired | Err e => Err e end.
Record signed_out (d : AuthDb) (now : Z) (token : string) : Prop := {
  so_live : liveSession sha256 d now token = None;
  so_me : me sha256 d now token = None;
  so_tenant : sessionTenantIn sha256 d now token = None;
  so_switch : forall tenantId, switchTenant sha256 token tenantId now d = (Unauthenticated, d);
  so_revoke : revokeSessionFamily sha256 token now d = (0, d);
  so_active : forall userId, active_tenant sha256 d now userId (Some token) = active_tenant sha256 d now userId None;
  so_authorize : forall slug, authorize d now (hashSessionToken sha256 token) slug = Err SignInRequired;
  so_guards : forall cookie host, sessionTokenHash sha256 cookie = Ok (hashSessionToken sha256 token) ->
    guarded host (withSession sha256 d now cookie host) /\
    guarded host (withAuthorizedRead sha256 d now cookie host) /\
    (forall after expected, guarded host (withAuthorizedWrite sha256 d now after cookie host expected))
}.

Lemma revoked_signed_out d now token x :
  forest (t_sessions d) -> NoDup (ss_tokenHash <$> t_sessions d) -> x ∈ t_sessions d ->
  ss_tokenHash x = hashSessionToken sha256 token -> unrevoked x = false -> signed_out d now token.
Proof.
  intros Hf Hn Hx Hh Hr. assert (Honly : forall y, y ∈ t_sessions d -> ss_tokenHash y = hashSessionToken sha256 token -> y = x).
  { intros y Hy E. apply list_elem_of_lookup in Hx as [i Hi], Hy as [j Hj]. assert (i = j) as ->; [|congruence].
    apply (NoDup_lookup _ i j (ss_tokenHash x) Hn); rewrite list_lookup_fmap, ?Hi, ?Hj; simpl; by rewrite ?E, ?Hh. }
  assert (Hdead : alive now x = false) by (unfold alive, unrevoked in *; by destruct (ss_revokedAt x)).
  assert (Hnone : forall g, List.find (fun s => (ss_tokenHash s ==s hashSessionToken sha256 token) && alive now s && g s) (t_sessions d) = None).
  { intros g. apply find_None_forall. intros y Hy. destruct (String.eqb_spec (ss_tokenHash y) (hashSessionToken sha256 token)) as [E|_]; [|done].
    by rewrite (Honly y Hy E), Hdead. }
  assert (Hfind : List.find (fun s => ss_tokenHash s ==s hashSessionToken sha256 token) (t_sessions d) = Some x).
  { destruct (List.find _ _) as [y|] eqn:E.
    - apply find_Some_elem in E as [Hy E]. apply String.eqb_eq in E. by rewrite (Honly y Hy E).
    - pose proof (proj1 (find_None_forall _ _) E x Hx) as H. simpl in H. by rewrite Hh, String.eqb_refl in H. }
  assert (Hchain : valid_chain now (ss_userId x) (up (t_sessions d) (ss_id x)) = false).
  { destruct (valid_chain _ _ _) eqn:E; [|done]. unfold valid_chain in E. rewrite forallb_elem in E.
    specialize (E x (up_self _ Hf x Hx)). by rewrite Hdead in E. }
  assert (Hlive : liveSession sha256 d now token = None).
  { unfold liveSession. rewrite <- (find_ext _ _ _ (fun s => andb_true_r _)). by rewrite Hnone. }
  assert (Hown : own_session d (hashSessionToken sha256 token) = Some (x, up (t_sessions d) (ss_id x))) by (unfold own_session; by rewrite Hfind).
  assert (Hread : forall slug, authorize d now (hashSessionToken sha256 token) slug = Err SignInRequired)
    by (intros slug; unfold authorize, session_of; by rewrite Hfind, Hchain).
  split; [done| | | | | |done|].
  - unfold me. by rewrite Hlive.
  - unfold sessionTenantIn. by rewrite Hnone.
  - intros tenantId. unfold switchTenant. by rewrite Hfind, Hchain.
  - unfold revokeSessionFamily. by rewrite Hlive.
  - intros userId. unfold active_tenant. simpl. by rewrite Hlive.
  - intros cookie host Hc. unfold guarded, withSession, withAuthorizedRead, withAuthorizedWrite, identify. rewrite Hc. cbn [rbind].
    destruct (tenantSlug host) as [slug|e]; [|done]. cbn [rbind]. rewrite Hown, Hchain. split_and!; [apply Hread|done|].
    intros after expected. assert (Hrev : forallb (fun y => unrevoked y && (ss_userId y ==s ss_userId x)) (up (t_sessions d) (ss_id x)) = false).
    { destruct (forallb _ _) eqn:E; [|done]. rewrite forallb_elem in E. specialize (E x (up_self _ Hf x Hx)). by rewrite Hr in E. }
    by rewrite Hrev.
Qed.

(** C15: Signing out with a live session's token ends the session's whole family,
    whichever member signs out and however deep the chain: no token of a session
    under the same root opens anything afterwards, at any time, on any of the
    paths that start from a session's token ([signed_out]: the reads of the
    sign-in service, switching tenants, signing out again, and the plain, the
    reading and the writing guard of the gateway's routes); sessions outside it
    are untouched, and the count is of the sessions it ended. *)
Theorem sign_out_total token now d s u :
  forest (t_sessions d) -> NoDup (ss_tokenHash <$> t_sessions d) -> liveSession sha256 d now token = Some (s, u) ->
  let d' := (revokeSessionFamily sha256 token now d).2 in
  (forall x k later, x ∈ t_sessions d -> same_family (t_sessions d) (ss_id s) (ss_id x) ->
     ss_tokenHash x = hashSessionToken sha256 k -> signed_out d' later k) /\
  (forall x, x ∈ t_sessions d -> ~ same_family (t_sessions d) (ss_id s) (ss_id x) -> x ∈ t_sessions d') /\
  (revokeSessionFamily sha256 token now d).1 + length (List.filter unrevoked (t_sessions d')) =
    length (List.filter unrevoked (t_sessions d)) /\
  forest (t_sessions d').
Proof.
  intros Hf Hn Hlive. unfold revokeSessionFamily. rewrite Hlive. cbv zeta. cbn [fst snd t_sessions with_sessions].
  assert (Hs : s ∈ t_sessions d).
  { unfold liveSession in Hlive. destruct (List.find _ _) as [y|] eqn:E; [|done].
    destruct (user_of d _); [|done]. injection Hlive as -> ->. by apply find_Some_elem in E as [? _]. }
  set (ids := family (t_sessions d) (ss_id s)).
  set (f := fun x => if inb (ss_id x) ids && unrevoked x then revoked now x else x).
  assert (Hkeep : forall x, ss_id (f x) = ss_id x /\ ss_parentSessionId (f x) = ss_parentSessionId x).
  { intros x. unfold f. by destruct (_ && _). }
  pose proof (forest_map _ f Hkeep Hf) as Hf'. split_and!; [| | |done].
  - intros x k later Hx Hfam Hh. apply revoked_signed_out with (x := f x); simpl.
    + done.
    + assert (E : ss_tokenHash <$> (f <$> t_sessions d) = ss_tokenHash <$> t_sessions d); [|rewrite <- E in Hn; exact Hn].
      rewrite <- list_fmap_compose. apply list_fmap_ext. intros i y _. unfold f. simpl. by destruct (_ && _).
    + apply list_elem_of_fmap. by exists x.
    + rewrite <- Hh. unfold f. by destruct (_ && _).
    + apply (elem_of_family _ Hf s x Hs Hx) in Hfam. unfold f. rewrite (proj2 (inb_true _ _) Hfam). simpl.
      by destruct (unrevoked x) eqn:E.
  - intros x Hx Hout. apply list_elem_of_fmap. exists x. split; [|done]. change (x = f x). unfold f. rewrite (proj2 (inb_false (ss_id x) ids)); [done|].
    intros Hin. apply Hout. by apply (elem_of_family _ Hf s x Hs Hx).
  - clearbody ids. clear. induction (t_sessions d) as [|x l IH]; simpl; [done|].
    change (list_fmap _ _ f l) with (f <$> l).
    assert (E : unrevoked (f x) = unrevoked x && negb (inb (ss_id x) ids)).
    { unfold f. destruct (inb _ _), (unrevoked x) eqn:E; simpl; by rewrite ?E. }
    rewrite E. destruct (inb (ss_id x) ids), (unrevoked x); simpl; lia.
Qed.
End SignOut.
