(* ===== verification/Http.v ===== *)
(** * What the gateway's signed-in routes share
    ([apps/gateway/src/http.ts], [authorized-write.ts], [authorized-read.ts])

    A route's work runs in one transaction between two readings of the caller's
    sessions; its error, or an expiry found afterwards, undoes it. *)
From S2P Require Import Prelude JsString Regex Auth Cookies Access.
#[local] Open Scope string_scope.
#[local] Open Scope list_scope.
#[local] Open Scope Z_scope.

(** [HttpError], and everything else that is thrown. *)
Inductive HttpError := Http (statusCode : Z) (code : string) | Crash.
#[export] Instance HttpError_eq_dec : EqDecision HttpError.
Proof. solve_decision. Defined.

Definition denied (e : Denied) : HttpError :=
  match e with
  | SignInRequired => Http 401 "UNAUTHORIZED"
  | UnknownTenantHost | UnknownTenant => Http 404 "NOT_FOUND"
  | MembershipRequired | RoleRequired => Http 403 "FORBIDDEN"
  | WorkspaceChanged => Http 409 "WORKSPACE_CHANGED"
  end.

(** A request: the sessions as its transaction reads them, its cookie and host,
    and the times of the three expiry checks. *)
Record Request := mkRequest {
  rq_auth : AuthDb;
  rq_cookie : option string;
  rq_host : string;
  rq_admitted : Z;
  rq_recheck : Z;
  rq_end : Z
}.

Section Work.
Context (sha256 : string -> string).

(** [checkExpiry] of the sessions that admitted the request. *)
Definition recheckExpiry (rq : Request) (at_ : Z) : result HttpError unit :=
  match sessionTokenHash sha256 (rq_cookie rq) with
  | Err e => Err (denied e)
  | Ok hash =>
      match own_session (rq_auth rq) hash with
      | Some (_, chain) => if unexpired at_ chain then Ok tt else Err (denied SignInRequired)
      | None => Ok tt
      end
  end.

(** The work takes the identity and its own recheck. *)
Definition authorized_write {S A : Type} (rq : Request) (expected : option string)
    (work : string * string -> result HttpError unit -> S -> result HttpError (A * S)) (s : S) : result HttpError A * S :=
  match withAuthorizedWrite sha256 (rq_auth rq) (rq_admitted rq) (rq_admitted rq) (rq_cookie rq) (rq_host rq) expected with
  | Err e => (Err (denied e), s)
  | Ok identity =>
      match work identity (recheckExpiry rq (rq_recheck rq)) s with
      | Err e => (Err e, s)
      | Ok (a, s') =>
          match recheckExpiry rq (rq_end rq) with
          | Err e => (Err e, s)
          | Ok _ => (Ok a, s')
          end
      end
  end.

Definition authorized_read {A : Type} (rq : Request) (read : string * string * TenantRole -> result HttpError A) : result HttpError A :=
  match withAuthorizedRead sha256 (rq_auth rq) (rq_admitted rq) (rq_cookie rq) (rq_host rq) with
  | Err e => Err (denied e)
  | Ok identity => read identity
  end.

(** A write that answers committed exactly its work's state. *)
Lemma authorized_write_ok {S A} rq expected (work : _ -> _ -> S -> _) s (a : A) s' :
  authorized_write rq expected work s = (Ok a, s') ->
  exists identity, work identity (recheckExpiry rq (rq_recheck rq)) s = Ok (a, s') /\
    withAuthorizedWrite sha256 (rq_auth rq) (rq_admitted rq) (rq_admitted rq) (rq_cookie rq) (rq_host rq) expected = Ok identity.
Proof.
  unfold authorized_write. destruct (withAuthorizedWrite _ _ _ _ _ _ _) as [identity|]; [|done].
  destruct (work identity _ s) as [[a' s'']|] eqn:E; [|done]. destruct (recheckExpiry rq (rq_end rq)); [|done].
  intros [= -> ->]. by exists identity.
Qed.

(** A write that fails changed nothing. *)
Lemma authorized_write_err {S A} rq expected (work : _ -> _ -> S -> result HttpError (A * S)) s e s' :
  authorized_write rq expected work s = (Err e, s') -> s' = s.
Proof. unfold authorized_write. repeat case_match; congruence. Qed.

(** So a property of the state that every successful work keeps is kept. *)
Lemma authorized_write_keeps {S A} rq expected (work : _ -> _ -> S -> result HttpError (A * S)) (P : S -> Prop) s :
  (forall identity recheck a s', work identity recheck s = Ok (a, s') -> P s') -> P s -> P (authorized_write rq expected work s).2.
Proof.
  intros H Hs. destruct (authorized_write rq expected work s) as [[a|e] s'] eqn:E.
  - apply authorized_write_ok in E as (identity & E & _). exact (H _ _ _ _ E).
  - by apply authorized_write_err in E as ->.
Qed.
End Work.
