(* ===== verification/Plans.v ===== *)
(** * Plans of a build ([apps/gateway/src/build-plan-store.ts],
    [build-plan-catalogue.ts], [packages/schema/src/build-plan.ts])

    A plan is solved from the current spec and the registry, stored with the
    evidence it was solved from, and accepted once. A row holds the columns as
    their schemas read them; [metadata] is null in the rows of an older format. *)
From S2P Require Import Prelude JsString Regex JsNumber Part Assembly MatcherTypes Json Spec Solver RegistryLoad Db Auth Access Http.
#[local] Open Scope string_scope.
#[local] Open Scope list_scope.
#[local] Open Scope nat_scope.

(** ** Evidence and metadata *)
Record BuildPlanEvidence := mkEvidence {
  ev_parts : list PartDefinition;
  ev_connectors : list ConnectorDefinition;
  ev_profile : AssemblyProfile;
  ev_compat : list CompatEntry
}.
Record BuildPlanMetadata := mkMetadata {
  bm_runtime : string;
  bm_profile : string * string;
  bm_total_cost_usd : num;
  bm_input_digest : string;
  bm_evidence : BuildPlanEvidence
}.

Definition is_hex_digit (c : ascii) : bool := is_digit c || in_range "a" "f" c.
Definition Digest (s : string) : bool := Nat.eqb (String.length s) 64 && all_chars is_hex_digit s.

Section Schemas.
Context (https_url : string -> bool).
Definition BuildPlanEvidence_ok (e : BuildPlanEvidence) : bool :=
  len_list 2 24 (ev_parts e) && forallb (PartDefinition_ok https_url) (ev_parts e) &&
  (length (ev_connectors e) <=? 64) && forallb ConnectorDefinition_ok (ev_connectors e) &&
  AssemblyProfile_ok (ev_profile e) && (length (ev_compat e) <=? 4096) && forallb CompatEntry_ok (ev_compat e).
Definition BuildPlanMetadata_ok (m : BuildPlanMetadata) : bool :=
  SemVer (bm_runtime m) && len_between 1 120 (bm_profile m).1 && SemVer (bm_profile m).2 &&
  nonnegative (bm_total_cost_usd m) && Digest (bm_input_digest m) && BuildPlanEvidence_ok (bm_evidence m).
End Schemas.

Record PlanRow := mkPlanRow {
  pl_build_id : string;
  pl_version : nat;
  pl_spec_version : nat;
  pl_part_versions : list PartPin;
  pl_wiring_graph : WiringGraph;
  pl_power_budget : PowerBudget;
  pl_bom : list BomLine;
  pl_solver_log : list string;
  pl_metadata : option BuildPlanMetadata;
  pl_accepted_at : option Z;
  pl_accepted_by : option string;
  pl_created_at : Z
}.

(** The plan a row and its metadata make. *)
Definition row_plan (row : PlanRow) (m : BuildPlanMetadata) : BuildPlan :=
  mkPlan (pl_part_versions row) (bm_runtime m) (bm_profile m) (pl_wiring_graph row) (pl_power_budget row)
    (pl_bom row) (bm_total_cost_usd m) (pl_solver_log row).

Record PersistedBuildPlan := mkPersisted {
  ps_build_id : string;
  ps_version : nat;
  ps_spec_version : nat;
  ps_created_at : Z;
  ps_accepted_at : option Z;
  ps_plan : BuildPlan;
  ps_metadata : BuildPlanMetadata
}.

(** ** JSON of what is compared and hashed *)
Definition pin_json (p : PartPin) : json := JObj [("id", JStr (pp_id p)); ("version", JStr (pp_version p))].
Definition profile_pin_json (p : string * string) : json := JObj [("id", JStr p.1); ("version", JStr p.2)].
Definition rail_json (r : Rail) : json := JStr (match r with rail_brain => "brain" | rail_source => "source" end).
Definition edge_json (e : WiringEdge) : json :=
  JObj [("part", pin_json (edge_part e)); ("port", JStr (edge_port e)); ("rail", rail_json (edge_rail e));
        ("connector", JStr (edge_connector e)); ("resources", texts (edge_resources e))].
Definition graph_json (g : WiringGraph) : json :=
  JObj [("source", pin_json (wg_source g)); ("brain", pin_json (wg_brain g)); ("brain_input", JStr (wg_brain_input g));
        ("peripherals", JArr (edge_json <$> wg_peripherals g))].
Definition budget_json (b : PowerBudget) : json :=
  JObj [("average_source_ma", JNum (average_source_ma b)); ("peak_source_ma", JNum (peak_source_ma b));
        ("peak_brain_rail_ma", JNum (peak_brain_rail_ma b));
        ("usable_capacity_mah", nullable JNum (usable_capacity_mah b));
        ("estimated_life_days", nullable JNum (estimated_life_days b))].
Definition bom_json (b : BomLine) : json :=
  JObj [("part", pin_json (bom_part b)); ("quantity", JNum (of_Z (bom_quantity b))); ("unit_cost_usd", JNum (bom_unit_cost_usd b))].
Definition plan_json (p : BuildPlan) : json :=
  JObj [("part_versions", JArr (pin_json <$> part_versions p)); ("runtime", JStr (plan_runtime p));
        ("profile", profile_pin_json (plan_profile p)); ("wiring_graph", graph_json (wiring_graph p));
        ("power_budget", budget_json (power_budget p)); ("bom", JArr (bom_json <$> bom p));
        ("total_cost_usd", JNum (total_cost_usd p)); ("solver_log", texts (solver_log p))].

Definition show_role (r : PinRole) : string :=
  match r with role_power => "power" | role_ground => "ground" | role_signal => "signal" | role_sda => "sda" | role_scl => "scl" end.
Definition hint_json (hint : option string) : list (string * json) := opt_entry "$schema" JStr hint.
Definition connector_json (c : ConnectorDefinition) : json :=
  JObj (hint_json (con_schema_hint c) ++
    [("id", JStr (con_id c)); ("version", JStr (con_version c)); ("name", JStr (con_name c)); ("housing", JStr (con_housing c));
     ("pins", JArr ((fun p => JObj [("n", JNum (of_Z (pin_n p))); ("name", JStr (pin_name p)); ("role", JStr (show_role (pin_role p)))]) <$> con_pins c));
     ("interfaces", texts (show_interface <$> con_interfaces c)); ("max_voltage", JNum (con_max_voltage c))]).
Definition port_json (p : Port) : json :=
  JObj [("id", JStr (port_id p)); ("interface", JStr (show_interface (port_interface p))); ("connector", JStr (port_connector p));
        ("rail", rail_json (port_rail p)); ("max_current_ma", JNum (port_max_current_ma p)); ("resources", texts (port_resources p));
        ("capacity", JNum (of_nat (port_capacity p)))].
Definition activity_json (a : Activity) : json :=
  JObj [("part", pin_json (act_part a)); ("active_s", JNum (act_active_s a)); ("evidence", JStr (act_evidence a))].
Definition profile_json (p : AssemblyProfile) : json :=
  JObj [("id", JStr (prof_id p)); ("version", JStr (prof_version p)); ("evidence", JStr (prof_evidence p));
        ("brain", pin_json (prof_brain p)); ("source", pin_json (prof_source p)); ("source_connector", JStr (prof_source_connector p));
        ("brain_input", JStr (prof_brain_input p)); ("regulator_efficiency", JNum (regulator_efficiency p));
        ("quiescent_source_ma", JNum (quiescent_source_ma p)); ("battery_usable_fraction", JNum (battery_usable_fraction p));
        ("ports", JArr (port_json <$> prof_ports p)); ("activity", JArr (activity_json <$> prof_activity p))].
Definition show_compat (s : CompatStatus) : string :=
  match s with passed => "passed" | failed => "failed" | pending => "pending" end.
Definition compat_json (c : CompatEntry) : json :=
  JObj [("driver_pkg", JStr (ce_driver_pkg c)); ("driver_ver", JStr (ce_driver_ver c)); ("runtime_ver", JStr (ce_runtime_ver c));
        ("brain_id", JStr (ce_brain_id c)); ("status", JStr (show_compat (ce_status c)))].
(** A part with its editor hint, where it has one. *)
Definition part_json (p : PartDefinition) : json :=
  match definition_json p with JObj l => JObj (hint_json (schema_hint p) ++ l) | v => v end.
Definition evidence_json (e : BuildPlanEvidence) : json :=
  JObj [("parts", JArr (part_json <$> ev_parts e)); ("connectors", JArr (connector_json <$> ev_connectors e));
        ("profile", profile_json (ev_profile e)); ("compat", JArr (compat_json <$> ev_compat e))].

(** The store's own [canonical]: keys sorted, whatever they are. *)
Fixpoint canonical (v : json) : string :=
  match v with
  | JArr l => ("[" ++ join "," (canonical <$> l) ++ "]")%string
  | JObj l => ("{" ++ join "," ((fun kv => json_string kv.1 ++ ":" ++ kv.2)%string <$>
                sort_by fst ((fun kv => (kv.1, canonical kv.2)) <$> l)) ++ "}")%string
  | v => stringify v
  end.

(** ** The tables, and the reviewed catalogue *)
Record RegistryRow := mkRegistryRow { rr_id : string; rr_version : string; rr_status : PartStatus; rr_definition : PartDefinition }.
Record PlanDb := mkPlanDb {
  pd_db : Db;
  pd_plans : list PlanRow;
  pd_parts : list RegistryRow;
  pd_compat : list CompatEntry
}.
Definition with_plans (l : list PlanRow) (d : PlanDb) : PlanDb := mkPlanDb (pd_db d) l (pd_parts d) (pd_compat d).

Record ReviewedPlanCatalogue := mkReviewed {
  rv_runtime : option string;
  rv_profiles : list AssemblyProfile;
  rv_connectors : list ConnectorDefinition
}.
Definition ReviewedPlanCatalogue_ok (c : ReviewedPlanCatalogue) : bool :=
  opt_ok SemVer (rv_runtime c) && (length (rv_profiles c) <=? 32) && forallb AssemblyProfile_ok (rv_profiles c) &&
  (length (rv_connectors c) <=? 64) && forallb ConnectorDefinition_ok (rv_connectors c).

(** [IntakeSpec.parse] of the matcher, on a stored spec. *)
Definition solve_power (s : PowerSource) : option SolvePower :=
  match s with src_battery => Some MatcherTypes.battery | src_solar => Some MatcherTypes.solar | src_usb => Some MatcherTypes.usb | src_unknown => None end.
Definition intake_fields (s : Spec) : option IntakeSpec :=
  match sense_interval_s (spec_sense s), solve_power (power_source (spec_power s)) with
  | Some interval, Some source =>
      Some (mkIntakeSpec (settled s) (spec_capability_ids s) interval (sense_accuracy (spec_sense s))
              (env_flags (spec_environment s)) (conn_transport (spec_connect s)) source
              (power_target_life_days (spec_power s)) (length (open_questions s)))
  | _, _ => None
  end.
Definition convert (s : Spec) (rt : string) : result IntakeError SolveSpec :=
  match intake_fields s with Some i => fromIntakeSpec i rt | None => Err ParseError end.

Definition registry_gt (a b : RegistryRow) : bool :=
  text_gt (rr_id a) (rr_id b) || ((rr_id a ==s rr_id b)%forge && text_gt (rr_version a) (rr_version b)).
Definition active_parts (d : PlanDb) : list PartDefinition :=
  rr_definition <$> take 25 (js_sort registry_gt (List.filter (fun r => bool_decide (rr_status r = active)) (pd_parts d))).
Definition compat_gt (a b : CompatEntry) : bool :=
  let key c := [ce_driver_pkg c; ce_driver_ver c; ce_runtime_ver c; ce_brain_id c] in
  (fix gt (l m : list string) := match l, m with
   | x :: l, y :: m => text_gt x y || ((x ==s y)%forge && gt l m)
   | _, _ => false
   end) (key a) (key b).
Definition compat_rows (d : PlanDb) : list CompatEntry :=
  List.filter CompatEntry_ok (take 4097 (js_sort compat_gt (pd_compat d))).

Section Store.
Context (sha256 : string -> string) (https_url zod_uuid : string -> bool) (catalogue : ReviewedPlanCatalogue).
Local Open Scope forge_scope.

Definition planInputDigest (spec : Spec) (rt : string) (e : BuildPlanEvidence) : option string :=
  sha256 <$> serializeBuildPlanInput (spec_json spec) rt (evidence_json e).

Definition decodeBuildPlan (row : PlanRow) : option PersistedBuildPlan :=
  match pl_metadata row with
  | Some m =>
      if BuildPlanMetadata_ok https_url m && zod_uuid (pl_build_id row) && (1 <=? pl_version row) &&
         (1 <=? pl_spec_version row) && BuildPlan_ok (row_plan row m)
      then Some (mkPersisted (pl_build_id row) (pl_version row) (pl_spec_version row) (pl_created_at row)
                   (pl_accepted_at row) (row_plan row m) m)
      else None
  | None => None
  end.

Definition owned (d : PlanDb) (id tenant : string) : bool :=
  existsb (fun b => (b_id b ==s id) && bool_decide (b_tenantId b = Some tenant)) (t_builds (pd_db d)).
Definition currentSpec (d : PlanDb) (id : string) : option SpecVersion := latestSpec (pd_db d) id.

Definition trustedInput (d : PlanDb) (data : Spec) : result HttpError (option SolveInput) :=
  match rv_runtime catalogue, rv_profiles catalogue with
  | None, _ | _, [] => Ok None
  | Some rt, profiles =>
      match convert data rt with
      | Err _ => Err (Http 409 "SPEC_NOT_SOLVABLE")
      | Ok converted =>
          let parts := active_parts d in
          if negb (forallb (PartDefinition_ok https_url) parts) then Err Crash
          else if (24 <? length parts) || existsb (fun p => negb (bool_decide (status p = active))) parts then Ok None
          else
            let input := mkSolveInput converted parts (rv_connectors catalogue) profiles (compat_rows d) (Z.to_nat 100000) 3 in
            if SolveInput_ok https_url input then Ok (Some input) else Ok None
      end
  end.

(** [solve] parses what it is given again. *)
Definition solve_input (input : SolveInput) : result exn SolveResult :=
  solve (fun i => if SolveInput_ok https_url i then Ok i else Err (SolveInput_issues i)) input.

Definition pinned (pins : list PartPin) (p : PartDefinition) : bool :=
  existsb (fun pin => (pp_id pin ==s part_id p) && (pp_version pin ==s version p)) pins.
Definition of_profile (pin : string * string) (p : AssemblyProfile) : bool := (prof_id p ==s pin.1) && (prof_version p ==s pin.2).
Definition driven_by (parts : list PartDefinition) (c : CompatEntry) : bool :=
  existsb (fun p => bool_decide (driver_pkg (software p) = Some (ce_driver_pkg c)) &&
                    bool_decide (driver_version (software p) = Some (ce_driver_ver c))) parts.
Definition evidenceFor (plan : BuildPlan) (input : SolveInput) : option BuildPlanEvidence :=
  let parts := List.filter (pinned (part_versions plan)) (in_parts input) in
  (fun profile =>
    mkEvidence parts (in_connectors input) profile
      (List.filter (fun c => (ce_runtime_ver c ==s plan_runtime plan) &&
                             (ce_brain_id c ==s pp_id (wg_brain (wiring_graph plan))) && driven_by parts c) (in_compat input))) <$>
  List.find (of_profile (plan_profile plan)) (in_profiles input).

(** *** [solve] *)
Definition of_build_plan (id : string) (row : PlanRow) : bool := pl_build_id row ==s id.
Definition version_gt (a b : PlanRow) : bool := pl_version b <? pl_version a.
Definition last_version (id : string) (l : list PlanRow) : nat := list_max (pl_version <$> List.filter (of_build_plan id) l).
Definition same_input (id : string) (spec_version : nat) (digest : string) (row : PlanRow) : bool :=
  of_build_plan id row && Nat.eqb (pl_spec_version row) spec_version &&
  match pl_metadata row with Some m => bm_input_digest m ==s digest | None => false end.
Definition find_input (id : string) (spec_version : nat) (digest : string) (l : list PlanRow) : option PlanRow :=
  head (js_sort version_gt (List.filter (same_input id spec_version digest) l)).
Definition new_row (now : Z) (id : string) (version spec_version : nat) (p : BuildPlan) (m : BuildPlanMetadata) : PlanRow :=
  mkPlanRow id version spec_version (part_versions p) (wiring_graph p) (power_budget p) (bom p) (solver_log p) (Some m) None None now.

Definition metadata_of (spec : Spec) (plan : BuildPlan) (input : SolveInput) : option BuildPlanMetadata :=
  match evidenceFor plan input with
  | Some e =>
      match planInputDigest spec (plan_runtime plan) e with
      | Some digest =>
          let m := mkMetadata (plan_runtime plan) (plan_profile plan) (total_cost_usd plan) digest e in
          if BuildPlanMetadata_ok https_url m then Some m else None
      | None => None
      end
  | None => None
  end.

Definition store_plan (now : Z) (id : string) (spec : SpecVersion) (input : SolveInput) (raw : BuildPlan)
    (v : nat) (l : list PlanRow) : result HttpError (PersistedBuildPlan * (nat * list PlanRow)) :=
  if negb (BuildPlan_ok raw) then Err Crash
  else
    match metadata_of (sv_data spec) raw input with
    | None => Err Crash
    | Some m =>
        let '(row, v, l) :=
          match find_input id (sv_version spec) (bm_input_digest m) l with
          | Some row => (row, v, l)
          | None => let row := new_row now id (S v) (sv_version spec) raw m in (row, S v, l ++ [row])
          end in
        match decodeBuildPlan row with
        | None => Err (Http 409 "PLAN_UNAVAILABLE")
        | Some plan => Ok (plan, (v, l))
        end
    end.

Fixpoint store_plans (now : Z) (id : string) (spec : SpecVersion) (input : SolveInput) (raws : list BuildPlan)
    (v : nat) (l : list PlanRow) : result HttpError (list PersistedBuildPlan * list PlanRow) :=
  match raws with
  | [] => Ok ([], l)
  | raw :: raws =>
      let! (plan, (v, l)) := store_plan now id spec input raw v l in
      let! (plans, l) := store_plans now id spec input raws v l in
      Ok (plan :: plans, l)
  end.

Inductive SolveStatus := solved_ | unavailable | infeasible | search_limit.
Definition unsolved (r : SolveResult) : SolveStatus := match r with SearchLimited _ => search_limit | _ => infeasible end.

Definition solve_work (now : Z) (id : string) (spec_version : nat) (identity : string * string) (recheck : result HttpError unit)
    (d : PlanDb) : result HttpError (SolveStatus * list PersistedBuildPlan * PlanDb) :=
  if negb (owned d id identity.1) then Err (Http 404 "NOT_FOUND")
  else
    let! _ := recheck in
    match currentSpec d id with
    | Some spec =>
        if negb (Nat.eqb (sv_version spec) spec_version) then Err (Http 409 "SPEC_CHANGED")
        else
          let! input := trustedInput d (sv_data spec) in
          match input with
          | None => Ok (unavailable, [], d)
          | Some input =>
              match solve_input input with
              | Err _ => Err Crash
              | Ok (Solved plans _ _) =>
                  let! (stored, l) := store_plans now id spec input plans (last_version id (pd_plans d)) (pd_plans d) in
                  Ok (solved_, stored, with_plans l d)
              | Ok r => Ok (unsolved r, [], d)
              end
          end
    | None => Err (Http 409 "SPEC_CHANGED")
    end.

(** *** [accept] *)
Definition accept_row (now : Z) (by_ : string) (row : PlanRow) : PlanRow :=
  mkPlanRow (pl_build_id row) (pl_version row) (pl_spec_version row) (pl_part_versions row) (pl_wiring_graph row)
    (pl_power_budget row) (pl_bom row) (pl_solver_log row) (pl_metadata row) (Some now) (Some by_) (pl_created_at row).
Definition at_version (id : string) (v : nat) (row : PlanRow) : bool := of_build_plan id row && Nat.eqb (pl_version row) v.
Definition accepted_for (id : string) (spec_version : nat) (row : PlanRow) : bool :=
  of_build_plan id row && Nat.eqb (pl_spec_version row) spec_version && bool_decide (is_Some (pl_accepted_at row)).

(** The catalogue the plan is solved from again. *)
Definition only_plan (plan : BuildPlan) (input : SolveInput) : SolveInput :=
  mkSolveInput (in_spec input) (List.filter (pinned (part_versions plan)) (in_parts input)) (in_connectors input)
    (List.filter (of_profile (plan_profile plan)) (in_profiles input)) (in_compat input) (max_steps input) (max_plans input).
Definition verified (plan : BuildPlan) (input : SolveInput) : result exn bool :=
  match solve_input (only_plan plan input) with
  | Err e => Err e
  | Ok (Solved plans _ _) => Ok (existsb (fun c => canonical (plan_json c) ==s canonical (plan_json plan)) plans)
  | Ok _ => Ok false
  end.

(** Whether the registry still gives the plan the evidence it was stored with
    ([None] where a digest throws). A verified plan has its profile. *)
Definition evidence_unchanged (spec : Spec) (plan : PersistedBuildPlan) (input : SolveInput) : option bool :=
  let m := ps_metadata plan in
  match planInputDigest spec (plan_runtime (ps_plan plan)) (bm_evidence m) with
  | None => None
  | Some stored =>
      if negb (stored ==s bm_input_digest m) then Some false
      else match evidenceFor (ps_plan plan) input with
           | None => Some false
           | Some e => (fun fresh => fresh ==s bm_input_digest m) <$> planInputDigest spec (plan_runtime (ps_plan plan)) e
           end
  end.

(** What is left once the plan was found undecided. *)
Definition decide_plan (now : Z) (id : string) (v : nat) (by_ : string) (spec : SpecVersion) (row : PlanRow)
    (plan : PersistedBuildPlan) (d : PlanDb) : result HttpError (PersistedBuildPlan * PlanDb) :=
  let! input := trustedInput d (sv_data spec) in
  match input with
  | None => Err (Http 409 "PLAN_UNAVAILABLE")
  | Some input =>
      match verified (ps_plan plan) input with
      | Err _ => Err Crash
      | Ok false => Err (Http 409 "EVIDENCE_CHANGED")
      | Ok true =>
          match evidence_unchanged (sv_data spec) plan input with
          | None => Err Crash
          | Some false => Err (Http 409 "EVIDENCE_CHANGED")
          | Some true =>
              if existsb (accepted_for id (sv_version spec)) (pd_plans d) then Err (Http 409 "PLAN_ALREADY_ACCEPTED")
              else
                match decodeBuildPlan (accept_row now by_ row) with
                | None => Err Crash
                | Some accepted =>
                    Ok (accepted, with_plans ((fun r => if at_version id v r then accept_row now by_ r else r) <$> pd_plans d) d)
                end
          end
      end
  end.

Definition accept_work (now : Z) (id : string) (v spec_version : nat) (identity : string * string) (recheck : result HttpError unit)
    (d : PlanDb) : result HttpError (PersistedBuildPlan * PlanDb) :=
  if negb (owned d id identity.1) then Err (Http 404 "NOT_FOUND")
  else
    let! _ := recheck in
    match currentSpec d id with
    | None => Err (Http 409 "SPEC_CHANGED")
    | Some spec =>
        if negb (Nat.eqb (sv_version spec) spec_version) then Err (Http 409 "SPEC_CHANGED")
        else
          match List.find (at_version id v) (pd_plans d) with
          | None => Err (Http 409 "PLAN_UNAVAILABLE")
          | Some row =>
              match decodeBuildPlan row with
              | None => Err (Http 409 "PLAN_UNAVAILABLE")
              | Some plan =>
                  if negb (Nat.eqb (ps_spec_version plan) (sv_version spec)) then Err (Http 409 "PLAN_UNAVAILABLE")
                  else
                    match ps_accepted_at plan with
                    | Some _ => Ok (plan, d)
                    | None => decide_plan now id v identity.2 spec row plan d
                    end
              end
          end
    end.

(** *** [list] *)
Record BuildPlanPage := mkPlanPage {
  pg_current_spec_version : option nat;
  pg_can_edit : bool;
  pg_catalogue_available : bool;
  pg_plans : list PersistedBuildPlan
}.
Definition newest_first (a b : PlanRow) : bool := version_gt b a.
Definition latest_versions (id : string) (l : list PlanRow) : list nat :=
  take 20 (pl_version <$> js_sort newest_first (List.filter (of_build_plan id) l)).
Definition listed (id : string) (spec_version : option nat) (l : list PlanRow) (row : PlanRow) : bool :=
  of_build_plan id row &&
  (inb (pl_version row) (latest_versions id l) ||
   match spec_version with Some v => accepted_for id v row | None => false end).
Definition list_read (d : PlanDb) (id : string) (identity : string * string * TenantRole) : result HttpError BuildPlanPage :=
  if negb (owned d id identity.1.1) then Err (Http 404 "NOT_FOUND")
  else
    let spec_version := sv_version <$> currentSpec d id in
    let plans := omap decodeBuildPlan (js_sort newest_first (List.filter (listed id spec_version (pd_plans d)) (pd_plans d))) in
    if 21 <? length plans then Err Crash
    else Ok (mkPlanPage spec_version (may_write identity.2)
               (bool_decide (is_Some (rv_runtime catalogue)) && (1 <=? length (rv_profiles catalogue))) plans).

(** ** The routes' store *)
Definition list_plans (rq : Request) (id : string) (d : PlanDb) : result HttpError BuildPlanPage :=
  authorized_read sha256 rq (list_read d id).
Definition solve_plans (rq : Request) (now : Z) (id expected : string) (spec_version : nat) (d : PlanDb)
    : result HttpError (SolveStatus * list PersistedBuildPlan) * PlanDb :=
  authorized_write sha256 rq (Some expected) (fun identity recheck d =>
    let! (status, plans, d) := solve_work now id spec_version identity recheck d in Ok ((status, plans), d)) d.
Definition accept_plan (rq : Request) (now : Z) (id expected : string) (v spec_version : nat) (d : PlanDb)
    : result HttpError PersistedBuildPlan * PlanDb :=
  authorized_write sha256 rq (Some expected) (accept_work now id v spec_version) d.
End Store.
