(* ===== verification/PlansSpec.v ===== *)
(** * What the plan store promises

    Over any history of solves, acceptances, new specs and registry changes:
    versions have no gaps, a stored plan never changes but by its one
    acceptance, and a spec has at most one accepted plan ([plans_disciplined]).
    What is accepted is a buildable assembly of the registry as it is then
    ([accepted_plan_verified]), and a plan just stored can be accepted
    ([fresh_plan_acceptable]). *)
From stdpp Require Import relations.
From S2P Require Import Prelude JsString Regex JsNumber Part Assembly MatcherTypes Json Spec Solver SolverSafety RegistryLoad Db Auth Cookies Access Http.
From S2P Require Import MatcherSpec NarrowSearch Plans.
#[local] Open Scope string_scope.
#[local] Open Scope list_scope.
#[local] Open Scope nat_scope.

Section PlansSpec.
Context (sha256 : string -> string) (https_url zod_uuid : string -> bool) (catalogue : ReviewedPlanCatalogue).

(** ** History *)
Definition specs_kept (d d' : Db) : Prop := forall s, s ∈ t_specs d -> s ∈ t_specs d'.

Inductive step (d : PlanDb) : PlanDb -> Prop :=
| st_solve rq now id expected spec_version :
    step d (solve_plans sha256 https_url zod_uuid catalogue rq now id expected spec_version d).2
| st_accept rq now id expected v spec_version :
    step d (accept_plan sha256 https_url zod_uuid catalogue rq now id expected v spec_version d).2
(* intake's specs, the registry's loads and status changes *)
| st_tables db parts compat : specs_kept (pd_db d) db -> step d (mkPlanDb db (pd_plans d) parts compat).

Inductive reachable : PlanDb -> Prop :=
| reach_start db parts compat : reachable (mkPlanDb db [] parts compat)
| reach_step d d' : reachable d -> step d d' -> reachable d'.

(** A row later: itself, or accepted. *)
Definition later (r r' : PlanRow) : Prop :=
  r' = r \/ (pl_accepted_at r = None /\ exists now by_, r' = accept_row now by_ r).
#[local] Abbreviation extends := (extended later).

#[export] Instance later_preorder : PreOrder later.
Proof.
  split; [by left|]. intros a b c [->|(Ha & now & by_ & ->)] H; [done|]. right. split; [done|]. exists now, by_.
  by destruct H as [->|(? & _)].
Qed.
(** ** The store's invariant *)
Definition versions (id : string) (l : list PlanRow) : list nat := pl_version <$> List.filter (of_build_plan id) l.

Record Disciplined (l : list PlanRow) : Prop := {
  di_versions : forall id, exists n, versions id l = seq 1 n;
  di_decoded : forall r, r ∈ l -> is_Some (decodeBuildPlan https_url zod_uuid r);
  di_accepted : forall id v r r', r ∈ l -> r' ∈ l -> accepted_for id v r = true -> accepted_for id v r' = true -> r = r'
}.

Lemma versions_max id l n : versions id l = seq 1 n -> last_version id l = n.
Proof.
  unfold last_version, versions. intros ->. induction n as [|n IH]; [done|]. rewrite seq_S, list_max_app, IH. simpl. lia.
Qed.

Lemma at_version_iff id v r : at_version id v r = true <-> pl_build_id r = id /\ pl_version r = v.
Proof. unfold at_version, of_build_plan. rewrite andb_true_iff, String.eqb_eq, Nat.eqb_eq. done. Qed.

Lemma at_version_unique l id v r r' : (exists n, versions id l = seq 1 n) -> r ∈ l -> r' ∈ l ->
  at_version id v r = true -> at_version id v r' = true -> r = r'.
Proof.
  intros (n & Hn) Hr Hr' [H1 H2]%at_version_iff [H3 H4]%at_version_iff.
  apply (NoDup_fmap_elem pl_version (List.filter (of_build_plan id) l)).
  - fold (versions id l). rewrite Hn. apply NoDup_seq.
  - apply elem_of_listfilter. split; [done|]. by apply String.eqb_eq.
  - apply elem_of_listfilter. split; [done|]. by apply String.eqb_eq.
  - congruence.
Qed.

(** *** Storing *)
Lemma store_plan_spec now id spec input raw v l p v' l' :
  store_plan sha256 https_url zod_uuid now id spec input raw v l = Ok (p, (v', l')) ->
  exists m, BuildPlan_ok raw = true /\ metadata_of sha256 https_url (sv_data spec) raw input = Some m /\
    ((v' = v /\ l' = l /\ exists row, row ∈ l /\ same_input id (sv_version spec) (bm_input_digest m) row = true /\ decodeBuildPlan https_url zod_uuid row = Some p) \/
     (v' = S v /\ l' = l ++ [new_row now id (S v) (sv_version spec) raw m] /\
      decodeBuildPlan https_url zod_uuid (new_row now id (S v) (sv_version spec) raw m) = Some p)).
Proof.
  unfold store_plan. destruct (BuildPlan_ok raw); [|done]. destruct (metadata_of _ _ _ _ _) as [m|]; [|done]. simpl.
  destruct (find_input id (sv_version spec) (bm_input_digest m) l) as [row|] eqn:E.
  - destruct (decodeBuildPlan _ _ row) as [q|] eqn:Ed; [|done]. intros [= <- <- <-]. exists m. split_and!; [done..|]. left.
    split_and!; [done..|]. exists row. unfold find_input in E. apply head_Some_elem_of in E.
    rewrite elem_of_js_sort, elem_of_listfilter in E. by destruct E.
  - destruct (decodeBuildPlan _ _ _) as [q|] eqn:Ed; [|done]. intros [= <- <- <-]. exists m. split_and!; [done..|]. by right.
Qed.

Lemma versions_app id l1 l2 : versions id (l1 ++ l2) = versions id l1 ++ versions id l2.
Proof. unfold versions. by rewrite List.filter_app, fmap_app. Qed.

Lemma disciplined_snoc l now id spec_version raw m v :
  Disciplined l -> versions id l = seq 1 v ->
  is_Some (decodeBuildPlan https_url zod_uuid (new_row now id (S v) spec_version raw m)) ->
  Disciplined (l ++ [new_row now id (S v) spec_version raw m]) /\
  versions id (l ++ [new_row now id (S v) spec_version raw m]) = seq 1 (S v).
Proof.
  intros [D1 D2 D3] Hv Hd. set (row := new_row _ _ _ _ _ _) in *.
  assert (Hown : versions id (l ++ [row]) = seq 1 (S v)).
  { rewrite versions_app, Hv, seq_S. f_equal. unfold versions. simpl. unfold of_build_plan. simpl. by rewrite String.eqb_refl. }
  split; [|done]. split.
  - intros id'. destruct (decide (id' = id)) as [->|N]; [eauto|]. destruct (D1 id') as (n & Hn). exists n.
    rewrite versions_app, Hn. unfold versions. simpl. unfold of_build_plan. simpl.
    rewrite (proj2 (String.eqb_neq id id')) by done. apply app_nil_r.
  - intros r [Hr| ->%list_elem_of_singleton]%elem_of_app; [by apply D2|done].
  - assert (Hfree : forall id' v', accepted_for id' v' row = false) by (intros; unfold accepted_for; by rewrite andb_false_r).
    intros id' v' r r' [Hr| ->%list_elem_of_singleton]%elem_of_app [Hr'| ->%list_elem_of_singleton]%elem_of_app Ha Ha';
      [by eapply D3| |..]; by rewrite Hfree in *.
Qed.

Lemma store_plans_spec now id spec input raws v l ps l' :
  Disciplined l -> versions id l = seq 1 v ->
  store_plans sha256 https_url zod_uuid now id spec input raws v l = Ok (ps, l') ->
  Disciplined l' /\ extends l l'.
Proof.
  revert v l ps l'. induction raws as [|raw raws IH]; intros v l ps l' Hl Hv; simpl.
  { intros [= <- <-]. by split. }
  destruct (store_plan _ _ _ _ _ _ _ _ _ _) as [[p [v1 l1]]|] eqn:E; [|done]. simpl.
  destruct (store_plans _ _ _ _ _ _ _ _ _ _) as [[ps2 l2]|] eqn:E2; [|done]. intros [= <- <-].
  apply store_plan_spec in E as (m & Hok & Hm & [(-> & -> & _)|(-> & -> & Hd)]).
  - by eapply IH.
  - destruct (disciplined_snoc l now id (sv_version spec) raw m v Hl Hv) as [Hl1 Hv1]; [by eexists|].
    destruct (IH _ _ _ _ Hl1 Hv1 E2) as [H1 H2]. split; [done|]. etransitivity; [|exact H2]. by exists l, [new_row now id (S v) (sv_version spec) raw m].
Qed.

(** *** Accepting *)
Definition accepting (now : Z) (id : string) (v : nat) (by_ : string) (r : PlanRow) : PlanRow :=
  if at_version id v r then accept_row now by_ r else r.

Lemma versions_accepting now id v by_ id' l : versions id' (accepting now id v by_ <$> l) = versions id' l.
Proof.
  unfold versions. induction l as [|r l IH]; [done|]. csimpl. unfold accepting at 1 2.
  destruct (at_version id v r); csimpl; change (of_build_plan id' (accept_row now by_ r)) with (of_build_plan id' r);
    destruct (of_build_plan id' r); csimpl; by rewrite IH.
Qed.

Lemma accepting_later now id v by_ l :
  (forall r, r ∈ l -> at_version id v r = true -> pl_accepted_at r = None) -> Forall2 later l (accepting now id v by_ <$> l).
Proof.
  intros H. induction l as [|r l IH]; csimpl; constructor; [|apply IH; intros r' Hr'; apply H; by right].
  unfold accepting. destruct (at_version id v r) eqn:E; [|by left]. right. split; [apply H; [by left|done]|eauto].
Qed.

Lemma decode_accept now by_ r : is_Some (decodeBuildPlan https_url zod_uuid r) -> is_Some (decodeBuildPlan https_url zod_uuid (accept_row now by_ r)).
Proof.
  unfold decodeBuildPlan. cbn [pl_metadata accept_row pl_build_id pl_version pl_spec_version].
  destruct (pl_metadata r) as [m|]; [|done]. change (row_plan (accept_row now by_ r) m) with (row_plan r m). by case_match.
Qed.

Lemma decode_shape r p : decodeBuildPlan https_url zod_uuid r = Some p ->
  ps_spec_version p = pl_spec_version r /\ ps_version p = pl_version r /\ ps_accepted_at p = pl_accepted_at r /\
  pl_metadata r = Some (ps_metadata p) /\ ps_plan p = row_plan r (ps_metadata p) /\ BuildPlan_ok (ps_plan p) = true.
Proof.
  unfold decodeBuildPlan. destruct (pl_metadata r) as [m|]; [|done]. destruct (_ && _) eqn:E; [|done]. intros [= <-]. by bools.
Qed.

(** What a first acceptance found. *)
Record Accepts (now : Z) (id : string) (v : nat) (by_ : string) (d : PlanDb) (row : PlanRow) (spec : SpecVersion) (plan : PersistedBuildPlan)
    (input : SolveInput) : Prop := {
  ac_input : trustedInput https_url catalogue d (sv_data spec) = Ok (Some input);
  ac_verified : verified https_url (ps_plan plan) input = Ok true;
  ac_evidence : evidence_unchanged sha256 (sv_data spec) plan input = Some true;
  ac_first : forall r, r ∈ pd_plans d -> accepted_for id (sv_version spec) r = false
}.

Lemma accept_work_spec now id v spec_version identity recheck d p d' :
  accept_work sha256 https_url zod_uuid catalogue now id v spec_version identity recheck d = Ok (p, d') ->
  exists spec row plan, currentSpec d id = Some spec /\ sv_version spec = spec_version /\
    row ∈ pd_plans d /\ at_version id v row = true /\ decodeBuildPlan https_url zod_uuid row = Some plan /\
    pl_spec_version row = spec_version /\
    ((is_Some (pl_accepted_at row) /\ p = plan /\ d' = d) \/
     (pl_accepted_at row = None /\ (exists input, Accepts now id v identity.2 d row spec plan input) /\
      decodeBuildPlan https_url zod_uuid (accept_row now identity.2 row) = Some p /\
      d' = with_plans (accepting now id v identity.2 <$> pd_plans d) d)).
Proof.
  unfold accept_work. destruct (owned d id identity.1); [|done]. simpl. destruct recheck; [|done]. simpl.
  destruct (currentSpec d id) as [spec|]; [|done]. destruct (Nat.eqb_spec (sv_version spec) spec_version) as [Hv|]; [|done]. simpl.
  destruct (List.find _ _) as [row|] eqn:Ef; [|done]. apply find_Some_elem in Ef as [Hrow Hat].
  destruct (decodeBuildPlan _ _ row) as [plan|] eqn:Ed; [|done]. destruct (decode_shape _ _ Ed) as (E1 & E2 & E3 & _).
  destruct (Nat.eqb_spec (ps_spec_version plan) (sv_version spec)) as [Hs|]; [|done]. simpl. rewrite E3.
  assert (Hsv : pl_spec_version row = spec_version) by congruence.
  destruct (pl_accepted_at row) as [t|] eqn:Ea; [intros [= <- <-]; exists spec, row, plan; by split_and!; [..|left]|].
  unfold decide_plan. destruct (trustedInput _ _ _ _) as [[input|]|] eqn:Et; [|done..]. cbn [rbind].
  destruct (verified _ _ _) as [[|]|] eqn:Everi; [|done..]. destruct (evidence_unchanged _ _ _ _) as [[|]|] eqn:Eev; [|done..].
  destruct (existsb _ _) eqn:Ex; [done|]. destruct (decodeBuildPlan _ _ (accept_row _ _ _)) as [q|] eqn:Eq; [|done]. intros [= <- <-].
  exists spec, row, plan. split_and!; [done..|]. right. split_and!; [done| |done|done].
  exists input. split; [done..|]. intros r Hr. by apply (proj1 (existsb_elem_false _ _) Ex).
Qed.

Lemma accept_disciplined now id v by_ d row spec plan input :
  Disciplined (pd_plans d) -> row ∈ pd_plans d -> at_version id v row = true -> pl_spec_version row = sv_version spec ->
  pl_accepted_at row = None -> Accepts now id v by_ d row spec plan input ->
  Disciplined (accepting now id v by_ <$> pd_plans d) /\ extends (pd_plans d) (accepting now id v by_ <$> pd_plans d).
Proof.
  intros [D1 D2 D3] Hrow Hat Hsv Hnone Hac. split.
  - split.
    + intros id'. destruct (D1 id') as (n & Hn). exists n. by rewrite versions_accepting.
    + intros r (r0 & -> & Hr0)%list_elem_of_fmap. unfold accepting. destruct (at_version id v r0); [apply decode_accept|]; by apply D2.
    + intros id' v' r r' (r0 & -> & H0)%list_elem_of_fmap (r1 & -> & H1)%list_elem_of_fmap.
      assert (Hone : forall a, a ∈ pd_plans d -> at_version id v a = true -> a = row) by (intros a Ha Hb; by apply (at_version_unique (pd_plans d) id v)).
      assert (Hother : forall a, a ∈ pd_plans d -> at_version id v a = false -> accepted_for id' v' (accept_row now by_ row) = true -> accepted_for id' v' a = false).
      { intros a Ha _ Hacc. apply at_version_iff in Hat as [Hb _]. unfold accepted_for in Hacc. bools. cbn [pl_spec_version accept_row] in *.
        unfold of_build_plan in *. cbn [pl_build_id accept_row] in *.
        match goal with H : (_ ==s id')%forge = true |- _ => apply String.eqb_eq in H as <- end.
        match goal with H : Nat.eqb _ v' = true |- _ => apply Nat.eqb_eq in H as <- end. rewrite Hb, Hsv. by apply (ac_first _ _ _ _ _ _ _ _ _ Hac). }
      unfold accepting. destruct (at_version id v r0) eqn:E0, (at_version id v r1) eqn:E1.
      * by rewrite (Hone _ H0 E0), (Hone _ H1 E1).
      * rewrite (Hone _ H0 E0). intros Ha Hb. by rewrite (Hother _ H1 E1 Ha) in Hb.
      * rewrite (Hone _ H1 E1). intros Ha Hb. by rewrite (Hother _ H0 E0 Hb) in Ha.
      * intros Ha Hb. by rewrite (D3 id' v' r0 r1).
  - exists (accepting now id v by_ <$> pd_plans d), []. rewrite app_nil_r. split; [done|]. apply accepting_later.
    intros r Hr Ha. by rewrite (at_version_unique (pd_plans d) id v r row).
Qed.

(** ** Every step *)
Lemma solve_work_spec now id spec_version identity recheck d st ps d' :
  solve_work sha256 https_url zod_uuid catalogue now id spec_version identity recheck d = Ok (st, ps, d') ->
  d' = d /\ ps = [] \/
  exists spec input plans n k l, owned d id identity.1 = true /\ currentSpec d id = Some spec /\ sv_version spec = spec_version /\
    trustedInput https_url catalogue d (sv_data spec) = Ok (Some input) /\ solve_input https_url input = Ok (Solved plans n k) /\
    store_plans sha256 https_url zod_uuid now id spec input plans (last_version id (pd_plans d)) (pd_plans d) = Ok (ps, l) /\
    st = solved_ /\ d' = with_plans l d.
Proof.
  unfold solve_work. destruct (owned d id identity.1) eqn:Eo; [|done]. cbn [negb rbind]. destruct recheck; [|done]. cbn [negb rbind].
  destruct (currentSpec d id) as [spec|] eqn:Ec; [|done]. destruct (Nat.eqb_spec (sv_version spec) spec_version) as [Hv|]; [|done]. cbn [negb rbind].
  destruct (trustedInput _ _ _ _) as [[input|]|] eqn:Et; [|intros [= <- <- <-]; by left|done]. cbn [rbind].
  destruct (solve_input https_url input) as [r|] eqn:Es; [|done]. destruct r as [plans n k|C ds ex k|k|issues]; [|intros [= <- <- <-]; by left..].
  destruct (store_plans _ _ _ _ _ _ _ _ _ _) as [[stored l]|] eqn:El; [|done]. cbn [negb rbind]. intros [= <- <- <-]. right.
  by exists spec, input, plans, n, k, l.
Qed.

Lemma step_disciplined d d' : Disciplined (pd_plans d) -> step d d' -> Disciplined (pd_plans d') /\ extends (pd_plans d) (pd_plans d').
Proof.
  intros Hd Hstep. assert (Hsame : Disciplined (pd_plans d) /\ extends (pd_plans d) (pd_plans d)) by by split.
  destruct Hstep as [rq now id expected sv|rq now id expected v sv|db parts compat _]; [| |done].
  - unfold solve_plans. apply (authorized_write_keeps sha256 _ _ _ (fun d' => Disciplined (pd_plans d') /\ extends (pd_plans d) (pd_plans d'))); [|done].
    intros identity recheck [st ps] d'. destruct (solve_work _ _ _ _ _ _ _ _ _ d) as [[[st' ps'] d2]|] eqn:E; [|done]. simpl. intros [= <- <- <-].
    apply solve_work_spec in E as [[-> _]|(spec & input & plans & n & k & l & _ & _ & _ & _ & _ & Hst & _ & ->)]; [done|].
    destruct (di_versions _ Hd id) as (m & Hm). rewrite (versions_max _ _ _ Hm) in Hst. by eapply store_plans_spec.
  - unfold accept_plan. apply (authorized_write_keeps sha256 _ _ _ (fun d' => Disciplined (pd_plans d') /\ extends (pd_plans d) (pd_plans d'))); [|done].
    intros identity recheck p d' (spec & row & plan & _ & Hsv & Hrow & Hat & _ & Hspec & H)%accept_work_spec.
    destruct H as [(_ & _ & ->)|(Hnone & (input & Hac) & _ & ->)]; [done|]. eapply accept_disciplined; try done. congruence.
Qed.

Lemma reachable_disciplined d : reachable d -> Disciplined (pd_plans d).
Proof.
  induction 1 as [db parts compat|d d' _ IH Hs]; [|by apply (step_disciplined d)]. split; simpl; [by exists 0|..].
  - by intros r ?%elem_of_nil.
  - by intros id v r r' ?%elem_of_nil.
Qed.

(** *** The page *)
Lemma sublist_fmap {A B} (f : A -> B) l1 l2 : l1 `sublist_of` l2 -> f <$> l1 `sublist_of` f <$> l2.
Proof. induction 1; csimpl; [done|by apply sublist_skip|by apply sublist_cons]. Qed.

Lemma listed_few id spec_version l : Disciplined l -> length (List.filter (listed id spec_version l) l) <= 21.
Proof.
  intros [D1 D2 D3]. destruct (D1 id) as (n & Hn).
  set (recent r := of_build_plan id r && inb (pl_version r) (latest_versions id l)).
  set (decided r := match spec_version with Some v => accepted_for id v r | None => false end).
  assert (Hsplit : forall k, length (List.filter (listed id spec_version l) k) <= length (List.filter recent k) + length (List.filter decided k)).
  { intros k. induction k as [|r k IH]; simpl; [lia|]. unfold listed at 1, recent at 1. fold (decided r).
    destruct (of_build_plan id r), (inb (pl_version r) (latest_versions id l)), (decided r); simpl; lia. }
  assert (Hrecent : length (List.filter recent l) <= 20).
  { rewrite <- (length_fmap pl_version). transitivity (length (latest_versions id l)).
    - apply submseteq_length, NoDup_submseteq.
      + eapply sublist_NoDup with (versions id l); [rewrite Hn; apply NoDup_seq|]. unfold versions. apply sublist_fmap.
        assert (Hk : forall k, List.filter recent k `sublist_of` List.filter (of_build_plan id) k); [|apply Hk].
        intros k. induction k as [|r k IH]; simpl; [done|]. unfold recent at 1.
        destruct (of_build_plan id r), (inb _ _); simpl; [by apply sublist_skip|by apply sublist_cons|done..].
      + intros x (r & -> & [_ Hr]%elem_of_listfilter)%list_elem_of_fmap. unfold recent in Hr. bools. by apply inb_true.
    - unfold latest_versions. rewrite length_take. lia. }
  assert (Hone : length (List.filter decided l) <= 1).
  { destruct (List.filter decided l) as [|a [|b m]] eqn:E; simpl; [lia..|]. exfalso.
    assert (Hnd : NoDup (List.filter (fun r => decided r && of_build_plan id r) l)).
    { apply (NoDup_fmap_1 pl_version). eapply sublist_NoDup with (versions id l); [rewrite Hn; apply NoDup_seq|]. apply sublist_fmap.
      clear. induction l as [|r l IH]; simpl; [done|]. destruct (decided r), (of_build_plan id r); simpl; [by apply sublist_skip|done|by apply sublist_cons|done]. }
    replace (List.filter (fun r => decided r && of_build_plan id r) l) with (List.filter decided l) in Hnd.
    - rewrite E in Hnd. apply NoDup_cons in Hnd as [Hab _]. apply Hab.
      assert (Ha : a ∈ List.filter decided l) by (rewrite E; left). assert (Hb : b ∈ List.filter decided l) by (rewrite E; right; left).
      apply elem_of_listfilter in Ha as [Ha1 Ha2], Hb as [Hb1 Hb2]. unfold decided in Ha2, Hb2.
      destruct spec_version as [v|]; [|done]. rewrite (D3 id v a b) by done. left.
    - apply List.filter_ext. intros r. unfold decided. destruct spec_version as [v|]; [|done]. unfold accepted_for.
      by destruct (of_build_plan id r), (Nat.eqb _ _), (bool_decide _). }
  specialize (Hsplit l). lia.
Qed.

(** C18: However solves, acceptances, new specs and registry changes interleave:
    the plans of a build are numbered from 1 without gaps; a stored plan never
    changes afterwards, except that it is accepted, once; a spec has at most one
    accepted plan; every stored plan reads back; and the page of a build is
    always within the bounds its schema sets. *)
Theorem plans_disciplined d :
  reachable d ->
  (forall id, exists n, pl_version <$> List.filter (of_build_plan id) (pd_plans d) = seq 1 n) /\
  (forall id v r r', r ∈ pd_plans d -> r' ∈ pd_plans d -> accepted_for id v r = true -> accepted_for id v r' = true -> r = r') /\
  (forall r, r ∈ pd_plans d -> is_Some (decodeBuildPlan https_url zod_uuid r)) /\
  (forall d', rtc step d d' -> forall i r, pd_plans d !! i = Some r -> exists r', pd_plans d' !! i = Some r' /\ later r r') /\
  (forall rq id, list_plans sha256 https_url zod_uuid catalogue rq id d <> Err Crash).
Proof.
  intros Hd%reachable_disciplined. destruct Hd as [D1 D2 D3]. split_and!; [done..| |].
  - intros d' Hs. assert (He : extends (pd_plans d) (pd_plans d')).
    { assert (Hd : Disciplined (pd_plans d)) by by split. clear D1 D2 D3. induction Hs as [|d d1 d' H _ IH]; [done|].
      destruct (step_disciplined _ _ Hd H) as [Hd1 He1]. etransitivity; [exact He1|by apply IH]. }
    destruct He as (l1 & ext & -> & H). intros i r Hr. apply (Forall2_lookup_l _ _ _ _ _ H) in Hr as (r' & Hr' & Hl).
    exists r'. split; [by apply lookup_app_l_Some|done].
  - intros rq id. unfold list_plans, authorized_read. destruct (withAuthorizedRead _ _ _ _ _) as [identity|[]]; [|done..].
    unfold list_read. destruct (negb _); [done|]. cbv zeta. destruct (Nat.ltb_spec 21 (length (omap (decodeBuildPlan https_url zod_uuid)
      (js_sort newest_first (List.filter (listed id (sv_version <$> currentSpec d id) (pd_plans d)) (pd_plans d)))))) as [Hlt|]; [|done].
    exfalso. assert (Hd : Disciplined (pd_plans d)) by by split. pose proof (listed_few id (sv_version <$> currentSpec d id) _ Hd).
    assert (Hom : forall (l : list PlanRow), length (omap (decodeBuildPlan https_url zod_uuid) l) <= length l).
    { induction l; csimpl; [done|]. case_match; simpl; lia. }
    specialize (Hom (js_sort newest_first (List.filter (listed id (sv_version <$> currentSpec d id) (pd_plans d)) (pd_plans d)))).
    rewrite length_js_sort in Hom. lia.
Qed.

(** ** What is accepted *)
#[local] Opaque canonical.
Lemma trusted_ok d data input : trustedInput https_url catalogue d data = Ok (Some input) ->
  SolveInput_ok https_url input = true /\ in_parts input = active_parts d.
Proof.
  unfold trustedInput. destruct (rv_runtime catalogue) as [rt|]; [|done]. destruct (rv_profiles catalogue) as [|p ps]; [done|].
  destruct (convert data rt); [|done]. cbv zeta. destruct (negb _); [done|]. destruct (_ || _); [done|].
  destruct (SolveInput_ok _ _) eqn:E; [|done]. by intros [= <-].
Qed.

Lemma solve_input_solved input ps n k : solve_input https_url input = Ok (Solved ps n k) ->
  SolveInput_ok https_url input = true /\ solve_parsed input = Ok (Solved ps n k).
Proof. unfold solve_input, solve. by destruct (SolveInput_ok https_url input). Qed.

Lemma only_plan_narrow plan input :
  only_plan plan input = narrow (pinned (part_versions plan)) (of_profile (plan_profile plan)) input.
Proof. done. Qed.

Lemma active_registered d q : q ∈ active_parts d -> exists r, r ∈ pd_parts d /\ rr_status r = active /\ rr_definition r = q.
Proof.
  unfold active_parts. intros (r & -> & Hr)%list_elem_of_fmap. apply elem_of_take in Hr as (i & Hi%list_elem_of_lookup_2 & _).
  rewrite elem_of_js_sort, elem_of_listfilter in Hi. destruct Hi as [Hr Hs]. exists r. split_and!; [done| |done]. by apply bool_decide_eq_true in Hs.
Qed.

Lemma verified_assembly input plan :
  SolveInput_ok https_url input = true -> verified https_url plan input = Ok true ->
  exists a, meets_request input a /\ canonical (plan_json (asm_plan input a)) = canonical (plan_json plan).
Proof.
  intros Hok. unfold verified. destruct (solve_input https_url (only_plan plan input)) as [r|] eqn:E; [|done].
  destruct r as [ps n k|?|?|?]; [|done..]. intros [= (c & Hc & Hcan%String.eqb_eq)%existsb_elem].
  apply solve_input_solved in E as [Hok' E]. destruct (solved_assemblies _ _ _ _ _ Hok' E c Hc) as (a & Ha & _ & ->).
  destruct (input_keys _ _ Hok) as [Hkeys _]. rewrite only_plan_narrow in *. exists a. split; [|exact Hcan].
  unfold meets_request. change (caps input) with (caps (narrow (pinned (part_versions plan)) (of_profile (plan_profile plan)) input)).
  eapply narrow_assembly; [exact Hkeys| |exact Ha]. destruct Ha as [Ha _ _ _ _ _ _ _ _]. by apply (profile_ports https_url _ Hok').
Qed.

(** C17: An accepted plan is what it claims. When the store answers an acceptance,
    the plan is one of the current spec; either it had been accepted before, and
    nothing changed, or it was just solved again from the registry as it is:
    there is an assembly of active registry parts that meets the whole request
    of the current spec, whose plan has the same text, no other plan of the spec
    was accepted, and the stored row changed by nothing but its acceptance. *)
Theorem accepted_plan_verified rq now id expected v spec_version d p d' :
  accept_plan sha256 https_url zod_uuid catalogue rq now id expected v spec_version d = (Ok p, d') ->
  exists spec row, currentSpec d id = Some spec /\ sv_version spec = spec_version /\
    row ∈ pd_plans d /\ at_version id v row = true /\ pl_spec_version row = spec_version /\
    ((is_Some (pl_accepted_at row) /\ decodeBuildPlan https_url zod_uuid row = Some p /\ d' = d) \/
     (pl_accepted_at row = None /\ (forall r, r ∈ pd_plans d -> accepted_for id spec_version r = false) /\
      exists input a by_, trustedInput https_url catalogue d (sv_data spec) = Ok (Some input) /\ meets_request input a /\
        canonical (plan_json (asm_plan input a)) = canonical (plan_json (ps_plan p)) /\
        (forall q, q ∈ asm_parts a -> exists r, r ∈ pd_parts d /\ rr_status r = active /\ rr_definition r = q) /\
        decodeBuildPlan https_url zod_uuid (accept_row now by_ row) = Some p /\
        d' = with_plans (accepting now id v by_ <$> pd_plans d) d)).
Proof.
  intros (identity & H & _)%authorized_write_ok. apply accept_work_spec in H as (spec & row & plan & H1 & H2 & H3 & H4 & H5 & H6 & H).
  exists spec, row. split_and!; [done..|]. destruct H as [(Ha & -> & ->)|(Ha & (input & [A1 A2 A3 A4]) & Hd & ->)]; [by left|right].
  rewrite H2 in A4. split_and!; [done..|]. destruct (trusted_ok _ _ _ A1) as [Hok Hparts].
  destruct (verified_assembly _ _ Hok A2) as (a & Hm & Hcan). exists input, a, identity.2. split_and!; [done..| | |done|done].
  - rewrite Hcan. do 2 f_equal. destruct (decode_shape _ _ H5) as (_ & _ & _ & E1 & E2 & _), (decode_shape _ _ Hd) as (_ & _ & _ & E3 & E4 & _).
    cbn [pl_metadata accept_row] in E3. rewrite E1 in E3. injection E3 as E3. rewrite E2, E4, <- E3. done.
  - intros q Hq. apply active_registered. rewrite <- Hparts. destruct Hm as [_ Hends Hper _ _ _ _ _ _]. unfold asm_parts in Hq.
    apply endpoints_parts in Hends as [Hb Hs]. assert (Hq' : q ∈ parts input).
    { apply elem_of_cons in Hq as [->|[->|Hq]%elem_of_cons]; [done..|]. eapply elem_of_sublist; [exact Hq|].
      etransitivity; [exact Hper|apply candidates_sub]. }
    by apply parts_sub in Hq' as [? _].
Qed.

(** ** A plan just stored can be accepted *)
Lemma forallb_filter {A} (f g : A -> bool) l : forallb f l = true -> forallb f (List.filter g l) = true.
Proof. rewrite !forallb_elem. intros H x [Hx _]%elem_of_listfilter. auto. Qed.

Lemma narrow_ok fp fq input : SolveInput_ok https_url input = true -> SolveInput_ok https_url (narrow fp fq input) = true.
Proof.
  intros Hok. pose proof (input_keys _ _ Hok) as [Hkeys Hpins]. unfold SolveInput_ok in *. cbn [in_spec in_parts in_connectors in_profiles in_compat max_steps max_plans narrow].
  bools. rewrite !andb_true_iff. pose proof (List.filter_length_le fp (in_parts input)). pose proof (List.filter_length_le fq (in_profiles input)).
  split_and!; try done; try (by apply forallb_filter); try (apply Nat.leb_le in H, H0; apply Nat.leb_le; lia).
  - match goal with H : (length (in_parts input) <=? 24) = true |- _ => apply Nat.leb_le in H; apply Nat.leb_le; lia end.
  - match goal with H : (length (in_profiles input) <=? 32) = true |- _ => apply Nat.leb_le in H; apply Nat.leb_le; lia end.
  - destruct (SolveInput_issues input) eqn:E; [|done]. unfold SolveInput_issues in *. cbv zeta in *.
    cbn [in_spec in_parts in_connectors in_profiles in_compat narrow].
    apply app_eq_nil in E as [_ E]. apply app_eq_nil in E as [E1 E]. apply app_eq_nil in E as [_ E2].
    rewrite E1, E2. rewrite (proj2 (all_distinct_true (partKey <$> List.filter fp (in_parts input)))), (proj2 (all_distinct_true (profileKey <$> List.filter fq (in_profiles input)))); [done| |].
    + eapply sublist_NoDup; [exact Hpins|]. apply sublist_fmap, filter_sublist.
    + eapply sublist_NoDup; [exact Hkeys|]. apply sublist_fmap, filter_sublist.
Qed.

Definition fresh_row (now : Z) (id : string) (spec : SpecVersion) (input : SolveInput) (raws : list BuildPlan) (r : PlanRow) : Prop :=
  exists raw m v, raw ∈ raws /\ metadata_of sha256 https_url (sv_data spec) raw input = Some m /\ r = new_row now id v (sv_version spec) raw m.

Lemma store_plans_rows now id spec input raws v l ps l' :
  store_plans sha256 https_url zod_uuid now id spec input raws v l = Ok (ps, l') ->
  (forall r, r ∈ l -> r ∈ l') /\ (forall r, r ∈ l' -> r ∈ l \/ fresh_row now id spec input raws r) /\
  (forall p, p ∈ ps -> exists r, r ∈ l' /\ of_build_plan id r = true /\ decodeBuildPlan https_url zod_uuid r = Some p).
Proof.
  revert v l ps l'. induction raws as [|raw raws IH]; intros v l ps l'; simpl.
  { intros [= <- <-]. split_and!; [done|by left|by intros p ?%elem_of_nil]. }
  destruct (store_plan _ _ _ _ _ _ _ _ _ _) as [[p [v1 l1]]|] eqn:E; [|done]. simpl.
  destruct (store_plans _ _ _ _ _ _ _ _ _ _) as [[ps2 l2]|] eqn:E2; [|done]. intros [= <- <-].
  apply IH in E2 as (H1 & H2 & H3). apply store_plan_spec in E as (m & _ & Hm & H).
  assert (Hfresh : forall r, fresh_row now id spec input raws r -> fresh_row now id spec input (raw :: raws) r).
  { intros r (raw' & m' & v' & Hr & ? & ?). exists raw', m', v'. split; [by right|done]. }
  destruct H as [(-> & -> & row & Hrow & Hin & Hd)|(-> & -> & Hd)]; split_and!.
  - done.
  - intros r Hr. destruct (H2 r Hr); auto.
  - intros q [->|Hq]%elem_of_cons; [|auto]. exists row. unfold same_input in Hin. bools. auto.
  - intros r Hr. apply H1, elem_of_app. by left.
  - intros r Hr. destruct (H2 r Hr) as [[?| ->%list_elem_of_singleton]%elem_of_app|?]; [by left| |by right; auto].
    right. exists raw, m, (S v). split; [left|done].
  - intros q [->|Hq]%elem_of_cons; [|auto]. eexists. split_and!; [| |exact Hd]; [apply H1, elem_of_app; right; left|]. apply String.eqb_refl.
Qed.

Lemma metadata_evidence spec raw input m : metadata_of sha256 https_url spec raw input = Some m ->
  exists e, evidenceFor raw input = Some e /\ planInputDigest sha256 spec (plan_runtime raw) e = Some (bm_input_digest m) /\
    bm_evidence m = e /\ row_plan (new_row 0 "" 0 0 raw m) m = raw.
Proof.
  unfold metadata_of. destruct (evidenceFor raw input) as [e|]; [|done]. destruct (planInputDigest _ _ _ e) as [dg|] eqn:E; [|done]. cbv zeta.
  destruct (BuildPlanMetadata_ok _ _); [|done]. intros [= <-]. exists e. split_and!; try done. by destruct raw.
Qed.

Lemma write_tenant rq at1 at2 expected identity :
  withAuthorizedWrite sha256 (rq_auth rq) at1 at2 (rq_cookie rq) (rq_host rq) (Some expected) = Ok identity -> identity.1 = expected.
Proof.
  unfold withAuthorizedWrite, identify. destruct (sessionTokenHash _ _); [|done]. simpl. destruct (tenantSlug _); [|done]. simpl.
  destruct (own_session _ _) as [[s chain]|]; [|done]. destruct (negb _); [done|]. destruct (negb _); [done|].
  destruct (request_tenant _ _ _) as [t|]; [|done]. destruct (tn_id t ==s expected)%forge eqn:E; [|done]. cbn [negb].
  destruct (member_role _ _ _); [|done]. destruct (negb _); [done|]. destruct (negb _); [done|]. intros [= <-]. by apply String.eqb_eq.
Qed.

(** C16: What the store offers can be had. A plan that a solve has just stored is
    accepted, unchanged, by any request the guard admits to the same workspace
    while its session lasts, as long as no plan of the spec was accepted before:
    solving again from the plan's own parts and profile finds it again, ranked
    among the best, within the same step budget, and its evidence digests alike. *)
Theorem fresh_plan_acceptable rq now id expected spec_version d ps d' p rq' now' identity :
  reachable d ->
  solve_plans sha256 https_url zod_uuid catalogue rq now id expected spec_version d = (Ok (solved_, ps), d') ->
  p ∈ ps -> last_version id (pd_plans d) < ps_version p ->
  (forall r, r ∈ pd_plans d -> accepted_for id spec_version r = false) ->
  withAuthorizedWrite sha256 (rq_auth rq') (rq_admitted rq') (rq_admitted rq') (rq_cookie rq') (rq_host rq') (Some expected) = Ok identity ->
  recheckExpiry sha256 rq' (rq_recheck rq') = Ok tt -> recheckExpiry sha256 rq' (rq_end rq') = Ok tt ->
  exists p', (accept_plan sha256 https_url zod_uuid catalogue rq' now' id expected (ps_version p) spec_version d').1 = Ok p' /\
    ps_plan p' = ps_plan p /\ ps_version p' = ps_version p /\ ps_accepted_at p' = Some now'.
Proof.
  intros Hd%reachable_disciplined H Hp Hnew Hnone Hid Hre Hend.
  apply authorized_write_ok in H as (identity0 & H & Hid0). apply write_tenant in Hid0. pose proof (write_tenant _ _ _ _ _ Hid) as Hid1.
  destruct (solve_work _ _ _ _ _ _ _ _ _ d) as [[[st ps'] d2]|] eqn:E; [|done]. simpl in H. injection H as -> -> ->.
  apply solve_work_spec in E as [[-> ->]|(spec & input & plans & n & k & l & Hown & Hspec & Hsv & Hin & Hsol & Hst & _ & ->)]; [by apply elem_of_nil in Hp|].
  destruct (di_versions _ Hd id) as (vn & Hvn). pose proof (versions_max _ _ _ Hvn) as Hmax. rewrite Hmax in Hst, Hnew.
  destruct (store_plans_spec _ _ _ _ _ _ _ _ _ Hd Hvn Hst) as [Hd' _]. destruct (store_plans_rows _ _ _ _ _ _ _ _ _ Hst) as (Hold & Hrows & Hdec).
  destruct (Hdec p Hp) as (row & Hrow & Hbuild & Edec). destruct (decode_shape _ _ Edec) as (E1 & E2 & E3 & E4 & E5 & _).
  assert (Hfresh : fresh_row now id spec input plans row).
  { destruct (Hrows row Hrow) as [Hr|]; [|done]. exfalso. assert (Hv : pl_version row ∈ versions id (pd_plans d)).
    { apply list_elem_of_fmap. exists row. by rewrite elem_of_listfilter. }
    rewrite Hvn, elem_of_seq in Hv. lia. }
  destruct Hfresh as (raw & m & v & Hraw & Hm & ->). cbn [new_row pl_metadata pl_accepted_at pl_spec_version pl_version] in *.
  injection E4 as Em. rewrite <- Em in E5. destruct (metadata_evidence _ _ _ _ Hm) as (e & He & Hdig & Hbm & Heta).
  assert (Eplan : ps_plan p = raw) by (rewrite E5; exact Heta).
  set (row := new_row now id v (sv_version spec) raw m) in *.
  destruct (solve_input_solved _ _ _ _ Hsol) as [Hok Hsol'].
  assert (Hver : verified https_url raw input = Ok true).
  { destruct (narrow_solved https_url input (pinned (part_versions raw)) (of_profile (plan_profile raw)) plans n k raw) as (ps2 & n2 & k2 & Hs & _ & Hin2);
      [done|done|done| | |].
    - intros q Hq. apply existsb_elem. exists (pin q). split; [done|]. simpl. by rewrite !String.eqb_refl.
    - intros q Hq. unfold of_profile. rewrite Hq. simpl. by rewrite !String.eqb_refl.
    - unfold verified, solve_input, solve. rewrite only_plan_narrow, narrow_ok, Hs by done. f_equal. apply existsb_elem. exists raw.
      by rewrite String.eqb_refl. }
  assert (Hev : evidence_unchanged sha256 (sv_data spec) p input = Some true).
  { unfold evidence_unchanged. rewrite <- Em, Eplan, Hbm, Hdig, String.eqb_refl, He. cbn [negb]. rewrite Hdig. simpl. by rewrite String.eqb_refl. }
  assert (Hfind : List.find (at_version id (ps_version p)) l = Some row).
  { assert (Hat : at_version id (ps_version p) row = true) by (apply at_version_iff; split; [done|by rewrite E2]).
    destruct (List.find _ l) as [r|] eqn:Ef; [|apply find_None_forall with (x := row) in Ef; [congruence|done]].
    apply find_Some_elem in Ef as [Hr Hr']. f_equal. by apply (at_version_unique l id (ps_version p)); [apply Hd'|..]. }
  assert (Hfree : existsb (accepted_for id (sv_version spec)) l = false).
  { apply existsb_elem_false. intros r Hr. destruct (Hrows r Hr) as [Hr'|(raw' & m' & v' & _ & _ & ->)]; [rewrite Hsv; by apply Hnone|].
    unfold accepted_for. by rewrite andb_false_r. }
  destruct (decode_accept now' identity.2 row) as (p' & Ep'); [by eexists|].
  destruct (decode_shape _ _ Ep') as (F1 & F2 & F3 & F4 & F5 & _).
  exists p'. split_and!.
  - unfold accept_plan, authorized_write. rewrite Hid. unfold accept_work.
    change (owned (with_plans l d) id identity.1) with (owned d id identity.1). rewrite Hid1, <- Hid0, Hown. cbn [negb].
    rewrite Hre. cbn [rbind]. change (currentSpec (with_plans l d) id) with (currentSpec d id). rewrite Hspec, Hsv, Nat.eqb_refl. cbn [negb].
    change (pd_plans (with_plans l d)) with l. rewrite Hfind, Edec, E1. cbn [pl_spec_version row new_row]. rewrite Hsv, Nat.eqb_refl. cbn [negb].
    rewrite E3. cbn [pl_accepted_at row new_row]. unfold decide_plan.
    change (trustedInput https_url catalogue (with_plans l d)) with (trustedInput https_url catalogue d). rewrite Hin. cbn [rbind].
    rewrite Eplan, Hver, Hev. change (pd_plans (with_plans l d)) with l. rewrite Hfree, Ep', Hend. done.
  - cbn [pl_metadata accept_row row new_row] in F4. injection F4 as Fm. rewrite F5, <- Fm, Eplan. exact Heta.
  - by rewrite F2, E2.
  - by rewrite F3.
Qed.
End PlansSpec.
