(* ===== verification/JsDate.v ===== *)
(** * Calendar dates of instants ([Date.prototype.toISOString])

    An instant is a number of milliseconds since 1970 in UTC. The years are
    those [toISOString] writes with four digits, 0 to 9999. *)
From S2P Require Import Prelude JsString JsNumber.
#[local] Open Scope Z_scope.
#[local] Ltac Zify.zify_post_hook ::= Z.div_mod_to_equations.

Definition MS_PER_DAY : Z := 86400000.

Record Civil := mkCivil { cv_year : Z; cv_month : Z; cv_day : Z }.

(** The date of a day counted from 1970-01-01, in the proleptic Gregorian
    calendar: years start in March, and an era is 400 of them. *)
Definition year_of_era (doe : Z) : Z := (doe - doe / 1460 + doe / 36524 - doe / 146096) / 365.
Definition day_of_year (doe yoe : Z) : Z := doe - (365 * yoe + yoe / 4 - yoe / 100).
Definition civil_from_days (days : Z) : Civil :=
  let z := days + 719468 in
  let era := z / 146097 in
  let doe := z mod 146097 in
  let yoe := year_of_era doe in
  let doy := day_of_year doe yoe in
  let mp := (5 * doy + 2) / 153 in
  let m := if mp <? 10 then mp + 3 else mp - 9 in
  mkCivil (yoe + era * 400 + (if m <=? 2 then 1 else 0)) m (doy - (153 * mp + 2) / 5 + 1).

(** The way back. *)
Definition days_from_civil (c : Civil) : Z :=
  let y := cv_year c - (if cv_month c <=? 2 then 1 else 0) in
  let mp := if 2 <? cv_month c then cv_month c - 3 else cv_month c + 9 in
  let yoe := y mod 400 in
  y / 400 * 146097 + (yoe * 365 + yoe / 4 - yoe / 100 + ((153 * mp + 2) / 5 + cv_day c - 1)) - 719468.

Lemma year_of_era_bounds doe : 0 <= doe < 146097 -> 0 <= year_of_era doe < 400.
Proof. unfold year_of_era. lia. Qed.

Lemma day_of_year_bounds doe : 0 <= doe < 146097 -> 0 <= day_of_year doe (year_of_era doe) <= 365.
Proof.
  intros H. unfold day_of_year. pose proof (year_of_era_bounds doe H) as Hy. revert Hy. unfold year_of_era.
  set (y := (doe - doe / 1460 + doe / 36524 - doe / 146096) / 365). intros Hy.
  assert (Hc : doe / 36524 = 0 \/ doe / 36524 = 1 \/ doe / 36524 = 2 \/ doe / 36524 = 3 \/ doe / 36524 = 4) by lia.
  assert (Hq : y = 365 * 0 + y) by lia.
  assert (H365 : 365 * y <= doe - doe / 1460 + doe / 36524 - doe / 146096 <= 365 * y + 364) by (subst y; lia).
  clearbody y. destruct Hc as [Hc|[Hc|[Hc|[Hc|Hc]]]]; rewrite Hc in H365; lia.
Qed.

(** A day of the year has one month and one day of it. *)
Lemma month_bounds doy : 0 <= doy <= 365 ->
  let mp := (5 * doy + 2) / 153 in 0 <= mp <= 11 /\ 0 <= doy - (153 * mp + 2) / 5 <= 30.
Proof. simpl. lia. Qed.

(** Year and month as the calendar counts them, from March and back. *)
Lemma march_year yoe era m : 0 <= yoe < 400 ->
  let y := yoe + era * 400 + (if m <=? 2 then 1 else 0) - (if m <=? 2 then 1 else 0) in y / 400 = era /\ y mod 400 = yoe.
Proof. simpl. intros H. destruct (m <=? 2); lia. Qed.
Lemma march_month mp : 0 <= mp <= 11 ->
  let m := if mp <? 10 then mp + 3 else mp - 9 in (if 2 <? m then m - 3 else m + 9) = mp /\ 1 <= m <= 12.
Proof. simpl. intros H. destruct (Z.ltb_spec mp 10); case_match; lia. Qed.

Lemma days_from_civil_from_days days : days_from_civil (civil_from_days days) = days.
Proof.
  unfold civil_from_days, days_from_civil. set (z := days + 719468). cbn [cv_year cv_month cv_day].
  assert (Hd : 0 <= z mod 146097 < 146097) by lia.
  pose proof (year_of_era_bounds _ Hd) as Hy. pose proof (day_of_year_bounds _ Hd) as Hdoy. revert Hdoy.
  unfold day_of_year. revert Hy. generalize (year_of_era (z mod 146097)). intros yoe Hy Hdoy.
  set (doy := z mod 146097 - _) in *. destruct (month_bounds doy Hdoy) as [Hm _].
  destruct (march_month _ Hm) as [-> _]. set (m := if _ <? 10 then _ else _). destruct (march_year yoe (z / 146097) m Hy) as [-> ->].
  subst doy. clear m Hm Hdoy. assert (z = 146097 * (z / 146097) + z mod 146097) by lia. lia.
Qed.

Lemma civil_in_calendar days :
  let c := civil_from_days days in 1 <= cv_month c <= 12 /\ 1 <= cv_day c <= 31.
Proof.
  unfold civil_from_days. set (z := days + 719468). cbn [cv_year cv_month cv_day].
  assert (Hd : 0 <= z mod 146097 < 146097) by lia. pose proof (day_of_year_bounds _ Hd) as Hdoy.
  destruct (month_bounds _ Hdoy) as [Hm Hday]. destruct (march_month _ Hm) as [_ ?]. lia.
Qed.

(** ** The texts *)
Fixpoint digits (w : nat) (n : Z) : string :=
  match w with
  | O => ""
  | S w => (digits w (n / 10) ++ String (ascii_of_nat (48 + Z.to_nat (n mod 10))) "")%string
  end.
Definition dayOf (ms : Z) : Z := ms / MS_PER_DAY.
(** [toISOString().slice(0, 10)] and [toISOString().slice(0, 7)] *)
Definition isoDay (ms : Z) : string :=
  let c := civil_from_days (dayOf ms) in
  (digits 4 (cv_year c) ++ "-" ++ digits 2 (cv_month c) ++ "-" ++ digits 2 (cv_day c))%string.
Definition isoMonth (ms : Z) : string :=
  let c := civil_from_days (dayOf ms) in (digits 4 (cv_year c) ++ "-" ++ digits 2 (cv_month c))%string.

Lemma app_same_length (a a' b b' : string) :
  String.length a = String.length a' -> (a ++ b = a' ++ b')%string -> a = a' /\ b = b'.
Proof.
  revert a'. induction a as [|c a IH]; intros [|c' a']; simpl; try done. intros [= E] [= -> H].
  by destruct (IH _ E H) as [-> ->].
Qed.

Lemma digits_length w n : String.length (digits w n) = w.
Proof. revert n. induction w as [|w IH]; intros n; simpl; [done|]. rewrite String_length_app, IH. simpl. lia. Qed.

Lemma digits_inj w n n' : 0 <= n < 10 ^ Z.of_nat w -> 0 <= n' < 10 ^ Z.of_nat w -> digits w n = digits w n' -> n = n'.
Proof.
  revert n n'. induction w as [|w IH]; intros n n'; [simpl; lia|].
  rewrite Nat2Z.inj_succ, Z.pow_succ_r by lia. intros Hn Hn' [E Ed]%app_same_length; [|by rewrite !digits_length].
  apply IH in E; [|lia|lia]. injection Ed as Ed. apply (f_equal nat_of_ascii) in Ed.
  rewrite !nat_ascii_embedding in Ed by lia. lia.
Qed.

Lemma digits_app_inj w n n' r r' :
  0 <= n < 10 ^ Z.of_nat w -> 0 <= n' < 10 ^ Z.of_nat w ->
  (digits w n ++ r = digits w n' ++ r')%string -> n = n' /\ r = r'.
Proof.
  intros Hn Hn' [E ->]%app_same_length; [|by rewrite !digits_length]. split; [by apply (digits_inj w)|done].
Qed.
Lemma dash_inj r r' : ("-" ++ r = "-" ++ r')%string -> r = r'.
Proof. simpl. by injection 1. Qed.

(** Instants have the same date exactly when they fall on the same day. *)
Lemma isoDay_inj ms ms' :
  0 <= cv_year (civil_from_days (dayOf ms)) < 10000 -> 0 <= cv_year (civil_from_days (dayOf ms')) < 10000 ->
  isoDay ms = isoDay ms' <-> dayOf ms = dayOf ms'.
Proof.
  intros Hy Hy'. split; [|unfold isoDay; by intros ->]. unfold isoDay. intros E.
  destruct (civil_in_calendar (dayOf ms)) as [Hm Hd]. destruct (civil_in_calendar (dayOf ms')) as [Hm' Hd'].
  apply digits_app_inj in E as [Ey E%dash_inj]; [|lia..]. apply digits_app_inj in E as [Em Ed%dash_inj]; [|lia..].
  apply digits_inj in Ed; [|lia..].
  rewrite <- (days_from_civil_from_days (dayOf ms)), <- (days_from_civil_from_days (dayOf ms')).
  destruct (civil_from_days (dayOf ms)), (civil_from_days (dayOf ms')). cbn in *. by subst.
Qed.

Example isoDay_leap : isoDay 1709164800000 = "2024-02-29"%string.
Proof. reflexivity. Qed.
Example isoDay_epoch : isoDay 0 = "1970-01-01"%string /\ isoMonth 1789300000000 = "2026-09"%string.
Proof. split; reflexivity. Qed.
