(* ===== verification/Telemetry.v ===== *)
(** * Telemetry ingestion ([apps/cloudlink/src/routes.ts])

    A device's packet, from its bearer token to the tables: authorisation,
    replays, the checks of every reading, and the writes of one transaction.
    The transaction holds the device's row from its first read to its commit,
    and every row it reads or writes belongs to that device, so it is a function
    of the tables. *)
From stdpp Require Import gmap.
From S2P Require Import Prelude JsString Regex JsNumber JsDate Json Auth.
#[local] Open Scope string_scope.
#[local] Open Scope list_scope.
#[local] Open Scope Z_scope.
#[local] Open Scope forge_scope.

(** ** Schemas ([packages/schema/src/telemetry.ts]) *)
Record TelemetryChannel := mkChannel { tc_unit : string; tc_min : num; tc_max : num }.

Definition str_len (s : string) : Z := Z.of_nat (String.length s).
Definition between (lo hi x : Z) : bool := (lo <=? x) && (x <=? hi).

Definition TelemetryChannel_ok (c : TelemetryChannel) : bool :=
  between 1 40 (str_len (tc_unit c)) && isFinite (tc_min c) && isFinite (tc_max c) && nle (tc_min c) (tc_max c).

Definition CHANNEL_NAME : re := Cat (Chr is_lower) (rupto 63 (Chr (fun c => is_lower_digit c || one_of "_" c))).

(** A [channels] column: an object's entries, [None] for a value that is not
    shaped as a channel. What is not an object has no entries and is refused
    alike. *)
Definition Channels : Type := list (string * option TelemetryChannel).

Definition TelemetryChannels_ok (l : Channels) : bool :=
  forallb (fun kv => test CHANNEL_NAME kv.1 && from_option TelemetryChannel_ok false kv.2) l &&
  between 1 64 (Z.of_nat (length l)).

Definition MAX_SAFE_INTEGER : Z := 2 ^ 53 - 1.

Record EnvelopeReading := mkEnvelopeReading { er_c : string; er_t : Z; er_v : num }.
Record DeviceStatus := mkStatus {
  ds_batt_mv : option Z; ds_rssi : option Z; ds_up_s : Z; ds_health : list string }.
Record TelemetryEnvelope := mkEnvelope {
  te_v : Z; te_dev : string; te_seq : Z; te_ts : Z; te_r : list EnvelopeReading; te_st : DeviceStatus }.

Definition reading_ok (r : EnvelopeReading) : bool :=
  test CHANNEL_NAME (er_c r) && between (-7776000) 253402300799 (er_t r) && isFinite (er_v r).
Definition status_ok (s : DeviceStatus) : bool :=
  from_option (between 0 100000) true (ds_batt_mv s) && from_option (between (-150) 0) true (ds_rssi s) &&
  between 0 MAX_SAFE_INTEGER (ds_up_s s) &&
  forallb (fun h => between 1 64 (str_len h)) (ds_health s) && Nat.leb (length (ds_health s)) 16.

(** The text of the envelope the schema hands on, in schema order. *)
Definition json_int (z : Z) : json := JNum (of_Z z).
Definition opt_int (k : string) (v : option Z) : list (string * json) := from_option (fun z => [(k, json_int z)]) [] v.
Definition reading_json (r : EnvelopeReading) : json :=
  JObj [("c", JStr (er_c r)); ("t", json_int (er_t r)); ("v", JNum (er_v r))].
Definition status_json (s : DeviceStatus) : json :=
  JObj (opt_int "batt_mv" (ds_batt_mv s) ++ opt_int "rssi" (ds_rssi s) ++
        [("up_s", json_int (ds_up_s s)); ("health", JArr (JStr <$> ds_health s))]).
Definition envelope_json (e : TelemetryEnvelope) : json :=
  JObj [("v", json_int (te_v e)); ("dev", JStr (te_dev e)); ("seq", json_int (te_seq e)); ("ts", json_int (te_ts e));
        ("r", JArr (reading_json <$> te_r e)); ("st", status_json (te_st e))].

Record TelemetryAck := mkAck { ack_ok : Z; ack_next_s : Z }.
Definition TelemetryAck_ok (a : TelemetryAck) : bool := between 1 500 (ack_ok a) && between 1 86400 (ack_next_s a).

(** [Buffer.byteLength]: UTF-8 takes two bytes for code units from 128. *)
Fixpoint byteLength (s : string) : Z :=
  match s with
  | EmptyString => 0
  | String c s => (if Nat.ltb (code c) 128 then 1 else 2) + byteLength s
  end.

(** ** Tables ([packages/db/src/schema/telemetry.ts], [observations.ts])

    The uuid type compares without case, so devices are keyed by lower case. *)
Record DeviceRow := mkDevice {
  dv_tenant_id : string;
  dv_token_hash : string;
  dv_revoked_at : option Z;
  dv_channels : Channels;
  dv_next_s : Z;
  dv_last_seen_at : option Z;
  dv_last_seq : option Z;
  dv_status : option DeviceStatus
}.
Record CapabilityRow := mkCapability {
  cp_device : string;
  cp_id : string;
  cp_kind : string;
  cp_payload_schema : string;
  cp_enabled : bool;
  cp_channels : option Channels;
  cp_max_bytes : option Z;
  cp_max_width : option Z;
  cp_max_height : option Z
}.
Record Packet := mkPacket { pk_fingerprint : string; pk_response : TelemetryAck }.
Record ReadingRow := mkReading {
  rd_device : string; rd_seq : Z; rd_ordinal : nat; rd_channel : string; rd_ts : Z; rd_value : num }.

Record TelemetryDb := mkTelemetry {
  d_devices : gmap string DeviceRow;
  d_capabilities : list CapabilityRow;
  d_packets : gmap (string * Z) Packet;
  d_readings : list ReadingRow;
  d_latest : gmap (string * string) ReadingRow;
  d_usage : gmap (string * string) (Z * Z);
  d_presence : gmap (string * string) (Z * Z);
  d_raw_before : Z;
  d_dirty : gset (string * string * Z)
}.

(** ** Credentials ([device-auth.ts]) *)
Definition is_token_char (c : ascii) : bool := is_lower_digit c || is_upper c || one_of "_-" c.
Definition BEARER : re := Cat (lit "Bearer ") (rrep 43 (Chr is_token_char)).

Section Telemetry.
Context (sha256 : string -> string) (zod_uuid : string -> bool).

Definition tokenHash (token : string) : string := sha256 token.
Definition bearerHash (authorization : option string) : option string :=
  let value := default "" authorization in
  if test BEARER value then Some (tokenHash (slice_from 7 value)) else None.

Definition TelemetryEnvelope_ok (e : TelemetryEnvelope) : bool :=
  (te_v e =? 1) && zod_uuid (te_dev e) && between 0 MAX_SAFE_INTEGER (te_seq e) && between 1 253402300799 (te_ts e) &&
  forallb reading_ok (te_r e) && between 1 500 (Z.of_nat (length (te_r e))) && status_ok (te_st e).

(** ** The transaction *)
Inductive Failure :=
| IngestError (statusCode : Z) (code : string)
| RetentionBound
| Unexpected.

Definition device_key (e : TelemetryEnvelope) : string := lower (te_dev e).
Definition packet_key (e : TelemetryEnvelope) : string * Z := (device_key e, te_seq e).

Definition live_device (d : TelemetryDb) (dev credentialHash : string) : option DeviceRow :=
  match d_devices d !! dev with
  | Some v => if (dv_token_hash v ==s credentialHash) && bool_decide (dv_revoked_at v = None) then Some v else None
  | None => None
  end.

Definition capabilities_of (d : TelemetryDb) (dev : string) : list CapabilityRow :=
  List.filter (fun c => cp_device c ==s dev) (d_capabilities d).
Definition measures (c : CapabilityRow) : bool :=
  cp_enabled c && (cp_kind c ==s "measurement") && (cp_payload_schema c ==s "readings.v1").
Definition column_ok (l : option Channels) : bool := from_option TelemetryChannels_ok false l.
Definition keys_of (l : option Channels) : list string := from_option (fun l => l.*1) [] l.

(** A device without capabilities keeps the channel-only contract. *)
Definition check_capabilities (capabilities : list CapabilityRow) (e : TelemetryEnvelope) : result Failure unit :=
  match capabilities with
  | [] => Ok tt
  | _ =>
      let enabled := List.filter measures capabilities in
      if negb (forallb (fun c => column_ok (cp_channels c)) enabled) then Err Unexpected
      else
        let authorized := flat_map (fun c => keys_of (cp_channels c)) enabled in
        if existsb (fun r => negb (inb (er_c r) authorized)) (te_r e) then Err (IngestError 403 "capability_forbidden")
        else Ok tt
  end.

Definition validTime (seconds t : Z) : bool := (seconds - 90 * 86400 <=? t) && (t <=? seconds + 300).
Definition reading_time (e : TelemetryEnvelope) (r : EnvelopeReading) : Z := if er_t r <? 0 then te_ts e + er_t r else er_t r.

Definition check_reading (channels : Channels) (seconds : Z) (e : TelemetryEnvelope) (r : EnvelopeReading) : result Failure unit :=
  match map_get (er_c r) channels with
  | Some (Some channel) =>
      if nlt (er_v r) (tc_min channel) || nlt (tc_max channel) (er_v r) then Err (IngestError 422 "value_out_of_range")
      else
        let ts := reading_time e r in
        if negb (validTime seconds ts) || (te_ts e <? ts) then Err (IngestError 422 "timestamp_out_of_range") else Ok tt
  | _ => Err (IngestError 422 "unknown_channel")
  end.
Fixpoint check_readings (channels : Channels) (seconds : Z) (e : TelemetryEnvelope) (l : list EnvelopeReading) : result Failure unit :=
  match l with
  | [] => Ok tt
  | r :: l => let! _ := check_reading channels seconds e r in check_readings channels seconds e l
  end.

(** JSON has no negative zero. *)
Definition json_value (v : num) : num := match v with SpecFloat.S754_zero _ => nzero | v => v end.
Definition micros_of_seconds (ts : Z) : Z := ts * 1000000.
Definition normalized (e : TelemetryEnvelope) : list ReadingRow :=
  imap (fun ordinal r => mkReading (device_key e) (te_seq e) ordinal (er_c r) (micros_of_seconds (reading_time e r)) (json_value (er_v r)))
    (te_r e).

(** *** The writes *)
Definition with_packets m (d : TelemetryDb) : TelemetryDb :=
  mkTelemetry (d_devices d) (d_capabilities d) m (d_readings d) (d_latest d) (d_usage d) (d_presence d) (d_raw_before d) (d_dirty d).
Definition with_readings l dirty (d : TelemetryDb) : TelemetryDb :=
  mkTelemetry (d_devices d) (d_capabilities d) (d_packets d) l (d_latest d) (d_usage d) (d_presence d) (d_raw_before d) dirty.
Definition with_latest m (d : TelemetryDb) : TelemetryDb :=
  mkTelemetry (d_devices d) (d_capabilities d) (d_packets d) (d_readings d) m (d_usage d) (d_presence d) (d_raw_before d) (d_dirty d).
Definition with_devices m (d : TelemetryDb) : TelemetryDb :=
  mkTelemetry m (d_capabilities d) (d_packets d) (d_readings d) (d_latest d) (d_usage d) (d_presence d) (d_raw_before d) (d_dirty d).
Definition with_usage m (d : TelemetryDb) : TelemetryDb :=
  mkTelemetry (d_devices d) (d_capabilities d) (d_packets d) (d_readings d) (d_latest d) m (d_presence d) (d_raw_before d) (d_dirty d).
Definition with_presence m (d : TelemetryDb) : TelemetryDb :=
  mkTelemetry (d_devices d) (d_capabilities d) (d_packets d) (d_readings d) (d_latest d) (d_usage d) m (d_raw_before d) (d_dirty d).

Definition insert_packet (e : TelemetryEnvelope) (fingerprint : string) (response : TelemetryAck) (d : TelemetryDb) : result Failure TelemetryDb :=
  match d_packets d !! packet_key e with
  | Some _ => Err Unexpected
  | None => Ok (with_packets (<[packet_key e := mkPacket fingerprint response]> (d_packets d)) d)
  end.

(** The primary key, then the trigger [mark_dirty_hours]. *)
Definition same_reading (a b : ReadingRow) : bool :=
  (rd_device a ==s rd_device b) && (rd_seq a =? rd_seq b) && Nat.eqb (rd_ordinal a) (rd_ordinal b) && (rd_ts a =? rd_ts b).
Definition hour_of (ts : Z) : Z := ts / 3600000000 * 3600000000.
Definition insert_readings (rows : list ReadingRow) (d : TelemetryDb) : result Failure TelemetryDb :=
  if existsb (fun r => existsb (same_reading r) (d_readings d)) rows then Err Unexpected
  else if existsb (fun r => rd_ts r <? d_raw_before d) rows then Err RetentionBound
  else Ok (with_readings (d_readings d ++ rows)
             (list_to_set ((fun r => (rd_device r, rd_channel r, hour_of (rd_ts r))) <$> rows) ∪ d_dirty d) d).

(** [(ts, seq, ordinal)] of one row after another's. *)
Definition newer (a b : ReadingRow) : bool :=
  (rd_ts b <? rd_ts a) ||
  ((rd_ts a =? rd_ts b) && ((rd_seq b <? rd_seq a) || ((rd_seq a =? rd_seq b) && Nat.ltb (rd_ordinal b) (rd_ordinal a)))).
Definition older (a b : ReadingRow) : bool := newer b a.
(** [DISTINCT ON (channel) ... ORDER BY channel, ts DESC, ordinal DESC]: the rows
    are one packet's, so [seq] does not tell them apart. *)
Definition newest (channel : string) (rows : list ReadingRow) : option ReadingRow :=
  head (js_sort older (List.filter (fun r => rd_channel r ==s channel) rows)).
Definition upsert_latest (r : ReadingRow) (m : gmap (string * string) ReadingRow) : gmap (string * string) ReadingRow :=
  match m !! (rd_device r, rd_channel r) with
  | Some l => if newer r l then <[(rd_device r, rd_channel r) := r]> m else m
  | None => <[(rd_device r, rd_channel r) := r]> m
  end.
Definition write_latest (rows : list ReadingRow) (d : TelemetryDb) : TelemetryDb :=
  with_latest (fold_left (fun m r => upsert_latest r m) (omap (fun c => newest c rows) (uniq (rd_channel <$> rows))) (d_latest d)) d.

(** [GREATEST] ignores nulls. *)
Definition greatest (a b : option Z) : option Z :=
  match a, b with
  | Some x, Some y => Some (Z.max x y)
  | Some x, None => Some x
  | None, b => b
  end.

(** [jsonb] has no NUL: the cast fails. *)
Definition jsonb_text (s : string) : bool := negb (has_char (ascii_of_nat 0) s).
Definition seen (received seq : Z) (st : DeviceStatus) (v : DeviceRow) : DeviceRow :=
  mkDevice (dv_tenant_id v) (dv_token_hash v) (dv_revoked_at v) (dv_channels v) (dv_next_s v)
    (greatest (dv_last_seen_at v) (Some (micros received))) (greatest (dv_last_seq v) (Some seq))
    (if from_option (fun last => last <? seq) true (dv_last_seq v) then Some st else dv_status v).
Definition update_device (received : Z) (e : TelemetryEnvelope) (d : TelemetryDb) : result Failure TelemetryDb :=
  if negb (forallb jsonb_text (ds_health (te_st e))) then Err Unexpected
  else Ok (with_devices (alter (seen received (te_seq e) (te_st e)) (device_key e) (d_devices d)) d).

Definition write_usage (received : Z) (e : TelemetryEnvelope) (readings bytes : Z) (d : TelemetryDb) : TelemetryDb :=
  let k := (device_key e, isoMonth received) in
  let '(r, b) := default (0, 0) (d_usage d !! k) in with_usage (<[k := (r + readings, b + bytes)]> (d_usage d)) d.

(** The latest reading of the packet that a capability may send. *)
Definition captured (c : CapabilityRow) (rows : list ReadingRow) : option Z :=
  fold_left greatest ((fun r => Some (rd_ts r)) <$> List.filter (fun r => inb (rd_channel r) (keys_of (cp_channels c))) rows) None.
Definition upsert_presence (k : string * string) (capture received : Z) (m : gmap (string * string) (Z * Z)) : gmap (string * string) (Z * Z) :=
  match m !! k with
  | Some (c, r) => <[k := (Z.max c capture, Z.max r received)]> m
  | None => <[k := (capture, received)]> m
  end.
Definition present (received : Z) (rows : list ReadingRow) (m : gmap (string * string) (Z * Z)) (c : CapabilityRow) :=
  match captured c rows with
  | Some t => if (cp_kind c ==s "measurement") && cp_enabled c then upsert_presence (cp_device c, cp_id c) t received m else m
  | None => m
  end.
Definition write_presence (received : Z) (rows : list ReadingRow) (capabilities : list CapabilityRow) (d : TelemetryDb) : TelemetryDb :=
  with_presence (fold_left (present (micros received) rows) capabilities (d_presence d)) d.

(** *** From the device's row to the commit *)
Definition fingerprint_of (e : TelemetryEnvelope) : string := tokenHash (stringify (envelope_json e)).

Definition store (received : Z) (e : TelemetryEnvelope) (capabilities : list CapabilityRow) (response : TelemetryAck)
    (d : TelemetryDb) : result Failure TelemetryDb :=
  let! d := insert_packet e (fingerprint_of e) response d in
  let! d := insert_readings (normalized e) d in
  let! d := update_device received e (write_latest (normalized e) d) in
  let d := write_usage received e (Z.of_nat (length (te_r e))) (byteLength (stringify (envelope_json e))) d in
  Ok (write_presence received (normalized e) capabilities d).

Definition transaction (received : Z) (credentialHash : string) (e : TelemetryEnvelope) (d : TelemetryDb) : result Failure (TelemetryAck * TelemetryDb) :=
  match live_device d (device_key e) credentialHash with
  | None => Err (IngestError 401 "unauthorized")
  | Some device =>
      let capabilities := capabilities_of d (device_key e) in
      let! _ := check_capabilities capabilities e in
      match d_packets d !! packet_key e with
      | Some prior =>
          if negb (pk_fingerprint prior ==s fingerprint_of e) then Err (IngestError 409 "sequence_conflict")
          else if TelemetryAck_ok (pk_response prior) then Ok (pk_response prior, d) else Err Unexpected
      | None =>
          if negb (TelemetryChannels_ok (dv_channels device)) then Err Unexpected
          else
            let seconds := received / 1000 in
            if negb (validTime seconds (te_ts e)) then Err (IngestError 422 "timestamp_out_of_range")
            else
              let! _ := check_readings (dv_channels device) seconds e (te_r e) in
              let response := mkAck (Z.of_nat (length (te_r e))) (dv_next_s device) in
              if negb (TelemetryAck_ok response) then Err Unexpected
              else let! d := store received e capabilities response d in Ok (response, d)
      end
  end.

(** ** The request *)
Inductive Reply := Accepted (a : TelemetryAck) | Refused (status : Z) (code : string).

(** The catch and the error handler. *)
Definition refuse (f : Failure) : Reply :=
  match f with
  | IngestError status code => Refused status code
  | RetentionBound => Refused 422 "timestamp_out_of_range"
  | Unexpected => Refused 503 "storage_unavailable"
  end.

(** What becomes of a request: no room for its payload; the connection serves
    it; the connection fails before the commit; the commit's answer is lost. *)
Inductive Fate := Full | Serves | Breaks | AnswerLost.

(** The body is [None] when its JSON is not of the envelope's shape. *)
Definition check_request (authorization : option string) (body : option TelemetryEnvelope) : result Failure (string * TelemetryEnvelope) :=
  match bearerHash authorization, body with
  | None, _ => Err (IngestError 401 "unauthorized")
  | Some h, Some e => if TelemetryEnvelope_ok e then Ok (h, e) else Err (IngestError 400 "invalid_envelope")
  | Some _, None => Err (IngestError 400 "invalid_envelope")
  end.

Definition ingest (now : Z) (authorization : option string) (body : option TelemetryEnvelope) (fate : Fate) (d : TelemetryDb) : Reply * TelemetryDb :=
  match fate with
  | Full => (Refused 503 "busy", d)
  | _ =>
      match check_request authorization body with
      | Err f => (refuse f, d)
      | Ok (hash, e) =>
          match fate, transaction now hash e d with
          | Breaks, _ => (refuse Unexpected, d)
          | _, Err f => (refuse f, d)
          | AnswerLost, Ok (_, d') => (refuse Unexpected, d')
          | _, Ok (a, d') => (Accepted a, d')
          end
      end
  end.
End Telemetry.
