(* ===== verification/TelemetrySpec.v ===== *)
(** * What the telemetry tables are: views of a log of accepted packets

    [Represents d log] says what each table of [Telemetry] holds in terms of the
    packets accepted so far, in the order they committed. Every step of the
    service and of its surroundings keeps it. *)
From stdpp Require Import gmap.
From S2P Require Import Prelude JsString Regex JsNumber JsDate Json Auth Telemetry.
#[local] Open Scope string_scope.
#[local] Open Scope list_scope.
#[local] Open Scope Z_scope.
#[local] Open Scope forge_scope.

(** ** Generic lemmas *)
Lemma NoDup_snoc {A} (l : list A) x : NoDup l -> x ∉ l -> NoDup (l ++ [x]).
Proof.
  intros Hl Hx. apply NoDup_app. split_and!; [done| |apply NoDup_singleton].
  intros y Hy ->%list_elem_of_singleton. by apply Hx.
Qed.

(** [GREATEST] over a list, and a sum. *)
Definition greatest_of {A} (f : A -> option Z) (l : list A) : option Z := fold_left greatest (f <$> l) None.
Definition total {A} (f : A -> Z) (l : list A) : Z := foldr Z.add 0 (f <$> l).

Lemma greatest_of_snoc {A} (f : A -> option Z) l x : greatest_of f (l ++ [x]) = greatest (greatest_of f l) (f x).
Proof. unfold greatest_of. by rewrite fmap_app, fold_left_app. Qed.
Lemma total_snoc {A} (f : A -> Z) l x : total f (l ++ [x]) = total f l + f x.
Proof. unfold total. induction l as [|y l IH]; csimpl; [lia|]. rewrite IH. lia. Qed.

Lemma greatest_None a : greatest a None = a.
Proof. by destruct a. Qed.

(** It is the greatest of the values there are. *)
Lemma greatest_of_None {A} (f : A -> option Z) l : greatest_of f l = None <-> forall x, x ∈ l -> f x = None.
Proof.
  induction l as [|x l IH] using rev_ind; [split; [by intros _ x ?%elem_of_nil|done]|].
  rewrite greatest_of_snoc. setoid_rewrite elem_of_app. setoid_rewrite list_elem_of_singleton.
  destruct (greatest_of f l) as [m|], (f x) eqn:E; simpl; split; intros H; naive_solver.
Qed.
Lemma greatest_of_Some {A} (f : A -> option Z) l m :
  greatest_of f l = Some m -> (exists x, x ∈ l /\ f x = Some m) /\ (forall x y, x ∈ l -> f x = Some y -> y <= m).
Proof.
  revert m. induction l as [|x l IH] using rev_ind; intros m; [done|]. rewrite greatest_of_snoc.
  setoid_rewrite elem_of_app. setoid_rewrite list_elem_of_singleton.
  destruct (greatest_of f l) as [k|] eqn:Ek.
  - destruct (IH k eq_refl) as [(z & Hz & Ez) Hle]. destruct (f x) as [y|] eqn:E; simpl; intros [= <-].
    + split; [destruct (Z.max_spec k y) as [[_ ->]|[_ ->]]; eauto|]. intros w v [Hw|Hw] Ev.
      * specialize (Hle w v Hw Ev). lia.
      * subst w. rewrite E in Ev. injection Ev. lia.
    + split; [eauto|]. intros w v [Hw|Hw] Ev; [eauto|]. subst w. congruence.
  - intros E. simpl in E. split; [eauto|]. intros w v [Hw|Hw] Ev.
    + apply (proj1 (greatest_of_None f l) Ek) in Hw. congruence.
    + subst w. rewrite E in Ev. injection Ev. lia.
Qed.

(** ** The order of readings *)
Lemma newer_spec a b :
  newer a b = true <->
  rd_ts b < rd_ts a \/ (rd_ts a = rd_ts b /\ (rd_seq b < rd_seq a \/ (rd_seq a = rd_seq b /\ (rd_ordinal b < rd_ordinal a)%nat))).
Proof. unfold newer. rewrite !orb_true_iff, !andb_true_iff, !orb_true_iff, !andb_true_iff, Nat.ltb_lt, !Z.ltb_lt, !Z.eqb_eq. done. Qed.
Lemma newer_false a b :
  newer a b = false <->
  rd_ts a < rd_ts b \/ (rd_ts a = rd_ts b /\ (rd_seq a < rd_seq b \/ (rd_seq a = rd_seq b /\ (rd_ordinal a <= rd_ordinal b)%nat))).
Proof. rewrite <- not_true_iff_false, newer_spec. lia. Qed.

Lemma older_order P : total_preorder_on older P.
Proof. split; unfold le_of, older; intros *; rewrite !newer_false; lia. Qed.

(** The newest of the rows of a channel: none is newer. *)
Definition is_newest (p : ReadingRow -> Prop) (r : option ReadingRow) : Prop :=
  match r with
  | None => forall x, ~ p x
  | Some r => p r /\ forall x, p x -> newer x r = false
  end.
Definition on_channel (rows : list ReadingRow) (c : string) (r : ReadingRow) : Prop := r ∈ rows /\ rd_channel r = c.

Lemma newest_picked rows c : is_newest (on_channel rows c) (newest c rows).
Proof.
  unfold newest. set (l := List.filter _ rows).
  assert (Hl : forall x, x ∈ l <-> on_channel rows c x).
  { intros x. unfold l, on_channel. by rewrite elem_of_listfilter, String.eqb_eq. }
  pose proof (js_sort_sorted older (fun _ => True) (older_order _) l) as Hs.
  pose proof (elem_of_js_sort older) as He. destruct (js_sort older l) as [|r l'] eqn:E; simpl.
  - intros x Hx%Hl. apply (He x l) in Hx. rewrite E in Hx. by apply elem_of_nil in Hx.
  - assert (Hr : r ∈ l) by (apply He; rewrite E; left). split; [by apply Hl|]. intros x Hx%Hl. apply (He x l) in Hx. rewrite E in Hx.
    assert (Hs' : StronglySorted (le_of older) (r :: l')) by (apply Hs; by apply Forall_true).
    apply StronglySorted_inv in Hs' as [_ Hall]. apply elem_of_cons in Hx as [->|Hx].
    + apply newer_false. lia.
    + rewrite Forall_forall in Hall. apply (Hall x Hx).
Qed.

(** ** The latest rows *)
Definition on_key (rows : list ReadingRow) (k : string * string) (r : ReadingRow) : Prop :=
  r ∈ rows /\ (rd_device r, rd_channel r) = k.
Definition newest_of_two (l r : option ReadingRow) : option ReadingRow :=
  match l, r with
  | Some l, Some r => if newer r l then Some r else Some l
  | Some l, None => Some l
  | None, r => r
  end.

Lemma is_newest_union p q l r : is_newest p l -> is_newest q r -> is_newest (fun x => p x \/ q x) (newest_of_two l r).
Proof.
  destruct l as [l|], r as [r|]; simpl; intros Hl Hr; [|naive_solver..].
  destruct Hl as [Hpl Hl], Hr as [Hqr Hr]. destruct (newer r l) eqn:E; (split; [auto|]); intros x [Hx|Hx].
  - apply Hl in Hx. rewrite newer_false in Hx |- *. apply newer_spec in E. lia.
  - auto.
  - auto.
  - apply Hr in Hx. rewrite newer_false in *. lia.
Qed.
Lemma is_newest_ext p q r : (forall x, p x <-> q x) -> is_newest p r -> is_newest q r.
Proof. intros H. destruct r; simpl; setoid_rewrite H; done. Qed.

Lemma newest_key dev rows c r :
  (forall x, x ∈ rows -> rd_device x = dev) -> newest c rows = Some r -> (rd_device r, rd_channel r) = (dev, c).
Proof. intros Hd E. pose proof (newest_picked rows c) as H. rewrite E in H. destruct H as [[Hr <-] _]. by rewrite (Hd r Hr). Qed.

Lemma upsert_latest_lookup r m k :
  upsert_latest r m !! k = if decide (k = (rd_device r, rd_channel r)) then newest_of_two (m !! k) (Some r) else m !! k.
Proof.
  unfold upsert_latest. case_decide as E; [subst k|].
  - destruct (m !! _) eqn:El; simpl; [case_match; [by rewrite lookup_insert_eq|done]|by rewrite lookup_insert_eq].
  - destruct (m !! (_, _)); [case_match; [|done]|]; by rewrite lookup_insert_ne by congruence.
Qed.

Lemma fold_upsert_lookup dev rows cs m k :
  (forall x, x ∈ rows -> rd_device x = dev) -> NoDup cs ->
  fold_left (fun m r => upsert_latest r m) (omap (fun c => newest c rows) cs) m !! k =
  if decide (k.1 = dev /\ k.2 ∈ cs) then newest_of_two (m !! k) (newest k.2 rows) else m !! k.
Proof.
  intros Hd Hn. revert m. induction Hn as [|c cs Hc Hn IH]; intros m; simpl.
  - rewrite decide_False; [done|]. by intros [_ ?%elem_of_nil].
  - destruct (newest c rows) as [r|] eqn:E; simpl; rewrite IH.
    + pose proof (newest_key dev rows c r Hd E) as Ek. rewrite upsert_latest_lookup, Ek. destruct k as [a b]. simpl.
      destruct (decide ((a, b) = (dev, c))) as [[= -> ->]|N].
      * rewrite decide_False by naive_solver. rewrite decide_True by (split; [done|left]). by rewrite E.
      * repeat case_decide; try done; rewrite elem_of_cons in *; naive_solver.
    + destruct k as [a b]. simpl. destruct (decide ((a, b) = (dev, c))) as [[= -> ->]|N].
      * rewrite decide_False by naive_solver. rewrite decide_True by (split; [done|left]). rewrite E. by destruct (m !! _).
      * repeat case_decide; try done; rewrite elem_of_cons in *; naive_solver.
Qed.

Definition latest_of (rows : list ReadingRow) (m : gmap (string * string) ReadingRow) : Prop :=
  forall k, is_newest (on_key rows k) (m !! k).

Lemma write_latest_of dev rows0 rows d :
  (forall x, x ∈ rows -> rd_device x = dev) -> latest_of rows0 (d_latest d) ->
  latest_of (rows0 ++ rows) (d_latest (write_latest rows d)).
Proof.
  intros Hd H [a c]. unfold write_latest. simpl. rewrite (fold_upsert_lookup dev) by auto with forge. simpl.
  specialize (H (a, c)). case_decide as Hk.
  - destruct Hk as [-> _]. eapply is_newest_ext; [|exact (is_newest_union _ _ _ _ H (newest_picked rows c))].
    intros x. unfold on_key, on_channel. rewrite elem_of_app. split.
    + intros [[? ?]|[Hx <-]]; [naive_solver|]. rewrite (Hd x Hx). naive_solver.
    + intros [[?|?] [= ? ?]]; naive_solver.
  - eapply is_newest_ext; [|exact H]. intros x. unfold on_key. rewrite elem_of_app. split; [naive_solver|].
    intros [[Hx|Hx] [= <- <-]]; [done|]. destruct Hk. split; [by apply Hd|]. apply elem_of_uniq.
    by apply (list_elem_of_fmap_2 rd_channel).
Qed.

(** ** Presence of capabilities *)
Lemma greatest_assoc a b c : greatest a (greatest b c) = greatest (greatest a b) c.
Proof. destruct a, b, c; simpl; try done. f_equal. lia. Qed.
Lemma greatest_of_cons {A} (f : A -> option Z) x l : greatest_of f (x :: l) = greatest (f x) (greatest_of f l).
Proof.
  unfold greatest_of. csimpl. rewrite <- (greatest_None (f x)) at 1.
  assert (G : forall l a b, fold_left greatest l (greatest a b) = greatest a (fold_left greatest l b)).
  { clear. intros l. induction l as [|y l IH]; intros a b; simpl; [done|]. by rewrite <- greatest_assoc, IH. }
  destruct (f x) eqn:E; simpl; [|done]. by rewrite <- (greatest_None (Some _)), G.
Qed.

Lemma upsert_presence_lookup k capture received m k' :
  upsert_presence k capture received m !! k' =
  if decide (k' = k) then Some (default capture (Z.max capture <$> (fst <$> m !! k)), default received (Z.max received <$> (snd <$> m !! k)))
  else m !! k'.
Proof.
  unfold upsert_presence. case_decide as E; [subst k'|].
  - destruct (m !! k) as [[c r]|]; rewrite lookup_insert_eq; simpl; [|done]. do 2 f_equal; lia.
  - destruct (m !! k) as [[c r]|]; by rewrite lookup_insert_ne by congruence.
Qed.

(** What a capability of key [k] shows of the rows. *)
Definition shown (k : string * string) (rows : list ReadingRow) (c : CapabilityRow) : option Z :=
  if bool_decide ((cp_device c, cp_id c) = k) && ((cp_kind c ==s "measurement") && cp_enabled c) then captured c rows else None.

Lemma present_lookup received rows m c k :
  fst <$> present received rows m c !! k = greatest (fst <$> m !! k) (shown k rows c) /\
  snd <$> present received rows m c !! k = greatest (snd <$> m !! k) ((fun _ => received) <$> shown k rows c).
Proof.
  unfold present, shown. destruct (captured c rows) as [t|]; [|case_match; simpl; by rewrite !greatest_None].
  destruct ((_ ==s _) && _) eqn:E; [|rewrite andb_false_r; simpl; by rewrite !greatest_None].
  rewrite upsert_presence_lookup, andb_true_r. case_decide as Hk.
  - subst k. rewrite bool_decide_true by done. destruct (m !! _) as [[a b]|]; simpl; split; try done; f_equal; lia.
  - rewrite bool_decide_false by congruence. simpl. by rewrite !greatest_None.
Qed.

Lemma greatest_const (r : Z) a b :
  (fun _ : Z => r) <$> greatest a b = greatest ((fun _ => r) <$> a) ((fun _ => r) <$> b).
Proof. destruct a, b; simpl; try done. f_equal. lia. Qed.

Lemma fold_present_lookup received rows l m k :
  fst <$> fold_left (present received rows) l m !! k = greatest (fst <$> m !! k) (greatest_of (shown k rows) l) /\
  snd <$> fold_left (present received rows) l m !! k =
    greatest (snd <$> m !! k) ((fun _ => received) <$> greatest_of (shown k rows) l).
Proof.
  revert m. induction l as [|c l IH]; intros m; simpl; [by rewrite !greatest_None|].
  rewrite greatest_of_cons, greatest_const, !greatest_assoc. destruct (IH (present received rows m c)) as [-> ->].
  by destruct (present_lookup received rows m c k) as [-> ->].
Qed.

(** ** The log *)
Record Entry := mkEntry {
  en_received : Z;
  en_env : TelemetryEnvelope;
  en_ack : TelemetryAck;
  en_caps : list CapabilityRow
}.

Definition entry_key (e : Entry) : string * Z := packet_key (en_env e).
Definition entry_rows (e : Entry) : list ReadingRow := normalized (en_env e).
Definition rows_of (log : list Entry) : list ReadingRow := flat_map entry_rows log.
Definition of_device (dev : string) (e : Entry) : bool := device_key (en_env e) ==s dev.

(** Usage of a device and month, what a capability last showed, when a device was
    last seen and its highest sequence. *)
Definition counts (k : string * string) (e : Entry) : bool := of_device k.1 e && (isoMonth (en_received e) ==s k.2).
Definition readings_in (k : string * string) (e : Entry) : Z := if counts k e then Z.of_nat (length (te_r (en_env e))) else 0.
Definition payload_bytes (k : string * string) (e : Entry) : Z :=
  if counts k e then byteLength (stringify (envelope_json (en_env e))) else 0.
Definition capture_of (k : string * string) (e : Entry) : option Z := greatest_of (shown k (entry_rows e)) (en_caps e).
Definition capture_received (k : string * string) (e : Entry) : option Z := (fun _ => micros (en_received e)) <$> capture_of k e.
Definition seq_of (dev : string) (e : Entry) : option Z := if of_device dev e then Some (te_seq (en_env e)) else None.
Definition seen_of (dev : string) (e : Entry) : option Z := if of_device dev e then Some (micros (en_received e)) else None.

Section Log.
Context (sha256 : string -> string) (zod_uuid : string -> bool).

Definition entry_packet (e : Entry) : Packet := mkPacket (fingerprint_of sha256 (en_env e)) (en_ack e).

Definition device_follows (log : list Entry) (dev : string) (v : DeviceRow) : Prop :=
  dv_last_seq v = greatest_of (seq_of dev) log /\
  dv_last_seen_at v = greatest_of (seen_of dev) log /\
  forall e, e ∈ log -> of_device dev e = true -> dv_last_seq v = Some (te_seq (en_env e)) -> dv_status v = Some (te_st (en_env e)).

Record Represents (d : TelemetryDb) (log : list Entry) : Prop := {
  rp_ok : forall e, e ∈ log -> TelemetryEnvelope_ok zod_uuid (en_env e) = true /\ TelemetryAck_ok (en_ack e) = true;
  rp_keys : NoDup (entry_key <$> log);
  rp_packets : forall k p, d_packets d !! k = Some p <-> exists e, e ∈ log /\ entry_key e = k /\ p = entry_packet e;
  rp_readings : d_readings d `sublist_of` rows_of log;
  rp_kept : forall r, r ∈ rows_of log -> d_raw_before d <= rd_ts r -> r ∈ d_readings d;
  rp_latest : latest_of (rows_of log) (d_latest d);
  rp_usage : forall k, default (0, 0) (d_usage d !! k) = (total (readings_in k) log, total (payload_bytes k) log);
  rp_presence : forall k, fst <$> d_presence d !! k = greatest_of (capture_of k) log /\
                          snd <$> d_presence d !! k = greatest_of (capture_received k) log;
  rp_devices : forall dev v, d_devices d !! dev = Some v -> device_follows log dev v;
  rp_known : forall e, e ∈ log -> is_Some (d_devices d !! device_key (en_env e))
}.

Lemma rows_of_snoc log e : rows_of (log ++ [e]) = rows_of log ++ entry_rows e.
Proof. unfold rows_of. rewrite flat_map_app. simpl. by rewrite app_nil_r. Qed.

Lemma elem_of_entry_rows e r : r ∈ entry_rows e -> (rd_device r, rd_seq r) = entry_key e.
Proof. intros (i & x & -> & _)%elem_of_lookup_imap. done. Qed.
Lemma entry_rows_device e r : r ∈ entry_rows e -> rd_device r = device_key (en_env e).
Proof. intros H%elem_of_entry_rows. by injection H. Qed.

(** The keys of a log tell its entries apart. *)
Lemma entry_by_key d log e e' : Represents d log -> e ∈ log -> e' ∈ log -> entry_key e = entry_key e' -> e = e'.
Proof. intros H He He'. apply (NoDup_fmap_elem entry_key log); [apply (rp_keys _ _ H)|done..]. Qed.

(** What the writes of a fresh packet leave. *)
Lemma store_writes received e caps a d d' : store sha256 received e caps a d = Ok d' <->
  d_packets d !! packet_key e = None /\
  (forall r r', r ∈ normalized e -> r' ∈ d_readings d -> same_reading r r' = false) /\
  (forall r, r ∈ normalized e -> d_raw_before d <= rd_ts r) /\
  (forall h, h ∈ ds_health (te_st e) -> jsonb_text h = true) /\
  d' = mkTelemetry (alter (seen received (te_seq e) (te_st e)) (device_key e) (d_devices d)) (d_capabilities d)
         (<[packet_key e := mkPacket (fingerprint_of sha256 e) a]> (d_packets d)) (d_readings d ++ normalized e)
         (d_latest (write_latest (normalized e) d))
         (<[(device_key e, isoMonth received) :=
              let u := default (0, 0) (d_usage d !! (device_key e, isoMonth received)) in
              (u.1 + Z.of_nat (length (te_r e)), u.2 + byteLength (stringify (envelope_json e)))]> (d_usage d))
         (fold_left (present (micros received) (normalized e)) caps (d_presence d)) (d_raw_before d)
         (list_to_set ((fun r => (rd_device r, rd_channel r, hour_of (rd_ts r))) <$> normalized e) ∪ d_dirty d).
Proof.
  unfold store, insert_packet. destruct (d_packets d !! packet_key e); [split; [done|by intros [? _]]|]. simpl. unfold insert_readings. simpl.
  destruct (existsb _ _) eqn:Ee.
  { split; [done|]. intros (_ & H & _). apply existsb_elem in Ee as (r & Hr & (r' & Hr' & E)%existsb_elem). by rewrite H in E. }
  assert (Hnew : forall r r', r ∈ normalized e -> r' ∈ d_readings d -> same_reading r r' = false).
  { intros r r' Hr. rewrite existsb_elem_false in Ee. specialize (Ee r Hr). rewrite existsb_elem_false in Ee. apply Ee. }
  destruct (existsb (fun r => rd_ts r <? d_raw_before d) _) eqn:Et.
  { split; [done|]. intros (_ & _ & H & _). apply existsb_elem in Et as (r & Hr & E%Z.ltb_lt). specialize (H r Hr). lia. }
  assert (Hkept : forall r, r ∈ normalized e -> d_raw_before d <= rd_ts r).
  { intros r Hr. rewrite existsb_elem_false in Et. specialize (Et r Hr). by apply Z.ltb_ge in Et. }
  simpl. unfold update_device. destruct (forallb jsonb_text _) eqn:Eh; simpl.
  - rewrite forallb_elem in Eh. unfold write_usage. simpl. destruct (default (0, 0) _) as [u b]. simpl. split; [intros [= <-]|]; [done|].
    by intros (_ & _ & _ & _ & ->).
  - split; [done|]. intros (_ & _ & _ & H & _). exfalso. rewrite <- not_true_iff_false, forallb_elem in Eh. by apply Eh.
Qed.

(** ** A fresh packet appends its entry *)
Lemma fresh_key d log k : Represents d log -> d_packets d !! k = None -> k ∉ entry_key <$> log.
Proof.
  intros H Hk (e & -> & He)%list_elem_of_fmap. assert (Hs : d_packets d !! entry_key e = Some (entry_packet e)); [|congruence].
  apply (rp_packets _ _ H). eauto.
Qed.

Lemma packets_snoc d log e k p :
  Represents d log -> d_packets d !! entry_key e = None ->
  <[entry_key e := entry_packet e]> (d_packets d) !! k = Some p <->
  exists x, x ∈ log ++ [e] /\ entry_key x = k /\ p = entry_packet x.
Proof.
  intros H Hk. setoid_rewrite elem_of_app. setoid_rewrite list_elem_of_singleton. destruct (decide (entry_key e = k)) as [<-|N].
  - rewrite lookup_insert_eq. split; [intros [= <-]; eauto|]. intros (x & [Hx| ->] & Ex & ->); [|done].
    exfalso. apply (fresh_key d log (entry_key e) H Hk). rewrite <- Ex. by apply list_elem_of_fmap_2.
  - rewrite lookup_insert_ne by done. rewrite (rp_packets _ _ H). naive_solver.
Qed.

Lemma usage_snoc d log e k :
  Represents d log ->
  let k0 := (device_key (en_env e), isoMonth (en_received e)) in
  let u := default (0, 0) (d_usage d !! k0) in
  default (0, 0) (<[k0 := (u.1 + Z.of_nat (length (te_r (en_env e))),
                           u.2 + byteLength (stringify (envelope_json (en_env e))))]> (d_usage d) !! k) =
  (total (readings_in k) (log ++ [e]), total (payload_bytes k) (log ++ [e])).
Proof.
  intros H k0 u. rewrite !total_snoc. unfold readings_in at 2, payload_bytes at 2, counts, of_device.
  destruct (decide (k0 = k)) as [<-|N]; [rewrite lookup_insert_eq|rewrite lookup_insert_ne by done].
  - unfold k0. cbn [fst snd]. rewrite !String.eqb_refl. subst u. by rewrite (rp_usage _ _ H).
  - rewrite (rp_usage _ _ H). destruct k as [dev month]. cbn [fst snd].
    destruct (String.eqb_spec (device_key (en_env e)) dev), (String.eqb_spec (isoMonth (en_received e)) month); cbn [andb];
      rewrite ?Z.add_0_r; [subst; done|done..].
Qed.

Lemma device_follows_snoc log dev v e :
  device_follows log dev v -> entry_key e ∉ entry_key <$> log ->
  device_follows (log ++ [e]) dev
    (if of_device dev e then seen (en_received e) (te_seq (en_env e)) (te_st (en_env e)) v else v).
Proof.
  intros (Hs & Hn & Hst) Hfresh. unfold device_follows. rewrite !greatest_of_snoc. unfold seq_of at 2, seen_of at 2.
  destruct (of_device dev e) eqn:Ed; simpl; rewrite ?greatest_None.
  2:{ split_and!; [done..|]. intros x [Hx|Hx%list_elem_of_singleton]%elem_of_app; [by apply Hst|]. subst x. by rewrite Ed. }
  assert (N : forall x, x ∈ log -> of_device dev x = true -> te_seq (en_env x) <> te_seq (en_env e)).
  { intros x Hx Hd E. apply Hfresh. apply list_elem_of_fmap. exists x. split; [|done].
    apply String.eqb_eq in Ed, Hd. unfold entry_key, packet_key. congruence. }
  split_and!; [by rewrite Hs|by rewrite Hn|]. intros x [Hx|Hx%list_elem_of_singleton]%elem_of_app Hd E; [|subst x].
  - assert (Hin : seq_of dev x = Some (te_seq (en_env x))) by (unfold seq_of; by rewrite Hd).
    destruct (dv_last_seq v) as [last|] eqn:El; simpl in E.
    + destruct (greatest_of_Some (seq_of dev) log last (eq_sym Hs)) as [_ Hle]. pose proof (Hle x _ Hx Hin).
      injection E as E. pose proof (N x Hx Hd).
      simpl. rewrite (proj2 (Z.ltb_ge _ _)) by lia. apply Hst; [done..|]. f_equal. lia.
    + symmetry in Hs. rewrite greatest_of_None in Hs. rewrite (Hs x Hx) in Hin. done.
  - destruct (dv_last_seq v) as [last|] eqn:El; simpl in *; [|done]. injection E as E.
    destruct (greatest_of_Some (seq_of dev) log last (eq_sym Hs)) as [(y & Hy & Ey) _]. unfold seq_of in Ey.
    destruct (of_device dev y) eqn:Edy; [|done]. injection Ey as Ey.
    pose proof (N y Hy Edy). by rewrite (proj2 (Z.ltb_lt _ _)) by lia.
Qed.

Lemma kept_snoc d log e :
  Represents d log -> (forall r, r ∈ entry_rows e -> d_raw_before d <= rd_ts r) ->
  d_readings d ++ entry_rows e `sublist_of` rows_of (log ++ [e]) /\
  forall r, r ∈ rows_of (log ++ [e]) -> d_raw_before d <= rd_ts r -> r ∈ d_readings d ++ entry_rows e.
Proof.
  intros H Hr. rewrite rows_of_snoc. split; [by apply sublist_app; [apply (rp_readings _ _ H)|]|].
  intros r [Hin|Hin]%elem_of_app Ht; rewrite elem_of_app; [left; by apply (rp_kept _ _ H)|by right].
Qed.

Lemma presence_snoc d log e k :
  Represents d log ->
  let m := fold_left (present (micros (en_received e)) (entry_rows e)) (en_caps e) (d_presence d) in
  fst <$> m !! k = greatest_of (capture_of k) (log ++ [e]) /\ snd <$> m !! k = greatest_of (capture_received k) (log ++ [e]).
Proof.
  intros H. cbn zeta. rewrite !greatest_of_snoc.
  destruct (fold_present_lookup (micros (en_received e)) (entry_rows e) (en_caps e) (d_presence d) k) as [-> ->].
  by destruct (rp_presence _ _ H k) as [-> ->].
Qed.

Lemma represents_store d log e d' :
  Represents d log -> TelemetryEnvelope_ok zod_uuid (en_env e) = true -> TelemetryAck_ok (en_ack e) = true ->
  is_Some (d_devices d !! device_key (en_env e)) ->
  store sha256 (en_received e) (en_env e) (en_caps e) (en_ack e) d = Ok d' -> Represents d' (log ++ [e]).
Proof.
  intros H Henv Hack Hdev (Hk & Hnew & Hold & _ & ->)%store_writes.
  pose proof (fresh_key d log _ H Hk : entry_key e ∉ _) as Hfresh. split; cbn [d_packets d_readings d_raw_before d_usage d_presence d_devices].
  - intros x [Hx|Hx%list_elem_of_singleton]%elem_of_app; [by apply (rp_ok _ _ H)|by subst].
  - rewrite fmap_app. apply NoDup_snoc; [apply (rp_keys _ _ H)|done].
  - intros k p. by apply packets_snoc.
  - by apply (kept_snoc d log e).
  - by apply (kept_snoc d log e).
  - cbn [d_latest]. rewrite rows_of_snoc. apply (write_latest_of (device_key (en_env e))); [apply entry_rows_device|apply (rp_latest _ _ H)].
  - intros k. by apply usage_snoc.
  - intros k. by apply presence_snoc.
  - intros dev v Hv. destruct (decide (device_key (en_env e) = dev)) as [<-|N].
    + rewrite lookup_alter_eq in Hv. destruct (d_devices d !! _) as [v0|] eqn:E0; [|done]. injection Hv as <-.
      pose proof (device_follows_snoc log _ v0 e (rp_devices _ _ H _ _ E0) Hfresh) as Hf.
      unfold of_device in Hf. by rewrite String.eqb_refl in Hf.
    + rewrite lookup_alter_ne in Hv by done. pose proof (device_follows_snoc log _ v e (rp_devices _ _ H _ _ Hv) Hfresh) as Hf.
      unfold of_device in Hf. by rewrite (proj2 (String.eqb_neq _ _) N) in Hf.
  - intros x [Hx|Hx%list_elem_of_singleton]%elem_of_app; rewrite lookup_alter_is_Some; [by apply (rp_known _ _ H)|by subst].
Qed.

(** ** What the transaction does *)
Lemma transaction_cases received hash e d a d' :
  transaction sha256 received hash e d = Ok (a, d') ->
  (exists p, d_packets d !! packet_key e = Some p /\ pk_fingerprint p = fingerprint_of sha256 e /\ pk_response p = a /\ d' = d) \/
  (d_packets d !! packet_key e = None /\ TelemetryAck_ok a = true /\ is_Some (d_devices d !! device_key e) /\
   store sha256 received e (capabilities_of d (device_key e)) a d = Ok d').
Proof.
  unfold transaction, live_device. destruct (d_devices d !! device_key e) as [v|]; [|done]. destruct (_ && _); [|done].
  intros (_ & _ & E)%rbind_ok. destruct (d_packets d !! packet_key e) as [p|]; [left|right].
  - destruct (String.eqb_spec (pk_fingerprint p) (fingerprint_of sha256 e)); simpl in E; [|done]. destruct (TelemetryAck_ok _); [|done].
    injection E as <- <-. eauto.
  - destruct (TelemetryChannels_ok _); simpl in E; [|done]. destruct (validTime _ _); simpl in E; [|done].
    apply rbind_ok in E as (_ & _ & E). destruct (TelemetryAck_ok _) eqn:Ea; simpl in E; [|done].
    apply rbind_ok in E as (d1 & Es & E). injection E as <- <-. eauto 7.
Qed.

Lemma check_request_ok authorization body h e :
  check_request sha256 zod_uuid authorization body = Ok (h, e) ->
  bearerHash sha256 authorization = Some h /\ body = Some e /\ TelemetryEnvelope_ok zod_uuid e = true.
Proof. unfold check_request. destruct (bearerHash _ _), body as [b|]; try done. destruct (TelemetryEnvelope_ok _ b) eqn:E; naive_solver. Qed.

(** ** A history of the service and its surroundings *)
Inductive Operation :=
| Post (now : Z) (authorization : option string) (body : option TelemetryEnvelope) (fate : Fate)
| Provision (dev tenant_id token_hash : string) (channels : Channels) (next_s : Z)
| Rotate (dev token_hash : string)
| Revoke (dev : string) (at_ : Z)
| Configure (capabilities : list CapabilityRow)
| Retain (before : Z) (deferred : ReadingRow -> bool).

Definition revoked (at_ : Z) (v : DeviceRow) : DeviceRow :=
  mkDevice (dv_tenant_id v) (dv_token_hash v) (Some (default at_ (dv_revoked_at v))) (dv_channels v) (dv_next_s v) (dv_last_seen_at v)
    (dv_last_seq v) (dv_status v).

Definition rotated (token_hash : string) (v : DeviceRow) : DeviceRow :=
  mkDevice (dv_tenant_id v) token_hash (dv_revoked_at v) (dv_channels v) (dv_next_s v) (dv_last_seen_at v) (dv_last_seq v) (dv_status v).

(** What others do to the tables: a device provisioned under a new id, given
    another token, revoked, its capabilities changed, readings past retention
    dropped at last. *)
Definition step (o : Operation) (d : TelemetryDb) : option Reply * TelemetryDb :=
  match o with
  | Post now authorization body fate =>
      let '(reply, d) := ingest sha256 zod_uuid now authorization body fate d in (Some reply, d)
  | Provision dev tenant_id token_hash channels next_s =>
      (None, match d_devices d !! dev with
             | Some _ => d
             | None => with_devices (<[dev := mkDevice tenant_id token_hash None channels next_s None None None]> (d_devices d)) d
             end)
  | Rotate dev token_hash => (None, with_devices (alter (rotated token_hash) dev (d_devices d)) d)
  | Revoke dev at_ => (None, with_devices (alter (revoked at_) dev (d_devices d)) d)
  | Configure capabilities =>
      (None, mkTelemetry (d_devices d) capabilities (d_packets d) (d_readings d) (d_latest d) (d_usage d) (d_presence d)
               (d_raw_before d) (d_dirty d))
  | Retain before deferred =>
      let before := Z.max (d_raw_before d) before in
      (None, mkTelemetry (d_devices d) (d_capabilities d) (d_packets d)
               (List.filter (fun r => (before <=? rd_ts r) || deferred r) (d_readings d)) (d_latest d) (d_usage d) (d_presence d)
               before (d_dirty d))
  end.

Fixpoint history (ops : list Operation) (d : TelemetryDb) : list (option Reply) * TelemetryDb :=
  match ops with
  | [] => ([], d)
  | o :: ops => let '(r, d) := step o d in let '(rs, d) := history ops d in (r :: rs, d)
  end.

Definition no_telemetry : TelemetryDb := mkTelemetry ∅ [] ∅ [] ∅ ∅ ∅ 0 ∅.

(** A post leaves the log alone or appends its own packet. *)
Definition logged (o : Operation) (reply : option Reply) (e : Entry) : Prop :=
  exists authorization fate, o = Post (en_received e) authorization (Some (en_env e)) fate /\
    (reply = Some (Accepted (en_ack e)) \/ fate = AnswerLost).
Definition justified (log : list Entry) (o : Operation) (reply : option Reply) : Prop :=
  forall now authorization body fate a, o = Post now authorization body fate -> reply = Some (Accepted a) ->
    exists env e, body = Some env /\ e ∈ log /\ entry_key e = packet_key env /\
      fingerprint_of sha256 (en_env e) = fingerprint_of sha256 env /\ en_ack e = a.

Lemma justified_more log log' o reply : justified log o reply -> justified (log ++ log') o reply.
Proof.
  intros H now authorization body fate a Ho Hr. destruct (H _ _ _ _ _ Ho Hr) as (env & e & ? & He & ?). exists env, e.
  rewrite elem_of_app. auto.
Qed.

Lemma post_spec now authorization body fate d log :
  Represents d log ->
  let '(reply, d') := ingest sha256 zod_uuid now authorization body fate d in
  exists new, Represents d' (log ++ new) /\ (forall e, e ∈ new -> logged (Post now authorization body fate) (Some reply) e) /\
    justified (log ++ new) (Post now authorization body fate) (Some reply).
Proof.
  intros H.
  assert (Hno : forall r : Reply, (forall a, r <> Accepted a) -> exists new, Represents d (log ++ new) /\
    (forall e, e ∈ new -> logged (Post now authorization body fate) (Some r) e) /\ justified (log ++ new) (Post now authorization body fate) (Some r)).
  { intros r Hr. exists []. rewrite app_nil_r. split_and!; [done|by intros e ?%elem_of_nil|]. intros ? ? ? ? a _ [= E]. by destruct (Hr a). }
  assert (Href : forall f a, refuse f <> Accepted a) by (by intros []).
  unfold ingest. destruct fate; [by apply Hno| |destruct (check_request _ _ _ _) as [[h e]|f]; apply Hno; apply Href|].
  all: destruct (check_request _ _ _ _) as [[h e]|f] eqn:Ec; [|apply Hno; apply Href].
  all: apply check_request_ok in Ec as (_ & -> & Henv).
  all: destruct (transaction _ _ _ _ _) as [[a d']|f] eqn:Et; [|apply Hno; apply Href].
  all: destruct (transaction_cases _ _ _ _ _ _ Et) as [(p & Hp & Ef & Ea & ->)|(Hk & Hack & Hdev & Hst)].
  all: try (apply (represents_store d log (mkEntry now e a (capabilities_of d (device_key e)))) in Hst; [|done..]).
  - exists []. rewrite app_nil_r. split_and!; [done|by intros x ?%elem_of_nil|]. intros ? ? ? ? b [= <- <- <- <-] [= <-].
    apply (rp_packets _ _ H) in Hp as (x & Hx & Ex & ->). exists e, x. auto.
  - exists [mkEntry now e a (capabilities_of d (device_key e))]. split_and!; [done| |].
    + intros x ->%list_elem_of_singleton. exists authorization, Serves. simpl. auto.
    + intros ? ? ? ? b [= <- <- <- <-] [= <-]. eexists e, _. split; [done|]. split; [apply elem_of_app; right; by left|]. done.
  - apply Hno. apply Href.
  - exists [mkEntry now e a (capabilities_of d (device_key e))]. split_and!; [done| |].
    + intros x ->%list_elem_of_singleton. exists authorization, AnswerLost. simpl. auto.
    + intros ? ? ? ? b _ [= E]. 
Qed.

(** ** The surroundings keep the log *)
Lemma represents_devices d log m :
  Represents d log -> (forall dev v, m !! dev = Some v -> device_follows log dev v) ->
  (forall dev, is_Some (d_devices d !! dev) -> is_Some (m !! dev)) -> Represents (with_devices m d) log.
Proof. intros [] Hm Hs. split; simpl; auto. Qed.

Lemma provision_represents dev t h c n d log : Represents d log -> Represents (step (Provision dev t h c n) d).2 log.
Proof.
  intros H. simpl. destruct (d_devices d !! dev) as [v|] eqn:E; [done|]. apply represents_devices; [done| |].
  - intros x v. destruct (decide (dev = x)) as [<-|N]; [|rewrite lookup_insert_ne by done; apply (rp_devices _ _ H)].
    rewrite lookup_insert_eq. intros [= <-]. assert (Hnone : forall e, e ∈ log -> of_device dev e = false).
    { intros e He. apply String.eqb_neq. intros Ed. destruct (rp_known _ _ H e He) as [w Hw]. rewrite Ed in Hw. congruence. }
    split_and!; simpl; [symmetry; apply greatest_of_None..|done]; intros e He; unfold seq_of, seen_of; by rewrite Hnone.
  - intros x. destruct (decide (dev = x)) as [<-|N]; [by rewrite lookup_insert_eq|by rewrite lookup_insert_ne].
Qed.

Lemma alter_represents f dev d log :
  (forall v, device_follows log dev v -> device_follows log dev (f v)) ->
  Represents d log -> Represents (with_devices (alter f dev (d_devices d)) d) log.
Proof.
  intros Hf H. apply represents_devices; [done| |].
  - intros x v. destruct (decide (dev = x)) as [<-|N]; [|rewrite lookup_alter_ne by done; apply (rp_devices _ _ H)].
    rewrite lookup_alter_eq. destruct (d_devices d !! dev) as [w|] eqn:E; intros [= <-]. apply Hf, (rp_devices _ _ H _ _ E).
  - intros x. by rewrite lookup_alter_is_Some.
Qed.

Lemma retain_represents before deferred d log : Represents d log -> Represents (step (Retain before deferred) d).2 log.
Proof.
  intros H. destruct H. split; simpl; try done.
  - etrans; [|done]. clear. induction (d_readings d) as [|r l IH]; simpl; [done|]. case_match; by constructor.
  - intros r Hr Ht. apply elem_of_listfilter. split; [apply rp_kept0; [done|lia]|]. apply orb_true_iff. left. apply Z.leb_le. lia.
Qed.

(** Every step appends what it logged. *)
Lemma step_spec o d log :
  Represents d log ->
  exists new, Represents (step o d).2 (log ++ new) /\ (forall e, e ∈ new -> logged o (step o d).1 e) /\ justified (log ++ new) o (step o d).1.
Proof.
  intros H. destruct o as [now authorization body fate| | | | |].
  1:{ pose proof (post_spec now authorization body fate d log H) as Hp. simpl. by destruct (ingest _ _ _ _ _ _ _) as [reply d']. }
  all: exists []; rewrite app_nil_r; split_and!; [|by intros e ?%elem_of_nil|done].
  - by apply provision_represents.
  - by apply alter_represents.
  - by apply alter_represents.
  - by destruct H.
  - by apply retain_represents.
Qed.

Lemma history_spec ops d log :
  Represents d log ->
  exists new, Represents (history ops d).2 (log ++ new) /\
    (forall e, e ∈ new -> exists o reply, (o, reply) ∈ zip ops (history ops d).1 /\ logged o reply e) /\
    (forall o reply, (o, reply) ∈ zip ops (history ops d).1 -> justified (log ++ new) o reply).
Proof.
  revert d log. induction ops as [|o ops IH]; intros d log H; simpl.
  { exists []. rewrite app_nil_r. split_and!; [done|by intros e ?%elem_of_nil|by intros o reply ?%elem_of_nil]. }
  destruct (step_spec o d log H) as (new & H1 & Hl & Hj). destruct (step o d) as [reply d1]. simpl in *.
  destruct (IH d1 (log ++ new) H1) as (more & H2 & Hl2 & Hj2). destruct (history ops d1) as [replies d2]. simpl in *.
  exists (new ++ more). rewrite app_assoc. split_and!; [done| |].
  - intros e [He|He]%elem_of_app.
    + exists o, reply. split; [by left|by apply Hl].
    + destruct (Hl2 e He) as (o' & r' & Hin & ?). exists o', r'. split; [by right|done].
  - intros o' r' [[= -> ->]|Hin]%elem_of_cons; [by apply justified_more|by apply Hj2].
Qed.

Lemma no_telemetry_represents : Represents no_telemetry [].
Proof.
  split; simpl; try done; try (by intros e ?%elem_of_nil).
  - constructor.
  - intros k p. rewrite lookup_empty. split; [done|]. by intros (e & ?%elem_of_nil & _).
  - intros k. rewrite lookup_empty. by intros x [?%elem_of_nil _].
Qed.

(** C27: ingestion is exactly-once. However packets, retries, lost answers and
    broken connections interleave with provisioning, revocation, configuration
    and retention, the tables are the views of one log of packets in which no
    device and sequence appear twice: packets and their receipts, the readings
    retention keeps, the latest row of each channel, monthly usage, when each
    capability last showed, and each device's last sequence, status and sight.
    Every packet of the log was posted, and accepted unless the commit's answer
    was lost; every acceptance is of a packet in the log, with its receipt. *)
Theorem telemetry_is_log ops :
  exists log,
    Represents (history ops no_telemetry).2 log /\
    (forall e, e ∈ log -> exists o reply, (o, reply) ∈ zip ops (history ops no_telemetry).1 /\ logged o reply e) /\
    (forall o reply, (o, reply) ∈ zip ops (history ops no_telemetry).1 -> justified log o reply).
Proof. exact (history_spec ops no_telemetry [] no_telemetry_represents). Qed.

(** ** Retries *)
Lemma ingest_keeps_packets now authorization body fate d k p :
  d_packets d !! k = Some p -> d_packets (ingest sha256 zod_uuid now authorization body fate d).2 !! k = Some p.
Proof.
  intros H.
  assert (G : forall h e a d', transaction sha256 now h e d = Ok (a, d') -> d_packets d' !! k = Some p).
  { intros h e a d' [(q & _ & _ & _ & ->)|(Hk & _ & _ & Hs)]%transaction_cases; [done|].
    apply store_writes in Hs as (_ & _ & _ & _ & ->). simpl. rewrite lookup_insert_ne; [done|congruence]. }
  unfold ingest. destruct fate; [done|..]; destruct (check_request _ _ _ _) as [[h e]|f]; try done;
    destruct (transaction _ _ _ _ _) as [[a d']|f] eqn:E; try done; simpl; eauto.
Qed.

Lemma history_keeps_packets ops d k p : d_packets d !! k = Some p -> d_packets (history ops d).2 !! k = Some p.
Proof.
  revert d. induction ops as [|o ops IH]; intros d H; simpl; [done|].
  assert (H1 : d_packets (step o d).2 !! k = Some p).
  { destruct o; simpl; try done; [|by case_match]. pose proof (ingest_keeps_packets now authorization body fate d k p H) as Hi.
    by destruct (ingest _ _ _ _ _ _ _). }
  destruct (step o d) as [r d1]. specialize (IH d1 H1). by destruct (history ops d1).
Qed.

Lemma history_app ops ops' d : (history (ops ++ ops') d).2 = (history ops' (history ops d).2).2.
Proof.
  revert d. induction ops as [|o ops IH]; intros d; simpl; [done|]. destruct (step o d) as [r d1]. specialize (IH d1).
  by destruct (history (ops ++ ops') d1), (history ops d1).
Qed.

Lemma accepted_stored now authorization e fate d a :
  (ingest sha256 zod_uuid now authorization (Some e) fate d).1 = Accepted a ->
  d_packets (ingest sha256 zod_uuid now authorization (Some e) fate d).2 !! packet_key e = Some (mkPacket (fingerprint_of sha256 e) a).
Proof.
  assert (Href : forall f b, refuse f <> Accepted b) by (by intros []).
  unfold ingest. destruct fate; [done|..]; destruct (check_request _ _ _ _) as [[h x]|f] eqn:Ec; intros E; try (by destruct (Href _ _ E)).
  all: apply check_request_ok in Ec as (_ & [= <-] & _).
  all: destruct (transaction _ _ _ _ _) as [[b d']|f] eqn:Et; try (by destruct (Href _ _ E)); try done. injection E as ->.
  apply transaction_cases in Et as [(p & Hp & <- & <- & ->)|(_ & _ & _ & Hs)]; simpl; [by destruct p|].
  apply store_writes in Hs as (_ & _ & _ & _ & ->). simpl. by rewrite lookup_insert_eq.
Qed.

(** C28: whatever happened since a packet was accepted, and however late, sending
    it again is answered with the same receipt and changes nothing; another
    packet under its sequence is a conflict and changes nothing either. The
    device only has to be live and permitted still. *)
Theorem retry_answered_alike ops now authorization fate e a ops' now' authorization' hash e' :
  let d := (history (ops ++ Post now authorization (Some e) fate :: ops') no_telemetry).2 in
  (ingest sha256 zod_uuid now authorization (Some e) fate (history ops no_telemetry).2).1 = Accepted a ->
  check_request sha256 zod_uuid authorization' (Some e') = Ok (hash, e') ->
  packet_key e' = packet_key e ->
  is_Some (live_device d (device_key e') hash) ->
  check_capabilities (capabilities_of d (device_key e')) e' = Ok tt ->
  ingest sha256 zod_uuid now' authorization' (Some e') Serves d =
    (if fingerprint_of sha256 e' ==s fingerprint_of sha256 e then Accepted a else Refused 409 "sequence_conflict", d).
Proof.
  intros d Ha Hc Hk [v Hv] Hcap. unfold ingest. rewrite Hc. unfold transaction. rewrite Hv, Hcap. cbn [rbind].
  assert (Hp : d_packets d !! packet_key e' = Some (mkPacket (fingerprint_of sha256 e) a)).
  { unfold d. rewrite history_app, Hk. simpl. pose proof (accepted_stored _ _ _ _ _ _ Ha) as Hs.
    destruct (ingest _ _ _ _ _ _ _) as [r d1]. apply (history_keeps_packets ops') in Hs. simpl in Hs.
    by destruct (history ops' d1). }
  assert (Hok : TelemetryAck_ok a = true).
  { destruct (history_spec (ops ++ Post now authorization (Some e) fate :: ops') no_telemetry [] no_telemetry_represents) as (log & Hr & _).
    destruct (proj1 (rp_packets _ _ Hr _ _) Hp) as (x & Hx & _ & [= _ Ea]). rewrite Ea. by destruct (rp_ok _ _ Hr x Hx). }
  rewrite Hp. simpl. rewrite (String.eqb_sym (fingerprint_of sha256 e)). destruct (_ ==s _); simpl; [|done]. by rewrite Hok.
Qed.

(** ** Which packets are accepted *)

(** Every reading within a channel of a capability that may send it. *)
Definition permitted (capabilities : list CapabilityRow) (e : TelemetryEnvelope) : Prop :=
  capabilities = [] \/
  forall r, r ∈ te_r e -> exists c, c ∈ capabilities /\ measures c = true /\ er_c r ∈ keys_of (cp_channels c).
(** No later than five minutes from now and no earlier than ninety days ago; no
    reading later than its packet, each within its channel's range. *)
Definition timely (now t : Z) : Prop := now / 1000 - 7776000 <= t <= now / 1000 + 300.
Definition in_channel (channels : Channels) (now : Z) (e : TelemetryEnvelope) (r : EnvelopeReading) : Prop :=
  (exists c, map_get (er_c r) channels = Some (Some c) /\ nlt (er_v r) (tc_min c) = false /\ nlt (tc_max c) (er_v r) = false) /\
  timely now (reading_time e r) /\ reading_time e r <= te_ts e.
Definition acceptable (now : Z) (d : TelemetryDb) (v : DeviceRow) (e : TelemetryEnvelope) : Prop :=
  permitted (capabilities_of d (device_key e)) e /\ timely now (te_ts e) /\
  (forall r, r ∈ te_r e -> in_channel (dv_channels v) now e r) /\
  (forall r, r ∈ normalized e -> d_raw_before d <= rd_ts r).

(** What provisioning writes. *)
Definition configured (d : TelemetryDb) (v : DeviceRow) (e : TelemetryEnvelope) : Prop :=
  TelemetryChannels_ok (dv_channels v) = true /\ 1 <= dv_next_s v <= 86400 /\
  forall c, c ∈ capabilities_of d (device_key e) -> measures c = true -> column_ok (cp_channels c) = true.

Lemma between_true lo hi x : between lo hi x = true <-> lo <= x <= hi.
Proof. unfold between. rewrite andb_true_iff, !Z.leb_le. done. Qed.
Lemma validTime_true now t : validTime (now / 1000) t = true <-> timely now t.
Proof. unfold validTime, timely. rewrite andb_true_iff, !Z.leb_le. lia. Qed.

Definition client_error (f : Failure) : Prop :=
  match f with IngestError status _ => 400 <= status < 500 | RetentionBound => True | Unexpected => False end.

Lemma check_capabilities_spec caps e :
  (forall c, c ∈ caps -> measures c = true -> column_ok (cp_channels c) = true) ->
  (check_capabilities caps e = Ok tt /\ permitted caps e) \/ (exists f, check_capabilities caps e = Err f /\ client_error f /\ ~ permitted caps e).
Proof.
  intros Hc. unfold check_capabilities, permitted. destruct caps as [|c0 caps]; [left; auto|].
  assert (Hne : c0 :: caps <> []) by done. generalize dependent (c0 :: caps). intros l Hc Hne. rewrite (proj2 (forallb_elem _ _)); simpl.
  2:{ intros c [Hin Hm]%elem_of_listfilter. by apply Hc. }
  destruct (existsb _ _) eqn:E; [right|left; split; [done|right]].
  - eexists. split; [done|]. split; [simpl; lia|]. apply existsb_elem in E as (r & Hr & Hn). apply negb_true_iff, inb_false in Hn.
    intros [?|H]; [done|]. apply Hn, elem_of_flat_map. destruct (H r Hr) as (c & Hin & Hm & Hk).
    exists c. by rewrite elem_of_listfilter.
  - intros r Hr. rewrite existsb_elem_false in E. specialize (E r Hr). apply negb_false_iff, inb_true, elem_of_flat_map in E as (c & Hin & Hk).
    apply elem_of_listfilter in Hin. naive_solver.
Qed.

Lemma check_reading_spec channels now e r :
  (check_reading channels (now / 1000) e r = Ok tt /\ in_channel channels now e r) \/
  (exists f, check_reading channels (now / 1000) e r = Err f /\ client_error f /\ ~ in_channel channels now e r).
Proof.
  unfold check_reading, in_channel.
  destruct (map_get (er_c r) channels) as [[c|]|]; [|right; eexists; split_and!; [done|simpl; lia|naive_solver]..].
  destruct (nlt (er_v r) (tc_min c) || nlt (tc_max c) (er_v r)) eqn:Ev.
  { right. eexists. split_and!; [done|simpl; lia|]. intros ((c' & [= <-] & H1 & H2) & _). by rewrite H1, H2 in Ev. }
  apply orb_false_iff in Ev. destruct (validTime _ _) eqn:Et; simpl.
  - apply validTime_true in Et. destruct (Z.ltb_spec (te_ts e) (reading_time e r)).
    + right. eexists. split_and!; [done|simpl; lia|]. intros (_ & _ & ?). lia.
    + left. naive_solver.
  - right. eexists. split_and!; [done|simpl; lia|]. intros (_ & Ht%validTime_true & _). congruence.
Qed.

Lemma check_readings_spec channels now e l :
  (check_readings channels (now / 1000) e l = Ok tt /\ forall r, r ∈ l -> in_channel channels now e r) \/
  (exists f, check_readings channels (now / 1000) e l = Err f /\ client_error f /\ ~ forall r, r ∈ l -> in_channel channels now e r).
Proof.
  induction l as [|r l IH]; simpl; [left; split; [done|]; by intros r ?%elem_of_nil|]. setoid_rewrite elem_of_cons.
  destruct (check_reading_spec channels now e r) as [[-> Hr]|(f & -> & Hf & Hr)]; simpl; [|right; exists f; naive_solver].
  destruct IH as [[-> Hl]|(f & -> & Hf & Hl)]; [left; naive_solver|right; exists f; naive_solver].
Qed.

Lemma insert_readings_retained rows d :
  (forall r r', r ∈ rows -> r' ∈ d_readings d -> same_reading r r' = false) ->
  existsb (fun r => rd_ts r <? d_raw_before d) rows = true -> insert_readings rows d = Err RetentionBound.
Proof.
  intros Hnew Et. unfold insert_readings. destruct (existsb (fun r => existsb (same_reading r) (d_readings d)) rows) eqn:Ee; [|by rewrite Et].
  apply existsb_elem in Ee as (r & Hr & (r' & Hr' & E)%existsb_elem). by rewrite Hnew in E.
Qed.

(** A fresh packet's rows are new, so only retention and NULs can stop them. *)
Lemma store_fresh d log received e caps a :
  Represents d log -> d_packets d !! packet_key e = None -> (forall h, h ∈ ds_health (te_st e) -> jsonb_text h = true) ->
  ((exists d', store sha256 received e caps a d = Ok d') /\ (forall r, r ∈ normalized e -> d_raw_before d <= rd_ts r)) \/
  (store sha256 received e caps a d = Err RetentionBound /\ ~ forall r, r ∈ normalized e -> d_raw_before d <= rd_ts r).
Proof.
  intros H Hk Hh.
  assert (Hnew : forall r r', r ∈ normalized e -> r' ∈ d_readings d -> same_reading r r' = false).
  { intros r r' (i & x & -> & _)%elem_of_lookup_imap Hr'. apply not_true_iff_false. unfold same_reading. simpl. intros E. bools.
    apply (fun Hx => elem_of_sublist _ _ _ Hx (rp_readings _ _ H)), elem_of_flat_map in Hr' as (y & Hy & Hr'%elem_of_entry_rows).
    apply (fresh_key d log _ H Hk). apply list_elem_of_fmap. exists y. split; [|done].
    rewrite <- Hr'. unfold packet_key. f_equal; [by apply String.eqb_eq|by apply Z.eqb_eq]. }
  destruct (existsb (fun r => rd_ts r <? d_raw_before d) (normalized e)) eqn:Et.
  - right. split.
    + unfold store, insert_packet. rewrite Hk. cbn [rbind]. by rewrite insert_readings_retained.
    + intros Hr. apply existsb_elem in Et as (r & Hin & Ht%Z.ltb_lt). specialize (Hr r Hin). lia.
  - left. assert (Hr : forall r, r ∈ normalized e -> d_raw_before d <= rd_ts r).
    { intros r Hin. rewrite existsb_elem_false in Et. by apply Z.ltb_ge, Et. }
    split; [|done]. eexists. by apply store_writes.
Qed.

(** C29: which fresh packets are accepted. A packet of a live, configured device
    under a new sequence is accepted exactly when a capability may send each of
    its readings, they are within their channels and the time windows, and none
    predates retention; it is acknowledged with their number and stored. Any
    other packet is the client's error and nothing is written. *)
Theorem fresh_packet_decided ops now authorization hash e v :
  let d := (history ops no_telemetry).2 in
  let r := ingest sha256 zod_uuid now authorization (Some e) Serves d in
  check_request sha256 zod_uuid authorization (Some e) = Ok (hash, e) ->
  live_device d (device_key e) hash = Some v -> configured d v e ->
  d_packets d !! packet_key e = None ->
  (forall h, h ∈ ds_health (te_st e) -> jsonb_text h = true) ->
  (acceptable now d v e /\ r.1 = Accepted (mkAck (Z.of_nat (length (te_r e))) (dv_next_s v)) /\ d_packets r.2 !! packet_key e <> None) \/
  (~ acceptable now d v e /\ exists f, client_error f /\ r = (refuse f, d)).
Proof.
  intros d r Hc Hv (Hch & Hnext & Hcol) Hk Hh. subst r. unfold ingest. rewrite Hc. unfold transaction. rewrite Hv.
  assert (Hlen : between 1 500 (Z.of_nat (length (te_r e))) = true).
  { apply check_request_ok in Hc as (_ & _ & Ho). unfold TelemetryEnvelope_ok in Ho. by bools. }
  unfold acceptable. destruct (check_capabilities_spec _ e Hcol) as [[-> Hp]|(f & -> & Hf & Hp)]; simpl; [|right; naive_solver].
  rewrite Hk, Hch. simpl. destruct (validTime (now / 1000) (te_ts e)) eqn:Et; simpl.
  2:{ right. split; [|by exists (IngestError 422 "timestamp_out_of_range")]. intros (_ & Ht%validTime_true & _). congruence. }
  apply validTime_true in Et.
  destruct (check_readings_spec (dv_channels v) now e (te_r e)) as [[-> Hr]|(f & -> & Hf & Hr)]; simpl; [|right; naive_solver].
  unfold TelemetryAck_ok. simpl. rewrite Hlen, (proj2 (between_true 1 86400 _) Hnext). simpl.
  destruct (history_spec ops no_telemetry [] no_telemetry_represents) as (log & Hrep & _).
  destruct (store_fresh _ _ now e (capabilities_of d (device_key e)) (mkAck (Z.of_nat (length (te_r e))) (dv_next_s v)) Hrep Hk Hh)
    as [[[d' Hd'] Hold]|[Hd' Hold]]; fold d in Hd'; rewrite Hd'; simpl.
  - left. split; [done|]. split; [done|]. apply store_writes in Hd' as (_ & _ & _ & _ & ->). simpl. by rewrite lookup_insert_eq.
  - right. split; [naive_solver|]. by exists RetentionBound.
Qed.
End Log.
