(* ===== verification/Candidate.v ===== *)
(** * What the firmware compiler supports ([apps/codegen/src/candidate.ts],
    [camera-candidate.ts], [accepted-candidate.ts], [plan.ts])

    The reviewed boards and sensors, the choice of a candidate for an accepted
    plan, the one edit of its source, and the manifest of a build. Functions
    that throw return [None]. SHA-256 is a parameter. *)
From S2P Require Import Prelude JsString Regex JsNumber Part Assembly MatcherTypes Json Spec Plans Telemetry.
#[local] Open Scope string_scope.
#[local] Open Scope list_scope.
#[local] Open Scope nat_scope.
#[local] Open Scope forge_scope.

(** ** The reviewed tables *)
Definition COMPILER_IMAGE : string := "espressif/idf@sha256:8ccd4d2ce413889c6c2bba57e986c670302094efb91c913c6091152e317a7805".
Definition RUNTIME : string := "0.1.0".

Definition ChannelTable : Type := list (string * TelemetryChannel).
Definition range (unit_ : string) (lo hi : Z) : TelemetryChannel := mkChannel unit_ (of_Z lo) (of_Z hi).

Inductive SensorKey := bh1750 | bme280 | seesaw_soil.
#[export] Instance SensorKey_eq_dec : EqDecision SensorKey.
Proof. solve_decision. Defined.
Record Sensor := mkSensor { sn_macro : string; sn_driver_pkg : string; sn_i2c_address : string; sn_channels : ChannelTable }.
Definition SENSORS (k : SensorKey) : Sensor :=
  match k with
  | bh1750 => mkSensor "HSX_SENSOR_BH1750" "hsx-driver-bh1750" "0x23" [("illuminance", range "lux" 0 65535)]
  | bme280 => mkSensor "HSX_SENSOR_BME280" "hsx-driver-bme280" "0x77"
      [("temperature", range "degC" (-40) 85); ("humidity", range "%RH" 0 100); ("pressure", range "hPa" 300 1100)]
  | seesaw_soil => mkSensor "HSX_SENSOR_SEESAW_SOIL" "hsx-driver-seesaw-soil" "0x36" [("soil_moisture", range "raw" 0 4095)]
  end.
Definition sensor_keys : list SensorKey := [bh1750; bme280; seesaw_soil].

Record PeripheralOption := mkOption {
  po_part : PartPin;
  po_sensor : SensorKey;
  po_driver_ver : string;
  po_connectors : list string
}.
#[export] Instance PeripheralOption_eq_dec : EqDecision PeripheralOption.
Proof. solve_decision. Defined.

Record NumericCandidate := mkCandidate {
  nc_id : string;
  nc_profile_version : string;
  nc_runtime : string;
  nc_brain : PartPin;
  nc_source : PartPin;
  nc_sda : Z;
  nc_scl : Z;
  nc_resources : list string;
  nc_peripherals : list PeripheralOption
}.
Definition DEVKITC_CANDIDATE : NumericCandidate :=
  mkCandidate "esp32s3-bh1750-usb-v1" "1.0.0" RUNTIME (mkPartPin "C-001" "1.0.0") (mkPartPin "E-005" "1.0.0") 8 9
    ["GPIO8"; "GPIO9"] [mkOption (mkPartPin "V-005" "1.0.0") bh1750 "0.1.0" ["hsx-i2c-4pin-v1"]].
Definition FREENOVE_CANDIDATE : NumericCandidate :=
  mkCandidate "freenove-esp32s3-n16r8-i2c-usb-v1" "1.0.0" RUNTIME (mkPartPin "C-002" "1.0.0") (mkPartPin "E-005" "1.1.0") 47 21
    ["GPIO47"; "GPIO21"]
    [mkOption (mkPartPin "V-005" "1.1.0") bh1750 "0.1.0" ["hsx-i2c-4pin-v1"];
     mkOption (mkPartPin "P-001" "1.1.0") bme280 "0.1.0" ["hsx-i2c-4pin-v1"];
     mkOption (mkPartPin "P-006" "1.0.0") seesaw_soil "0.1.0" ["stemma-i2c-ph-4pin-v1"; "hsx-i2c-4pin-v1"]].
Definition NUMERIC_CANDIDATES : list NumericCandidate := [DEVKITC_CANDIDATE; FREENOVE_CANDIDATE].

(** ** [selectNumericCandidate] *)
Record NumericSelection := mkSelection {
  ns_candidate : NumericCandidate;
  ns_sensors : list SensorKey;
  ns_channels : ChannelTable;
  ns_interval_s : num
}.

Definition pins (values : list PartPin) : string := join "|" (sort_text (pinKey <$> values)).
Definition expected_parts (candidate : NumericCandidate) (peripherals : list PeripheralOption) : list PartPin :=
  nc_brain candidate :: nc_source candidate :: (po_part <$> peripherals).
Definition expectedPins (candidate : NumericCandidate) (peripherals : list PeripheralOption) : string :=
  pins (expected_parts candidate peripherals).

(** The option of each wired peripheral; an option is chosen once. *)
Definition for_part (p : PartPin) (o : PeripheralOption) : bool :=
  (pp_id (po_part o) ==s pp_id p) && (pp_version (po_part o) ==s pp_version p).
Fixpoint choose (candidate : NumericCandidate) (wired : list WiringEdge) (chosen : list PeripheralOption) : option (list PeripheralOption) :=
  match wired with
  | [] => Some chosen
  | edge :: wired =>
      match List.find (for_part (edge_part edge)) (nc_peripherals candidate) with
      | Some option =>
          if bool_decide (option ∈ chosen) || negb (inb (edge_connector edge) (po_connectors option)) then None
          else choose candidate wired (chosen ++ [option])
      | None => None
      end
  end.

Definition same_pin (a b : PartPin) : bool := (pp_id a ==s pp_id b) && (pp_version a ==s pp_version b).
Definition same_profile (a b : string * string) : bool := (a.1 ==s b.1) && (a.2 ==s b.2).

(** A wired edge is on the candidate's bus, through a port of the profile. *)
Definition port_for (resources : string) (edge : WiringEdge) (port : Port) : bool :=
  (port_id port ==s edge_port edge) && bool_decide (port_interface port = i2c) && bool_decide (port_rail port = rail_brain) &&
  (join "," (port_resources port) ==s resources) && (port_connector port ==s edge_connector edge).
Definition edge_wired (resources : string) (ports : list Port) (edge : WiringEdge) : bool :=
  bool_decide (edge_rail edge = rail_brain) && (join "," (edge_resources edge) ==s resources) && existsb (port_for resources edge) ports.

(** The part of an option has the driver the compiler knows, passed on this brain. *)
Definition driver_row (candidate : NumericCandidate) (option : PeripheralOption) (c : CompatEntry) : bool :=
  (ce_brain_id c ==s pp_id (nc_brain candidate)) && (ce_driver_pkg c ==s sn_driver_pkg (SENSORS (po_sensor option))) &&
  (ce_driver_ver c ==s po_driver_ver option) && (ce_runtime_ver c ==s nc_runtime candidate) && bool_decide (ce_status c = passed).
Definition driver_passed (candidate : NumericCandidate) (evidence : BuildPlanEvidence) (option : PeripheralOption) : bool :=
  match List.find (fun p => same_pin (pin p) (po_part option)) (ev_parts evidence) with
  | Some part =>
      bool_decide (driver_pkg (software part) = Some (sn_driver_pkg (SENSORS (po_sensor option)))) &&
      bool_decide (driver_version (software part) = Some (po_driver_ver option)) &&
      existsb (driver_row candidate option) (ev_compat evidence)
  | None => false
  end.

Definition interval_ok (x : num) : bool := is_integer x && negb (nlt x (of_Z 10)) && negb (nlt (of_Z 86400) x).
Definition supported (candidate : NumericCandidate) (chosen : list PeripheralOption) (plan : BuildPlan)
    (metadata : BuildPlanMetadata) (spec : Spec) : bool :=
  let evidence := bm_evidence metadata in
  let profile := ev_profile evidence in
  let wiring := wiring_graph plan in
  let resources := join "," (nc_resources candidate) in
  let expected := expectedPins candidate chosen in
  (plan_runtime plan ==s nc_runtime candidate) && (bm_runtime metadata ==s plan_runtime plan) &&
  ((plan_profile plan).2 ==s nc_profile_version candidate) && same_profile (bm_profile metadata) (plan_profile plan) &&
  same_profile (prof_id profile, prof_version profile) (plan_profile plan) &&
  (pins (part_versions plan) ==s expected) && (pins (pin <$> ev_parts evidence) ==s expected) &&
  forallb (fun p => bool_decide (status p = active)) (ev_parts evidence) &&
  same_pin (wg_brain wiring) (nc_brain candidate) && same_pin (wg_source wiring) (nc_source candidate) &&
  same_pin (prof_brain profile) (nc_brain candidate) && same_pin (prof_source profile) (nc_source candidate) &&
  negb (Nat.eqb (length chosen) 0) &&
  forallb (edge_wired resources (prof_ports profile)) (wg_peripherals wiring) &&
  forallb (driver_passed candidate evidence) chosen &&
  bool_decide (conn_transport (spec_connect spec) = wifi) && bool_decide (power_source (spec_power spec) = src_usb) &&
  from_option interval_ok false (sense_interval_s (spec_sense spec)).

(** An object's entry set a second time is refused. *)
Definition has_key {A} (k : string) (l : list (string * A)) : bool := existsb (fun kv => kv.1 ==s k) l.
Fixpoint add_channels (acc entries : ChannelTable) : option ChannelTable :=
  match entries with
  | [] => Some acc
  | (k, r) :: entries => if has_key k acc then None else add_channels (acc ++ [(k, r)]) entries
  end.

Section Select.
Context (sha256 : string -> string) (https_url : string -> bool).

Definition selectNumericCandidate (plan : BuildPlan) (metadata : BuildPlanMetadata) (spec : Spec) : option NumericSelection :=
  if negb (BuildPlan_ok plan && BuildPlanMetadata_ok https_url metadata) then None
  else
    match List.find (fun c => nc_id c ==s (plan_profile plan).1) NUMERIC_CANDIDATES with
    | None => None
    | Some candidate =>
        match choose candidate (wg_peripherals (wiring_graph plan)) [], sense_interval_s (spec_sense spec) with
        | Some chosen, Some interval =>
            if negb (supported candidate chosen plan metadata spec) then None
            else
              let sensors := po_sensor <$> chosen in
              match add_channels [] (sensors ≫= fun k => sn_channels (SENSORS k)) with
              | Some channels => Some (mkSelection candidate sensors channels interval)
              | None => None
              end
        | _, _ => None
        end
    end.
Definition candidateInterval (plan : BuildPlan) (metadata : BuildPlanMetadata) (spec : Spec) : option num :=
  ns_interval_s <$> selectNumericCandidate plan metadata spec.

(** ** Generated sources *)
Definition newline : string := String (ascii_of_nat 10) EmptyString.
Definition CANDIDATE_ID : re := Cat (Chr is_lower_digit) (rupto 119 (Chr (fun c => is_lower_digit c || one_of "-" c))).
Definition defines (sensors : list SensorKey) (k : SensorKey) : string :=
  "#define " ++ sn_macro (SENSORS k) ++ " " ++ (if existsb (fun s => sn_macro (SENSORS s) ==s sn_macro (SENSORS k)) sensors then "1" else "0").
Definition numericProfileHeader (selection : NumericSelection) : option string :=
  let c := ns_candidate selection in
  match ns_channels selection with
  | (first, _) :: _ =>
      if test CHANNEL_NAME first && test CANDIDATE_ID (nc_id c) then
        Some ("#pragma once" ++ newline ++ "/* Generated from the accepted plan's compiler candidate. */" ++ newline ++
              "#define HSX_PROFILE_ID " ++ json_string (nc_id c) ++ newline ++
              "#define HSX_RUNTIME " ++ json_string (nc_runtime c) ++ newline ++
              "#define HSX_CHANNEL " ++ json_string first ++ newline ++
              "#define HSX_SDA " ++ show_num (of_Z (nc_sda c)) ++ newline ++
              "#define HSX_SCL " ++ show_num (of_Z (nc_scl c)) ++ newline ++
              join newline (defines (ns_sensors selection) <$> sensor_keys) ++ newline)%string
      else None
  | [] => None
  end.

Definition APP_HEAD : string :=
  "#include " ++ quote ++ "hsx-sdk.h" ++ quote ++ newline ++ "extern " ++ quote ++ "C" ++ quote ++ " void app_main(void) { hsx_run(".
Definition APP_TAIL : string := "); }" ++ newline.
Definition renderApp (interval : num) : option string :=
  if interval_ok interval then Some (APP_HEAD ++ show_num interval ++ APP_TAIL)%string else None.

(** [/i] letters. *)
Definition same_letter (a b : ascii) : bool :=
  Ascii.eqb a b || (in_range "a" "z" a && Nat.eqb (code b + 32) (code a)) || (in_range "A" "Z" a && Nat.eqb (code a + 32) (code b)).
Fixpoint lit_i (s : string) : re :=
  match s with EmptyString => Eps | String c s => Cat (Chr (same_letter c)) (lit_i s) end.
Definition INSTRUCTION_HEAD : re := rcat [lit_i "set "; ropt (ralt [lit_i "sample "; lit_i "upload "]); lit_i "interval to "].
Definition INSTRUCTION_TAIL : re := lit_i " seconds".
Definition INSTRUCTION : re := rcat [INSTRUCTION_HEAD; digit; rupto 4 digit; INSTRUCTION_TAIL].

(** The digits of a text that matches, which holds no others. *)
Fixpoint digits_of (s : string) : string :=
  match s with EmptyString => EmptyString | String c s => if is_digit c then String c (digits_of s) else digits_of s end.
Definition editInterval (instruction : string) : option num :=
  if test INSTRUCTION (trim instruction) then
    let value := of_Z (BigInt (digits_of (trim instruction))) in
    match renderApp value with Some _ => Some value | None => None end
  else None.

(** ** The camera ([camera-candidate.ts]) *)
Inductive CapabilityKind := ImageKind (max_bytes max_width max_height : Z) | MeasurementKind (channels : ChannelTable).
Record SensorCapability := mkSensorCapability {
  sc_id : string;
  sc_profile_id : string;
  sc_profile_version : Z;
  sc_enabled : bool;
  sc_required : bool;
  sc_interval_s : Z;
  sc_kind : CapabilityKind
}.
Definition CAMERA_CANDIDATE : string := "freenove-esp32s3-n16r8-gc0308-usb-v1".
Definition CAMERA_RUNTIME : string := "0.3.0".
Definition CAMERA_CHANNELS : ChannelTable :=
  [("ambient_light_lux", range "lux" 0 65535); ("air_temperature_c", range "C" (-40) 85);
   ("air_pressure_hpa", range "hPa" 300 1100); ("air_humidity_pct", range "%" 0 100)].
Definition CAMERA_CAPABILITIES : list SensorCapability :=
  [mkSensorCapability "camera" CAMERA_CANDIDATE 1 true true 900 (ImageKind 1048576 320 240);
   mkSensorCapability "environment" CAMERA_CANDIDATE 1 true true 900 (MeasurementKind CAMERA_CHANNELS)].
Definition CAMERA_APP : string :=
  "extern " ++ quote ++ "C" ++ quote ++ " void hsx_camera_run(void);" ++ newline ++
  "extern " ++ quote ++ "C" ++ quote ++ " void app_main(void) { hsx_camera_run(); }" ++ newline.
Definition renderCameraApp (interval : num) : option string := if neqb interval (of_Z 900) then Some CAMERA_APP else None.

(** ** The candidate of an accepted plan ([accepted-candidate.ts]) *)
Inductive CandidateKind := numeric | camera.
Record AcceptedCandidate := mkAccepted {
  ac_id : string;
  ac_kind : CandidateKind;
  ac_runtime : string;
  ac_interval_s : num;
  ac_template : string;
  ac_channels : ChannelTable;
  ac_capabilities : option (list SensorCapability);
  ac_numeric : option NumericSelection
}.
Record CameraPlanApproval := mkApproval {
  ap_candidate_id : string;
  ap_assembly_profile : string * string;
  ap_part_versions : list PartPin;
  ap_evidence_sha256 : string;
  ap_wiring_sha256 : string
}.
Definition Pin_ok (p : string * string) : bool := len_between 1 120 p.1 && len_between 1 40 p.2.
Definition CameraPlanApproval_ok (a : CameraPlanApproval) : bool :=
  (ap_candidate_id a ==s CAMERA_CANDIDATE) && Pin_ok (ap_assembly_profile a) && len_list 1 64 (ap_part_versions a) &&
  forallb (fun p => Pin_ok (pp_id p, pp_version p)) (ap_part_versions a) &&
  Digest (ap_evidence_sha256 a) && Digest (ap_wiring_sha256 a) && all_distinct (pinKey <$> ap_part_versions a).
(** [cameraApprovalsFromEnv], once the text is read. *)
Definition cameraApprovals (values : list CameraPlanApproval) : option (list CameraPlanApproval) :=
  if (length values <=? 32) && forallb CameraPlanApproval_ok values &&
     all_distinct ((fun a => (ap_assembly_profile a).1 ++ "@" ++ (ap_assembly_profile a).2)%string <$> values)
  then Some values else None.

Definition canonicalDigest (value : json) : string := sha256 (canonicalJson value).

Definition approves (plan : BuildPlan) (a : CameraPlanApproval) : bool :=
  same_profile (ap_assembly_profile a) (plan_profile plan) && (pins (ap_part_versions a) ==s pins (part_versions plan)).
Definition camera_driver (plan : BuildPlan) (evidence : BuildPlanEvidence) (p : PartDefinition) : bool :=
  match driver_pkg (software p) with
  | None => true
  | Some pkg =>
      existsb (fun c => bool_decide (ce_status c = passed) && (ce_brain_id c ==s pp_id (wg_brain (wiring_graph plan))) &&
        (ce_driver_pkg c ==s pkg) && bool_decide (Some (ce_driver_ver c) = driver_version (software p)) &&
        (ce_runtime_ver c ==s CAMERA_RUNTIME)) (ev_compat evidence)
  end.
Definition camera_supported (plan : BuildPlan) (metadata : BuildPlanMetadata) (spec : Spec) (approval : CameraPlanApproval) : bool :=
  let evidence := bm_evidence metadata in
  let profile := ev_profile evidence in
  let wiring := wiring_graph plan in
  (bm_runtime metadata ==s CAMERA_RUNTIME) && (plan_runtime plan ==s CAMERA_RUNTIME) &&
  same_profile (bm_profile metadata) (plan_profile plan) &&
  same_profile (prof_id profile, prof_version profile) (plan_profile plan) &&
  (pins (pin <$> ev_parts evidence) ==s pins (part_versions plan)) &&
  forallb (fun p => bool_decide (status p = active)) (ev_parts evidence) &&
  (canonicalDigest (evidence_json evidence) ==s ap_evidence_sha256 approval) &&
  (canonicalDigest (graph_json wiring) ==s ap_wiring_sha256 approval) &&
  (pins [prof_brain profile; prof_source profile] ==s pins [wg_brain wiring; wg_source wiring]) &&
  (pp_id (prof_brain profile) ==s pp_id (wg_brain wiring)) && (pp_id (prof_source profile) ==s pp_id (wg_source wiring)) &&
  forallb (camera_driver plan evidence) (ev_parts evidence) &&
  bool_decide (conn_transport (spec_connect spec) = wifi) && bool_decide (power_source (spec_power spec) = src_usb) &&
  from_option (fun i => neqb i (of_Z 900)) false (sense_interval_s (spec_sense spec)).

Definition resolveAcceptedCandidate (plan : BuildPlan) (metadata : BuildPlanMetadata) (spec : Spec)
    (approvals : list CameraPlanApproval) : option AcceptedCandidate :=
  if existsb (fun c => nc_id c ==s (plan_profile plan).1) NUMERIC_CANDIDATES then
    (fun n => mkAccepted (nc_id (ns_candidate n)) numeric (nc_runtime (ns_candidate n)) (ns_interval_s n) "esp32s3"
                (ns_channels n) None (Some n)) <$> selectNumericCandidate plan metadata spec
  else if negb (forallb CameraPlanApproval_ok approvals) then None
  else
    match List.filter (approves plan) approvals with
    | [approval] =>
        if camera_supported plan metadata spec approval
        then Some (mkAccepted CAMERA_CANDIDATE camera CAMERA_RUNTIME (of_Z 900) "esp32s3-camera" CAMERA_CHANNELS
                     (Some CAMERA_CAPABILITIES) None)
        else None
    | _ => None
    end.

Definition renderCandidate (candidate : AcceptedCandidate) (interval : num) : option string :=
  match ac_kind candidate with camera => renderCameraApp interval | numeric => renderApp interval end.
Definition editCandidate (candidate : AcceptedCandidate) (instruction : string) : option num :=
  match editInterval instruction with
  | Some interval => match renderCandidate candidate interval with Some _ => Some interval | None => None end
  | None => None
  end.

(** ** Manifests ([packages/schema/src/firmware.ts]) *)
Record FirmwareFile := mkFile { ff_path : string; ff_sha256 : string; ff_size : Z }.
Record FirmwareManifest := mkManifest {
  fm_build_id : string;
  fm_plan_version : nat;
  fm_code_version : nat;
  fm_profile_id : string;
  fm_runtime : string;
  fm_channels : ChannelTable;
  fm_capabilities : option (list SensorCapability);
  fm_files : list FirmwareFile
}.
Definition FIRMWARE_PATHS : list string := ["bootloader.bin"; "partition-table.bin"; "albusforge.bin"].
Definition FirmwareFile_ok (f : FirmwareFile) : bool :=
  inb (ff_path f) FIRMWARE_PATHS && Digest (ff_sha256 f) && between 1 (3 * 1024 * 1024) (ff_size f).

Definition channel_table_ok (l : ChannelTable) : bool :=
  forallb (fun kv => test CHANNEL_NAME kv.1 && TelemetryChannel_ok kv.2) l && (length l <=? 64).
Definition SensorCapabilityId (s : string) : bool :=
  test (Cat (Chr is_lower) (rupto 63 (Chr (fun c => is_lower_digit c || one_of "_.-" c)))) s.
Definition SensorCapability_ok (c : SensorCapability) : bool :=
  SensorCapabilityId (sc_id c) && len_between 1 128 (sc_profile_id c) && (1 <=? sc_profile_version c)%Z &&
  between 1 86400 (sc_interval_s c) &&
  match sc_kind c with
  | ImageKind b w h => between 1 1048576 b && between 1 4096 w && between 1 4096 h
  | MeasurementKind channels => channel_table_ok channels && (1 <=? length channels)
  end.
Definition capability_channels (c : SensorCapability) : list string :=
  match sc_kind c with MeasurementKind channels => channels.*1 | ImageKind _ _ _ => [] end.
Definition DeviceCapabilities_ok (l : list SensorCapability) : bool :=
  len_list 1 64 l && forallb SensorCapability_ok l && all_distinct (sc_id <$> l) && all_distinct (l ≫= capability_channels).
Definition is_image (c : SensorCapability) : bool := match sc_kind c with ImageKind _ _ _ => true | _ => false end.

Section Uuid.
Context (zod_uuid : string -> bool).
Definition FirmwareManifest_ok (m : FirmwareManifest) : bool :=
  zod_uuid (fm_build_id m) && (1 <=? fm_plan_version m) && (1 <=? fm_code_version m) && len_between 1 120 (fm_profile_id m) &&
  SemVer (fm_runtime m) && channel_table_ok (fm_channels m) && opt_ok DeviceCapabilities_ok (fm_capabilities m) &&
  Nat.eqb (length (fm_files m)) 3 && forallb FirmwareFile_ok (fm_files m) && all_distinct (ff_path <$> fm_files m) &&
  ((1 <=? length (fm_channels m)) || from_option (existsb is_image) false (fm_capabilities m)).
End Uuid.

Definition range_json (r : TelemetryChannel) : json :=
  JObj [("unit", JStr (tc_unit r)); ("min", JNum (tc_min r)); ("max", JNum (tc_max r))].
Definition channels_json (l : ChannelTable) : json := JObj ((fun kv => (kv.1, range_json kv.2)) <$> l).
Definition capability_json (c : SensorCapability) : json :=
  JObj ([("id", JStr (sc_id c));
         ("kind", JStr (if is_image c then "image" else "measurement"));
         ("schema", JStr (if is_image c then "jpeg.v1" else "readings.v1"));
         ("profile_id", JStr (sc_profile_id c)); ("profile_version", JNum (of_Z (sc_profile_version c)));
         ("enabled", JBool (sc_enabled c)); ("required", JBool (sc_required c)); ("interval_s", JNum (of_Z (sc_interval_s c)))] ++
        match sc_kind c with
        | ImageKind b w h => [("max_bytes", JNum (of_Z b)); ("max_width", JNum (of_Z w)); ("max_height", JNum (of_Z h))]
        | MeasurementKind channels => [("channels", channels_json channels)]
        end).
Definition capabilities_json (l : list SensorCapability) : json := JArr (capability_json <$> l).
Definition file_json (f : FirmwareFile) : json :=
  JObj [("path", JStr (ff_path f)); ("sha256", JStr (ff_sha256 f)); ("size", JNum (of_Z (ff_size f)))].
Definition flash_json : json :=
  JObj [("chip", JStr "esp32s3"); ("config_offset", JNum (of_Z 36864)); ("config_size", JNum (of_Z 24576))].
Definition manifest_json (m : FirmwareManifest) : json :=
  JObj ([("v", JNum (of_Z 1)); ("build_id", JStr (fm_build_id m)); ("plan_version", JNum (of_nat (fm_plan_version m)));
         ("code_version", JNum (of_nat (fm_code_version m))); ("profile_id", JStr (fm_profile_id m)); ("runtime", JStr (fm_runtime m));
         ("channels", channels_json (fm_channels m))] ++ opt_entry "capabilities" capabilities_json (fm_capabilities m) ++
        [("files", JArr (file_json <$> fm_files m)); ("flash", flash_json)]).
Definition serializeFirmwareManifest (zod_uuid : string -> bool) (m : FirmwareManifest) : option string :=
  if FirmwareManifest_ok zod_uuid m then Some (canonicalJson (manifest_json m)) else None.

Definition candidateManifestMatches (candidate : AcceptedCandidate) (manifest : FirmwareManifest) : bool :=
  (fm_profile_id manifest ==s ac_id candidate) && (fm_runtime manifest ==s ac_runtime candidate) &&
  (canonicalDigest (channels_json (fm_channels manifest)) ==s canonicalDigest (channels_json (ac_channels candidate))) &&
  (canonicalDigest (capabilities_json (default [] (fm_capabilities manifest))) ==s
   canonicalDigest (capabilities_json (default [] (ac_capabilities candidate)))).

(** ** [decodePlan] ([plan.ts]) *)
Record DecodedPlan := mkDecoded {
  dp_candidate : AcceptedCandidate;
  dp_plan : BuildPlan;
  dp_metadata : BuildPlanMetadata;
  dp_interval_s : num
}.
Definition decodePlan (row : PlanRow) (spec : Spec) (approvals : list CameraPlanApproval) : option DecodedPlan :=
  match pl_metadata row with
  | Some m =>
      let plan := row_plan row m in
      if BuildPlanMetadata_ok https_url m && BuildPlan_ok plan && Spec_ok spec &&
         bool_decide (planInputDigest sha256 spec (bm_runtime m) (bm_evidence m) = Some (bm_input_digest m))
      then (fun c => mkDecoded c plan m (ac_interval_s c)) <$> resolveAcceptedCandidate plan m spec approvals
      else None
  | None => None
  end.
End Select.
