(* ===== verification/CandidateSpec.v ===== *)
(** * What the compiler's choice of a candidate means

    [selectNumericCandidate] takes exactly the reviewed wirings, read off the
    table ([selectNumericCandidate_exact]); an edit yields fixed text around a
    number between 10 and 86400 ([edit_reviewed]). *)
From S2P Require Import Prelude JsString Regex JsNumber JsNumberFacts Part Assembly MatcherTypes Json Spec Plans Telemetry Candidate.
#[local] Open Scope string_scope.
#[local] Open Scope list_scope.
#[local] Open Scope nat_scope.

(** ** Joined pins *)
Definition pin_char (c : ascii) : bool := negb (Ascii.eqb c "|") && negb (Ascii.eqb c "@").

Lemma pin_texts p : PartPin_ok p = true -> all_chars pin_char (pp_id p) = true /\ all_chars pin_char (pp_version p) = true.
Proof.
  intros [H1 H2]%andb_true_iff. split; [exact (test_only pin_char _ _ H1 eq_refl)|exact (test_only pin_char _ _ H2 eq_refl)].
Qed.

Lemma no_char p c s : all_chars p s = true -> p c = false -> index_of c s = None.
Proof.
  intros Hs Hc. induction s as [|d s IH]; [done|]. simpl in *. bools. destruct (Ascii.eqb c d) eqn:E.
  - apply Ascii.eqb_eq in E as ->. congruence.
  - by rewrite IH.
Qed.

(** A pin reads back from its key, and a list of keys from its join. *)
Definition unkey (s : string) : PartPin :=
  match split_on "@" s with [a; b] => mkPartPin a b | _ => mkPartPin "" "" end.
Lemma unkey_pinKey p : PartPin_ok p = true -> unkey (pinKey p) = p.
Proof.
  intros [H1 H2]%pin_texts. unfold unkey, pinKey. change ("@" ++ pp_version p)%string with (String "@" (pp_version p)).
  rewrite split_on_app by (by apply (no_char pin_char)). rewrite split_on_none by (by apply (no_char pin_char)). by destruct p.
Qed.

Lemma split_on_join c l : l <> [] -> (forall s, s ∈ l -> index_of c s = None) -> split_on c (join (String c EmptyString) l) = l.
Proof.
  intros Hl H. induction l as [|s l IH]; [done|]. destruct l as [|t l].
  - apply split_on_none, H. by left.
  - change (join (String c EmptyString) (s :: t :: l)) with (s ++ String c (join (String c EmptyString) (t :: l)))%string.
    rewrite split_on_app by (apply H; by left). rewrite IH; [done|done|]. intros u Hu. apply H. by right.
Qed.

Lemma pins_perm l l' :
  l <> [] -> l' <> [] -> forallb PartPin_ok l = true -> forallb PartPin_ok l' = true ->
  pins l = pins l' <-> l ≡ₚ l'.
Proof.
  intros Hl Hl' H H'.
  assert (Hbar : forall l, forallb PartPin_ok l = true -> forall s, s ∈ sort_text (pinKey <$> l) -> index_of "|" s = None).
  { clear. intros l H s Hs. rewrite elem_of_sort_text in Hs. apply list_elem_of_fmap in Hs as (p & -> & Hp).
    rewrite forallb_elem in H. apply (no_char (fun c => negb (Ascii.eqb c "|"))); [|done].
    destruct (pin_texts p (H p Hp)) as [H1 H2]. unfold pinKey.
    assert (Himpl : forall s, all_chars pin_char s = true -> all_chars (fun c => negb (Ascii.eqb c "|")) s = true).
    { intros s. apply all_chars_impl. by intros c [? _]%andb_true_iff. }
    rewrite !all_chars_app, (Himpl (pp_id p)), (Himpl (pp_version p)) by done. done. }
  assert (Hne : forall l : list PartPin, l <> [] -> sort_text (pinKey <$> l) <> []).
  { clear. intros l Hl E. apply (f_equal length) in E. unfold sort_text in E. rewrite (Permutation_length (js_sort_perm _ _)) in E.
    by destruct l. }
  split.
  - intros E. apply (f_equal (split_on "|")) in E. unfold pins in E. rewrite !split_on_join in E by eauto.
    assert (Hk : pinKey <$> l ≡ₚ pinKey <$> l').
    { rewrite <- (js_sort_perm text_gt (pinKey <$> l)), <- (js_sort_perm text_gt (pinKey <$> l')). unfold sort_text in E. by rewrite E. }
    apply (fmap_Permutation unkey) in Hk. rewrite <- !list_fmap_compose in Hk.
    assert (Hid : forall l, forallb PartPin_ok l = true -> (unkey ∘ pinKey) <$> l = l).
    { clear. intros l H. rewrite forallb_elem in H. induction l as [|p l IH]; [done|]. rewrite fmap_cons. unfold compose at 1.
      rewrite unkey_pinKey by (apply H; by left). f_equal. apply IH. intros q Hq. apply H. by right. }
    by rewrite !Hid in Hk.
  - intros E. unfold pins. f_equal. apply sort_text_perm_invariant. by rewrite E.
Qed.

(** ** The table *)
Lemma table_ok c : c ∈ NUMERIC_CANDIDATES ->
  forallb PartPin_ok (expected_parts c (nc_peripherals c)) = true /\ NoDup (expected_parts c (nc_peripherals c)) /\
  NoDup ((po_sensor <$> nc_peripherals c) ≫= fun k => sn_channels (SENSORS k)).*1.
Proof.
  unfold NUMERIC_CANDIDATES. rewrite !elem_of_cons, elem_of_nil. intros [-> |[-> |[]]];
    (split; [vm_compute; reflexivity|]; split; apply (bool_decide_unpack _); vm_compute; exact I).
Qed.

Lemma find_option c p o : c ∈ NUMERIC_CANDIDATES ->
  List.find (for_part p) (nc_peripherals c) = Some o <-> o ∈ nc_peripherals c /\ po_part o = p.
Proof.
  intros Hc. assert (Hp : forall o, for_part p o = true <-> po_part o = p).
  { intros o'. unfold for_part. rewrite andb_true_iff, !String.eqb_eq. destruct (po_part o'), p. simpl. split; [intros [-> ->]|intros [= -> ->]]; done. }
  split.
  - intros H. apply List.find_some in H as [H1 H2]. split; [by apply list_elem_of_In|by apply Hp].
  - intros [Ho E]. destruct (List.find (for_part p) (nc_peripherals c)) as [o'|] eqn:Ef.
    + apply List.find_some in Ef as [H1 H2]. apply list_elem_of_In in H1. apply Hp in H2. f_equal.
      destruct (table_ok c Hc) as (_ & Hnd & _). apply NoDup_cons in Hnd as [_ Hnd]. apply NoDup_cons in Hnd as [_ Hnd].
      apply (NoDup_fmap_elem po_part (nc_peripherals c)); [done..|]. congruence.
    + pose proof (List.find_none _ _ Ef o (proj1 (list_elem_of_In _ _) Ho)) as Hf. by rewrite (proj2 (Hp o)) in Hf.
Qed.

(** What [choose] pairs: each edge with the option of its part, no option twice. *)
Definition pairs (c : NumericCandidate) (edge : WiringEdge) (o : PeripheralOption) : Prop :=
  o ∈ nc_peripherals c /\ edge_part edge = po_part o /\ edge_connector edge ∈ po_connectors o.
Lemma choose_spec c wired : c ∈ NUMERIC_CANDIDATES -> forall acc chosen, NoDup acc ->
  choose c wired acc = Some chosen <-> exists l, chosen = acc ++ l /\ Forall2 (pairs c) wired l /\ NoDup chosen.
Proof.
  intros Hc. induction wired as [|edge wired IH]; intros acc chosen Hacc; cbn [choose].
  - split.
    + intros [= <-]. exists []. by rewrite app_nil_r.
    + intros (l & -> & H & _). apply Forall2_nil_inv_l in H as ->. by rewrite app_nil_r.
  - split.
    + destruct (List.find _ _) as [o|] eqn:E; [|done]. apply find_option in E as [Ho Ep]; [|done].
      case_bool_decide as Hin; [done|]. simpl. destruct (inb _ _) eqn:Ei; [|done]. simpl. rewrite inb_true in Ei.
      intros (l & -> & Hl & Hnd)%IH.
      * exists (o :: l). rewrite <- app_assoc in *. split; [done|]. split; [|done]. by constructor.
      * apply NoDup_app. split_and!; [done| |apply NoDup_singleton]. by intros x Hx ->%list_elem_of_singleton.
    + intros (l & -> & H & Hnd). inversion H as [|? o ? l' (Ho & Ep & Ei) Hl]; subst.
      rewrite (proj2 (find_option c _ o Hc)) by done.
      rewrite bool_decide_eq_false_2. 2: { intros Hin. apply NoDup_app in Hnd as (_ & Hnd & _). apply (Hnd o Hin). by left. }
      rewrite (proj2 (inb_true _ _)) by done. simpl. apply IH.
      * apply NoDup_app in Hnd as (_ & Hnd & _). apply NoDup_app. split_and!; [done| |apply NoDup_singleton].
        intros x Hx ->%list_elem_of_singleton. apply (Hnd o Hx). by left.
      * exists l'. rewrite <- app_assoc. by split_and!.
Qed.

Lemma add_channels_spec entries : forall acc, NoDup acc.*1 ->
  add_channels acc entries = (if decide (NoDup (acc ++ entries).*1) then Some (acc ++ entries) else None).
Proof.
  induction entries as [|[k r] entries IH]; intros acc Hacc; cbn [add_channels].
  - rewrite app_nil_r. by rewrite decide_True.
  - assert (Hk : has_key k acc = true <-> k ∈ acc.*1).
    { unfold has_key. rewrite existsb_elem, list_elem_of_fmap. split.
      - intros (x & Hx & E%String.eqb_eq). by exists x.
      - intros (x & -> & Hx). exists x. split; [done|]. apply String.eqb_refl. }
    destruct (has_key k acc) eqn:E.
    + rewrite decide_False; [done|]. intros Hnd. rewrite fmap_app, fmap_cons in Hnd.
      apply NoDup_app in Hnd as (_ & Hnd & _). apply (Hnd k); [by apply Hk|by left].
    + rewrite IH; [by rewrite <- app_assoc|]. rewrite fmap_app. apply NoDup_app. split_and!; [done| |apply NoDup_singleton].
      intros x Hx ->%list_elem_of_singleton. apply Hk in Hx. congruence.
Qed.

(** ** The reviewed wirings *)
Section Exact.
Context (https_url : string -> bool).

(** An edge of the plan and the option it is wired for. *)
Record Wired (c : NumericCandidate) (ports : list Port) (edge : WiringEdge) (o : PeripheralOption) : Prop := {
  wi_option : pairs c edge o;
  wi_rail : edge_rail edge = rail_brain;
  wi_resources : join "," (edge_resources edge) = join "," (nc_resources c);
  wi_port : exists port, port ∈ ports /\ port_id port = edge_port edge /\ port_interface port = i2c /\ port_rail port = rail_brain /\
    join "," (port_resources port) = join "," (nc_resources c) /\ port_connector port = edge_connector edge
}.

(** The one part of an option carries its driver, and the driver has passed. *)
Definition driven (c : NumericCandidate) (e : BuildPlanEvidence) (o : PeripheralOption) : Prop :=
  exists p, p ∈ ev_parts e /\ pin p = po_part o /\
    driver_pkg (software p) = Some (sn_driver_pkg (SENSORS (po_sensor o))) /\
    driver_version (software p) = Some (po_driver_ver o) /\
    mkCompat (sn_driver_pkg (SENSORS (po_sensor o))) (po_driver_ver o) (nc_runtime c) (pp_id (nc_brain c)) passed ∈ ev_compat e.

Record Reviewed (plan : BuildPlan) (m : BuildPlanMetadata) (spec : Spec) (c : NumericCandidate)
    (chosen : list PeripheralOption) (interval : num) : Prop := {
  rw_candidate : c ∈ NUMERIC_CANDIDATES;
  rw_profile : plan_profile plan = (nc_id c, nc_profile_version c) /\ bm_profile m = plan_profile plan /\
    (prof_id (ev_profile (bm_evidence m)), prof_version (ev_profile (bm_evidence m))) = plan_profile plan;
  rw_runtime : plan_runtime plan = nc_runtime c /\ bm_runtime m = nc_runtime c;
  rw_parts : part_versions plan ≡ₚ expected_parts c chosen;
  rw_evidence : pin <$> ev_parts (bm_evidence m) ≡ₚ expected_parts c chosen;
  rw_active : forall p, p ∈ ev_parts (bm_evidence m) -> status p = active;
  rw_brain : wg_brain (wiring_graph plan) = nc_brain c /\ prof_brain (ev_profile (bm_evidence m)) = nc_brain c;
  rw_source : wg_source (wiring_graph plan) = nc_source c /\ prof_source (ev_profile (bm_evidence m)) = nc_source c;
  rw_chosen : chosen <> [] /\ NoDup chosen;
  rw_wired : Forall2 (Wired c (prof_ports (ev_profile (bm_evidence m)))) (wg_peripherals (wiring_graph plan)) chosen;
  rw_driven : forall o, o ∈ chosen -> driven c (bm_evidence m) o;
  rw_spec : conn_transport (spec_connect spec) = wifi /\ power_source (spec_power spec) = src_usb /\
    sense_interval_s (spec_sense spec) = Some interval /\ interval_ok interval = true
}.

Lemma same_pin_eq a b : same_pin a b = true <-> a = b.
Proof. unfold same_pin. rewrite andb_true_iff, !String.eqb_eq. destruct a, b. simpl. split; [by intros [-> ->]|by intros [= -> ->]]. Qed.
Lemma same_profile_eq a b : same_profile a b = true <-> a = b.
Proof. unfold same_profile. rewrite andb_true_iff, !String.eqb_eq. destruct a, b. simpl. split; [by intros [-> ->]|by intros [= -> ->]]. Qed.

Lemma edge_wired_spec c ports edge :
  edge_wired (join "," (nc_resources c)) ports edge = true <->
  edge_rail edge = rail_brain /\ join "," (edge_resources edge) = join "," (nc_resources c) /\
  exists port, port ∈ ports /\ port_id port = edge_port edge /\ port_interface port = i2c /\ port_rail port = rail_brain /\
    join "," (port_resources port) = join "," (nc_resources c) /\ port_connector port = edge_connector edge.
Proof.
  unfold edge_wired, port_for. rewrite !andb_true_iff, bool_decide_eq_true, String.eqb_eq, existsb_elem.
  setoid_rewrite andb_true_iff. setoid_rewrite andb_true_iff. setoid_rewrite andb_true_iff. setoid_rewrite andb_true_iff.
  setoid_rewrite bool_decide_eq_true. setoid_rewrite String.eqb_eq. naive_solver.
Qed.

Lemma driver_row_spec c o row :
  driver_row c o row = true <->
  row = mkCompat (sn_driver_pkg (SENSORS (po_sensor o))) (po_driver_ver o) (nc_runtime c) (pp_id (nc_brain c)) passed.
Proof.
  unfold driver_row. rewrite !andb_true_iff, !String.eqb_eq, bool_decide_eq_true. destruct row; simpl.
  split; [by intros ((((-> & ->) & ->) & ->) & ->)|by intros [= -> -> -> -> ->]].
Qed.

Lemma driver_passed_spec c e o : NoDup (pin <$> ev_parts e) -> driver_passed c e o = true <-> driven c e o.
Proof.
  intros Hnd. unfold driver_passed, driven.
  assert (Hf : forall p, List.find (fun p => same_pin (pin p) (po_part o)) (ev_parts e) = Some p <-> p ∈ ev_parts e /\ pin p = po_part o).
  { intros p. split.
    - intros [H1 H2]%List.find_some. split; [by apply list_elem_of_In|by apply same_pin_eq].
    - intros [Hp E]. destruct (List.find _ _) as [q|] eqn:Ef.
      + apply List.find_some in Ef as [H1%list_elem_of_In H2%same_pin_eq]. f_equal.
        apply (NoDup_fmap_elem pin (ev_parts e)); [done..|]. congruence.
      + pose proof (List.find_none _ _ Ef p (proj1 (list_elem_of_In _ _) Hp)) as H. cbn beta in H. by rewrite (proj2 (same_pin_eq _ _) E) in H. }
  split.
  - destruct (List.find _ _) as [p|] eqn:Ef; [|done]. destruct (proj1 (Hf p) eq_refl) as [Hp E]. intros H. bools.
    match goal with H : existsb _ _ = true |- _ => apply existsb_elem in H as (row & Hrow & ->%driver_row_spec) end. by exists p.
  - intros (p & Hp & E & H1 & H2 & H3). rewrite (proj2 (Hf p)) by done. rewrite !bool_decide_eq_true_2 by done. simpl.
    apply existsb_elem. eexists. split; [exact H3|]. by apply driver_row_spec.
Qed.

Lemma parts_distinct c chosen : c ∈ NUMERIC_CANDIDATES -> NoDup chosen -> (forall o, o ∈ chosen -> o ∈ nc_peripherals c) ->
  forallb PartPin_ok (expected_parts c chosen) = true /\ NoDup (expected_parts c chosen) /\
  NoDup ((po_sensor <$> chosen) ≫= fun k => sn_channels (SENSORS k)).*1.
Proof.
  intros Hc Hnd Hsub. destruct (table_ok c Hc) as (H1 & H2 & H3).
  pose proof (NoDup_submseteq chosen (nc_peripherals c) Hnd Hsub) as [rest Hp]%submseteq_Permutation. split_and!.
  - rewrite forallb_elem in *. intros p. unfold expected_parts. rewrite !elem_of_cons. intros Hin. apply H1. unfold expected_parts.
    rewrite !elem_of_cons. destruct Hin as [?|[?|Hin]]; [by left|by right; left|]. do 2 right.
    apply list_elem_of_fmap in Hin as (o & -> & Ho). apply list_elem_of_fmap. exists o. auto.
  - assert (H2' : NoDup (expected_parts c (chosen ++ rest))).
    { unfold expected_parts in *. by rewrite <- Hp. }
    unfold expected_parts in *. rewrite fmap_app in H2'. change (nc_brain c :: nc_source c :: (po_part <$> chosen) ++ (po_part <$> rest))
      with ((nc_brain c :: nc_source c :: (po_part <$> chosen)) ++ (po_part <$> rest)) in H2'. by apply NoDup_app in H2' as [? _].
  - rewrite Hp, fmap_app, bind_app, fmap_app in H3. by apply NoDup_app in H3 as [? _].
Qed.

Lemma supported_spec plan m spec c chosen interval :
  BuildPlan_ok plan = true -> BuildPlanMetadata_ok https_url m = true -> c ∈ NUMERIC_CANDIDATES -> nc_id c = (plan_profile plan).1 ->
  Forall2 (pairs c) (wg_peripherals (wiring_graph plan)) chosen -> NoDup chosen -> sense_interval_s (spec_sense spec) = Some interval ->
  supported c chosen plan m spec = true <-> Reviewed plan m spec c chosen interval.
Proof.
  intros Hplan Hm Hc Hid Hpairs Hnd Hint.
  assert (Hsub : forall o, o ∈ chosen -> o ∈ nc_peripherals c).
  { intros o Ho. apply list_elem_of_lookup in Ho as [i Hi]. apply (Forall2_lookup_r _ _ _ _ _ Hpairs) in Hi as (e & _ & H). apply H. }
  destruct (parts_distinct c chosen Hc Hnd Hsub) as (Hok & Hdist & _).
  assert (Hplan' : part_versions plan <> [] /\ forallb PartPin_ok (part_versions plan) = true).
  { unfold BuildPlan_ok, len_list in Hplan. bools. split; [|done]. by destruct (part_versions plan). }
  assert (Hev' : pin <$> ev_parts (bm_evidence m) <> [] /\ forallb PartPin_ok (pin <$> ev_parts (bm_evidence m)) = true).
  { unfold BuildPlanMetadata_ok, BuildPlanEvidence_ok, len_list in Hm. bools. split; [by destruct (ev_parts _)|].
    apply forallb_elem. intros q (p & -> & Hp)%list_elem_of_fmap.
    match goal with H : forallb (PartDefinition_ok _) _ = true |- _ => rewrite forallb_elem in H; apply H in Hp end.
    unfold PartDefinition_ok, PartDefinition_fields in Hp. bools. unfold PartPin_ok, pin. simpl. by apply andb_true_iff. }
  assert (Hexp : expected_parts c chosen <> []) by done.
  destruct Hplan' as [Hplan1 Hplan2], Hev' as [Hev1 Hev2].
  unfold supported. rewrite !andb_true_iff, !String.eqb_eq, !same_pin_eq, !same_profile_eq, !bool_decide_eq_true, negb_true_iff, Nat.eqb_neq.
  rewrite !(pins_perm _ (expected_parts c chosen)) by done. rewrite Hint. simpl from_option. rewrite !forallb_elem.
  split.
  - intros H. destruct_and!.
    match goal with H : pin <$> _ ≡ₚ _ |- _ => assert (Hndp : NoDup (pin <$> ev_parts (bm_evidence m))) by by rewrite H end.
    split; try done.
    + split_and!; [|done..]. destruct (plan_profile plan). simpl in *. congruence.
    + split; congruence.
    + intros p Hp. apply (bool_decide_eq_true (status p = active)). auto.
    + split; [by destruct chosen|done].
    + apply Forall2_same_length_lookup_2; [by eapply Forall2_length|]. intros i edge o He Ho.
      match goal with H : forall x, x ∈ wg_peripherals _ -> _ |- _ => pose proof (H edge ltac:(by eapply list_elem_of_lookup_2)) as Hw end.
      apply edge_wired_spec in Hw as (? & ? & ?). split; [|done..]. by eapply (Forall2_lookup_lr _ _ _ _ _ _ Hpairs).
    + intros o Ho. apply (driver_passed_spec c _ o Hndp). auto.
  - intros [? (E1 & E2 & E3) [E4 E5] ? Hev ? [] [] [Hne _] Hwired Hdr (? & ? & Hi & ?)].
    assert (Hndp : NoDup (pin <$> ev_parts (bm_evidence m))) by by rewrite Hev.
    split_and!; try done; try congruence.
    + by rewrite E1.
    + intros p Hp. apply bool_decide_eq_true. auto.
    + by destruct chosen.
    + intros edge He. apply list_elem_of_lookup in He as [i He]. destruct (Forall2_lookup_l _ _ _ _ _ Hwired He) as (o & _ & [? ? ? ?]).
      by apply edge_wired_spec.
    + intros o Ho. apply driver_passed_spec; auto.
Qed.

(** C25: The compiler takes exactly the reviewed wirings. For a plan and metadata
    their schemas accept, a selection is made exactly when some board of the
    table is the plan's, in profile, runtime, brain and source, in the plan and
    in its evidence alike; the plan's parts and the evidence's parts are that
    board, its source and distinct sensors of its own, each wired once through
    an I2C port of the profile on the board's bus by a connector the sensor
    allows, with the driver the table names passed on that brain; and the spec
    asks for Wi-Fi, USB and a whole number of 10 to 86400 seconds. The selection
    is then that board with those sensors, and their channels never collide. *)
Theorem selectNumericCandidate_exact plan m spec sel :
  BuildPlan_ok plan = true -> BuildPlanMetadata_ok https_url m = true ->
  selectNumericCandidate https_url plan m spec = Some sel <->
  exists chosen, Reviewed plan m spec (ns_candidate sel) chosen (ns_interval_s sel) /\
    ns_sensors sel = po_sensor <$> chosen /\
    ns_channels sel = ns_sensors sel ≫= (fun k => sn_channels (SENSORS k)).
Proof.
  intros Hplan Hm. unfold selectNumericCandidate. rewrite Hplan, Hm. simpl negb. cbn iota.
  assert (Hids : forall c, List.find (fun c => (nc_id c ==s (plan_profile plan).1)%forge) NUMERIC_CANDIDATES = Some c <->
    c ∈ NUMERIC_CANDIDATES /\ nc_id c = (plan_profile plan).1).
  { intros c. split.
    - intros [H1%list_elem_of_In H2%String.eqb_eq]%List.find_some. done.
    - intros [Hc E]. revert Hc. unfold NUMERIC_CANDIDATES. rewrite !elem_of_cons, elem_of_nil. simpl. rewrite <- E.
      by intros [-> |[-> |[]]]. }
  split.
  - destruct (List.find _ _) as [c|]; [|done]. destruct (proj1 (Hids c) eq_refl) as [Hc Eid].
    destruct (choose _ _ _) as [chosen|] eqn:Ech; [|done]. destruct (sense_interval_s _) as [i|] eqn:Ei; [|done].
    apply choose_spec in Ech as (l & -> & Hp & Hnd); [|done|constructor]. simpl in *.
    destruct (supported c l plan m spec) eqn:Es; [|done]. simpl.
    rewrite add_channels_spec by constructor. simpl. destruct (decide _) as [Hk|]; [|done]. intros [= <-].
    exists l. simpl. split_and!; [|done..]. by apply supported_spec.
  - intros (chosen & Hr & Es & Ech). pose proof (rw_candidate _ _ _ _ _ _ Hr) as Hc.
    destruct (rw_profile _ _ _ _ _ _ Hr) as (Eid & _). destruct (rw_chosen _ _ _ _ _ _ Hr) as [_ Hnd].
    destruct (rw_spec _ _ _ _ _ _ Hr) as (_ & _ & Ei & _). 
    assert (Eid' : nc_id (ns_candidate sel) = (plan_profile plan).1) by by rewrite Eid.
    rewrite (proj2 (Hids (ns_candidate sel))) by done.
    assert (Hp : Forall2 (pairs (ns_candidate sel)) (wg_peripherals (wiring_graph plan)) chosen).
    { eapply Forall2_impl; [apply (rw_wired _ _ _ _ _ _ Hr)|]. intros e o Hw. apply Hw. }
    rewrite (proj2 (choose_spec (ns_candidate sel) _ Hc [] chosen ltac:(constructor))) by (exists chosen; by split_and!).
    rewrite Ei. rewrite (proj2 (supported_spec plan m spec _ chosen _ Hplan Hm Hc Eid' Hp Hnd Ei) Hr). simpl.
    rewrite add_channels_spec by constructor. simpl.
    rewrite decide_True; [rewrite <- Es, <- Ech; by destruct sel|].
    destruct (parts_distinct (ns_candidate sel) chosen Hc Hnd) as (_ & _ & H); [|exact H].
    intros o Ho. apply list_elem_of_lookup in Ho as [j Hj]. apply (Forall2_lookup_r _ _ _ _ _ Hp) in Hj as (e & _ & Hj). apply Hj.
Qed.
End Exact.

(** ** The edit *)
Lemma digits_of_app s t : digits_of (s ++ t)%string = (digits_of s ++ digits_of t)%string.
Proof. induction s as [|c s IH]; [done|]. rewrite string_app_cons. simpl. rewrite IH. by destruct (is_digit c). Qed.
Lemma digits_of_all s : all_chars is_digit s = true -> digits_of s = s.
Proof. induction s as [|c s IH]; [done|]. simpl. intros [-> ?]%andb_true_iff. by rewrite IH. Qed.
Lemma digits_of_none s : all_chars (fun c => negb (is_digit c)) s = true -> digits_of s = EmptyString.
Proof. induction s as [|c s IH]; [done|]. simpl. intros [->%negb_true_iff ?]%andb_true_iff. auto. Qed.
Lemma BigInt_bound s : all_chars is_digit s = true -> (0 <= BigInt s < 10 ^ Z.of_nat (String.length s))%Z.
Proof.
  intros H. assert (Hg : forall a, (0 <= a)%Z -> (0 <= bigint_acc a s < (a + 1) * 10 ^ Z.of_nat (String.length s))%Z); [|by specialize (Hg 0%Z ltac:(lia)); unfold BigInt; lia].
  induction s as [|c s IH]; intros a Ha; [simpl; lia|]. simpl in H. apply andb_true_iff in H as [Hc H].
  cbn [bigint_acc String.length]. rewrite Nat2Z.inj_succ, Z.pow_succ_r by lia.
  assert (Hd : (0 <= Z.of_nat (code c) - 48 <= 9)%Z).
  { unfold is_digit, in_range in Hc. apply andb_true_iff in Hc as [H1%Nat.leb_le H2%Nat.leb_le]. change (code "0") with 48 in H1. change (code "9") with 57 in H2. lia. }
  specialize (IH H (10 * a + (Z.of_nat (code c) - 48))%Z ltac:(lia)). split; [lia|].
  eapply Z.lt_le_trans; [apply IH|]. rewrite Z.mul_assoc. apply Z.mul_le_mono_nonneg_r; [apply Z.pow_nonneg|]; lia.
Qed.

Lemma upto_digits n s : matches (rupto n digit) s -> all_chars is_digit s = true /\ String.length s <= n.
Proof.
  revert s. induction n as [|n IH]; intros s; cbn [rupto]; intros H; inversion H; subst.
  - done.
  - match goal with H : matches (Cat _ _) _ |- _ => inversion H; subst end.
    match goal with H : matches digit _ |- _ => inversion H; subst end.
    match goal with H : matches (rupto n digit) _ |- _ => apply IH in H as [Ha Hb] end.
    change (String c "" ++ s2)%string with (String c s2). simpl. split; [by apply andb_true_iff|lia].
  - match goal with H : matches Eps _ |- _ => inversion H end. simpl. split; [done|lia].
Qed.

Lemma instruction_digits s : test INSTRUCTION s = true ->
  exists ds, digits_of s = ds /\ all_chars is_digit ds = true /\ String.length ds <= 5.
Proof.
  intros H%test_spec. unfold INSTRUCTION, rcat in H. inversion H as [| |? ? h t Hh Ht| | | |]; subst.
  inversion Ht as [| |? ? d u Hd Hu| | | |]; subst. inversion Hd as [|? c Hc| | | | |]; subst.
  inversion Hu as [| |? ? ds v Hds Hv| | | |]; subst. apply (upto_digits 4) in Hds as [H1 H2].
  exists (String c ds). rewrite !digits_of_app.
  assert (Hnone : forall r u, only (fun c => negb (is_digit c)) r = true -> matches r u -> digits_of u = EmptyString).
  { intros r u' Hr Hu'. apply digits_of_none. by apply (matches_only _ r). }
  rewrite (Hnone INSTRUCTION_HEAD h), (Hnone INSTRUCTION_TAIL v) by (exact Hh || exact Hv || (vm_compute; reflexivity)). rewrite (digits_of_all ds) by done.
  rewrite string_app_nil_r. simpl. rewrite Hc. split_and!; [done|done|lia].
Qed.

Lemma interval_ok_Z n : (0 <= n < 2 ^ 53)%Z -> interval_ok (of_Z n) = true <-> (10 <= n <= 86400)%Z.
Proof.
  intros Hn. unfold interval_ok. rewrite is_integer_of_Z by lia. rewrite !nlt_of_Z by lia.
  simpl andb. rewrite andb_true_iff, !negb_true_iff, !Z.ltb_ge. lia.
Qed.

Lemma trim_visible_ends c s d : visible c = true -> visible d = true ->
  trim (String c (s ++ String d EmptyString))%string = String c (s ++ String d EmptyString)%string.
Proof.
  unfold visible. intros Hc%negb_true_iff Hd%negb_true_iff. unfold trim. cbn [trim_start]. rewrite Hc.
  assert (He : forall s, trim_end (s ++ String d EmptyString)%string = (s ++ String d EmptyString)%string).
  { clear -Hd. induction s as [|c s IH].
    - change (EmptyString ++ String d EmptyString)%string with (String d EmptyString). simpl. by rewrite Hd.
    - rewrite string_app_cons. cbn [trim_end]. rewrite IH. by destruct s. }
  cbn [trim_end]. rewrite He. by destruct s.
Qed.

(** The intervals an app may have, in seconds. *)
Definition allowed (n : Z) : Prop := (10 <= n <= 86400)%Z.

(** C26: The editable source is fixed text around one number. Asking for
    [Set interval to n seconds] gives exactly [n], for every [n] from 10 to
    86400; whatever else is asked for, what is accepted is such a number too,
    and the source is the same fixed text with its decimal digits in the one
    place, so nothing else of an instruction ever reaches the compiler, and
    different numbers give different sources. *)
Theorem edit_reviewed :
  (forall n, allowed n -> editInterval ("Set interval to " ++ ToString.dec n ++ " seconds") = Some (of_Z n)) /\
  (forall instruction x, editInterval instruction = Some x -> exists n, allowed n /\ x = of_Z n) /\
  (forall n, allowed n -> renderApp (of_Z n) = Some (APP_HEAD ++ ToString.dec n ++ APP_TAIL)%string) /\
  (forall n n', allowed n -> allowed n' -> renderApp (of_Z n) = renderApp (of_Z n') -> n = n').
Proof.
  unfold allowed.
  assert (Hr : forall n, (10 <= n <= 86400)%Z -> renderApp (of_Z n) = Some (APP_HEAD ++ ToString.dec n ++ APP_TAIL)%string).
  { intros n Hn. unfold renderApp. rewrite (proj2 (interval_ok_Z n ltac:(lia)) Hn). by rewrite show_num_Z by lia. }
  split_and!; [| |done|].
  - intros n Hn. destruct (dec_digits n ltac:(lia)) as (Hd & Hb & Hne & Hl). specialize (Hl 5 ltac:(lia) ltac:(simpl; lia)).
    set (ds := ToString.dec n) in *. unfold editInterval.
    assert (Ht : trim ("Set interval to " ++ ds ++ " seconds") = ("Set interval to " ++ ds ++ " seconds")%string).
    { change " seconds" with (" second" ++ String "s" "")%string. rewrite <- !string_app_assoc. apply (trim_visible_ends "S"); done. }
    rewrite Ht.
    assert (Hm : test INSTRUCTION ("Set interval to " ++ ds ++ " seconds") = true).
    { apply test_spec. destruct ds as [|c ds]; [done|]. simpl in Hd, Hl. apply andb_true_iff in Hd as [Hc Hd].
      unfold INSTRUCTION. cbn [rcat]. apply m_cat; [by apply test_spec|].
      change (String c ds ++ " seconds")%string with (String c "" ++ (ds ++ " seconds"))%string.
      apply m_cat; [by constructor|]. apply m_cat; [|by apply test_spec].
      clear -Hd Hl. assert (H4 : String.length ds <= 4) by lia. clear Hl. generalize dependent 4. intros k.
      revert k. induction ds as [|d ds IH]; intros k Hk.
      - destruct k; [constructor|]. apply m_alt_r. constructor.
      - destruct k; [simpl in Hk; lia|]. simpl in Hd, Hk. apply andb_true_iff in Hd as [Hd Hds]. apply m_alt_l.
        apply (m_cat _ _ (String d "") ds); [by constructor|]. apply IH; [done|lia]. }
    rewrite Hm, !digits_of_app, (digits_of_all ds) by done.
    change (digits_of "Set interval to ") with "". change (digits_of " seconds") with "". rewrite string_app_nil_r.
    change ("" ++ ds)%string with ds. rewrite Hb, Hr by done. done.
  - unfold editInterval. intros instruction x. destruct (test _ _) eqn:E; [|done].
    apply instruction_digits in E as (ds & -> & Hd & Hl). pose proof (BigInt_bound ds Hd) as Hb.
    assert ((10 ^ Z.of_nat (String.length ds) <= 10 ^ 5)%Z) by (apply Z.pow_le_mono_r; lia).
    unfold renderApp. destruct (interval_ok _) eqn:Ei; [|done]. intros [= <-]. exists (BigInt ds). split; [|done].
    apply interval_ok_Z; [lia|done].
  - intros n n' Hn Hn'. rewrite !Hr by done. intros [= E]. 
    destruct (dec_digits n ltac:(lia)) as (H1 & H2 & _), (dec_digits n' ltac:(lia)) as (H3 & H4 & _).
    apply (f_equal digits_of) in E. rewrite !digits_of_app in E.
    change (digits_of APP_HEAD) with "" in E. change (digits_of APP_TAIL) with "" in E. rewrite !string_app_nil_r in E.
    change (digits_of (ToString.dec n) = digits_of (ToString.dec n')) in E. rewrite !digits_of_all in E by done. congruence.
Qed.

(** What a selection and a decoded plan render. *)
Lemma select_interval https_url plan m spec sel :
  selectNumericCandidate https_url plan m spec = Some sel -> interval_ok (ns_interval_s sel) = true.
Proof.
  unfold selectNumericCandidate. destruct (negb _); [done|]. destruct (List.find _ _) as [c|]; [|done].
  destruct (choose _ _ _) as [chosen|]; [|done]. destruct (sense_interval_s _) as [i|] eqn:Ei; [|done].
  destruct (supported c chosen plan m spec) eqn:E; [|done]. simpl. destruct (add_channels _ _) as [ch|]; [|done]. intros [= <-]. simpl.
  unfold supported in E. apply andb_true_iff in E as [_ E]. by rewrite Ei in E.
Qed.
Lemma decoded_renders sha256 https_url row spec approvals plan :
  decodePlan sha256 https_url row spec approvals = Some plan ->
  is_Some (renderCandidate (dp_candidate plan) (dp_interval_s plan)).
Proof.
  unfold decodePlan. destruct (pl_metadata row) as [m|]; [|done]. destruct (_ && _); [|done].
  destruct (resolveAcceptedCandidate _ _ _ _ _ _) as [c|] eqn:E; [|done]. intros [= <-]. simpl.
  unfold resolveAcceptedCandidate in E. destruct (existsb _ _).
  - destruct (selectNumericCandidate _ _ _ _) as [sel|] eqn:Es; [|done]. injection E as <-.
    unfold renderCandidate, renderApp. simpl. by rewrite (select_interval _ _ _ _ _ Es).
  - destruct (negb _); [done|]. destruct (List.filter _ _) as [|a [|]]; try done. destruct (camera_supported _ _ _ _ _); [|done].
    injection E as <-. exists CAMERA_APP. reflexivity.
Qed.
Lemma edit_renders candidate instruction x : editCandidate candidate instruction = Some x -> is_Some (renderCandidate candidate x).
Proof. unfold editCandidate. destruct (editInterval _); [|done]. destruct (renderCandidate _ _) eqn:E; [|done]. intros [= <-]. by rewrite E. Qed.

(** The intervals that reach a compiler are doubles. *)
Lemma interval_num_fin x : num_ok x -> interval_ok x = true -> fin x.
Proof.
  intros Hx Hi. apply fin_iff. split; [done|]. unfold interval_ok in Hi. destruct x; naive_solver.
Qed.
Lemma decoded_fin sha256 https_url row spec approvals plan :
  decodePlan sha256 https_url row spec approvals = Some plan -> fin (dp_interval_s plan).
Proof.
  unfold decodePlan. destruct (pl_metadata row) as [m|]; [|done]. destruct (_ && _ && Spec_ok spec && _) eqn:Eok; [|done].
  destruct (resolveAcceptedCandidate _ _ _ _ _ _) as [c|] eqn:E; [|done]. intros [= <-]. simpl.
  unfold resolveAcceptedCandidate in E. destruct (existsb _ _).
  - destruct (selectNumericCandidate _ _ _ _) as [sel|] eqn:Es; [|done]. injection E as <-. simpl.
    unfold selectNumericCandidate in Es. destruct (negb _); [done|]. destruct (List.find _ _); [|done]. destruct (choose _ _ _); [|done].
    destruct (sense_interval_s _) as [i|] eqn:Ei; [|done]. destruct (supported _ _ _ _ _); [|done]. destruct (add_channels _ _); [|done].
    injection Es as <-. simpl. bools. match goal with H : Spec_ok spec = true |- _ => unfold Spec_ok, Sense_ok in H; rewrite Ei in H end.
    bools. cbn [opt_ok] in *. match goal with H : Positive i = true |- _ => unfold Positive in H end. bools. done.
  - destruct (negb _); [done|]. destruct (List.filter _ _) as [|a [|]]; try done. destruct (camera_supported _ _ _ _ _); [|done].
    injection E as <-. reflexivity.
Qed.
Lemma edit_fin candidate instruction x : editCandidate candidate instruction = Some x -> fin x.
Proof.
  unfold editCandidate, editInterval. destruct (test _ _); [|done]. destruct (renderApp _) as [s|] eqn:E; [|done].
  destruct (renderCandidate _ _); [|done]. intros [= <-]. unfold renderApp in E. destruct (interval_ok _) eqn:Ei; [|done].
  apply interval_num_fin; [apply of_Z_ok|done].
Qed.
(** What is rendered is short. *)
Lemma rendered_length candidate x s : fin x -> renderCandidate candidate x = Some s -> String.length s <= 2000.
Proof.
  intros Fx. unfold renderCandidate. destruct (ac_kind candidate).
  - unfold renderApp. destruct (interval_ok x) eqn:E; [|done]. intros [= <-]. unfold interval_ok in E. bools.
    assert (Hx : exists z, x = of_Z z /\ (10 <= z <= 86400)%Z) by (apply integer_between; try lia; try done; by apply negb_true_iff).
    destruct Hx as (z & -> & Hz).
    rewrite show_num_Z by lia. rewrite !String_length_app.
    destruct (dec_digits z ltac:(lia)) as (_ & _ & _ & Hl). specialize (Hl 5 ltac:(lia) ltac:(lia)).
    change (String.length APP_HEAD) with 62. change (String.length APP_TAIL) with 5. lia.
  - unfold renderCameraApp. destruct (neqb _ _); [|done]. intros [= <-]. apply Nat.leb_le. reflexivity.
Qed.
