(* ===== verification/Firmware.v ===== *)
(** * Firmware of a build ([apps/gateway/src/firmware-routes.ts],
    [apps/codegen/src/job.ts], [artifacts.ts], [packages/schema/src/firmware.ts])

    A version of a build's firmware is asked for through the gateway, compiled
    by a worker that claims its row with a lease, uploaded file by file, and
    published in one transaction. Functions that throw return [None] or an
    [HttpError]. The compiler's binaries are an argument. Bytes are strings. *)
From stdpp Require Import gmap.
From S2P Require Import Prelude JsString Regex JsNumber Part Assembly MatcherTypes Json Spec Db Auth Access Http Plans Telemetry Candidate.
#[local] Open Scope string_scope.
#[local] Open Scope list_scope.
#[local] Open Scope nat_scope.
#[local] Open Scope forge_scope.

(** ** Rows *)
Inductive ArtifactStatus := fw_pending | fw_running | fw_passed | fw_failed.
#[export] Instance ArtifactStatus_eq_dec : EqDecision ArtifactStatus.
Proof. solve_decision. Defined.

Record FirmwareJob := mkJob {
  jb_request_id : string;
  jb_interval_s : num;
  jb_instruction : string;
  jb_based_on : option nat;
  jb_attempts : nat
}.
Record FirmwarePassedRecord := mkPassed {
  pr_job : option FirmwareJob;
  pr_candidate_id : string;
  pr_manifest : FirmwareManifest;
  pr_manifest_digest : string;
  pr_image_digest : string;
  pr_bundle_sha256 : option string;
  pr_source_sha256 : string;
  pr_instruction : string;
  pr_diagnostics : string
}.

(** [compile_log]: the job with what its worker added, or the record of a
    build that passed. *)
Inductive CompileLog :=
| Log (job : FirmwareJob) (lease error diagnostics : option string)
| PassedLog (record : FirmwarePassedRecord).
Definition log_job (l : CompileLog) : option FirmwareJob :=
  match l with Log j _ _ _ => Some j | PassedLog r => pr_job r end.
Definition log_lease (l : CompileLog) : option string := match l with Log _ lease _ _ => lease | PassedLog _ => None end.

Record CodeBundle := mkBundle {
  cb_build_id : string;
  cb_version : nat;
  cb_plan_version : nat;
  cb_status : ArtifactStatus;
  cb_storage_ref : option string;
  cb_log : CompileLog;
  cb_created_at : Z;
  cb_updated_at : Z
}.
Definition with_state (s : ArtifactStatus) (ref : option string) (l : CompileLog) (now : Z) (b : CodeBundle) : CodeBundle :=
  mkBundle (cb_build_id b) (cb_version b) (cb_plan_version b) s ref l (cb_created_at b) now.
Definition active_ (b : CodeBundle) : bool := bool_decide (cb_status b = fw_pending) || bool_decide (cb_status b = fw_running).

Record FwDb := mkFw { fw_plans : PlanDb; fw_bundles : list CodeBundle; fw_objects : gmap string string }.
Definition with_bundles (l : list CodeBundle) (d : FwDb) : FwDb := mkFw (fw_plans d) l (fw_objects d).

(** ** Artifact stores ([artifacts.ts]): objects are created, never replaced *)
Definition is_alnum (c : ascii) : bool := is_lower_digit c || is_upper c.
Definition KEY : re := rcat [Chr is_alnum; Star (Chr (fun c => is_alnum c || one_of "/_-" c)); lit "."; rplus (Chr is_lower_digit)].
Definition valid (key : string) : bool :=
  test KEY key && (String.length key <=? 300) && forallb (fun x => negb (x ==s "..") && negb (x ==s "")) (split_on "/" key).
Definition put (key bytes : string) (o : gmap string string) : option (gmap string string) :=
  if (6 * 1024 * 1024 <? str_len bytes)%Z || negb (valid key) then None
  else match o !! key with Some _ => None | None => Some (<[key := bytes]> o) end.
Definition get (key : string) (o : gmap string string) : option string :=
  if valid key then
    match o !! key with
    | Some bytes => if (6 * 1024 * 1024 <? str_len bytes)%Z then None else Some bytes
    | None => None
    end
  else None.

(** ** Requests *)
Record FirmwareRequest := mkFirmwareRequest {
  fr_tenant_id : string;
  fr_plan_version : nat;
  fr_request_id : string;
  fr_instruction : option string;
  fr_based_on : option nat
}.

Section Firmware.
Context (sha256 : string -> string) (https_url zod_uuid : string -> bool).
(** [FirmwareOptions], and the compilers the worker has. *)
Context (enabled has_artifacts : bool) (cameraApprovals : list CameraPlanApproval) (has_camera : bool).

Definition FirmwareJob_ok (j : FirmwareJob) : bool :=
  zod_uuid (jb_request_id j) && interval_ok (jb_interval_s j) && (String.length (jb_instruction j) <=? 500) &&
  opt_ok (fun v => 1 <=? v) (jb_based_on j) && (jb_attempts j <=? 3).
Definition IMAGE_PREFIX : string := "espressif/idf@sha256:".
Definition FirmwarePassedRecord_ok (r : FirmwarePassedRecord) : bool :=
  opt_ok FirmwareJob_ok (pr_job r) && len_between 1 120 (pr_candidate_id r) && FirmwareManifest_ok zod_uuid (pr_manifest r) &&
  Digest (pr_manifest_digest r) && startsWith IMAGE_PREFIX (pr_image_digest r) &&
  Digest (slice_from (String.length IMAGE_PREFIX) (pr_image_digest r)) && opt_ok Digest (pr_bundle_sha256 r) &&
  Digest (pr_source_sha256 r) && (String.length (pr_instruction r) <=? 500) && (str_len (pr_diagnostics r) <=? 20000)%Z.

(** [FirmwareRequest.parse]: the instruction is trimmed first. *)
Definition FirmwareRequest_parse (b : FirmwareRequest) : option FirmwareRequest :=
  let instruction := trim <$> fr_instruction b in
  if zod_uuid (fr_tenant_id b) && (1 <=? fr_plan_version b) && zod_uuid (fr_request_id b) &&
     opt_ok (len_between 1 500) instruction && opt_ok (fun v => 1 <=? v) (fr_based_on b)
  then Some (mkFirmwareRequest (fr_tenant_id b) (fr_plan_version b) (fr_request_id b) instruction (fr_based_on b))
  else None.

(** ** Reads *)
Definition of_build (id : string) (b : CodeBundle) : bool := cb_build_id b ==s id.
Definition at_code (id : string) (v : nat) (b : CodeBundle) : bool := of_build id b && Nat.eqb (cb_version b) v.
Definition newer (a b : CodeBundle) : bool := cb_version a <? cb_version b.
Definition bundles_desc (d : FwDb) (id : string) : list CodeBundle := js_sort newer (List.filter (of_build id) (fw_bundles d)).

Definition plan_at (d : FwDb) (id : string) (v : nat) : option PlanRow := List.find (at_version id v) (pd_plans (fw_plans d)).
Definition spec_at (d : FwDb) (id : string) (v : nat) : option SpecVersion :=
  List.find (fun s => (sv_buildId s ==s id) && Nat.eqb (sv_version s) v) (t_specs (pd_db (fw_plans d))).
Definition current_spec_version (d : FwDb) (id : string) : option nat := sv_version <$> currentSpec (fw_plans d) id.

(** The accepted plan of a version with its spec, when that is the current one. *)
Definition accepted_plan (d : FwDb) (id : string) (v : nat) : option (PlanRow * Spec) :=
  match plan_at d id v with
  | Some p =>
      if bool_decide (is_Some (pl_accepted_at p)) && bool_decide (current_spec_version d id = Some (pl_spec_version p))
      then (fun s => (p, sv_data s)) <$> spec_at d id (pl_spec_version p)
      else None
  | None => None
  end.
Definition decode (row : PlanRow) (spec : Spec) : option DecodedPlan := decodePlan sha256 https_url row spec cameraApprovals.
Definition accepted (d : FwDb) (id : string) (v : nat) : result HttpError DecodedPlan :=
  match accepted_plan d id v with
  | None => Err (Http 409 "PLAN_CHANGED")
  | Some (row, spec) => match decode row spec with Some p => Ok p | None => Err (Http 422 "UNSUPPORTED_FIRMWARE") end
  end.

(** ** [POST /v1/builds/:id/code] *)
Definition job_is (f : FirmwareJob -> bool) (b : CodeBundle) : bool := match log_job (cb_log b) with Some j => f j | None => false end.
Definition requested (request_id : string) (b : CodeBundle) : bool := job_is (fun j => jb_request_id j ==s request_id) b.
Definition same_request (body : FirmwareRequest) (b : CodeBundle) : bool :=
  Nat.eqb (cb_plan_version b) (fr_plan_version body) &&
  job_is (fun j => (jb_instruction j ==s default "" (fr_instruction body)) && bool_decide (jb_based_on j = fr_based_on body)) b.
Definition source_of (body : FirmwareRequest) (v : nat) (b : CodeBundle) : bool :=
  Nat.eqb (cb_version b) v && Nat.eqb (cb_plan_version b) (fr_plan_version body) && bool_decide (cb_status b = fw_passed).

Definition interval_for (plan : DecodedPlan) (body : FirmwareRequest) : result HttpError num :=
  match fr_instruction body with
  | Some instruction =>
      match editCandidate (dp_candidate plan) instruction with Some i => Ok i | None => Err (Http 400 "UNSUPPORTED_EDIT") end
  | None => Ok (dp_interval_s plan)
  end.
Definition next_version (previous : list CodeBundle) : nat := S (match previous with b :: _ => cb_version b | [] => 0 end).

Definition create_work (now : Z) (id : string) (body : FirmwareRequest) (identity : string * string) (recheck : result HttpError unit)
    (d : FwDb) : result HttpError (nat * FwDb) :=
  if negb (owned (fw_plans d) id identity.1) then Err (Http 404 "NOT_FOUND")
  else
    let! _ := recheck in
    if negb enabled || negb has_artifacts then Err (Http 503 "COMPILER_UNAVAILABLE")
    else
      let! plan := accepted d id (fr_plan_version body) in
      let previous := bundles_desc d id in
      match List.find (requested (fr_request_id body)) previous with
      | Some duplicate =>
          if same_request body duplicate then Ok (cb_version duplicate, d) else Err (Http 409 "REQUEST_CONFLICT")
      | None =>
          if existsb active_ previous then Err (Http 409 "COMPILE_PENDING")
          else if 100 <=? length previous then Err (Http 409 "VERSION_LIMIT")
          else if negb (bool_decide (is_Some (fr_instruction body) <-> is_Some (fr_based_on body))) then Err (Http 400 "INVALID_EDIT")
          else if negb (opt_ok (fun v => existsb (source_of body v) previous) (fr_based_on body)) then Err (Http 409 "SOURCE_CHANGED")
          else
            let! interval := interval_for plan body in
            if nlt interval (dp_interval_s plan) then Err (Http 422 "POWER_INTERVAL")
            else
              let job := mkJob (fr_request_id body) interval (default "" (fr_instruction body)) (fr_based_on body) 0 in
              if negb (FirmwareJob_ok job) then Err Crash
              else
                let version := next_version previous in
                Ok (version, with_bundles (fw_bundles d ++
                  [mkBundle id version (fr_plan_version body) fw_pending None (Log job None None None) now now]) d)
      end.
Definition create_code (rq : Request) (now : Z) (id : string) (body : FirmwareRequest) (d : FwDb) : result HttpError nat * FwDb :=
  match FirmwareRequest_parse body with
  | Some body =>
      if zod_uuid id then authorized_write sha256 rq (Some (fr_tenant_id body)) (create_work now id body) d
      else (Err (Http 400 "BAD_REQUEST"), d)
  | None => (Err (Http 400 "BAD_REQUEST"), d)
  end.

(** ** [POST /v1/builds/:id/code/:version/retry] *)
Definition update_code (id : string) (v : nat) (f : CodeBundle -> CodeBundle) (l : list CodeBundle) : list CodeBundle :=
  (fun b => if at_code id v b then f b else b) <$> l.
Definition retry_work (now : Z) (id : string) (v : nat) (identity : string * string) (recheck : result HttpError unit)
    (d : FwDb) : result HttpError (unit * FwDb) :=
  if negb (owned (fw_plans d) id identity.1) then Err (Http 404 "NOT_FOUND")
  else
    let! _ := recheck in
    if negb enabled || negb has_artifacts then Err (Http 503 "COMPILER_UNAVAILABLE")
    else
      match List.find (at_code id v) (fw_bundles d) with
      | None => Err (Http 404 "NOT_FOUND")
      | Some row =>
          let! _ := accepted d id (cb_plan_version row) in
          match log_job (cb_log row) with
          | Some job =>
              if negb (bool_decide (cb_status row = fw_failed)) || negb (FirmwareJob_ok job) || (3 <=? jb_attempts job)
              then Err (Http 409 "RETRY_UNAVAILABLE")
              else if existsb active_ (List.filter (of_build id) (fw_bundles d)) then Err (Http 409 "COMPILE_PENDING")
              else Ok (tt, with_bundles (update_code id v
                (fun b => with_state fw_pending (cb_storage_ref b) (Log job None None None) now b) (fw_bundles d)) d)
          | None => Err (Http 409 "RETRY_UNAVAILABLE")
          end
      end.
Definition version_params (id : string) (v : nat) : bool := zod_uuid id && between 1 2147483647 (Z.of_nat v).
Definition retry_code (rq : Request) (now : Z) (id tenant : string) (v : nat) (d : FwDb) : result HttpError unit * FwDb :=
  if version_params id v && zod_uuid tenant then authorized_write sha256 rq (Some tenant) (retry_work now id v) d
  else (Err (Http 400 "BAD_REQUEST"), d).

(** ** The worker ([job.ts]) *)
Definition LEASE_MS : Z := 15 * 60 * 1000.
Definition overdue (now : Z) (b : CodeBundle) : bool := bool_decide (cb_status b = fw_running) && (cb_updated_at b <? now - LEASE_MS)%Z.
Definition attempts_of (b : CodeBundle) : option nat := jb_attempts <$> log_job (cb_log b).

(** The rows whose three attempts are used up fail. *)
Definition set_error (error : string) (l : CompileLog) : CompileLog :=
  match l with Log j lease _ diagnostics => Log j lease (Some error) diagnostics | PassedLog r => PassedLog r end.
Definition expire_leases (now : Z) (d : FwDb) : FwDb :=
  with_bundles ((fun b =>
    if overdue now b && match attempts_of b with Some n => 3 <=? n | None => false end
    then with_state fw_failed (cb_storage_ref b) (set_error "Worker lease expired after three attempts" (cb_log b)) now b
    else b) <$> fw_bundles d) d.

(** The first row to do that no other transaction holds. *)
Definition claimable (now : Z) (b : CodeBundle) : bool :=
  (bool_decide (cb_status b = fw_pending) || overdue now b) && match attempts_of b with Some n => n <? 3 | None => false end.
Definition later_row (a b : CodeBundle) : bool := (cb_created_at b <? cb_created_at a)%Z.
Definition next_row (now : Z) (held : CodeBundle -> bool) (d : FwDb) : option CodeBundle :=
  head (js_sort later_row (List.filter (fun b => claimable now b && negb (held b)) (fw_bundles d))).
Definition claim_log (lease : string) (l : CompileLog) : CompileLog :=
  match log_job l with
  | Some j => Log (mkJob (jb_request_id j) (jb_interval_s j) (jb_instruction j) (jb_based_on j) (S (jb_attempts j))) (Some lease) None None
  | None => l
  end.
Definition claim_bundle (now : Z) (lease : string) (b : CodeBundle) : CodeBundle :=
  with_state fw_running (cb_storage_ref b) (claim_log lease (cb_log b)) now b.

(** The claimed row, with the plan, spec and build it joins. *)
Record ClaimedRow := mkClaimed {
  cr_bundle : CodeBundle;
  cr_plan : PlanRow;
  cr_spec : Spec;
  cr_tenant : option string;
  cr_latest_spec : option nat
}.
Definition join_row (d : FwDb) (b : CodeBundle) : option ClaimedRow :=
  match plan_at d (cb_build_id b) (cb_plan_version b) with
  | Some p =>
      match spec_at d (cb_build_id b) (pl_spec_version p),
            List.find (fun x => b_id x ==s cb_build_id b) (t_builds (pd_db (fw_plans d))) with
      | Some s, Some x => Some (mkClaimed b p (sv_data s) (b_tenantId x) (current_spec_version d (cb_build_id b)))
      | _, _ => None
      end
  | None => None
  end.
Definition claim (now : Z) (lease : string) (held : CodeBundle -> bool) (d : FwDb) : option ClaimedRow * FwDb :=
  match next_row now held d with
  | None => (None, d)
  | Some b =>
      let b' := claim_bundle now lease b in
      (join_row d b', with_bundles (update_code (cb_build_id b) (cb_version b) (claim_bundle now lease) (fw_bundles d)) d)
  end.

Record CompileInput := mkCompileInput {
  ci_build_id : string;
  ci_plan_version : nat;
  ci_code_version : nat;
  ci_interval_s : num;
  ci_numeric : option NumericSelection
}.
Record Compiled := mkCompiled {
  co_manifest : FirmwareManifest;
  co_manifestBytes : string;
  co_manifest_digest : string;
  co_source : string;
  co_source_sha256 : string;
  co_files : list (string * string);
  co_bundle : string;
  co_diagnostics : string
}.

(** Everything before the compiler runs. *)
Definition prepare (row : ClaimedRow) : option (FirmwareJob * DecodedPlan) :=
  match log_job (cb_log (cr_bundle row)) with
  | Some job =>
      if negb (FirmwareJob_ok job) then None
      else if negb (bool_decide (is_Some (cr_tenant row))) || negb (bool_decide (is_Some (pl_accepted_at (cr_plan row)))) ||
              negb (bool_decide (cr_latest_spec row = Some (pl_spec_version (cr_plan row)))) then None
      else
        match decode (cr_plan row) (cr_spec row) with
        | Some plan =>
            if nlt (jb_interval_s job) (dp_interval_s plan) then None
            else
              match renderCandidate (dp_candidate plan) (jb_interval_s job) with
              | Some _ =>
                  match ac_kind (dp_candidate plan) with
                  | camera => if has_camera then Some (job, plan) else None
                  | numeric => Some (job, plan)
                  end
              | None => None
              end
        | None => None
        end
  | None => None
  end.
Definition compile_input (row : ClaimedRow) (job : FirmwareJob) (plan : DecodedPlan) : CompileInput :=
  mkCompileInput (cb_build_id (cr_bundle row)) (cb_plan_version (cr_bundle row)) (cb_version (cr_bundle row)) (jb_interval_s job)
    (ac_numeric (dp_candidate plan)).

Definition file_bytes (name : string) (files : list (string * string)) : option string :=
  snd <$> List.find (fun f => f.1 ==s name) files.
Definition file_matches (files : list (string * string)) (f : FirmwareFile) : bool :=
  match file_bytes (ff_path f) files with
  | Some bytes => (str_len bytes =? ff_size f)%Z && (sha256 bytes ==s ff_sha256 f)
  | None => false
  end.
Definition identity_ok (b : CodeBundle) (job : FirmwareJob) (plan : DecodedPlan) (c : Compiled) : bool :=
  (fm_build_id (co_manifest c) ==s cb_build_id b) && Nat.eqb (fm_plan_version (co_manifest c)) (cb_plan_version b) &&
  Nat.eqb (fm_code_version (co_manifest c)) (cb_version b) &&
  candidateManifestMatches sha256 (dp_candidate plan) (co_manifest c) &&
  bool_decide (serializeFirmwareManifest zod_uuid (co_manifest c) = Some (co_manifestBytes c)) &&
  (co_manifest_digest c ==s sha256 (co_manifestBytes c)) &&
  bool_decide (renderCandidate (dp_candidate plan) (jb_interval_s job) = Some (co_source c)) &&
  (co_source_sha256 c ==s sha256 (co_source c)) &&
  Nat.eqb (length (co_files c)) 3 && forallb (file_matches (co_files c)) (fm_files (co_manifest c)).

Definition storage_prefix (b : CodeBundle) (lease : string) : string :=
  "builds/" ++ cb_build_id b ++ "/code/" ++ show_num (of_nat (cb_version b)) ++ "/" ++ lease.
Definition object_key (prefix name : string) : string := prefix ++ "/" ++ name.
Definition uploads (c : Compiled) : list (string * string) :=
  co_files c ++ [("manifest.json", co_manifestBytes c); ("app.cpp", co_source c); ("firmware.zip", co_bundle c)].

Definition passed_record (job : FirmwareJob) (plan : DecodedPlan) (c : Compiled) : option FirmwarePassedRecord :=
  let r := mkPassed (Some job) (ac_id (dp_candidate plan)) (co_manifest c) (co_manifest_digest c) COMPILER_IMAGE
             (Some (sha256 (co_bundle c))) (co_source_sha256 c) (jb_instruction job) (co_diagnostics c) in
  if FirmwarePassedRecord_ok r then Some r else None.

Definition leased (id : string) (v : nat) (lease : string) (b : CodeBundle) : bool :=
  at_code id v b && bool_decide (cb_status b = fw_running) && bool_decide (log_lease (cb_log b) = Some lease).

(** The publication, under the build's lock. *)
Definition publish (now : Z) (lease : string) (row : ClaimedRow) (job : FirmwareJob) (plan : DecodedPlan) (c : Compiled)
    (passed : FirmwarePassedRecord) (d : FwDb) : option FwDb :=
  let b := cr_bundle row in
  match accepted_plan d (cb_build_id b) (cb_plan_version b) with
  | Some (p, spec) =>
      match decode p spec with
      | Some fresh =>
          if negb (bm_input_digest (dp_metadata fresh) ==s bm_input_digest (dp_metadata plan)) ||
             negb (candidateManifestMatches sha256 (dp_candidate fresh) (co_manifest c)) then None
          else
            match renderCandidate (dp_candidate fresh) (jb_interval_s job) with
            | Some _ =>
                if existsb (leased (cb_build_id b) (cb_version b) lease) (fw_bundles d) then
                  Some (with_bundles ((fun x => if leased (cb_build_id b) (cb_version b) lease x
                    then with_state fw_passed (Some (storage_prefix b lease)) (PassedLog passed) now x else x) <$> fw_bundles d) d)
                else None
            | None => None
            end
      | None => None
      end
  | None => None
  end.

(** What is kept of a failure. *)
Definition SAID : list string := ["Accepted plan"; "This accepted plan"; "Edit violates"; "Compile deadline"; "Compile lease"].
Definition slice_last (n : nat) (s : string) : string := slice_from (String.length s - n) s.
Definition failure_message (message : string) : string :=
  if existsb (fun p => startsWith p message) SAID then message
  else "Firmware compilation failed; inspect the bounded compiler diagnostics and retry".
Definition failure_diagnostics (message : string) : option string :=
  if startsWith "Compile failed:" message then Some (slice_last (Z.to_nat 20000) message) else None.
Definition fail_log (message : string) (l : CompileLog) : CompileLog :=
  match l with
  | Log j lease _ _ => Log j lease (Some (failure_message message)) (failure_diagnostics message)
  | PassedLog r => PassedLog r
  end.
Definition record_failure (now : Z) (lease message : string) (row : ClaimedRow) (d : FwDb) : FwDb :=
  with_bundles ((fun b => if leased (cb_build_id (cr_bundle row)) (cb_version (cr_bundle row)) lease b
    then with_state fw_failed (cb_storage_ref b) (fail_log message (cb_log b)) now b else b) <$> fw_bundles d) d.

(** ** [GET /v1/builds/:id/code/:version/files/:file] *)
Definition FILES : list string := ["manifest.json"; "bootloader.bin"; "partition-table.bin"; "albusforge.bin"; "app.cpp"; "firmware.zip"].
Definition digest_for (file : string) (r : FirmwarePassedRecord) : option string :=
  if file ==s "manifest.json" then Some (pr_manifest_digest r)
  else if file ==s "app.cpp" then Some (pr_source_sha256 r)
  else if file ==s "firmware.zip" then pr_bundle_sha256 r
  else ff_sha256 <$> List.find (fun f => ff_path f ==s file) (fm_files (pr_manifest r)).
Definition download_read (d : FwDb) (id : string) (v : nat) (file : string) (identity : string * string * TenantRole)
    : result HttpError (string * string) :=
  if negb (owned (fw_plans d) id identity.1.1) then Err (Http 404 "NOT_FOUND")
  else
    match List.find (at_code id v) (fw_bundles d) with
    | Some row =>
        match cb_storage_ref row with
        | Some ref =>
            if negb (bool_decide (cb_status row = fw_passed)) then Err (Http 404 "NOT_FOUND")
            else
              match cb_log row with
              | PassedLog r =>
                  if negb (FirmwarePassedRecord_ok r) then Err (Http 503 "ARTIFACT_UNAVAILABLE")
                  else match digest_for file r with
                       | Some digest => Ok (object_key ref file, digest)
                       | None => Err (Http 503 "ARTIFACT_UNAVAILABLE")
                       end
              | Log _ _ _ _ => Err (Http 503 "ARTIFACT_UNAVAILABLE")
              end
        | None => Err (Http 404 "NOT_FOUND")
        end
    | None => Err (Http 404 "NOT_FOUND")
    end.
Definition download (rq : Request) (id : string) (v : nat) (file : string) (d : FwDb) : result HttpError string :=
  if negb (version_params id v && inb file FILES) then Err (Http 400 "BAD_REQUEST")
  else
    let! (key, digest) := authorized_read sha256 rq (download_read d id v file) in
    if negb has_artifacts then Err (Http 503 "ARTIFACT_UNAVAILABLE")
    else
      match get key (fw_objects d) with
      | None => Err Crash
      | Some bytes => if sha256 bytes ==s digest then Ok bytes else Err (Http 503 "ARTIFACT_UNAVAILABLE")
      end.

(** ** [GET /v1/builds/:id/code] *)
Record FirmwareVersion := mkFirmwareVersion {
  fv_version : nat;
  fv_plan_version : nat;
  fv_status : ArtifactStatus;
  fv_current : bool;
  fv_interval_s : option num;
  fv_attempts : nat;
  fv_source : option string;
  fv_previous_source : option string;
  fv_error : option string;
  fv_diagnostics : option string;
  fv_manifest : option FirmwareManifest;
  fv_created_at : Z
}.
Definition FirmwareVersion_ok (v : FirmwareVersion) : bool :=
  (1 <=? fv_version v) && (1 <=? fv_plan_version v) && opt_ok interval_ok (fv_interval_s v) && (fv_attempts v <=? 3) &&
  opt_ok (fun s => str_len s <=? 2000)%Z (fv_source v) && opt_ok (fun s => str_len s <=? 2000)%Z (fv_previous_source v) &&
  opt_ok (fun s => str_len s <=? 1000)%Z (fv_error v) && opt_ok (fun s => str_len s <=? 20000)%Z (fv_diagnostics v) &&
  opt_ok (FirmwareManifest_ok zod_uuid) (fv_manifest v).
Record FirmwarePage := mkFirmwarePage {
  fp_can_edit : bool;
  fp_compiler_available : bool;
  fp_accepted_plan_version : option nat;
  fp_versions : list FirmwareVersion
}.

(** The current plan, and the plans the listed versions were made from. *)
Definition current_accepted (d : FwDb) (id : string) : option nat :=
  pl_version <$> List.find (fun p => of_build_plan id p && bool_decide (is_Some (pl_accepted_at p)) &&
    bool_decide (current_spec_version d id = Some (pl_spec_version p))) (pd_plans (fw_plans d)).
Definition source_plan (d : FwDb) (id : string) (v : nat) : option DecodedPlan :=
  match plan_at d id v with
  | Some p => match spec_at d id (pl_spec_version p) with Some s => decode p (sv_data s) | None => None end
  | None => None
  end.
Definition source_for (d : FwDb) (id : string) (v : nat) (interval : num) : option string :=
  match source_plan d id v with Some p => renderCandidate (dp_candidate p) interval | None => None end.
Definition valid_job (b : CodeBundle) : option FirmwareJob :=
  match log_job (cb_log b) with Some j => if FirmwareJob_ok j then Some j else None | None => None end.
(** The job's [based_on] names its row among those listed; 0 is falsy. *)
Definition prior_of (rows : list CodeBundle) (b : CodeBundle) : option CodeBundle :=
  match valid_job b ≫= jb_based_on with
  | Some v => List.find (fun other => Nat.eqb (cb_version other) v) rows
  | None => None
  end.
Definition log_error (l : CompileLog) : option string := match l with Log _ _ e _ => e | PassedLog _ => None end.
Definition log_diagnostics (l : CompileLog) : option string :=
  match l with Log _ _ _ x => x | PassedLog r => Some (pr_diagnostics r) end.
Definition job_source (d : FwDb) (id : string) (b : CodeBundle) : option string :=
  match valid_job b with Some j => source_for d id (cb_plan_version b) (jb_interval_s j) | None => None end.

Definition version_of (d : FwDb) (id : string) (current : option nat) (rows : list CodeBundle) (b : CodeBundle)
    : result HttpError FirmwareVersion :=
  let! manifest :=
    (if bool_decide (cb_status b = fw_passed) then
       match cb_log b with
       | PassedLog r =>
           if negb (FirmwarePassedRecord_ok r) then Err (Http 503 "ARTIFACT_UNAVAILABLE")
           else if negb (pr_candidate_id r ==s fm_profile_id (pr_manifest r)) ||
                   match source_plan d id (cb_plan_version b) with
                   | Some p => negb (candidateManifestMatches sha256 (dp_candidate p) (pr_manifest r))
                   | None => false
                   end
           then Err (Http 503 "ARTIFACT_UNAVAILABLE")
           else Ok (Some (pr_manifest r))
       | Log _ _ _ _ => Err (Http 503 "ARTIFACT_UNAVAILABLE")
       end
     else Ok None) in
  Ok (mkFirmwareVersion (cb_version b) (cb_plan_version b) (cb_status b) (bool_decide (current = Some (cb_plan_version b)))
        (jb_interval_s <$> valid_job b) (match valid_job b with Some j => jb_attempts j | None => 0 end)
        (job_source d id b) (prior_of rows b ≫= job_source d id)
        (slice_to 1000 <$> log_error (cb_log b)) (slice_last (Z.to_nat 20000) <$> log_diagnostics (cb_log b))
        manifest (cb_created_at b)).
Fixpoint versions_of (d : FwDb) (id : string) (current : option nat) (rows l : list CodeBundle) : result HttpError (list FirmwareVersion) :=
  match l with
  | [] => Ok []
  | b :: l =>
      let! v := version_of d id current rows b in
      let! vs := versions_of d id current rows l in
      Ok (v :: vs)
  end.
Definition page_read (d : FwDb) (id : string) (identity : string * string * TenantRole) : result HttpError FirmwarePage :=
  if negb (owned (fw_plans d) id identity.1.1) then Err (Http 404 "NOT_FOUND")
  else
    let current := current_accepted d id in
    let available := enabled && has_artifacts &&
      match current with Some v => match accepted d id v with Ok _ => true | Err _ => false end | None => true end in
    let rows := take 20 (bundles_desc d id) in
    let! versions := versions_of d id current rows rows in
    if forallb FirmwareVersion_ok versions && opt_ok (fun v => 1 <=? v) current
    then Ok (mkFirmwarePage (may_write identity.2) available current versions)
    else Err Crash.
Definition firmware_page (rq : Request) (id : string) (d : FwDb) : result HttpError FirmwarePage :=
  if zod_uuid id then authorized_read sha256 rq (page_read d id) else Err (Http 400 "BAD_REQUEST").
End Firmware.
