(* ===== verification/FirmwareSpec.v ===== *)
(** * What firmware versions promise

    The gateway's routes, the plan store and any number of workers interleave
    ([wstep]): a worker claims, compiles, uploads one file after another and
    publishes, or fails or stops anywhere. Versions, attempts and requests stay
    in order ([firmware_disciplined]); what passed is what the accepted plan
    asked for ([passed_from_plan]), downloads whole for ever
    ([passed_downloads]); the page always loads ([firmware_page_loads]); a
    repeated request is answered alike ([request_repeated]) and no version is
    stuck ([no_version_stuck]). [run_once] is a worker's run that nothing
    disturbs, as one function. *)
From stdpp Require Import gmap relations.
From S2P Require Import Prelude JsString Regex JsNumber JsNumberFacts Part Assembly MatcherTypes Json Spec Solver Db Auth Cookies Access Http Plans PlansSpec.
From S2P Require Import NarrowSearch Telemetry Candidate CandidateSpec Firmware.
#[local] Open Scope string_scope.
#[local] Open Scope list_scope.
#[local] Open Scope nat_scope.
#[local] Arguments Nat.leb : simpl never.

Section FirmwareSpec.
Context (sha256 : string -> string) (https_url zod_uuid : string -> bool) (catalogue : ReviewedPlanCatalogue).
Context (enabled has_artifacts : bool) (cameraApprovals : list CameraPlanApproval) (has_camera : bool).

#[local] Abbreviation decode := (Firmware.decode sha256 https_url cameraApprovals).
#[local] Abbreviation accepted := (Firmware.accepted sha256 https_url cameraApprovals).
#[local] Abbreviation create_code := (Firmware.create_code sha256 https_url zod_uuid enabled has_artifacts cameraApprovals).
#[local] Abbreviation create_work := (Firmware.create_work sha256 https_url zod_uuid enabled has_artifacts cameraApprovals).
#[local] Abbreviation retry_code := (Firmware.retry_code sha256 https_url zod_uuid enabled has_artifacts cameraApprovals).
#[local] Abbreviation retry_work := (Firmware.retry_work sha256 https_url zod_uuid enabled has_artifacts cameraApprovals).
#[local] Abbreviation prepare := (Firmware.prepare sha256 https_url zod_uuid cameraApprovals has_camera).
#[local] Abbreviation identity_ok := (Firmware.identity_ok sha256 zod_uuid).
#[local] Abbreviation passed_record := (Firmware.passed_record sha256 zod_uuid).
#[local] Abbreviation publish := (Firmware.publish sha256 https_url cameraApprovals).
#[local] Abbreviation job_ok := (FirmwareJob_ok zod_uuid).

(** ** The world *)
Inductive Stage :=
| Claimed (row : ClaimedRow)
| Uploading (row : ClaimedRow) (job : FirmwareJob) (plan : DecodedPlan) (c : Compiled) (left_ : list (string * string))
| Failing (row : ClaimedRow) (message : string).
Definition stage_row (s : Stage) : ClaimedRow := match s with Claimed r | Uploading r _ _ _ _ | Failing r _ => r end.

(** Workers by their leases, the leases ever drawn, and the worker whose
    session holds the advisory lock. *)
Record World := mkWorld {
  wo_db : FwDb;
  wo_workers : gmap string Stage;
  wo_used : gset string;
  wo_lock : option string
}.
Definition with_db (d : FwDb) (w : World) : World := mkWorld d (wo_workers w) (wo_used w) (wo_lock w).
Definition set_worker (lease : string) (s : Stage) (w : World) : World :=
  mkWorld (wo_db w) (<[lease := s]> (wo_workers w)) (wo_used w) (wo_lock w).
Definition end_worker (lease : string) (w : World) : World :=
  mkWorld (wo_db w) (delete lease (wo_workers w)) (wo_used w) (wo_lock w).
Definition claimed (lease : string) (r : option ClaimedRow * FwDb) (w : World) : World :=
  match r.1 with
  | Some row => mkWorld r.2 (<[lease := Claimed row]> (wo_workers w)) ({[lease]} ∪ wo_used w) (Some lease)
  | None => mkWorld r.2 (wo_workers w) ({[lease]} ∪ wo_used w) None
  end.
Definition with_objects (o : gmap string string) (d : FwDb) : FwDb := mkFw (fw_plans d) (fw_bundles d) o.
Definition with_plan_db (p : PlanDb) (d : FwDb) : FwDb := mkFw p (fw_bundles d) (fw_objects d).
Definition key_of (row : ClaimedRow) (lease name : string) : string := object_key (storage_prefix (cr_bundle row) lease) name.

(** The plan store, and everything else that writes its tables: specs are only
    added. *)
Inductive plan_step (d : PlanDb) : PlanDb -> Prop :=
| ps_solve rq now id expected v : plan_step d (solve_plans sha256 https_url zod_uuid catalogue rq now id expected v d).2
| ps_accept rq now id expected v sv : plan_step d (accept_plan sha256 https_url zod_uuid catalogue rq now id expected v sv d).2
| ps_tables db parts compat ext :
    t_specs db = t_specs (pd_db d) ++ ext -> plan_step d (mkPlanDb db (pd_plans d) parts compat).

Inductive wstep (w : World) : World -> Prop :=
| ws_create rq now id body : wstep w (with_db (create_code rq now id body (wo_db w)).2 w)
| ws_retry rq now id tenant v : wstep w (with_db (retry_code rq now id tenant v (wo_db w)).2 w)
| ws_plans p : plan_step (fw_plans (wo_db w)) p -> wstep w (with_db (with_plan_db p (wo_db w)) w)
| ws_expire now : wstep w (with_db (expire_leases now (wo_db w)) w)
(* a run takes the lock and claims a row under a lease never drawn before *)
| ws_claim now lease held :
    wo_lock w = None -> lease ∉ wo_used w -> wstep w (claimed lease (claim now lease held (wo_db w)) w)
| ws_lost : wstep w (mkWorld (wo_db w) (wo_workers w) (wo_used w) None)
(* the compiler's answer passes the worker's checks *)
| ws_compiled lease row job plan c :
    wo_workers w !! lease = Some (Claimed row) -> prepare row = Some (job, plan) -> identity_ok (cr_bundle row) job plan c = true ->
    wstep w (set_worker lease (Uploading row job plan c (uploads c)) w)
| ws_put lease row job plan c name bytes left_ o :
    wo_workers w !! lease = Some (Uploading row job plan c ((name, bytes) :: left_)) ->
    put (key_of row lease name) bytes (fw_objects (wo_db w)) = Some o ->
    wstep w (set_worker lease (Uploading row job plan c left_) (with_db (with_objects o (wo_db w)) w))
(* stored, but the worker is told otherwise *)
| ws_put_unsure lease row job plan c name bytes left_ o message :
    wo_workers w !! lease = Some (Uploading row job plan c ((name, bytes) :: left_)) ->
    put (key_of row lease name) bytes (fw_objects (wo_db w)) = Some o ->
    wstep w (set_worker lease (Failing row message) (with_db (with_objects o (wo_db w)) w))
(* the transaction of the session that holds the lock *)
| ws_publish now lease row job plan c passed d :
    wo_workers w !! lease = Some (Uploading row job plan c []) -> wo_lock w = Some lease ->
    passed_record job plan c = Some passed -> publish now lease row job plan c passed (wo_db w) = Some d ->
    wstep w (end_worker lease (with_db d w))
| ws_publish_unsure now lease row job plan c passed d message :
    wo_workers w !! lease = Some (Uploading row job plan c []) -> wo_lock w = Some lease ->
    passed_record job plan c = Some passed -> publish now lease row job plan c passed (wo_db w) = Some d ->
    wstep w (set_worker lease (Failing row message) (with_db d w))
(* anything a worker does may throw, and its process may stop *)
| ws_fails lease s message : wo_workers w !! lease = Some s -> wstep w (set_worker lease (Failing (stage_row s) message) w)
| ws_record now lease row message :
    wo_workers w !! lease = Some (Failing row message) ->
    wstep w (end_worker lease (with_db (record_failure now lease message row (wo_db w)) w))
| ws_stops lease : wstep w (end_worker lease w).

Inductive wreachable : World -> Prop :=
| wr_start db parts compat : wreachable (mkWorld (mkFw (mkPlanDb db [] parts compat) [] ∅) ∅ ∅ None)
| wr_step w w' : wreachable w -> wstep w w' -> wreachable w'.

(** ** What only grows *)
Definition evolves_log (l l' : CompileLog) : Prop :=
  exists j j', log_job l = Some j /\ log_job l' = Some j' /\ jb_request_id j' = jb_request_id j /\ jb_interval_s j' = jb_interval_s j /\
    jb_instruction j' = jb_instruction j /\ jb_based_on j' = jb_based_on j /\ jb_attempts j <= jb_attempts j'.
(** A version later: its request is fixed, and once it passed all of it is. *)
Definition evolves (b b' : CodeBundle) : Prop :=
  b' = b \/ (cb_status b <> fw_passed /\ cb_build_id b' = cb_build_id b /\ cb_version b' = cb_version b /\
    cb_plan_version b' = cb_plan_version b /\ cb_created_at b' = cb_created_at b /\ evolves_log (cb_log b) (cb_log b')).
#[export] Instance evolves_preorder : PreOrder evolves.
Proof.
  split; [by left|]. intros a b c Hab [->|Hbc]; [done|]. destruct Hab as [->|(N & E1 & E2 & E3 & E4 & (j & j' & J))]; [by right|].
  right. destruct Hbc as (N' & F1 & F2 & F3 & F4 & (k & k' & K)). split_and!; try congruence.
  - destruct J as (J1 & J2 & J3 & J4 & J5 & J6 & J7), K as (K1 & K2 & K3 & K4 & K5 & K6 & K7).
    rewrite J2 in K1. injection K1 as ->. exists j, k'. split_and!; try congruence. lia.
Qed.

Lemma evolves_ids b b' : evolves b b' -> cb_build_id b' = cb_build_id b /\ cb_version b' = cb_version b /\ cb_plan_version b' = cb_plan_version b.
Proof. by intros [->|(_ & ? & ? & ? & _)]. Qed.

Record grows (d d' : FwDb) : Prop := {
  gr_plans : extended later (pd_plans (fw_plans d)) (pd_plans (fw_plans d'));
  gr_specs : extended eq (t_specs (pd_db (fw_plans d))) (t_specs (pd_db (fw_plans d')));
  gr_objects : fw_objects d ⊆ fw_objects d'
}.
#[export] Instance grows_preorder : PreOrder grows.
Proof.
  split; [by intros d; split|]. intros a b c [] []. split; by etransitivity.
Qed.

Lemma later_at id v r r' : later r r' -> at_version id v r' = at_version id v r.
Proof. by intros [->|(_ & now & by_ & ->)]. Qed.

Lemma accepted_stays r r' : later r r' -> is_Some (pl_accepted_at r) -> r' = r.
Proof. intros [->|(N & _)] [x Hx]; [done|congruence]. Qed.

Lemma plan_at_grows d d' id v p : grows d d' -> plan_at d id v = Some p -> is_Some (pl_accepted_at p) -> plan_at d' id v = Some p.
Proof.
  intros [H _ _] Hp Ha. destruct (extended_find later (at_version id v) _ _ p (later_at id v) H Hp) as (p' & Hp' & Hl).
  unfold plan_at. rewrite Hp'. f_equal. by apply accepted_stays.
Qed.

Lemma spec_at_grows d d' id v s : grows d d' -> spec_at d id v = Some s -> spec_at d' id v = Some s.
Proof.
  intros [_ H _] Hs. destruct (extended_find eq _ _ _ s (fun a b (E : a = b) => eq_ind _ (fun b => _ b = _ a) eq_refl b E) H Hs) as (s' & Hs' & <-).
  exact Hs'.
Qed.

Lemma get_grows d d' key bytes : grows d d' -> get key (fw_objects d) = Some bytes -> get key (fw_objects d') = Some bytes.
Proof.
  intros [_ _ H]. unfold get. destruct (valid key); [|done]. destruct (fw_objects d !! key) as [x|] eqn:E; [|done].
  by rewrite (lookup_weaken _ _ _ _ E H).
Qed.

Lemma put_get key bytes o o' : put key bytes o = Some o' -> get key o' = Some bytes /\ o ⊆ o'.
Proof.
  unfold put, get. destruct (6 * 1024 * 1024 <? str_len bytes)%Z eqn:E1; [done|]. simpl. destruct (valid key); [|done]. simpl.
  destruct (o !! key) eqn:E; [done|]. intros [= <-]. rewrite lookup_insert_eq, E1. split; [done|]. by apply insert_subseteq.
Qed.

(** ** What every version carries *)
(** The accepted plan a version was asked from, with its interval within it. *)
Definition planned (d : FwDb) (b : CodeBundle) (j : FirmwareJob) (p : PlanRow) (plan : DecodedPlan) : Prop :=
  exists s, plan_at d (cb_build_id b) (cb_plan_version b) = Some p /\ is_Some (pl_accepted_at p) /\
    spec_at d (cb_build_id b) (pl_spec_version p) = Some s /\ decode p (sv_data s) = Some plan /\
    job_ok j = true /\ nlt (jb_interval_s j) (dp_interval_s plan) = false /\ is_Some (renderCandidate (dp_candidate plan) (jb_interval_s j)) /\
    fin (jb_interval_s j).
(** The files of a version that passed are stored. *)
Definition compiled_from (d : FwDb) (b : CodeBundle) (r : FirmwarePassedRecord) : Prop :=
  exists j p plan c lease, planned d b j p plan /\ identity_ok b j plan c = true /\ passed_record j plan c = Some r /\
    cb_storage_ref b = Some (storage_prefix b lease) /\
    forall name bytes, (name, bytes) ∈ uploads c -> get (object_key (storage_prefix b lease) name) (fw_objects d) = Some bytes.
Definition state_ok (d : FwDb) (b : CodeBundle) : Prop :=
  match cb_status b, cb_log b with
  | fw_pending, Log j None _ _ => jb_attempts j <= 2
  | fw_running, Log j (Some lease) _ _ => 1 <= jb_attempts j
  | fw_failed, Log _ _ _ _ => True
  | fw_passed, PassedLog r => compiled_from d b r
  | _, _ => False
  end.
Record sound (d : FwDb) (b : CodeBundle) : Prop := {
  so_ids : zod_uuid (cb_build_id b) = true /\ 1 <= cb_version b /\ 1 <= cb_plan_version b;
  so_plan : exists j p plan, log_job (cb_log b) = Some j /\ planned d b j p plan;
  so_state : state_ok d b
}.

Lemma planned_grows d d' b j p plan : grows d d' -> planned d b j p plan -> planned d' b j p plan.
Proof.
  intros Hg (s & H1 & H2 & H3 & H4). exists s. split_and!; [by apply (plan_at_grows d d')|done|by apply (spec_at_grows d d')|apply H4..].
Qed.
Lemma compiled_grows d d' b r : grows d d' -> compiled_from d b r -> compiled_from d' b r.
Proof.
  intros Hg (j & p & plan & c & lease & H1 & H2 & H3 & H4 & H5). exists j, p, plan, c, lease.
  split_and!; [by apply (planned_grows d d')|done..|]. intros name bytes Hn. apply (get_grows d d' _ _ Hg). auto.
Qed.
Lemma sound_grows d d' b : grows d d' -> sound d b -> sound d' b.
Proof.
  intros Hg [H1 (j & p & plan & Hj & Hp) H3]. split; [done| |].
  - exists j, p, plan. split; [done|by apply (planned_grows d d')].
  - unfold state_ok in *. destruct (cb_status b), (cb_log b) as [? [] ? ?|]; try done. by apply (compiled_grows d d').
Qed.
(** Only the ids of a version matter to its plan. *)
Lemma planned_ids d b b' j p plan : cb_build_id b' = cb_build_id b -> cb_plan_version b' = cb_plan_version b ->
  planned d b j p plan -> planned d b' j p plan.
Proof. unfold planned. by intros -> ->. Qed.

Lemma sound_evolves d b b' : sound d b -> evolves b b' -> state_ok d b' ->
  (forall j, log_job (cb_log b') = Some j -> jb_attempts j <= 3) -> sound d b'.
Proof.
  intros [S1 (j & p & plan & Sj & Sp) S3] E Hst Hat. destruct (evolves_ids _ _ E) as (E1 & E2 & E3).
  split; [by rewrite E1, E2, E3| |done].
  destruct E as [->|(_ & _ & _ & _ & _ & (j1 & j' & L1 & L2 & L3 & L4 & L5 & L6 & L7))]; [by exists j, p, plan|].
  rewrite Sj in L1. injection L1 as <-. exists j', p, plan. split; [done|].
  apply (planned_ids d b); [done..|]. destruct Sp as (s & P1 & P2 & P3 & P4 & P5 & P6). exists s. rewrite L4. split_and!; try done; try apply P6.
  unfold FirmwareJob_ok in *. rewrite L3, L4, L5, L6. apply andb_true_iff in P5 as [-> _]. simpl. apply Nat.leb_le. auto.
Qed.

(** ** The order of a build's versions *)
Definition versions_of_build (id : string) (l : list CodeBundle) : list nat := cb_version <$> List.filter (of_build id) l.
Definition request_of (b : CodeBundle) : option string := jb_request_id <$> log_job (cb_log b).
Record ordered (l : list CodeBundle) : Prop := {
  or_versions : forall id, exists n, n <= 100 /\ versions_of_build id l = seq 1 n;
  or_active : forall id, length (List.filter active_ (List.filter (of_build id) l)) <= 1;
  or_requests : forall id, NoDup (request_of <$> List.filter (of_build id) l)
}.

Lemma evolves_request b b' : evolves b b' -> is_Some (log_job (cb_log b)) -> request_of b' = request_of b.
Proof.
  intros [->|(_ & _ & _ & _ & _ & (j & j' & H1 & H2 & H3 & _))] _; [done|]. unfold request_of. rewrite H1, H2. simpl. by rewrite H3.
Qed.

Lemma filter_map {A} (p : A -> bool) (f : A -> A) l : (forall x, x ∈ l -> p (f x) = p x) -> List.filter p (f <$> l) = f <$> List.filter p l.
Proof.
  induction l as [|x l IH]; intros H; [done|]. csimpl. rewrite (H x) by left.
  rewrite IH by (intros y Hy; apply H; by right). by destruct (p x).
Qed.
Lemma filter_map_length {A} (p q : A -> bool) (f : A -> A) l : (forall x, x ∈ l -> p (f x) = true -> q x = true) ->
  length (List.filter p (f <$> l)) <= length (List.filter q l).
Proof.
  induction l as [|x l IH]; intros H; [done|]. csimpl. specialize (IH (fun y Hy => H y (list_elem_of_further _ _ _ Hy))).
  destruct (p (f x)) eqn:E; [rewrite (H x ltac:(left) E); simpl; lia|]. destruct (q x); simpl; lia.
Qed.

(** Rewriting rows in place keeps the order, when no build gets two active ones. *)
Lemma ordered_map f l : ordered l -> (forall b, b ∈ l -> is_Some (log_job (cb_log b))) -> (forall b, b ∈ l -> evolves b (f b)) ->
  (forall id, length (List.filter active_ (f <$> List.filter (of_build id) l)) <= 1) -> ordered (f <$> l).
Proof.
  intros [H1 H2 H3] Hj Hev Hact.
  assert (Hof : forall id b, b ∈ l -> of_build id (f b) = of_build id b).
  { intros id b Hb. unfold of_build. by destruct (evolves_ids _ _ (Hev b Hb)) as (-> & _). }
  assert (Hin : forall id b, b ∈ List.filter (of_build id) l -> b ∈ l) by (intros id b [? _]%elem_of_listfilter; done).
  split; intros id; try unfold versions_of_build; rewrite (filter_map (of_build id)) by auto.
  - destruct (H1 id) as (n & Hn & E). exists n. split; [done|]. rewrite <- E. unfold versions_of_build.
    rewrite <- list_fmap_compose. apply list_fmap_ext. intros i b Hb%list_elem_of_lookup_2. apply evolves_ids, Hev. by eapply Hin.
  - apply Hact.
  - rewrite <- list_fmap_compose. erewrite list_fmap_ext; [exact (H3 id)|]. intros i b Hb%list_elem_of_lookup_2%Hin.
    simpl. apply evolves_request; auto.
Qed.

Lemma at_code_iff id v b : at_code id v b = true <-> cb_build_id b = id /\ cb_version b = v.
Proof. unfold at_code, of_build. by rewrite andb_true_iff, String.eqb_eq, Nat.eqb_eq. Qed.
Lemma leased_iff id v lease b :
  leased id v lease b = true <-> cb_build_id b = id /\ cb_version b = v /\ cb_status b = fw_running /\ log_lease (cb_log b) = Some lease.
Proof. unfold leased. rewrite !andb_true_iff, at_code_iff, !bool_decide_eq_true. split; [intros [[[] ?] ?]|intros (? & ? & ? & ?)]; done. Qed.
Lemma active_iff b : active_ b = true <-> cb_status b = fw_pending \/ cb_status b = fw_running.
Proof. unfold active_. by rewrite orb_true_iff, !bool_decide_eq_true. Qed.

Lemma at_code_unique l id v b b' : ordered l -> b ∈ l -> b' ∈ l -> at_code id v b = true -> at_code id v b' = true -> b = b'.
Proof.
  intros [H _ _] Hb Hb' [E1 E2]%at_code_iff [E3 E4]%at_code_iff. destruct (H id) as (n & _ & Hn).
  apply (NoDup_fmap_elem cb_version (List.filter (of_build id) l)).
  - fold (versions_of_build id l). rewrite Hn. apply NoDup_seq.
  - apply elem_of_listfilter. split; [done|]. by apply String.eqb_eq.
  - apply elem_of_listfilter. split; [done|]. by apply String.eqb_eq.
  - congruence.
Qed.

(** ** The invariant *)
Definition claim_ok (d : FwDb) (lease : string) (row : ClaimedRow) : Prop :=
  let b := cr_bundle row in
  (exists s, plan_at d (cb_build_id b) (cb_plan_version b) = Some (cr_plan row) /\ is_Some (pl_accepted_at (cr_plan row)) /\
    spec_at d (cb_build_id b) (pl_spec_version (cr_plan row)) = Some s /\ sv_data s = cr_spec row) /\
  forall x, x ∈ fw_bundles d -> leased (cb_build_id b) (cb_version b) lease x = true ->
    log_job (cb_log x) = log_job (cb_log b) /\ cb_plan_version x = cb_plan_version b.
Definition uploaded (d : FwDb) (lease : string) (s : Stage) : Prop :=
  match s with
  | Uploading row job plan c left_ =>
      prepare row = Some (job, plan) /\ identity_ok (cr_bundle row) job plan c = true /\
      exists done_, uploads c = done_ ++ left_ /\
        forall name bytes, (name, bytes) ∈ done_ -> get (key_of row lease name) (fw_objects d) = Some bytes
  | _ => True
  end.

Record inv (w : World) : Prop := {
  in_plans : Disciplined https_url zod_uuid (pd_plans (fw_plans (wo_db w)));
  in_sound : forall b, b ∈ fw_bundles (wo_db w) -> sound (wo_db w) b;
  in_ordered : ordered (fw_bundles (wo_db w));
  in_leases : forall b lease, b ∈ fw_bundles (wo_db w) -> log_lease (cb_log b) = Some lease -> lease ∈ wo_used w;
  in_workers : forall lease s, wo_workers w !! lease = Some s ->
    lease ∈ wo_used w /\ claim_ok (wo_db w) lease (stage_row s) /\ uploaded (wo_db w) lease s;
  in_enabled : fw_bundles (wo_db w) <> [] -> enabled = true /\ has_artifacts = true
}.

(** What a worker relies on stays as long as its own rows do. *)
Definition rows_kept (used : gset string) (l l' : list CodeBundle) : Prop :=
  forall x' id v lease, x' ∈ l' -> lease ∈ used -> leased id v lease x' = true ->
    exists x, x ∈ l /\ leased id v lease x = true /\ log_job (cb_log x') = log_job (cb_log x) /\ cb_plan_version x' = cb_plan_version x.

Lemma worker_kept used d d' lease s : lease ∈ used -> grows d d' -> rows_kept used (fw_bundles d) (fw_bundles d') ->
  claim_ok d lease (stage_row s) /\ uploaded d lease s -> claim_ok d' lease (stage_row s) /\ uploaded d' lease s.
Proof.
  intros Hu Hg Hk [[(sp & H1 & H2 & H3 & H4) H5] H6]. split.
  - split; [exists sp; split_and!; [by apply (plan_at_grows d d')|done|by apply (spec_at_grows d d')|done]|].
    intros x' Hx' Hl. destruct (Hk x' _ _ _ Hx' Hu Hl) as (x & Hx & Hlx & -> & ->). by apply H5.
  - destruct s as [|row job plan c left_|]; [done| |done]. destruct H6 as (P1 & P2 & done_ & P3 & P4). split_and!; [done..|].
    exists done_. split; [done|]. intros name bytes Hn. apply (get_grows d d' _ _ Hg). auto.
Qed.

Lemma grows_rows d l : grows d (with_bundles l d).
Proof. by split. Qed.

(** New rows for the old ones. *)
Lemma inv_rows w l : inv w -> ordered l ->
  (forall b, b ∈ l -> sound (wo_db w) b /\ forall lease, log_lease (cb_log b) = Some lease -> lease ∈ wo_used w) ->
  rows_kept (wo_used w) (fw_bundles (wo_db w)) l -> (l <> [] -> enabled = true /\ has_artifacts = true) ->
  inv (with_db (with_bundles l (wo_db w)) w).
Proof.
  intros [I1 I2 I3 I4 I5 I6] Ho Hs Hk He. split; simpl; try done.
  - intros b Hb. apply (sound_grows (wo_db w)); [apply grows_rows|]. by apply Hs.
  - intros b lease Hb. by apply Hs.
  - intros lease s Hw. destruct (I5 lease s Hw) as [Hu H]. split; [done|].
    by apply (worker_kept (wo_used w) (wo_db w)).
Qed.

(** Rows rewritten in place, none activated and none leased anew. *)
Lemma inv_map w f : inv w ->
  (forall b, b ∈ fw_bundles (wo_db w) -> f b = b \/
    (evolves b (f b) /\ state_ok (wo_db w) (f b) /\ active_ (f b) = false /\
     (log_lease (cb_log (f b)) = None \/ log_lease (cb_log (f b)) = log_lease (cb_log b)) /\
     (forall j, log_job (cb_log (f b)) = Some j -> jb_attempts j <= 3))) ->
  inv (with_db (with_bundles (f <$> fw_bundles (wo_db w)) (wo_db w)) w) /\
  extended evolves (fw_bundles (wo_db w)) (f <$> fw_bundles (wo_db w)).
Proof.
  intros Hw Hf. pose proof Hw as [I1 I2 I3 I4 I5 I6].
  assert (Hev : forall b, b ∈ fw_bundles (wo_db w) -> evolves b (f b)).
  { intros b Hb. destruct (Hf b Hb) as [->|[? _]]; done. }
  split; [|exists (f <$> fw_bundles (wo_db w)), []; rewrite app_nil_r; split; [done|]; apply Forall2_fmap_r, Forall_Forall2_diag, Forall_forall; auto].
  assert (Hj : forall b, b ∈ fw_bundles (wo_db w) -> is_Some (log_job (cb_log b))).
  { intros b Hb. destruct (so_plan _ _ (I2 b Hb)) as (j & _ & _ & Hj & _). eauto. }
  apply inv_rows; [done| | | |].
  - apply ordered_map; [done..|]. intros id. etransitivity; [|exact (or_active _ I3 id)]. apply filter_map_length.
    intros b [Hb _]%elem_of_listfilter. destruct (Hf b Hb) as [->|(_ & _ & -> & _)]; done.
  - intros x (b & -> & Hb)%list_elem_of_fmap. split.
    + destruct (Hf b Hb) as [->|(E & Hst & _ & _ & Hat)]; [auto|]. by apply (sound_evolves (wo_db w) b); [apply I2|..].
    + intros lease. destruct (Hf b Hb) as [->|(_ & _ & _ & [-> | ->] & _)]; [eauto|done|eauto].
  - intros x' id v lease (b & -> & Hb)%list_elem_of_fmap Hu Hl. exists b. split; [done|].
    destruct (Hf b Hb) as [E|(_ & _ & Hact & _)]; [by rewrite E in *|]. exfalso.
    apply leased_iff in Hl as (_ & _ & Hr & _). assert (active_ (f b) = true) by (apply active_iff; auto). congruence.
  - intros Hne. apply I6. intros E. by rewrite E in Hne.
Qed.

(** ** Asking for a version *)
Lemma accepted_spec d id v plan : accepted d id v = Ok plan ->
  exists p s, plan_at d id v = Some p /\ is_Some (pl_accepted_at p) /\ spec_at d id (pl_spec_version p) = Some s /\ decode p (sv_data s) = Some plan.
Proof.
  unfold Firmware.accepted, accepted_plan. destruct (plan_at d id v) as [p|]; [|done].
  case_bool_decide as E1; [|done]. case_bool_decide; [|done]. cbn [andb].
  destruct (spec_at d id (pl_spec_version p)) as [s|] eqn:Es; [|done]. cbn [fmap option_fmap option_map].
  destruct (decode p (sv_data s)) as [q|] eqn:Ed; [|done]. intros [= <-]. by exists p, s.
Qed.

Lemma newest_bundle l id n : versions_of_build id l = seq 1 n ->
  length (List.filter (of_build id) l) = n /\ next_version (js_sort newer (List.filter (of_build id) l)) = S n.
Proof.
  unfold versions_of_build. set (k := List.filter (of_build id) l). intros E.
  assert (Hlen : length k = n) by (apply (f_equal length) in E; by rewrite length_fmap, length_seq in E). split; [done|].
  assert (Hin : forall v, v ∈ cb_version <$> js_sort newer k <-> 1 <= v <= n).
  { intros v. rewrite (js_sort_perm newer k), E, elem_of_seq. lia. }
  assert (Hs : StronglySorted (le_of newer) (js_sort newer k)).
  { eapply (js_sort_sorted newer (fun _ => True)); [|by apply Forall_forall].
    split; [intros x y _ _|intros x y z _ _ _]; unfold le_of, newer; rewrite !Nat.ltb_ge; lia. }
  unfold next_version. destruct (js_sort newer k) as [|b k'].
  - destruct n as [|n]; [done|]. exfalso. assert (H : S n ∈ ([] : list nat)) by (apply Hin; lia). by apply elem_of_nil in H.
  - f_equal. apply StronglySorted_inv in Hs as [_ Hs]. rewrite Forall_forall in Hs.
    assert (Hb : 1 <= cb_version b <= n) by (apply Hin; by left).
    assert (Hn : n ∈ cb_version <$> b :: k') by (apply Hin; lia).
    apply list_elem_of_fmap in Hn as (x & Ex & [->|Hx]%elem_of_cons); [done|]. specialize (Hs x Hx). unfold le_of, newer in Hs.
    apply Nat.ltb_ge in Hs. lia.
Qed.

Definition fresh_bundle (now : Z) (id : string) (v : nat) (body : FirmwareRequest) (interval : num) : CodeBundle :=
  mkBundle id v (fr_plan_version body) fw_pending None
    (Log (mkJob (fr_request_id body) interval (default "" (fr_instruction body)) (fr_based_on body) 0) None None None) now now.

Lemma interval_for_renders plan body i p s : decode p s = Some plan -> interval_for plan body = Ok i ->
  is_Some (renderCandidate (dp_candidate plan) i) /\ fin i.
Proof.
  unfold interval_for. destruct (fr_instruction body) as [x|].
  - destruct (editCandidate _ _) as [j|] eqn:E; [|done]. intros _ [= <-]. split; [by eapply edit_renders|by eapply edit_fin].
  - intros Hd [= <-]. split; [by eapply decoded_renders|by eapply decoded_fin].
Qed.

(** What a request that is served does. *)
Lemma create_work_spec now id body identity recheck d v d' : create_work now id body identity recheck d = Ok (v, d') ->
  exists plan, accepted d id (fr_plan_version body) = Ok plan /\ enabled = true /\ has_artifacts = true /\
    ((exists b, List.find (requested (fr_request_id body)) (bundles_desc d id) = Some b /\ same_request body b = true /\
        v = cb_version b /\ d' = d) \/
     (exists interval, List.find (requested (fr_request_id body)) (bundles_desc d id) = None /\
        existsb active_ (bundles_desc d id) = false /\ length (bundles_desc d id) < 100 /\
        interval_for plan body = Ok interval /\ nlt interval (dp_interval_s plan) = false /\
        v = next_version (bundles_desc d id) /\
        (forall j, log_job (cb_log (fresh_bundle now id v body interval)) = Some j -> job_ok j = true) /\
        d' = with_bundles (fw_bundles d ++ [fresh_bundle now id v body interval]) d)).
Proof.
  unfold Firmware.create_work. destruct (negb (owned _ _ _)); [done|]. destruct recheck; [|done]. simpl.
  destruct enabled, has_artifacts; try done. simpl. destruct (accepted d id (fr_plan_version body)) as [plan|] eqn:Ea; [|done]. simpl.
  cbv zeta. intros H. exists plan. split_and!; [done..|].
  destruct (List.find _ _) as [b|] eqn:Ef.
  - destruct (same_request body b) eqn:Es; [|done]. injection H as <- <-. left. by exists b.
  - right. destruct (existsb active_ _) eqn:Eact; [done|]. destruct (100 <=? length (bundles_desc d id)) eqn:Hl; [done|]. apply Nat.leb_gt in Hl.
    destruct (negb (bool_decide _)); [done|]. destruct (negb (opt_ok _ _)); [done|].
    destruct (interval_for plan body) as [i|]; [|done]. simpl in H. destruct (nlt i _) eqn:En; [done|].
    destruct (job_ok _) eqn:Ej; [|done]. simpl in H. injection H as <- <-. exists i. split_and!; try done. by intros j [= <-].
Qed.

Lemma create_code_spec rq now id body d : (create_code rq now id body d).2 = d \/
  exists identity recheck body' v d', (create_code rq now id body d) = (Ok v, d') /\ zod_uuid id = true /\
    FirmwareRequest_parse zod_uuid body = Some body' /\ create_work now id body' identity recheck d = Ok (v, d').
Proof.
  unfold Firmware.create_code. destruct (FirmwareRequest_parse _ body) as [body'|] eqn:Ep; [|by left].
  destruct (zod_uuid id) eqn:Eu; [|by left].
  destruct (authorized_write _ _ _ _ d) as [[v|e] d'] eqn:E.
  - right. pose proof E as E'. apply authorized_write_ok in E as (identity & E & _). by exists identity, (recheckExpiry sha256 rq (rq_recheck rq)), body', v, d'.
  - left. by apply authorized_write_err in E as ->.
Qed.

Lemma ordered_snoc l b n : ordered l -> versions_of_build (cb_build_id b) l = seq 1 n -> n < 100 -> cb_version b = S n ->
  existsb active_ (List.filter (of_build (cb_build_id b)) l) = false ->
  (forall x, x ∈ l -> cb_build_id x = cb_build_id b -> request_of x <> request_of b) -> ordered (l ++ [b]).
Proof.
  intros [H1 H2 H3] Hv Hn Ev Hact Hreq.
  assert (Hf : forall id, List.filter (of_build id) (l ++ [b]) = List.filter (of_build id) l ++ (if decide (id = cb_build_id b) then [b] else [])).
  { intros id. rewrite List.filter_app. f_equal. simpl. unfold of_build. destruct (decide (id = cb_build_id b)) as [->|N].
    - by rewrite String.eqb_refl.
    - by rewrite (proj2 (String.eqb_neq _ _)) by congruence. }
  split; intros id; try unfold versions_of_build; rewrite Hf; destruct (decide (id = cb_build_id b)) as [->|N];
    rewrite ?app_nil_r; try first [exact (H1 id)|exact (H2 id)|exact (H3 id)].
  - exists (S n). split; [lia|]. unfold versions_of_build in Hv. rewrite fmap_app, Hv, seq_S. csimpl. by rewrite Ev.
  - rewrite List.filter_app. assert (E : List.filter active_ (List.filter (of_build (cb_build_id b)) l) = []).
    { destruct (List.filter active_ _) as [|x k] eqn:E; [done|]. exfalso.
      assert (Hx : x ∈ List.filter active_ (List.filter (of_build (cb_build_id b)) l)) by (rewrite E; left).
      apply elem_of_listfilter in Hx as [Hx Ha]. assert (existsb active_ (List.filter (of_build (cb_build_id b)) l) = true); [|congruence].
      apply existsb_elem. by exists x. }
    rewrite E. simpl. destruct (active_ b); simpl; lia.
  - rewrite fmap_app. apply NoDup_app. split_and!; [apply H3| |apply NoDup_singleton].
    intros r (x & -> & Hx)%list_elem_of_fmap Hr%list_elem_of_singleton. apply elem_of_listfilter in Hx as [Hx Hb].
    apply String.eqb_eq in Hb. by eapply Hreq.
Qed.

Lemma elem_of_desc d id b : b ∈ bundles_desc d id <-> b ∈ fw_bundles d /\ cb_build_id b = id.
Proof. unfold bundles_desc. rewrite elem_of_js_sort, elem_of_listfilter. unfold of_build. by rewrite String.eqb_eq. Qed.

Lemma requested_iff rid b : requested rid b = true <-> request_of b = Some rid.
Proof.
  unfold requested, job_is, request_of. destruct (log_job (cb_log b)) as [j|]; [|done]. simpl. rewrite String.eqb_eq.
  split; [by intros ->|by intros [= ->]].
Qed.

Lemma existsb_desc f d id : existsb f (bundles_desc d id) = existsb f (List.filter (of_build id) (fw_bundles d)).
Proof.
  apply eq_true_iff_eq. rewrite !existsb_elem. setoid_rewrite elem_of_desc. setoid_rewrite elem_of_listfilter.
  unfold of_build. setoid_rewrite String.eqb_eq. done.
Qed.

Lemma inv_create w rq now id body : inv w ->
  inv (with_db (create_code rq now id body (wo_db w)).2 w) /\
  extended evolves (fw_bundles (wo_db w)) (fw_bundles (create_code rq now id body (wo_db w)).2).
Proof.
  intros Hw. destruct (create_code_spec rq now id body (wo_db w)) as [->|(identity & recheck & body' & v & d' & -> & Hid & Hp & H)].
  { split; [by destruct w|done]. }
  apply create_work_spec in H as (plan & Ha & He1 & He2 & [(b & _ & _ & _ & ->)|(i & Hf & Hact & Hlen & Hi & Hn & Hv & Hj & ->)]).
  { split; [by destruct w|done]. }
  pose proof Hw as [I1 I2 I3 I4 I5 I6]. simpl. set (b := fresh_bundle now id v body' i) in *.
  split; [|exists (fw_bundles (wo_db w)), [b]; split; [done|]; by apply Forall_Forall2_diag, Forall_true].
  destruct (or_versions _ I3 id) as (n & _ & Hseq). destruct (newest_bundle _ _ _ Hseq) as [Hk Hnext].
  assert (Hlen' : n < 100) by (unfold bundles_desc in Hlen; rewrite length_js_sort in Hlen; lia).
  unfold bundles_desc in Hv. rewrite Hnext in Hv.
  assert (Hnone : forall x, x ∈ fw_bundles (wo_db w) -> cb_build_id x = id -> request_of x <> Some (fr_request_id body')).
  { intros x Hx Hb Hr%requested_iff. pose proof (List.find_none _ _ Hf x (proj1 (list_elem_of_In _ _) (proj2 (elem_of_desc _ _ _) (conj Hx Hb)))). congruence. }
  apply inv_rows; [done| | | |done].
  - eapply ordered_snoc; [done|exact Hseq|done|exact Hv| |].
    + by rewrite existsb_desc in Hact.
    + intros x Hx Hb. by apply Hnone.
  - intros x [Hx| ->%list_elem_of_singleton]%elem_of_app; [split; eauto|]. split; [|done].
    destruct (accepted_spec _ _ _ _ Ha) as (p & s & A1 & A2 & A3 & A4). split; simpl.
    + split; [done|]. split; [subst v; simpl; lia|]. unfold FirmwareRequest_parse in Hp. destruct (_ && _) eqn:E in Hp; [|done].
      injection Hp as <-. simpl. bools. by apply Nat.leb_le.
    + eexists _, p, plan. split; [done|]. exists s. split_and!; try done; [by apply Hj|..]; simpl; by eapply interval_for_renders.
    + unfold state_ok. simpl. lia.
  - intros x' id' v' lease [Hx| ->%list_elem_of_singleton]%elem_of_app _ Hl; [by exists x'|]. by apply leased_iff in Hl as (_ & _ & ? & _).
Qed.

(** ** Asking again *)
Lemma retry_code_spec rq now id tenant v d : (retry_code rq now id tenant v d).2 = d \/
  exists row job, List.find (at_code id v) (fw_bundles d) = Some row /\ log_job (cb_log row) = Some job /\ cb_status row = fw_failed /\
    job_ok job = true /\ jb_attempts job < 3 /\ existsb active_ (List.filter (of_build id) (fw_bundles d)) = false /\
    (retry_code rq now id tenant v d).2 = with_bundles (update_code id v
      (fun b => with_state fw_pending (cb_storage_ref b) (Log job None None None) now b) (fw_bundles d)) d.
Proof.
  unfold Firmware.retry_code. destruct (_ && _); [|by left].
  destruct (authorized_write _ _ _ _ d) as [[[]|e] d'] eqn:E; [|left; by apply authorized_write_err in E as ->].
  apply authorized_write_ok in E as (identity & E & _). unfold Firmware.retry_work in E.
  destruct (negb (owned _ _ _)); [done|]. destruct (recheckExpiry _ _ _); [|done]. cbn [rbind] in E. destruct (_ || _); [done|].
  destruct (List.find _ _) as [row|] eqn:Ef; [|done]. destruct (accepted d id _); [|done]. cbn [rbind] in E.
  destruct (log_job (cb_log row)) as [job|] eqn:Ej; [|done]. case_bool_decide as Es; [|done]. destruct (job_ok job) eqn:Eo; [|done].
  destruct (3 <=? jb_attempts job) eqn:Ea; [done|]. cbn [negb orb] in E. destruct (existsb active_ _) eqn:Eact; [done|].
  injection E as <-. right. exists row, job. apply Nat.leb_gt in Ea. by split_and!.
Qed.

Lemma filter_at_code l id v : ordered l -> length (List.filter (at_code id v) (List.filter (of_build id) l)) <= 1.
Proof.
  intros Hl. assert (Hnd : NoDup (List.filter (at_code id v) (List.filter (of_build id) l))).
  { apply (NoDup_fmap_1 cb_version). eapply sublist_NoDup; [|apply sublist_fmap, filter_sublist].
    destruct (or_versions _ Hl id) as (n & _ & Hn). unfold versions_of_build in Hn. rewrite Hn. apply NoDup_seq. }
  set (k := List.filter (at_code id v) (List.filter (of_build id) l)) in *.
  assert (Hk : forall x, x ∈ k -> x ∈ l /\ at_code id v x = true).
  { intros x [[Hx _]%elem_of_listfilter Ha]%elem_of_listfilter. done. }
  destruct k as [|a [|b k]]; simpl; [lia..|]. exfalso.
  destruct (Hk a ltac:(left)) as [Ha1 Ha2], (Hk b ltac:(right; left)) as [Hb1 Hb2].
  apply NoDup_cons in Hnd as [Hn _]. apply Hn. rewrite (at_code_unique l id v a b); [left|done..].
Qed.

Lemma update_code_elem id v g l x' : x' ∈ update_code id v g l ->
  exists x, x ∈ l /\ ((at_code id v x = true /\ x' = g x) \/ (at_code id v x = false /\ x' = x)).
Proof.
  unfold update_code. intros (x & -> & Hx)%list_elem_of_fmap. exists x. split; [done|]. destruct (at_code id v x); auto.
Qed.
Lemma update_code_evolves id v g l : (forall x, x ∈ l -> at_code id v x = true -> evolves x (g x)) -> extended evolves l (update_code id v g l).
Proof.
  intros H. exists (update_code id v g l), []. rewrite app_nil_r. split; [done|]. apply Forall2_fmap_r, Forall_Forall2_diag, Forall_forall.
  intros x Hx. simpl. destruct (at_code id v x) eqn:E; [auto|by left].
Qed.

Lemma log_jobs w b : inv w -> b ∈ fw_bundles (wo_db w) -> is_Some (log_job (cb_log b)).
Proof. intros Hw Hb. destruct (so_plan _ _ (in_sound _ Hw b Hb)) as (j & _ & _ & Hj & _). eauto. Qed.

(** Rewriting the one version at a place, its build having no other active one. *)
Lemma ordered_update w id v g : inv w -> (forall x, x ∈ fw_bundles (wo_db w) -> at_code id v x = true -> evolves x (g x)) ->
  (forall x, x ∈ fw_bundles (wo_db w) -> cb_build_id x = id -> active_ x = true -> at_code id v x = true) ->
  ordered (update_code id v g (fw_bundles (wo_db w))).
Proof.
  intros Hw Hg Hact. pose proof (in_ordered _ Hw) as Ho. apply ordered_map; [done|by intros; eapply log_jobs| |].
  - intros x Hx. cbn beta. destruct (at_code id v x) eqn:E; [auto|by left].
  - intros id'. destruct (decide (id' = id)) as [->|N].
    + etransitivity; [|exact (filter_at_code _ id v Ho)]. apply filter_map_length. intros x [Hx Hb%String.eqb_eq]%elem_of_listfilter.
      destruct (at_code id v x) eqn:E; [done|]. intros Ha. by rewrite <- E, Hact.
    + etransitivity; [|exact (or_active _ Ho id')]. apply filter_map_length. intros x [Hx Hb%String.eqb_eq]%elem_of_listfilter.
      destruct (at_code id v x) eqn:E; [|done]. apply at_code_iff in E as [E _]. congruence.
Qed.

Lemma inv_retry w rq now id tenant v : inv w ->
  inv (with_db (retry_code rq now id tenant v (wo_db w)).2 w) /\
  extended evolves (fw_bundles (wo_db w)) (fw_bundles (retry_code rq now id tenant v (wo_db w)).2).
Proof.
  intros Hw. destruct (retry_code_spec rq now id tenant v (wo_db w)) as [->|(row & job & Hf & Hj & Hs & Hok & Hat & Hact & ->)].
  { split; [by destruct w|done]. }
  pose proof Hw as [I1 I2 I3 I4 I5 I6]. simpl. apply List.find_some in Hf as [Hrow%list_elem_of_In Hrv].
  set (g := fun b => with_state fw_pending (cb_storage_ref b) (Log job None None None) now b).
  assert (Hg : forall x, x ∈ fw_bundles (wo_db w) -> at_code id v x = true -> evolves x (g x) /\ x = row).
  { intros x Hx Hxv. assert (x = row) as -> by by eapply at_code_unique. split; [|done]. right. subst g. simpl. split_and!; try done; [congruence|].
    exists job, job. by split_and!. }
  split; [|apply update_code_evolves; intros; by apply Hg]. apply inv_rows; [done| | | |].
  - apply ordered_update; [done|by intros; apply Hg|]. intros x Hx Hb Ha. exfalso.
    assert (existsb active_ (List.filter (of_build id) (fw_bundles (wo_db w))) = true); [|congruence].
    apply existsb_elem. exists x. split; [|done]. apply elem_of_listfilter. split; [done|]. by apply String.eqb_eq.
  - intros x' (x & Hx & [[Hxv ->]|[_ ->]])%update_code_elem; [|split; eauto]. split; [|done].
    destruct (Hg x Hx Hxv) as [Hev ->]. apply (sound_evolves _ row); [auto|done| |].
    + unfold state_ok. simpl. lia.
    + simpl. intros j [= <-]. lia.
  - intros x' i u lease (x & Hx & [[_ ->]|[_ ->]])%update_code_elem _ Hl; [|by exists x]. by apply leased_iff in Hl as (_ & _ & ? & _).
  - intros Hne. apply I6. intros E. by rewrite E in Hne.
Qed.

(** ** The worker *)
Lemma state_running d b : state_ok d b -> cb_status b = fw_running -> exists j lease e x, cb_log b = Log j (Some lease) e x /\ 1 <= jb_attempts j.
Proof. unfold state_ok. intros H E. rewrite E in H. destruct (cb_log b) as [j [lease|] e x|]; [|done..]. by exists j, lease, e, x. Qed.

Lemma inv_expire w now : inv w ->
  inv (with_db (expire_leases now (wo_db w)) w) /\ extended evolves (fw_bundles (wo_db w)) (fw_bundles (expire_leases now (wo_db w))).
Proof.
  intros Hw. apply inv_map; [done|]. intros b Hb. pose proof (in_sound _ Hw b Hb) as Hs.
  destruct (overdue now b && _) eqn:E; [|by left]. apply andb_true_iff in E as [E _]. right.
  unfold overdue in E. apply andb_true_iff in E as [E%bool_decide_eq_true _].
  destruct (state_running _ _ (so_state _ _ Hs) E) as (j & lease & e & x & El & Ha). rewrite El. simpl.
  destruct (so_plan _ _ Hs) as (j' & p & plan & Ej & s & _ & _ & _ & _ & Hj & _). rewrite El in Ej. injection Ej as <-.
  split_and!; try done.
  - right. split_and!; try done; [congruence|]. rewrite El. exists j, j. by split_and!.
  - by right.
  - intros j' [= <-]. unfold FirmwareJob_ok in Hj. apply andb_true_iff in Hj as [_ Hj]. by apply Nat.leb_le.
Qed.

Lemma inv_record w now lease message row : inv w ->
  inv (with_db (record_failure now lease message row (wo_db w)) w) /\
  extended evolves (fw_bundles (wo_db w)) (fw_bundles (record_failure now lease message row (wo_db w))).
Proof.
  intros Hw. apply inv_map; [done|]. intros b Hb. pose proof (in_sound _ Hw b Hb) as Hs.
  destruct (leased _ _ _ b) eqn:E; [|by left]. right. apply leased_iff in E as (_ & _ & E & _).
  destruct (state_running _ _ (so_state _ _ Hs) E) as (j & l & e & x & El & Ha). rewrite El. simpl.
  destruct (so_plan _ _ Hs) as (j' & p & plan & Ej & s & _ & _ & _ & _ & Hj & _). rewrite El in Ej. injection Ej as <-.
  split_and!; try done.
  - right. split_and!; try done; [congruence|]. rewrite El. exists j, j. by split_and!.
  - by right.
  - intros j' [= <-]. unfold FirmwareJob_ok in Hj. apply andb_true_iff in Hj as [_ Hj]. by apply Nat.leb_le.
Qed.

(** A row claimed is the active one of its build. *)
Lemma next_row_spec now held d b : next_row now held d = Some b -> b ∈ fw_bundles d /\ claimable now b = true.
Proof.
  unfold next_row. intros H%head_Some_elem_of. rewrite elem_of_js_sort, elem_of_listfilter in H.
  destruct H as [H [E _]%andb_true_iff]. done.
Qed.

Lemma claim_evolves w now lease b : inv w -> b ∈ fw_bundles (wo_db w) -> claimable now b = true ->
  evolves b (claim_bundle now lease b) /\ active_ b = true /\
  exists j, log_job (cb_log b) = Some j /\ jb_attempts j < 3 /\
    cb_log (claim_bundle now lease b) = Log (mkJob (jb_request_id j) (jb_interval_s j) (jb_instruction j) (jb_based_on j) (S (jb_attempts j))) (Some lease) None None.
Proof.
  intros Hw Hb [H1 H2]%andb_true_iff. destruct (log_jobs w b Hw Hb) as [j Hj]. unfold attempts_of in H2. rewrite Hj in H2. simpl in H2. apply Nat.ltb_lt in H2.
  assert (Hst : cb_status b = fw_pending \/ cb_status b = fw_running).
  { apply orb_true_iff in H1 as [H1%bool_decide_eq_true|[H1%bool_decide_eq_true _]%andb_true_iff]; auto. }
  assert (El : cb_log (claim_bundle now lease b) = Log (mkJob (jb_request_id j) (jb_interval_s j) (jb_instruction j) (jb_based_on j) (S (jb_attempts j))) (Some lease) None None).
  { simpl. unfold claim_log. by rewrite Hj. }
  split_and!; [|by apply active_iff|by exists j]. right. rewrite El. split_and!; try done; [destruct Hst; congruence|].
  eexists j, _. split_and!; try done. simpl. lia.
Qed.

Lemma identity_ids b b' j plan c : cb_build_id b' = cb_build_id b -> cb_version b' = cb_version b -> cb_plan_version b' = cb_plan_version b ->
  identity_ok b' j plan c = identity_ok b j plan c.
Proof. unfold Firmware.identity_ok. by intros -> -> ->. Qed.
Lemma prefix_ids b b' lease : cb_build_id b' = cb_build_id b -> cb_version b' = cb_version b -> storage_prefix b' lease = storage_prefix b lease.
Proof. unfold storage_prefix. by intros -> ->. Qed.

Lemma prepare_spec row j plan : prepare row = Some (j, plan) ->
  log_job (cb_log (cr_bundle row)) = Some j /\ job_ok j = true /\ decode (cr_plan row) (cr_spec row) = Some plan /\
  nlt (jb_interval_s j) (dp_interval_s plan) = false /\ is_Some (renderCandidate (dp_candidate plan) (jb_interval_s j)).
Proof.
  unfold Firmware.prepare. destruct (log_job _) as [j'|]; [|done]. destruct (job_ok j') eqn:Eo; [|done]. cbn [negb].
  destruct (_ || _); [done|]. destruct (decode _ _) as [plan'|]; [|done]. destruct (nlt _ _) eqn:En; [done|].
  destruct (renderCandidate _ _) as [x|] eqn:Er; [|done]. intros H. assert (j' = j /\ plan' = plan) as [-> ->].
  { destruct (ac_kind _); [by injection H|]. destruct has_camera; [by injection H|done]. }
  by split_and!.
Qed.

(** *** Claiming *)
Lemma inv_claim w now lease held : inv w -> lease ∉ wo_used w ->
  inv (claimed lease (claim now lease held (wo_db w)) w) /\
  extended evolves (fw_bundles (wo_db w)) (fw_bundles (wo_db (claimed lease (claim now lease held (wo_db w)) w))).
Proof.
  intros Hw Hnew. unfold claim. destruct (next_row now held (wo_db w)) as [b|] eqn:En.
  2: { split; [|done]. destruct Hw as [I1 I2 I3 I4 I5 I6]. split; simpl; try done; [set_solver|].
       intros l s Hs. destruct (I5 l s Hs) as [? ?]. split; [set_solver|done]. }
  apply next_row_spec in En as [Hb Hc]. destruct (claim_evolves w now lease b Hw Hb Hc) as (Hev & Hact & j & Hj & Hja & Hlog).
  set (l' := update_code (cb_build_id b) (cb_version b) (claim_bundle now lease) (fw_bundles (wo_db w))).
  assert (Hbv : at_code (cb_build_id b) (cb_version b) b = true) by by apply at_code_iff.
  assert (Huniq : forall x, x ∈ fw_bundles (wo_db w) -> at_code (cb_build_id b) (cb_version b) x = true -> x = b).
  { intros x Hx Hxv. by eapply at_code_unique; [apply (in_ordered _ Hw)|..]. }
  assert (Hext : extended evolves (fw_bundles (wo_db w)) l').
  { apply update_code_evolves. intros x Hx Hxv. by rewrite (Huniq x Hx Hxv). }
  pose proof Hw as [I1 I2 I3 I4 I5 I6].
  assert (Hsound : forall x, x ∈ l' -> sound (wo_db w) x /\ forall l, log_lease (cb_log x) = Some l -> l ∈ ({[lease]} ∪ wo_used w)).
  { intros x' (x & Hx & [[Hxv ->]|[_ ->]])%update_code_elem; [|split; [auto|intros l Hl; specialize (I4 x l Hx Hl); set_solver]].
    rewrite (Huniq x Hx Hxv). split.
    - apply (sound_evolves _ b); [auto|done| |]; [unfold state_ok; rewrite Hlog; simpl; lia|]. rewrite Hlog. intros j' [= <-]. simpl. lia.
    - rewrite Hlog. intros l [= <-]. set_solver. }
  assert (Hord : ordered l').
  { apply ordered_update; [done|by intros x Hx Hxv; rewrite (Huniq x Hx Hxv)|]. intros x Hx Hxb Hxa.
    assert (x = b) as ->; [|done]. pose proof (or_active _ I3 (cb_build_id b)) as H1.
    assert (Hin : forall y, y ∈ fw_bundles (wo_db w) -> cb_build_id y = cb_build_id b -> active_ y = true ->
      y ∈ List.filter active_ (List.filter (of_build (cb_build_id b)) (fw_bundles (wo_db w)))).
    { intros y Hy Hyb Hya. apply elem_of_listfilter. split; [|done]. apply elem_of_listfilter. split; [done|]. by apply String.eqb_eq. }
    pose proof (Hin x Hx Hxb Hxa) as Hx'. pose proof (Hin b Hb eq_refl Hact) as Hb'.
    destruct (List.filter active_ _) as [|y [|z k]]; [by apply elem_of_nil in Hx'| |simpl in H1; lia].
    apply list_elem_of_singleton in Hx' as ->, Hb' as ->. done. }
  assert (Hkept : rows_kept (wo_used w) (fw_bundles (wo_db w)) l').
  { intros x' i v l (x & Hx & [[Hxv ->]|[_ ->]])%update_code_elem Hu Hl; [|by exists x]. exfalso.
    apply leased_iff in Hl as (_ & _ & _ & Hl). rewrite (Huniq x Hx Hxv), Hlog in Hl. injection Hl as <-. done. }
  split; [|unfold claimed; simpl; by destruct (join_row _ _)].
  assert (Hg : grows (wo_db w) (with_bundles l' (wo_db w))) by apply grows_rows.
  assert (Hworkers : forall l s, wo_workers w !! l = Some s ->
    l ∈ ({[lease]} ∪ wo_used w) /\ claim_ok (with_bundles l' (wo_db w)) l (stage_row s) /\ uploaded (with_bundles l' (wo_db w)) l s).
  { intros l s Hs. destruct (I5 l s Hs) as [Hu H]. split; [set_solver|]. by apply (worker_kept (wo_used w) (wo_db w)). }
  assert (Hrest : forall b, b ∈ l' -> sound (with_bundles l' (wo_db w)) b).
  { intros x Hx. apply (sound_grows (wo_db w)); [done|]. by apply Hsound. }
  assert (Hen : l' <> [] -> enabled = true /\ has_artifacts = true).
  { intros _. apply I6. intros E. rewrite E in Hb. by apply elem_of_nil in Hb. }
  unfold claimed. simpl. destruct (join_row (wo_db w) (claim_bundle now lease b)) as [row|] eqn:Er; simpl.
  - split; simpl; try done; [by intros x l Hx; apply Hsound|]. intros l s. rewrite lookup_insert. case_decide as El; [|apply Hworkers].
    subst l. intros [= <-]. split; [set_solver|]. split; [|done]. simpl.
    destruct (so_plan _ _ (I2 b Hb)) as (j' & p & plan & _ & (s & P1 & P2 & P3 & _)).
    unfold join_row in Er. simpl in Er. rewrite P1, P3 in Er. destruct (List.find _ _) as [bd|]; [|done]. injection Er as <-. split.
    + exists s. by split_and!.
    + intros x' (x & Hx & [[Hxv ->]|[Hxv ->]])%update_code_elem Hl; simpl in Hl |- *; [by rewrite (Huniq x Hx Hxv)|].
      apply leased_iff in Hl as (E1 & E2 & _). exfalso. by rewrite (proj2 (at_code_iff _ _ _)) in Hxv.
  - split; simpl; try done. by intros x l Hx; apply Hsound.
Qed.

(** *** Publishing *)
Lemma publish_spec now lease row job plan c passed d d' : publish now lease row job plan c passed d = Some d' ->
  d' = with_bundles ((fun x => if leased (cb_build_id (cr_bundle row)) (cb_version (cr_bundle row)) lease x
    then with_state fw_passed (Some (storage_prefix (cr_bundle row) lease)) (PassedLog passed) now x else x) <$> fw_bundles d) d.
Proof.
  unfold Firmware.publish. destruct (accepted_plan _ _ _) as [[p s]|]; [|done]. destruct (decode p s); [|done]. destruct (_ || _); [done|].
  destruct (renderCandidate _ _); [|done]. destruct (existsb _ _); [|done]. by intros [= <-].
Qed.
Lemma passed_record_spec j plan c r : passed_record j plan c = Some r ->
  pr_job r = Some j /\ FirmwarePassedRecord_ok zod_uuid r = true.
Proof. unfold Firmware.passed_record. destruct (FirmwarePassedRecord_ok _ _) eqn:E; [|done]. by intros [= <-]. Qed.

Lemma inv_publish w now lease row job plan c passed d : inv w ->
  wo_workers w !! lease = Some (Uploading row job plan c []) -> passed_record job plan c = Some passed ->
  publish now lease row job plan c passed (wo_db w) = Some d ->
  inv (with_db d w) /\ extended evolves (fw_bundles (wo_db w)) (fw_bundles d).
Proof.
  intros Hw Hs Hp ->%publish_spec. destruct (in_workers _ Hw _ _ Hs) as (Hu & [(s & C1 & C2 & C3 & C4) C5] & Hprep & Hid & done_ & Hup & Hdone).
  rewrite app_nil_r in Hup. simpl in *. destruct (prepare_spec _ _ _ Hprep) as (P1 & P2 & P3 & P4 & P5).
  destruct (passed_record_spec _ _ _ _ Hp) as [Hpj _].
  apply inv_map; [done|]. intros b Hb. destruct (leased _ _ _ b) eqn:E; [|by left]. right.
  destruct (C5 b Hb E) as [Hj Hpv]. apply leased_iff in E as (E1 & E2 & E3 & E4).
  assert (Hjj : log_job (cb_log b) = Some job) by congruence.
  split_and!.
  - right. simpl. split_and!; try done; [congruence|]. exists job, job. by split_and!.
  - unfold state_ok. simpl. exists job, (cr_plan row), plan, c, lease. split_and!.
    + apply (planned_ids _ (cr_bundle row)); [done..|]. exists s. rewrite C4. split_and!; try done.
      destruct (so_plan _ _ (in_sound _ Hw b Hb)) as (j & ? & ? & Hj' & ? & _ & _ & _ & _ & _ & _ & _ & Hf). congruence.
    + rewrite <- Hid. by apply identity_ids.
    + done.
    + simpl. f_equal. symmetry. by apply prefix_ids.
    + intros name bytes Hn. rewrite (prefix_ids (cr_bundle row)) by done. apply Hdone. by rewrite <- Hup.
  - done.
  - by left.
  - simpl. rewrite Hpj. intros j [= <-]. unfold FirmwareJob_ok in P2. apply andb_true_iff in P2 as [_ P2]. by apply Nat.leb_le.
Qed.
(** ** Every step *)
Lemma plan_step_kept d p : Disciplined https_url zod_uuid (pd_plans d) -> plan_step d p ->
  Disciplined https_url zod_uuid (pd_plans p) /\ extended later (pd_plans d) (pd_plans p) /\ extended eq (t_specs (pd_db d)) (t_specs (pd_db p)).
Proof.
  intros Hd Hstep. assert (Hs : step sha256 https_url zod_uuid catalogue d p).
  { destruct Hstep as [| |db parts compat ext E]; constructor. intros s Hs. rewrite E. apply elem_of_app. by left. }
  destruct (step_disciplined _ _ _ _ _ _ Hd Hs) as [H1 H2]. split_and!; [done..|]. clear Hs H1 H2.
  destruct Hstep as [rq now id expected v|rq now id expected v sv|db parts compat ext E]; simpl.
  - unfold solve_plans. apply (authorized_write_keeps sha256 _ _ _ (fun p => extended eq (t_specs (pd_db d)) (t_specs (pd_db p)))); [|done].
    intros identity recheck [st ps] d'. destruct (solve_work _ _ _ _ _ _ _ _ _ d) as [[[st' ps'] d2]|] eqn:E; [|done]. simpl. intros [= <- <- <-].
    by apply solve_work_spec in E as [[-> _]|(spec & input & plans & n & k & l & _ & _ & _ & _ & _ & _ & _ & ->)].
  - unfold accept_plan. apply (authorized_write_keeps sha256 _ _ _ (fun p => extended eq (t_specs (pd_db d)) (t_specs (pd_db p)))); [|done].
    intros identity recheck q d' (spec & row & plan & _ & _ & _ & _ & _ & _ & H)%accept_work_spec.
    by destruct H as [(_ & _ & ->)|(_ & _ & _ & ->)].
  - rewrite E. exists (t_specs (pd_db d)), ext. split; [done|]. by apply Forall_Forall2_diag, Forall_true.
Qed.

(** The plans and the objects may grow beside the rows. *)
Lemma inv_grows w d : inv w -> grows (wo_db w) d -> fw_bundles d = fw_bundles (wo_db w) ->
  Disciplined https_url zod_uuid (pd_plans (fw_plans d)) -> inv (with_db d w).
Proof.
  intros [I1 I2 I3 I4 I5 I6] Hg E Hd. split; simpl; rewrite ?E; try done.
  - intros b Hb. eapply sound_grows; [done|auto].
  - intros lease s Hs. destruct (I5 lease s Hs) as [Hu H]. split; [done|]. apply (worker_kept (wo_used w) (wo_db w)); [done..| |done].
    rewrite E. intros x id v l Hx _ Hl. by exists x.
Qed.

Lemma inv_worker w lease s : inv w -> lease ∈ wo_used w -> claim_ok (wo_db w) lease (stage_row s) -> uploaded (wo_db w) lease s ->
  inv (set_worker lease s w).
Proof.
  intros [I1 I2 I3 I4 I5 I6] Hu Hc Hup. split; simpl; try done. intros l s'. rewrite lookup_insert. case_decide as E; [|apply I5].
  subst l. by intros [= <-].
Qed.
Lemma inv_end w lease : inv w -> inv (end_worker lease w).
Proof. intros [I1 I2 I3 I4 I5 I6]. split; simpl; try done. intros l s [_ H]%lookup_delete_Some. by apply I5. Qed.
Lemma inv_lock w l : inv w -> inv (mkWorld (wo_db w) (wo_workers w) (wo_used w) l).
Proof. by intros []. Qed.
Lemma inv_failing w lease s message : inv w -> wo_workers w !! lease = Some s -> inv (set_worker lease (Failing (stage_row s) message) w).
Proof. intros Hw Hs. destruct (in_workers _ Hw _ _ Hs) as (Hu & Hc & _). by apply inv_worker. Qed.

(** *** Uploading *)
Lemma inv_put w lease row job plan c name bytes left_ o : inv w ->
  wo_workers w !! lease = Some (Uploading row job plan c ((name, bytes) :: left_)) ->
  put (key_of row lease name) bytes (fw_objects (wo_db w)) = Some o ->
  let w' := with_db (with_objects o (wo_db w)) w in
  inv w' /\ grows (wo_db w) (wo_db w') /\ inv (set_worker lease (Uploading row job plan c left_) w').
Proof.
  intros Hw Hs Hp w'. destruct (put_get _ _ _ _ Hp) as [Hget Hsub].
  assert (Hg : grows (wo_db w) (wo_db w')) by by split.
  assert (Hw' : inv w') by (apply inv_grows; [done..|apply (in_plans _ Hw)]). split_and!; [done..|].
  destruct (in_workers _ Hw' lease _ Hs) as (Hu & Hc & H1 & H2 & done_ & H3 & H4). apply inv_worker; [done..|].
  split_and!; [done..|]. exists (done_ ++ [(name, bytes)]). rewrite <- app_assoc. split; [done|].
  intros n b [Hn|[= -> ->]%list_elem_of_singleton]%elem_of_app; [auto|done].
Qed.

(** What a step leaves: the invariant, and no more than growth. *)
Definition follows (w w' : World) : Prop :=
  inv w' /\ grows (wo_db w) (wo_db w') /\ extended evolves (fw_bundles (wo_db w)) (fw_bundles (wo_db w')).
Lemma follows_rows w w' l : fw_bundles (wo_db w') = l -> fw_plans (wo_db w') = fw_plans (wo_db w) -> fw_objects (wo_db w') = fw_objects (wo_db w) ->
  inv w' -> extended evolves (fw_bundles (wo_db w)) l -> follows w w'.
Proof. intros E1 E2 E3 Hw H. split_and!; [done| |by rewrite E1]. by split; rewrite ?E2, ?E3. Qed.
Lemma follows_db w w' : wo_db w' = wo_db w -> inv w' -> follows w w'.
Proof. intros E H. split_and!; [done|by rewrite E..]. Qed.

Lemma claim_same now lease held d : fw_plans (claim now lease held d).2 = fw_plans d /\ fw_objects (claim now lease held d).2 = fw_objects d.
Proof. unfold claim. by destruct (next_row now held d). Qed.
Lemma code_same rq now id body d : fw_plans (create_code rq now id body d).2 = fw_plans d /\ fw_objects (create_code rq now id body d).2 = fw_objects d.
Proof.
  destruct (create_code_spec rq now id body d) as [->|(identity & recheck & body' & v & d' & -> & _ & _ & H)]; [done|].
  by apply create_work_spec in H as (plan & _ & _ & _ & [(b & _ & _ & _ & ->)|(i & _ & _ & _ & _ & _ & _ & _ & ->)]).
Qed.
Lemma retry_same rq now id tenant v d : fw_plans (retry_code rq now id tenant v d).2 = fw_plans d /\ fw_objects (retry_code rq now id tenant v d).2 = fw_objects d.
Proof. by destruct (retry_code_spec rq now id tenant v d) as [->|(row & job & _ & _ & _ & _ & _ & _ & ->)]. Qed.

Lemma wstep_follows w w' : inv w -> wstep w w' -> follows w w'.
Proof.
  intros Hw Hstep. destruct Hstep as [rq now id body|rq now id tenant v|p Hp|now|now lease held Hl Hu| |lease row job plan c Hs Hp Hi
    |lease row job plan c name bytes left_ o Hs Hp|lease row job plan c name bytes left_ o message Hs Hp
    |now lease row job plan c passed d Hs Hl Hp Hd|now lease row job plan c passed d message Hs Hl Hp Hd|lease s message Hs
    |now lease row message Hs|lease].
  - destruct (inv_create w rq now id body Hw), (code_same rq now id body (wo_db w)). by eapply follows_rows.
  - destruct (inv_retry w rq now id tenant v Hw), (retry_same rq now id tenant v (wo_db w)). by eapply follows_rows.
  - destruct (plan_step_kept _ _ (in_plans _ Hw) Hp) as (H1 & H2 & H3).
    assert (Hg : grows (wo_db w) (with_plan_db p (wo_db w))) by by split. split_and!; [by apply inv_grows|done..].
  - destruct (inv_expire w now Hw). by eapply follows_rows.
  - destruct (inv_claim w now lease held Hw Hu), (claim_same now lease held (wo_db w)).
    eapply follows_rows; [done|unfold claimed; by destruct (claim _ _ _ _).1..|done|done].
  - apply follows_db; [done|by apply inv_lock].
  - destruct (in_workers _ Hw _ _ Hs) as (Hu & Hc & _). apply follows_db; [done|]. apply inv_worker; [done..|].
    split_and!; [done..|]. exists []. split; [done|]. by intros n b ?%elem_of_nil.
  - destruct (inv_put _ _ _ _ _ _ _ _ _ _ Hw Hs Hp) as (_ & Hg & H). by split_and!.
  - destruct (inv_put _ _ _ _ _ _ _ _ _ _ Hw Hs Hp) as (H & Hg & _). split_and!; [|done..]. by apply (inv_failing _ _ (Uploading row job plan c ((name, bytes) :: left_))).
  - destruct (inv_publish _ _ _ _ _ _ _ _ _ Hw Hs Hp Hd) as [H1 H2]. apply publish_spec in Hd as ->. eapply follows_rows; [done..|by apply inv_end|done].
  - destruct (inv_publish _ _ _ _ _ _ _ _ _ Hw Hs Hp Hd) as [H1 H2]. apply publish_spec in Hd as ->.
    eapply follows_rows; [done..|by apply (inv_failing _ _ (Uploading row job plan c []))|done].
  - apply follows_db; [done|by apply inv_failing].
  - destruct (inv_record w now lease message row Hw). eapply follows_rows; [done..|by apply inv_end|done].
  - apply follows_db; [done|by apply inv_end].
Qed.

Lemma wreachable_inv w : wreachable w -> inv w.
Proof.
  induction 1 as [db parts compat|w w' _ IH Hs]; [|by apply (wstep_follows w)].
  assert (H0 : Disciplined https_url zod_uuid []) by (split; [by exists 0|by intros r ?%elem_of_nil|by intros ???? ?%elem_of_nil]).
  split; simpl; try done; [by intros ? ?%elem_of_nil| |by intros ?? ?%elem_of_nil].
  split; [intros id; exists 0; split; [lia|done]|intros id; simpl; lia|intros id; by apply NoDup_nil].
Qed.
Lemma history_follows w w' : wreachable w -> rtc wstep w w' -> wreachable w' /\ follows w w'.
Proof.
  intros Hw Hsteps. induction Hsteps as [w|w w1 w' Hs _ IH]; [split; [done|]; apply follows_db; [done|by apply wreachable_inv]|].
  destruct IH as [H1 (F1 & F2 & F3)]; [by eapply wr_step|]. split; [done|].
  destruct (wstep_follows w w1) as (G1 & G2 & G3); [by apply wreachable_inv|done|]. split_and!; [done|by etransitivity..].
Qed.
(** ** What is promised *)
(** C21: However requests, retries, plan changes and any number of workers
    interleave, the versions of a build are numbered 1 to [n <= 100], at most
    one is pending or running, each answers a request of its own in at most
    three attempts; later, versions are only added, none changes its plan,
    request or interval, and one that passed never changes at all. *)
Theorem firmware_disciplined w : wreachable w ->
  let l := fw_bundles (wo_db w) in
  (forall id, exists n, n <= 100 /\ versions_of_build id l = seq 1 n) /\
  (forall id, length (List.filter active_ (List.filter (of_build id) l)) <= 1) /\
  (forall id, NoDup (request_of <$> List.filter (of_build id) l)) /\
  (forall b, b ∈ l -> exists j, log_job (cb_log b) = Some j /\ jb_attempts j <= 3) /\
  forall w', rtc wstep w w' -> extended evolves l (fw_bundles (wo_db w')).
Proof.
  intros Hw. pose proof (wreachable_inv w Hw) as Hi. destruct (in_ordered _ Hi) as [O1 O2 O3]. split_and!; [done..| |].
  - intros b Hb. destruct (so_plan _ _ (in_sound _ Hi b Hb)) as (j & p & plan & Hj & s & _ & _ & _ & _ & Hok & _). exists j. split; [done|].
    unfold FirmwareJob_ok in Hok. apply andb_true_iff in Hok as [_ Hok]. by apply Nat.leb_le.
  - intros w' Hs. by destruct (history_follows w w' Hw Hs) as (_ & _ & _ & ?).
Qed.

Lemma passed_state d b : state_ok d b -> cb_status b = fw_passed -> exists r, cb_log b = PassedLog r /\ compiled_from d b r.
Proof. unfold state_ok. intros H E. rewrite E in H. destruct (cb_log b) as [? [] ? ?|r]; try done. by exists r. Qed.

Lemma identity_spec b j plan c : identity_ok b j plan c = true ->
  fm_build_id (co_manifest c) = cb_build_id b /\ fm_plan_version (co_manifest c) = cb_plan_version b /\
  fm_code_version (co_manifest c) = cb_version b /\ candidateManifestMatches sha256 (dp_candidate plan) (co_manifest c) = true /\
  serializeFirmwareManifest zod_uuid (co_manifest c) = Some (co_manifestBytes c) /\ co_manifest_digest c = sha256 (co_manifestBytes c) /\
  renderCandidate (dp_candidate plan) (jb_interval_s j) = Some (co_source c) /\ co_source_sha256 c = sha256 (co_source c) /\
  length (co_files c) = 3 /\ forallb (file_matches sha256 (co_files c)) (fm_files (co_manifest c)) = true.
Proof.
  unfold Firmware.identity_ok. rewrite !andb_true_iff, !bool_decide_eq_true, !Nat.eqb_eq, !String.eqb_eq. tauto.
Qed.

(** C20: A version passes only as the accepted plan it was asked from has it:
    its manifest names the version and matches the plan's candidate, its
    digests are those of the manifest's canonical text and of the candidate's
    source at the interval asked for, and that interval is in range and no
    shorter than the one the plan's power budget was accepted for. *)
Theorem passed_from_plan w b : wreachable w -> b ∈ fw_bundles (wo_db w) -> cb_status b = fw_passed ->
  exists r j p s plan text source, cb_log b = PassedLog r /\ pr_job r = Some j /\
    plan_at (wo_db w) (cb_build_id b) (cb_plan_version b) = Some p /\ is_Some (pl_accepted_at p) /\
    spec_at (wo_db w) (cb_build_id b) (pl_spec_version p) = Some s /\ decode p (sv_data s) = Some plan /\
    fm_build_id (pr_manifest r) = cb_build_id b /\ fm_plan_version (pr_manifest r) = cb_plan_version b /\
    fm_code_version (pr_manifest r) = cb_version b /\ candidateManifestMatches sha256 (dp_candidate plan) (pr_manifest r) = true /\
    serializeFirmwareManifest zod_uuid (pr_manifest r) = Some text /\ pr_manifest_digest r = sha256 text /\
    renderCandidate (dp_candidate plan) (jb_interval_s j) = Some source /\ pr_source_sha256 r = sha256 source /\
    interval_ok (jb_interval_s j) = true /\ nlt (jb_interval_s j) (dp_interval_s plan) = false.
Proof.
  intros Hw Hb Hst. pose proof (in_sound _ (wreachable_inv w Hw) b Hb) as Hs.
  destruct (passed_state _ _ (so_state _ _ Hs) Hst) as (r & Hr & j & p & plan & c & lease & (s & P1 & P2 & P3 & P4 & P5 & P6 & P7) & Hid & Hp & _).
  destruct (identity_spec _ _ _ _ Hid) as (I1 & I2 & I3 & I4 & I5 & I6 & I7 & I8 & _).
  unfold Firmware.passed_record in Hp. destruct (FirmwarePassedRecord_ok _ _); [|done]. injection Hp as <-.
  eexists _, j, p, s, plan, (co_manifestBytes c), (co_source c). split_and!; try done.
  unfold FirmwareJob_ok in P5. by bools.
Qed.
Lemma passed_stays w w' b : wreachable w -> rtc wstep w w' -> b ∈ fw_bundles (wo_db w) -> cb_status b = fw_passed -> b ∈ fw_bundles (wo_db w').
Proof.
  intros Hw Hs Hb Hst. destruct (history_follows w w' Hw Hs) as (_ & _ & _ & l1 & ext & -> & H). apply elem_of_app. left.
  apply list_elem_of_lookup in Hb as [i Hi]. destruct (Forall2_lookup_l _ _ _ _ _ H Hi) as (b' & Hi' & [->|[N _]]); [|done].
  by eapply list_elem_of_lookup_2.
Qed.

Lemma find_code w b : inv w -> b ∈ fw_bundles (wo_db w) -> List.find (at_code (cb_build_id b) (cb_version b)) (fw_bundles (wo_db w)) = Some b.
Proof.
  intros Hw Hb. assert (Hat : at_code (cb_build_id b) (cb_version b) b = true) by by apply at_code_iff.
  destruct (List.find _ _) as [x|] eqn:E.
  - apply find_Some_elem in E as [Hx Hxa]. f_equal. by eapply at_code_unique; [apply (in_ordered _ Hw)|..].
  - by rewrite (proj1 (find_None_forall _ _) E b Hb) in Hat.
Qed.

Lemma version_in_range w b : inv w -> b ∈ fw_bundles (wo_db w) -> version_params zod_uuid (cb_build_id b) (cb_version b) = true.
Proof.
  intros Hw Hb. destruct (so_ids _ _ (in_sound _ Hw b Hb)) as (H1 & H2 & _). unfold version_params. rewrite H1.
  destruct (or_versions _ (in_ordered _ Hw) (cb_build_id b)) as (n & Hn & Hseq).
  assert (Hv : cb_version b ∈ versions_of_build (cb_build_id b) (fw_bundles (wo_db w))).
  { apply list_elem_of_fmap. exists b. split; [done|]. apply elem_of_listfilter. split; [done|]. by apply String.eqb_eq. }
  rewrite Hseq, elem_of_seq in Hv. simpl. unfold between. rewrite andb_true_iff, !Z.leb_le. lia.
Qed.

(** The three files of a manifest are the three there are. *)
Lemma manifest_paths m path : FirmwareManifest_ok zod_uuid m = true -> path ∈ FIRMWARE_PATHS -> path ∈ ff_path <$> fm_files m.
Proof.
  unfold FirmwareManifest_ok. rewrite !andb_true_iff, Nat.eqb_eq, all_distinct_true. intros ((((_ & Hlen) & Hok) & Hnd) & _) Hp.
  apply list_elem_of_In, (NoDup_length_incl (l := ff_path <$> fm_files m)) with (l' := FIRMWARE_PATHS); [by apply NoDup_ListNoDup|by rewrite length_fmap, Hlen| |by apply list_elem_of_In].
  intros x (f & -> & Hf)%list_elem_of_In%list_elem_of_fmap. apply list_elem_of_In, inb_true.
  pose proof (proj1 (forallb_elem _ _) Hok f Hf) as H. unfold FirmwareFile_ok in H. by bools.
Qed.

(** The digest a record keeps of a file is that of the bytes uploaded. *)
Lemma upload_of b j plan c r file : identity_ok b j plan c = true -> passed_record j plan c = Some r -> file ∈ FILES ->
  exists bytes, (file, bytes) ∈ uploads c /\ digest_for file r = Some (sha256 bytes).
Proof.
  intros Hid Hp Hf. destruct (identity_spec _ _ _ _ Hid) as (_ & _ & _ & _ & _ & I6 & _ & I8 & _ & I10).
  unfold Firmware.passed_record in Hp. destruct (FirmwarePassedRecord_ok _ _) eqn:Eok; [|done]. injection Hp as <-.
  assert (Hpath : forall path, path ∈ FIRMWARE_PATHS -> digest_for path (mkPassed (Some j) (ac_id (dp_candidate plan)) (co_manifest c)
      (co_manifest_digest c) COMPILER_IMAGE (Some (sha256 (co_bundle c))) (co_source_sha256 c) (jb_instruction j) (co_diagnostics c)) =
      ff_sha256 <$> List.find (fun f => ff_path f ==s path)%forge (fm_files (co_manifest c)) ->
    exists bytes, (path, bytes) ∈ uploads c /\ (ff_sha256 <$> List.find (fun f => ff_path f ==s path)%forge (fm_files (co_manifest c))) = Some (sha256 bytes)).
  { intros path Hpath _. assert (Hin : path ∈ ff_path <$> fm_files (co_manifest c)).
    { apply manifest_paths; [|done]. unfold FirmwarePassedRecord_ok in Eok. by bools. }
    apply list_elem_of_fmap in Hin as (f & -> & Hin). destruct (List.find _ _) as [g|] eqn:E.
    - apply find_Some_elem in E as [Hg Eg%String.eqb_eq]. pose proof (proj1 (forallb_elem _ _) I10 g Hg) as Hm.
      unfold file_matches, file_bytes in Hm. destruct (List.find (fun x => x.1 ==s ff_path g)%forge (co_files c)) as [[n bytes]|] eqn:Ef; [|done].
      apply find_Some_elem in Ef as [Hx Ex%String.eqb_eq]. simpl in *. apply andb_true_iff in Hm as [_ Hm%String.eqb_eq].
      exists bytes. split; [|by rewrite Hm]. apply elem_of_app. left. by rewrite <- Eg, <- Ex.
    - pose proof (proj1 (find_None_forall _ _) E f Hin) as H. simpl in H. by rewrite String.eqb_refl in H. }
  assert (Hlast : forall x, x ∈ [("manifest.json", co_manifestBytes c); ("app.cpp", co_source c); ("firmware.zip", co_bundle c)] -> x ∈ uploads c).
  { intros x Hx. apply elem_of_app. by right. }
  unfold FILES in Hf. rewrite !elem_of_cons in Hf.
  destruct Hf as [->|[->|[->|[->|[->|[->|Hf%elem_of_nil]]]]]]; [| | | | | |done].
  - exists (co_manifestBytes c). split; [apply Hlast; left|]. change (Some (co_manifest_digest c) = Some (sha256 (co_manifestBytes c))). by f_equal.
  - apply Hpath; [left|reflexivity].
  - apply Hpath; [right; left|reflexivity].
  - apply Hpath; [right; right; left|reflexivity].
  - exists (co_source c). split; [apply Hlast; right; left|]. change (Some (co_source_sha256 c) = Some (sha256 (co_source c))). by f_equal.
  - exists (co_bundle c). split; [apply Hlast; right; right; left|]. reflexivity.
Qed.

(** C19: Once a version has passed, each of its six files downloads, at any
    later time, for every session that may read the build: never missing,
    never refused for its digest, and with the digest its record published,
    whatever other workers, retries and failed uploads did meanwhile. *)
Theorem passed_downloads w w' b rq identity file : wreachable w -> b ∈ fw_bundles (wo_db w) -> cb_status b = fw_passed ->
  rtc wstep w w' -> file ∈ FILES ->
  withAuthorizedRead sha256 (rq_auth rq) (rq_admitted rq) (rq_cookie rq) (rq_host rq) = Ok identity ->
  owned (fw_plans (wo_db w')) (cb_build_id b) identity.1.1 = true ->
  exists r bytes, cb_log b = PassedLog r /\ digest_for file r = Some (sha256 bytes) /\
    download sha256 zod_uuid has_artifacts rq (cb_build_id b) (cb_version b) file (wo_db w') = Ok bytes.
Proof.
  intros Hw Hb Hst Hs Hf Hid Hown. destruct (history_follows w w' Hw Hs) as (Hw' & _).
  apply (passed_stays w w') in Hb; [|done..]. clear w Hw Hs. pose proof (wreachable_inv w' Hw') as Hi.
  pose proof (in_sound _ Hi b Hb) as Hso.
  destruct (passed_state _ _ (so_state _ _ Hso) Hst) as (r & Hr & j & p & plan & c & lease & _ & Hc & Hp & Href & Hup).
  destruct (upload_of _ _ _ _ _ _ Hc Hp Hf) as (bytes & Hb' & Hdig). exists r, bytes. split_and!; [done..|].
  unfold download. rewrite (version_in_range w') by done. rewrite (proj2 (inb_true _ _) Hf). cbn [andb negb].
  unfold authorized_read. rewrite Hid. unfold download_read. rewrite Hown, (find_code w') by done. cbn [negb]. rewrite Href, Hst, Hr.
  rewrite bool_decide_true by done. cbn [negb]. destruct (passed_record_spec _ _ _ _ Hp) as [_ ->]. cbn [negb]. rewrite Hdig. cbn [rbind].
  destruct (in_enabled _ Hi) as [_ ->]; [by intros E; rewrite E in Hb; apply elem_of_nil in Hb|]. cbn [negb].
  by rewrite (Hup _ _ Hb'), String.eqb_refl.
Qed.
(** ** Asked again *)
Definition same_content (a b : FirmwareRequest) : bool :=
  Nat.eqb (fr_plan_version a) (fr_plan_version b) && bool_decide (fr_instruction a = fr_instruction b) &&
  bool_decide (fr_based_on a = fr_based_on b).
(** The row that answers a request. *)
Definition answers (id : string) (v : nat) (body : FirmwareRequest) (b : CodeBundle) : Prop :=
  cb_build_id b = id /\ cb_version b = v /\ cb_plan_version b = fr_plan_version body /\
  exists j, log_job (cb_log b) = Some j /\ jb_request_id j = fr_request_id body /\ jb_instruction j = default "" (fr_instruction body) /\
    jb_based_on j = fr_based_on body.

Lemma answers_later id v body b b' : evolves b b' -> answers id v body b -> answers id v body b'.
Proof.
  intros He (A1 & A2 & A3 & j & A4 & A5 & A6 & A7). destruct (evolves_ids _ _ He) as (E1 & E2 & E3).
  split_and!; [congruence..|]. destruct He as [->|(_ & _ & _ & _ & _ & j0 & j' & L1 & L2 & L3 & L4 & L5 & L6 & _)]; [by exists j|].
  rewrite A4 in L1. injection L1 as <-. exists j'. by rewrite L3, L5, L6.
Qed.

Lemma requested_answers body b : requested (fr_request_id body) b = true -> same_request body b = true ->
  answers (cb_build_id b) (cb_version b) body b.
Proof.
  unfold requested, same_request, job_is. destruct (log_job (cb_log b)) as [j|] eqn:Ej; [|done].
  rewrite !andb_true_iff, !String.eqb_eq, Nat.eqb_eq, bool_decide_eq_true. intros E1 (E2 & E3 & E4). split_and!; [done..|].
  exists j. by split_and!.
Qed.

Lemma create_answers rq now id body d v d' : create_code rq now id body d = (Ok v, d') ->
  exists body' b, FirmwareRequest_parse zod_uuid body = Some body' /\ b ∈ fw_bundles d' /\ answers id v body' b.
Proof.
  unfold Firmware.create_code. destruct (FirmwareRequest_parse _ body) as [body'|] eqn:Ep; [|done]. destruct (zod_uuid id); [|done].
  intros (identity & H & _)%authorized_write_ok. apply create_work_spec in H as (plan & _ & _ & _ & H). exists body'.
  destruct H as [(b & Hf & Hsame & -> & ->)|(i & _ & _ & _ & _ & _ & _ & _ & ->)].
  - apply find_Some_elem in Hf as [[Hb <-]%elem_of_desc Hr]. exists b. split_and!; [done..|by apply requested_answers].
  - eexists. split_and!; [done|apply elem_of_app; right; left|]. split_and!; [done..|]. by eexists.
Qed.

Lemma parsed_instruction body b : FirmwareRequest_parse zod_uuid body = Some b -> forall i, fr_instruction b = Some i -> i <> "".
Proof.
  unfold FirmwareRequest_parse. destruct (_ && _) eqn:E; [|done]. intros [= <-] i Hi Hne. simpl in Hi. subst i. rewrite Hi in E.
  by rewrite andb_false_r in E.
Qed.

Lemma answers_same body1 body2 b1 b2 id v b : FirmwareRequest_parse zod_uuid body1 = Some b1 -> FirmwareRequest_parse zod_uuid body2 = Some b2 ->
  answers id v b1 b -> same_request b2 b = same_content b1 b2.
Proof.
  intros P1 P2 (_ & _ & A3 & j & A4 & _ & A6 & A7). pose proof (parsed_instruction _ _ P1) as H1. pose proof (parsed_instruction _ _ P2) as H2.
  unfold same_request, same_content, job_is. rewrite A4, A3, A6, A7, <- andb_assoc. f_equal.
  f_equal. apply eq_true_iff_eq. rewrite String.eqb_eq, bool_decide_eq_true.
  destruct (fr_instruction b1) as [i1|] eqn:F1, (fr_instruction b2) as [i2|] eqn:F2; simpl; split; try congruence; intros E.
  - by destruct (H1 i1 eq_refl).
  - by destruct (H2 i2 eq_refl).
Qed.

Lemma find_request w b rid : inv w -> b ∈ fw_bundles (wo_db w) -> request_of b = Some rid ->
  List.find (requested rid) (bundles_desc (wo_db w) (cb_build_id b)) = Some b.
Proof.
  intros Hw Hb Hr. destruct (List.find _ _) as [x|] eqn:E.
  - apply find_Some_elem in E as [[Hx Hxb]%elem_of_desc Hxr%requested_iff]. f_equal.
    apply (NoDup_fmap_elem request_of (List.filter (of_build (cb_build_id b)) (fw_bundles (wo_db w)))); [apply (or_requests _ (in_ordered _ Hw))|..|congruence];
      apply elem_of_listfilter; (split; [done|]); by apply String.eqb_eq.
  - pose proof (proj1 (find_None_forall _ _) E b) as H. rewrite (proj2 (requested_iff rid b)) in H by done. discriminate H. by apply elem_of_desc.
Qed.

(** C22: A request that was answered is answered with the same version whenever
    it is repeated while the plan it names is still accepted and current, at any
    later time and in whatever state its version is by then, and another one
    under its id is a conflict; once the plan is not, both get the error every
    request for it gets. Nothing is changed by any of them. *)
Theorem request_repeated w w2 rq now id body v d rq2 now2 body2 b2 identity : wreachable w ->
  create_code rq now id body (wo_db w) = (Ok v, d) -> rtc wstep (with_db d w) w2 ->
  fr_request_id body2 = fr_request_id body -> FirmwareRequest_parse zod_uuid body2 = Some b2 ->
  withAuthorizedWrite sha256 (rq_auth rq2) (rq_admitted rq2) (rq_admitted rq2) (rq_cookie rq2) (rq_host rq2) (Some (fr_tenant_id body2)) = Ok identity ->
  recheckExpiry sha256 rq2 (rq_recheck rq2) = Ok tt -> recheckExpiry sha256 rq2 (rq_end rq2) = Ok tt ->
  owned (fw_plans (wo_db w2)) id identity.1 = true ->
  exists b1, FirmwareRequest_parse zod_uuid body = Some b1 /\
    create_code rq2 now2 id body2 (wo_db w2) =
      (match accepted (wo_db w2) id (fr_plan_version body2) with
       | Ok _ => if same_content b1 b2 then Ok v else Err (Http 409 "REQUEST_CONFLICT")
       | Err e => Err e
       end, wo_db w2).
Proof.
  intros Hw H Hs Hrid Hp2 Hid Hre Hend Hown. destruct (create_answers _ _ _ _ _ _ _ H) as (b1 & b & Hp1 & Hb & Hans). exists b1. split; [done|].
  assert (Hd : d = (create_code rq now id body (wo_db w)).2) by by rewrite H.
  assert (Hw1 : wreachable (with_db d w)) by (eapply wr_step; [done|rewrite Hd; constructor]).
  destruct (history_follows _ _ Hw1 Hs) as (_ & Hi & _ & l1 & ext & Hl & Hev). simpl in Hev.
  apply list_elem_of_lookup in Hb as [i Hb]. destruct (Forall2_lookup_l _ _ _ _ _ Hev Hb) as (b' & Hb' & He).
  apply (answers_later _ _ _ _ _ He) in Hans. apply list_elem_of_lookup_2 in Hb'.
  assert (Hin : b' ∈ fw_bundles (wo_db w2)) by (rewrite Hl; apply elem_of_app; by left).
  assert (Hids : fr_request_id b2 = fr_request_id b1 /\ zod_uuid id = true /\ fr_tenant_id b2 = fr_tenant_id body2 /\ fr_plan_version b2 = fr_plan_version body2).
  { unfold Firmware.create_code in H. rewrite Hp1 in H. destruct (zod_uuid id); [|done].
    unfold FirmwareRequest_parse in Hp1, Hp2. destruct (_ && _) in Hp1; [|done]. destruct (_ && _) in Hp2; [|done]. by injection Hp1 as <-; injection Hp2 as <-. }
  destruct Hids as (Hr2 & Hzid & Ht2 & Hv2). pose proof Hans as (A1 & A2 & _ & j & A4 & A5 & _).
  unfold Firmware.create_code. rewrite Hp2, Hzid, Ht2. unfold authorized_write. rewrite Hid. unfold Firmware.create_work.
  rewrite Hown, Hre. cbn [negb rbind]. destruct (in_enabled _ Hi) as [-> ->]; [by intros E; rewrite E in Hin; apply elem_of_nil in Hin|]. cbn [negb orb].
  rewrite Hv2. destruct (accepted (wo_db w2) id (fr_plan_version body2)) as [plan|e]; [|done]. cbn [rbind]. rewrite <- A1, (find_request w2 b'); [|done..|unfold request_of; rewrite A4, Hr2; simpl; by rewrite A5].
  rewrite (answers_same _ _ _ _ _ _ _ Hp1 Hp2 Hans), A2. destruct (same_content b1 b2); [|done]. by rewrite Hend.
Qed.
(** ** Nothing waits for ever *)
Lemma oldest_first now d b : b ∈ fw_bundles d -> claimable now b = true ->
  exists x, next_row now (fun _ => false) d = Some x /\ x ∈ fw_bundles d /\ (cb_created_at x <= cb_created_at b)%Z.
Proof.
  intros Hb Hc. unfold next_row. set (k := List.filter _ (fw_bundles d)).
  assert (Hk : b ∈ k) by (apply elem_of_listfilter; by rewrite Hc).
  assert (Hs : StronglySorted (le_of later_row) (js_sort later_row k)).
  { eapply (js_sort_sorted later_row (fun _ => True)); [|by apply Forall_forall].
    split; [intros x y _ _|intros x y z _ _ _]; unfold le_of, later_row; rewrite !Z.ltb_ge; lia. }
  rewrite <- (elem_of_js_sort later_row) in Hk. destruct (js_sort later_row k) as [|x l] eqn:E; [by apply elem_of_nil in Hk|].
  exists x. split; [done|]. assert (Hx : x ∈ k) by (rewrite <- (elem_of_js_sort later_row), E; left).
  split; [by apply elem_of_listfilter in Hx as [? _]|]. apply StronglySorted_inv in Hs as [_ Hs]. rewrite Forall_forall in Hs.
  apply elem_of_cons in Hk as [->|Hk]; [lia|]. specialize (Hs b Hk). unfold le_of, later_row in Hs. by apply Z.ltb_ge in Hs.
Qed.

Lemma claim_takes now lease d x : next_row now (fun _ => false) d = Some x -> x ∈ fw_bundles d ->
  claim_bundle now lease x ∈ fw_bundles (claim now lease (fun _ => false) d).2.
Proof.
  intros E Hx. unfold claim. rewrite E. simpl. unfold update_code. apply list_elem_of_fmap. exists x.
  by rewrite (proj2 (at_code_iff _ _ x)).
Qed.

(** C24: No version is stuck. While one is pending, or running with its lease
    overdue, the next run claims it or an older one, spending one of three
    attempts; when the three are spent the run fails it; and one that failed
    earlier is pending again after any admitted retry, while its plan is still
    the accepted one and the build has nothing else under way. *)
Theorem no_version_stuck w b now lease : wreachable w -> b ∈ fw_bundles (wo_db w) ->
  (cb_status b = fw_pending \/ overdue now b = true ->
    (exists x, x ∈ fw_bundles (wo_db w) /\ (cb_created_at x <= cb_created_at b)%Z /\
      claim_bundle now lease x ∈ fw_bundles (claim now lease (fun _ => false) (wo_db w)).2 /\
      exists j j', log_job (cb_log x) = Some j /\ log_job (cb_log (claim_bundle now lease x)) = Some j' /\ jb_attempts j' = S (jb_attempts j) /\ jb_attempts j' <= 3) \/
    (attempts_of b = Some 3 /\ exists l, with_state fw_failed (cb_storage_ref b) l now b ∈ fw_bundles (expire_leases now (wo_db w)))) /\
  (forall rq identity tenant plan j, cb_status b = fw_failed -> log_job (cb_log b) = Some j -> jb_attempts j < 3 ->
    existsb active_ (List.filter (of_build (cb_build_id b)) (fw_bundles (wo_db w))) = false ->
    accepted (wo_db w) (cb_build_id b) (cb_plan_version b) = Ok plan -> zod_uuid tenant = true ->
    withAuthorizedWrite sha256 (rq_auth rq) (rq_admitted rq) (rq_admitted rq) (rq_cookie rq) (rq_host rq) (Some tenant) = Ok identity ->
    recheckExpiry sha256 rq (rq_recheck rq) = Ok tt -> recheckExpiry sha256 rq (rq_end rq) = Ok tt ->
    owned (fw_plans (wo_db w)) (cb_build_id b) identity.1 = true ->
    exists d, retry_code rq now (cb_build_id b) tenant (cb_version b) (wo_db w) = (Ok tt, d) /\
      with_state fw_pending (cb_storage_ref b) (Log j None None None) now b ∈ fw_bundles d).
Proof.
  intros Hw Hb. pose proof (wreachable_inv w Hw) as Hi. pose proof (in_sound _ Hi b Hb) as Hs.
  destruct (so_plan _ _ Hs) as (jb & p & pl & Hjb & s & _ & _ & _ & _ & Hok & _). split.
  - intros Hst. assert (Hat : jb_attempts jb <= 3) by (unfold FirmwareJob_ok in Hok; apply andb_true_iff in Hok as [_ Hok]; by apply Nat.leb_le).
    assert (Hatt : attempts_of b = Some (jb_attempts jb)) by (unfold attempts_of; by rewrite Hjb).
    destruct (decide (jb_attempts jb = 3)) as [E3|N3].
    + right. split; [congruence|]. assert (Hov : overdue now b = true).
      { destruct Hst as [Hst|]; [|done]. pose proof (so_state _ _ Hs) as H. unfold state_ok in H. rewrite Hst in H.
        destruct (cb_log b) as [j' [] ? ?|]; try done. injection Hjb as ->. lia. }
      eexists. unfold expire_leases. simpl. apply list_elem_of_fmap. exists b. split; [|done]. by rewrite Hov, Hatt, E3.
    + left. assert (Hc : claimable now b = true).
      { unfold claimable. rewrite Hatt, andb_true_iff, orb_true_iff, bool_decide_eq_true, Nat.ltb_lt. split; [done|lia]. }
      destruct (oldest_first now _ b Hb Hc) as (x & Hx & Hxi & Hxc). exists x. split_and!; [done..|by apply claim_takes|].
      apply next_row_spec in Hx as [_ Hcx]. destruct (claim_evolves w now lease x Hi Hxi Hcx) as (_ & _ & j & Hj & Hlt & Hl).
      exists j. eexists. rewrite Hl. split_and!; [done..|]. simpl. lia.
  - intros rq identity tenant plan j Hst Hj Hlt Hact Hacc Htu Hid Hre Hend Hown. rewrite Hj in Hjb. injection Hjb as <-.
    unfold Firmware.retry_code. rewrite (version_in_range w), Htu by done. cbn [andb]. unfold authorized_write. rewrite Hid.
    unfold Firmware.retry_work. rewrite Hown, Hre. cbn [negb rbind].
    destruct (in_enabled _ Hi) as [-> ->]; [by intros E; rewrite E in Hb; apply elem_of_nil in Hb|]. cbn [negb orb].
    rewrite (find_code w b), Hacc by done. cbn [rbind]. rewrite Hj, Hst, Hok, bool_decide_true by done.
    rewrite (proj2 (Nat.leb_gt 3 (jb_attempts j)) Hlt). cbn [negb orb]. rewrite Hact, Hend. eexists. split; [done|].
    simpl. unfold update_code. apply list_elem_of_fmap. exists b. by rewrite (proj2 (at_code_iff _ _ b)).
Qed.
(** ** The page *)
Lemma slice_to_length n s : String.length (slice_to n s) <= n.
Proof. revert s. induction n as [|n IH]; intros [|c s]; simpl; try lia. specialize (IH s). lia. Qed.
Lemma slice_from_length n s : String.length (slice_from n s) = String.length s - n.
Proof. revert s. induction n as [|n IH]; intros [|c s]; simpl; try lia. by rewrite IH. Qed.
Lemma slice_last_length n s : String.length (slice_last n s) <= n.
Proof. unfold slice_last. rewrite slice_from_length. lia. Qed.

(** The source a version is compiled from: what its own plan's candidate is at
    its own job's interval, which a passed record carries the hash of. *)
Definition written_from (d : FwDb) (b : CodeBundle) (source : string) : Prop :=
  exists j p sp plan, log_job (cb_log b) = Some j /\ plan_at d (cb_build_id b) (cb_plan_version b) = Some p /\
    spec_at d (cb_build_id b) (pl_spec_version p) = Some sp /\ decode p (sv_data sp) = Some plan /\
    renderCandidate (dp_candidate plan) (jb_interval_s j) = Some source /\
    forall r, cb_log b = PassedLog r -> pr_source_sha256 r = sha256 source.
(** What the page shows of a row among [rows]. *)
Definition shows (d : FwDb) (current : option nat) (rows : list CodeBundle) (b : CodeBundle) (v : FirmwareVersion) : Prop :=
  fv_version v = cb_version b /\ fv_plan_version v = cb_plan_version b /\ fv_status v = cb_status b /\
  fv_current v = bool_decide (current = Some (cb_plan_version b)) /\
  fv_manifest v = match cb_log b with PassedLog r => Some (pr_manifest r) | Log _ _ _ _ => None end /\
  exists j source, log_job (cb_log b) = Some j /\ fv_interval_s v = Some (jb_interval_s j) /\ fv_attempts v = jb_attempts j /\
    written_from d b source /\ fv_source v = Some source /\
    match jb_based_on j ≫= fun n => List.find (fun x => Nat.eqb (cb_version x) n) rows with
    | Some b0 => exists source0, written_from d b0 source0 /\ fv_previous_source v = Some source0
    | None => fv_previous_source v = None
    end.

Lemma job_renders w b : inv w -> b ∈ fw_bundles (wo_db w) ->
  exists j plan s, valid_job zod_uuid b = Some j /\ log_job (cb_log b) = Some j /\ job_ok j = true /\
    source_plan sha256 https_url cameraApprovals (wo_db w) (cb_build_id b) (cb_plan_version b) = Some plan /\
    job_source sha256 https_url zod_uuid cameraApprovals (wo_db w) (cb_build_id b) b = Some s /\ String.length s <= 2000 /\
    written_from (wo_db w) b s.
Proof.
  intros Hw Hb. pose proof (in_sound _ Hw b Hb) as Hsd. destruct (so_plan _ _ Hsd) as (j & p & plan & Hj & sp & P1 & P2 & P3 & P4 & P5 & P6 & [s Hs] & Hf).
  assert (Hv : valid_job zod_uuid b = Some j) by (unfold valid_job; by rewrite Hj, P5).
  assert (Hp : source_plan sha256 https_url cameraApprovals (wo_db w) (cb_build_id b) (cb_plan_version b) = Some plan) by (unfold source_plan; by rewrite P1, P3).
  exists j, plan, s. split_and!; try done; [unfold job_source, source_for; by rewrite Hv, Hp|by eapply rendered_length|].
  exists j, p, sp, plan. split_and!; try done. intros r Hr. pose proof (so_state _ _ Hsd) as Hst. unfold state_ok in Hst. rewrite Hr in Hst.
  destruct (cb_status b); try done. destruct Hst as (j' & p' & plan' & c & lease & (sp' & Q1 & _ & Q3 & Q4 & _) & Hid & Hpr & _).
  destruct (passed_record_spec _ _ _ _ Hpr) as [Hj' _]. rewrite Hr in Hj. simpl in Hj. rewrite Hj in Hj'. injection Hj' as <-.
  rewrite P1 in Q1. injection Q1 as <-. rewrite P3 in Q3. injection Q3 as <-. rewrite P4 in Q4. injection Q4 as <-.
  destruct (identity_spec _ _ _ _ Hid) as (_ & _ & _ & _ & _ & _ & I7 & I8 & _). rewrite Hs in I7. injection I7 as ->.
  unfold Firmware.passed_record in Hpr. destruct (FirmwarePassedRecord_ok _ _); [|done]. by injection Hpr as <-.
Qed.

(** Every row is shown, with its source. *)
Lemma version_shown w id current rows b : inv w -> (forall x, x ∈ rows -> x ∈ fw_bundles (wo_db w) /\ cb_build_id x = id) ->
  b ∈ fw_bundles (wo_db w) -> cb_build_id b = id ->
  exists v, version_of sha256 https_url zod_uuid cameraApprovals (wo_db w) id current rows b = Ok v /\ FirmwareVersion_ok zod_uuid v = true /\ shows (wo_db w) current rows b v.
Proof.
  intros Hw Hrows Hb <-. pose proof (in_sound _ Hw b Hb) as Hs. destruct (job_renders w b Hw Hb) as (j & plan & s & Hv & Hlj & Hj & Hp & Hsrc & Hlen & Hwr).
  assert (Hm : forall r, cb_status b = fw_passed -> cb_log b = PassedLog r -> FirmwarePassedRecord_ok zod_uuid r = true /\
      pr_candidate_id r = fm_profile_id (pr_manifest r) /\ candidateManifestMatches sha256 (dp_candidate plan) (pr_manifest r) = true).
  { intros r Est Er. destruct (passed_state _ _ (so_state _ _ Hs) Est) as (r' & Er' & j' & p & plan' & c & lease & (sp & P1 & P2 & P3 & P4 & _) & Hid & Hpr & _).
    rewrite Er in Er'. injection Er' as <-. unfold source_plan in Hp. rewrite P1, P3, P4 in Hp. injection Hp as ->.
    split; [by destruct (passed_record_spec _ _ _ _ Hpr)|]. unfold Firmware.passed_record in Hpr. destruct (FirmwarePassedRecord_ok _ _); [|done].
    injection Hpr as <-. simpl. destruct (identity_spec _ _ _ _ Hid) as (_ & _ & _ & Hc & _). split; [|done].
    unfold candidateManifestMatches in Hc. rewrite !andb_true_iff, String.eqb_eq in Hc. by destruct Hc as [[[-> _] _] _]. }
  assert (Hman : exists m, (if bool_decide (cb_status b = fw_passed) then
      match cb_log b with
      | PassedLog r => if negb (FirmwarePassedRecord_ok zod_uuid r) then Err (Http 503 "ARTIFACT_UNAVAILABLE")
          else if negb (pr_candidate_id r ==s fm_profile_id (pr_manifest r))%forge || negb (candidateManifestMatches sha256 (dp_candidate plan) (pr_manifest r))
          then Err (Http 503 "ARTIFACT_UNAVAILABLE") else Ok (Some (pr_manifest r))
      | Log _ _ _ _ => Err (Http 503 "ARTIFACT_UNAVAILABLE")
      end else Ok None) = Ok m /\ opt_ok (FirmwareManifest_ok zod_uuid) m = true /\
      m = match cb_log b with PassedLog r => Some (pr_manifest r) | Log _ _ _ _ => None end).
  { case_bool_decide as Est.
    2: { exists None. split_and!; [done..|]. pose proof (so_state _ _ Hs) as Hst. unfold state_ok in Hst. by destruct (cb_status b), (cb_log b). }
    destruct (passed_state _ _ (so_state _ _ Hs) Est) as (r & Er & _). rewrite Er.
    destruct (Hm r Est Er) as (H1 & H2 & H3). rewrite H1, H2, H3, String.eqb_refl. exists (Some (pr_manifest r)). split_and!; [done| |done].
    simpl. unfold FirmwarePassedRecord_ok in H1. by bools. }
  destruct Hman as (m & Hman & Hmok & Hme). eexists. unfold version_of. rewrite Hp, Hman. cbn [rbind]. split_and!; [reflexivity| |].
  2: { unfold shows. cbn [fv_version fv_plan_version fv_status fv_current fv_manifest fv_interval_s fv_attempts fv_source fv_previous_source].
    split_and!; [done..|]. exists j, s. rewrite Hv, Hsrc. split_and!; [done..|]. unfold prior_of. rewrite Hv. cbn [mbind option_bind].
    destruct (jb_based_on j) as [n|]; [|done]. cbn [mbind option_bind]. destruct (List.find _ rows) as [b0|] eqn:E0; [|done].
    apply find_Some_elem in E0 as [Hb0 _]. destruct (Hrows b0 Hb0) as [Hin0 Hid0].
    destruct (job_renders w b0 Hw Hin0) as (_ & _ & s0 & _ & _ & _ & _ & Hs0 & _ & Hw0). exists s0. by rewrite <- Hid0. }
  destruct (so_ids _ _ Hs) as (_ & I2 & I3). unfold FirmwareVersion_ok.
  cbn [fv_version fv_plan_version fv_interval_s fv_attempts fv_source fv_previous_source fv_error fv_diagnostics fv_manifest].
  rewrite Hv, Hsrc, Hmok. cbn [fmap option_fmap option_map opt_ok]. unfold FirmwareJob_ok in Hj.
  rewrite !andb_true_iff in Hj. destruct Hj as ((((_ & Hj2) & _) & _) & Hj5). unfold str_len.
  rewrite (proj2 (Nat.leb_le _ _) I2), (proj2 (Nat.leb_le _ _) I3), Hj2, Hj5. rewrite (proj2 (Z.leb_le (Z.of_nat (String.length s)) 2000)) by lia.
  cbn [andb]. rewrite andb_true_r, !andb_true_iff. split_and!.
  - destruct (prior_of zod_uuid rows b) as [x|] eqn:Ex; [|done]. cbn [mbind option_bind].
    assert (Hx : x ∈ rows).
    { unfold prior_of in Ex. rewrite Hv in Ex. cbn in Ex. destruct (jb_based_on j); [|done]. by apply find_Some_elem in Ex as [? _]. }
    destruct (Hrows x Hx) as [Hx1 Hx2]. destruct (job_renders w x Hw Hx1) as (_ & _ & s' & _ & _ & _ & _ & Hs' & Hl' & _). rewrite Hx2 in Hs'. rewrite Hs'.
    cbn [opt_ok]. apply Z.leb_le. lia.
  - destruct (log_error (cb_log b)) as [e|]; [|done]. cbn [fmap option_fmap option_map opt_ok]. apply Z.leb_le. pose proof (slice_to_length 1000 e). lia.
  - destruct (log_diagnostics (cb_log b)) as [e|]; [|done]. cbn [fmap option_fmap option_map opt_ok]. apply Z.leb_le.
    pose proof (slice_last_length (Z.to_nat 20000) e). lia.
Qed.

Lemma versions_shown w id current rows l : inv w -> (forall x, x ∈ rows -> x ∈ fw_bundles (wo_db w) /\ cb_build_id x = id) ->
  (forall x, x ∈ l -> x ∈ fw_bundles (wo_db w) /\ cb_build_id x = id) ->
  exists vs, versions_of sha256 https_url zod_uuid cameraApprovals (wo_db w) id current rows l = Ok vs /\ forallb (FirmwareVersion_ok zod_uuid) vs = true /\
    Forall2 (shows (wo_db w) current rows) l vs.
Proof.
  intros Hw Hrows. induction l as [|b l IH]; intros Hl; [by exists []|]. destruct (Hl b ltac:(left)) as [Hb Hid].
  destruct (version_shown w id current rows b Hw Hrows Hb Hid) as (v & Hv & Hok & H). destruct IH as (vs & Hvs & Hoks & HF); [intros x Hx; apply Hl; by right|].
  exists (v :: vs). simpl. rewrite Hv. cbn [rbind]. rewrite Hvs. cbn [rbind]. rewrite Hok, Hoks. split_and!; [done..|by constructor].
Qed.

(** C23: The page of a build's firmware always loads for a session that may
    read the build: no stored row is refused by the answer's schema and no
    passed record found inconsistent, and it shows the newest twenty versions,
    each with its status, its manifest when it passed, and the source it was or
    will be compiled from: its plan's candidate at its own interval, the one its
    record has the hash of, and likewise for the version it was edited from. *)
Theorem firmware_page_loads w rq id identity : wreachable w -> zod_uuid id = true ->
  withAuthorizedRead sha256 (rq_auth rq) (rq_admitted rq) (rq_cookie rq) (rq_host rq) = Ok identity ->
  owned (fw_plans (wo_db w)) id identity.1.1 = true ->
  exists page, firmware_page sha256 https_url zod_uuid enabled has_artifacts cameraApprovals rq id (wo_db w) = Ok page /\
    fp_accepted_plan_version page = current_accepted (wo_db w) id /\
    let rows := take 20 (bundles_desc (wo_db w) id) in
    Forall2 (shows (wo_db w) (current_accepted (wo_db w) id) rows) rows (fp_versions page).
Proof.
  intros Hw Hid Ha Hown. pose proof (wreachable_inv w Hw) as Hi. unfold firmware_page, authorized_read. rewrite Hid, Ha. unfold page_read. rewrite Hown.
  cbn [negb]. cbv zeta. set (current := current_accepted (wo_db w) id).
  assert (Hrows : forall x, x ∈ take 20 (bundles_desc (wo_db w) id) -> x ∈ fw_bundles (wo_db w) /\ cb_build_id x = id).
  { intros x Hx. apply elem_of_desc. eapply elem_of_sublist; [done|apply sublist_take]. }
  destruct (versions_shown w id current _ _ Hi Hrows Hrows) as (vs & Hvs & Hoks & HF). rewrite Hvs. cbn [rbind]. rewrite Hoks.
  assert (Hc : opt_ok (fun v => 1 <=? v) current = true); [|rewrite Hc; cbn [andb]; eexists; split_and!; [done|done|exact HF]].
  unfold current, current_accepted. destruct (List.find _ _) as [p|] eqn:E; [|done]. apply find_Some_elem in E as [Hp Hb]. simpl.
  bools. destruct (di_versions _ _ _ (in_plans _ Hi) id) as (n & Hn).
  assert (Hv : pl_version p ∈ versions id (pd_plans (fw_plans (wo_db w)))) by (apply list_elem_of_fmap; exists p; by rewrite elem_of_listfilter).
  rewrite Hn, elem_of_seq in Hv. apply Nat.leb_le. lia.
Qed.
(** ** A run that nothing disturbs *)
Fixpoint upload_all (lease : string) (row : ClaimedRow) (job : FirmwareJob) (plan : DecodedPlan) (c : Compiled)
    (files : list (string * string)) (w : World) : option World :=
  match files with
  | [] => Some w
  | (name, bytes) :: files =>
      match put (key_of row lease name) bytes (fw_objects (wo_db w)) with
      | Some o => upload_all lease row job plan c files (set_worker lease (Uploading row job plan c files) (with_db (with_objects o (wo_db w)) w))
      | None => None
      end
  end.
Definition unlocked (w : World) : World := mkWorld (wo_db w) (wo_workers w) (wo_used w) None.
Definition publish_now (now : Z) (lease : string) (row : ClaimedRow) (job : FirmwareJob) (plan : DecodedPlan) (c : Compiled) (w : World) : option World :=
  match passed_record job plan c with
  | Some r => (fun d => unlocked (end_worker lease (with_db d w))) <$> publish now lease row job plan c r (wo_db w)
  | None => None
  end.
Definition run_once (now : Z) (lease : string) (compile : CompileInput -> Compiled) (w : World) : option World :=
  if negb (bool_decide (wo_lock w = None)) || bool_decide (lease ∈ wo_used w) then None
  else
    let w := with_db (expire_leases now (wo_db w)) w in
    let r := claim now lease (fun _ => false) (wo_db w) in
    let w := claimed lease r w in
    match r.1 with
    | Some row =>
        match prepare row with
        | Some (job, plan) =>
            let c := compile (compile_input row job plan) in
            if identity_ok (cr_bundle row) job plan c then
              match upload_all lease row job plan c (uploads c) (set_worker lease (Uploading row job plan c (uploads c)) w) with
              | Some w => publish_now now lease row job plan c w
              | None => None
              end
            else None
        | None => None
        end
    | None => None
    end.

Lemma upload_all_reaches lease row job plan c l w w' : wo_workers w !! lease = Some (Uploading row job plan c l) ->
  upload_all lease row job plan c l w = Some w' ->
  rtc wstep w w' /\ wo_workers w' !! lease = Some (Uploading row job plan c []) /\ wo_lock w' = wo_lock w.
Proof.
  revert w. induction l as [|[name bytes] l IH]; intros w Hs; simpl; [by intros [= <-]|].
  destruct (put _ _ _) as [o|] eqn:Ep; [|done]. intros H. destruct (IH _ (lookup_insert_eq _ _ _) H) as (H1 & H2 & H3).
  split_and!; [|done..]. eapply rtc_l; [by eapply ws_put|exact H1].
Qed.

Lemma run_reaches now lease compile w w' : run_once now lease compile w = Some w' -> rtc wstep w w'.
Proof.
  unfold run_once. case_bool_decide as El; [|done]. case_bool_decide as Eu; [done|]. cbn [negb orb]. cbv zeta.
  set (w1 := with_db _ w). set (r := claim _ _ _ _). set (w2 := claimed _ _ w1).
  assert (H12 : rtc wstep w w2).
  { eapply rtc_l; [apply ws_expire|]. eapply rtc_once. by apply ws_claim. }
  destruct r.1 as [row|] eqn:Er; [|done]. destruct (prepare row) as [[job plan]|] eqn:Ep; [|done].
  assert (Hs : wo_workers w2 !! lease = Some (Claimed row) /\ wo_lock w2 = Some lease).
  { subst w2. unfold claimed. rewrite Er. simpl. by rewrite lookup_insert_eq. }
  destruct Hs as [Hs Hl]. set (c := compile _). destruct (identity_ok _ _ _ c) eqn:Ei; [|done].
  set (w3 := set_worker lease _ w2). assert (H23 : wstep w2 w3) by by apply ws_compiled.
  destruct (upload_all _ _ _ _ _ _ w3) as [w4|] eqn:Eup; [|done].
  destruct (upload_all_reaches lease row job plan c _ w3 w4 (lookup_insert_eq _ _ _) Eup) as (H34 & Hs4 & Hl4).
  unfold publish_now. destruct (passed_record job plan c) as [p|] eqn:Epr; [|done]. destruct (publish _ _ _ _ _ _ _ _) as [d|] eqn:Epub; [|done].
  intros [= <-]. etransitivity; [exact H12|]. eapply rtc_l; [exact H23|]. etransitivity; [exact H34|].
  eapply rtc_l; [eapply (ws_publish w4); try done; by rewrite Hl4|]. apply rtc_once, ws_lost.
Qed.
End FirmwareSpec.
