(* ===== verification/Provision.v ===== *)
(** * Provisioning a device ([apps/gateway/src/device-provisioning-store.ts],
    [provisioning-*.ts], [device-credential.ts])

    A device identity is claimed for a passed version of an accepted plan; its
    configuration, with the only copy of its token, waits sealed for the session
    family that claimed it, is handed over once, and may be replaced or revoked.
    A transaction serialises on the build's row, so it is a function of the
    tables. Bytes are numbers below 256. AES-GCM, SHA-256, random bytes and the
    schema library's formats are parameters; ids are as the database prints
    them. *)
From stdpp Require Import gmap.
From S2P Require Import Prelude JsString Regex JsNumber Part Assembly MatcherTypes Json Spec Db Auth Cookies Access Http Plans Telemetry Candidate Firmware.
#[local] Open Scope string_scope.
#[local] Open Scope list_scope.
#[local] Open Scope nat_scope.
#[local] Open Scope forge_scope.

(** ** Credentials ([device-credential.ts]) *)
Record CredentialBinding := mkBinding {
  bi_deviceId : string;
  bi_tenantId : string;
  bi_buildId : string;
  bi_planVersion : nat;
  bi_handoffVersion : nat
}.
Record SealedCredential := mkSealed { sl_keyId : string; sl_nonce : string; sl_ciphertext : string; sl_tag : string }.
Record HandoffKeys := mkKeys { hk_active : string; hk_keys : list (string * list nat) }.

Definition canonical (value : string) (len : nat) : bool :=
  negb (value ==s "") && all_chars is_b64 value && Nat.eqb (length (from_base64url value)) len &&
  (base64url (from_base64url value) ==s value).
Definition aad (b : CredentialBinding) : string :=
  stringify (JArr [JStr "albusforge/device-handoff/v1"; JStr (bi_tenantId b); JStr (bi_buildId b); JNum (of_nat (bi_planVersion b));
                   JStr (bi_deviceId b); JNum (of_nat (bi_handoffVersion b))]).

(** [parseHandoffKeys], once the text has the shape of a key ring. *)
Definition KEY_ID (s : string) : bool := len_between 1 40 s && all_chars is_b64 s.
Definition parseHandoffKeys (active : string) (entries : list (string * string)) : option HandoffKeys :=
  if KEY_ID active && len_list 1 4 entries && forallb (fun kv => KEY_ID kv.1 && canonical kv.2 32) entries && inb active entries.*1
  then Some (mkKeys active ((fun kv => (kv.1, from_base64url kv.2)) <$> entries))
  else None.

(** Text and its bytes, for text that is ASCII; other bytes are never canonical. *)
Definition bytes_of (s : string) : list nat := code <$> list_ascii_of_string s.
Definition text_of (l : list nat) : string := of_chars (ascii_of_nat <$> l).

Section Crypt.
(** AES-256-GCM: key, nonce, associated data, text to ciphertext and tag; and back. *)
Context (encrypt : list nat -> list nat -> string -> list nat -> list nat * list nat).
Context (decrypt : list nat -> list nat -> string -> list nat -> list nat -> option (list nat)).

Definition sealCredential (token : string) (binding : CredentialBinding) (nonce : list nat) (ring : HandoffKeys) : option SealedCredential :=
  match map_get (hk_active ring) (hk_keys ring) with
  | Some key =>
      if canonical token 32 then
        let '(ciphertext, tag) := encrypt key nonce (aad binding) (bytes_of token) in
        Some (mkSealed (hk_active ring) (base64url nonce) (base64url ciphertext) (base64url tag))
      else None
  | None => None
  end.
Definition openCredential (sealed : SealedCredential) (binding : CredentialBinding) (ring : HandoffKeys) : option string :=
  match map_get (sl_keyId sealed) (hk_keys ring) with
  | Some key =>
      if canonical (sl_nonce sealed) 12 && canonical (sl_tag sealed) 16 && canonical (sl_ciphertext sealed) 43 then
        match decrypt key (from_base64url (sl_nonce sealed)) (aad binding) (from_base64url (sl_ciphertext sealed)) (from_base64url (sl_tag sealed)) with
        | Some bytes => if canonical (text_of bytes) 32 then Some (text_of bytes) else None
        | None => None
        end
      else None
  | None => None
  end.
End Crypt.

(** ** Profiles ([provisioning-profile.ts]) *)
Record ChannelSource := mkChannelSource { cs_key : string; cs_range : TelemetryChannel; cs_part : PartPin; cs_schema : string }.
Record CapabilitySource := mkCapabilitySource { as_capability_id : string; as_part : PartPin; as_schema : string }.
Record ProvisioningProfile := mkProvisioningProfile {
  pp_profile_id : string;
  pp_profile_version : string;
  pp_assembly_profile : string * string;
  pp_runtime : string;
  pp_part_versions : list PartPin;
  pp_firmware_profile_id : string;
  pp_health_sources : list PartPin;
  pp_capabilities : option (list SensorCapability);
  pp_capability_sources : option (list CapabilitySource);
  pp_channels : list ChannelSource
}.
Definition HEALTH : string := "device_health.v1".
Definition named (p : PartPin) : bool := (1 <=? String.length (pp_id p)) && (1 <=? String.length (pp_version p)).
(** [Object.assign] of the measurements' channels: a later key replaces. *)
Definition assign (into : ChannelTable) (l : ChannelTable) : ChannelTable := fold_left (fun m kv => map_set kv.1 kv.2 m) l into.
Definition measured (c : SensorCapability) : ChannelTable := match sc_kind c with MeasurementKind channels => channels | ImageKind _ _ _ => [] end.
Definition numeric_of (l : list SensorCapability) : ChannelTable := fold_left (fun m c => assign m (measured c)) l [].
Definition same_range (a : option TelemetryChannel) (b : TelemetryChannel) : bool :=
  match a with Some a => stringify (range_json a) ==s stringify (range_json b) | None => false end.
Definition ProvisioningProfile_ok (p : ProvisioningProfile) : bool :=
  len_between 1 100 (pp_profile_id p) && len_between 1 40 (pp_profile_version p) &&
  (1 <=? String.length (pp_assembly_profile p).1) && (1 <=? String.length (pp_assembly_profile p).2) && len_between 1 40 (pp_runtime p) &&
  len_list 1 64 (pp_part_versions p) && forallb named (pp_part_versions p) && len_between 1 100 (pp_firmware_profile_id p) &&
  (length (pp_health_sources p) <=? 1) && forallb named (pp_health_sources p) && opt_ok DeviceCapabilities_ok (pp_capabilities p) &&
  opt_ok (fun l => (length l <=? 64) && forallb (fun s => named (as_part s) && (1 <=? String.length (as_schema s))) l) (pp_capability_sources p) &&
  (length (pp_channels p) <=? 64) &&
  forallb (fun c => test CHANNEL_NAME (cs_key c) && TelemetryChannel_ok (cs_range c) && named (cs_part c) && len_between 1 100 (cs_schema c)) (pp_channels p) &&
  (negb (Nat.eqb (length (pp_channels p)) 0) || from_option (existsb (fun c => is_image c && sc_enabled c)) false (pp_capabilities p)) &&
  match pp_capabilities p with
  | Some caps =>
      let sources := default [] (pp_capability_sources p) in
      existsb sc_enabled caps && Nat.eqb (length (numeric_of caps)) (length (pp_channels p)) &&
      forallb (fun c => same_range (map_get (cs_key c) (numeric_of caps)) (cs_range c)) (pp_channels p) &&
      Nat.eqb (length sources) (length caps) && all_distinct (as_capability_id <$> sources) &&
      forallb (fun c => inb (sc_id c) (as_capability_id <$> sources)) caps
  | None => Nat.eqb (length (default [] (pp_capability_sources p))) 0
  end &&
  all_distinct (pinKey <$> pp_part_versions p) && all_distinct (cs_key <$> pp_channels p).
Definition ProvisioningProfiles_ok (l : list ProvisioningProfile) : bool :=
  (length l <=? 64) && forallb ProvisioningProfile_ok l &&
  all_distinct ((fun p => pp_profile_id p ++ "@" ++ pp_profile_version p)%string <$> l).

(** *** [resolveProvisioningProfile]: what the parts that supply data cover *)
Definition find_part (parts : list PartDefinition) (p : PartPin) : option PartDefinition := List.find (fun q => same_pin (pin q) p) parts.
Definition schema_of (p : PartDefinition) : option string := telemetry_schema (cloud p).
Definition channel_source (parts : list PartDefinition) (c : ChannelSource) : option PartPin :=
  match find_part parts (cs_part c) with
  | Some part =>
      if (cs_schema c ==s HEALTH) || negb (bool_decide (schema_of part = Some (cs_schema c))) then None else Some (pin part)
  | None => None
  end.
Definition supplied_by (profile : ProvisioningProfile) (s : CapabilitySource) (key : string) : bool :=
  existsb (fun c => (cs_key c ==s key) && same_pin (cs_part c) (as_part s) && (cs_schema c ==s as_schema s)) (pp_channels profile).
Definition capability_source (profile : ProvisioningProfile) (parts : list PartDefinition) (s : CapabilitySource) : option PartPin :=
  match find_part parts (as_part s), List.find (fun c => sc_id c ==s as_capability_id s) (default [] (pp_capabilities profile)) with
  | Some part, Some capability =>
      if negb (bool_decide (schema_of part = Some (as_schema s))) then None
      else if negb (forallb (supplied_by profile s) (capability_channels capability)) then None
      else Some (pin part)
  | _, _ => None
  end.
Definition health_source (parts : list PartDefinition) (p : PartPin) : option PartPin :=
  match find_part parts p with
  | Some part =>
      if negb (bool_decide (interface (electrical part) = host)) || negb (bool_decide (schema_of part = Some HEALTH)) then None else Some (pin part)
  | None => None
  end.
Fixpoint collect {A B} (f : A -> option B) (l : list A) : option (list B) :=
  match l with
  | [] => Some []
  | a :: l => match f a, collect f l with Some b, Some bs => Some (b :: bs) | _, _ => None end
  end.
Definition matches_plan (plan : BuildPlan) (firmwareProfileId : string) (p : ProvisioningProfile) : bool :=
  same_profile (pp_assembly_profile p) (plan_profile plan) && (pp_runtime p ==s plan_runtime plan) &&
  (pins (pp_part_versions p) ==s pins (part_versions plan)) && (pp_firmware_profile_id p ==s firmwareProfileId).
Record Provisioned := mkProvisioned { pd_profile : ProvisioningProfile; pd_channels : ChannelTable; pd_capabilities : list SensorCapability }.
Definition resolveProvisioningProfile (profiles : list ProvisioningProfile) (plan : BuildPlan) (parts : list PartDefinition)
    (firmwareProfileId : string) : option Provisioned :=
  if negb (pins (pin <$> parts) ==s pins (part_versions plan)) || existsb (fun p => negb (bool_decide (status p = active))) parts then None
  else
    match List.filter (matches_plan plan firmwareProfileId) profiles with
    | [profile] =>
        match collect (channel_source parts) (pp_channels profile),
              collect (capability_source profile parts) (default [] (pp_capability_sources profile)),
              collect (health_source parts) (pp_health_sources profile) with
        | Some a, Some b, Some c =>
            if existsb (fun p => bool_decide (is_Some (schema_of p)) && negb (inb (pinKey (pin p)) (pinKey <$> a ++ b ++ c))) parts then None
            else
              let channels := fold_left (fun m c => map_set (cs_key c) (cs_range c) m) (pp_channels profile) [] in
              if channel_table_ok channels then Some (mkProvisioned profile channels (default [] (pp_capabilities profile))) else None
        | _, _, _ => None
        end
    | _ => None
    end.

(** ** State: [telemetry.device_provisionings] beside the other tables. Who made a
    row, and a device's source, are written and never read back here. *)
Record Provisioning := mkProvisioning {
  pv_device_id : string;
  pv_tenant_id : string;
  pv_build_id : string;
  pv_plan_version : nat;
  pv_code_version : nat;
  pv_claim_request_id : string;
  pv_created_at : Z;
  pv_manifest_digest : string;
  pv_ingest_url : string;
  pv_credential_version : nat;
  pv_seq_start : Z;
  pv_handoff_user_id : option string;
  pv_handoff_session_root : option string;
  pv_handoff_expires_at : Z;
  pv_handoff_consumed_at : option Z;
  pv_sealed : option SealedCredential;
  pv_reissue : option (string * nat)
}.
Record ProvisionDb := mkProvisionDb { po_fw : FwDb; po_tel : TelemetryDb; po_rows : list Provisioning }.
Definition with_rows (l : list Provisioning) (d : ProvisionDb) : ProvisionDb := mkProvisionDb (po_fw d) (po_tel d) l.
Definition with_tel (t : TelemetryDb) (d : ProvisionDb) : ProvisionDb := mkProvisionDb (po_fw d) t (po_rows d).
Definition with_capabilities (l : list CapabilityRow) (d : TelemetryDb) : TelemetryDb :=
  mkTelemetry (d_devices d) l (d_packets d) (d_readings d) (d_latest d) (d_usage d) (d_presence d) (d_raw_before d) (d_dirty d).

(** The session that asks, with the root of its family. *)
Record ProvisioningSession := mkProvisioningSession { se_tenantId : string; se_userId : string; se_rootSessionId : string }.

(** ** Public state *)
Inductive ProvisioningState := credential_revoked | configuration_downloaded | configuration_expired | configuration_ready.
Record DeviceProvisioning := mkDeviceProvisioning {
  dp_device_id : string;
  dp_build_id : string;
  dp_plan_version : nat;
  dp_code_version : nat;
  dp_credential_version : nat;
  dp_state : ProvisioningState;
  dp_handoff_expires_at : Z;
  dp_handoff_available : bool;
  dp_created_at : Z
}.
Definition expired (checked : Z) (row : Provisioning) : bool := (pv_handoff_expires_at row <=? checked)%Z.
Definition issued_to (row : Provisioning) (user root : string) : bool :=
  bool_decide (pv_handoff_user_id row = Some user) && bool_decide (pv_handoff_session_root row = Some root).
Definition handoff_state (checked : Z) (row : Provisioning) (device : DeviceRow) : ProvisioningState :=
  if bool_decide (is_Some (dv_revoked_at device)) then credential_revoked
  else if bool_decide (is_Some (pv_handoff_consumed_at row)) then configuration_downloaded
  else if expired checked row then configuration_expired else configuration_ready.

(** [ingest_url]: HTTPS, or the local loopback. *)
Definition INGEST_PATH : string := "/ingest/v1".
Definition INGEST_URL : re :=
  Cat (ralt [Cat (lit "https://") (rplus (Chr (fun c => negb (one_of "/?#@" c) && negb (is_space c))));
             Cat (lit "http://") (Cat (ralt [lit "localhost"; lit "127.0.0.1"; lit "[::1]"]) (ropt (Cat (lit ":") (rplus (Chr is_digit)))))])
      (lit INGEST_PATH).
Definition CanonicalToken : re := Cat (rrep 42 (Chr is_b64)) (Chr (one_of "AEIMQUYcgkosw048")).
(** [url.replace(/\/ingest\/v1$/, ...)] *)
Definition observations_url (url deviceId : string) : string :=
  if endsWith INGEST_PATH url
  then (slice_to (String.length url - String.length INGEST_PATH) url ++ "/ingest/v2/devices/" ++ deviceId ++ "/observations")%string
  else url.

Section Provision.
Context (sha256 : string -> string) (https_url zod_url zod_uuid : string -> bool).
Context (encrypt : list nat -> list nat -> string -> list nat -> list nat * list nat).
Context (decrypt : list nat -> list nat -> string -> list nat -> list nat -> option (list nat)).
(** [DeviceProvisioningOptions]. *)
Context (keys : option HandoffKeys) (ingestUrl : option string) (profiles : list ProvisioningProfile).

Definition provisioning_status (checked : Z) (row : Provisioning) (device : DeviceRow) (user root : string) (mayDownload : bool)
    : result HttpError DeviceProvisioning :=
  if zod_uuid (pv_device_id row) && zod_uuid (pv_build_id row) && (1 <=? pv_plan_version row) && (1 <=? pv_code_version row) &&
     (1 <=? pv_credential_version row)
  then Ok (mkDeviceProvisioning (pv_device_id row) (pv_build_id row) (pv_plan_version row) (pv_code_version row) (pv_credential_version row)
    (handoff_state checked row device) (pv_handoff_expires_at row)
    (negb (bool_decide (is_Some (dv_revoked_at device))) && negb (bool_decide (is_Some (pv_handoff_consumed_at row))) && negb (expired checked row) &&
     bool_decide (is_Some (pv_sealed row)) && issued_to row user root && mayDownload) (pv_created_at row))
  else Err Crash.

(** ** What a device may be provisioned for ([provisioning-authority.ts]) *)
Record Authority := mkAuthority {
  au_channels : ChannelTable;
  au_capabilities : list SensorCapability;
  au_nextS : num;
  au_firmware : FirmwarePassedRecord;
  au_plan : BuildPlan;
  au_input_digest : string;
  au_profile : ProvisioningProfile
}.
Definition driver_backed (plan : BuildPlan) (evidence : BuildPlanEvidence) (p : PartDefinition) : bool :=
  match driver_pkg (software p) with
  | None => true
  | Some pkg =>
      existsb (fun c => bool_decide (ce_status c = passed) && (ce_driver_pkg c ==s pkg) &&
        bool_decide (Some (ce_driver_ver c) = driver_version (software p)) &&
        (ce_brain_id c ==s pp_id (wg_brain (wiring_graph plan))) && (ce_runtime_ver c ==s plan_runtime plan)) (ev_compat evidence)
  end.
Definition evidence_matches (plan : BuildPlan) (evidence : BuildPlanEvidence) : bool :=
  let profile := ev_profile evidence in
  same_profile (prof_id profile, prof_version profile) (plan_profile plan) &&
  same_pin (prof_brain profile) (wg_brain (wiring_graph plan)) && same_pin (prof_source profile) (wg_source (wiring_graph plan)) &&
  forallb (driver_backed plan evidence) (ev_parts evidence).

(** [verifyProvisioningFirmware] ([provisioning-firmware.ts]); it parses the
    record again. *)
Definition same_channel (manifest : ChannelTable) (kv : string * TelemetryChannel) : bool :=
  match map_get kv.1 manifest with
  | Some actual => (tc_unit actual ==s tc_unit kv.2) && neqb (tc_min actual) (tc_min kv.2) && neqb (tc_max actual) (tc_max kv.2)
  | None => false
  end.
Definition verifyProvisioningFirmware (record : FirmwarePassedRecord) (buildId : string) (planVersion codeVersion : nat) (runtime : string)
    (p : Provisioned) : result HttpError bool :=
  let manifest := pr_manifest record in
  if negb (FirmwarePassedRecord_ok zod_uuid record) then Ok false
  else if negb ((pr_candidate_id record ==s fm_profile_id manifest) && (fm_build_id manifest ==s buildId) &&
                Nat.eqb (fm_plan_version manifest) planVersion && Nat.eqb (fm_code_version manifest) codeVersion &&
                (fm_runtime manifest ==s runtime) && (fm_profile_id manifest ==s pp_firmware_profile_id (pd_profile p))) then Ok false
  else if negb (Nat.eqb (length (pd_channels p)) (length (fm_channels manifest)) && forallb (same_channel (fm_channels manifest)) (pd_channels p)) then Ok false
  else if negb (DeviceCapabilities_ok (pd_capabilities p)) && negb (Nat.eqb (length (pd_capabilities p)) 0) then Err Crash
  else if negb (bool_decide ((fun l => stringify (capabilities_json l)) <$> fm_capabilities manifest =
                 match pd_capabilities p with [] => None | l => Some (stringify (capabilities_json l)) end)) then Ok false
  else
    match serializeFirmwareManifest zod_uuid manifest with
    | Some text => Ok (sha256 text ==s pr_manifest_digest record)
    | None => Err Crash
    end.

Definition unavailable_ : HttpError := Http 409 "PROVISIONING_UNAVAILABLE".
Definition not_ready : HttpError := Http 409 "FIRMWARE_NOT_READY".
(** The accepted plan's evidence, complete and consistent. *)
Definition plan_evidence (d : FwDb) (buildId : string) (planVersion : nat) (requireCurrent : bool)
    : result HttpError (num * BuildPlanMetadata * BuildPlan) :=
  match plan_at d buildId planVersion with
  | Some row =>
      if negb (bool_decide (is_Some (pl_accepted_at row))) then Err (Http 409 "PLAN_NOT_ACCEPTED")
      else if requireCurrent && negb (bool_decide (current_spec_version d buildId = Some (pl_spec_version row))) then Err (Http 409 "PLAN_STALE")
      else
        match spec_at d buildId (pl_spec_version row) with
        | Some stored =>
            let spec := sv_data stored in
            match sense_interval_s (spec_sense spec) with
            | Some interval =>
                if negb (Spec_ok spec && is_integer interval && negb (nlt interval (of_Z 1)) && negb (nlt (of_Z 86400) interval)) then Err unavailable_
                else
                  match pl_metadata row with
                  | Some m =>
                      if negb (BuildPlanMetadata_ok https_url m) then Err unavailable_
                      else
                        match planInputDigest sha256 spec (bm_runtime m) (bm_evidence m) with
                        | Some digest =>
                            if negb (bm_input_digest m ==s digest) then Err unavailable_
                            else if negb (BuildPlan_ok (row_plan row m)) then Err unavailable_
                            else if negb (evidence_matches (row_plan row m) (bm_evidence m)) then Err unavailable_
                            else Ok (interval, m, row_plan row m)
                        | None => Err Crash
                        end
                  | None => Err unavailable_
                  end
            | None => Err unavailable_
            end
        | None => Err unavailable_
        end
  | None => Err (Http 409 "PLAN_NOT_ACCEPTED")
  end.
Definition passed_bundle (d : FwDb) (buildId : string) (planVersion codeVersion : nat) : option FirmwarePassedRecord :=
  match List.find (fun b => at_code buildId codeVersion b && Nat.eqb (cb_plan_version b) planVersion) (fw_bundles d) with
  | Some b =>
      match cb_log b with
      | PassedLog r =>
          if bool_decide (cb_status b = fw_passed) && negb (default "" (cb_storage_ref b) ==s "") && FirmwarePassedRecord_ok zod_uuid r then Some r else None
      | Log _ _ _ _ => None
      end
  | None => None
  end.
Definition loadProvisioningAuthority (d : FwDb) (tenantId buildId : string) (planVersion codeVersion : nat) (requireCurrent : bool)
    : result HttpError Authority :=
  if negb (owned (fw_plans d) buildId tenantId) then Err (Http 404 "NOT_FOUND")
  else
    let! (interval, m, plan) := plan_evidence d buildId planVersion requireCurrent in
    match passed_bundle d buildId planVersion codeVersion with
    | None => Err not_ready
    | Some record =>
        match resolveProvisioningProfile profiles plan (ev_parts (bm_evidence m)) (fm_profile_id (pr_manifest record)) with
        | None => Err unavailable_
        | Some p =>
            if existsb (fun c => sc_enabled c && nlt (of_Z (sc_interval_s c)) interval) (pd_capabilities p) then Err unavailable_
            else
              let! verified := verifyProvisioningFirmware record buildId planVersion codeVersion (plan_runtime plan) p in
              let compiled := match pr_job record with Some j => jb_interval_s j | None => interval end in
              if negb verified || nlt compiled interval then Err not_ready
              else Ok (mkAuthority (pd_channels p) (pd_capabilities p) compiled record plan (bm_input_digest m) (pd_profile p))
        end
    end.

(** ** The configuration handed over ([packages/schema/src/device-provisioning.ts]) *)
Record DeviceConfig := mkDeviceConfig {
  dc_v : nat;
  dc_device_id : string;
  dc_token : string;
  dc_ingest_url : string;
  dc_seq_start : Z;
  dc_profile_id : string;
  dc_runtime : string;
  dc_channels : ChannelTable;
  dc_build_id : string;
  dc_plan_version : nat;
  dc_code_version : nat;
  dc_manifest_digest : string;
  dc_observations : option (list SensorCapability * string)
}.
Definition ingest_url_ok (url : string) : bool := zod_url url && test INGEST_URL url.
(** [DeviceConfigV1] has no capabilities, [DeviceConfigV2] has them with the URL
    their observations go to. *)
Definition DeviceConfig_ok (c : DeviceConfig) : bool :=
  zod_uuid (dc_device_id c) && test CanonicalToken (dc_token c) && ingest_url_ok (dc_ingest_url c) &&
  between 0 MAX_SAFE_INTEGER (dc_seq_start c) && len_between 1 120 (dc_profile_id c) && SemVer (dc_runtime c) &&
  zod_uuid (dc_build_id c) && (1 <=? dc_plan_version c) && (1 <=? dc_code_version c) && Digest (dc_manifest_digest c) &&
  channel_table_ok (dc_channels c) &&
  match dc_observations c with
  | None => Nat.eqb (dc_v c) 1 && (1 <=? length (dc_channels c))
  | Some (capabilities, url) =>
      Nat.eqb (dc_v c) 2 && DeviceCapabilities_ok capabilities && zod_url url &&
      (url ==s observations_url (dc_ingest_url c) (dc_device_id c)) &&
      Nat.eqb (length (dc_channels c)) (length (numeric_of capabilities)) &&
      forallb (fun kv => same_range (map_get kv.1 (numeric_of capabilities)) kv.2) (dc_channels c)
  end.

(** [deviceProvisioningFromEnv]: [K_SERVICE] is the deployed service. *)
Definition deviceProvisioningFromEnv (ring : option HandoffKeys) (url : option string) (deployed : bool) (approved : list ProvisioningProfile)
    : option (option HandoffKeys * option string * list ProvisioningProfile) :=
  if negb (opt_ok (fun u => ingest_url_ok u && (negb deployed || startsWith "https://" u)) url) then None
  else if negb (Bool.eqb (bool_decide (is_Some ring)) (bool_decide (is_Some url))) then None
  else if ProvisioningProfiles_ok approved then Some (ring, url, approved) else None.

(** ** Sessions ([provisioning-session.ts]): the root of the caller's family *)
Definition roots_of (rq : Request) : list string :=
  match sessionTokenHash sha256 (rq_cookie rq) with
  | Ok hash => match own_session (rq_auth rq) hash with Some (_, chain) => ss_id <$> List.filter is_root chain | None => [] end
  | Err _ => []
  end.
(** [early]: when it looks at the clock again before the work, which may look
    again itself. *)
Definition withProvisioningSession {A} (rq : Request) (early : Z) (expected : string)
    (write : ProvisioningSession -> (Z -> result HttpError unit) -> ProvisionDb -> result HttpError (A * ProvisionDb)) (d : ProvisionDb)
    : result HttpError A * ProvisionDb :=
  authorized_write sha256 rq (Some expected) (fun identity _ d =>
    match roots_of rq with
    | [root] =>
        let! _ := recheckExpiry sha256 rq early in
        write (mkProvisioningSession identity.1 identity.2 root) (recheckExpiry sha256 rq) d
    | _ => Err (Http 401 "UNAUTHORIZED")
    end) d.

(** ** The store ([createDeviceProvisioningStore]) *)

(** When the transaction began, and when its statements ran: the first read
    under the locks, the looks at the sessions' expiry, the writes, and the last
    read. *)
Record Times := mkTimes { tm_start : Z; tm_locked : Z; tm_check : Z; tm_recheck : Z; tm_write : Z; tm_read : Z }.
Definition HANDOFF_MS : Z := 10 * 60 * 1000.

Definition configured : result HttpError (HandoffKeys * string) :=
  match keys, ingestUrl with
  | Some ring, Some url => if url ==s "" then Err (Http 503 "PROVISIONING_UNAVAILABLE") else Ok (ring, url)
  | _, _ => Err (Http 503 "PROVISIONING_UNAVAILABLE")
  end.
Definition mismatch : HttpError := Http 409 "CONFIGURATION_CHANGED".
Definition handoff_unavailable : HttpError := Http 410 "HANDOFF_UNAVAILABLE".
Definition of_device (tenantId deviceId : string) (row : Provisioning) : bool :=
  (pv_tenant_id row ==s tenantId) && (pv_device_id row ==s deviceId).
Definition binding (row : Provisioning) (version : nat) (tenantId : string) : CredentialBinding :=
  mkBinding (pv_device_id row) tenantId (pv_build_id row) (pv_plan_version row) version.
Definition device_of (d : ProvisionDb) (tenantId deviceId : string) : option DeviceRow :=
  match d_devices (po_tel d) !! deviceId with
  | Some v => if dv_tenant_id v ==s tenantId then Some v else None
  | None => None
  end.
Definition locked (d : ProvisionDb) (tenantId deviceId : string) : result HttpError (Provisioning * DeviceRow) :=
  match List.find (of_device tenantId deviceId) (po_rows d) with
  | Some row =>
      if negb (owned (fw_plans (po_fw d)) (pv_build_id row) tenantId) then Err (Http 404 "NOT_FOUND")
      else match device_of d tenantId deviceId with Some device => Ok (row, device) | None => Err (Http 404 "NOT_FOUND") end
  | None => Err (Http 404 "NOT_FOUND")
  end.
Definition status_of (checked : Z) (d : ProvisionDb) (s : ProvisioningSession) (deviceId : string) : result HttpError DeviceProvisioning :=
  let! (row, device) := locked d (se_tenantId s) deviceId in
  provisioning_status checked row device (se_userId s) (se_rootSessionId s) true.

(** *** Updates of one row *)
Definition update_row (deviceId : string) (f : Provisioning -> Provisioning) (d : ProvisionDb) : ProvisionDb :=
  with_rows ((fun r => if pv_device_id r ==s deviceId then f r else r) <$> po_rows d) d.
Definition update_device (deviceId : string) (f : DeviceRow -> DeviceRow) (d : ProvisionDb) : ProvisionDb :=
  match d_devices (po_tel d) !! deviceId with
  | Some v => with_tel (with_devices (<[deviceId := f v]> (d_devices (po_tel d))) (po_tel d)) d
  | None => d
  end.
Definition token_taken (d : ProvisionDb) (deviceId hash : string) : bool :=
  existsb (fun kv => negb (kv.1 ==s deviceId) && (dv_token_hash kv.2 ==s hash)) (map_to_list (d_devices (po_tel d))).
Definition with_token (hash : string) (v : DeviceRow) : DeviceRow :=
  mkDevice (dv_tenant_id v) hash (dv_revoked_at v) (dv_channels v) (dv_next_s v) (dv_last_seen_at v) (dv_last_seq v) (dv_status v).
Definition with_revoked (now : Z) (v : DeviceRow) : DeviceRow :=
  mkDevice (dv_tenant_id v) (dv_token_hash v) (Some (default now (dv_revoked_at v))) (dv_channels v) (dv_next_s v) (dv_last_seen_at v)
    (dv_last_seq v) (dv_status v).
(** The columns of a row that a handoff changes. *)
Definition with_handoff (version : nat) (seq_start : Z) (url : string) (owner : option string * option string) (expires : Z)
    (consumed : option Z) (sealed : option SealedCredential) (reissue : option (string * nat)) (r : Provisioning) : Provisioning :=
  mkProvisioning (pv_device_id r) (pv_tenant_id r) (pv_build_id r) (pv_plan_version r) (pv_code_version r) (pv_claim_request_id r)
    (pv_created_at r) (pv_manifest_digest r) url version seq_start owner.1 owner.2 expires consumed sealed reissue.
Definition cleared (consumed : option Z) (r : Provisioning) : Provisioning :=
  with_handoff (pv_credential_version r) (pv_seq_start r) (pv_ingest_url r) (pv_handoff_user_id r, pv_handoff_session_root r)
    (pv_handoff_expires_at r) consumed None (pv_reissue r) r.

(** *** [claim] *)
Record DeviceClaimRequest := mkClaimRequest {
  cl_expected_tenant_id : string;
  cl_build_id : string;
  cl_plan_version : nat;
  cl_code_version : nat;
  cl_request_id : string
}.
Definition DeviceClaimRequest_ok (b : DeviceClaimRequest) : bool :=
  zod_uuid (cl_expected_tenant_id b) && zod_uuid (cl_build_id b) && (1 <=? cl_plan_version b) && (1 <=? cl_code_version b) &&
  zod_uuid (cl_request_id b).
Definition claim_of (tenantId : string) (b : DeviceClaimRequest) (r : Provisioning) : bool :=
  (pv_tenant_id r ==s tenantId) && (pv_claim_request_id r ==s cl_request_id b).
Definition same_target (b : DeviceClaimRequest) (r : Provisioning) : bool :=
  (pv_build_id r ==s cl_build_id b) && Nat.eqb (pv_plan_version r) (cl_plan_version b) && Nat.eqb (pv_code_version r) (cl_code_version b).
Definition of_plan (tenantId buildId : string) (planVersion : nat) (r : Provisioning) : bool :=
  (pv_tenant_id r ==s tenantId) && (pv_build_id r ==s buildId) && Nat.eqb (pv_plan_version r) planVersion.

Definition capability_row (deviceId : string) (c : SensorCapability) : CapabilityRow :=
  let image {A} (f : Z -> Z -> Z -> A) := match sc_kind c with ImageKind b w h => Some (f b w h) | MeasurementKind _ => None end in
  mkCapability deviceId (sc_id c) (if is_image c then "image" else "measurement") (if is_image c then "jpeg.v1" else "readings.v1") (sc_enabled c)
    (match sc_kind c with MeasurementKind channels => Some (prod_map id Some <$> channels) | ImageKind _ _ _ => None end)
    (image (fun b _ _ => b)) (image (fun _ w _ => w)) (image (fun _ _ h => h)).

(** The unique keys of the devices and of their provisionings. *)
Definition taken (d : ProvisionDb) (tenantId : string) (b : DeviceClaimRequest) (deviceId hash : string) : bool :=
  bool_decide (is_Some (d_devices (po_tel d) !! deviceId)) || token_taken d deviceId hash ||
  existsb (fun r => (pv_device_id r ==s deviceId) || claim_of tenantId b r ||
    ((pv_build_id r ==s cl_build_id b) && Nat.eqb (pv_plan_version r) (cl_plan_version b))) (po_rows d).
Definition new_device (tenantId hash : string) (a : Authority) : DeviceRow :=
  mkDevice tenantId hash None (prod_map id Some <$> au_channels a) (nfloor (au_nextS a)) None None None.
Definition new_row (tm : Times) (s : ProvisioningSession) (b : DeviceClaimRequest) (deviceId url : string) (a : Authority) (sealed : SealedCredential)
    : Provisioning :=
  mkProvisioning deviceId (se_tenantId s) (cl_build_id b) (cl_plan_version b) (cl_code_version b) (cl_request_id b) (tm_start tm)
    (pr_manifest_digest (au_firmware a)) url 1 0 (Some (se_userId s)) (Some (se_rootSessionId s)) (tm_write tm + HANDOFF_MS)%Z None (Some sealed) None.
Definition insert_device (tm : Times) (s : ProvisioningSession) (b : DeviceClaimRequest) (deviceId hash url : string) (a : Authority)
    (sealed : SealedCredential) (d : ProvisionDb) : ProvisionDb :=
  let t := po_tel d in
  with_rows (po_rows d ++ [new_row tm s b deviceId url a sealed])
    (with_tel (with_capabilities (d_capabilities t ++ (capability_row deviceId <$> au_capabilities a))
      (with_devices (<[deviceId := new_device (se_tenantId s) hash a]> (d_devices t)) t)) d).

(** [deviceId] and the bytes of the token and of the nonce are random. *)
Definition claim_work (tm : Times) (deviceId : string) (random nonce : list nat) (b : DeviceClaimRequest) (s : ProvisioningSession)
    (check : Z -> result HttpError unit) (d : ProvisionDb) : result HttpError (DeviceProvisioning * ProvisionDb) :=
  let tenantId := se_tenantId s in
  if negb (owned (fw_plans (po_fw d)) (cl_build_id b) tenantId) then Err (Http 404 "NOT_FOUND")
  else if match List.find (claim_of tenantId b) (po_rows d) with Some r => negb (same_target b r) | None => false end then Err mismatch
  else
    match List.find (of_plan tenantId (cl_build_id b) (cl_plan_version b)) (po_rows d) with
    | Some existing =>
        let! (row, device) := locked d tenantId (pv_device_id existing) in
        if negb (Nat.eqb (pv_code_version row) (cl_code_version b)) then Err mismatch
        else
          let! _ := check (tm_check tm) in
          let! status := provisioning_status (tm_locked tm) row device (se_userId s) (se_rootSessionId s) true in
          Ok (status, d)
    | None =>
        let! a := loadProvisioningAuthority (po_fw d) tenantId (cl_build_id b) (cl_plan_version b) (cl_code_version b) true in
        let! (ring, url) := configured in
        let token := base64url random in
        match sealCredential encrypt token (mkBinding deviceId tenantId (cl_build_id b) (cl_plan_version b) 1) nonce ring with
        | None => Err Crash
        | Some sealed =>
            let! _ := check (tm_check tm) in
            if taken d tenantId b deviceId (sha256 token) then Err Crash
            else
              let d' := insert_device tm s b deviceId (sha256 token) url a sealed d in
              let! status := status_of (tm_read tm) d' s deviceId in
              Ok (status, d')
        end
    end.

(** *** [download] *)
Definition sealed_ready (s : SealedCredential) : bool :=
  negb (sl_keyId s ==s "") && negb (sl_nonce s ==s "") && negb (sl_ciphertext s ==s "") && negb (sl_tag s ==s "").
Definition config_of (deviceId token : string) (row : Provisioning) (a : Authority) : DeviceConfig :=
  let caps := au_capabilities a in
  mkDeviceConfig (match caps with [] => 1 | _ => 2 end) deviceId token (pv_ingest_url row) (pv_seq_start row)
    (fm_profile_id (pr_manifest (au_firmware a))) (fm_runtime (pr_manifest (au_firmware a))) (au_channels a) (pv_build_id row)
    (pv_plan_version row) (pv_code_version row) (pv_manifest_digest row)
    (match caps with [] => None | _ => Some (caps, observations_url (pv_ingest_url row) deviceId) end).
Definition consume_row (now : Z) (deviceId : string) (d : ProvisionDb) : ProvisionDb := update_row deviceId (cleared (Some now)) d.
Definition download_work (tm : Times) (deviceId : string) (expected_version : nat) (s : ProvisioningSession) (check : Z -> result HttpError unit)
    (d : ProvisionDb) : result HttpError (DeviceConfig * ProvisionDb) :=
  let tenantId := se_tenantId s in
  let! (row, device) := locked d tenantId deviceId in
  let! _ := check (tm_check tm) in
  if negb (Nat.eqb (pv_credential_version row) expected_version) then Err mismatch
  else if bool_decide (is_Some (dv_revoked_at device)) then Err (Http 409 "DEVICE_REVOKED")
  else if negb (issued_to row (se_userId s) (se_rootSessionId s)) then Err (Http 403 "HANDOFF_OWNER_REQUIRED")
  else if bool_decide (is_Some (pv_handoff_consumed_at row)) || expired (tm_locked tm) row then Err handoff_unavailable
  else
    match pv_sealed row with
    | None => Err handoff_unavailable
    | Some sealed =>
        if negb (sealed_ready sealed) then Err handoff_unavailable
        else
          let! a := loadProvisioningAuthority (po_fw d) tenantId (pv_build_id row) (pv_plan_version row) (pv_code_version row) false in
          if negb (pr_manifest_digest (au_firmware a) ==s pv_manifest_digest row) then Err mismatch
          else
            match configured with
            | Err _ => Err handoff_unavailable
            | Ok (ring, _) =>
                match openCredential decrypt sealed (binding row (pv_credential_version row) tenantId) ring with
                | None => Err handoff_unavailable
                | Some token =>
                    if negb (sha256 token ==s dv_token_hash device) then Err handoff_unavailable
                    else
                      let config := config_of deviceId token row a in
                      if negb (DeviceConfig_ok config) then Err handoff_unavailable
                      else
                        let! _ := check (tm_recheck tm) in
                        if expired (tm_write tm) row then Err handoff_unavailable
                        else Ok (config, consume_row (tm_write tm) deviceId d)
                end
            end
    end.

(** *** [reissue] *)
Definition next_seq (device : DeviceRow) : Z := match dv_last_seq device with None => 0 | Some n => n + 1 end.
Definition reissued (tm : Times) (s : ProvisioningSession) (version : nat) (seqStart : Z) (url : string) (sealed : SealedCredential)
    (request : string * nat) (r : Provisioning) : Provisioning :=
  with_handoff version seqStart url (Some (se_userId s), Some (se_rootSessionId s)) (tm_write tm + HANDOFF_MS) None (Some sealed) (Some request) r.
Definition reissue_work (tm : Times) (deviceId : string) (random nonce : list nat) (expected_version : nat) (request_id : string)
    (s : ProvisioningSession) (check : Z -> result HttpError unit) (d : ProvisionDb) : result HttpError (DeviceProvisioning * ProvisionDb) :=
  let tenantId := se_tenantId s in
  let! (row, device) := locked d tenantId deviceId in
  let! _ := check (tm_check tm) in
  if bool_decide (is_Some (dv_revoked_at device)) then Err (Http 409 "DEVICE_REVOKED")
  else if bool_decide (pv_reissue row = Some (request_id, expected_version)) then
    let! status := provisioning_status (tm_locked tm) row device (se_userId s) (se_rootSessionId s) true in
    Ok (status, d)
  else if negb (Nat.eqb (pv_credential_version row) expected_version) || bool_decide (fst <$> pv_reissue row = Some request_id) then Err mismatch
  else
    let! a := loadProvisioningAuthority (po_fw d) tenantId (pv_build_id row) (pv_plan_version row) (pv_code_version row) false in
    if negb (pr_manifest_digest (au_firmware a) ==s pv_manifest_digest row) then Err mismatch
    else
      let! (ring, url) := configured in
      let version := S (pv_credential_version row) in
      let seqStart := next_seq device in
      if negb (Z.abs seqStart <=? MAX_SAFE_INTEGER)%Z || (2147483647 <? Z.of_nat version)%Z then Err (Http 409 "IDENTITY_EXHAUSTED")
      else
        let token := base64url random in
        match sealCredential encrypt token (binding row version tenantId) nonce ring with
        | None => Err Crash
        | Some sealed =>
            let! _ := check (tm_recheck tm) in
            if token_taken d deviceId (sha256 token) then Err Crash
            else
              let d' := update_row deviceId (reissued tm s version seqStart url sealed (request_id, expected_version))
                          (update_device deviceId (with_token (sha256 token)) d) in
              let! status := status_of (tm_read tm) d' s deviceId in
              Ok (status, d')
        end.

(** *** [revoke] *)
Definition revoke_work (tm : Times) (deviceId : string) (expected_version : nat) (s : ProvisioningSession) (check : Z -> result HttpError unit)
    (d : ProvisionDb) : result HttpError (DeviceProvisioning * ProvisionDb) :=
  let! (row, device) := locked d (se_tenantId s) deviceId in
  let! _ := check (tm_check tm) in
  if negb (Nat.eqb (pv_credential_version row) expected_version) then Err mismatch
  else
    let d' := update_row deviceId (fun r => cleared (pv_handoff_consumed_at r) r) (update_device deviceId (with_revoked (tm_write tm)) d) in
    let! status := status_of (tm_read tm) d' s deviceId in
    Ok (status, d').

(** *** [get] *)
Definition get_read (checked : Z) (rq : Request) (deviceId : string) (d : ProvisionDb) (identity : string * string * TenantRole)
    : result HttpError DeviceProvisioning :=
  match List.find (of_device identity.1.1 deviceId) (po_rows d), device_of d identity.1.1 deviceId with
  | Some row, Some device =>
      provisioning_status checked row device identity.1.2 (match roots_of rq with [root] => root | _ => "" end) (may_write identity.2)
  | _, _ => Err (Http 404 "NOT_FOUND")
  end.

(** ** The routes ([device-provisioning-routes.ts]) *)
Definition bad_request : HttpError := Http 400 "BAD_REQUEST".
Definition handoff_request_ok (deviceId tenantId : string) (version : nat) : bool := zod_uuid deviceId && zod_uuid tenantId && (1 <=? version).
Definition get_provisioning (checked : Z) (rq : Request) (deviceId : string) (d : ProvisionDb) : result HttpError DeviceProvisioning :=
  if zod_uuid deviceId then authorized_read sha256 rq (get_read checked rq deviceId d) else Err bad_request.
Definition claim_device (rq : Request) (early : Z) (tm : Times) (deviceId : string) (random nonce : list nat) (b : DeviceClaimRequest) (d : ProvisionDb)
    : result HttpError DeviceProvisioning * ProvisionDb :=
  if DeviceClaimRequest_ok b then withProvisioningSession rq early (cl_expected_tenant_id b) (claim_work tm deviceId random nonce b) d
  else (Err bad_request, d).
Definition download_config (rq : Request) (early : Z) (tm : Times) (deviceId tenantId : string) (version : nat) (d : ProvisionDb)
    : result HttpError DeviceConfig * ProvisionDb :=
  if handoff_request_ok deviceId tenantId version then withProvisioningSession rq early tenantId (download_work tm deviceId version) d
  else (Err bad_request, d).
Definition reissue_config (rq : Request) (early : Z) (tm : Times) (deviceId tenantId : string) (version : nat) (request_id : string)
    (random nonce : list nat) (d : ProvisionDb) : result HttpError DeviceProvisioning * ProvisionDb :=
  if handoff_request_ok deviceId tenantId version && zod_uuid request_id
  then withProvisioningSession rq early tenantId (reissue_work tm deviceId random nonce version request_id) d
  else (Err bad_request, d).
Definition revoke_device (rq : Request) (early : Z) (tm : Times) (deviceId tenantId : string) (version : nat) (d : ProvisionDb)
    : result HttpError DeviceProvisioning * ProvisionDb :=
  if handoff_request_ok deviceId tenantId version then withProvisioningSession rq early tenantId (revoke_work tm deviceId version) d
  else (Err bad_request, d).
End Provision.
