(* ===== verification/ProvisionSpec.v ===== *)
(** * What provisioning promises

    Claims, downloads, reissues and revocations interleave with everything else
    that touches their tables ([pstep]). A configuration is handed over at most
    once, to the session family it was issued to, in time and with the device's
    current token ([handed_once], [handed_to_issuer]); a plan has one device,
    however often it is claimed ([claim_repeated]), made for the firmware that
    passed for it ([claim_as_passed]); and a revoked device stays revoked
    ([revoked_for_good]). *)
From stdpp Require Import gmap relations.
From S2P Require Import Prelude JsString Regex JsNumber Part Assembly MatcherTypes Json Spec Db Auth Cookies Access Http Plans Telemetry Candidate Firmware.
From S2P Require Import FirmwareSpec Provision.
#[local] Open Scope string_scope.
#[local] Open Scope list_scope.
#[local] Open Scope nat_scope.
#[local] Open Scope forge_scope.
#[local] Arguments Nat.leb : simpl never.

(** ** How an identity may change *)

(** Its row with its device. *)
Definition identity_at (d : ProvisionDb) (dev : string) : option (Provisioning * DeviceRow) :=
  match List.find (fun r => pv_device_id r ==s dev) (po_rows d), d_devices (po_tel d) !! dev with
  | Some r, Some v => Some (r, v)
  | _, _ => None
  end.
Definition kept_or_cleared {A} (o o' : option A) : Prop := o' = o \/ o' = None.

(** The same version of its configuration: only consumed, cleared or disowned. *)
Record same_issue (e e' : Provisioning * DeviceRow) : Prop := {
  si_version : pv_credential_version e'.1 = pv_credential_version e.1;
  si_url : pv_ingest_url e'.1 = pv_ingest_url e.1;
  si_seq : pv_seq_start e'.1 = pv_seq_start e.1;
  si_expires : pv_handoff_expires_at e'.1 = pv_handoff_expires_at e.1;
  si_reissue : pv_reissue e'.1 = pv_reissue e.1;
  si_user : kept_or_cleared (pv_handoff_user_id e.1) (pv_handoff_user_id e'.1);
  si_root : kept_or_cleared (pv_handoff_session_root e.1) (pv_handoff_session_root e'.1);
  si_consumed : is_Some (pv_handoff_consumed_at e.1) -> pv_handoff_consumed_at e'.1 = pv_handoff_consumed_at e.1;
  si_sealed : kept_or_cleared (pv_sealed e.1) (pv_sealed e'.1);
  si_token : dv_token_hash e'.2 = dv_token_hash e.2
}.
Record identity_later (e e' : Provisioning * DeviceRow) : Prop := {
  il_device : pv_device_id e'.1 = pv_device_id e.1;
  il_tenant : pv_tenant_id e'.1 = pv_tenant_id e.1 /\ dv_tenant_id e'.2 = dv_tenant_id e.2;
  il_build : pv_build_id e'.1 = pv_build_id e.1;
  il_plan : pv_plan_version e'.1 = pv_plan_version e.1;
  il_code : pv_code_version e'.1 = pv_code_version e.1;
  il_request : pv_claim_request_id e'.1 = pv_claim_request_id e.1;
  il_digest : pv_manifest_digest e'.1 = pv_manifest_digest e.1;
  il_revoked : is_Some (dv_revoked_at e.2) -> dv_revoked_at e'.2 = dv_revoked_at e.2;
  il_issue : pv_credential_version e.1 < pv_credential_version e'.1 \/ same_issue e e'
}.

#[export] Instance kept_preorder {A} : PreOrder (@kept_or_cleared A).
Proof. split; [by left|]. intros a b c [->| ->] [->| ->]; unfold kept_or_cleared; auto. Qed.
#[export] Instance same_issue_preorder : PreOrder same_issue.
Proof.
  split; [by intros e; split|]. intros a b c [] []. split; try congruence; try (etransitivity; eassumption).
  intros H. rewrite si_consumed1; [by apply si_consumed0|]. by rewrite si_consumed0.
Qed.
#[export] Instance identity_later_preorder : PreOrder identity_later.
Proof.
  split; [by intros e; split; try done; right|]. intros a b c [] []. split; try congruence; [split; [destruct il_tenant0, il_tenant1; congruence..]| |].
  - intros H. rewrite il_revoked1; [by apply il_revoked0|]. by rewrite il_revoked0.
  - destruct il_issue0 as [|S1], il_issue1 as [|S2]; [left; lia|left; rewrite (si_version _ _ S2); lia|left; rewrite <- (si_version _ _ S1); lia|].
    right. by etransitivity.
Qed.

(** Nothing is forgotten: identities move on, builds keep their owners. *)
Record history (d d' : ProvisionDb) : Prop := {
  hi_identity : forall dev e, identity_at d dev = Some e -> exists e', identity_at d' dev = Some e' /\ identity_later e e';
  hi_owned : forall id t, owned (fw_plans (po_fw d)) id t = true -> owned (fw_plans (po_fw d')) id t = true
}.
#[export] Instance history_preorder : PreOrder history.
Proof.
  split.
  - intros d. split; [|done]. intros dev e H. by exists e.
  - intros a b c [I1 O1] [I2 O2]. split; [|auto]. intros dev e (e' & H & L)%I1. apply I2 in H as (e2 & H & L'). exists e2. split; [done|]. by etransitivity.
Qed.

(** The tables' keys: one row per device, per plan and per request, and a device
    of the row's tenant. *)
Record keyed_rows (d : ProvisionDb) : Prop := {
  kr_devices : NoDup (pv_device_id <$> po_rows d);
  kr_plans : NoDup ((fun r => (pv_build_id r, pv_plan_version r)) <$> po_rows d);
  kr_requests : NoDup ((fun r => (pv_tenant_id r, pv_claim_request_id r)) <$> po_rows d);
  kr_device : forall r, r ∈ po_rows d -> exists v, d_devices (po_tel d) !! pv_device_id r = Some v /\ dv_tenant_id v = pv_tenant_id r
}.
Lemma identity_row d dev r v : identity_at d dev = Some (r, v) -> r ∈ po_rows d /\ pv_device_id r = dev /\ d_devices (po_tel d) !! dev = Some v.
Proof.
  unfold identity_at. destruct (List.find _ _) as [x|] eqn:E; [|done]. destruct (d_devices _ !! _); [|done]. intros [= -> ->].
  apply find_Some_elem in E as [Hr E]. by apply String.eqb_eq in E.
Qed.
Lemma row_identity d r : keyed_rows d -> r ∈ po_rows d -> exists v, identity_at d (pv_device_id r) = Some (r, v) /\ dv_tenant_id v = pv_tenant_id r.
Proof.
  intros Hk Hr. destruct (kr_device _ Hk r Hr) as (v & Hv & Ht). exists v. split; [|done]. unfold identity_at. rewrite Hv.
  destruct (List.find _ _) as [x|] eqn:E.
  - apply find_Some_elem in E as [Hx E]. apply String.eqb_eq in E.
    apply list_elem_of_lookup in Hr as [i Hi], Hx as [j Hj]. assert (i = j) as ->; [|congruence].
    apply (NoDup_lookup _ _ _ (pv_device_id r) (kr_devices _ Hk)); rewrite list_lookup_fmap, ?Hi, ?Hj; simpl; by rewrite ?E.
  - pose proof (proj1 (find_None_forall _ _) E r Hr) as H. simpl in H. by rewrite String.eqb_refl in H.
Qed.

(** ** Updates of one identity *)
(** An update of a row keeps its keys; one of a device, its tenant. *)
Definition keeps_keys (f : Provisioning -> Provisioning) : Prop :=
  forall r, pv_device_id (f r) = pv_device_id r /\ pv_tenant_id (f r) = pv_tenant_id r /\ pv_build_id (f r) = pv_build_id r /\
    pv_plan_version (f r) = pv_plan_version r /\ pv_claim_request_id (f r) = pv_claim_request_id r.

Lemma find_update (P : Provisioning -> bool) f dev l : (forall r, P (f r) = P r) ->
  List.find P ((fun r => if pv_device_id r ==s dev then f r else r) <$> l) =
  (fun r => if pv_device_id r ==s dev then f r else r) <$> List.find P l.
Proof.
  intros HP. induction l as [|r l IH]; [done|]. simpl. destruct (pv_device_id r ==s dev) eqn:E; rewrite ?HP; destruct (P r); simpl; by rewrite ?E.
Qed.
Lemma identity_update_row dev f d x : keeps_keys f ->
  identity_at (update_row dev f d) x = if x ==s dev then prod_map f id <$> identity_at d x else identity_at d x.
Proof.
  intros Hf. unfold identity_at. simpl. rewrite find_update by (intros r; by rewrite (proj1 (Hf r))).
  destruct (List.find _ _) as [r|] eqn:E; simpl; [|by destruct (x ==s dev)].
  apply find_Some_elem in E as [_ E]. apply String.eqb_eq in E. rewrite E. by destruct (d_devices _ !! x), (x ==s dev).
Qed.
Lemma identity_update_device dev g d x :
  identity_at (update_device dev g d) x = if x ==s dev then prod_map id g <$> identity_at d x else identity_at d x.
Proof.
  unfold identity_at, update_device. destruct (d_devices (po_tel d) !! dev) as [v|] eqn:Ev; simpl.
  - destruct (String.eqb_spec x dev) as [->|N]; [|by rewrite lookup_insert_ne]. rewrite lookup_insert_eq, Ev. by destruct (List.find _ _).
  - destruct (String.eqb_spec x dev) as [->|]; [|done]. rewrite Ev. by destruct (List.find _ _).
Qed.
Lemma keyed_update_row dev f d : keeps_keys f -> keyed_rows d -> keyed_rows (update_row dev f d).
Proof.
  intros Hf [K1 K2 K3 K4]. assert (E : forall {B} (k : Provisioning -> B), (forall r, k (f r) = k r) ->
    k <$> po_rows (update_row dev f d) = k <$> po_rows d).
  { intros B k Hk. simpl. rewrite <- list_fmap_compose. apply list_fmap_ext. intros i r _. simpl. by destruct (_ ==s _). }
  split; [rewrite E|rewrite E|rewrite E|]; try done; try (intros r; destruct (Hf r) as (? & ? & ? & ? & ?); congruence).
  intros r (x & -> & Hx)%list_elem_of_fmap. destruct (K4 x Hx) as (v & Hv & Ht). exists v. destruct (Hf x) as (E1 & E2 & _). destruct (_ ==s _); [|done].
  by rewrite E1, E2.
Qed.
Lemma keyed_update_device dev g d : (forall v, dv_tenant_id (g v) = dv_tenant_id v) -> keyed_rows d -> keyed_rows (update_device dev g d).
Proof.
  intros Hg Hk. unfold update_device. destruct (d_devices (po_tel d) !! dev) as [v|] eqn:Ev; [|done]. destruct Hk as [K1 K2 K3 K4]. split; try done.
  simpl. intros r Hr. destruct (K4 r Hr) as (w & Hw & Ht). destruct (decide (pv_device_id r = dev)) as [E|N].
  - exists (g v). rewrite E, lookup_insert_eq. split; [done|]. rewrite Hg. rewrite E, Ev in Hw. by injection Hw as ->.
  - exists w. by rewrite lookup_insert_ne.
Qed.

(** An update forward in time is history. *)
Lemma history_update dev f g d : keeps_keys f -> (forall v, dv_tenant_id (g v) = dv_tenant_id v) ->
  (forall r v, identity_at d dev = Some (r, v) -> identity_later (r, v) (f r, g v)) -> history d (update_row dev f (update_device dev g d)).
Proof.
  intros Hf Hg Hl. split.
  - intros x [r v] Hx. rewrite identity_update_row by done. rewrite identity_update_device. destruct (String.eqb_spec x dev) as [->|_].
    + rewrite Hx. simpl. eexists. split; [done|]. by apply Hl.
    + by exists (r, v).
  - intros id t. unfold update_device. by destruct (d_devices (po_tel d) !! dev).
Qed.
Lemma history_update_row dev f d : keeps_keys f ->
  (forall r v, identity_at d dev = Some (r, v) -> identity_later (r, v) (f r, v)) -> history d (update_row dev f d).
Proof.
  intros Hf Hl. split; [|done]. intros x [r v] Hx. rewrite identity_update_row by done. destruct (String.eqb_spec x dev) as [->|_]; [|by exists (r, v)].
  rewrite Hx. simpl. eexists. split; [done|]. by apply Hl.
Qed.
Lemma cleared_keys f : keeps_keys (fun r => cleared (f r) r).
Proof. by split. Qed.
Lemma consume_history now dev d : (forall r v, identity_at d dev = Some (r, v) -> pv_handoff_consumed_at r = None) -> history d (consume_row now dev d).
Proof.
  intros Hn. apply history_update_row; [apply cleared_keys|]. intros r v Hi. split; simpl; try done. right. split; simpl; try done; try by left.
  - rewrite (Hn r v Hi). by intros [? ?].
  - by right.
Qed.
Lemma find_snoc {A} (P : A -> bool) l x : List.find P (l ++ [x]) = match List.find P l with Some y => Some y | None => if P x then Some x else None end.
Proof. induction l as [|y l IH]; simpl; [done|]. by destruct (P y). Qed.
Lemma insert_history tm s b dev hash url a sealed d : d_devices (po_tel d) !! dev = None -> history d (insert_device tm s b dev hash url a sealed d).
Proof.
  intros Hn. split; [|done]. intros x e Hx. exists e. split; [|done]. destruct e as [r v]. pose proof (identity_row _ _ _ _ Hx) as (_ & _ & Hv).
  unfold identity_at in *. simpl. rewrite find_snoc. destruct (List.find _ _); [|done]. by rewrite lookup_insert_ne by (intros ->; congruence).
Qed.
Lemma taken_free d t b dev hash : taken d t b dev hash = false ->
  d_devices (po_tel d) !! dev = None /\ dev ∉ pv_device_id <$> po_rows d /\
  (cl_build_id b, cl_plan_version b) ∉ (fun r => (pv_build_id r, pv_plan_version r)) <$> po_rows d /\
  (t, cl_request_id b) ∉ (fun r => (pv_tenant_id r, pv_claim_request_id r)) <$> po_rows d.
Proof.
  unfold taken. intros H. bools. match goal with H : existsb _ (po_rows d) = false |- _ => rewrite existsb_elem_false in H; rename H into Hx end.
  split_and!; [by apply eq_None_not_Some|..]; intros (r & E & Hr)%list_elem_of_fmap; specialize (Hx r Hr); unfold claim_of in Hx;
    rewrite !orb_false_iff in Hx; destruct Hx as [[X1 X2] X3].
  - by rewrite E, String.eqb_refl in X1.
  - injection E as E1 E2. by rewrite E1, E2, String.eqb_refl, Nat.eqb_refl in X3.
  - injection E as E1 E2. by rewrite E1, E2, !String.eqb_refl in X2.
Qed.
Lemma insert_keyed tm s b dev hash url a sealed d : taken d (se_tenantId s) b dev hash = false -> keyed_rows d ->
  keyed_rows (insert_device tm s b dev hash url a sealed d).
Proof.
  intros (Hn & N1 & N2 & N3)%taken_free [K1 K2 K3 K4]. assert (Hs : forall {B} (k : Provisioning -> B) x, NoDup (k <$> po_rows d) -> k x ∉ k <$> po_rows d ->
    NoDup (k <$> po_rows d ++ [x])).
  { intros B k x Hd Hx. rewrite fmap_app. apply NoDup_app. split_and!; [done| |apply NoDup_singleton]. by intros y Hy ->%list_elem_of_singleton. }
  split; simpl; try by apply Hs. intros r [Hr| ->%list_elem_of_singleton]%elem_of_app.
  - destruct (K4 r Hr) as (v & Hv & Ht). exists v. by rewrite lookup_insert_ne by (intros E; rewrite E in Hn; congruence).
  - simpl. rewrite lookup_insert_eq. by eexists.
Qed.

(** ** What each operation did when it answers *)
Section ProvisionSpec.
Context (sha256 : string -> string) (https_url zod_url zod_uuid : string -> bool).
Context (encrypt : list nat -> list nat -> string -> list nat -> list nat * list nat).
Context (decrypt : list nat -> list nat -> string -> list nat -> list nat -> option (list nat)).
Context (keys : option HandoffKeys) (ingestUrl : option string) (profiles : list ProvisioningProfile).

#[local] Abbreviation claim_work := (Provision.claim_work sha256 https_url zod_uuid encrypt keys ingestUrl profiles).
#[local] Abbreviation download_work := (Provision.download_work sha256 https_url zod_url zod_uuid decrypt keys ingestUrl profiles).
#[local] Abbreviation reissue_work := (Provision.reissue_work sha256 https_url zod_uuid encrypt keys ingestUrl profiles).
#[local] Abbreviation revoke_work := (Provision.revoke_work zod_uuid).
#[local] Abbreviation claim_device := (Provision.claim_device sha256 https_url zod_uuid encrypt keys ingestUrl profiles).
#[local] Abbreviation download_config := (Provision.download_config sha256 https_url zod_url zod_uuid decrypt keys ingestUrl profiles).
#[local] Abbreviation reissue_config := (Provision.reissue_config sha256 https_url zod_uuid encrypt keys ingestUrl profiles).
#[local] Abbreviation revoke_device := (Provision.revoke_device sha256 zod_uuid).
#[local] Abbreviation authority := (loadProvisioningAuthority sha256 https_url zod_uuid profiles).
#[local] Abbreviation status_ok := (provisioning_status zod_uuid).
#[local] Abbreviation configured := (Provision.configured keys ingestUrl).

(** The session a request acts for, when it has one root. *)
Definition acts_for (rq : Request) (expected : string) (s : ProvisioningSession) : Prop :=
  withAuthorizedWrite sha256 (rq_auth rq) (rq_admitted rq) (rq_admitted rq) (rq_cookie rq) (rq_host rq) (Some expected) =
    Ok (se_tenantId s, se_userId s) /\ roots_of sha256 rq = [se_rootSessionId s].

Lemma session_ok {A} rq early expected (work : _ -> _ -> _ -> result HttpError (A * ProvisionDb)) d a d' :
  withProvisioningSession sha256 rq early expected work d = (Ok a, d') ->
  exists s, acts_for rq expected s /\ work s (recheckExpiry sha256 rq) d = Ok (a, d').
Proof.
  intros H. apply authorized_write_ok in H as ([t u] & H & Ha). destruct (roots_of sha256 rq) as [|root [|]] eqn:Er; [done| |done].
  destruct (recheckExpiry sha256 rq early); [|done]. exists (mkProvisioningSession t u root). by split.
Qed.
Lemma session_err {A} rq early expected (work : _ -> _ -> _ -> result HttpError (A * ProvisionDb)) d e d' :
  withProvisioningSession sha256 rq early expected work d = (Err e, d') -> d' = d.
Proof. apply authorized_write_err. Qed.
(** A property of the tables that every answer keeps is kept. *)
Lemma session_keeps {A} rq early expected (work : _ -> _ -> _ -> result HttpError (A * ProvisionDb)) (P : ProvisionDb -> Prop) d :
  (forall s check a d', work s check d = Ok (a, d') -> P d') -> P d -> P (withProvisioningSession sha256 rq early expected work d).2.
Proof.
  intros H Hd. destruct (withProvisioningSession _ _ _ _ _ _) as [[a|e] d'] eqn:E.
  - apply session_ok in E as (s & _ & E). exact (H _ _ _ _ E).
  - by apply session_err in E as ->.
Qed.

Lemma locked_spec d t dev row v : keyed_rows d -> locked d t dev = Ok (row, v) ->
  identity_at d dev = Some (row, v) /\ row ∈ po_rows d /\ pv_device_id row = dev /\ pv_tenant_id row = t /\ dv_tenant_id v = t /\
  owned (fw_plans (po_fw d)) (pv_build_id row) t = true.
Proof.
  intros Hk. unfold locked, device_of. destruct (List.find _ _) as [r|] eqn:E; [|done]. destruct (owned _ _ _) eqn:Eo; [|done].
  cbn [negb]. destruct (d_devices _ !! dev) as [x|] eqn:Ev; [|done]. destruct (String.eqb_spec (dv_tenant_id x) t) as [Et|]; [|done].
  intros [= -> ->]. apply find_Some_elem in E as [Hr E]. unfold of_device in E. apply andb_true_iff in E as [Et' Ed].
  apply String.eqb_eq in Et', Ed. destruct (row_identity d row Hk Hr) as (v' & Hi & _). rewrite Ed in Hi.
  assert (v' = v) as -> by (apply identity_row in Hi as (_ & _ & Hv); congruence). done.
Qed.
Lemma locked_found d dev row v t : keyed_rows d -> identity_at d dev = Some (row, v) -> pv_tenant_id row = t ->
  owned (fw_plans (po_fw d)) (pv_build_id row) t = true -> locked d t dev = Ok (row, v).
Proof.
  intros Hk Hi Ht Ho. pose proof (identity_row _ _ _ _ Hi) as (Hr & Hd & Hv). unfold locked, device_of.
  destruct (List.find _ _) as [x|] eqn:E.
  2: { pose proof (proj1 (find_None_forall _ _) E row Hr) as H. unfold of_device in H. by rewrite Ht, Hd, !String.eqb_refl in H. }
  apply find_Some_elem in E as [Hx E]. unfold of_device in E. apply andb_true_iff in E as [_ Ed]. apply String.eqb_eq in Ed.
  destruct (row_identity d x Hk Hx) as (v' & Hi' & _). rewrite Ed, Hi in Hi'. injection Hi' as <- <-.
  rewrite Ho, Hv. cbn [negb]. destruct (kr_device _ Hk row Hr) as (w & Hw & Htw). rewrite Hd, Hv in Hw. injection Hw as <-.
  by rewrite Htw, Ht, String.eqb_refl.
Qed.


Lemma claim_work_spec tm dev random nonce b s check d st d' : claim_work tm dev random nonce b s check d = Ok (st, d') ->
  (d' = d /\ exists existing row v, List.find (of_plan (se_tenantId s) (cl_build_id b) (cl_plan_version b)) (po_rows d) = Some existing /\
     locked d (se_tenantId s) (pv_device_id existing) = Ok (row, v) /\ pv_code_version row = cl_code_version b /\
     status_ok (tm_locked tm) row v (se_userId s) (se_rootSessionId s) true = Ok st) \/
  (exists a ring url sealed,
     authority (po_fw d) (se_tenantId s) (cl_build_id b) (cl_plan_version b) (cl_code_version b) true = Ok a /\ configured = Ok (ring, url) /\
     sealCredential encrypt (base64url random) (mkBinding dev (se_tenantId s) (cl_build_id b) (cl_plan_version b) 1) nonce ring = Some sealed /\
     taken d (se_tenantId s) b dev (sha256 (base64url random)) = false /\
     d' = insert_device tm s b dev (sha256 (base64url random)) url a sealed d /\
     status_of zod_uuid (tm_read tm) d' s dev = Ok st).
Proof.
  unfold Provision.claim_work. cbv zeta. destruct (owned _ _ _); [|done]. cbn [negb].
  destruct (match List.find _ _ with Some _ => _ | None => _ end); [done|]. destruct (List.find (of_plan _ _ _) _) as [x|] eqn:Ex.
  - intros ([row v] & Hl & H)%rbind_ok. destruct (Nat.eqb_spec (pv_code_version row) (cl_code_version b)) as [Ec|]; [|done]. cbn [negb] in H.
    apply rbind_ok in H as (? & _ & H). apply rbind_ok in H as (st' & Hs & [= <- <-]). left. split; [done|]. by exists x, row, v.
  - intros (a & Ha & H)%rbind_ok. apply rbind_ok in H as ([ring url] & Hc & H). destruct (sealCredential _ _ _ _ _) as [sealed|] eqn:Es; [|done].
    apply rbind_ok in H as (? & _ & H). destruct (taken _ _ _ _ _) eqn:Et; [done|]. apply rbind_ok in H as (st' & Hs & [= <- <-]).
    right. by exists a, ring, url, sealed.
Qed.

Lemma download_work_spec tm dev ver s check d c d' : download_work tm dev ver s check d = Ok (c, d') ->
  exists row v a ring url sealed token, locked d (se_tenantId s) dev = Ok (row, v) /\ pv_credential_version row = ver /\
    dv_revoked_at v = None /\ issued_to row (se_userId s) (se_rootSessionId s) = true /\ pv_handoff_consumed_at row = None /\
    expired (tm_locked tm) row = false /\ expired (tm_write tm) row = false /\ pv_sealed row = Some sealed /\
    authority (po_fw d) (se_tenantId s) (pv_build_id row) (pv_plan_version row) (pv_code_version row) false = Ok a /\
    pr_manifest_digest (au_firmware a) = pv_manifest_digest row /\ configured = Ok (ring, url) /\
    openCredential decrypt sealed (binding row ver (se_tenantId s)) ring = Some token /\ sha256 token = dv_token_hash v /\
    c = config_of dev token row a /\ DeviceConfig_ok zod_url zod_uuid c = true /\ d' = consume_row (tm_write tm) dev d.
Proof.
  unfold Provision.download_work. intros ([row v] & Hl & H)%rbind_ok. apply rbind_ok in H as (? & _ & H).
  destruct (Nat.eqb_spec (pv_credential_version row) ver) as [<-|]; [|done]. cbn [negb] in H.
  case_bool_decide as Hr; [done|]. destruct (issued_to _ _ _) eqn:Ei; [|done]. cbn [negb] in H.
  destruct (bool_decide _ || _) eqn:Ec in H; [done|]. destruct (pv_sealed row) as [sealed|] eqn:Es; [|done].
  destruct (sealed_ready sealed); [|done]. cbn [negb] in H. apply rbind_ok in H as (a & Ha & H).
  destruct (String.eqb_spec (pr_manifest_digest (au_firmware a)) (pv_manifest_digest row)) as [Ed|]; [|done]. cbn [negb] in H.
  destruct configured as [[ring url]|]; [|done]. destruct (openCredential _ _ _ _) as [token|] eqn:Eo; [|done].
  destruct (String.eqb_spec (sha256 token) (dv_token_hash v)) as [Eh|]; [|done]. cbn [negb] in H. cbv zeta in H.
  destruct (DeviceConfig_ok _ _ _) eqn:Ek; [|done]. cbn [negb] in H. apply rbind_ok in H as (? & _ & H).
  destruct (expired (tm_write tm) row) eqn:Ew; [done|]. injection H as <- <-. bools.
  rewrite <- eq_None_not_Some in *. by exists row, v, a, ring, url, sealed, token.
Qed.

Lemma reissue_work_spec tm dev random nonce ver rid s check d st d' : reissue_work tm dev random nonce ver rid s check d = Ok (st, d') ->
  exists row v, locked d (se_tenantId s) dev = Ok (row, v) /\ dv_revoked_at v = None /\
  ((d' = d /\ pv_reissue row = Some (rid, ver)) \/
   (exists a ring url sealed, pv_credential_version row = ver /\ fst <$> pv_reissue row <> Some rid /\
      authority (po_fw d) (se_tenantId s) (pv_build_id row) (pv_plan_version row) (pv_code_version row) false = Ok a /\
      pr_manifest_digest (au_firmware a) = pv_manifest_digest row /\ configured = Ok (ring, url) /\
      (Z.abs (next_seq v) <= MAX_SAFE_INTEGER)%Z /\ (Z.of_nat (S ver) <= 2147483647)%Z /\
      sealCredential encrypt (base64url random) (binding row (S ver) (se_tenantId s)) nonce ring = Some sealed /\
      token_taken d dev (sha256 (base64url random)) = false /\
      d' = update_row dev (reissued tm s (S ver) (next_seq v) url sealed (rid, ver)) (update_device dev (with_token (sha256 (base64url random))) d) /\
      status_of zod_uuid (tm_read tm) d' s dev = Ok st)).
Proof.
  unfold Provision.reissue_work. cbv zeta. intros ([row v] & Hl & H)%rbind_ok. apply rbind_ok in H as (? & _ & H). exists row, v. split; [done|].
  case_bool_decide as Hr; [done|]. rewrite <- eq_None_not_Some in Hr. split; [done|]. case_bool_decide as Hp.
  { apply rbind_ok in H as (? & _ & [= <- <-]). by left. }
  right. destruct (Nat.eqb_spec (pv_credential_version row) ver) as [<-|]; [|done]. cbn [negb orb] in H. case_bool_decide as Hq; [done|].
  apply rbind_ok in H as (a & Ha & H). destruct (String.eqb_spec (pr_manifest_digest (au_firmware a)) (pv_manifest_digest row)) as [Ed|]; [|done].
  cbn [negb] in H. apply rbind_ok in H as ([ring url] & Hc & H). destruct (negb _ || _) eqn:En in H; [done|]. apply orb_false_iff in En as [E1 E2].
  apply negb_false_iff, Z.leb_le in E1. apply Z.ltb_ge in E2. destruct (sealCredential _ _ _ _ _) as [sealed|] eqn:Es; [|done].
  apply rbind_ok in H as (? & _ & H). destruct (token_taken _ _ _) eqn:Et; [done|]. apply rbind_ok in H as (st' & Hs & [= <- <-]).
  by exists a, ring, url, sealed.
Qed.

Lemma revoke_work_spec tm dev ver s check d st d' : revoke_work tm dev ver s check d = Ok (st, d') ->
  exists row v, locked d (se_tenantId s) dev = Ok (row, v) /\
    d' = update_row dev (fun r => cleared (pv_handoff_consumed_at r) r) (update_device dev (with_revoked (tm_write tm)) d).
Proof.
  unfold Provision.revoke_work. intros ([row v] & Hl & H)%rbind_ok. apply rbind_ok in H as (? & _ & H). exists row, v. split; [done|].
  destruct (negb _) in H; [done|]. by apply rbind_ok in H as (? & _ & [= _ <-]).
Qed.

(** ** Everything that touches the tables *)

(** Other transactions: packets move their device on, a deleted user or session
    is forgotten, and builds, plans and firmware grow. *)
Definition disowned (r r' : Provisioning) : Prop :=
  exists user root, kept_or_cleared (pv_handoff_user_id r) user /\ kept_or_cleared (pv_handoff_session_root r) root /\
    r' = with_handoff (pv_credential_version r) (pv_seq_start r) (pv_ingest_url r) (user, root) (pv_handoff_expires_at r)
      (pv_handoff_consumed_at r) (pv_sealed r) (pv_reissue r) r.
Definition moved_on (v v' : DeviceRow) : Prop :=
  dv_tenant_id v' = dv_tenant_id v /\ dv_token_hash v' = dv_token_hash v /\ dv_revoked_at v' = dv_revoked_at v.
Record around (d d' : ProvisionDb) : Prop := {
  ar_owned : forall id t, owned (fw_plans (po_fw d)) id t = true -> owned (fw_plans (po_fw d')) id t = true;
  ar_rows : Forall2 disowned (po_rows d) (po_rows d');
  ar_devices : forall dev v, d_devices (po_tel d) !! dev = Some v -> exists v', d_devices (po_tel d') !! dev = Some v' /\ moved_on v v'
}.
Inductive pstep (d : ProvisionDb) : ProvisionDb -> Prop :=
| ps_claim rq early tm dev random nonce b : pstep d (claim_device rq early tm dev random nonce b d).2
| ps_download rq early tm dev t ver : pstep d (download_config rq early tm dev t ver d).2
| ps_reissue rq early tm dev t ver rid random nonce : pstep d (reissue_config rq early tm dev t ver rid random nonce d).2
| ps_revoke rq early tm dev t ver : pstep d (revoke_device rq early tm dev t ver d).2
| ps_around d' : around d d' -> pstep d d'.
Definition preachable (d : ProvisionDb) : Prop := exists d0, po_rows d0 = [] /\ rtc pstep d0 d.

Definition kept (d d' : ProvisionDb) : Prop := keyed_rows d' /\ history d d'.
Lemma reissued_later r v tm s ver url sealed rid (hash : string) : identity_later (r, v)
  (reissued tm s (S (pv_credential_version r)) ver url sealed rid r, with_token hash v).
Proof. split; simpl; try done. left. lia. Qed.

Lemma around_kept d d' : keyed_rows d -> around d d' -> kept d d'.
Proof.
  intros Hk [Ho Hr Hd]. assert (E : forall {B} (k : Provisioning -> B), (forall r r', disowned r r' -> k r' = k r) -> k <$> po_rows d' = k <$> po_rows d).
  { intros B k Hkk. clear -Hr Hkk. induction Hr as [|r r' l l' H _ IH]; [done|]. rewrite !fmap_cons, (Hkk _ _ H). by f_equal. }
  assert (Hi : forall dev e, identity_at d dev = Some e -> exists e', identity_at d' dev = Some e' /\ identity_later e e').
  { intros dev [r v] He. destruct (identity_row _ _ _ _ He) as (_ & _ & Hv). destruct (Hd _ _ Hv) as (v' & Hv' & M1 & M2 & M3).
    assert (Hf : exists r', List.find (fun r => pv_device_id r ==s dev) (po_rows d') = Some r' /\ disowned r r').
    { unfold identity_at in He. destruct (List.find _ _) as [x|] eqn:Ef; [|done]. rewrite Hv in He. injection He as ->.
      clear -Hr Ef. induction Hr as [|y y' l l' H _ IH]; [done|]. simpl in *. pose proof H as (u & ro & _ & _ & ->). simpl.
      destruct (pv_device_id y ==s dev); [|by apply IH]. injection Ef as ->. by eexists. }
    destruct Hf as (r' & Hf & (u & ro & Hu & Hro & ->)). eexists. unfold identity_at. rewrite Hf, Hv'. split; [done|].
    split; simpl; try done. right. split; simpl; try done; by left. }
  split; [|by split]. destruct Hk as [K1 K2 K3 K4]. split.
  1-3: rewrite E; [done|by intros r r' (u & ro & _ & _ & ->)].
  intros r' Hr'. apply list_elem_of_lookup in Hr' as [i Hr']. destruct (Forall2_lookup_r _ _ _ _ _ Hr Hr') as (r & Hri & (u & ro & _ & _ & ->)).
  destruct (K4 r) as (v & Hv & Ht); [by eapply list_elem_of_lookup_2|]. destruct (Hd _ _ Hv) as (v' & Hv' & M & _). exists v'. split; [done|]. by rewrite M.
Qed.

Lemma pstep_kept d d' : keyed_rows d -> pstep d d' -> kept d d'.
Proof.
  intros Hk [rq early tm dev random nonce b|rq early tm dev t ver|rq early tm dev t ver rid random nonce|rq early tm dev t ver|x Ha].
  - unfold Provision.claim_device. destruct (DeviceClaimRequest_ok _ _); [|by split]. apply session_keeps; [|by split].
    intros s check st x H. apply claim_work_spec in H as [[-> _]|(a & ring & url & sealed & _ & _ & _ & Ht & -> & _)]; [by split|].
    split; [by apply insert_keyed|]. apply insert_history. by apply taken_free in Ht as [? _].
  - unfold Provision.download_config. destruct (handoff_request_ok _ _ _ _); [|by split]. apply session_keeps; [|by split].
    intros s check c x H. apply download_work_spec in H as (row & v & a & ring & url & sealed & token & Hl & _ & _ & _ & Hc & _ & _ & _ & _ & _ & _ & _ & _ & _ & _ & ->).
    apply locked_spec in Hl as (Hi & _); [|done]. split; [by apply keyed_update_row|]. apply consume_history. intros r w Hr. rewrite Hi in Hr. by injection Hr as <- <-.
  - unfold Provision.reissue_config. destruct (_ && _); [|by split]. apply session_keeps; [|by split].
    intros s check st x H. apply reissue_work_spec in H as (row & v & Hl & _ & [[-> _]|(a & ring & url & sealed & <- & _ & _ & _ & _ & _ & _ & _ & _ & -> & _)]); [by split|].
    apply locked_spec in Hl as (Hi & _); [|done]. split; [apply keyed_update_row; [by split|]; by apply keyed_update_device|].
    apply history_update; [by split|done|]. intros r w Hr. rewrite Hi in Hr. injection Hr as <- <-. apply reissued_later.
  - unfold Provision.revoke_device. destruct (handoff_request_ok _ _ _ _); [|by split]. apply session_keeps; [|by split].
    intros s check st x H. apply revoke_work_spec in H as (row & v & Hl & ->).
    split; [apply keyed_update_row; [apply cleared_keys|]; by apply keyed_update_device|].
    apply history_update; [apply cleared_keys|done|]. intros r w _. split; simpl; try done; [by intros [? ->]|].
    right. split; simpl; try done; try (by left). by right.
  - by apply around_kept.
Qed.
Lemma psteps_kept d d' : keyed_rows d -> rtc pstep d d' -> kept d d'.
Proof.
  intros Hk Hs. induction Hs as [d|d d1 d' H _ IH]; [by split|]. apply pstep_kept in H as [Hk1 H1]; [|done].
  destruct (IH Hk1) as [Hk' H']. split; [done|]. by etransitivity.
Qed.
Lemma preachable_keyed d : preachable d -> keyed_rows d.
Proof.
  intros (d0 & H0 & Hs). apply psteps_kept in Hs; [by destruct Hs|]. split; rewrite H0; try constructor. by intros r ?%elem_of_nil.
Qed.

(** ** Handing over *)
Lemma download_spec rq early tm dev t ver d c d' : keyed_rows d -> download_config rq early tm dev t ver d = (Ok c, d') ->
  exists s row v a token, acts_for rq t s /\ identity_at d dev = Some (row, v) /\ pv_tenant_id row = se_tenantId s /\
    pv_credential_version row = ver /\ dv_revoked_at v = None /\ pv_handoff_user_id row = Some (se_userId s) /\
    pv_handoff_session_root row = Some (se_rootSessionId s) /\ pv_handoff_consumed_at row = None /\
    (tm_locked tm < pv_handoff_expires_at row)%Z /\ (tm_write tm < pv_handoff_expires_at row)%Z /\
    sha256 token = dv_token_hash v /\ c = config_of dev token row a /\ d' = consume_row (tm_write tm) dev d.
Proof.
  intros Hk. unfold Provision.download_config. destruct (handoff_request_ok _ _ _ _); [|done]. intros (s & Ha & H)%session_ok.
  apply download_work_spec in H as (row & v & a & ring & url & sealed & token & Hl & Hv & Hr & Hi & Hc & H1 & H2 & _ & _ & _ & _ & _ & Hh & -> & _ & ->).
  apply locked_spec in Hl as (Hid & _ & _ & Ht & _); [|done]. unfold issued_to in Hi. unfold expired in *. bools.
  exists s, row, v, a, token. rewrite Z.leb_gt in *. by split_and!.
Qed.

(** A version of a configuration is handed over at most once, whoever asks and
    whatever happens in between. *)
Theorem handed_once d rq1 early1 tm1 dev t1 ver c1 d1 d2 rq2 early2 tm2 t2 c2 d3 : preachable d ->
  download_config rq1 early1 tm1 dev t1 ver d = (Ok c1, d1) -> rtc pstep d1 d2 ->
  download_config rq2 early2 tm2 dev t2 ver d2 <> (Ok c2, d3).
Proof.
  intros Hd%preachable_keyed H1 Hs H2. assert (Hk1 : kept d d1).
  { replace d1 with (download_config rq1 early1 tm1 dev t1 ver d).2 by (by rewrite H1). apply pstep_kept; [done|constructor]. }
  destruct Hk1 as [Hk1 _]. destruct (psteps_kept _ _ Hk1 Hs) as [Hk2 [Hi _]].
  apply download_spec in H1 as (s & row & v & a & token & _ & Hid & _ & Hv & _ & _ & _ & _ & _ & _ & _ & _ & ->); [|done].
  apply download_spec in H2 as (s2 & row2 & v2 & a2 & token2 & _ & Hid2 & _ & Hv2 & _ & _ & _ & Hc2 & _); [|done].
  destruct (Hi dev (cleared (Some (tm_write tm1)) row, v)) as (e & He & Hl).
  { unfold consume_row. rewrite identity_update_row by apply cleared_keys. by rewrite String.eqb_refl, Hid. }
  rewrite Hid2 in He. injection He as <-. destruct (il_issue _ _ Hl) as [Hlt|Hsame]; simpl in *; [lia|].
  pose proof (si_consumed _ _ Hsame) as Hc. simpl in Hc. rewrite Hc in Hc2 by (by eexists). done.
Qed.

(** What a claim or a reissue stores when it makes a new configuration. *)
Definition fresh_issue (s : ProvisioningSession) (tm : Times) (dev token : string) (seq : Z) (st : DeviceProvisioning) (d : ProvisionDb) : Prop :=
  exists r v, identity_at d dev = Some (r, v) /\ pv_credential_version r = dp_credential_version st /\ pv_tenant_id r = se_tenantId s /\
    pv_handoff_user_id r = Some (se_userId s) /\ pv_handoff_session_root r = Some (se_rootSessionId s) /\
    pv_handoff_expires_at r = (tm_write tm + HANDOFF_MS)%Z /\ dv_token_hash v = sha256 token /\ pv_seq_start r = seq.
Definition first_seq (d : ProvisionDb) (dev : string) : Z := match d_devices (po_tel d) !! dev with Some v => next_seq v | None => 0 end.

Lemma status_fields checked row v user root may st : status_ok checked row v user root may = Ok st ->
  dp_device_id st = pv_device_id row /\ dp_credential_version st = pv_credential_version row /\
  zod_uuid (pv_device_id row) && zod_uuid (pv_build_id row) && (1 <=? pv_plan_version row) && (1 <=? pv_code_version row) &&
    (1 <=? pv_credential_version row) = true.
Proof. unfold provisioning_status. destruct (_ && _) eqn:E; [|done]. by intros [= <-]. Qed.
Lemma insert_identity tm s b dev hash url a sealed d : dev ∉ pv_device_id <$> po_rows d ->
  identity_at (insert_device tm s b dev hash url a sealed d) dev = Some (new_row tm s b dev url a sealed, new_device (se_tenantId s) hash a).
Proof.
  intros Hn. unfold identity_at. simpl. rewrite find_snoc. simpl. rewrite String.eqb_refl, lookup_insert_eq.
  destruct (List.find _ _) as [x|] eqn:E; [|done]. apply find_Some_elem in E as [Hx E]. apply String.eqb_eq in E.
  destruct Hn. apply list_elem_of_fmap. by exists x.
Qed.
Lemma status_identity checked d s dev st : keyed_rows d -> status_of zod_uuid checked d s dev = Ok st ->
  exists r v, identity_at d dev = Some (r, v) /\ dp_credential_version st = pv_credential_version r /\ dp_device_id st = pv_device_id r.
Proof.
  intros Hk ([r v] & Hl & H)%rbind_ok. apply locked_spec in Hl as (Hi & _); [|done]. apply status_fields in H as (H1 & H2 & _). by exists r, v.
Qed.

Lemma claim_issues rq early tm dev random nonce b d st d' : keyed_rows d -> claim_device rq early tm dev random nonce b d = (Ok st, d') -> d' <> d ->
  exists s, acts_for rq (cl_expected_tenant_id b) s /\ fresh_issue s tm dev (base64url random) (first_seq d dev) st d'.
Proof.
  intros Hk. unfold Provision.claim_device. destruct (DeviceClaimRequest_ok _ _); [|done]. intros (s & Ha & H)%session_ok Hne. exists s. split; [done|].
  apply claim_work_spec in H as [[-> _]|(a & ring & url & sealed & _ & _ & _ & Ht & -> & Hst)]; [done|].
  apply status_identity in Hst as (r & v & Hi & Hv & _); [|by apply insert_keyed]. apply taken_free in Ht as (Hn & Hnd & _).
  rewrite insert_identity in Hi by done. injection Hi as <- <-. eexists _, _. split; [by apply insert_identity|].
  unfold first_seq. rewrite Hn. by split_and!.
Qed.
Lemma reissue_issues rq early tm dev t ver rid random nonce d st d' : keyed_rows d ->
  reissue_config rq early tm dev t ver rid random nonce d = (Ok st, d') -> d' <> d ->
  exists s, acts_for rq t s /\ fresh_issue s tm dev (base64url random) (first_seq d dev) st d'.
Proof.
  intros Hk. unfold Provision.reissue_config. destruct (_ && _); [|done]. intros (s & Ha & H)%session_ok Hne. exists s. split; [done|].
  apply reissue_work_spec in H as (row & v & Hl & _ & [[-> _]|(a & ring & url & sealed & Hver & _ & _ & _ & _ & _ & _ & _ & _ & -> & Hst)]); [done|].
  apply locked_spec in Hl as (Hi & _ & _ & Ht & _); [|done]. set (f := reissued _ _ _ _ _ _ _) in *. set (g := with_token _) in *.
  assert (Hi' : identity_at (update_row dev f (update_device dev g d)) dev = Some (f row, g v)).
  { rewrite identity_update_row by by split. by rewrite identity_update_device, String.eqb_refl, Hi. }
  apply status_identity in Hst as (r & w & Hr & Hv & _).
  2: { apply keyed_update_row; [by split|]. by apply keyed_update_device. }
  rewrite Hi' in Hr. injection Hr as <- <-. exists (f row), (g v). split; [done|]. apply identity_row in Hi as (_ & _ & Hdv).
  unfold first_seq. rewrite Hdv. by split_and!.
Qed.

(** A configuration is handed over only to the session family it was issued to,
    by a claim or a reissue, within ten minutes of that; its token is the one
    made then, whose hash the device has, and its sequence starts after every
    packet the device had accepted. *)
Theorem handed_to_issuer d rq early tm dev random st d1 d2 rq2 early2 tm2 t2 c d3 : preachable d -> d1 <> d ->
  ((exists nonce b, claim_device rq early tm dev random nonce b d = (Ok st, d1)) \/
   (exists t ver rid nonce, reissue_config rq early tm dev t ver rid random nonce d = (Ok st, d1))) ->
  rtc pstep d1 d2 -> download_config rq2 early2 tm2 dev t2 (dp_credential_version st) d2 = (Ok c, d3) ->
  (exists s t, acts_for rq t s /\ acts_for rq2 t2 s) /\
  (tm_locked tm2 < tm_write tm + HANDOFF_MS)%Z /\ (tm_write tm2 < tm_write tm + HANDOFF_MS)%Z /\
  sha256 (dc_token c) = sha256 (base64url random) /\ dc_seq_start c = first_seq d dev.
Proof.
  intros Hk%preachable_keyed Hne Hissue Hs H2. assert (Hf : kept d d1 /\ exists s t, acts_for rq t s /\ fresh_issue s tm dev (base64url random) (first_seq d dev) st d1).
  { destruct Hissue as [(nonce & b & H)|(t & ver & rid & nonce & H)]; (split; [|]).
    - replace d1 with (claim_device rq early tm dev random nonce b d).2 by (by rewrite H). apply pstep_kept; [done|constructor].
    - apply claim_issues in H as (s & ? & ?); [by eexists s, _|done..].
    - replace d1 with (reissue_config rq early tm dev t ver rid random nonce d).2 by (by rewrite H). apply pstep_kept; [done|constructor].
    - apply reissue_issues in H as (s & ? & ?); [by eexists s, _|done..]. }
  destruct Hf as ([Hk1 _] & s & t & Ha & r & v & Hi & F1 & F2 & F3 & F4 & F5 & F6 & F7). destruct (psteps_kept _ _ Hk1 Hs) as [Hk2 [Hh _]].
  apply download_spec in H2 as (s2 & row & w & a & token & Ha2 & Hi2 & G1 & G2 & _ & G4 & G5 & _ & G7 & G8 & G9 & -> & _); [|done].
  destruct (Hh _ _ Hi) as (e & He & Hl). rewrite Hi2 in He. injection He as <-. destruct (il_issue _ _ Hl) as [Hlt|[]]; simpl in *; [lia|].
  assert (E : s2 = s).
  { destruct (il_tenant _ _ Hl) as [Ht _]. destruct s as [x1 x2 x3], s2 as [y1 y2 y3]; simpl in *.
    destruct si_user0 as [Eu|Eu]; rewrite Eu in G4; [|done]. destruct si_root0 as [Er|Er]; rewrite Er in G5; [|done]. congruence. }
  subst s2. rewrite si_expires0, F5 in *. split_and!; [by exists s, t|done|done| |].
  - by rewrite G9, si_token0, F6.
  - by rewrite si_seq0, F7.
Qed.

(** A revoked device gets no configuration again. *)
Theorem revoked_for_good d rq early tm dev t ver st d1 d2 : preachable d ->
  revoke_device rq early tm dev t ver d = (Ok st, d1) -> rtc pstep d1 d2 ->
  (forall rq2 early2 tm2 t2 ver2 c d3, download_config rq2 early2 tm2 dev t2 ver2 d2 <> (Ok c, d3)) /\
  (forall rq2 early2 tm2 t2 ver2 rid random nonce st2 d3, reissue_config rq2 early2 tm2 dev t2 ver2 rid random nonce d2 <> (Ok st2, d3)).
Proof.
  intros Hk%preachable_keyed H Hs. assert (Hk1 : kept d d1).
  { replace d1 with (revoke_device rq early tm dev t ver d).2 by (by rewrite H). apply pstep_kept; [done|constructor]. }
  destruct Hk1 as [Hk1 _]. destruct (psteps_kept _ _ Hk1 Hs) as [Hk2 [Hh _]].
  unfold Provision.revoke_device in H. destruct (handoff_request_ok _ _ _ _) in H; [|done]. apply session_ok in H as (s & _ & H).
  apply revoke_work_spec in H as (row & v & Hl & ->). apply locked_spec in Hl as (Hi & _); [|done].
  assert (Hi1 : exists r, identity_at (update_row dev (fun r => cleared (pv_handoff_consumed_at r) r) (update_device dev (with_revoked (tm_write tm)) d)) dev =
    Some (r, with_revoked (tm_write tm) v)).
  { eexists. rewrite identity_update_row by apply cleared_keys. by rewrite identity_update_device, String.eqb_refl, Hi. }
  destruct Hi1 as (r & Hi1). destruct (Hh _ _ Hi1) as ([r2 v2] & Hi2 & Hl2).
  assert (Hrev : dv_revoked_at v2 <> None) by (pose proof (il_revoked _ _ Hl2) as E; simpl in E; rewrite E by (by eexists); done). split.
  - intros rq2 early2 tm2 t2 ver2 c d3 H2. apply download_spec in H2 as (s2 & row2 & w & a & token & _ & Hw & _ & _ & Hn & _); [|done].
    rewrite Hi2 in Hw. by injection Hw as <- <-.
  - intros rq2 early2 tm2 t2 ver2 rid random nonce st2 d3. unfold Provision.reissue_config. destruct (_ && _); [|done]. intros (s2 & _ & H2)%session_ok.
    apply reissue_work_spec in H2 as (row2 & w & Hl' & Hn & _). apply locked_spec in Hl' as (Hw & _); [|done]. rewrite Hi2 in Hw. by injection Hw as <- <-.
Qed.

(** ** Claiming *)

(** What a claim answered is the identity of its plan. *)
Lemma claim_answers rq early tm dev random nonce b d st d' : keyed_rows d -> claim_device rq early tm dev random nonce b d = (Ok st, d') ->
  exists s r v, acts_for rq (cl_expected_tenant_id b) s /\ identity_at d' (dp_device_id st) = Some (r, v) /\ pv_tenant_id r = se_tenantId s /\
    pv_build_id r = cl_build_id b /\ pv_plan_version r = cl_plan_version b /\ pv_code_version r = cl_code_version b /\
    owned (fw_plans (po_fw d')) (cl_build_id b) (se_tenantId s) = true /\
    zod_uuid (pv_device_id r) && zod_uuid (pv_build_id r) && (1 <=? pv_plan_version r) && (1 <=? pv_code_version r) &&
      (1 <=? pv_credential_version r) = true.
Proof.
  intros Hk. unfold Provision.claim_device. destruct (DeviceClaimRequest_ok _ _); [|done]. intros (s & Ha & H)%session_ok. exists s.
  apply claim_work_spec in H as [(-> & x & r & v & Hx & Hl & Hc & Hst)|(a & ring & url & sealed & _ & _ & _ & Ht & -> & Hst)].
  - apply locked_spec in Hl as (Hi & Hr & Hd & Htn & _ & Ho); [|done]. apply find_Some_elem in Hx as [Hx Hp]. unfold of_plan in Hp.
    destruct (row_identity d x Hk Hx) as (w & Hw & _). rewrite Hw in Hi. injection Hi as <- <-.
    apply status_fields in Hst as (E1 & _ & E3). exists x, w. rewrite E1.
    rewrite !andb_true_iff, !String.eqb_eq, Nat.eqb_eq in Hp. destruct Hp as [[_ P2] P3]. rewrite <- P2. by split_and!.
  - pose proof Ht as (_ & Hnd & _)%taken_free. apply rbind_ok in Hst as ([r v] & Hl & Hst).
    apply locked_spec in Hl as (Hi & _ & _ & _ & _ & Ho); [|by apply insert_keyed]. rewrite insert_identity in Hi by done. injection Hi as <- <-.
    apply status_fields in Hst as (E1 & _ & E3). rewrite E1. eexists _, _. split_and!; [done|by apply insert_identity|done..].
Qed.

(** A plan is claimed once: a later claim of the same version for it answers
    with the same device and changes nothing, whatever happened in between,
    unless its request id was used for something else. *)
Theorem claim_repeated d rq early tm dev random nonce b st d1 d2 rq2 early2 tm2 dev2 random2 nonce2 b2 s : preachable d ->
  claim_device rq early tm dev random nonce b d = (Ok st, d1) -> rtc pstep d1 d2 ->
  DeviceClaimRequest_ok zod_uuid b2 = true -> cl_build_id b2 = cl_build_id b -> cl_plan_version b2 = cl_plan_version b ->
  cl_code_version b2 = cl_code_version b ->
  acts_for rq (cl_expected_tenant_id b) s -> (exists s2, acts_for rq2 (cl_expected_tenant_id b2) s2 /\ se_tenantId s2 = se_tenantId s) ->
  recheckExpiry sha256 rq2 early2 = Ok tt -> recheckExpiry sha256 rq2 (tm_check tm2) = Ok tt -> recheckExpiry sha256 rq2 (rq_end rq2) = Ok tt ->
  (forall r, r ∈ po_rows d2 -> claim_of (se_tenantId s) b2 r = true -> same_target b2 r = true) ->
  exists st2, claim_device rq2 early2 tm2 dev2 random2 nonce2 b2 d2 = (Ok st2, d2) /\ dp_device_id st2 = dp_device_id st.
Proof.
  intros Hk%preachable_keyed H Hs Hok Eb Ep Ec Ha (s2 & [Ha2 Hr2] & Et) Hre Hch Hend Hfree. assert (Hk1 : kept d d1).
  { replace d1 with (claim_device rq early tm dev random nonce b d).2 by (by rewrite H). apply pstep_kept; [done|constructor]. }
  destruct Hk1 as [Hk1 _]. destruct (psteps_kept _ _ Hk1 Hs) as [Hk2 [Hh Ho]].
  apply claim_answers in H as (s' & r & v & [Ha' Hr'] & Hi & C1 & C2 & C3 & C4 & C5 & C6); [|done].
  assert (Es : se_tenantId s' = se_tenantId s) by (destruct Ha as [Ha _]; rewrite Ha in Ha'; by injection Ha').
  destruct (Hh _ _ Hi) as ([r2 v2] & Hi2 & Hl). pose proof (identity_row _ _ _ _ Hi2) as (Hin & Hd2 & _).
  destruct (il_tenant _ _ Hl) as [Ht2 _]. pose proof (il_build _ _ Hl) as Hb2. pose proof (il_plan _ _ Hl) as Hp2. pose proof (il_code _ _ Hl) as Hc2. simpl in *.
  assert (Hfind : List.find (of_plan (se_tenantId s) (cl_build_id b2) (cl_plan_version b2)) (po_rows d2) = Some r2).
  { destruct (List.find _ _) as [x|] eqn:E.
    - apply find_Some_elem in E as [Hx E]. unfold of_plan in E. rewrite !andb_true_iff, !String.eqb_eq, Nat.eqb_eq in E. destruct E as [[_ E2] E3].
      apply list_elem_of_lookup in Hx as [i Hx], Hin as [j Hj]. assert (i = j) as ->; [|congruence].
      apply (NoDup_lookup _ _ _ (cl_build_id b2, cl_plan_version b2) (kr_plans _ Hk2)); rewrite list_lookup_fmap, ?Hx, ?Hj; simpl; do 2 f_equal; congruence.
    - pose proof (proj1 (find_None_forall _ _) E r2 Hin) as F. unfold of_plan in F.
      by rewrite Ht2, C1, Es, Hb2, C2, Hp2, C3, Eb, Ep, !String.eqb_refl, Nat.eqb_refl in F. }
  assert (Howned : owned (fw_plans (po_fw d2)) (cl_build_id b2) (se_tenantId s) = true) by (rewrite Eb, <- Es; by apply Ho).
  assert (Hlock : locked d2 (se_tenantId s) (pv_device_id r2) = Ok (r2, v2)).
  { apply locked_found; [done|by rewrite Hd2|congruence|]. by rewrite Hb2, C2, <- Eb. }
  assert (Hst : exists st2, status_ok (tm_locked tm2) r2 v2 (se_userId s2) (se_rootSessionId s2) true = Ok st2).
  { unfold provisioning_status. rewrite !andb_true_iff in C6. destruct C6 as ((((Z1 & Z2) & Z3) & Z4) & Z5). rewrite !Nat.leb_le in *.
    pose proof (identity_row _ _ _ _ Hi) as (_ & Hd & _). rewrite Hd in Z1. assert (Hv : 1 <= pv_credential_version r2).
    { destruct (il_issue _ _ Hl) as [?|[]]; simpl in *; lia. }
    rewrite Hd2, Hb2, Hp2, Hc2, Z1, Z2, !(proj2 (Nat.leb_le _ _)) by done. by eexists. }
  destruct Hst as [st2 Hst]. exists st2. pose proof (status_fields _ _ _ _ _ _ _ Hst) as (E1 & _). split; [|by rewrite E1].
  unfold Provision.claim_device, withProvisioningSession, authorized_write. rewrite Hok, Ha2, Hr2, Hre. cbn [rbind fst snd].
  unfold Provision.claim_work. cbv zeta. cbn [se_tenantId se_userId se_rootSessionId]. rewrite Et, Howned. cbn [negb].
  assert (Hnone : match List.find (claim_of (se_tenantId s) b2) (po_rows d2) with Some r => negb (same_target b2 r) | None => false end = false).
  { destruct (List.find (claim_of (se_tenantId s) b2) _) as [x|] eqn:E; [|done]. apply find_Some_elem in E as [Hx E]. by rewrite (Hfree x Hx E). }
  rewrite Hnone, Hfind, Hlock. cbn [rbind]. rewrite Hc2, C4, Ec, Nat.eqb_refl. cbn [negb]. rewrite Hch. cbn [rbind]. rewrite Hst. cbn [rbind]. by rewrite Hend.
Qed.

(** *** What a new device is made for *)
Lemma plan_evidence_spec d build ver current interval m plan : plan_evidence sha256 https_url d build ver current = Ok (interval, m, plan) ->
  exists p sp, plan_at d build ver = Some p /\ is_Some (pl_accepted_at p) /\
    (current = true -> current_spec_version d build = Some (pl_spec_version p)) /\
    spec_at d build (pl_spec_version p) = Some sp /\ sense_interval_s (spec_sense (sv_data sp)) = Some interval /\
    pl_metadata p = Some m /\ plan = row_plan p m /\ planInputDigest sha256 (sv_data sp) (bm_runtime m) (bm_evidence m) = Some (bm_input_digest m).
Proof.
  unfold plan_evidence. destruct (plan_at d build ver) as [p|]; [|done]. case_bool_decide as Ha; [|done]. cbn [negb].
  destruct (current && _) eqn:Ec; [done|]. destruct (spec_at _ _ _) as [sp|] eqn:Es; [|done]. cbv zeta.
  destruct (sense_interval_s _) as [i|] eqn:Ei; [|done]. destruct (negb _) in |- *; [done|]. destruct (pl_metadata p) as [m'|] eqn:Em; [|done].
  destruct (negb _) in |- *; [done|]. destruct (planInputDigest _ _ _ _) as [digest|] eqn:Ed; [|done].
  destruct (String.eqb_spec (bm_input_digest m') digest) as [<-|]; [|done]. cbn [negb]. destruct (negb _) in |- *; [done|].
  destruct (negb _) in |- *; [done|]. intros [= <- <- <-]. exists p, sp. split_and!; try done. intros ->. cbn [andb] in Ec. by bools.
Qed.

(** A record as a device may be made for it. *)
Record made_for (build : string) (plan code : nat) (record : FirmwarePassedRecord) (table : ChannelTable) (capabilities : list SensorCapability)
    : Prop := {
  mf_ids : fm_build_id (pr_manifest record) = build /\ fm_plan_version (pr_manifest record) = plan /\ fm_code_version (pr_manifest record) = code;
  mf_digest : exists text, serializeFirmwareManifest zod_uuid (pr_manifest record) = Some text /\ pr_manifest_digest record = sha256 text;
  mf_size : length table = length (fm_channels (pr_manifest record));
  mf_channels : forall key range, (key, range) ∈ table -> exists actual, map_get key (fm_channels (pr_manifest record)) = Some actual /\
    tc_unit actual = tc_unit range /\ neqb (tc_min actual) (tc_min range) = true /\ neqb (tc_max actual) (tc_max range) = true;
  mf_capabilities : (fun l => stringify (capabilities_json l)) <$> fm_capabilities (pr_manifest record) =
    match capabilities with [] => None | l => Some (stringify (capabilities_json l)) end
}.
Lemma verified_firmware record build plan code runtime p :
  verifyProvisioningFirmware sha256 zod_uuid record build plan code runtime p = Ok true ->
  made_for build plan code record (pd_channels p) (pd_capabilities p) /\ fm_runtime (pr_manifest record) = runtime.
Proof.
  unfold verifyProvisioningFirmware. cbv zeta. destruct (negb (FirmwarePassedRecord_ok _ _)); [done|].
  destruct (negb (_ && _)) eqn:E1 in |- *; [done|]. destruct (negb (_ && _)) eqn:E2 in |- *; [done|]. destruct (_ && _) in |- *; [done|].
  case_bool_decide as E3; [|done]. cbn [negb]. destruct (serializeFirmwareManifest _ _) as [text|] eqn:Et; [|done]. intros [= Ed%String.eqb_eq].
  apply negb_false_iff in E1, E2. rewrite !andb_true_iff, !String.eqb_eq, !Nat.eqb_eq in E1. destruct E1 as (((((_ & B) & P) & C) & R) & _).
  apply andb_true_iff in E2 as [L%Nat.eqb_eq F]. split; [|done]. split; [done|by exists text|by symmetry| |rewrite E3; by destruct (pd_capabilities p)].
  intros key range Hin. rewrite forallb_elem in F. specialize (F _ Hin). unfold same_channel in F. simpl in F.
  destruct (map_get key _) as [actual|]; [|done]. exists actual. rewrite !andb_true_iff, String.eqb_eq in F. by destruct F as [[? ?] ?].
Qed.

Lemma resolved_profile plan parts id pd : resolveProvisioningProfile profiles plan parts id = Some pd ->
  pd_profile pd ∈ profiles /\ pins (pp_part_versions (pd_profile pd)) = pins (part_versions plan).
Proof.
  unfold resolveProvisioningProfile. destruct (_ || _); [done|]. destruct (List.filter _ profiles) as [|x [|]] eqn:Efl; [done| |done].
  assert (Hx : x ∈ List.filter (matches_plan plan id) profiles) by (rewrite Efl; left). apply elem_of_listfilter in Hx as [Hx Hmp].
  unfold matches_plan in Hmp. rewrite !andb_true_iff, !String.eqb_eq in Hmp. destruct Hmp as [[_ Hmp] _].
  repeat (case_match; try done). by intros [= <-].
Qed.

Lemma authority_spec d t build ver code current a : authority d t build ver code current = Ok a ->
  owned (fw_plans d) build t = true /\
  exists p sp interval bundle, plan_at d build ver = Some p /\ is_Some (pl_accepted_at p) /\
    (current = true -> current_spec_version d build = Some (pl_spec_version p)) /\ spec_at d build (pl_spec_version p) = Some sp /\
    sense_interval_s (spec_sense (sv_data sp)) = Some interval /\
    bundle ∈ fw_bundles d /\ cb_build_id bundle = build /\ cb_version bundle = code /\ cb_plan_version bundle = ver /\ cb_status bundle = fw_passed /\
    cb_log bundle = PassedLog (au_firmware a) /\ made_for build ver code (au_firmware a) (au_channels a) (au_capabilities a) /\
    au_nextS a = match pr_job (au_firmware a) with Some j => jb_interval_s j | None => interval end /\ nlt (au_nextS a) interval = false /\
    au_profile a ∈ profiles /\ pins (pp_part_versions (au_profile a)) = pins (part_versions (au_plan a)).
Proof.
  unfold loadProvisioningAuthority. destruct (owned _ _ _); [|done]. cbn [negb]. intros ([[interval m] plan] & Hp & H)%rbind_ok. split; [done|].
  apply plan_evidence_spec in Hp as (p & sp & P1 & P2 & P3 & P4 & P5 & P6 & -> & P7).
  destruct (passed_bundle _ _ _ _ _) as [record|] eqn:Eb; [|done]. destruct (resolveProvisioningProfile _ _ _ _) as [pd|] eqn:Er; [|done].
  destruct (existsb _ _) in H; [done|]. apply rbind_ok in H as (verified & Hv & H). cbv zeta in H. destruct verified; [|done]. cbn [negb orb] in H.
  destruct (nlt _ interval) eqn:En in H; [done|]. injection H as <-. apply verified_firmware in Hv as [Hm _].
  unfold passed_bundle in Eb. destruct (List.find _ _) as [bundle|] eqn:Ef; [|done]. apply find_Some_elem in Ef as [Hin Hat].
  destruct (cb_log bundle) as [|r] eqn:El; [done|]. destruct (_ && _) eqn:Ec in Eb; [|done]. injection Eb as ->. bools.
  unfold at_code, of_build in *. bools. rewrite ?String.eqb_eq, ?Nat.eqb_eq in *.
  exists p, sp, interval, bundle. cbn [au_firmware au_channels au_capabilities au_nextS au_profile au_plan]. split_and!; try done.
  all: by apply resolved_profile in Er as [? ?].
Qed.

(** A claim that makes a device makes it for a plan accepted and current then,
    and for the firmware that passed for it: it keeps that record's digest, its
    channels are the manifest's, and it reports no more often than the accepted
    power budget allows. *)
Theorem claim_as_passed d rq early tm dev random nonce b st d1 : preachable d ->
  claim_device rq early tm dev random nonce b d = (Ok st, d1) -> d1 <> d ->
  exists r v p sp interval bundle record table capabilities compiled, identity_at d1 dev = Some (r, v) /\ dp_device_id st = dev /\
    plan_at (po_fw d) (cl_build_id b) (cl_plan_version b) = Some p /\ is_Some (pl_accepted_at p) /\
    current_spec_version (po_fw d) (cl_build_id b) = Some (pl_spec_version p) /\
    spec_at (po_fw d) (cl_build_id b) (pl_spec_version p) = Some sp /\ sense_interval_s (spec_sense (sv_data sp)) = Some interval /\
    bundle ∈ fw_bundles (po_fw d) /\ cb_status bundle = fw_passed /\ cb_log bundle = PassedLog record /\
    made_for (cl_build_id b) (cl_plan_version b) (cl_code_version b) record table capabilities /\
    pv_manifest_digest r = pr_manifest_digest record /\ dv_channels v = prod_map id Some <$> table /\
    dv_next_s v = nfloor compiled /\ nlt compiled interval = false.
Proof.
  intros Hk%preachable_keyed H Hne. unfold Provision.claim_device in H. destruct (DeviceClaimRequest_ok _ _) in H; [|done].
  apply session_ok in H as (s & _ & H). apply claim_work_spec in H as [[-> _]|(a & ring & url & sealed & Ha & _ & _ & Ht & -> & Hst)]; [done|].
  apply authority_spec in Ha as (_ & p & sp & interval & bundle & A1 & A2 & A3 & A4 & A5 & A6 & _ & _ & _ & A7 & A8 & A9 & _ & A10 & _).
  apply status_identity in Hst as (r & v & Hi & _ & Hdev); [|by apply insert_keyed]. apply taken_free in Ht as (_ & Hnd & _).
  rewrite insert_identity in Hi by done. injection Hi as <- <-.
  exists (new_row tm s b dev url a sealed), (new_device (se_tenantId s) (sha256 (base64url random)) a), p, sp, interval, bundle, (au_firmware a), (au_channels a), (au_capabilities a), (au_nextS a). split_and!; try done; [by apply insert_identity|by apply A3].
Qed.
End ProvisionSpec.
