(* ===== verification/Jpeg.v ===== *)
(** * The framing of a JPEG ([apps/cloudlink/src/jpeg.ts])

    [framed] walks the markers of an upload before anything decodes it. The
    offset of the code is what is left of the bytes here. *)
From S2P Require Import Prelude.
#[local] Open Scope Z_scope.
#[local] Open Scope list_scope.

(** Bytes, 0 to 255. *)
Fixpoint skip_data (l : list Z) : list Z :=
  match l with [] => [] | b :: r => if b =? 0xff then l else skip_data r end.
Fixpoint skip_fill (l : list Z) : list Z :=
  match l with [] => [] | b :: r => if b =? 0xff then skip_fill r else l end.

Definition restart (marker : Z) : bool := (0xd0 <=? marker) && (marker <=? 0xd7).
(** Stands alone, and not allowed outside a scan. *)
Definition misplaced (marker : Z) : bool := (marker =? 0xd8) || (marker =? 0) || (marker =? 1) || restart marker.

(** One round of the loop, which takes the marker and what follows it. *)
Inductive Round := Fails | Ends (last : bool) | Goes (scan : bool) (rest : list Z).
Definition marker_round (scan : bool) (l : list Z) : Round :=
  match (if scan then skip_data l else l) with
  | b :: l =>
      if b =? 0xff then
        match skip_fill l with
        | marker :: l =>
            if scan && ((marker =? 0) || restart marker) then Goes true l
            else if marker =? 0xd9 then Ends (match l with [] => true | _ => false end)
            else if misplaced marker then Fails
            else
              match l with
              | hi :: lo :: _ =>
                  let length_ := 256 * hi + lo in
                  if (length_ <? 2) || (Z.of_nat (length l) <? length_) then Fails
                  else Goes (marker =? 0xda) (drop (Z.to_nat length_) l)
              | _ => Fails
              end
        | [] => Fails
        end
      else Fails
  | [] => Fails
  end.

Fixpoint walk (fuel : nat) (scan : bool) (l : list Z) : bool :=
  match fuel with
  | O => false
  | S fuel =>
      match l with
      | [] => false
      | _ => match marker_round scan l with Fails => false | Ends b => b | Goes scan l => walk fuel scan l end
      end
  end.

Definition framed (bytes : list Z) : bool :=
  match bytes with
  | 0xff :: 0xd8 :: l => Nat.leb 4 (length bytes) && walk (length l) false l
  | _ => false
  end.

(** ** [validateJpeg]: the decoder is a parameter *)
Record ImageMetadata := mkImageMetadata { jm_jpeg : bool; jm_width : Z; jm_height : Z }.

Section Validate.
(** What the decoder reads of the header, and whether it decodes the rest. *)
Context (metadata : list Z -> option ImageMetadata) (decodes : list Z -> Z -> bool).

Definition validateJpeg (bytes : list Z) (maxWidth maxHeight : Z) : option (Z * Z) :=
  if negb (framed bytes) then None
  else
    match metadata bytes with
    | None => None
    | Some m =>
        if negb (jm_jpeg m) || (jm_width m <=? 0) || (jm_height m <=? 0) || (maxWidth <? jm_width m) || (maxHeight <? jm_height m) then None
        else if decodes bytes (maxWidth * maxHeight) then Some (jm_width m, jm_height m) else None
    end.

Lemma validateJpeg_bounds bytes maxWidth maxHeight w h :
  validateJpeg bytes maxWidth maxHeight = Some (w, h) -> framed bytes = true /\ 1 <= w <= maxWidth /\ 1 <= h <= maxHeight.
Proof.
  unfold validateJpeg. destruct (framed bytes); [|done]. simpl. destruct (metadata bytes) as [m|]; [|done].
  destruct (_ || _) eqn:E; [done|]. bools. destruct (decodes _ _); [|done]. intros [= <- <-]. rewrite Z.leb_gt, Z.ltb_ge in *. lia.
Qed.
End Validate.

(** ** The grammar

    What follows the start marker. Scan data has no [0xff] byte; any number of
    fill bytes may stand before a marker. *)
Definition entropy (data : list Z) : Prop := 0xff ∉ data.
Definition fill (l : list Z) : Prop := Forall (fun b => b = 0xff) l.

Inductive frames : bool -> list Z -> Prop :=
| frames_end scan data pad :
    entropy data -> fill pad -> (scan = false -> data = []) ->
    frames scan (data ++ 0xff :: pad ++ [0xd9])
| frames_escape data pad marker rest :
    entropy data -> fill pad -> (marker = 0 \/ 0xd0 <= marker <= 0xd7) -> frames true rest ->
    frames true (data ++ 0xff :: pad ++ marker :: rest)
| frames_segment scan data pad marker hi lo payload rest :
    entropy data -> fill pad -> (scan = false -> data = []) ->
    ~ (marker = 0xff \/ marker = 0xd9 \/ marker = 0xd8 \/ marker = 0 \/ marker = 1 \/ 0xd0 <= marker <= 0xd7) ->
    256 * hi + lo = Z.of_nat (length payload) + 2 ->
    frames (marker =? 0xda) rest ->
    frames scan (data ++ 0xff :: pad ++ marker :: hi :: lo :: payload ++ rest).

(** ** What the two inner loops do *)
Lemma skip_data_split l : exists data, l = data ++ skip_data l /\ entropy data /\ (skip_data l = [] \/ exists r, skip_data l = 0xff :: r).
Proof.
  induction l as [|b l (data & E & Hd & H)]; simpl; [exists []; split_and!; [done|by apply not_elem_of_nil|by left]|].
  destruct (Z.eqb_spec b 0xff) as [->|N].
  - exists []. split_and!; [done|by apply not_elem_of_nil|eauto].
  - exists (b :: data). simpl. split_and!; [by rewrite <- E| |done]. unfold entropy. rewrite elem_of_cons. intros [?|?]; [congruence|done].
Qed.
Lemma skip_data_data data r : entropy data -> skip_data (data ++ 0xff :: r) = 0xff :: r.
Proof.
  unfold entropy. induction data as [|b data IH]; simpl; [done|]. rewrite elem_of_cons. intros H.
  destruct (Z.eqb_spec b 0xff) as [->|]; [naive_solver|]. apply IH. naive_solver.
Qed.

Lemma skip_fill_split l : exists pad, l = pad ++ skip_fill l /\ fill pad /\ (forall m r, skip_fill l = m :: r -> m <> 0xff).
Proof.
  induction l as [|b l (pad & E & Hp & H)]; simpl; [exists []; split_and!; [done|constructor|done]|].
  destruct (Z.eqb_spec b 0xff) as [->|N].
  - exists (0xff :: pad). simpl. split_and!; [by rewrite <- E|by constructor|done].
  - exists []. split_and!; [done|constructor|by intros m r [= <- <-]].
Qed.
Lemma skip_fill_fill pad m r : fill pad -> m <> 0xff -> skip_fill (pad ++ m :: r) = m :: r.
Proof. intros Hp Hm. induction Hp as [|b pad -> Hp IH]; simpl; [|done]. by rewrite (proj2 (Z.eqb_neq _ _) Hm). Qed.

Lemma restart_spec m : restart m = true <-> 0xd0 <= m <= 0xd7.
Proof. unfold restart. rewrite andb_true_iff, !Z.leb_le. done. Qed.
Lemma misplaced_spec m : misplaced m = true <-> m = 0xd8 \/ m = 0 \/ m = 1 \/ 0xd0 <= m <= 0xd7.
Proof. unfold misplaced. rewrite !orb_true_iff, restart_spec, !Z.eqb_eq. tauto. Qed.

(** A round at the shapes of the grammar. *)
Lemma marker_round_at scan data pad m l :
  entropy data -> fill pad -> (scan = false -> data = []) -> m <> 0xff ->
  marker_round scan (data ++ 0xff :: pad ++ m :: l) = marker_round scan (0xff :: m :: l).
Proof.
  intros Hd Hp Hs Hm. unfold marker_round. destruct scan; [rewrite skip_data_data by done|rewrite (Hs eq_refl)]; simpl;
    rewrite skip_fill_fill by done; by rewrite (proj2 (Z.eqb_neq _ _) Hm).
Qed.

Lemma marker_round_shape scan l :
  marker_round scan l <> Fails ->
  exists data pad m r, l = data ++ 0xff :: pad ++ m :: r /\ entropy data /\ fill pad /\ (scan = false -> data = []) /\ m <> 0xff.
Proof.
  intros H.
  assert (exists data r, l = data ++ 0xff :: r /\ entropy data /\ (scan = false -> data = []) /\ skip_fill r <> []) as (data & r & -> & Hd & Hs & Hr).
  { unfold marker_round in H. destruct scan.
    - destruct (skip_data_split l) as (data & E & Hd & [Es|[r Es]]); rewrite Es in *; [done|]. exists data, r. split_and!; try done.
      intros E0. simpl in H. by rewrite E0 in H.
    - destruct l as [|b l]; [done|]. destruct (Z.eqb_spec b 0xff) as [->|]; [|done]. exists [], l.
      split_and!; [done|by apply not_elem_of_nil|done|]. intros E0. by rewrite E0 in H. }
  destruct (skip_fill_split r) as (pad & E & Hp & Hm). destruct (skip_fill r) as [|m r']; [done|].
  exists data, pad, m, r'. split_and!; [by rewrite <- E|done..|]. by eapply Hm.
Qed.

Lemma walk_frames fuel scan l : walk fuel scan l = true -> frames scan l.
Proof.
  revert scan l. induction fuel as [|fuel IH]; intros scan l; simpl; [done|]. destruct l as [|b0 l0]; [done|].
  remember (b0 :: l0) as l eqn:El. clear El. destruct (marker_round scan l) as [|b|scan' l'] eqn:E; [done|..].
  all: destruct (marker_round_shape scan l) as (data & pad & m & r & -> & Hd & Hp & Hs & Hm); [congruence|].
  all: rewrite marker_round_at in E by done.
  all: assert (Ec : (if scan then skip_data (0xff :: m :: r) else 0xff :: m :: r) = 0xff :: m :: r) by (by destruct scan).
  all: unfold marker_round in E; rewrite Ec in E; simpl in E; rewrite (proj2 (Z.eqb_neq _ _) Hm) in E.
  all: destruct (scan && _) eqn:Esc; [try done|].
  - destruct (Z.eqb_spec m 0xd9) as [->|].
    2:{ destruct (misplaced m); [done|]. destruct r as [|hi [|lo r]]; try done. by case_in E. }
    injection E as <-. intros Hr. destruct r; [|done]. by apply frames_end.
  - injection E as <- <-. intros H%IH. apply andb_true_iff in Esc as [-> Hesc]. apply frames_escape; try done.
    apply orb_true_iff in Hesc as [?%Z.eqb_eq|?%restart_spec]; auto.
  - destruct (Z.eqb_spec m 0xd9) as [->|N9]; [by destruct r|]. destruct (misplaced m) eqn:Em; [done|]. destruct r as [|hi [|lo r]]; [done..|].
    case_in E; [done|]. injection E as <- <-. bools. rewrite Z.ltb_ge in *. intros Hw%IH.
    assert (Hn : ~ (m = 0xd8 \/ m = 0 \/ m = 1 \/ 0xd0 <= m <= 0xd7)) by (rewrite <- misplaced_spec; congruence).
    cbn [length] in *. rewrite <- (take_drop (Z.to_nat (256 * hi + lo) - 2) r). apply frames_segment; try done; [lia| |].
    + rewrite length_take. lia.
    + replace (Z.to_nat (256 * hi + lo)) with (S (S (Z.to_nat (256 * hi + lo) - 2))) in Hw by lia. done.
Qed.

Lemma frames_nonempty scan l : frames scan l -> l <> [].
Proof. intros [] E; by apply app_nil in E as [_ ?]. Qed.

Lemma walk_more fuel scan l : l <> [] -> walk (S fuel) scan l =
  match marker_round scan l with Fails => false | Ends b => b | Goes scan l => walk fuel scan l end.
Proof. by destruct l. Qed.

Lemma marker_round_plain scan m l : m <> 0xff ->
  marker_round scan (0xff :: m :: l) =
    if scan && ((m =? 0) || restart m) then Goes true l
    else if m =? 0xd9 then Ends (match l with [] => true | _ => false end)
    else if misplaced m then Fails
    else match l with
         | hi :: lo :: _ =>
             if (256 * hi + lo <? 2) || (Z.of_nat (length l) <? 256 * hi + lo) then Fails
             else Goes (m =? 0xda) (drop (Z.to_nat (256 * hi + lo)) l)
         | _ => Fails
         end.
Proof. intros Hm%Z.eqb_neq. unfold marker_round. destruct scan; simpl; by rewrite Hm. Qed.

Lemma frames_walk scan l : frames scan l -> forall fuel, (length l <= fuel)%nat -> walk fuel scan l = true.
Proof.
  induction 1 as [scan data pad Hd Hp Hs|data pad m rest Hd Hp Hm Hr IH|scan data pad m hi lo payload rest Hd Hp Hs Hm Hlen Hr IH];
    intros [|fuel]; rewrite ?length_app; cbn [length]; rewrite ?length_app; cbn [length]; try lia; intros Hf; rewrite walk_more by (by destruct data).
  - rewrite marker_round_at, marker_round_plain by done. by rewrite andb_false_r.
  - rewrite marker_round_at, marker_round_plain by (done || lia). replace ((m =? 0) || restart m) with true; [apply IH; lia|].
    symmetry. apply orb_true_iff. by rewrite restart_spec, Z.eqb_eq.
  - assert (Hnm : misplaced m = false) by (rewrite <- not_true_iff_false, misplaced_spec; tauto).
    assert (Hnr : (m =? 0) || restart m = false) by (rewrite orb_false_iff, Z.eqb_neq, <- not_true_iff_false, restart_spec; tauto).
    rewrite marker_round_at, marker_round_plain, Hnr, Hnm, andb_false_r, (proj2 (Z.eqb_neq m 0xd9)) by tauto.
    replace (_ || _) with false; [|symmetry; apply orb_false_iff; rewrite !Z.ltb_ge; cbn [length]; rewrite length_app; lia].
    replace (Z.to_nat (256 * hi + lo)) with (S (S (length payload))) by lia. cbn [drop]. rewrite drop_app_length. apply IH.
    rewrite length_app in Hf. lia.
Qed.

(** ** Nothing may follow the end marker *)
Lemma marker_round_app scan l t :
  marker_round scan l <> Fails ->
  marker_round scan (l ++ t) =
    match marker_round scan l with Fails => Fails | Ends b => Ends (b && match t with [] => true | _ => false end) | Goes s r => Goes s (r ++ t) end.
Proof.
  intros H. destruct (marker_round_shape scan l H) as (data & pad & m & r & -> & Hd & Hp & Hs & Hm).
  replace ((data ++ 0xff :: pad ++ m :: r) ++ t) with (data ++ 0xff :: pad ++ m :: r ++ t) by (rewrite <- app_assoc; simpl; by rewrite <- app_assoc).
  rewrite !marker_round_at by done. rewrite marker_round_at in H by done. revert H. rewrite !marker_round_plain by done.
  destruct (scan && _); [done|]. destruct (m =? 0xd9); [intros _; by destruct r|]. destruct (misplaced m); [done|].
  destruct r as [|hi [|lo r]]; [done..|]. cbn [app]. destruct (256 * hi + lo <? 2) eqn:E2; [done|]. cbn [orb]. cbn [length].
  destruct (Z.of_nat _ <? 256 * hi + lo) eqn:El; [done|]. intros _. apply Z.ltb_ge in E2, El.
  rewrite (proj2 (Z.ltb_ge _ _)) by (rewrite length_app; lia).
  replace (hi :: lo :: r ++ t) with ((hi :: lo :: r) ++ t) by done. rewrite drop_app_le by (simpl; lia). done.
Qed.

Lemma walk_prefix fuel fuel' scan l t : walk fuel scan l = true -> walk fuel' scan (l ++ t) = true -> t = [].
Proof.
  revert fuel' scan l. induction fuel as [|fuel IH]; intros [|fuel'] scan l; simpl; [done..|].
  destruct l as [|b l]; [done|]. cbn [app]. change (b :: l ++ t) with ((b :: l) ++ t). remember (b :: l) as l0 eqn:E0. clear E0.
  destruct (marker_round scan l0) as [|e|s r] eqn:E; [done|..]; rewrite marker_round_app, E by (by rewrite E).
  - intros ->. by destruct t.
  - intros H H'. by apply (IH fuel' s r).
Qed.

(** the walk accepts exactly the framings of the grammar (a start marker,
    segments of their stated lengths, scan data with its escapes, and one end
    marker), and no accepted upload continues another: a second image or a
    payload behind the end marker is refused. *)
Theorem framed_correct bytes :
  (framed bytes = true <-> exists rest, bytes = 0xff :: 0xd8 :: rest /\ frames false rest) /\
  (forall more, framed bytes = true -> framed (bytes ++ more) = true -> more = []).
Proof.
  assert (Hf : forall l, framed l = true <-> exists rest, l = 0xff :: 0xd8 :: rest /\ (2 <= length rest)%nat /\ walk (length rest) false rest = true).
  { intros l. unfold framed. split.
    - destruct l as [|b0 [|b1 rest]]; try (by repeat case_match). intros H. exists rest.
      do 18 (case_in H; try done). all: apply andb_true_iff in H as [Hl Hw]; apply Nat.leb_le in Hl; simpl in Hl; split_and!; [done|lia|done].
    - intros (rest & -> & Hl & Hw). apply andb_true_iff. split; [apply Nat.leb_le; simpl; lia|done]. }
  split.
  - rewrite Hf. split; intros (rest & -> & H); exists rest; (split; [done|]).
    + destruct H as [_ Hw]. by apply walk_frames in Hw.
    + split; [|by apply frames_walk]. destruct H; rewrite length_app; simpl; rewrite ?length_app; simpl; lia.
  - intros more (rest & -> & _ & Hw)%Hf (rest' & E & _ & Hw')%Hf. simpl in E. injection E as <-. by apply (walk_prefix _ _ _ _ _ Hw Hw').
Qed.
