(* ===== verification/Observations.v ===== *)
(** * Image observations ([apps/cloudlink/src/observations.ts])

    An upload is admitted, reserves its place in the day's quota under a lease,
    writes its object to storage, and is finalised. Each transaction holds the
    device's row; between them run other uploads and the maintenance worker
    ([apps/observation-maintain/src/maintain.ts]). *)
From stdpp Require Import gmap.
From S2P Require Import Prelude JsString Regex JsNumber JsDate Json Auth Telemetry Jpeg.
#[local] Open Scope string_scope.
#[local] Open Scope list_scope.
#[local] Open Scope Z_scope.
#[local] Open Scope forge_scope.

(** ** Tables ([packages/db/src/schema/observations.ts])

    Times are in milliseconds, as the code writes them. A lease and its end are
    null together ([observation_receipts_lease_check]). *)
Inductive ReceiptState := Reserved | StoredState | Expired | FailedState.
#[export] Instance ReceiptState_dec : EqDecision ReceiptState.
Proof. solve_decision. Defined.

Record Receipt := mkReceipt {
  rc_capability_id : string;
  rc_fingerprint : string;
  rc_sha256 : string;
  rc_bytes : Z;
  rc_captured_at : Z;
  rc_received_at : option Z;
  rc_expires_at : Z;
  rc_state : ReceiptState;
  rc_lease : option (string * Z);
  rc_reserved_day : string;
  rc_credential : option string
}.
Record Image := mkImage { im_object_key : string; im_generation : option Z; im_width : Z; im_height : Z }.

(** A row's key: device and observation, which the uuid type compares without
    case. *)
Notation Key := (string * string)%type (only parsing).

Record ObservationDb := mkObservations {
  ob_devices : gmap string DeviceRow;
  ob_capabilities : list CapabilityRow;
  ob_receipts : gmap Key Receipt;
  ob_images : gmap Key Image;
  ob_usage : gmap (string * string) (Z * Z);
  ob_attempts : gmap string (Z * Z);
  ob_presence : gmap (string * string) (Z * Z);
  ob_intents : gmap string (option Z)
}.
Definition with_receipts m (d : ObservationDb) : ObservationDb :=
  mkObservations (ob_devices d) (ob_capabilities d) m (ob_images d) (ob_usage d) (ob_attempts d) (ob_presence d) (ob_intents d).
Definition with_images m (d : ObservationDb) : ObservationDb :=
  mkObservations (ob_devices d) (ob_capabilities d) (ob_receipts d) m (ob_usage d) (ob_attempts d) (ob_presence d) (ob_intents d).
Definition with_attempts m (d : ObservationDb) : ObservationDb :=
  mkObservations (ob_devices d) (ob_capabilities d) (ob_receipts d) (ob_images d) (ob_usage d) m (ob_presence d) (ob_intents d).
Definition with_accepted u p (d : ObservationDb) : ObservationDb :=
  mkObservations (ob_devices d) (ob_capabilities d) (ob_receipts d) (ob_images d) u (ob_attempts d) p (ob_intents d).
Definition with_intents m (d : ObservationDb) : ObservationDb :=
  mkObservations (ob_devices d) (ob_capabilities d) (ob_receipts d) (ob_images d) (ob_usage d) (ob_attempts d) (ob_presence d) m.

(** ** Requests *)
Record Metadata := mkMetadata {
  md_deviceId : string;
  md_observationId : string;
  md_capabilityId : string;
  md_payloadSchema : string;
  md_capturedAt : Z;
  md_sha256 : string
}.
Record ObservationRequest := mkRequest {
  rq_authorization : option string;
  rq_deviceId : string;
  rq_observation_id : option string;
  rq_capability_id : option string;
  rq_payload_schema : option string;
  rq_captured_at : option string;
  rq_content_sha256 : option string;
  rq_content_type : option string;
  rq_content_encoding : option string;
  rq_content_length : option string
}.

Inductive Rejection := Rejected (statusCode : Z) (code : string) | Fault.

Definition CAPABILITY_ID : re := Cat (Chr is_lower) (rupto 63 (Chr (fun c => is_lower_digit c || one_of "_.-" c))).
Definition DIGEST : re := rrep 64 (Chr (fun c => is_digit c || in_range "a" "f" c)).
Definition CAPTURED_AT : re := Cat digit19 (rupto 11 digit).

Definition key_of (m : Metadata) : Key := (lower (md_deviceId m), lower (md_observationId m)).
Definition object_key (tenant_id : string) (m : Metadata) : string :=
  ("tenant/" ++ tenant_id ++ "/device/" ++ md_deviceId m ++ "/" ++ md_observationId m ++ ".jpg")%string.

Section Observations.
Context (sha256 : string -> string) (sha256_bytes : list Z -> string) (zod_uuid zod_uuidv4 : string -> bool).
Context (metadata : list Z -> option ImageMetadata) (decodes : list Z -> Z -> bool).

(** [ObservationOptions], with its defaults. *)
Record Options := mkOptions { maxDailyCount : Z; maxDailyBytes : Z; maxAttemptsPerMinute : Z; leaseMs : Z }.
Definition DEFAULT_OPTIONS : Options := mkOptions 1200 (128 * 1024 * 1024) 6 30000.
Context (options : Options).

(** [ObservationHeaders] ([packages/schema/src/observations.ts]). *)
Definition read_captured_at (s : string) : option Z :=
  if test CAPTURED_AT s && (BigInt s <=? 253402300799) then Some (BigInt s) else None.
Definition accept (ok : string -> bool) (s : option string) : option string :=
  s ≫= fun s => if ok s then Some s else None.
Definition read_metadata (r : ObservationRequest) : option Metadata :=
  deviceId ← accept zod_uuid (Some (rq_deviceId r));
  observationId ← accept zod_uuidv4 (rq_observation_id r);
  capabilityId ← accept (test CAPABILITY_ID) (rq_capability_id r);
  payloadSchema ← accept (fun s => s ==s "jpeg.v1") (rq_payload_schema r);
  capturedAt ← rq_captured_at r ≫= read_captured_at;
  digest ← accept (test DIGEST) (rq_content_sha256 r);
  Some (mkMetadata deviceId observationId capabilityId payloadSchema capturedAt digest).

(** ** [authorize] *)
Record Capability := mkImageCapability { ca_tenant_id : string; ca_max_bytes : Z; ca_max_width : Z; ca_max_height : Z }.

Definition owner_of_device (d : ObservationDb) (dev credentialHash : string) : option DeviceRow :=
  match ob_devices d !! dev with
  | Some v => if (dv_token_hash v ==s credentialHash) && bool_decide (dv_revoked_at v = None) then Some v else None
  | None => None
  end.
Definition capability_row (d : ObservationDb) (dev id : string) : option CapabilityRow :=
  List.find (fun c => (cp_device c ==s dev) && (cp_id c ==s id)) (ob_capabilities d).

Definition authorize (d : ObservationDb) (m : Metadata) (credentialHash : string) : result Rejection Capability :=
  match owner_of_device d (lower (md_deviceId m)) credentialHash with
  | None => Err (Rejected 401 "unauthorized")
  | Some device =>
      match capability_row d (lower (md_deviceId m)) (md_capabilityId m) with
      | None => Err (Rejected 403 "capability_forbidden")
      | Some c =>
          if negb (cp_enabled c) || negb (cp_kind c ==s "image") || negb (cp_payload_schema c ==s md_payloadSchema m)
          then Err (Rejected 403 "capability_forbidden")
          else
            match cp_max_bytes c, cp_max_width c, cp_max_height c with
            | Some b, Some w, Some h =>
                if between 1 1048576 b && between 1 4096 w && between 1 4096 h
                then Ok (mkImageCapability (dv_tenant_id device) b w h)
                else Err (Rejected 503 "invalid_capability_configuration")
            | _, _, _ => Err (Rejected 503 "invalid_capability_configuration")
            end
      end
  end.

(** ** Admission: every attempt counts, refused or not *)
Definition minute_of (ms : Z) : Z := ms / 60000 * 60000.
Definition count_attempt (now : Z) (dev : string) (d : ObservationDb) : Z * ObservationDb :=
  let attempts :=
    match ob_attempts d !! dev with
    | Some (window, n) => if window =? minute_of now then n + 1 else 1
    | None => 1
    end in
  (attempts, with_attempts (<[dev := (minute_of now, attempts)]> (ob_attempts d)) d).

Definition ALL_DIGITS : re := rplus digit.
Definition too_long (content_length : option string) (max_bytes : Z) : bool :=
  match content_length with
  | None => false
  | Some s => negb (test ALL_DIGITS s) || (max_bytes <? BigInt s)
  end.

Definition on_request (now : Z) (r : ObservationRequest) (d : ObservationDb) : result Rejection (Metadata * string * Capability) * ObservationDb :=
  match bearerHash sha256 (rq_authorization r) with
  | None => (Err (Rejected 401 "unauthorized"), d)
  | Some hash =>
      match read_metadata r with
      | None => (Err (Rejected 400 "invalid_metadata"), d)
      | Some m =>
          if negb (bool_decide (rq_content_type r = Some "image/jpeg")) || negb (bool_decide (rq_content_encoding r = None))
          then (Err (Rejected 415 "unsupported_payload"), d)
          else
            match authorize d m hash with
            | Err e => (Err e, d)
            | Ok cap =>
                let '(attempts, d) := count_attempt now (lower (md_deviceId m)) d in
                if maxAttemptsPerMinute options <? attempts then (Err (Rejected 429 "attempt_limit"), d)
                else if too_long (rq_content_length r) (ca_max_bytes cap) then (Err (Rejected 413 "payload_too_large"), d)
                else (Ok (m, hash, cap), d)
            end
      end
  end.

(** ** The payload *)
Record Upload := mkUpload {
  up_metadata : Metadata;
  up_credential : string;
  up_tenant_id : string;
  up_bytes : Z;
  up_sha256 : string;
  up_width : Z;
  up_height : Z
}.
Definition up_object_key (u : Upload) : string := object_key (up_tenant_id u) (up_metadata u).

Definition upload_json (u : Upload) : json :=
  let m := up_metadata u in
  JObj [("kind", JStr "image"); ("deviceId", JStr (md_deviceId m)); ("observationId", JStr (md_observationId m));
        ("capabilityId", JStr (md_capabilityId m)); ("payloadSchema", JStr (md_payloadSchema m));
        ("capturedAt", json_int (md_capturedAt m)); ("sha256", JStr (md_sha256 m)); ("bytes", json_int (up_bytes u));
        ("width", json_int (up_width u)); ("height", json_int (up_height u))].
Definition fingerprint (u : Upload) : string := tokenHash sha256 (stringify (upload_json u)).

Definition receive (m : Metadata) (hash : string) (cap : Capability) (body : list Z) : result Rejection Upload :=
  let n := Z.of_nat (length body) in
  if n =? 0 then Err (Rejected 422 "invalid_image")
  else if ca_max_bytes cap <? n then Err (Rejected 413 "payload_too_large")
  else if negb (sha256_bytes body ==s md_sha256 m) then Err (Rejected 422 "digest_mismatch")
  else
    match validateJpeg metadata decodes body (ca_max_width cap) (ca_max_height cap) with
    | None => Err (Rejected 422 "invalid_image")
    | Some (w, h) => Ok (mkUpload m hash (ca_tenant_id cap) n (sha256_bytes body) w h)
    end.

(** ** The reservation *)
Definition may_upload (d : ObservationDb) (u : Upload) : result Rejection unit :=
  let! current := authorize d (up_metadata u) (up_credential u) in
  if negb (ca_tenant_id current ==s up_tenant_id u) then Err (Rejected 403 "ownership_changed")
  else if (ca_max_bytes current <? up_bytes u) || (ca_max_width current <? up_width u) || (ca_max_height current <? up_height u)
  then Err (Rejected 403 "capability_changed") else Ok tt.

(** A day's use: what was accepted, and what other receipts hold reserved. *)
Definition sum_of (f : Key -> Receipt -> Z) (m : gmap Key Receipt) : Z := map_fold (fun k r acc => f k r + acc) 0 m.
Definition reserved_on (dev day : string) (k : Key) (r : Receipt) : bool :=
  (k.1 ==s dev) && (rc_reserved_day r ==s day) && bool_decide (rc_state r = Reserved).
Definition used (d : ObservationDb) (k : Key) (day : string) : Z * Z :=
  let '(count, bytes) := default (0, 0) (ob_usage d !! (k.1, day)) in
  (count + sum_of (fun k' r => if reserved_on k.1 day k' r then 1 else 0) (delete k (ob_receipts d)),
   bytes + sum_of (fun k' r => if reserved_on k.1 day k' r then rc_bytes r else 0) (delete k (ob_receipts d))).
Definition within_quota (d : ObservationDb) (k : Key) (day : string) (bytes : Z) : bool :=
  let '(count, total) := used d k day in (count + 1 <=? maxDailyCount options) && (total + bytes <=? maxDailyBytes options).

Definition DAY_MS : Z := 86400000.
Definition reserve_row (lease credential : string) (until : Z) (day : string) (r : Receipt) : Receipt :=
  mkReceipt (rc_capability_id r) (rc_fingerprint r) (rc_sha256 r) (rc_bytes r) (rc_captured_at r) (rc_received_at r)
    (rc_expires_at r) Reserved (Some (lease, until)) day (Some credential).
Definition new_receipt (u : Upload) (lease : string) (until : Z) (day : string) : Receipt :=
  let captured := md_capturedAt (up_metadata u) * 1000 in
  mkReceipt (md_capabilityId (up_metadata u)) (fingerprint u) (up_sha256 u) (up_bytes u) captured None (captured + 30 * DAY_MS)
    Reserved (Some (lease, until)) day (Some (up_credential u)).

(** Whether another image has the object's key ([UNIQUE(object_key)]). *)
Definition key_taken (m : gmap Key Image) (key : string) : bool :=
  existsb (fun i => im_object_key i ==s key) (map_to_list m).*2.

Definition place (now : Z) (lease : string) (u : Upload) (prior : option Receipt) (d : ObservationDb) : result Rejection ObservationDb :=
  let captured := md_capturedAt (up_metadata u) * 1000 in
  let k := key_of (up_metadata u) in
  let day := isoDay now in
  if (captured <? now - 7 * DAY_MS) || (now + 300000 <? captured) then Err (Rejected 422 "timestamp_out_of_range")
  else if negb (within_quota d k day (up_bytes u)) then Err (Rejected 429 "daily_quota")
  else
    match prior with
    | None =>
        if bool_decide (is_Some (ob_intents d !! up_object_key u)) then Err (Rejected 410 "observation_expired")
        else if key_taken (ob_images d) (up_object_key u) then Err Fault
        else Ok (with_images (<[k := mkImage (up_object_key u) None (up_width u) (up_height u)]> (ob_images d))
                  (with_receipts (<[k := new_receipt u lease (now + leaseMs options) day]> (ob_receipts d)) d))
    | Some r => Ok (with_receipts (<[k := reserve_row lease (up_credential u) (now + leaseMs options) day r]> (ob_receipts d)) d)
    end.

(** [Some prior] when it was stored before, and nothing is reserved. *)
Definition reserve (now : Z) (lease : string) (u : Upload) (d : ObservationDb) : result Rejection (option Receipt * ObservationDb) :=
  let! _ := may_upload d u in
  match ob_receipts d !! key_of (up_metadata u) with
  | None => let! d := place now lease u None d in Ok (None, d)
  | Some prior =>
      if negb (rc_fingerprint prior ==s fingerprint u) then Err (Rejected 409 "observation_conflict")
      else if bool_decide (rc_state prior = Expired) || (rc_expires_at prior <=? now) then Err (Rejected 410 "observation_expired")
      else if bool_decide (rc_state prior = StoredState) then Ok (Some prior, d)
      else if from_option (fun l => now <? l.2) false (rc_lease prior) then Err (Rejected 503 "observation_pending")
      else let! d := place now lease u (Some prior) d in Ok (None, d)
  end.

(** ** Objects ([packages/storage]) *)
Record StoredObject := mkObject { so_generation : Z; so_bytes : Z; so_sha256 : string; so_fingerprint : string }.

(** What the object must be to be the upload's. *)
Definition is_object_of (u : Upload) (o : StoredObject) : bool :=
  (so_sha256 o ==s up_sha256 u) && (so_fingerprint o ==s fingerprint u) && (so_bytes o =? up_bytes u).

(** ** The finalisation *)
Definition store_row (received : Z) (r : Receipt) : Receipt :=
  mkReceipt (rc_capability_id r) (rc_fingerprint r) (rc_sha256 r) (rc_bytes r) (rc_captured_at r) (Some received)
    (rc_expires_at r) StoredState None (rc_reserved_day r) (rc_credential r).
Definition add_usage (k : string * string) (bytes : Z) (m : gmap (string * string) (Z * Z)) : gmap (string * string) (Z * Z) :=
  let '(c, b) := default (0, 0) (m !! k) in <[k := (c + 1, b + bytes)]> m.
Definition with_generation (generation : Z) (i : Image) : Image :=
  mkImage (im_object_key i) (Some generation) (im_width i) (im_height i).
Definition accept_receipt (received : Z) (k : Key) (r : Receipt) (generation bytes : Z) (day capability_id : string) (captured : Z)
    (d : ObservationDb) : ObservationDb :=
  with_accepted (add_usage (k.1, day) bytes (ob_usage d))
    (upsert_presence (k.1, capability_id) captured received (ob_presence d))
    (with_receipts (<[k := store_row received r]> (ob_receipts d))
      (with_images (alter (with_generation generation) k (ob_images d)) d)).

Definition holds_lease (r : Receipt) (lease : string) (now : Z) : bool :=
  bool_decide (rc_state r = Reserved) && from_option (fun l => (l.1 ==s lease) && (now <? l.2)) false (rc_lease r).

Definition finalise (now : Z) (lease : string) (u : Upload) (object : StoredObject) (d : ObservationDb) : result Rejection (Receipt * ObservationDb) :=
  let! _ := may_upload d u in
  let k := key_of (up_metadata u) in
  match ob_receipts d !! k with
  | None => Err (Rejected 503 "reservation_lost")
  | Some prior =>
      if negb (rc_fingerprint prior ==s fingerprint u) || negb (holds_lease prior lease now) then Err (Rejected 503 "reservation_lost")
      else if negb (rc_reserved_day prior ==s isoDay now) then Err (Rejected 503 "reservation_day_changed")
      else Ok (store_row now prior,
               accept_receipt now k prior (so_generation object) (up_bytes u) (rc_reserved_day prior)
                 (md_capabilityId (up_metadata u)) (md_capturedAt (up_metadata u) * 1000) d)
  end.

(** [ack] *)
Record ObservationAck := mkObservationAck { oa_observation_id : string; oa_sha256 : string; oa_bytes : Z; oa_received_at : option Z }.
Definition ack (u : Upload) (r : Receipt) : ObservationAck :=
  mkObservationAck (md_observationId (up_metadata u)) (rc_sha256 r) (rc_bytes r) (rc_received_at r).
End Observations.
