(* ===== verification/Maintain.v ===== *)
(** * The observation worker ([apps/observation-maintain/src/maintain.ts])

    One candidate at a time: it claims a lapsed reservation under a lease of its
    own, looks at the object, and finalises, fails or expires the receipt; then
    it deletes the objects queued for deletion and queues orphans. *)
From stdpp Require Import gmap.
From S2P Require Import Prelude JsString Regex JsNumber Json Auth JsDate Telemetry Jpeg Observations.
#[local] Open Scope string_scope.
#[local] Open Scope list_scope.
#[local] Open Scope Z_scope.
(** ** Object keys *)
Definition is_hex (c : ascii) : bool := is_digit c || in_range "a" "f" c || in_range "A" "F" c.
Definition hexes (n : nat) : re := rrep n (Chr is_hex).
Definition UUID_SEGMENT : re := rcat [hexes 8; lit "-"; hexes 4; lit "-"; hexes 4; lit "-"; hexes 4; lit "-"; hexes 12].
Definition OBJECT_KEY : re :=
  rcat [lit "tenant/"; UUID_SEGMENT; lit "/device/"; UUID_SEGMENT; lit "/"; UUID_SEGMENT; lit ".jpg"].

Record ObjectIdentity := mkIdentity { oi_tenant : string; oi_device : string; oi_observation : string }.
Definition objectIdentity (key : string) : option ObjectIdentity :=
  if test OBJECT_KEY key then
    match split_on "/" key with
    | [_; t; _; d; o] => Some (mkIdentity (lower t) (lower d) (lower (slice_to 36 o)))
    | _ => None
    end
  else None.

Section Maintain.
Context (options : Options).

(** The receipt with its image, as the join reads them. *)
Definition receipt (d : ObservationDb) (k : Key) : option (Receipt * Image) :=
  r ← ob_receipts d !! k; i ← ob_images d !! k; Some (r, i).

Definition allowed (d : ObservationDb) (k : Key) (r : Receipt) (i : Image) : bool :=
  match ob_devices d !! k.1, rc_credential r with
  | Some device, Some credential =>
      bool_decide (dv_revoked_at device = None) && (dv_token_hash device ==s credential) &&
      from_option (fun o => (oi_tenant o ==s dv_tenant_id device) && (oi_device o ==s k.1) && (oi_observation o ==s k.2)) false
        (objectIdentity (im_object_key i)) &&
      from_option (fun c =>
        cp_enabled c && (cp_kind c ==s "image") && (cp_payload_schema c ==s "jpeg.v1") &&
        from_option (fun b => rc_bytes r <=? b) false (cp_max_bytes c) &&
        from_option (fun w => im_width i <=? w) false (cp_max_width c) &&
        from_option (fun h => im_height i <=? h) false (cp_max_height c)) false
        (capability_row d k.1 (rc_capability_id r))
  | _, _ => false
  end.

Definition ended (state : ReceiptState) (r : Receipt) : Receipt :=
  mkReceipt (rc_capability_id r) (rc_fingerprint r) (rc_sha256 r) (rc_bytes r) (rc_captured_at r) (rc_received_at r)
    (rc_expires_at r) state None (rc_reserved_day r) (rc_credential r).

(** Deleting the image's row queues its object's deletion (the trigger
    [queue_observation_image_deletion]). *)
Definition queue_deletion (i : Image) (m : gmap string (option Z)) : gmap string (option Z) :=
  <[im_object_key i := match im_generation i with Some g => Some g | None => default None (m !! im_object_key i) end]> m.
Definition expire (k : Key) (r : Receipt) (i : Image) (d : ObservationDb) : ObservationDb :=
  with_intents (queue_deletion i (ob_intents d))
    (with_images (delete k (ob_images d)) (with_receipts (<[k := ended Expired r]> (ob_receipts d)) d)).

(** The first transaction: the receipt it claimed, and the tables. *)
Definition claim (now : Z) (leaseId : string) (k : Key) (d : ObservationDb) : option (Receipt * Image) * ObservationDb :=
  match receipt d k with
  | None => (None, d)
  | Some (r, i) =>
      if bool_decide (rc_state r = Expired) then (None, d)
      else if bool_decide (rc_state r = StoredState) then (None, if rc_expires_at r <=? now then expire k r i d else d)
      else if bool_decide (rc_state r = Reserved) && from_option (fun l => now <? l.2) true (rc_lease r) then (None, d)
      else if (rc_expires_at r <=? now) || (rc_captured_at r <? now - 7 * DAY_MS) || negb (allowed d k r i) then (None, expire k r i d)
      else if negb (within_quota options d k (isoDay now) (rc_bytes r)) then (None, d)
      else
        (Some (r, i),
         with_receipts (<[k := mkReceipt (rc_capability_id r) (rc_fingerprint r) (rc_sha256 r) (rc_bytes r) (rc_captured_at r)
                                 (rc_received_at r) (rc_expires_at r) Reserved (Some (leaseId, now + 30000)) (isoDay now)
                                 (rc_credential r)]> (ob_receipts d)) d)
  end.

(** The second, once the object was looked at: the bytes it accepted, and the
    tables. *)
Definition settle_claim (now : Z) (leaseId : string) (k : Key) (object : option StoredObject) (d : ObservationDb) : option Z * ObservationDb :=
  match receipt d k with
  | None => (None, d)
  | Some (r, i) =>
      if negb (holds_lease r leaseId now) then (None, d)
      else if (rc_expires_at r <=? now) || negb (allowed d k r i) then (None, expire k r i d)
      else
        match object with
        | None => (None, with_receipts (<[k := ended FailedState r]> (ob_receipts d)) d)
        | Some o =>
            if negb (so_sha256 o ==s rc_sha256 r) || negb (so_fingerprint o ==s rc_fingerprint r) || negb (so_bytes o =? rc_bytes r)
            then (None, expire k r i d)
            else if negb (rc_reserved_day r ==s isoDay now) || negb (within_quota options d k (isoDay now) (rc_bytes r)) then (None, d)
            else (Some (rc_bytes r), accept_receipt now k r (so_generation o) (rc_bytes r) (isoDay now) (rc_capability_id r) (rc_captured_at r) d)
        end
  end.

(** An object without an image row is queued, once per key. *)
Definition queue_orphan (key : string) (generation : Z) (d : ObservationDb) : ObservationDb :=
  if key_taken (ob_images d) key then d
  else with_intents (<[key := match ob_intents d !! key with Some (Some g) => Some g | _ => Some generation end]> (ob_intents d)) d.

(** The queue's end of a deletion: the row it selected, and no later one. *)
Definition dequeue (key : string) (generation : option Z) (d : ObservationDb) : ObservationDb :=
  match ob_intents d !! key with
  | Some g => if bool_decide (g = generation) then with_intents (delete key (ob_intents d)) d else d
  | None => d
  end.
End Maintain.

(** ** Uploads and the worker around one database and one object store

    The steps of [Observations] and [Maintain], each atomic as the transaction or
    the storage call it is, in any order: any number of uploads, the worker's
    claims and its deletions, configuration around them, and requests that stop
    anywhere. *)
(** Someone who holds a lease: an upload, with the object it created or found; the
    worker, with what it saw of the object. *)
Inductive Task :=
| UploadTask (u : Upload) (object : option StoredObject)
| ClaimTask (k : Key) (key : string) (object : option (option StoredObject)).

(** A deletion under way: the key, the generation queued, and the one it will
    delete. *)
Record Deletion := mkDeletion { dl_key : string; dl_queued : option Z; dl_target : option Z }.

Record World := mkWorld {
  w_db : ObservationDb;
  w_objects : gmap string StoredObject;
  w_generation : Z;
  w_tasks : gmap string Task;
  w_leases : gset string;
  w_deleting : option Deletion
}.

Definition set_db (d : ObservationDb) (w : World) : World :=
  mkWorld d (w_objects w) (w_generation w) (w_tasks w) (w_leases w) (w_deleting w).
Definition set_tasks (m : gmap string Task) (w : World) : World :=
  mkWorld (w_db w) (w_objects w) (w_generation w) m (w_leases w) (w_deleting w).
Definition start (lease : string) (t : Task) (w : World) : World :=
  mkWorld (w_db w) (w_objects w) (w_generation w) (<[lease := t]> (w_tasks w)) ({[lease]} ∪ w_leases w) (w_deleting w).
Definition put_object (key : string) (o : StoredObject) (w : World) : World :=
  mkWorld (w_db w) (<[key := o]> (w_objects w)) (w_generation w + 1) (w_tasks w) (w_leases w) (w_deleting w).
Definition drop_object (key : string) (w : World) : World :=
  mkWorld (w_db w) (delete key (w_objects w)) (w_generation w) (w_tasks w) (w_leases w) (w_deleting w).
Definition set_deleting (x : option Deletion) (w : World) : World :=
  mkWorld (w_db w) (w_objects w) (w_generation w) (w_tasks w) (w_leases w) x.

(** What provisioning does to devices: new ones, other tokens, revocations. Their
    tenants stay. *)
Definition devices_after (m m' : gmap string DeviceRow) : Prop :=
  forall dev v, m !! dev = Some v -> exists v', m' !! dev = Some v' /\ dv_tenant_id v' = dv_tenant_id v.
Definition with_devices (m : gmap string DeviceRow) (caps : list CapabilityRow) (d : ObservationDb) : ObservationDb :=
  mkObservations m caps (ob_receipts d) (ob_images d) (ob_usage d) (ob_attempts d) (ob_presence d) (ob_intents d).

Section World.
Context (sha256 : string -> string) (sha256_bytes : list Z -> string) (zod_uuid zod_uuidv4 : string -> bool).
Context (metadata : list Z -> option ImageMetadata) (decodes : list Z -> Z -> bool).
Context (options : Options) (posted : Upload -> Prop).

Definition object_of (generation : Z) (u : Upload) : StoredObject :=
  mkObject generation (up_bytes u) (up_sha256 u) (fingerprint sha256 u).

Inductive step : World -> World -> Prop :=
(* a request's first transaction, whatever it answers *)
| s_request w now r : step w (set_db (on_request sha256 zod_uuid zod_uuidv4 options now r (w_db w)).2 w)
(* the reservation of a body it took in *)
| s_reserve w now lease m hash cap body u d :
    receive sha256_bytes metadata decodes m hash cap body = Ok u -> posted u -> lease ∉ w_leases w ->
    reserve sha256 options now lease u (w_db w) = Ok (None, d) ->
    step w (start lease (UploadTask u None) (set_db d w))
(* [store.create] under [ifGenerationMatch=0], answered or not *)
| s_create w lease u :
    w_tasks w !! lease = Some (UploadTask u None) -> w_objects w !! up_object_key u = None ->
    step w (set_tasks (<[lease := UploadTask u (Some (object_of (w_generation w) u))]> (w_tasks w))
             (put_object (up_object_key u) (object_of (w_generation w) u) w))
| s_create_lost w lease u :
    w_tasks w !! lease = Some (UploadTask u None) -> w_objects w !! up_object_key u = None ->
    step w (set_tasks (delete lease (w_tasks w)) (put_object (up_object_key u) (object_of (w_generation w) u) w))
(* the precondition failed, [store.head] found the upload's object *)
| s_found w lease u o :
    w_tasks w !! lease = Some (UploadTask u None) -> w_objects w !! up_object_key u = Some o -> is_object_of sha256 u o = true ->
    step w (set_tasks (<[lease := UploadTask u (Some o)]> (w_tasks w)) w)
| s_finalise w now lease u o r d :
    w_tasks w !! lease = Some (UploadTask u (Some o)) -> finalise sha256 now lease u o (w_db w) = Ok (r, d) ->
    step w (set_tasks (delete lease (w_tasks w)) (set_db d w))
(* a disconnect, a failed transaction, a deadline *)
| s_stop w lease : step w (set_tasks (delete lease (w_tasks w)) w)
(* the worker *)
| s_claim w now lease k r i d :
    lease ∉ w_leases w -> claim options now lease k (w_db w) = (Some (r, i), d) ->
    step w (start lease (ClaimTask k (im_object_key i) None) (set_db d w))
| s_claim_none w now lease k d :
    claim options now lease k (w_db w) = (None, d) -> step w (set_db d w)
| s_head w lease k key :
    w_tasks w !! lease = Some (ClaimTask k key None) ->
    step w (set_tasks (<[lease := ClaimTask k key (Some (w_objects w !! key))]> (w_tasks w)) w)
| s_settle w now lease k key object :
    w_tasks w !! lease = Some (ClaimTask k key (Some object)) ->
    step w (set_tasks (delete lease (w_tasks w)) (set_db (settle_claim options now lease k object (w_db w)).2 w))
(* its deletions; a call it gave up on is taken to have failed *)
| s_delete w key g :
    w_deleting w = None -> ob_intents (w_db w) !! key = Some g -> key_taken (ob_images (w_db w)) key = false ->
    step w (set_deleting (Some (mkDeletion key g g)) w)
| s_delete_head w key g o :
    w_deleting w = Some (mkDeletion key g None) -> w_objects w !! key = Some o ->
    step w (set_deleting (Some (mkDeletion key g (Some (so_generation o)))) w)
| s_delete_object w key g t o :
    w_deleting w = Some (mkDeletion key g (Some t)) -> w_objects w !! key = Some o -> so_generation o = t ->
    step w (drop_object key w)
| s_delete_done w key g t :
    w_deleting w = Some (mkDeletion key g t) ->
    step w (set_deleting None (set_db (dequeue key g (w_db w)) w))
| s_delete_failed w : step w (set_deleting None w)
(* and its orphans *)
| s_orphan w key o :
    w_objects w !! key = Some o -> objectIdentity key <> None -> step w (set_db (queue_orphan key (so_generation o) (w_db w)) w)
(* provisioning *)
| s_configure w m caps : devices_after (ob_devices (w_db w)) m -> step w (set_db (with_devices m caps (w_db w)) w).

Definition no_observations : World :=
  mkWorld (mkObservations ∅ [] ∅ ∅ ∅ ∅ ∅ ∅) ∅ 1 ∅ ∅ None.

Inductive reachable : World -> Prop :=
| reach_start : reachable no_observations
| reach_step w w' : reachable w -> step w w' -> reachable w'.
End World.
