(* ===== verification/ObservationSpec.v ===== *)
(** * What uploads and the worker keep

    Quotas, usage and stored media, over every run of [ObservationWorld]. *)
From stdpp Require Import gmap.
From S2P Require Import Prelude JsString Regex JsNumber JsDate Json Auth Telemetry Jpeg Observations Maintain.
#[local] Open Scope string_scope.
#[local] Open Scope list_scope.
#[local] Open Scope Z_scope.

#[local] Opaque isoDay lower.

(** ** Sums over receipts *)
Lemma sum_of_insert f k r m : sum_of f (<[k := r]> m) = f k r + sum_of f (delete k m).
Proof.
  unfold sum_of. rewrite <- insert_delete_eq. by rewrite map_fold_insert_L by ((intros; lia) || by rewrite lookup_delete_eq).
Qed.
Lemma sum_of_delete f k r m : m !! k = Some r -> sum_of f m = f k r + sum_of f (delete k m).
Proof. intros H. by rewrite <- sum_of_insert, insert_id. Qed.
Lemma sum_of_ext f g m : (forall k r, m !! k = Some r -> f k r = g k r) -> sum_of f m = sum_of g m.
Proof.
  unfold sum_of. induction m as [|k r m Hk IH] using map_ind; intros H; [by rewrite !map_fold_empty|].
  rewrite !map_fold_insert_L by (done || (intros; lia)). rewrite IH; [|intros k' r' Hr'; apply H; rewrite lookup_insert_ne; [done|congruence]].
  by rewrite (H k r) by apply lookup_insert_eq.
Qed.
Lemma sum_of_add f g m : sum_of (fun k r => f k r + g k r) m = sum_of f m + sum_of g m.
Proof.
  unfold sum_of. induction m as [|k r m Hk IH] using map_ind; [by rewrite !map_fold_empty|].
  rewrite !map_fold_insert_L by (done || (intros; lia)). rewrite IH. lia.
Qed.

(** ** What counts on a day *)
Definition accepted_on (dev day : string) (k : Key) (r : Receipt) : bool :=
  (k.1 ==s dev) && (rc_reserved_day r ==s day) && bool_decide (is_Some (rc_received_at r)).
Definition reserved_sum (weight : Receipt -> Z) (dev day : string) (m : gmap Key Receipt) : Z :=
  sum_of (fun k r => if reserved_on dev day k r then weight r else 0) m.
Definition accepted_sum (weight : Receipt -> Z) (dev day : string) (m : gmap Key Receipt) : Z :=
  sum_of (fun k r => if accepted_on dev day k r then weight r else 0) m.
Definition one (r : Receipt) : Z := 1.

(** A receipt is received exactly once stored; an expired one may have been. *)
Definition receipt_ok (r : Receipt) : Prop :=
  (rc_state r = StoredState -> is_Some (rc_received_at r)) /\
  (rc_state r = Reserved \/ rc_state r = FailedState -> rc_received_at r = None) /\
  (is_Some (rc_lease r) <-> rc_state r = Reserved) /\ 1 <= rc_bytes r.

Definition counted (weight : Receipt -> Z) (dev day : string) (k : Key) (r : Receipt) : Z :=
  if accepted_on dev day k r || reserved_on dev day k r then weight r else 0.
Definition total_on (weight : Receipt -> Z) (dev day : string) (m : gmap Key Receipt) : Z := sum_of (counted weight dev day) m.
Definition all_ok (m : gmap Key Receipt) : Prop := forall k r, m !! k = Some r -> receipt_ok r.

Lemma all_ok_insert k r m : all_ok m -> receipt_ok r -> all_ok (<[k := r]> m).
Proof. intros H Hr k' r'. destruct (decide (k = k')) as [<-|N]; [rewrite lookup_insert_eq|rewrite lookup_insert_ne by done]; naive_solver. Qed.
Lemma all_ok_delete k m : all_ok m -> all_ok (delete k m).
Proof. intros H k' r' E. apply lookup_delete_Some in E as [_ E]. by apply (H k'). Qed.

(** Accepted and reserved receipts are different ones. *)
Lemma total_on_split weight dev day m : all_ok m -> total_on weight dev day m = accepted_sum weight dev day m + reserved_sum weight dev day m.
Proof.
  intros H. unfold total_on, accepted_sum, reserved_sum. rewrite <- sum_of_add. apply sum_of_ext. intros k r Hr. destruct (H k r Hr) as (_ & Hn & _).
  unfold counted, accepted_on, reserved_on. destruct (k.1 ==s dev), (_ ==s day); simpl; try lia.
  destruct (decide (rc_state r = Reserved)) as [E|N]; [rewrite Hn by auto; rewrite bool_decide_false by (by intros []); rewrite bool_decide_true by done|
    rewrite (bool_decide_false (rc_state r = Reserved)) by done; rewrite orb_false_r]; simpl; lia.
Qed.

Lemma counted_nonneg weight dev day k r : 0 <= weight r -> 0 <= counted weight dev day k r.
Proof. unfold counted. destruct (_ || _); lia. Qed.

Lemma total_on_insert weight dev day k r m :
  total_on weight dev day (<[k := r]> m) = counted weight dev day k r + total_on weight dev day (delete k m).
Proof. apply sum_of_insert. Qed.

(** A receipt that counts no more than before. *)
Lemma total_on_shrinks weight dev day k r r' m :
  m !! k = Some r -> (counted weight dev day k r' <= counted weight dev day k r) ->
  total_on weight dev day (<[k := r']> m) <= total_on weight dev day m.
Proof. intros Hr H. unfold total_on. rewrite sum_of_insert, (sum_of_delete _ k r m Hr). lia. Qed.

Lemma total_on_delete weight dev day k m :
  (forall r, m !! k = Some r -> 0 <= weight r) -> total_on weight dev day (delete k m) <= total_on weight dev day m.
Proof.
  intros H. destruct (m !! k) as [r|] eqn:E; [|by rewrite delete_id]. unfold total_on. rewrite (sum_of_delete _ k r m E).
  pose proof (counted_nonneg weight dev day k r (H r eq_refl)). lia.
Qed.

(** A receipt reserved within what a day has left. *)
Lemma total_on_reserve weight limit k r' m day :
  (forall dev day, total_on weight dev day m <= limit) -> all_ok m ->
  (forall r, m !! k = Some r -> rc_received_at r = None /\ 0 <= weight r) ->
  rc_state r' = Reserved -> rc_received_at r' = None -> rc_reserved_day r' = day ->
  accepted_sum weight k.1 day m + reserved_sum weight k.1 day (delete k m) + weight r' <= limit ->
  forall dev day', total_on weight dev day' (<[k := r']> m) <= limit.
Proof.
  intros Hm Hok Hk Hs Hn Hd Hq dev day'. rewrite total_on_insert.
  assert (Hle : total_on weight dev day' (delete k m) <= limit).
  { etrans; [|apply (Hm dev day')]. apply total_on_delete. intros r E. by apply Hk. }
  unfold counted at 1, accepted_on, reserved_on. rewrite Hn, Hs, Hd, (bool_decide_true (Reserved = Reserved)), andb_true_r by done.
  rewrite (bool_decide_false (is_Some None)), andb_false_r by (by intros []). simpl.
  destruct (String.eqb_spec k.1 dev) as [<-|]; cbn [andb]; [|lia]. destruct (String.eqb_spec day day') as [<-|]; [|lia].
  rewrite total_on_split by (by apply all_ok_delete).
  assert (Ha : accepted_sum weight k.1 day m = accepted_sum weight k.1 day (delete k m)); [|lia].
  destruct (m !! k) as [r|] eqn:E; [|by rewrite delete_id]. unfold accepted_sum. rewrite (sum_of_delete _ k r m E).
  unfold accepted_on at 1. destruct (Hk r eq_refl) as [-> _]. by rewrite (bool_decide_false (is_Some None)), andb_false_r by (by intros []).
Qed.

(** An accepted receipt adds its weight to its day, and only there. *)
Lemma accepted_sum_same weight dev day k r r' m :
  m !! k = Some r -> rc_received_at r = None -> rc_received_at r' = None ->
  accepted_sum weight dev day (<[k := r']> m) = accepted_sum weight dev day m.
Proof.
  intros Hr Hn Hn'. unfold accepted_sum. rewrite sum_of_insert, (sum_of_delete _ k r m Hr). unfold accepted_on at 1 3.
  rewrite Hn, Hn', (bool_decide_false (is_Some None)), !andb_false_r by (by intros []). done.
Qed.
Lemma accepted_sum_accept weight dev day k r r' m :
  m !! k = Some r -> rc_received_at r = None -> is_Some (rc_received_at r') -> weight r' = weight r ->
  accepted_sum weight dev day (<[k := r']> m) =
  accepted_sum weight dev day m + (if (k.1 ==s dev) && (rc_reserved_day r' ==s day) then weight r else 0).
Proof.
  intros Hr Hn Hs Hw. unfold accepted_sum. rewrite sum_of_insert, (sum_of_delete _ k r m Hr). unfold accepted_on at 1 3.
  rewrite Hn, (bool_decide_false (is_Some None)), andb_false_r by (by intros []). rewrite (bool_decide_true (is_Some (rc_received_at r'))), andb_true_r by done.
  rewrite Hw. destruct (_ && _); lia.
Qed.
Lemma accepted_sum_expire weight dev day k r r' m :
  m !! k = Some r -> rc_received_at r' = rc_received_at r -> rc_reserved_day r' = rc_reserved_day r -> weight r' = weight r ->
  accepted_sum weight dev day (<[k := r']> m) = accepted_sum weight dev day m.
Proof.
  intros Hr H1 H2 H3. unfold accepted_sum. rewrite sum_of_insert, (sum_of_delete _ k r m Hr). unfold accepted_on at 1 3. by rewrite H1, H2, H3.
Qed.
Lemma accepted_sum_new weight dev day k r m :
  m !! k = None -> rc_received_at r = None -> accepted_sum weight dev day (<[k := r]> m) = accepted_sum weight dev day m.
Proof.
  intros Hk Hn. unfold accepted_sum. rewrite sum_of_insert, delete_id by done. unfold accepted_on at 1.
  by rewrite Hn, (bool_decide_false (is_Some None)), andb_false_r by (by intros []).
Qed.

Lemma insert_cases `{Countable K} {V} (m : gmap K V) k v k' v' : <[k := v]> m !! k' = Some v' -> (k' = k /\ v' = v) \/ (k' <> k /\ m !! k' = Some v').
Proof. destruct (decide (k = k')) as [<-|N]; [rewrite lookup_insert_eq|rewrite lookup_insert_ne by done]; naive_solver. Qed.

Section Invariant.
Context (sha256 : string -> string) (options : Options) (posted : Upload -> Prop).
Definition genuine (u : Upload) : Prop := posted u /\ up_sha256 u = md_sha256 (up_metadata u) /\ 1 <= up_bytes u.

(** The receipt of an upload, and where its object is. *)
Definition receipt_of (d : ObservationDb) (k : Key) (r : Receipt) (u : Upload) : Prop :=
  genuine u /\ k = key_of (up_metadata u) /\ rc_fingerprint r = fingerprint sha256 u /\ rc_sha256 r = up_sha256 u /\
  rc_bytes r = up_bytes u /\ (exists v, ob_devices d !! k.1 = Some v /\ dv_tenant_id v = up_tenant_id u) /\
  (forall i, ob_images d !! k = Some i -> im_object_key i = up_object_key u).

Definition within_limits (m : gmap Key Receipt) : Prop :=
  forall dev day, total_on one dev day m <= maxDailyCount options /\ total_on rc_bytes dev day m <= maxDailyBytes options.
Definition usage_follows (m : gmap Key Receipt) (usage : gmap (string * string) (Z * Z)) : Prop :=
  forall dev day, default (0, 0) (usage !! (dev, day)) = (accepted_sum one dev day m, accepted_sum rc_bytes dev day m).

Record Sound (d : ObservationDb) : Prop := {
  so_ok : all_ok (ob_receipts d);
  so_posted : forall k r, ob_receipts d !! k = Some r -> exists u, receipt_of d k r u;
  so_images : forall k, is_Some (ob_images d !! k) <-> exists r, ob_receipts d !! k = Some r /\ rc_state r <> Expired;
  so_unique : forall k k' i i', ob_images d !! k = Some i -> ob_images d !! k' = Some i' -> im_object_key i = im_object_key i' -> k = k';
  so_fenced : forall k i, ob_images d !! k = Some i -> ob_intents d !! im_object_key i = None;
  so_usage : usage_follows (ob_receipts d) (ob_usage d);
  so_limits : within_limits (ob_receipts d)
}.

(** ** Quotas as the transactions check them *)
Lemma used_spec d k day : Sound d ->
  used d k day = (accepted_sum one k.1 day (ob_receipts d) + reserved_sum one k.1 day (delete k (ob_receipts d)),
                  accepted_sum rc_bytes k.1 day (ob_receipts d) + reserved_sum rc_bytes k.1 day (delete k (ob_receipts d))).
Proof. intros H. unfold used. by rewrite (so_usage _ H). Qed.

Lemma reserve_limits d k r' : Sound d ->
  (forall r, ob_receipts d !! k = Some r -> rc_received_at r = None) ->
  rc_state r' = Reserved -> rc_received_at r' = None -> within_quota options d k (rc_reserved_day r') (rc_bytes r') = true ->
  within_limits (<[k := r']> (ob_receipts d)).
Proof.
  intros H Hk Hs Hn. unfold within_quota. rewrite (used_spec _ _ _ H), andb_true_iff, !Z.leb_le. intros [Hc Hb] dev day. split.
  - apply (total_on_reserve one _ k r' _ (rc_reserved_day r')); try done; [intros; apply (so_limits _ H)|apply (so_ok _ H)|].
    intros r Hr. split; [by apply Hk|]. unfold one. lia.
  - apply (total_on_reserve rc_bytes _ k r' _ (rc_reserved_day r')); try done; [intros; apply (so_limits _ H)|apply (so_ok _ H)|].
    intros r Hr. split; [by apply Hk|]. destruct (so_ok _ H k r Hr) as (_ & _ & _ & ?). lia.
Qed.

Lemma shrink_limits d k r r' : Sound d -> ob_receipts d !! k = Some r -> rc_bytes r' = rc_bytes r ->
  (forall dev day, accepted_on dev day k r' || reserved_on dev day k r' = true -> accepted_on dev day k r || reserved_on dev day k r = true) ->
  within_limits (<[k := r']> (ob_receipts d)).
Proof.
  intros H Hr Hb Hc dev day. destruct (so_limits _ H dev day) as [H1 H2]. destruct (so_ok _ H k r Hr) as (_ & _ & _ & Hpos).
  assert (Hle : forall weight, weight r' = weight r -> 0 <= weight r -> counted weight dev day k r' <= counted weight dev day k r).
  { intros weight Hw Hp. unfold counted. specialize (Hc dev day). destruct (accepted_on dev day k r' || _); [rewrite Hc by done; lia|].
    destruct (_ || _); lia. }
  split; (etrans; [apply (total_on_shrinks _ _ _ k r); [done|apply Hle]|done]); unfold one; lia.
Qed.

(** ** What happens to one receipt *)

(** Its identity is kept. *)
Definition same_receipt (r r' : Receipt) : Prop :=
  rc_fingerprint r' = rc_fingerprint r /\ rc_sha256 r' = rc_sha256 r /\ rc_bytes r' = rc_bytes r /\ rc_received_at r' = rc_received_at r.

Lemma sound_update d k r r' :
  Sound d -> ob_receipts d !! k = Some r -> same_receipt r r' -> receipt_ok r' -> rc_state r <> Expired -> rc_state r' <> Expired ->
  within_limits (<[k := r']> (ob_receipts d)) -> (rc_received_at r <> None -> rc_reserved_day r' = rc_reserved_day r) ->
  Sound (with_receipts (<[k := r']> (ob_receipts d)) d).
Proof.
  intros H Hr (Ef & Es & Eb & En) Hok Hne Hne' Hl Hday. split; simpl; [apply all_ok_insert; [apply (so_ok _ H)|done]| | |apply (so_unique _ H)|apply (so_fenced _ H)| |done].
  - intros k' x [[-> ->]|[_ Hx]]%insert_cases; [|by apply (so_posted _ H)]. destruct (so_posted _ H k r Hr) as (u & Hu). exists u.
    unfold receipt_of in *. by rewrite Ef, Es, Eb.
  - intros k'. rewrite (so_images _ H). destruct (decide (k = k')) as [<-|N]; [rewrite lookup_insert_eq; naive_solver|by rewrite lookup_insert_ne].
  - intros dev day. rewrite (so_usage _ H). destruct (decide (rc_received_at r = None)) as [E|N].
    + rewrite !(accepted_sum_same _ dev day k r r') by congruence. done.
    + rewrite !(accepted_sum_expire _ dev day k r r') by auto. done.
Qed.

Lemma sound_place u lease now d :
  genuine u -> Sound d -> ob_receipts d !! key_of (up_metadata u) = None ->
  (exists v, ob_devices d !! (key_of (up_metadata u)).1 = Some v /\ dv_tenant_id v = up_tenant_id u) ->
  within_quota options d (key_of (up_metadata u)) (isoDay now) (up_bytes u) = true ->
  ob_intents d !! up_object_key u = None -> key_taken (ob_images d) (up_object_key u) = false ->
  Sound (with_images (<[key_of (up_metadata u) := mkImage (up_object_key u) None (up_width u) (up_height u)]> (ob_images d))
          (with_receipts (<[key_of (up_metadata u) := new_receipt sha256 u lease (now + leaseMs options) (isoDay now)]> (ob_receipts d)) d)).
Proof.
  intros Hu H Hk Hv Hq Hi Ht. set (k := key_of (up_metadata u)) in *. set (r := new_receipt _ _ _ _ _).
  assert (Hfree : forall k' i, ob_images d !! k' = Some i -> im_object_key i <> up_object_key u).
  { intros k' i Hi' E. unfold key_taken in Ht. rewrite existsb_elem_false in Ht. specialize (Ht i). rewrite (proj2 (String.eqb_eq _ _) E) in Ht.
    discriminate Ht. apply list_elem_of_fmap. exists (k', i). split; [done|]. by apply elem_of_map_to_list. }
  split; simpl.
  - apply all_ok_insert; [apply (so_ok _ H)|]. destruct Hu as (_ & _ & ?). by split_and!.
  - intros k' x [[-> ->]|[N Hx]]%insert_cases.
    + exists u. unfold receipt_of. simpl. rewrite lookup_insert_eq. split_and!; try done; [apply Hu..|]. by intros i [= <-].
    + destruct (so_posted _ H k' x Hx) as (u' & Hu'). exists u'. unfold receipt_of in *. simpl. by rewrite lookup_insert_ne.
  - intros k'. destruct (decide (k = k')) as [<-|N]; [rewrite !lookup_insert_eq|rewrite !lookup_insert_ne by done; apply (so_images _ H)].
    split; [intros _; exists r; done|by eexists].
  - intros k1 k2 i1 i2 [[-> ->]|[N1 H1]]%insert_cases [[-> ->]|[N2 H2]]%insert_cases E; simpl in E; [done|..].
    + symmetry in E. by destruct (Hfree k2 i2 H2 E).
    + by destruct (Hfree k1 i1 H1 E).
    + by apply (so_unique _ H k1 k2 i1 i2).
  - intros k' i [[-> ->]|[N Hi']]%insert_cases; [done|by apply (so_fenced _ H k')].
  - intros dev day. rewrite (so_usage _ H). by rewrite !accepted_sum_new.
  - apply reserve_limits; [done|congruence|done..].
Qed.

Lemma sound_expire d k r i :
  Sound d -> ob_receipts d !! k = Some r -> ob_images d !! k = Some i -> Sound (expire k r i d).
Proof.
  intros H Hr Hi. assert (Hne : rc_state r <> Expired).
  { destruct (proj1 (so_images _ H k) (mk_is_Some _ _ Hi)) as (x & Hx & ?). congruence. }
  split; simpl.
  - apply all_ok_insert; [apply (so_ok _ H)|]. destruct (so_ok _ H k r Hr) as (_ & _ & _ & ?).
    split_and!; simpl; try done. by intros [?|?].
  - intros k' x [[-> ->]|[N Hx]]%insert_cases.
    + destruct (so_posted _ H k r Hr) as (u & Hu). exists u. unfold receipt_of in *. simpl. rewrite lookup_delete_eq. naive_solver.
    + destruct (so_posted _ H k' x Hx) as (u & Hu). exists u. unfold receipt_of in *. simpl. by rewrite lookup_delete_ne.
  - intros k'. destruct (decide (k = k')) as [<-|N].
    + rewrite lookup_delete_eq, lookup_insert_eq. split; [by intros []|]. intros (x & [= <-] & ?). done.
    + rewrite lookup_delete_ne, lookup_insert_ne by done. apply (so_images _ H).
  - intros k1 k2 i1 i2 [_ H1]%lookup_delete_Some [_ H2]%lookup_delete_Some. by apply (so_unique _ H).
  - intros k' i' [N Hi']%lookup_delete_Some. unfold queue_deletion. rewrite lookup_insert_ne; [by apply (so_fenced _ H k')|].
    intros E. apply N. by apply (so_unique _ H k k' i i').
  - intros dev day. rewrite (so_usage _ H). by rewrite !(accepted_sum_expire _ dev day k r).
  - apply (shrink_limits d k r); [done..|]. intros dev day. unfold accepted_on, reserved_on. simpl.
    rewrite !orb_true_iff, !andb_true_iff, !bool_decide_eq_true. naive_solver.
Qed.
Lemma alter_key (g : Z) (k : Key) (m : gmap Key Image) (k' : Key) (i : Image) : alter (with_generation g) k m !! k' = Some i -> exists i0, m !! k' = Some i0 /\ im_object_key i0 = im_object_key i.
Proof.
  destruct (decide (k = k')) as [<-|N]; [rewrite lookup_alter_eq|rewrite lookup_alter_ne by done; eauto].
  destruct (m !! k) as [i0|]; simpl; [|done]. intros [= <-]. eauto.
Qed.

Lemma add_usage_lookup k bytes m (k' : string * string) :
  default (0, 0) (add_usage k bytes m !! k') =
  if decide (k' = k) then ((default (0, 0) (m !! k)).1 + 1, (default (0, 0) (m !! k)).2 + bytes) else default (0, 0) (m !! k').
Proof.
  unfold add_usage. destruct (default (0, 0) (m !! k)) as [c b]. case_decide as E; [subst k'; by rewrite lookup_insert_eq|].
  by rewrite lookup_insert_ne by congruence.
Qed.

Lemma sound_accept d k r now g cap captured :
  Sound d -> ob_receipts d !! k = Some r -> rc_state r = Reserved ->
  Sound (accept_receipt now k r g (rc_bytes r) (rc_reserved_day r) cap captured d).
Proof.
  intros H Hr Hs. destruct (so_ok _ H k r Hr) as (_ & Hnone & _ & Hpos). assert (Hn : rc_received_at r = None) by auto. split; simpl.
  - apply all_ok_insert; [apply (so_ok _ H)|]. split_and!; simpl; try done. by intros [?|?].
  - intros k' x Hx. assert (exists x0, ob_receipts d !! k' = Some x0 /\ rc_fingerprint x = rc_fingerprint x0 /\ rc_sha256 x = rc_sha256 x0 /\ rc_bytes x = rc_bytes x0) as (x0 & Hx0 & Ef & Es & Eb).
    { apply insert_cases in Hx as [[-> ->]|[_ Hx]]; eauto 10. }
    destruct (so_posted _ H k' x0 Hx0) as (u & Hu & Hk & Hf & Hsh & Hb & Hv & Hi). exists u. unfold receipt_of. simpl. rewrite Ef, Es, Eb.
    split_and!; try done; [apply Hu..|]. intros i (i0 & Hi0 & <-)%alter_key. by apply Hi.
  - intros k'. rewrite lookup_alter_is_Some, (so_images _ H).
    destruct (decide (k = k')) as [<-|N]; [rewrite lookup_insert_eq; rewrite Hr|by rewrite lookup_insert_ne].
    split; intros _; eexists; (split; [done|]); [done|]. by rewrite Hs.
  - intros k1 k2 i1 i2 (j1 & H1 & <-)%alter_key (j2 & H2 & <-)%alter_key. by apply (so_unique _ H).
  - intros k' i (j & Hj & <-)%alter_key. by apply (so_fenced _ H k').
  - intros dev day. rewrite add_usage_lookup. rewrite !(accepted_sum_accept _ dev day k r) by done.
    cbn [rc_reserved_day store_row]. pose proof (so_usage _ H dev day) as Hu. case_decide as E.
    + injection E as -> ->. rewrite Hu, !String.eqb_refl. done.
    + rewrite Hu. destruct (String.eqb_spec k.1 dev) as [<-|], (String.eqb_spec (rc_reserved_day r) day) as [<-|]; cbn [andb];
        rewrite ?Z.add_0_r; done.
  - apply (shrink_limits d k r); [done..|]. intros dev day. unfold accepted_on, reserved_on. simpl.
    rewrite Hs, !orb_true_iff, !andb_true_iff, !bool_decide_eq_true. tauto.
Qed.

(** ** What happens around the receipts *)
Lemma sound_around d d' :
  Sound d -> devices_after (ob_devices d) (ob_devices d') -> ob_receipts d' = ob_receipts d -> ob_images d' = ob_images d ->
  ob_usage d' = ob_usage d -> (forall k i, ob_images d !! k = Some i -> ob_intents d' !! im_object_key i = None) -> Sound d'.
Proof.
  intros [] Hv Er Ei Eu Hf. split; rewrite ?Er, ?Ei, ?Eu; try done.
  intros k r Hr. destruct (so_posted0 k r Hr) as (u & Hu & Hk & H1 & H2 & H3 & (v & Hdev & Ht) & Hi). exists u.
  unfold receipt_of. rewrite Ei. split_and!; try done; [apply Hu..|]. destruct (Hv _ _ Hdev) as (v' & ? & ?). exists v'. by rewrite <- Ht.
Qed.

Lemma devices_same m : devices_after m m.
Proof. intros dev v Hv. eauto. Qed.

Lemma key_taken_spec (m : gmap Key Image) key : key_taken m key = true <-> exists k i, m !! k = Some i /\ im_object_key i = key.
Proof.
  unfold key_taken. rewrite existsb_elem. split.
  - intros (i & ((k & j) & -> & Hk%elem_of_map_to_list)%list_elem_of_fmap & E%String.eqb_eq). eauto.
  - intros (k & i & Hi & E). exists i. split; [|by apply String.eqb_eq]. apply list_elem_of_fmap. exists (k, i). by rewrite elem_of_map_to_list.
Qed.

Lemma sound_orphan d key g : Sound d -> Sound (queue_orphan key g d).
Proof.
  intros H. unfold queue_orphan. destruct (key_taken (ob_images d) key) eqn:E; [done|].
  apply (sound_around d); try done; [apply devices_same|]. intros k i Hi. simpl. rewrite lookup_insert_ne; [by apply (so_fenced _ H k)|].
  intros ->. rewrite <- not_true_iff_false, key_taken_spec in E. apply E. eauto.
Qed.
Lemma sound_dequeue d key g : Sound d -> Sound (dequeue key g d).
Proof.
  intros H. unfold dequeue. destruct (ob_intents d !! key) eqn:E; [|done]. case_bool_decide; [|done].
  apply (sound_around d); try done; [apply devices_same|]. intros k i Hi. simpl. rewrite lookup_delete_None. right. by apply (so_fenced _ H k).
Qed.

(** ** Leases, objects and deletions *)
Definition task_key (t : Task) : Key := match t with UploadTask u _ => key_of (up_metadata u) | ClaimTask k _ _ => k end.
Definition task_object (t : Task) : string := match t with UploadTask u _ => up_object_key u | ClaimTask _ key _ => key end.
Definition task_saw (t : Task) : option StoredObject :=
  match t with UploadTask _ o => o | ClaimTask _ _ o => default None o end.
Definition task_matches (t : Task) (r : Receipt) : Prop :=
  match t with UploadTask u _ => rc_fingerprint r = fingerprint sha256 u | ClaimTask _ _ _ => True end.
Definition task_genuine (t : Task) : Prop :=
  match t with UploadTask u o => genuine u /\ (forall x, o = Some x -> is_object_of sha256 u x = true) | ClaimTask _ _ _ => True end.

(** A stored receipt's object is in the store, under the generation its image
    names, and is the receipt's. *)
Definition media_of (d : ObservationDb) (objects : gmap string StoredObject) (k : Key) (r : Receipt) : Prop :=
  exists i o, ob_images d !! k = Some i /\ objects !! im_object_key i = Some o /\ im_generation i = Some (so_generation o) /\
    so_fingerprint o = rc_fingerprint r /\ so_sha256 o = rc_sha256 r /\ so_bytes o = rc_bytes r.

(** Whoever holds a receipt's lease has its image, and what it saw is there. *)
Definition holds (w : World) (t : Task) (r : Receipt) : Prop :=
  (exists i, ob_images (w_db w) !! task_key t = Some i /\ im_object_key i = task_object t) /\ task_matches t r /\
  (forall o, task_saw t = Some o -> w_objects w !! task_object t = Some o).

Record Safe (w : World) : Prop := {
  sf_sound : Sound (w_db w);
  sf_leases : forall k r l e, ob_receipts (w_db w) !! k = Some r -> rc_lease r = Some (l, e) -> l ∈ w_leases w;
  sf_tasks : forall l t, w_tasks w !! l = Some t -> l ∈ w_leases w /\ task_genuine t;
  sf_holds : forall l t r e, w_tasks w !! l = Some t -> ob_receipts (w_db w) !! task_key t = Some r -> rc_lease r = Some (l, e) -> holds w t r;
  sf_deleting : forall x, w_deleting w = Some x -> is_Some (ob_intents (w_db w) !! dl_key x);
  sf_media : forall k r, ob_receipts (w_db w) !! k = Some r -> rc_state r = StoredState -> media_of (w_db w) (w_objects w) k r
}.

Definition kept (d d' : ObservationDb) (k : Key) : Prop :=
  ob_receipts d' !! k = ob_receipts d !! k /\ ob_images d' !! k = ob_images d !! k.
Definition intents_kept (d d' : ObservationDb) : Prop := forall key, is_Some (ob_intents d !! key) -> is_Some (ob_intents d' !! key).

Lemma media_kept d d' objects k r : kept d d' k -> media_of d objects k r -> media_of d' objects k r.
Proof. intros [_ Ei] (i & o & ? & ?). exists i, o. by rewrite Ei. Qed.
Lemma holds_kept w d' t r : kept (w_db w) d' (task_key t) -> holds w t r -> holds (set_db d' w) t r.
Proof. intros [_ Ei] ((i & ? & ?) & ?). split; [exists i; simpl; by rewrite Ei|done]. Qed.

(** A transaction on one receipt that leaves it without a lease. *)
Lemma safe_released w d' k0 :
  Safe w -> Sound d' -> (forall k, k <> k0 -> kept (w_db w) d' k) -> intents_kept (w_db w) d' ->
  (forall r, ob_receipts d' !! k0 = Some r -> rc_lease r = None /\ (rc_state r = StoredState -> media_of d' (w_objects w) k0 r)) ->
  Safe (set_db d' w).
Proof.
  intros H Hd Hk Hi H0. split; simpl; [done| |apply (sf_tasks _ H)| | |].
  - intros k r l e Hr El. destruct (decide (k = k0)) as [->|N]; [destruct (H0 r Hr); congruence|].
    destruct (Hk k N) as [Er _]. rewrite Er in Hr. by apply (sf_leases _ H k r l e).
  - intros l t r e Ht Hr El. destruct (decide (task_key t = k0)) as [E|N]; [rewrite E in Hr; destruct (H0 r Hr); congruence|].
    apply holds_kept; [by apply Hk|]. destruct (Hk _ N) as [Er _]. rewrite Er in Hr. by apply (sf_holds _ H l t r e).
  - intros x Hx. apply Hi. by apply (sf_deleting _ H).
  - intros k r Hr Hs. destruct (decide (k = k0)) as [->|N]; [by apply H0|]. apply (media_kept (w_db w)); [by apply Hk|].
    destruct (Hk k N) as [Er _]. rewrite Er in Hr. by apply (sf_media _ H).
Qed.

(** One that gives it a new lease, and a task the lease. *)
Lemma safe_leased w d' k0 lease t r0 e0 :
  Safe w -> Sound d' -> (forall k, k <> k0 -> kept (w_db w) d' k) -> intents_kept (w_db w) d' ->
  lease ∉ w_leases w -> task_key t = k0 -> task_saw t = None -> task_genuine t ->
  ob_receipts d' !! k0 = Some r0 -> rc_lease r0 = Some (lease, e0) -> rc_state r0 = Reserved ->
  (exists i, ob_images d' !! k0 = Some i /\ im_object_key i = task_object t) -> task_matches t r0 ->
  Safe (start lease t (set_db d' w)).
Proof.
  intros H Hd Hk Hi Hf Et Hs Hg Hr0 Hl0 Hst Him Hm. split; simpl; [done| | | | |].
  - intros k r l e Hr El. apply elem_of_union. destruct (decide (k = k0)) as [->|N].
    + left. apply elem_of_singleton. rewrite Hr0 in Hr. injection Hr as <-. congruence.
    + right. destruct (Hk k N) as [Er _]. rewrite Er in Hr. by apply (sf_leases _ H k r l e).
  - intros l x [[-> ->]|[N Hx]]%insert_cases; [split; [apply elem_of_union; left; by apply elem_of_singleton|done]|].
    destruct (sf_tasks _ H l x Hx). split; [apply elem_of_union; by right|done].
  - intros l x r e [[-> ->]|[N Hx]]%insert_cases Hr El.
    + rewrite Et, Hr0 in Hr. injection Hr as <-. split; [by rewrite Et|]. split; [done|]. rewrite Hs. done.
    + destruct (decide (task_key x = k0)) as [E|Nk]; [rewrite E, Hr0 in Hr; injection Hr as <-; congruence|].
      apply (holds_kept w d' x r); [by apply Hk|]. destruct (Hk _ Nk) as [Er _]. rewrite Er in Hr. by apply (sf_holds _ H l x r e).
  - intros x Hx. apply Hi. by apply (sf_deleting _ H).
  - intros k r Hr Hsr. destruct (decide (k = k0)) as [->|N]; [congruence|]. apply (media_kept (w_db w)); [by apply Hk|].
    destruct (Hk k N) as [Er _]. rewrite Er in Hr. by apply (sf_media _ H).
Qed.

(** One that changes no receipt and no image. *)
Lemma safe_around w d' :
  Safe w -> Sound d' -> (forall k, kept (w_db w) d' k) -> (forall x, w_deleting w = Some x -> is_Some (ob_intents d' !! dl_key x)) ->
  Safe (set_db d' w).
Proof.
  intros H Hd Hk Hi. split; simpl; [done| |apply (sf_tasks _ H)| |done|].
  - intros k r l e Hr El. destruct (Hk k) as [Er _]. rewrite Er in Hr. by apply (sf_leases _ H k r l e).
  - intros l t r e Ht Hr El. apply holds_kept; [by apply Hk|]. destruct (Hk (task_key t)) as [Er _]. rewrite Er in Hr.
    by apply (sf_holds _ H l t r e).
  - intros k r Hr Hs. apply (media_kept (w_db w)); [by apply Hk|]. destruct (Hk k) as [Er _]. rewrite Er in Hr. by apply (sf_media _ H).
Qed.

Context (sha256_bytes : list Z -> string) (zod_uuid zod_uuidv4 : string -> bool).
Context (metadata : list Z -> option ImageMetadata) (decodes : list Z -> Z -> bool).
Lemma receive_genuine m hash cap body u :
  receive sha256_bytes metadata decodes m hash cap body = Ok u -> posted u -> genuine u.
Proof.
  unfold receive. destruct (Z.eqb_spec (Z.of_nat (length body)) 0); [done|]. destruct (_ <? _); [done|].
  destruct (String.eqb_spec (sha256_bytes body) (md_sha256 m)) as [E|]; simpl; [|done]. destruct (validateJpeg _ _ _ _ _) as [[w h]|]; [|done].
  intros [= <-] Hp. split_and!; [done|done|simpl; lia].
Qed.

Hypothesis count_positive : 0 <= maxDailyCount options.
Hypothesis bytes_positive : 0 <= maxDailyBytes options.

(** No two posted uploads share a fingerprint without being the same payload. *)
Hypothesis fingerprints : forall u u', posted u -> posted u' -> fingerprint sha256 u = fingerprint sha256 u' ->
  up_metadata u = up_metadata u' /\ up_bytes u = up_bytes u'.


(** ** What each transaction leaves *)
Lemma may_upload_tenant d u : may_upload d u = Ok tt ->
  exists v, ob_devices d !! (key_of (up_metadata u)).1 = Some v /\ dv_tenant_id v = up_tenant_id u.
Proof using Type.
  unfold may_upload, authorize, owner_of_device. simpl. destruct (ob_devices d !! lower _) as [v|]; [|done]. destruct (_ && _); [|done].
  destruct (capability_row _ _ _) as [c|]; [|done]. destruct (_ || _); [done|].
  destruct (cp_max_bytes c), (cp_max_width c), (cp_max_height c); try done. destruct (_ && _); simpl; [|done].
  destruct (String.eqb_spec (dv_tenant_id v) (up_tenant_id u)); [|done]. eauto.
Qed.

(** The receipt of a fingerprint is the upload's. *)
Lemma same_fingerprint d k r u :
  Sound d -> genuine u -> ob_receipts d !! k = Some r -> rc_fingerprint r = fingerprint sha256 u ->
  rc_bytes r = up_bytes u /\ rc_sha256 r = up_sha256 u /\
  (forall v i, ob_devices d !! k.1 = Some v -> dv_tenant_id v = up_tenant_id u -> ob_images d !! k = Some i -> im_object_key i = up_object_key u).
Proof using fingerprints.
  intros H (Hp & Hsh & Hb) Hr Ef. destruct (so_posted _ H k r Hr) as (u0 & (Hp0 & Hsh0 & _) & _ & Ef0 & Es0 & Eb0 & (v & Hv & Ht) & Hi).
  destruct (fingerprints u u0) as [Em Eb]; [done|done|congruence|]. split_and!; [congruence|congruence|].
  intros v' i Hv' Ht' Hi'. rewrite (Hi i Hi'). unfold up_object_key. rewrite Em.
  assert (up_tenant_id u0 = up_tenant_id u) as -> by congruence. done.
Qed.

Lemma place_spec now lease u prior d d' :
  genuine u -> Sound d -> may_upload d u = Ok tt -> ob_receipts d !! key_of (up_metadata u) = prior ->
  (forall r, prior = Some r -> rc_fingerprint r = fingerprint sha256 u /\ (rc_state r = Reserved \/ rc_state r = FailedState)) ->
  place sha256 options now lease u prior d = Ok d' ->
  Sound d' /\ (forall k, k <> key_of (up_metadata u) -> kept d d' k) /\ intents_kept d d' /\
  exists r e, ob_receipts d' !! key_of (up_metadata u) = Some r /\ rc_lease r = Some (lease, e) /\ rc_state r = Reserved /\
    (exists i, ob_images d' !! key_of (up_metadata u) = Some i /\ im_object_key i = up_object_key u) /\ rc_fingerprint r = fingerprint sha256 u.
Proof using fingerprints.
  intros Hu H Hmay Hk Hprior. unfold place. set (k := key_of (up_metadata u)) in *. destruct (_ || _); [done|].
  destruct (within_quota options d k (isoDay now) (up_bytes u)) eqn:Hq; simpl; [|done].
  pose proof (may_upload_tenant d u Hmay) as Hv. destruct prior as [r|].
  - intros [= <-]. destruct (Hprior r eq_refl) as [Ef Hst]. destruct (so_ok _ H k r Hk) as (_ & Hnone & _ & Hpos).
    destruct (same_fingerprint d k r u H Hu Hk Ef) as (Eb & _ & Hkey).
    set (r' := reserve_row _ _ _ _ _). assert (Hok : receipt_ok r') by (split_and!; simpl; try done; by intros _; apply Hnone).
    split; [|split; [|split; [by intros key|]]]; simpl.
    + apply (sound_update d k r); [exact H|exact Hk|done|exact Hok|destruct Hst; congruence|discriminate| |intros []; exact (Hnone Hst)].
      apply reserve_limits; [done| |done|exact (Hnone Hst)|by rewrite <- Eb in Hq]. intros x Hx. rewrite Hk in Hx. injection Hx as <-. exact (Hnone Hst).
    + intros k' N. split; simpl; [by rewrite lookup_insert_ne|done].
    + exists r'. eexists. rewrite lookup_insert_eq. split; [done|]. split; [done|]. split; [done|]. split; [|exact Ef].
      destruct (proj2 (so_images _ H k)) as [i Hi]; [exists r; split; [exact Hk|destruct Hst; congruence]|]. destruct Hv as (v & Hv & Ht). exists i. split; [done|]. by apply (Hkey v i).
  - destruct (bool_decide_reflect (is_Some (ob_intents d !! up_object_key u))) as [|Hint]; [done|].
    destruct (key_taken _ _) eqn:Ht; [done|]. intros [= <-]. apply eq_None_not_Some in Hint. split; [|split; [|split; [by intros key|]]]; simpl.
    + by apply sound_place.
    + intros k' N. split; simpl; by rewrite lookup_insert_ne.
    + eexists _, _. rewrite !lookup_insert_eq. split; [done|]. split; [done|]. split; [done|]. split; [by eexists|done].
Qed.

Lemma reserve_spec now lease u d d' :
  genuine u -> Sound d -> reserve sha256 options now lease u d = Ok (None, d') ->
  Sound d' /\ (forall k, k <> key_of (up_metadata u) -> kept d d' k) /\ intents_kept d d' /\
  exists r e, ob_receipts d' !! key_of (up_metadata u) = Some r /\ rc_lease r = Some (lease, e) /\ rc_state r = Reserved /\
    (exists i, ob_images d' !! key_of (up_metadata u) = Some i /\ im_object_key i = up_object_key u) /\ rc_fingerprint r = fingerprint sha256 u.
Proof using fingerprints.
  intros Hu H. unfold reserve. destruct (may_upload d u) as [[]|] eqn:Hm; [|done]. cbn [rbind].
  destruct (ob_receipts d !! key_of (up_metadata u)) as [r|] eqn:Hk.
  - destruct (String.eqb_spec (rc_fingerprint r) (fingerprint sha256 u)) as [Ef|]; [|done]. cbn [negb].
    destruct (bool_decide_reflect (rc_state r = Expired)) as [|N1]; [done|]. destruct (_ <=? now); [done|]. cbn [orb].
    destruct (bool_decide_reflect (rc_state r = StoredState)) as [|N2]; [done|]. destruct (from_option _ _ _); [done|].
    destruct (place _ _ _ _ _ _ _) as [d1|] eqn:Ep; [|done]. intros [= <-]. apply (place_spec now lease u (Some r)); [done..| |done].
    intros x [= <-]. split; [done|]. destruct (rc_state r); auto; congruence.
  - destruct (place _ _ _ _ _ _ _) as [d1|] eqn:Ep; [|done]. intros [= <-]. by apply (place_spec now lease u None).
Qed.

Lemma safe_stop w l : Safe w -> Safe (set_tasks (delete l (w_tasks w)) w).
Proof using Type.
  intros H. split; simpl; try apply H.
  - intros l' t [_ Ht]%lookup_delete_Some. by apply (sf_tasks _ H).
  - intros l' t r e [_ Ht]%lookup_delete_Some. by apply (sf_holds _ H l').
Qed.

Lemma accept_kept now k r g b day cap captured d :
  let d' := accept_receipt now k r g b day cap captured d in (forall k', k' <> k -> kept d d' k') /\ intents_kept d d'.
Proof using Type.
  split; [|by intros key]. intros k' N. split; simpl; [by rewrite lookup_insert_ne|by rewrite lookup_alter_ne].
Qed.
Lemma expire_kept k r i d : (forall k', k' <> k -> kept d (expire k r i d) k') /\ intents_kept d (expire k r i d).
Proof using Type.
  split; [intros k' N; split; simpl; [by rewrite lookup_insert_ne|by rewrite lookup_delete_ne]|].
  intros key Hk. simpl. unfold queue_deletion. destruct (decide (im_object_key i = key)) as [<-|N]; [by rewrite lookup_insert_eq|by rewrite lookup_insert_ne].
Qed.

(** The acceptance of a receipt whose object was seen under its lease. *)
Lemma safe_accept w lease t k r e o now cap captured :
  Safe w -> w_tasks w !! lease = Some t -> task_key t = k -> task_saw t = Some o -> ob_receipts (w_db w) !! k = Some r ->
  rc_lease r = Some (lease, e) -> rc_state r = Reserved ->
  so_fingerprint o = rc_fingerprint r -> so_sha256 o = rc_sha256 r -> so_bytes o = rc_bytes r ->
  Safe (set_db (accept_receipt now k r (so_generation o) (rc_bytes r) (rc_reserved_day r) cap captured (w_db w)) w).
Proof using Type.
  intros H Ht Ek Hs Hr El Hst Ef Es Eb. subst k. destruct (accept_kept now (task_key t) r (so_generation o) (rc_bytes r) (rc_reserved_day r) cap captured (w_db w)) as [Hk Hi].
  destruct (sf_holds _ H lease t r e Ht Hr El) as ((i & Him & Eim) & _ & Hobj).
  apply (safe_released w _ (task_key t)); [done|by apply sound_accept; [apply (sf_sound _ H)|..]|done|done|].
  intros x Hx. simpl in Hx. rewrite lookup_insert_eq in Hx. injection Hx as <-. split; [done|]. intros _.
  exists (with_generation (so_generation o) i), o. simpl. rewrite lookup_alter_eq, Him, Eim. split_and!; auto.
Qed.

Lemma holds_lease_spec r lease now : holds_lease r lease now = true -> rc_state r = Reserved /\ exists e, rc_lease r = Some (lease, e).
Proof using Type.
  unfold holds_lease. rewrite andb_true_iff, bool_decide_eq_true. intros [Hs Hl]. split; [done|].
  destruct (rc_lease r) as [[l e]|]; simpl in Hl; [|done]. apply andb_true_iff in Hl as [->%String.eqb_eq _]. eauto.
Qed.

Lemma safe_finalise w now lease u o r d :
  Safe w -> w_tasks w !! lease = Some (UploadTask u (Some o)) -> finalise sha256 now lease u o (w_db w) = Ok (r, d) ->
  Safe (set_tasks (delete lease (w_tasks w)) (set_db d w)).
Proof using fingerprints.
  intros H Ht Hf. apply (safe_stop (set_db d w)). revert Hf. unfold finalise. destruct (may_upload _ _) as [[]|]; [|done]. cbn [rbind].
  destruct (ob_receipts (w_db w) !! key_of (up_metadata u)) as [p|] eqn:Hp; [|done].
  destruct (String.eqb_spec (rc_fingerprint p) (fingerprint sha256 u)) as [Ef|]; [|done].
  destruct (holds_lease p lease now) eqn:Eh; [|done]. destruct (_ ==s isoDay now); [|done]. cbn [negb orb]. intros [= <- <-].
  apply holds_lease_spec in Eh as (Hs & e & El). destruct (sf_tasks _ H _ _ Ht) as [_ [Hg Ho]]. specialize (Ho o eq_refl).
  destruct (same_fingerprint _ _ _ _ (sf_sound _ H) Hg Hp Ef) as (Eb & Esh & _). rewrite <- Eb.
  unfold is_object_of in Ho. apply andb_true_iff in Ho as [Ho Hb]. apply andb_true_iff in Ho as [Hsh Hfp].
  apply String.eqb_eq in Hsh, Hfp. apply Z.eqb_eq in Hb.
  apply (safe_accept w lease (UploadTask u (Some o)) (key_of (up_metadata u)) p e o); congruence || done.
Qed.

Lemma safe_expire w k r i : Safe w -> receipt (w_db w) k = Some (r, i) -> Safe (set_db (expire k r i (w_db w)) w).
Proof using Type.
  intros H Hr. unfold receipt in Hr. destruct (ob_receipts (w_db w) !! k) as [r0|] eqn:Er; [|done]. simpl in Hr.
  destruct (ob_images (w_db w) !! k) as [i0|] eqn:Ei; [|done]. injection Hr as -> ->. destruct (expire_kept k r i (w_db w)) as [Hk Hi].
  apply (safe_released w _ k); [done|apply sound_expire; [apply (sf_sound _ H)|done..]|done|done|].
  intros x Hx. simpl in Hx. rewrite lookup_insert_eq in Hx. by injection Hx as <-.
Qed.

Lemma receipt_rows d k r i : receipt d k = Some (r, i) -> ob_receipts d !! k = Some r /\ ob_images d !! k = Some i.
Proof using Type.
  unfold receipt. destruct (ob_receipts d !! k); [|done]. simpl. destruct (ob_images d !! k); [|done]. by intros [= -> ->].
Qed.

Lemma set_db_same w : Safe w -> Safe (set_db (w_db w) w).
Proof using Type. by destruct w. Qed.

Lemma safe_claim_none w now lease k d : Safe w -> claim options now lease k (w_db w) = (None, d) -> Safe (set_db d w).
Proof using Type.
  intros H. unfold claim. destruct (receipt (w_db w) k) as [[r i]|] eqn:Er; [|intros [= <-]; by apply set_db_same].
  destruct (bool_decide _); [intros [= <-]; by apply set_db_same|]. destruct (bool_decide (rc_state r = StoredState)).
  { intros [= <-]. case_match; [by apply safe_expire|by apply set_db_same]. }
  destruct (_ && _); [intros [= <-]; by apply set_db_same|]. destruct (_ || _); [intros [= <-]; by apply safe_expire|].
  destruct (negb _); [|done]. intros [= <-]. by apply set_db_same.
Qed.

Lemma safe_claim w now lease k r i d :
  Safe w -> lease ∉ w_leases w -> claim options now lease k (w_db w) = (Some (r, i), d) ->
  Safe (start lease (ClaimTask k (im_object_key i) None) (set_db d w)).
Proof using Type.
  intros H Hf. unfold claim. destruct (receipt (w_db w) k) as [[r0 i0]|] eqn:Er; [|done]. apply receipt_rows in Er as [Er Ei].
  destruct (bool_decide_reflect (rc_state r0 = Expired)) as [|N1]; [done|].
  destruct (bool_decide_reflect (rc_state r0 = StoredState)) as [|N2]; [by case_match|].
  destruct (_ && _); [done|]. destruct (_ || _); [done|]. destruct (within_quota _ _ _ _ _) eqn:Hq; [|done]. cbn [negb].
  intros [= -> -> <-]. set (r' := mkReceipt _ _ _ _ _ _ _ _ _ _ _).
  destruct (so_ok _ (sf_sound _ H) k r Er) as (_ & Hn & _ & Hpos).
  assert (Hnone : rc_received_at r = None) by (apply Hn; destruct (rc_state r); auto; congruence).
  apply (safe_leased w (with_receipts (<[k := r']> (ob_receipts (w_db w))) (w_db w)) k lease _ r' (now + 30000)); try done.
  - apply (sound_update (w_db w) k r); [apply (sf_sound _ H)|done|done| |done|done| |intros []; exact Hnone].
    + split_and!; simpl; done.
    + apply reserve_limits; [apply (sf_sound _ H)| |done|exact Hnone|exact Hq]. intros x Hx. rewrite Er in Hx. by injection Hx as <-.
  - intros k' N. split; simpl; [by rewrite lookup_insert_ne|done].
  - by intros key.
  - simpl. by rewrite lookup_insert_eq.
  - exists i. done.
Qed.

Lemma safe_settle w now lease k key object :
  Safe w -> w_tasks w !! lease = Some (ClaimTask k key (Some object)) ->
  Safe (set_tasks (delete lease (w_tasks w)) (set_db (settle_claim options now lease k object (w_db w)).2 w)).
Proof using Type.
  intros H Ht. apply (safe_stop (set_db (settle_claim options now lease k object (w_db w)).2 w)). unfold settle_claim.
  destruct (receipt (w_db w) k) as [[r i]|] eqn:Er; [|by apply set_db_same]. pose proof (receipt_rows _ _ _ _ Er) as [Hr Hi].
  destruct (holds_lease r lease now) eqn:Eh; [|by apply set_db_same]. cbn [negb]. apply holds_lease_spec in Eh as (Hs & e & El).
  destruct (_ || _); [by apply safe_expire|]. destruct object as [o|].
  - destruct (String.eqb_spec (so_sha256 o) (rc_sha256 r)) as [E1|]; [|by apply safe_expire].
    destruct (String.eqb_spec (so_fingerprint o) (rc_fingerprint r)) as [E2|]; [|by apply safe_expire].
    destruct (Z.eqb_spec (so_bytes o) (rc_bytes r)) as [E3|]; [|by apply safe_expire]. cbn [negb orb].
    destruct (String.eqb_spec (rc_reserved_day r) (isoDay now)) as [Ed|]; [|by apply set_db_same]. cbn [negb orb].
    destruct (negb _); [by apply set_db_same|]. simpl. rewrite <- Ed.
    by apply (safe_accept w lease (ClaimTask k key (Some (Some o))) k r e o).
  - simpl. apply (safe_released w _ k); [done| |intros k' N; split; simpl; [by rewrite lookup_insert_ne|done]|by intros key'|].
    + destruct (so_ok _ (sf_sound _ H) k r Hr) as (_ & Hn & _ & Hpos).
      apply (sound_update (w_db w) k r); [apply (sf_sound _ H)|done|done| |congruence|done| |done].
      * split_and!; simpl; try done. intros _. apply Hn. by left.
      * apply (shrink_limits (w_db w) k r); [apply (sf_sound _ H)|done|done|]. intros dev day. unfold accepted_on, reserved_on. simpl.
        rewrite !orb_true_iff, !andb_true_iff, !bool_decide_eq_true. intros [?|[_ ?]]; [by left|done].
    + intros x Hx. simpl in Hx. rewrite lookup_insert_eq in Hx. by injection Hx as <-.
Qed.

(** ** The object store *)
Lemma safe_put w key o : Safe w -> w_objects w !! key = None -> Safe (put_object key o w).
Proof using Type.
  intros H Hn. split; simpl; try apply H.
  - intros l t r e Ht Hr El. destruct (sf_holds _ H l t r e Ht Hr El) as (Hi & Hm & Ho). split; [done|]. split; [done|]. intros x Hx.
    simpl. specialize (Ho x Hx). rewrite lookup_insert_ne; [done|congruence].
  - intros k r Hr Hs. destruct (sf_media _ H k r Hr Hs) as (i & x & Hi & Hx & ?). exists i, x. split; [done|].
    rewrite lookup_insert_ne; [done|congruence].
Qed.

Lemma safe_drop w x : Safe w -> w_deleting w = Some x -> Safe (drop_object (dl_key x) w).
Proof using Type.
  intros H Hx. destruct (sf_deleting _ H x Hx) as [g Hg].
  assert (Hfree : forall k i, ob_images (w_db w) !! k = Some i -> im_object_key i <> dl_key x).
  { intros k i Hi E. pose proof (so_fenced _ (sf_sound _ H) k i Hi). congruence. }
  split; simpl; try apply H.
  - intros l t r e Ht Hr El. destruct (sf_holds _ H l t r e Ht Hr El) as ((i & Hi & Ei) & Hm & Ho). split; [by exists i|]. split; [done|].
    intros o Hs. simpl. rewrite lookup_delete_ne; [by apply Ho|]. rewrite <- Ei. by apply not_eq_sym, (Hfree (task_key t)).
  - intros k r Hr Hs. destruct (sf_media _ H k r Hr Hs) as (i & o & Hi & Ho & ?). exists i, o. split; [done|].
    rewrite lookup_delete_ne; [done|]. by apply not_eq_sym, (Hfree k).
Qed.

(** A task that saw what is there. *)
Lemma safe_saw w lease t t' :
  Safe w -> w_tasks w !! lease = Some t -> task_key t' = task_key t -> task_object t' = task_object t ->
  (forall r, task_matches t r -> task_matches t' r) -> task_genuine t' ->
  (forall o, task_saw t' = Some o -> w_objects w !! task_object t = Some o) ->
  Safe (set_tasks (<[lease := t']> (w_tasks w)) w).
Proof using Type.
  intros H Ht Ek Eo Hm Hg Hs. split; simpl; try apply H.
  - intros l x [[-> ->]|[N Hx]]%insert_cases; [|by apply (sf_tasks _ H)]. split; [by apply (sf_tasks _ H lease t)|done].
  - intros l x r e [[-> ->]|[N Hx]]%insert_cases Hr El; [|by apply (sf_holds _ H l x r e)]. rewrite Ek in Hr.
    destruct (sf_holds _ H lease t r e Ht Hr El) as (Hi & Hmt & _). unfold holds. rewrite Ek, Eo. split; [done|]. split; [by apply Hm|done].
Qed.

(** ** Every step *)
Local Abbreviation step := (step sha256 sha256_bytes zod_uuid zod_uuidv4 metadata decodes options posted).
Local Abbreviation reachable := (reachable sha256 sha256_bytes zod_uuid zod_uuidv4 metadata decodes options posted).

Lemma is_object_of_own g u : is_object_of sha256 u (object_of sha256 g u) = true.
Proof using Type. unfold is_object_of. simpl. by rewrite !String.eqb_refl, Z.eqb_refl. Qed.

Lemma on_request_tables now r d :
  let d' := (on_request sha256 zod_uuid zod_uuidv4 options now r d).2 in
  ob_devices d' = ob_devices d /\ ob_receipts d' = ob_receipts d /\ ob_images d' = ob_images d /\ ob_usage d' = ob_usage d /\
  ob_intents d' = ob_intents d.
Proof using Type. unfold on_request, count_attempt. repeat (case_match; try done). Qed.

Lemma safe_request w now r : Safe w -> Safe (set_db (on_request sha256 zod_uuid zod_uuidv4 options now r (w_db w)).2 w).
Proof using Type.
  intros H. destruct (on_request_tables now r (w_db w)) as (Ev & Er & Ei & Eu & En). pose proof (sf_sound _ H) as Hd.
  apply safe_around; [done| |intros k; split; congruence|intros x Hx; rewrite En; by apply (sf_deleting _ H)].
  apply (sound_around (w_db w)); [done|rewrite Ev; apply devices_same|done..|]. intros k i Hi. rewrite En. by apply (so_fenced _ Hd k).
Qed.

Lemma safe_orphan w key g : Safe w -> Safe (set_db (queue_orphan key g (w_db w)) w).
Proof using Type.
  intros H. pose proof (sf_sound _ H) as Hd. pose proof (sound_orphan _ key g Hd) as Hs. unfold queue_orphan in *.
  destruct (key_taken _ _); [by apply set_db_same|]. apply safe_around; [done|done|done|]. intros x Hx. simpl.
  destruct (decide (key = dl_key x)) as [->|N]; [by rewrite lookup_insert_eq|rewrite lookup_insert_ne by done; by apply (sf_deleting _ H)].
Qed.

Lemma safe_dequeued w x : Safe w -> Safe (set_deleting None (set_db (dequeue (dl_key x) (dl_queued x) (w_db w)) w)).
Proof using Type.
  intros H. pose proof (sf_sound _ H) as Hd. pose proof (sound_dequeue _ (dl_key x) (dl_queued x) Hd) as Hs.
  assert (Hk : forall k, kept (w_db w) (dequeue (dl_key x) (dl_queued x) (w_db w)) k).
  { intros k. unfold dequeue. destruct (ob_intents _ !! _); [case_bool_decide|]; done. }
  apply (safe_around (set_deleting None w)); [|done|done|done]. by destruct H.
Qed.

Lemma safe_configure w m caps : Safe w -> devices_after (ob_devices (w_db w)) m -> Safe (set_db (with_devices m caps (w_db w)) w).
Proof using Type.
  intros H Hm. apply safe_around; [done| |done|apply (sf_deleting _ H)].
  apply (sound_around (w_db w)); [apply (sf_sound _ H)|done..|]. apply (so_fenced _ (sf_sound _ H)).
Qed.

Lemma step_safe w w' : step w w' -> Safe w -> Safe w'.
Proof using fingerprints.
  intros Hstep H. destruct Hstep.
  - by apply safe_request.
  - pose proof (receive_genuine _ _ _ _ _ H0 H1) as Hg.
    destruct (reserve_spec _ _ _ _ _ Hg (sf_sound _ H) H3) as (Hs & Hk & Hi & r & e & Hr & El & Est & Him & Ef).
    apply (safe_leased w d (key_of (up_metadata u)) lease (UploadTask u None) r e); done.
  - apply (safe_saw (put_object (up_object_key u) (object_of sha256 (w_generation w) u) w) lease (UploadTask u None)); try done.
    + by apply safe_put.
    + destruct (sf_tasks _ H _ _ H0) as [_ [Hg _]]. split; [done|]. intros x [= <-]. apply is_object_of_own.
    + intros o [= <-]. simpl. by rewrite lookup_insert_eq.
  - apply (safe_stop (put_object (up_object_key u) (object_of sha256 (w_generation w) u) w)). by apply safe_put.
  - apply (safe_saw w lease (UploadTask u None)); try done; [|by intros x [= <-]].
    destruct (sf_tasks _ H _ _ H0) as [_ [Hg _]]. split; [done|]. by intros x [= <-].
  - by apply (safe_finalise w now lease u o r).
  - by apply safe_stop.
  - by apply (safe_claim w now lease k r i).
  - by apply (safe_claim_none w now lease k).
  - by apply (safe_saw w lease (ClaimTask k key None)).
  - by apply (safe_settle w now lease k key object).
  - destruct H; split; try done. simpl. intros x [= <-]. by eexists.
  - destruct H; split; try done. simpl. intros x [= <-]. apply (sf_deleting0 _ H0).
  - apply (safe_drop w _ H H0).
  - by apply (safe_dequeued w (mkDeletion key g t)).
  - by destruct H; split.
  - by apply safe_orphan.
  - by apply safe_configure.
Qed.

Lemma sound_nothing : Sound (w_db no_observations).
Proof using count_positive bytes_positive.
  split; simpl; try done.
  - intros k. rewrite lookup_empty. split; [by intros []|]. by intros (r & Hr & _).
Qed.

Lemma reachable_safe w : reachable w -> Safe w.
Proof using fingerprints count_positive bytes_positive.
  induction 1 as [|w w' _ IH Hs]; [|by apply (step_safe w)]. split; try done. apply sound_nothing.
Qed.

(** ** What is stored stays, until it expires *)
Definition settled (r : Receipt) : Prop := rc_state r = StoredState \/ rc_state r = Expired.
Definition settled_as (r r' : Receipt) : Prop :=
  (rc_state r' = rc_state r \/ rc_state r' = Expired) /\ rc_fingerprint r' = rc_fingerprint r /\ rc_sha256 r' = rc_sha256 r /\
  rc_bytes r' = rc_bytes r /\ rc_received_at r' = rc_received_at r /\ rc_expires_at r' = rc_expires_at r /\
  rc_reserved_day r' = rc_reserved_day r.
Definition follows (d d' : ObservationDb) : Prop :=
  forall k r, ob_receipts d !! k = Some r -> settled r -> exists r', ob_receipts d' !! k = Some r' /\ settled_as r r'.

Lemma follows_same d d' : ob_receipts d' = ob_receipts d -> follows d d'.
Proof using Type. intros E k r Hr _. exists r. rewrite E. split; [done|]. split_and!; auto. Qed.
Lemma follows_update d k r0 r0' d' :
  ob_receipts d !! k = Some r0 -> (settled r0 -> settled_as r0 r0') -> ob_receipts d' = <[k := r0']> (ob_receipts d) -> follows d d'.
Proof using Type.
  intros Hr0 Hs E k' r Hr Hset. rewrite E. destruct (decide (k = k')) as [<-|N].
  - rewrite lookup_insert_eq. exists r0'. split; [done|]. rewrite Hr0 in Hr. injection Hr as <-. by apply Hs.
  - rewrite lookup_insert_ne by done. exists r. split; [done|]. split_and!; auto.
Qed.
Lemma follows_expire d k r i : ob_receipts d !! k = Some r -> follows d (expire k r i d).
Proof using Type. intros Hr. apply (follows_update d k r (ended Expired r)); [done|intros _; split_and!; auto|done]. Qed.

Lemma reserve_follows now lease u d d' : reserve sha256 options now lease u d = Ok (None, d') -> follows d d'.
Proof using Type.
  unfold reserve. destruct (may_upload d u); [|done]. cbn [rbind]. destruct (ob_receipts d !! key_of (up_metadata u)) as [r|] eqn:Hk.
  - destruct (negb _); [done|]. destruct (bool_decide_reflect (rc_state r = Expired)) as [|N1]; [done|]. destruct (_ || _); [done|].
    destruct (bool_decide_reflect (rc_state r = StoredState)) as [|N2]; [done|]. destruct (from_option _ _ _); [done|].
    unfold place. destruct (_ || _); [done|]. destruct (negb _); [done|]. simpl. intros [= <-].
    eapply (follows_update d _ r); [done| |done]. by intros [].
  - unfold place. destruct (_ || _); [done|]. destruct (negb _); [done|]. destruct (bool_decide _); [done|]. destruct (key_taken _ _); [done|].
    simpl. intros [= <-] k r Hr _. simpl. exists r. rewrite lookup_insert_ne by congruence. split; [done|]. split_and!; auto.
Qed.

Lemma finalise_follows now lease u o d r d' : finalise sha256 now lease u o d = Ok (r, d') -> follows d d'.
Proof using Type.
  unfold finalise. destruct (may_upload d u); [|done]. cbn [rbind]. destruct (ob_receipts d !! _) as [p|] eqn:Hp; [|done].
  destruct (holds_lease p lease now) eqn:Eh; [|by rewrite orb_true_r]. destruct (_ || _); [done|]. destruct (negb _); [done|]. intros [= _ <-].
  apply holds_lease_spec in Eh as [Hs _]. eapply (follows_update d _ p); [done| |done]. by intros [?|?]; congruence.
Qed.

Lemma claim_follows now lease k d : follows d (claim options now lease k d).2.
Proof using Type.
  unfold claim. destruct (receipt d k) as [[r i]|] eqn:Er; [|by apply follows_same]. apply receipt_rows in Er as [Er _].
  destruct (bool_decide_reflect (rc_state r = Expired)) as [|N1]; [by apply follows_same|].
  destruct (bool_decide_reflect (rc_state r = StoredState)) as [|N2]; [simpl; case_match; [by apply follows_expire|by apply follows_same]|].
  destruct (_ && _); [by apply follows_same|]. destruct (_ || _); [by apply follows_expire|]. destruct (negb _); [by apply follows_same|].
  eapply (follows_update d k r); [done| |done]. by intros [].
Qed.

Lemma settle_follows now lease k object d : follows d (settle_claim options now lease k object d).2.
Proof using Type.
  unfold settle_claim. destruct (receipt d k) as [[r i]|] eqn:Er; [|by apply follows_same]. apply receipt_rows in Er as [Er _].
  destruct (holds_lease r lease now) eqn:Eh; [|by apply follows_same]. apply holds_lease_spec in Eh as [Hs _]. cbn [negb].
  assert (Hn : settled r -> False) by (intros [?|?]; congruence).
  destruct (_ || _); [by apply follows_expire|]. destruct object as [o|]; [|eapply (follows_update d k r); [done|by intros ?%Hn|done]].
  destruct (_ || _); [by apply follows_expire|]. destruct (_ || _); [by apply follows_same|].
  eapply (follows_update d k r); [done|by intros ?%Hn|done].
Qed.

Lemma step_follows w w' : step w w' -> follows (w_db w) (w_db w').
Proof using Type.
  destruct 1; simpl; try by apply follows_same.
  - apply follows_same. by apply on_request_tables.
  - by apply (reserve_follows now lease u).
  - by apply (finalise_follows now lease u o _ r).
  - pose proof (claim_follows now lease k (w_db w)) as Hc. by rewrite H0 in Hc.
  - pose proof (claim_follows now lease k (w_db w)) as Hc. by rewrite H in Hc.
  - apply settle_follows.
  - apply follows_same. unfold dequeue. destruct (ob_intents _ !! _); [case_bool_decide|]; done.
  - apply follows_same. unfold queue_orphan. by destruct (key_taken _ _).
Qed.

Lemma settled_as_trans r1 r2 r3 : settled_as r1 r2 -> settled_as r2 r3 -> settled_as r1 r3.
Proof using Type. unfold settled_as. intros (S1 & ?) (S2 & ?). split; [destruct S1 as [E|E], S2 as [E'|E']; rewrite E' in *; auto|]. intuition congruence. Qed.
Lemma settled_as_settled r r' : settled r -> settled_as r r' -> settled r'.
Proof using Type. unfold settled. intros Hs [[-> | ->] _]; auto. Qed.

Lemma steps_follow w w' : rtc step w w' -> follows (w_db w) (w_db w').
Proof using Type.
  induction 1 as [w|w w1 w' Hs _ IH]; [by apply follows_same|]. intros k r Hr Hset.
  destruct (step_follows w w1 Hs k r Hr Hset) as (r1 & Hr1 & H1).
  destruct (IH k r1 Hr1 (settled_as_settled r r1 Hset H1)) as (r2 & Hr2 & H2). exists r2. split; [done|]. by apply (settled_as_trans r r1).
Qed.

(** ** The promises *)

(** C30: a device never exceeds its day. However uploads, retries, lapsed leases
    and the worker interleave, what was accepted on a day and what is still
    reserved on it stay within the daily count and bytes, and the usage row is
    exactly the number and bytes of the receipts accepted on that day. *)
Theorem observation_quotas_kept w dev day :
  reachable w ->
  let receipts := ob_receipts (w_db w) in
  let usage := default (0, 0) (ob_usage (w_db w) !! (dev, day)) in
  usage.1 + reserved_sum one dev day receipts <= maxDailyCount options /\
  usage.2 + reserved_sum rc_bytes dev day receipts <= maxDailyBytes options /\
  usage = (accepted_sum one dev day receipts, accepted_sum rc_bytes dev day receipts).
Proof using fingerprints count_positive bytes_positive.
  intros Hw. pose proof (sf_sound _ (reachable_safe w Hw)) as H. cbn zeta. rewrite (so_usage _ H).
  destruct (so_limits _ H dev day) as [Hc Hb]. rewrite !total_on_split in Hc, Hb by apply (so_ok _ H). done.
Qed.

(** C31: stored media is never lost. Whatever uploads, retries and the worker's
    deletions and orphan sweeps do, the object of a stored receipt is in the
    object store, of the generation its image names, with the receipt's digest,
    fingerprint and size, and its key is not queued for deletion. *)
Theorem stored_media_kept w k r :
  reachable w -> ob_receipts (w_db w) !! k = Some r -> rc_state r = StoredState ->
  media_of (w_db w) (w_objects w) k r /\
  forall i, ob_images (w_db w) !! k = Some i -> ob_intents (w_db w) !! im_object_key i = None /\
    forall x, w_deleting w = Some x -> dl_key x <> im_object_key i.
Proof using fingerprints count_positive bytes_positive.
  intros Hw Hr Hs. pose proof (reachable_safe w Hw) as H. split; [by apply (sf_media _ H)|]. intros i Hi.
  pose proof (so_fenced _ (sf_sound _ H) k i Hi) as Hf. split; [done|]. intros x Hx E. destruct (sf_deleting _ H x Hx) as [g Hg]. congruence.
Qed.

(** C32: an observation is stored once. Its receipt keeps what was stored and when
    through any further steps, until it expires for good; another upload of it is
    acknowledged with the same receipt and changes nothing, or told that it has
    expired; another payload under its id is a conflict. *)
Theorem observation_stored_once w w' k r :
  rtc step w w' -> ob_receipts (w_db w) !! k = Some r -> rc_state r = StoredState ->
  exists r', ob_receipts (w_db w') !! k = Some r' /\ settled_as r r' /\
    forall now lease u, key_of (up_metadata u) = k -> may_upload (w_db w') u = Ok tt ->
      ack u r' = ack u r /\
      reserve sha256 options now lease u (w_db w') =
        (if negb (rc_fingerprint r ==s fingerprint sha256 u) then Err (Rejected 409 "observation_conflict")
         else if bool_decide (rc_state r' = Expired) || (rc_expires_at r <=? now) then Err (Rejected 410 "observation_expired")
         else Ok (Some r', w_db w')).
Proof using Type.
  intros Hs Hr Hst. destruct (steps_follow w w' Hs k r Hr (or_introl Hst)) as (r' & Hr' & Ha). exists r'. split; [done|]. split; [done|].
  intros now lease u <- Hm. destruct Ha as (Hst' & Ef & Esh & Eb & Er & Ee & _). split; [unfold ack; by rewrite Esh, Eb, Er|].
  unfold reserve. rewrite Hm. cbn [rbind]. rewrite Hr', Ef, Ee. rewrite Hst in Hst'.
  destruct (negb _); [done|]. destruct Hst' as [->| ->]; [|done]. rewrite bool_decide_false by done. cbn [orb].
  destruct (_ <=? now); [done|]. by rewrite bool_decide_true.
Qed.
End Invariant.
