(* ===== verification/Leases.v ===== *)
(** * Pools of leases ([apps/gateway/src/sse.ts], [apps/cloudlink/src/admission.ts])

    [LeasePool] is what a bounded pool promises whoever runs under its leases:
    a lease is granted exactly when the live ones leave room for it, and is given
    back once however often it is released. [StreamRegistry] bounds open event
    streams per owner and per instance, [IngestAdmission] the payloads taken in
    at once; both implement it. *)
From stdpp Require Import gmap.
From S2P Require Import Prelude JsString.
#[local] Open Scope string_scope.
#[local] Open Scope list_scope.
#[local] Open Scope Z_scope.

(** ** The interface *)
Class LeasePool {S K : Type} (acquire : K -> S -> option nat * S) (release : nat -> S -> S)
    (ok : S -> Prop) (live : S -> list (nat * K)) (room : K -> list K -> bool) : Prop := {
  lp_fresh s : ok s -> NoDup (live s).*1;
  lp_acquire k s : ok s ->
    match acquire k s with
    | (Some i, s') => room k (live s).*2 = true /\ ok s' /\ live s' = live s ++ [(i, k)] /\ i ∉ (live s).*1
    | (None, s') => room k (live s).*2 = false /\ s' = s
    end;
  lp_release i s : ok s -> ok (release i s) /\ live (release i s) = List.filter (fun l => negb (Nat.eqb l.1 i)) (live s)
}.

(** ** What a client sees of any pool *)
Section Client.
Context {S K : Type} (acquire : K -> S -> option nat * S) (release : nat -> S -> S) (ok : S -> Prop)
  (live : S -> list (nat * K)) (room : K -> list K -> bool).
Context `{Hpool : !LeasePool acquire release ok live room}.

Inductive PoolOp := Acquire (k : K) | Release (i : nat).

Definition pool_step (s : S) (o : PoolOp) : S := match o with Acquire k => (acquire k s).2 | Release i => release i s end.
Definition pool_run (s : S) (l : list PoolOp) : S := fold_left pool_step l s.

Lemma pool_ok s l : ok s -> ok (pool_run s l).
Proof using Hpool.
  revert s. induction l as [|o l IH]; intros s Hs; [done|]. simpl. apply IH. destruct o as [k|i]; simpl.
  - pose proof (lp_acquire k s Hs) as H. destruct (acquire k s) as [[i|] s']; simpl; [apply H|by destruct H as [_ ->]].
  - by apply (lp_release i s Hs).
Qed.

(** A property of the owners that grants keep and releases cannot break holds
    throughout. *)
Lemma pool_invariant (P : list K -> Prop) s l :
  (forall k ks, P ks -> room k ks = true -> P (ks ++ [k])) -> (forall ks ks', sublist ks' ks -> P ks -> P ks') ->
  ok s -> P (live s).*2 -> P (live (pool_run s l)).*2.
Proof using Hpool.
  intros Hg Hr. revert s. induction l as [|o l IH]; intros s Hs HP; [done|]. simpl. apply IH.
  - by apply (pool_ok s [o]).
  - destruct o as [k|i]; simpl.
    + pose proof (lp_acquire k s Hs) as H. destruct (acquire k s) as [[i|] s']; simpl; [|by destruct H as [_ ->]].
      destruct H as (Hroom & _ & -> & _). rewrite fmap_app. by apply Hg.
    + rewrite (proj2 (lp_release i s Hs)). eapply Hr; [|exact HP]. apply fmap_sublist. generalize (live s). clear.
      intros l. induction l as [|x l IH]; simpl; [done|]. destruct (negb _); [by apply sublist_skip|by apply sublist_cons].
Qed.

(** Releasing again gives nothing back. *)
Lemma release_again i s : ok s -> live (release i (release i s)) = live (release i s).
Proof using Hpool.
  intros Hs. destruct (lp_release i s Hs) as [Hok E]. rewrite (proj2 (lp_release i _ Hok)), E.
  generalize (live s). clear. intros l. induction l as [|x l IH]; simpl; [done|]. destruct (negb _) eqn:E; simpl; rewrite ?E, IH; done.
Qed.
End Client.
Arguments Acquire {K}.
Arguments Release {K}.

(** ** Leases by number

    A lease is a closure with a flag of its own: here its number in the order
    they were granted. *)
Record Lease (K : Type) := mkLease { le_owner : K; le_released : bool }.
Arguments mkLease {K}.
Arguments le_owner {K}.
Arguments le_released {K}.

Definition released {K} (l : Lease K) : Lease K := mkLease (le_owner l) true.
Fixpoint live_from {K} (n : nat) (l : list (Lease K)) : list (nat * K) :=
  match l with
  | [] => []
  | x :: l => (if le_released x then [] else [(n, le_owner x)]) ++ live_from (S n) l
  end.
Definition live_leases {K} (l : list (Lease K)) : list (nat * K) := live_from 0 l.

Section Live.
Context {K : Type}.
Implicit Types l : list (Lease K).

Lemma live_from_ge n l i k : (i, k) ∈ live_from n l -> (n <= i)%nat.
Proof.
  revert n. induction l as [|x l IH]; intros n; simpl; [by intros ?%elem_of_nil|]. intros [H|H]%elem_of_app.
  - destruct (le_released x); [by apply elem_of_nil in H|]. apply list_elem_of_singleton in H. by injection H as -> ->.
  - apply IH in H. lia.
Qed.

Lemma live_from_lookup n l i k : (i, k) ∈ live_from n l <-> (n <= i)%nat /\ l !! (i - n)%nat = Some (mkLease k false).
Proof.
  revert n. induction l as [|x l IH]; intros n; simpl.
  - rewrite elem_of_nil, lookup_nil. naive_solver.
  - rewrite elem_of_app, IH. destruct (decide (i = n)) as [->|N].
    + rewrite Nat.sub_diag. simpl. split.
      * intros [H|[? _]]; [|lia]. destruct x as [o [|]]; simpl in H; [by apply elem_of_nil in H|].
        apply list_elem_of_singleton in H as [= ->]. split; [lia|done].
      * intros [_ [= ->]]. left. simpl. by apply list_elem_of_singleton.
    + split.
      * intros [H|[Hle Hl]].
        -- destruct (le_released x); [by apply elem_of_nil in H|]. by apply list_elem_of_singleton in H as [= -> _].
        -- split; [lia|]. replace (i - n)%nat with (S (i - S n)) by lia. done.
      * intros [Hle Hl]. right. split; [lia|]. by replace (i - n)%nat with (S (i - S n)) in Hl by lia.
Qed.

Lemma live_from_NoDup n l : NoDup (live_from n l).*1.
Proof.
  revert n. induction l as [|x l IH]; intros n; simpl; [constructor|]. destruct (le_released x); simpl; [apply IH|].
  constructor; [|apply IH]. intros ((i & k) & -> & H)%list_elem_of_fmap. apply live_from_ge in H. simpl in H. lia.
Qed.

Lemma live_from_app n l l' : live_from n (l ++ l') = live_from n l ++ live_from (n + length l) l'.
Proof.
  revert n. induction l as [|x l IH]; intros n; simpl; [by rewrite Nat.add_0_r|].
  rewrite IH, <- app_assoc. do 3 f_equal. lia.
Qed.

Lemma live_grant l k : live_leases (l ++ [mkLease k false]) = live_leases l ++ [(length l, k)].
Proof. unfold live_leases. by rewrite live_from_app. Qed.

Lemma live_grant_fresh l : length l ∉ (live_leases l).*1.
Proof.
  intros ((i & k) & E & H)%list_elem_of_fmap. simpl in E. subst i. apply live_from_lookup in H as [_ H].
  rewrite Nat.sub_0_r, lookup_ge_None_2 in H; [done|lia].
Qed.

Lemma live_from_release n l i x :
  l !! i = Some x -> le_released x = false ->
  live_from n (<[i := released x]> l) = List.filter (fun y => negb (Nat.eqb y.1 (n + i))) (live_from n l).
Proof.
  revert n i. induction l as [|y l IH]; intros n [|i] Hi Hx; simpl in *; simplify_eq.
  - rewrite Hx. simpl. rewrite Nat.add_0_r, Nat.eqb_refl. simpl. symmetry. apply List.forallb_filter_id.
    apply forallb_elem. intros [j k] Hj%live_from_ge. simpl. apply negb_true_iff, Nat.eqb_neq. lia.
  - rewrite List.filter_app, (IH (S n) i) by done. f_equal; [|f_equal]; [|by replace (S n + i)%nat with (n + S i)%nat by lia].
    destruct (le_released y); [done|]. simpl. by replace (Nat.eqb n (n + S i)) with false by (symmetry; apply Nat.eqb_neq; lia).
Qed.

Lemma live_release l i x :
  l !! i = Some x -> le_released x = false ->
  live_leases (<[i := released x]> l) = List.filter (fun y => negb (Nat.eqb y.1 i)) (live_leases l).
Proof. apply (live_from_release 0). Qed.

Lemma live_dead l i :
  (forall x, l !! i = Some x -> le_released x = true) -> List.filter (fun y => negb (Nat.eqb y.1 i)) (live_leases l) = live_leases l.
Proof.
  intros H. apply List.forallb_filter_id, forallb_elem. intros [j k] Hj%live_from_lookup. simpl. apply negb_true_iff, Nat.eqb_neq.
  intros ->. destruct Hj as [_ Hj]. rewrite Nat.sub_0_r in Hj. by apply H in Hj.
Qed.

(** Releasing takes one lease, of its owner. *)
Lemma filter_one_length (i : nat) k (l : list (nat * K)) :
  NoDup l.*1 -> (i, k) ∈ l -> S (length (List.filter (fun y => negb (Nat.eqb y.1 i)) l)) = length l.
Proof.
  induction l as [|[j u] l IH]; csimpl; [by intros _ ?%elem_of_nil|]. intros [Hj Hn]%NoDup_cons [[= <- <-]|H]%elem_of_cons.
  - rewrite Nat.eqb_refl. simpl. f_equal. f_equal. apply List.forallb_filter_id, forallb_elem. intros [a b] Ha. simpl.
    apply negb_true_iff, Nat.eqb_neq. intros ->. apply Hj. by apply (list_elem_of_fmap_2 fst) in Ha.
  - destruct (Nat.eqb_spec j i) as [->|]; [|simpl; by rewrite IH]. exfalso. apply Hj. by apply (list_elem_of_fmap_2 fst) in H.
Qed.
End Live.

(** ** Payloads taken in at once *)
Record IngestAdmission := mkAdmission { ia_active : Z; ia_leases : list (Lease unit) }.

Section Admission.
Context (maximum : Z).

(** The constructor throws on anything but a positive integer. *)
Definition new_admission : option IngestAdmission := if maximum <? 1 then None else Some (mkAdmission 0 []).

Definition acquire (_ : unit) (s : IngestAdmission) : option nat * IngestAdmission :=
  if maximum <=? ia_active s then (None, s)
  else (Some (length (ia_leases s)), mkAdmission (ia_active s + 1) (ia_leases s ++ [mkLease tt false])).

Definition release (i : nat) (s : IngestAdmission) : IngestAdmission :=
  match ia_leases s !! i with
  | Some l => if le_released l then s else mkAdmission (ia_active s - 1) (<[i := released l]> (ia_leases s))
  | None => s
  end.

Definition admission_live (s : IngestAdmission) : list (nat * unit) := live_leases (ia_leases s).
Definition admission_ok (s : IngestAdmission) : Prop := ia_active s = Z.of_nat (length (admission_live s)).
Definition admission_room (_ : unit) (ks : list unit) : bool := Z.of_nat (length ks) <? maximum.

#[export] Instance admission_pool : LeasePool acquire release admission_ok admission_live admission_room.
Proof.
  split.
  - intros s _. apply live_from_NoDup.
  - intros u s Hs. unfold acquire, admission_room. rewrite length_fmap, <- Hs.
    destruct (Z.leb_spec maximum (ia_active s)); [split; [apply Z.ltb_ge; lia|done]|]. unfold admission_live, admission_ok. simpl.
    rewrite live_grant. destruct u. split_and!; [apply Z.ltb_lt; lia| |done|apply live_grant_fresh].
    unfold admission_live. simpl. rewrite live_grant, length_app, Hs. unfold admission_live. simpl. lia.
  - intros i s Hs. unfold release, admission_ok, admission_live in *. destruct (ia_leases s !! i) as [l|] eqn:E.
    + destruct (le_released l) eqn:El; simpl.
      * split; [done|]. symmetry. apply live_dead. intros x Hx. by simplify_eq.
      * rewrite (live_release _ _ _ E El). split; [|done]. rewrite Hs.
        pose proof (filter_one_length i (le_owner l) (live_leases (ia_leases s)) (live_from_NoDup _ _)) as H.
        rewrite <- H; [lia|]. apply live_from_lookup. split; [lia|]. rewrite Nat.sub_0_r, E. destruct l; simpl in *. by subst.
    + split; [done|]. symmetry. apply live_dead. intros x Hx. by simplify_eq.
Qed.
End Admission.

(** ** Open streams, per owner and per instance *)
Record StreamLimits := mkLimits { perOwner : Z; perInstance : Z }.
Definition DEFAULT_STREAM_LIMITS : StreamLimits := mkLimits 3 100.

Record StreamRegistry := mkRegistry {
  sr_perOwner : gmap string Z;
  sr_closers : list nat;
  sr_total : Z;
  sr_leases : list (Lease string)
}.
Definition createStreamRegistry : StreamRegistry := mkRegistry ∅ [] 0 [].

Section Registry.
Context (limits : StreamLimits).

Definition reserve (ownerHash : string) (s : StreamRegistry) : option nat * StreamRegistry :=
  let owned := default 0 (sr_perOwner s !! ownerHash) in
  if (perOwner limits <=? owned) || (perInstance limits <=? sr_total s) then (None, s)
  else (Some (length (sr_leases s)),
        mkRegistry (<[ownerHash := owned + 1]> (sr_perOwner s)) (sr_closers s) (sr_total s + 1)
          (sr_leases s ++ [mkLease ownerHash false])).

(** How to end the stream of lease [i], by its number. *)
Definition onClose (i : nat) (s : StreamRegistry) : StreamRegistry :=
  mkRegistry (sr_perOwner s) (if inb i (sr_closers s) then sr_closers s else sr_closers s ++ [i]) (sr_total s) (sr_leases s).

Definition release_stream (i : nat) (s : StreamRegistry) : StreamRegistry :=
  match sr_leases s !! i with
  | Some l =>
      if le_released l then s
      else
        let left_ := default 1 (sr_perOwner s !! le_owner l) - 1 in
        mkRegistry (if left_ <=? 0 then delete (le_owner l) (sr_perOwner s) else <[le_owner l := left_]> (sr_perOwner s))
          (List.filter (fun j => negb (Nat.eqb j i)) (sr_closers s)) (sr_total s - 1) (<[i := released l]> (sr_leases s))
  | None => s
  end.

(** Each closer ends its stream, which releases its lease. *)
Definition closeAll (s : StreamRegistry) : StreamRegistry := fold_left (fun s i => release_stream i s) (sr_closers s) s.

Definition registry_live (s : StreamRegistry) : list (nat * string) := live_leases (sr_leases s).
Definition owned_by (k : string) (ks : list string) : Z := Z.of_nat (length (List.filter (String.eqb k) ks)).
Record registry_ok (s : StreamRegistry) : Prop := {
  ro_total : sr_total s = Z.of_nat (length (registry_live s));
  ro_owner : forall k, sr_perOwner s !! k = let n := owned_by k (registry_live s).*2 in if n =? 0 then None else Some n
}.
Definition stream_room (k : string) (ks : list string) : bool :=
  (owned_by k ks <? perOwner limits) && (Z.of_nat (length ks) <? perInstance limits).

Lemma owned_app k ks ks' : owned_by k (ks ++ ks') = owned_by k ks + owned_by k ks'.
Proof. unfold owned_by. rewrite List.filter_app, length_app. lia. Qed.
Lemma owned_nonneg k ks : 0 <= owned_by k ks.
Proof. unfold owned_by. lia. Qed.
Lemma owned_one k k' : owned_by k [k'] = if k ==s k' then 1 else 0.
Proof. unfold owned_by. simpl. by destruct (k ==s k'). Qed.

Lemma owned_filter k i o (l : list (nat * string)) :
  NoDup l.*1 -> (i, o) ∈ l ->
  owned_by k (List.filter (fun y => negb (Nat.eqb y.1 i)) l).*2 = owned_by k l.*2 - if k ==s o then 1 else 0.
Proof.
  induction l as [|[j u] l IH]; [by intros _ ?%elem_of_nil|]. intros [Hj Hn]%NoDup_cons [[= <- <-]|H]%elem_of_cons.
  - change ((?a :: l).*2) with ([a.2] ++ l.*2). rewrite owned_app, owned_one. simpl. rewrite Nat.eqb_refl. simpl.
    rewrite List.forallb_filter_id; [lia|]. apply forallb_elem. intros [a b] Ha. simpl.
    apply negb_true_iff, Nat.eqb_neq. intros ->. apply Hj. by apply (list_elem_of_fmap_2 fst) in Ha.
  - assert (Hji : Nat.eqb j i = false).
    { apply Nat.eqb_neq. intros ->. apply Hj. by apply (list_elem_of_fmap_2 fst) in H. }
    cbn [List.filter fst]. rewrite Hji. cbn [negb]. rewrite !fmap_cons. change ((j, u).2 :: ?l) with ([u] ++ l).
    rewrite !owned_app, IH by done. lia.
Qed.

Lemma owner_count s k : registry_ok s -> default 0 (sr_perOwner s !! k) = owned_by k (registry_live s).*2.
Proof. intros Hs. rewrite (ro_owner _ Hs). simpl. destruct (Z.eqb_spec (owned_by k (registry_live s).*2) 0); simpl; congruence. Qed.

#[export] Instance registry_pool : LeasePool reserve release_stream registry_ok registry_live stream_room.
Proof.
  split.
  - intros s _. apply live_from_NoDup.
  - intros k s Hs. unfold reserve, stream_room. rewrite owner_count, length_fmap, <- (ro_total _ Hs) by done.
    set (n := owned_by k _). destruct (Z.leb_spec (perOwner limits) n), (Z.leb_spec (perInstance limits) (sr_total s)); simpl.
    1-3: split; [|done]; apply andb_false_iff; rewrite !Z.ltb_ge; lia.
    unfold registry_live. simpl. rewrite live_grant. split_and!; [apply andb_true_iff; rewrite !Z.ltb_lt; lia| |done|apply live_grant_fresh].
    split; unfold registry_live; simpl; rewrite live_grant.
    + rewrite length_app, (ro_total _ Hs). unfold registry_live. simpl. lia.
    + intros k'. rewrite fmap_app, owned_app. simpl. rewrite owned_one. pose proof (owned_nonneg k (registry_live s).*2).
      destruct (String.eqb_spec k' k) as [->|N].
      * rewrite lookup_insert_eq. unfold n, registry_live in *. destruct (Z.eqb_spec (owned_by k (live_leases (sr_leases s)).*2 + 1) 0); [lia|done].
      * rewrite lookup_insert_ne, Z.add_0_r by done. apply (ro_owner _ Hs).
  - intros i s Hs. unfold release_stream. destruct (sr_leases s !! i) as [l|] eqn:E; [destruct (le_released l) eqn:El|].
    1,3: split; [done|]; symmetry; apply live_dead; intros x Hx; by simplify_eq.
    assert (Hin : (i, le_owner l) ∈ registry_live s).
    { apply live_from_lookup. split; [lia|]. rewrite Nat.sub_0_r, E. destruct l; simpl in *. by subst. }
    unfold registry_live. simpl. rewrite (live_release _ _ _ E El). split; [|done].
    pose proof (filter_one_length i (le_owner l) _ (live_from_NoDup _ _) Hin) as Hlen.
    split; unfold registry_live; simpl; rewrite (live_release _ _ _ E El).
    + rewrite (ro_total _ Hs). unfold registry_live, live_leases in *. lia.
    + intros k. rewrite (owned_filter k i (le_owner l)) by (done || apply live_from_NoDup). fold (registry_live s).
      set (n := owned_by (le_owner l) (registry_live s).*2).
      assert (Hn : 0 < n).
      { unfold n, owned_by. assert (H : le_owner l ∈ List.filter (String.eqb (le_owner l)) (registry_live s).*2).
        { apply elem_of_listfilter. split; [by apply (list_elem_of_fmap_2 snd) in Hin|apply String.eqb_refl]. }
        apply list_elem_of_split in H as (l1 & l2 & ->). rewrite length_app. simpl. lia. }
      assert (Hown : sr_perOwner s !! le_owner l = Some n).
      { rewrite (ro_owner _ Hs). fold n. simpl. destruct (Z.eqb_spec n 0); [lia|done]. }
      rewrite Hown. simpl. destruct (String.eqb_spec k (le_owner l)) as [->|N]; fold n.
      * destruct (Z.leb_spec (n - 1) 0), (Z.eqb_spec (n - 1) 0); try lia; by rewrite ?lookup_delete_eq, ?lookup_insert_eq.
      * rewrite Z.sub_0_r. destruct (n - 1 <=? 0); rewrite ?lookup_delete_ne, ?lookup_insert_ne by done; apply (ro_owner _ Hs).
Qed.

(** *** Closing every stream *)
Lemma release_leases i j s x :
  sr_leases (release_stream i s) !! j = Some x ->
  exists y, sr_leases s !! j = Some y /\ (le_released y = true -> le_released x = true) /\ (i = j -> le_released x = true).
Proof.
  unfold release_stream. destruct (sr_leases s !! i) as [l|] eqn:E; [destruct (le_released l) eqn:El|]; simpl.
  - intros H. exists x. split_and!; [done|done|]. intros ->. by simplify_eq.
  - destruct (decide (i = j)) as [->|N].
    + rewrite list_lookup_insert_eq by (by eapply lookup_lt_Some). intros [= <-]. by exists l.
    + rewrite list_lookup_insert_ne by done. intros H. by exists x.
  - intros H. exists x. split_and!; [done|done|]. intros ->. by rewrite E in H.
Qed.

Lemma release_all_leases l j s x :
  sr_leases (fold_left (fun s i => release_stream i s) l s) !! j = Some x ->
  exists y, sr_leases s !! j = Some y /\ (le_released y = true -> le_released x = true) /\ (j ∈ l -> le_released x = true).
Proof.
  revert s. induction l as [|i l IH]; intros s; simpl.
  - intros H. exists x. split_and!; [done|done|by intros ?%elem_of_nil].
  - intros (y & Hy & H1 & H2)%IH. apply release_leases in Hy as (z & Hz & H3 & H4). exists z. split_and!; [done|auto|].
    intros [->|Hj]%elem_of_cons; auto.
Qed.

Lemma release_all_ok l s : registry_ok s -> registry_ok (fold_left (fun s i => release_stream i s) l s).
Proof using limits. revert s. induction l as [|i l IH]; intros s Hs; [done|]. simpl. apply IH. by apply (lp_release i s Hs). Qed.

Lemma created_ok : registry_ok createStreamRegistry.
Proof. by split. Qed.

Lemma closeAll_empties s :
  registry_ok s -> (forall j, j ∈ (registry_live s).*1 -> j ∈ sr_closers s) -> registry_live (closeAll s) = [].
Proof.
  intros Hs Hc. destruct (registry_live (closeAll s)) as [|[j k] l] eqn:E; [done|]. exfalso.
  assert (Hin : (j, k) ∈ registry_live (closeAll s)) by (rewrite E; left). apply live_from_lookup in Hin as [_ Hin].
  rewrite Nat.sub_0_r in Hin. apply release_all_leases in Hin as (y & Hy & H1 & H2). simpl in *.
  assert (Hr : le_released y = false) by by destruct (le_released y); [specialize (H1 eq_refl)|].
  assert (Hl : j ∈ (registry_live s).*1); [|by specialize (H2 (Hc j Hl))].
  apply (list_elem_of_fmap_2' fst _ (j, le_owner y)); [|done]. apply live_from_lookup. split; [lia|].
  rewrite Nat.sub_0_r, Hy. destruct y; simpl in *. by subst.
Qed.

(** However reservations and releases follow each other: an owner never has
    more streams open than [perOwner] and the instance never more than
    [perInstance]; a stream is refused exactly when the open ones leave no room;
    releasing a lease frees it, and releasing it again frees nothing; and once
    every open stream has registered how to end it, [closeAll] ends them all and
    leaves the counts at nothing. *)
Theorem streams_bounded (l : list (PoolOp (K := string))) k i :
  0 <= perOwner limits -> 0 <= perInstance limits ->
  let s := pool_run reserve release_stream createStreamRegistry l in
  (forall k', owned_by k' (registry_live s).*2 <= perOwner limits) /\ sr_total s = Z.of_nat (length (registry_live s)) /\
  sr_total s <= perInstance limits /\
  ((reserve k s).1 = None <-> owned_by k (registry_live s).*2 = perOwner limits \/ sr_total s = perInstance limits) /\
  (i ∉ (registry_live (release_stream i s)).*1 /\ registry_live (release_stream i (release_stream i s)) = registry_live (release_stream i s)) /\
  (forall s', registry_ok s' -> (forall j, j ∈ (registry_live s').*1 -> j ∈ sr_closers s') ->
     sr_total (closeAll s') = 0 /\ sr_perOwner (closeAll s') = ∅).
Proof.
  intros Hpo Hpi s. assert (Hs : registry_ok s) by (apply (pool_ok _ _ _ _ _ _ _ created_ok)).
  assert (Hinv : (fun ks => (forall k', owned_by k' ks <= perOwner limits) /\ Z.of_nat (length ks) <= perInstance limits) (registry_live s).*2).
  { apply (pool_invariant reserve release_stream registry_ok registry_live stream_room).
    - intros k0 ks [H1 H2] [Hr1%Z.ltb_lt Hr2%Z.ltb_lt]%andb_true_iff. split.
      + intros k'. rewrite owned_app, owned_one. specialize (H1 k'). destruct (String.eqb_spec k' k0) as [->|]; lia.
      + rewrite length_app. simpl. lia.
    - intros ks ks' Hsub [H1 H2]. split; [|apply sublist_length in Hsub; lia]. intros k'. specialize (H1 k').
      assert (Hle : owned_by k' ks' <= owned_by k' ks); [|lia]. unfold owned_by. clear -Hsub.
      induction Hsub as [|x l1 l2 _ IH|x l1 l2 _ IH]; simpl; [lia| |]; destruct (k' ==s x); simpl; lia.
    - apply created_ok.
    - done. }
  destruct Hinv as [Ho Ht]. rewrite length_fmap, <- (ro_total _ Hs) in Ht.
  split_and!; [done|apply Hs|done| | | |].
  - unfold reserve. rewrite owner_count by done. specialize (Ho k).
    destruct (Z.leb_spec (perOwner limits) (owned_by k (registry_live s).*2)), (Z.leb_spec (perInstance limits) (sr_total s)); simpl;
      split; intros; try done; lia.
  - rewrite (proj2 (lp_release i s Hs)). intros ((j & u) & -> & [_ H]%elem_of_listfilter)%list_elem_of_fmap.
    by rewrite Nat.eqb_refl in H.
  - by apply (release_again reserve release_stream registry_ok registry_live stream_room).
  - intros s' Hs' Hc. pose proof (closeAll_empties s' Hs' Hc) as He.
    pose proof (release_all_ok (sr_closers s') s' Hs') as Ha. fold (closeAll s') in Ha.
    split; [by rewrite (ro_total _ Ha), He|]. apply map_eq. intros k'. by rewrite (ro_owner _ Ha), He.
Qed.
End Registry.
