(* ===== verification/Sse.v ===== *)
(** * A build's event stream ([apps/gateway/src/sse.ts])

    One connection, polling snapshots of the database: what it writes, what it
    remembers of what it wrote, and how it ends. The timers and the socket are
    the ticks of a run; what a write does to the socket is a parameter. Log
    lines and response headers are left out, and an event is its content, not
    its text. *)
From stdpp Require Import gmap.
From S2P Require Import Prelude JsString Regex JsNumber Spec Db Chat Auth.
#[local] Open Scope string_scope.
#[local] Open Scope list_scope.
#[local] Open Scope Z_scope.

Record SseOptions := mkSse {
  pollMs : Z;
  heartbeatMs : Z;
  maxMs : Z;
  lookbackMs : Z;
  maxBufferedBytes : Z;
  drainTimeoutMs : Z
}.
Definition DEFAULT_SSE : SseOptions := mkSse 1000 15000 (10 * 60000) 5000 (1024 * 1024) 30000.

(** [created_at] is a [Date]: whole milliseconds. *)
Record ChatMessage := mkChat {
  cm_id : string;
  cm_role : Role;
  cm_text : string;
  cm_created_at : Z;
  cm_client_message_id : option string
}.
#[export] Instance ChatMessage_eq_dec : EqDecision ChatMessage.
Proof. solve_decision. Defined.

Definition toChatMessage (row : Message) : ChatMessage :=
  mkChat (m_id row) (m_role row) (m_text row) (m_createdAt row / 1000) (m_clientMessageId row).

(** ** The snapshot a poll reads ([chat-store.ts]) *)
Record EventBatch := mkBatch { eb_state : BuildState; eb_messages : list Message }.
Record StreamCredentials := mkCredentials { sc_sessionToken : option string; sc_anonHash : option string }.

(** The tables, and the clock of the transaction that reads them. *)
Record Snapshot := mkSnapshot { sn_db : AuthDb; sn_now : Z }.

Section Read.
Context (sha256 : string -> string) (secs_to_micros : num -> Z).

Definition owner_of (credentials : StreamCredentials) (d : Snapshot) : Owner :=
  mkOwner (sc_sessionToken credentials ≫= sessionTenantIn sha256 (sn_db d) (sn_now d)) (sc_anonHash credentials).

Definition readEventBatch (buildId : string) (credentials : StreamCredentials) (lookback : Z) (d : Snapshot)
    (after : option Cursor) : option EventBatch :=
  let owner := owner_of credentials d in
  match o_tenantId owner, o_anonHash owner with
  | None, None => None
  | _, _ =>
      (fun state => mkBatch state (messagesSince secs_to_micros (t_chat (sn_db d)) buildId owner after lookback)) <$>
        buildState (t_chat (sn_db d)) buildId owner
  end.
End Read.

(** ** What a stream writes and remembers *)
Inductive Frame :=
| Retry
| Ping
| BuildUpdated (state : BuildState) (id : option Cursor)
| MessageCreated (message : ChatMessage) (id : Cursor).

(** What [raw.write] says, and [raw.writableLength] after it. *)
Record Write := mkWrite { w_flushed : bool; w_buffered : Z }.

(** Where the loop of polls is: waiting for its timer, for a drain, for a
    snapshot, or over. *)
Inductive Phase := Waiting | Draining | Polling | Ended.

Record Stream := mkStream {
  st_phase : Phase;
  st_closed : bool;
  st_drainWait : bool;
  st_cursor : option Cursor;
  st_lastState : option BuildState;
  st_sent : gmap string Z;
  st_released : nat;
  st_out : list Frame
}.

Definition with_phase (p : Phase) (s : Stream) : Stream :=
  mkStream p (st_closed s) (st_drainWait s) (st_cursor s) (st_lastState s) (st_sent s) (st_released s) (st_out s).
Definition with_drainWait (b : bool) (s : Stream) : Stream :=
  mkStream (st_phase s) (st_closed s) b (st_cursor s) (st_lastState s) (st_sent s) (st_released s) (st_out s).
Definition with_lastState (x : BuildState) (s : Stream) : Stream :=
  mkStream (st_phase s) (st_closed s) (st_drainWait s) (st_cursor s) (Some x) (st_sent s) (st_released s) (st_out s).
Definition with_sent (m : gmap string Z) (c : option Cursor) (s : Stream) : Stream :=
  mkStream (st_phase s) (st_closed s) (st_drainWait s) c (st_lastState s) m (st_released s) (st_out s).
Definition written (f : Frame) (s : Stream) : Stream :=
  mkStream (st_phase s) (st_closed s) (st_drainWait s) (st_cursor s) (st_lastState s) (st_sent s) (st_released s)
    (st_out s ++ [f]).

(** Ends the stream and releases its lease, once. *)
Definition close (s : Stream) : Stream :=
  if st_closed s then s
  else mkStream (st_phase s) true false (st_cursor s) (st_lastState s) (st_sent s) (S (st_released s)) (st_out s).

Section Stream.
Context {Snap : Type} (read : Snap -> option Cursor -> option EventBatch).
Context (options : SseOptions) (resumeFrom : option Cursor) (net : nat -> Write).

Definition send (f : Frame) (s : Stream) : Stream :=
  if st_closed s then s
  else
    let w := net (length (st_out s)) in
    let s := written f s in
    let s := if w_flushed w then s else with_drainWait true s in
    if maxBufferedBytes options <? w_buffered w then close s else s.

(** The stream as its first poll finds it. *)
Definition opened : Stream :=
  send Retry (mkStream Waiting false false resumeFrom None ∅ 0 []).

(** ** One poll *)
Definition state_changed (s : Stream) (state : BuildState) : bool :=
  match st_lastState s with
  | None => true
  | Some last => negb (bool_decide (bs_status state = bs_status last)) ||
                 negb (bool_decide (bs_specVersion state = bs_specVersion last))
  end.
Definition announce (state : BuildState) (s : Stream) : Stream :=
  if state_changed s state then with_lastState state (send (BuildUpdated state (st_cursor s)) s) else s.

(** Not after the position the connection resumed from. *)
Definition resumed_past (position : Cursor) : bool :=
  match resumeFrom with Some r => compareCursors position r <=? 0 | None => false end.
Definition advance (cursor : option Cursor) (position : Cursor) : option Cursor :=
  match cursor with
  | Some c => if 0 <? compareCursors position c then Some position else cursor
  | None => Some position
  end.

Definition row_cursor (row : Message) : string := show_cursor (cursor_of row).
Definition deliver_row (row : Message) (s : Stream) : Stream :=
  match parseCursor (Some (row_cursor row)) with
  | None => s
  | Some position =>
      if bool_decide (is_Some (st_sent s !! m_id row)) || resumed_past position then s
      else
        let s := with_sent (<[m_id row := c_micros position]> (st_sent s)) (advance (st_cursor s) position) s in
        send (MessageCreated (toChatMessage row) position) s
  end.

(** Forgets the ids that have left the lookback window. *)
Definition forget (s : Stream) : Stream :=
  match st_cursor s with
  | Some c => with_sent (filter (fun kv => c_micros c - lookbackMs options * 2000 <= kv.2) (st_sent s)) (st_cursor s) s
  | None => s
  end.

Fixpoint deliver (rows : list Message) (s : Stream) : Stream :=
  match rows with
  | [] => forget s
  | row :: rows => if st_closed s then s else deliver rows (deliver_row row s)
  end.

Definition poll (batch : option EventBatch) (s : Stream) : Stream :=
  match batch with
  | None => close s
  | Some b => deliver (eb_messages b) (announce (eb_state b) s)
  end.

(** ** Runs *)

(** The poll timer with [raw.writableNeedDrain]; the end of a wait for a drain;
    the answer of a poll, [None] when it is rejected; the heartbeat timer; and
    the end of the stream from outside: [maxMs], the sockets, [closeAll]. *)
Inductive Tick :=
| Loop (needDrain : bool)
| Drained (timeout : bool)
| Batch (answer : option Snap)
| Beat (needDrain : bool)
| CloseNow.

Definition after_poll (s : Stream) : Stream := with_phase (if st_closed s then Ended else Waiting) s.

Definition tick (t : Tick) (s : Stream) : Stream :=
  match t, st_phase s with
  | Loop needDrain, Waiting =>
      if st_closed s then with_phase Ended s
      else if st_drainWait s && needDrain then with_phase Draining s
      else with_phase Polling (with_drainWait false s)
  | Drained timeout, Draining =>
      let s := with_drainWait false s in
      if st_closed s then with_phase Ended s
      else if timeout then with_phase Ended (close s)
      else with_phase Polling s
  | Batch answer, Polling =>
      after_poll (match answer with None => close s | Some d => poll (read d (st_cursor s)) s end)
  | Beat needDrain, _ => if needDrain then s else send Ping s
  | CloseNow, _ => close s
  | _, _ => s
  end.

(** The snapshots a tick reads. *)
Definition reads (t : Tick) (s : Stream) : list Snap :=
  match t, st_phase s with Batch (Some d), Polling => [d] | _, _ => [] end.

Definition run (l : list Tick) : Stream := fold_left (fun s t => tick t s) l opened.
Fixpoint reads_from (l : list Tick) (s : Stream) : list Snap :=
  match l with [] => [] | t :: l => reads t s ++ reads_from l (tick t s) end.
Definition polled (l : list Tick) : list Snap := reads_from l opened.

Definition messages_in (out : list Frame) : list ChatMessage :=
  flat_map (fun f => match f with MessageCreated m _ => [m] | _ => [] end) out.
Definition events_in (out : list Frame) : list Frame :=
  List.filter (fun f => match f with Retry | Ping => false | _ => true end) out.
End Stream.
Arguments Loop {Snap}.
Arguments Drained {Snap}.
Arguments Beat {Snap}.
Arguments CloseNow {Snap}.
