(* ===== verification/SseSpec.v ===== *)
(** * What an event stream promises

    [EventSource] is what a stream relies on its store for: batches of a log in
    order, with everything inside the lookback window. Against it, a stream
    delivers the log: every message once, none missing while it is open, however
    polls, writes, drains and closes fall. [chat_source] is the chat store's
    side. *)
From stdpp Require Import gmap.
From S2P Require Import Prelude JsString Regex JsNumber Spec Db Chat Auth Sse.
#[local] Open Scope string_scope.
#[local] Open Scope list_scope.
#[local] Open Scope Z_scope.

(** ** The interface between the store and its streams *)

(** Reads after the cursors of [known] are the log from [lookback] milliseconds
    before the cursor on, give or take [slack] microseconds. *)
Class EventSource {Snap : Type} (read : Snap -> option Cursor -> option EventBatch) (log : Snap -> list Message)
    (known : Cursor -> Prop) (lookback slack : Z) : Prop := {
  es_slack : 0 <= slack < lookback * 1000;
  es_rows d after b m : read d after = Some b -> m ∈ eb_messages b -> m ∈ log d;
  es_sorted d after b : read d after = Some b -> StronglySorted (le_of message_gt) (eb_messages b);
  es_all d b m : read d None = Some b -> m ∈ log d -> m ∈ eb_messages b;
  es_window d c b m :
    known c -> read d (Some c) = Some b -> m ∈ log d -> c_micros c - lookback * 1000 + slack < m_createdAt m ->
    m ∈ eb_messages b;
  es_old d c b m :
    known c -> read d (Some c) = Some b -> m ∈ eb_messages b -> c_micros c - lookback * 2000 <= m_createdAt m
}.

(** ** The chat store serves a build's transcript *)
Section Chat.
Context (sha256 : string -> string) (secs_to_micros : num -> Z).

Lemma owned_build_ok d id owner b : owned_build d id owner = Some b -> b ∈ t_builds d /\ b_id b = id /\ ownedBy owner b = true.
Proof. intros [Hb [E H]%andb_true_iff]%find_Some_elem. split; [done|]. split; [by apply String.eqb_eq|done]. Qed.

Lemma transcript_sorted d id : StronglySorted (le_of message_gt) (transcript_of d id).
Proof. eapply (js_sort_sorted _ (fun _ => True)); [apply message_order|]. by apply Forall_forall. Qed.

Lemma StronglySorted_listfilter {A} (R : A -> A -> Prop) (f : A -> bool) l :
  StronglySorted R l -> StronglySorted R (List.filter f l).
Proof.
  induction 1 as [|x l Hs IH Hx]; simpl; [constructor|]. destruct (f x); [|done]. constructor; [done|].
  rewrite Forall_forall in Hx |- *. intros y [Hy _]%elem_of_listfilter. by apply Hx.
Qed.

(** What the database makes of a cursor is [lookback] before it, give or take. *)
Definition window_near (lookback slack : Z) (c : Cursor) : Prop :=
  Z.abs (secs_to_micros (ndiv (of_Z (c_micros c - lookback * 1000)) (of_Z 1000000)) - (c_micros c - lookback * 1000)) <= slack.

(** What a snapshot shows of the build to the holder of the credentials. *)
Definition shown (buildId : string) (creds : StreamCredentials) (d : Snapshot) : list Message :=
  listMessages (t_chat (sn_db d)) buildId (owner_of sha256 creds d).

Lemma shown_sorted buildId creds d : StronglySorted (le_of message_gt) (shown buildId creds d).
Proof. unfold shown, listMessages. destruct (owned_build _ _ _); [apply transcript_sorted|constructor]. Qed.

Lemma shown_owned buildId creds d m : m ∈ shown buildId creds d ->
  m ∈ transcript_of (t_chat (sn_db d)) buildId /\
  exists b, b ∈ t_builds (t_chat (sn_db d)) /\ b_id b = buildId /\ ownedBy (owner_of sha256 creds d) b = true.
Proof.
  unfold shown, listMessages. destruct (owned_build _ _ _) as [b|] eqn:E; [|by intros ?%elem_of_nil].
  intros Hm. split; [done|]. exists b. by apply owned_build_ok.
Qed.

Lemma read_batch buildId creds lookback d after b :
  readEventBatch sha256 secs_to_micros buildId creds lookback d after = Some b ->
  eb_messages b = List.filter (fun m => match after with
      | None => true
      | Some c => secs_to_micros (ndiv (of_Z (c_micros c - lookback * 1000)) (of_Z 1000000)) <? m_createdAt m
      end) (shown buildId creds d).
Proof.
  unfold readEventBatch. intros H.
  destruct (buildState _ _ (owner_of sha256 creds d)) as [x|]; repeat case_match; by simplify_eq/=.
Qed.

#[export] Instance chat_source buildId creds lookback slack :
  0 <= slack < lookback * 1000 ->
  EventSource (readEventBatch sha256 secs_to_micros buildId creds lookback) (shown buildId creds)
    (window_near lookback slack) lookback slack.
Proof.
  intros Hs. split; [done|..].
  - intros d after b m ->%read_batch Hm. by apply elem_of_listfilter in Hm as [? _].
  - intros d after b ->%read_batch. apply StronglySorted_listfilter, shown_sorted.
  - intros d b m ->%read_batch Hm. by apply elem_of_listfilter.
  - intros d c b m Hc ->%read_batch Hm Hlt. apply elem_of_listfilter. split; [done|]. unfold window_near in Hc.
    apply Z.ltb_lt. lia.
  - intros d c b m Hc ->%read_batch [_ Hlt%Z.ltb_lt]%elem_of_listfilter. unfold window_near in Hc. lia.
Qed.
End Chat.

(** ** Cursors *)
Lemma compareCursors_micros a b : 0 < compareCursors a b -> c_micros b <= c_micros a.
Proof. unfold compareCursors. destruct (Z.eqb_spec (c_micros a) (c_micros b)); simpl; [lia|]. destruct (Z.ltb_spec (c_micros a) (c_micros b)); lia. Qed.

Lemma compareCursors_le_micros a b : compareCursors a b <= 0 -> c_micros a <= c_micros b.
Proof. unfold compareCursors. destruct (Z.eqb_spec (c_micros a) (c_micros b)); simpl; [lia|]. destruct (Z.ltb_spec (c_micros a) (c_micros b)); lia. Qed.

(** The cursor is at [p] or after it. *)
Definition reached (c : option Cursor) (micros : Z) : Prop := exists x, c = Some x /\ micros <= c_micros x.

Lemma advance_reached c p : reached (advance c p) (c_micros p).
Proof.
  unfold advance. destruct c as [c|]; [|by exists p; split].
  destruct (0 <? compareCursors p c) eqn:E; [by exists p; split|].
  exists c. split; [done|]. apply Z.ltb_ge in E. by apply compareCursors_le_micros.
Qed.

Lemma advance_mono c p z : reached c z -> reached (advance c p) z.
Proof.
  intros (x & -> & Hz). simpl. destruct (0 <? compareCursors p x) eqn:E; [|by exists x].
  exists p. split; [done|]. apply Z.ltb_lt, compareCursors_micros in E. lia.
Qed.

(** Before everything the window of [c] still covers. *)
Definition left_behind (lookback : Z) (c : option Cursor) (micros : Z) : Prop :=
  exists x, c = Some x /\ micros < c_micros x - lookback * 2000.

(** ** Delivery *)
Section Delivery.
Context {Snap : Type} (read : Snap -> option Cursor -> option EventBatch) (log : Snap -> list Message)
  (known : Cursor -> Prop) (options : SseOptions) (slack : Z) (resumeFrom : option Cursor) (net : nat -> Write).
Context `{Hsrc : !EventSource read log known (lookbackMs options) slack}.

(** A message of the log past the position the connection resumed from. *)
Definition past_resume (m : Message) : Prop := resumed_past resumeFrom (cursor_of m) = false.

(** Rows do not change; their cursors read back and are ones the store knows. *)
Record stored (ds : list Snap) : Prop := {
  sd_same : forall d1 d2 m1 m2, d1 ∈ ds -> d2 ∈ ds -> m1 ∈ log d1 -> m2 ∈ log d2 -> m_id m1 = m_id m2 -> m1 = m2;
  sd_cursor : forall d m, d ∈ ds -> m ∈ log d -> cursor_ok (cursor_of m) /\ known (cursor_of m);
  sd_resume : forall r, resumeFrom = Some r -> known r
}.

(** What becomes visible after a snapshot was read is not further back than the
    window. *)
Definition timely (ds : list Snap) : Prop :=
  forall pre d post d0 m, ds = pre ++ d :: post -> d0 ∈ pre -> m ∈ log d ->
    m ∈ log d0 \/ forall m0, m0 ∈ log d0 -> m_createdAt m0 - lookbackMs options * 1000 + slack < m_createdAt m.

Definition seen (ds : list Snap) (m : Message) : Prop := exists d, d ∈ ds /\ m ∈ log d.
Definition out_ids (s : Stream) : list string := cm_id <$> messages_in (st_out s).

Record delivering (ds : list Snap) (c0 : option Cursor) (s : Stream) : Prop := {
  de_once : NoDup (out_ids s);
  de_from : forall x, x ∈ messages_in (st_out s) ->
    exists m, seen ds m /\ x = toChatMessage m /\ past_resume m /\ reached (st_cursor s) (m_createdAt m);
  de_sent : forall id z, st_sent s !! id = Some z -> exists m, seen ds m /\ m_id m = id /\ m_createdAt m = z /\ id ∈ out_ids s;
  de_kept : forall m, seen ds m -> m_id m ∈ out_ids s ->
    is_Some (st_sent s !! m_id m) \/ left_behind (lookbackMs options) c0 (m_createdAt m);
  de_cursor : st_cursor s = resumeFrom \/
    exists m, seen ds m /\ m_id m ∈ out_ids s /\ st_cursor s = Some (cursor_of m);
  de_resume : forall r, resumeFrom = Some r -> reached (st_cursor s) (c_micros r);
  de_first : (exists st, head (events_in (st_out s)) = Some (BuildUpdated st resumeFrom)) \/
    (events_in (st_out s) = [] /\ (st_lastState s = None \/ st_closed s = true))
}.

(** Everything read so far was delivered. *)
Definition complete (ds : list Snap) (s : Stream) : Prop :=
  st_closed s = false -> forall m, seen ds m -> past_resume m -> m_id m ∈ out_ids s.
Definition inv (ds : list Snap) (s : Stream) : Prop := delivering ds (st_cursor s) s /\ complete ds s.

(** *** Steps that write no event *)
Record quiet (s s' : Stream) : Prop := {
  q_cursor : st_cursor s' = st_cursor s;
  q_sent : st_sent s' = st_sent s;
  q_last : st_lastState s' = st_lastState s;
  q_messages : messages_in (st_out s') = messages_in (st_out s);
  q_events : events_in (st_out s') = events_in (st_out s);
  q_closed : st_closed s = true -> st_closed s' = true
}.

Lemma quiet_refl s : quiet s s.
Proof using. by split. Qed.
Lemma quiet_trans s1 s2 s3 : quiet s1 s2 -> quiet s2 s3 -> quiet s1 s3.
Proof using. intros [] []. split; try congruence. auto. Qed.

Lemma delivering_quiet ds c0 s s' : quiet s s' -> delivering ds c0 s -> delivering ds c0 s'.
Proof using.
  intros [Hc Hs Hl Hm He Hcl] []. unfold out_ids in *.
  split; unfold out_ids; rewrite ?Hc, ?Hs, ?Hl, ?Hm, ?He; try done. destruct de_first0 as [|[? [?|?]]]; auto.
Qed.

Lemma inv_quiet ds s s' : quiet s s' -> inv ds s -> inv ds s'.
Proof using.
  intros Hq [Hd Hc]. split; [rewrite (q_cursor _ _ Hq); by eapply delivering_quiet|]. intros Hcl m Hm Hp.
  unfold out_ids. rewrite (q_messages _ _ Hq). apply Hc; try done.
  destruct (st_closed s) eqn:E; [|done]. by rewrite (q_closed _ _ Hq E) in Hcl.
Qed.

Lemma quiet_close s : quiet s (close s).
Proof using. unfold close. destruct (st_closed s) eqn:E; by split. Qed.
Lemma quiet_phase p s : quiet s (with_phase p s).
Proof using. by split. Qed.
Lemma quiet_drain b s : quiet s (with_drainWait b s).
Proof using. by split. Qed.

Lemma send_open f s : st_closed s = false -> quiet (written f s) (send options net f s).
Proof using.
  intros Ho. unfold send. rewrite Ho. set (s' := if w_flushed _ then _ else _).
  assert (Hq : quiet (written f s) s') by (unfold s'; destruct (w_flushed _); [apply quiet_refl|apply quiet_drain]).
  destruct (_ <? _); [|done]. eapply quiet_trans; [exact Hq|apply quiet_close].
Qed.
Lemma send_closed f s : st_closed s = true -> send options net f s = s.
Proof using. intros H. unfold send. by rewrite H. Qed.

Lemma quiet_ping s : quiet s (send options net Ping s).
Proof using.
  destruct (st_closed s) eqn:E; [rewrite send_closed by done; apply quiet_refl|].
  eapply quiet_trans; [|by apply send_open]. split; simpl; try done.
  - unfold messages_in. rewrite flat_map_app. simpl. by rewrite app_nil_r.
  - unfold events_in. rewrite List.filter_app. simpl. by rewrite app_nil_r.
Qed.

(** *** One event *)
Lemma messages_snoc out f : messages_in (out ++ [f]) = messages_in out ++ messages_in [f].
Proof using. apply flat_map_app. Qed.
Lemma events_snoc out f : events_in (out ++ [f]) = events_in out ++ events_in [f].
Proof using. apply List.filter_app. Qed.

Lemma messages_of_events out : events_in out = [] -> messages_in out = [].
Proof using. induction out as [|[]]; simpl; auto; done. Qed.
(** Until something is written the cursor is where the connection resumed. *)
Lemma unheard_cursor ds c0 s : delivering ds c0 s -> events_in (st_out s) = [] -> st_cursor s = resumeFrom.
Proof using.
  intros Hd He. destruct (de_cursor _ _ _ Hd) as [|(m & _ & Hm & _)]; [done|].
  unfold out_ids in Hm. rewrite (messages_of_events _ He) in Hm. by apply elem_of_nil in Hm.
Qed.

Lemma announce_ok ds c0 x s :
  delivering ds c0 s ->
  delivering ds c0 (announce options net x s) /\ st_lastState (announce options net x s) <> None /\
  st_cursor (announce options net x s) = st_cursor s /\ out_ids (announce options net x s) = out_ids s /\
  (st_closed s = true -> st_closed (announce options net x s) = true).
Proof using.
  intros Hd. unfold announce. destruct (state_changed s x) eqn:Es.
  2: { split_and!; try done. unfold state_changed in Es. by destruct (st_lastState s). }
  destruct (st_closed s) eqn:E.
  { rewrite send_closed by done. split_and!; try done. destruct Hd. split; try done. simpl. rewrite E.
    destruct de_first0 as [|[? _]]; auto. }
  pose proof (send_open (BuildUpdated x (st_cursor s)) s E) as [Hc Hs Hl Hm He Hcl].
  set (s' := send _ _ _ _) in *. simpl in Hc, Hs, Hl, Hm, He. rewrite messages_snoc in Hm. rewrite events_snoc in He.
  simpl in Hm, He. rewrite app_nil_r in Hm.
  split_and!; try done; [|unfold out_ids; simpl; by rewrite Hm].
  pose proof (unheard_cursor _ _ _ Hd) as Hcur. destruct Hd. split; unfold out_ids in *; simpl; rewrite ?Hc, ?Hs, ?Hm, ?He; try done. left.
  destruct de_first0 as [(? & ?)|[Hev _]]; [|rewrite (Hcur Hev), Hev; by eexists].
  destruct (events_in (st_out s)); simplify_eq/=. by eexists.
Qed.

Lemma deliver_row_ok ds c0 m s :
  stored ds -> seen ds m -> st_closed s = false -> st_lastState s <> None ->
  (forall c, c0 = Some c -> c_micros c - lookbackMs options * 2000 <= m_createdAt m) ->
  delivering ds c0 s ->
  let s' := deliver_row options resumeFrom net m s in
  delivering ds c0 s' /\ (past_resume m -> m_id m ∈ out_ids s') /\ out_ids s ⊆ out_ids s' /\
  st_lastState s' = st_lastState s /\ (forall z, reached (st_cursor s) z -> reached (st_cursor s') z).
Proof using.
  clear Hsrc slack read. intros Hst Hm Hopen Hl Hold Hd. destruct Hm as (d & Hd' & Hm). destruct (sd_cursor _ Hst d m Hd' Hm) as [Hok _].
  unfold deliver_row, row_cursor. rewrite parse_show_cursor by done. cbn zeta.
  case_bool_decide as Hin; simpl.
  { split_and!; try done. intros _. destruct Hin as [z Hz]. by destruct (de_sent _ _ _ Hd _ _ Hz) as (? & _ & _ & _ & ?). }
  destruct (resumed_past resumeFrom (cursor_of m)) eqn:Er.
  { split_and!; try done. unfold past_resume. by rewrite Er. }
  set (s1 := with_sent _ _ s).
  pose proof (send_open (MessageCreated (toChatMessage m) (cursor_of m)) s1 Hopen) as [Hc Hs Hla Hms He Hcl].
  set (s2 := send _ _ _ _) in *. simpl in Hc, Hs, Hla, Hms, He. rewrite messages_snoc in Hms. rewrite events_snoc in He. simpl in Hms, He.
  assert (Hnew : m_id m ∉ out_ids s).
  { intros Ho. destruct (de_kept _ _ _ Hd m) as [|(c & -> & Hlt)]; [by exists d|done|done|]. specialize (Hold c eq_refl). lia. }
  assert (Hids : out_ids s2 = out_ids s ++ [m_id m]) by (unfold out_ids; by rewrite Hms, fmap_app).
  assert (Hseen : seen ds m) by by exists d.
  split_and!; [|intros _; rewrite Hids; set_solver|rewrite Hids; set_solver|done|intros z; rewrite Hc; apply advance_mono].
  destruct Hd. split; rewrite ?Hids, ?Hms, ?He, ?Hc, ?Hs.
  - apply NoDup_app. split_and!; [done| |apply NoDup_singleton]. by intros x Hx ->%list_elem_of_singleton.
  - intros x [Hx| ->%list_elem_of_singleton]%elem_of_app.
    + destruct (de_from0 x Hx) as (m0 & ? & ? & ? & ?). exists m0. split_and!; try done. by apply advance_mono.
    + exists m. split_and!; try done. apply (advance_reached _ (cursor_of m)).
  - intros id z [[<- <-]|[_ Hz]]%lookup_insert_Some; [exists m; set_solver|].
    destruct (de_sent0 _ _ Hz) as (m0 & ? & ? & ? & ?). exists m0. set_solver.
  - intros m0 Hm0 [Ho|Ho%list_elem_of_singleton]%elem_of_app.
    + destruct (de_kept0 _ Hm0 Ho) as [Hs0|]; [left|by right]. apply lookup_insert_is_Some'. by right.
    + left. rewrite Ho. rewrite lookup_insert_eq. by eexists.
  - unfold advance at 2. destruct (st_cursor s) as [c|] eqn:Ec; simpl; [|right; exists m; set_solver].
    destruct (0 <? _) eqn:Elt; [right; exists m; set_solver|].
    destruct de_cursor0 as [E|(m0 & ? & ? & E)]; [by left|right; exists m0; set_solver].
  - intros r Hr. apply advance_mono. by apply de_resume0.
  - left. destruct de_first0 as [(st & ?)|[_ [?|?]]]; [|done|by rewrite Hopen in *].
    destruct (events_in (st_out s)); simplify_eq/=. by eexists.
Qed.

(** *** One poll *)
Lemma left_behind_mono c0 c z :
  (forall x, c0 = Some x -> reached c (c_micros x)) -> left_behind (lookbackMs options) c0 z ->
  left_behind (lookbackMs options) c z.
Proof using. intros Hc (x & -> & Hz). destruct (Hc x eq_refl) as (y & -> & Hy). exists y. split; [done|lia]. Qed.

Lemma delivering_later ds c0 s :
  (forall x, c0 = Some x -> reached (st_cursor s) (c_micros x)) -> delivering ds c0 s -> delivering ds (st_cursor s) s.
Proof using.
  intros Hc []. split; try done. intros m Hm Ho. destruct (de_kept0 _ Hm Ho) as [|]; [by left|right].
  by apply (left_behind_mono c0).
Qed.

Lemma seen_same ds m1 m2 : stored ds -> seen ds m1 -> seen ds m2 -> m_id m1 = m_id m2 -> m1 = m2.
Proof using. intros Hst (d1 & ? & ?) (d2 & ? & ?) E. by eapply (sd_same _ Hst d1 d2). Qed.

Lemma forget_ok ds s :
  stored ds -> delivering ds (st_cursor s) s -> delivering ds (st_cursor (forget options s)) (forget options s).
Proof using.
  intros Hst Hd. unfold forget. destruct (st_cursor s) as [c|] eqn:Ec; simpl; [|by rewrite Ec]. destruct Hd.
  split; unfold out_ids in *; simpl; rewrite ?Ec in *; try done.
  - intros id z [Hz _]%map_lookup_filter_Some. by apply de_sent0.
  - intros m Hm Ho. destruct (de_kept0 _ Hm Ho) as [[z Hz]|]; [|by right].
    destruct (de_sent0 _ _ Hz) as (m0 & Hm0 & Hid & <- & _). apply (seen_same ds) in Hid as ->; [|done..].
    destruct (Z.leb_spec (c_micros c - lookbackMs options * 2000) (m_createdAt m)); [left|right; exists c; split; [done|lia]].
    exists (m_createdAt m). by apply map_lookup_filter_Some.
Qed.

Lemma deliver_ok ds c0 rows s :
  stored ds -> (forall m, m ∈ rows -> seen ds m) -> st_lastState s <> None ->
  (forall m c, m ∈ rows -> c0 = Some c -> c_micros c - lookbackMs options * 2000 <= m_createdAt m) ->
  (forall x, c0 = Some x -> reached (st_cursor s) (c_micros x)) ->
  delivering ds c0 s ->
  let s' := deliver options resumeFrom net rows s in
  delivering ds (st_cursor s') s' /\ out_ids s ⊆ out_ids s' /\ (st_closed s = true -> st_closed s' = true) /\
  (st_closed s' = false -> forall m, m ∈ rows -> past_resume m -> m_id m ∈ out_ids s').
Proof using.
  clear Hsrc slack read. intros Hst. revert s. induction rows as [|m rows IH]; intros s Hseen Hl Hold Hc Hd; simpl.
  - apply (delivering_later ds c0) in Hd; [|done].
    split_and!; [by apply forget_ok|unfold forget; by destruct (st_cursor s)..|by intros _ ? ?%elem_of_nil].
  - destruct (st_closed s) eqn:E.
    { apply (delivering_later ds c0) in Hd; [|done]. split_and!; try done. by rewrite E. }
    destruct (deliver_row_ok ds c0 m s) as (Hd1 & Hp & Hsub & Hl1 & Hr); try done; [set_solver|set_solver|].
    destruct (IH (deliver_row options resumeFrom net m s)) as (Hd2 & Hsub2 & _ & Hall); try done.
    { intros ? ?. apply Hseen. by right. }
    { by rewrite Hl1. }
    { intros ? ? ?. apply Hold. by right. }
    { intros x Hx. by apply Hr, Hc. }
    split_and!; try done; [by etrans|]. intros Ho m0 [->|Hm0]%elem_of_cons Hpast; [by apply Hsub2, Hp|by apply Hall].
Qed.

Lemma delivering_more ds ds' c0 s : stored ds' -> ds ⊆ ds' -> delivering ds c0 s -> delivering ds' c0 s.
Proof using.
  intros Hst Hsub []. assert (Hmono : forall m, seen ds m -> seen ds' m) by (intros m (d & ? & ?); exists d; split; [by apply Hsub|done]).
  split; try done.
  - intros x Hx. destruct (de_from0 x Hx) as (m & ? & ?). exists m. split; [by apply Hmono|done].
  - intros id z Hz. destruct (de_sent0 id z Hz) as (m & ? & ?). exists m. split; [by apply Hmono|done].
  - intros m Hm Ho. apply de_kept0; [|done]. apply list_elem_of_fmap in Ho as (x & Hid & Hx).
    destruct (de_from0 x Hx) as (m0 & Hm0 & -> & _). simpl in Hid.
    by rewrite (seen_same ds' m m0) by auto.
  - destruct de_cursor0 as [|(m & ? & ?)]; [by left|right; exists m; split; [by apply Hmono|done]].
Qed.

Lemma seen_snoc ds d m : seen (ds ++ [d]) m <-> seen ds m \/ m ∈ log d.
Proof using.
  unfold seen. setoid_rewrite elem_of_app. setoid_rewrite list_elem_of_singleton. split.
  - intros (d' & [?| ->] & ?); [left; by exists d'|by right].
  - intros [(d' & ? & ?)|?]; [exists d'; auto|exists d; auto].
Qed.

(** What a batch leaves out was delivered before. *)
Lemma batch_covers ds d b s m :
  stored (ds ++ [d]) -> timely (ds ++ [d]) -> inv ds s -> st_closed s = false -> read d (st_cursor s) = Some b ->
  m ∈ log d -> past_resume m -> m ∈ eb_messages b \/ m_id m ∈ out_ids s.
Proof using Hsrc.
  intros Hst Ht [Hd Hcomp] Ho Hr Hm Hp. pose proof es_slack as Hsl. destruct (st_cursor s) as [c|] eqn:Ec.
  2: { left. by eapply es_all. }
  destruct (de_cursor _ _ _ Hd) as [E|(m0 & (d0 & Hd0 & Hm0) & _ & E)]; rewrite Ec in E.
  - left. eapply es_window; [by eapply sd_resume|done|done|]. unfold past_resume, resumed_past in Hp. rewrite <- E in Hp.
    apply Z.leb_gt, compareCursors_micros in Hp. simpl in Hp. lia.
  - destruct (Ht ds d [] d0 m) as [H|H]; try done.
    + right. apply Hcomp; [done|by exists d0|done].
    + left. injection E as ->. eapply es_window; [by eapply (sd_cursor _ Hst d0); [set_solver|]|done|done|].
      simpl. by apply H.
Qed.

Lemma poll_ok ds d s :
  stored (ds ++ [d]) -> timely (ds ++ [d]) -> inv ds s ->
  inv (ds ++ [d]) (poll options resumeFrom net (read d (st_cursor s)) s).
Proof using Hsrc.
  intros Hst Ht Hinv. pose proof Hinv as [Hd Hcomp].
  assert (Hd' : delivering (ds ++ [d]) (st_cursor s) s) by (apply (delivering_more ds); [done|set_solver|done]).
  destruct (read d (st_cursor s)) as [b|] eqn:Hr; simpl.
  2: { split; [rewrite (q_cursor _ _ (quiet_close s)); by eapply delivering_quiet; [apply quiet_close|]|].
       intros Hcl. unfold close in Hcl. by destruct (st_closed s) eqn:E; [rewrite E in Hcl|]. }
  destruct (announce_ok _ _ (eb_state b) _ Hd') as (Hd1 & Hl & Hc1 & Hids & Hcl1).
  set (s1 := announce _ _ _ _) in *.
  destruct (deliver_ok (ds ++ [d]) (st_cursor s) (eb_messages b) s1) as (Hd2 & Hsub & Hcl2 & Hall); try done.
  - intros m Hm. apply seen_snoc. right. by eapply es_rows.
  - intros m c Hm Hc. rewrite Hc in Hr. eapply es_old; [|done|done].
    destruct (de_cursor _ _ _ Hd) as [E|(m0 & (d0 & Hd0 & Hm0) & _ & E)]; rewrite Hc in E.
    + by eapply sd_resume.
    + injection E as ->. eapply (sd_cursor _ Hst d0); [set_solver|done].
  - intros x Hx. rewrite Hc1, Hx. by exists x.
  - split; [done|]. intros Ho m Hm Hp.
    assert (Hopen : st_closed s = false).
    { destruct (st_closed s) eqn:E; [|done]. by rewrite (Hcl2 (Hcl1 eq_refl)) in Ho. }
    assert (Hcov : m ∈ eb_messages b \/ m_id m ∈ out_ids s).
    { apply seen_snoc in Hm as [Hm|Hm]; [right; by apply Hcomp|by eapply batch_covers]. }
    destruct Hcov as [Hb|Hb]; [by apply Hall|apply Hsub; by rewrite Hids].
Qed.

(** *** Every run *)
Lemma tick_quiet t s : reads t s = [] -> quiet s (tick read options resumeFrom net t s).
Proof using.
  unfold reads, tick, after_poll. intros H.
  destruct t as [need|timeout|[d|]|need|], (st_phase s); simplify_eq; try apply quiet_refl; try apply quiet_close;
    repeat case_match; try apply quiet_refl; try apply quiet_phase; try apply quiet_ping;
    (eapply quiet_trans; [|apply quiet_phase]); try apply quiet_close; try apply quiet_drain;
    (eapply quiet_trans; [apply quiet_drain|]); try apply quiet_refl; apply quiet_close.
Qed.

Lemma tick_ok ds t s :
  stored (ds ++ reads t s) -> timely (ds ++ reads t s) -> inv ds s ->
  inv (ds ++ reads t s) (tick read options resumeFrom net t s).
Proof using Hsrc.
  intros Hst Ht Hi. destruct (reads t s) as [|d l] eqn:E.
  { rewrite app_nil_r. eapply inv_quiet; [by apply tick_quiet|done]. }
  unfold reads in E. destruct t as [| |[d'|]| |]; try done. destruct (st_phase s) eqn:Ep; simplify_eq/=. rewrite Ep. 
  unfold after_poll. eapply inv_quiet; [apply quiet_phase|]. by apply poll_ok.
Qed.

Lemma stored_sub ds ds' : ds ⊆ ds' -> stored ds' -> stored ds.
Proof using. intros Hs []. split; [|intros d m ?; apply sd_cursor0; by apply Hs|done]. intros d1 d2 m1 m2 ? ?. apply sd_same0; by apply Hs. Qed.

Lemma timely_prefix ds ds' : timely (ds ++ ds') -> timely ds.
Proof using. intros Ht pre d post d0 m -> Hd0 Hm. eapply (Ht pre d (post ++ ds')); [|done..]. by rewrite <- app_assoc. Qed.

Lemma run_ok l ds s :
  stored (ds ++ reads_from read options resumeFrom net l s) -> timely (ds ++ reads_from read options resumeFrom net l s) ->
  inv ds s ->
  inv (ds ++ reads_from read options resumeFrom net l s) (fold_left (fun s t => tick read options resumeFrom net t s) l s).
Proof using Hsrc.
  revert ds s. induction l as [|t l IH]; intros ds s; simpl; [by rewrite app_nil_r|].
  rewrite app_assoc. intros Hst Ht Hi. apply IH; try done. apply tick_ok; [|by eapply timely_prefix|done].
  eapply stored_sub; [|exact Hst]. set_solver.
Qed.

Lemma opened_inv : inv [] (opened options resumeFrom net).
Proof using.
  unfold opened. set (s0 := mkStream _ _ _ _ _ _ _ _).
  assert (Hq : quiet (written Retry s0) (send options net Retry s0)) by by apply send_open.
  eapply inv_quiet; [exact Hq|]. split; [split|]; unfold out_ids; simpl; try done.
  - constructor.
  - by intros x ?%elem_of_nil.
  - intros m (? & []%elem_of_nil & _).
  - by left.
  - intros r ->. by exists r.
  - right. split; [done|by left].
  - intros _ m (? & []%elem_of_nil & _).
Qed.
End Delivery.

(** ** What a stream says of the build's state *)

(** The states worth an event: the first, and each that differs from the one
    announced before it in its status or its spec. *)
Definition moved (last : option BuildState) (x : BuildState) : bool :=
  match last with
  | None => true
  | Some y => negb (bool_decide (bs_status x = bs_status y)) || negb (bool_decide (bs_specVersion x = bs_specVersion y))
  end.
Fixpoint changes (last : option BuildState) (l : list BuildState) : list BuildState :=
  match l with
  | [] => []
  | x :: l => if moved last x then x :: changes (Some x) l else changes last l
  end.
Definition states_in (out : list Frame) : list BuildState :=
  flat_map (fun f => match f with BuildUpdated st _ => [st] | _ => [] end) out.

Lemma changes_app last l l' : changes last l `prefix_of` changes last (l ++ l').
Proof. revert last. induction l as [|x l IH]; intros last; simpl; [apply prefix_nil|]. destruct (moved _ _); [by apply prefix_cons|done]. Qed.
Lemma states_of_events out : states_in (events_in out) = states_in out.
Proof. induction out as [|[]]; simpl; congruence. Qed.
Lemma states_snoc out f : states_in (out ++ [f]) = states_in out ++ states_in [f].
Proof. apply flat_map_app. Qed.

Section States.
Context {Snap : Type} (read : Snap -> option Cursor -> option EventBatch) (standing : Snap -> option BuildState)
  (options : SseOptions) (resumeFrom : option Cursor) (net : nat -> Write).
Hypothesis Hstanding : forall d after, eb_state <$> read d after = standing d.

(** Nothing is said of the state. *)
Record unsaid (s s' : Stream) : Prop := {
  un_states : states_in (st_out s') = states_in (st_out s);
  un_last : st_lastState s' = st_lastState s;
  un_closed : st_closed s = true -> st_closed s' = true
}.
Lemma unsaid_trans s1 s2 s3 : unsaid s1 s2 -> unsaid s2 s3 -> unsaid s1 s3.
Proof. intros [] []. split; try congruence. auto. Qed.
Lemma quiet_unsaid s s' : quiet s s' -> unsaid s s'.
Proof. intros [_ _ Hl _ He Hc]. split; [by rewrite <- (states_of_events (st_out s)), <- (states_of_events (st_out s')), He|done|done]. Qed.

Lemma send_unsaid f s : states_in [f] = [] -> unsaid s (send options net f s).
Proof.
  intros Hf. destruct (st_closed s) eqn:E; [by rewrite send_closed|].
  eapply unsaid_trans; [|apply quiet_unsaid; by apply send_open]. split; simpl; [by rewrite states_snoc, Hf, app_nil_r|done..].
Qed.
Lemma deliver_unsaid rows s : unsaid s (deliver options resumeFrom net rows s).
Proof.
  revert s. induction rows as [|m rows IH]; intros s; simpl; [unfold forget; by destruct (st_cursor s)|].
  destruct (st_closed s) eqn:E; [done|]. eapply unsaid_trans; [|apply IH]. unfold deliver_row.
  destruct (parseCursor _) as [position|]; [|done]. destruct (_ || _); [done|].
  eapply unsaid_trans; [|by apply send_unsaid]. by split.
Qed.

(** What was said is the changes of the states read, all of them while it is open. *)
Record told (l : list BuildState) (s : Stream) : Prop := {
  to_prefix : states_in (st_out s) `prefix_of` changes None l;
  to_open : st_closed s = false -> forall l', changes None (l ++ l') = states_in (st_out s) ++ changes (st_lastState s) l'
}.
Lemma told_unsaid l s s' : unsaid s s' -> told l s -> told l s'.
Proof.
  intros [Hs Hl Hc] [Hp Ho]. split; [by rewrite Hs|]. intros Hcl l'. rewrite Hs, Hl. apply Ho.
  destruct (st_closed s) eqn:E; [|done]. by rewrite Hc in Hcl.
Qed.
Lemma announce_told l x s : told l s -> told (l ++ [x]) (announce options net x s).
Proof.
  intros [Hp Ho]. assert (Hp' : states_in (st_out s) `prefix_of` changes None (l ++ [x])) by (etrans; [exact Hp|apply changes_app]).
  unfold announce. change (state_changed s x) with (moved (st_lastState s) x).
  destruct (st_closed s) eqn:E.
  { destruct (moved _ _); [rewrite send_closed by done|]; (split; [done|]); simpl; by rewrite E. }
  specialize (Ho eq_refl). assert (Hnext : forall l', changes None ((l ++ [x]) ++ l') =
    states_in (st_out s) ++ (if moved (st_lastState s) x then x :: changes (Some x) l' else changes (st_lastState s) l'))
    by (intros l'; rewrite <- app_assoc; apply Ho).
  destruct (moved (st_lastState s) x) eqn:Em; [|by split].
  destruct (quiet_unsaid _ _ (send_open options net (BuildUpdated x (st_cursor s)) s E)) as [Hs _ _]. simpl in Hs. rewrite states_snoc in Hs.
  split; simpl; rewrite Hs.
  - pose proof (Hnext []) as Hn. rewrite app_nil_r in Hn. by rewrite Hn.
  - intros _ l'. by rewrite Hnext, <- app_assoc.
Qed.

Lemma tick_told l t s : told l s -> told (l ++ omap standing (reads t s)) (tick read options resumeFrom net t s).
Proof using Hstanding.
  intros Ht. destruct (reads t s) as [|d rest] eqn:E.
  { rewrite app_nil_r. eapply told_unsaid; [apply quiet_unsaid; by apply tick_quiet|done]. }
  unfold reads in E. destruct t as [| |[d'|]| |]; try done. destruct (st_phase s) eqn:Ep; simplify_eq/=. rewrite Ep. unfold after_poll.
  eapply told_unsaid; [apply quiet_unsaid, quiet_phase|]. rewrite <- (Hstanding d (st_cursor s)).
  destruct (read d (st_cursor s)) as [b|]; simpl.
  - eapply told_unsaid; [apply deliver_unsaid|]. by apply announce_told.
  - rewrite app_nil_r. eapply told_unsaid; [apply quiet_unsaid, quiet_close|done].
Qed.
Lemma run_told ticks l s : told l s ->
  told (l ++ omap standing (reads_from read options resumeFrom net ticks s)) (fold_left (fun s t => tick read options resumeFrom net t s) ticks s).
Proof using Hstanding.
  revert l s. induction ticks as [|t ticks IH]; intros l s Ht; simpl; [by rewrite app_nil_r|].
  rewrite omap_app, app_assoc. by apply IH, tick_told.
Qed.
Lemma opened_told : told [] (opened options resumeFrom net).
Proof. eapply told_unsaid; [by apply send_unsaid|]. by split. Qed.
End States.

(** ** Every connection delivers what its person may see *)
Section Stream.
Context (sha256 : string -> string) (secs_to_micros : num -> Z) (buildId : string) (creds : StreamCredentials)
  (options : SseOptions) (resumeFrom : option Cursor) (net : nat -> Write) (slack : Z).
Notation read := (readEventBatch sha256 secs_to_micros buildId creds (lookbackMs options)).
Notation log := (shown sha256 buildId creds).
Notation known := (window_near secs_to_micros (lookbackMs options) slack).

(** Where a snapshot has the build stand, for the holder of the credentials. *)
Definition standing (d : Snapshot) : option BuildState := buildState (t_chat (sn_db d)) buildId (owner_of sha256 creds d).
Lemma read_standing d after : eb_state <$> read d after = standing d.
Proof.
  unfold readEventBatch, standing. set (o := owner_of sha256 creds d).
  destruct (o_tenantId o) eqn:Et, (o_anonHash o) eqn:Ea; try by destruct (buildState (t_chat (sn_db d)) buildId o).
  unfold buildState, owned_build. destruct (List.find _ _) as [b|] eqn:E; [|done].
  apply find_Some_elem in E as [_ E]. apply andb_true_iff in E as [_ E]. unfold ownedBy in E. by rewrite Et, Ea in E.
Qed.

(** C34: Whatever a connection is made to wait for and however it ends: the
    messages it wrote are distinct, each one a message past the position it
    resumed from, of a snapshot in which its credentials held the build. While it
    is open, and provided messages become visible late only within the lookback
    window ([timely]), it has written every message past that position of every
    snapshot it polled. And it says where the build stands first, as the first
    batch read has it, and then each change of status or spec from batch to
    batch: in that order, nothing else, and while it is open all of them. *)
Theorem stream_delivers (l : list (Tick (Snap := Snapshot))) :
  0 <= slack < lookbackMs options * 1000 ->
  let s := run read options resumeFrom net l in
  let ds := polled read options resumeFrom net l in
  stored log known resumeFrom ds -> timely log options slack ds ->
  NoDup (cm_id <$> messages_in (st_out s)) /\
  (forall x, x ∈ messages_in (st_out s) -> exists d b m,
     d ∈ ds /\ b ∈ t_builds (t_chat (sn_db d)) /\ b_id b = buildId /\ ownedBy (owner_of sha256 creds d) b = true /\
     m ∈ transcript_of (t_chat (sn_db d)) buildId /\ x = toChatMessage m /\ past_resume resumeFrom m) /\
  (st_closed s = false -> forall d m, d ∈ ds -> m ∈ log d -> past_resume resumeFrom m ->
     toChatMessage m ∈ messages_in (st_out s)) /\
  (events_in (st_out s) = [] \/ exists st, head (events_in (st_out s)) = Some (BuildUpdated st resumeFrom) /\
     head (omap standing ds) = Some st) /\
  states_in (st_out s) `prefix_of` changes None (omap standing ds) /\
  (st_closed s = false -> states_in (st_out s) = changes None (omap standing ds)).
Proof.
  intros Hslack s ds Hst Ht. pose proof (chat_source sha256 secs_to_micros buildId creds _ _ Hslack) as Hsrc.
  destruct (run_ok read log known options slack resumeFrom net l [] (opened options resumeFrom net) Hst Ht
    (opened_inv _ _ _ _)) as [Hd Hc].
  change (delivering log options resumeFrom ds (st_cursor s) s) in Hd. change (complete log resumeFrom ds s) in Hc.
  destruct (run_told read standing options resumeFrom net read_standing l [] _ (opened_told options resumeFrom net)) as [Hp Ho].
  change (states_in (st_out s) `prefix_of` changes None (omap standing ds)) in Hp.
  change (st_closed s = false -> forall l', changes None (omap standing ds ++ l') = states_in (st_out s) ++ changes (st_lastState s) l') in Ho.
  split_and!; [| | | |done|].
  - apply Hd.
  - intros x Hx. destruct (de_from _ _ _ _ _ _ Hd x Hx) as (m & (d & Hds & Hm) & -> & Hpast & _).
    destruct (shown_owned _ _ _ _ _ Hm) as (Hm' & b & Hb & Hid & Hown). by exists d, b, m.
  - intros Hopen d m Hds Hm Hpast. assert (Hin : m_id m ∈ out_ids s) by (apply Hc; [done|by exists d|done]).
    apply list_elem_of_fmap in Hin as (x & Hid & Hx).
    destruct (de_from _ _ _ _ _ _ Hd x Hx) as (m0 & Hm0 & -> & _). simpl in Hid.
    rewrite (seen_same log known resumeFrom ds m m0); [done|done|by exists d|done|done].
  - destruct (de_first _ _ _ _ _ _ Hd) as [(st & Hh)|[? _]]; [right|by left]. exists st. split; [done|].
    rewrite <- states_of_events in Hp. destruct (events_in (st_out s)) as [|f rest]; simplify_eq/=.
    destruct Hp as [k Hp]. destruct (omap standing ds) as [|x xs]; simplify_eq/=. done.
  - intros Hopen. specialize (Ho Hopen []). simpl in Ho. by rewrite !app_nil_r in Ho.
Qed.

(** *** How a stream ends *)
Lemma tick_ind (P : Stream -> Prop) t s :
  (forall f s, P s -> P (send options net f s)) -> (forall s, P s -> P (close s)) ->
  (forall p s, P s -> P (with_phase p s)) -> (forall s, P s -> P (with_drainWait false s)) ->
  (forall x s, P s -> P (with_lastState x s)) -> (forall m c s, P s -> P (with_sent m c s)) ->
  P s -> P (tick read options resumeFrom net t s).
Proof.
  intros Hsend Hclose Hphase Hdrain Hlast Hsent Hs.
  assert (Hrows : forall rows s, P s -> P (deliver options resumeFrom net rows s)).
  { induction rows as [|m rows IH]; intros s' Hs'; simpl.
    - unfold forget. case_match; auto.
    - destruct (st_closed s'); [done|]. apply IH. unfold deliver_row. repeat case_match; auto. }
  assert (Hpoll : forall b s, P s -> P (poll options resumeFrom net b s)).
  { intros [b|] s' Hs'; simpl; [|auto]. apply Hrows. unfold announce. case_match; auto. }
  unfold tick, after_poll. destruct t as [| |[]| |], (st_phase s); repeat case_match; auto.
Qed.

(** What the socket had not taken yet stays within the limit. *)
Definition keeps_up (i : nat) : Prop := w_buffered (net i) <= maxBufferedBytes options.
Record ending (s : Stream) : Prop := {
  en_released : st_released s = if st_closed s then 1%nat else 0%nat;
  en_drain : st_closed s = true -> st_drainWait s = false;
  en_buffered : forall i, (i < length (st_out s))%nat -> st_closed s = false \/ (S i < length (st_out s))%nat ->
    w_buffered (net i) <= maxBufferedBytes options
}.

Lemma close_ending s : ending s -> ending (close s).
Proof.
  intros He. unfold close. destruct (st_closed s) eqn:E; [done|]. destruct He as [Hr Hd Hb]. rewrite E in Hr, Hb. split; simpl.
  - by rewrite Hr.
  - done.
  - intros i Hi [?|Hlt]; [done|]. apply Hb; [done|by left].
Qed.

Lemma send_ending f s : ending s -> ending (send options net f s).
Proof.
  intros He. unfold send. destruct (st_closed s) eqn:E; [done|]. destruct He as [Hr _ Hb]. rewrite E in Hr, Hb.
  set (w := net (length (st_out s))). assert (Hold : forall i, (i < length (st_out s))%nat -> w_buffered (net i) <= maxBufferedBytes options).
  { intros i Hi. apply Hb; [done|by left]. }
  destruct (Z.ltb_spec (maxBufferedBytes options) (w_buffered w)) as [Hlt|Hle].
  - unfold close. replace (st_closed (if w_flushed w then written f s else with_drainWait true (written f s))) with false
      by (by destruct (w_flushed w)).
    split; simpl; [destruct (w_flushed w); simpl; by rewrite Hr|done|].
    intros i Hi [?|Hsi]; [done|]. apply Hold. destruct (w_flushed w); simpl in Hsi; rewrite length_app in Hsi; simpl in Hsi; lia.
  - split.
    + by destruct (w_flushed w); simpl; rewrite E.
    + destruct (w_flushed w); simpl; by rewrite E.
    + intros i Hi _. assert (Hi' : (i < S (length (st_out s)))%nat).
      { destruct (w_flushed w); simpl in Hi; rewrite length_app in Hi; simpl in Hi; lia. }
      destruct (decide (i = length (st_out s))) as [->|]; [done|]. apply Hold. lia.
Qed.

Lemma ticks_ind (P : Stream -> Prop) l s :
  (forall f s, P s -> P (send options net f s)) -> (forall s, P s -> P (close s)) ->
  (forall p s, P s -> P (with_phase p s)) -> (forall s, P s -> P (with_drainWait false s)) ->
  (forall x s, P s -> P (with_lastState x s)) -> (forall m c s, P s -> P (with_sent m c s)) ->
  P s -> P (fold_left (fun s t => tick read options resumeFrom net t s) l s).
Proof. intros ??????. revert s. induction l as [|t l IH]; intros s Hs; simpl; [done|]. by apply IH, tick_ind. Qed.

(** C37: A stream gives its lease back exactly when it ends, and only then, once,
    however many of its sockets, timers and limits end it; it waits for no drain
    afterwards and writes nothing more; and it ends with the first write that
    leaves more unsent than allowed. *)
Theorem stream_ends_once (l l' : list (Tick (Snap := Snapshot))) :
  let s := run read options resumeFrom net l in
  st_released s = (if st_closed s then 1%nat else 0%nat) /\
  (st_closed s = true -> st_drainWait s = false /\ st_out (run read options resumeFrom net (l ++ l')) = st_out s) /\
  (forall i, (i < length (st_out s))%nat -> st_closed s = false \/ (S i < length (st_out s))%nat -> keeps_up i).
Proof.
  intros s. assert (He : ending s).
  { unfold s, run. apply ticks_ind; try (intros ? ? []; by split); try (intros ? []; by split); try (intros ? ? ? []; by split).
    - apply send_ending.
    - apply close_ending.
    - apply send_ending. split; simpl; [done|done|lia]. }
  destruct He as [Hr Hd Hb]. split_and!; [done| |done]. intros Hc. split; [by apply Hd|].
  unfold run. rewrite fold_left_app. fold s.
  assert (Hq : st_closed (fold_left (fun s t => tick read options resumeFrom net t s) l' s) = true /\
    st_out (fold_left (fun s t => tick read options resumeFrom net t s) l' s) = st_out s); [|apply Hq].
  apply (ticks_ind (fun s' => st_closed s' = true /\ st_out s' = st_out s)); try done.
  - intros f s' [Hs' Ho]. by rewrite send_closed.
  - intros s' [Hs' Ho]. unfold close. by rewrite Hs'.
Qed.
End Stream.
