(* ===== verification/SseOrder.v ===== *)
(** * Streams over a transcript that only grows at its end

    When messages become visible in the order of the transcript, what a
    connection writes is the transcript itself, in order. *)
From stdpp Require Import gmap.
From S2P Require Import Prelude JsString JsNumber Spec Db Chat Auth Sse SseSpec.
#[local] Open Scope string_scope.
#[local] Open Scope list_scope.
#[local] Open Scope Z_scope.

Definition before (a b : Message) : Prop := message_gt b a = true.

Lemma before_or_same a b : le_of message_gt a b -> m_id a <> m_id b -> before a b.
Proof.
  unfold le_of, before. rewrite !message_gt_cursor. intros H N. apply Z.ltb_ge in H. apply Z.ltb_lt.
  unfold compareCursors in *. simpl in *.
  destruct (Z.eqb_spec (m_createdAt a) (m_createdAt b)) as [E|E], (Z.eqb_spec (m_createdAt b) (m_createdAt a)) as [E'|E']; simpl in *;
    try lia; try (destruct (Z.ltb_spec (m_createdAt a) (m_createdAt b)), (Z.ltb_spec (m_createdAt b) (m_createdAt a)); lia).
  rewrite compareText_antisym. assert (compareText (m_id a) (m_id b) <> 0) by by rewrite compareText_zero. lia.
Qed.

Lemma before_le a b : before a b -> le_of message_gt a b.
Proof.
  unfold before, le_of. rewrite !message_gt_cursor. intros H%Z.ltb_lt. apply Z.ltb_ge. unfold compareCursors in *. simpl in *.
  rewrite compareText_antisym in H.
  destruct (Z.eqb_spec (m_createdAt a) (m_createdAt b)), (Z.eqb_spec (m_createdAt b) (m_createdAt a)); simpl in *; try lia.
  destruct (Z.ltb_spec (m_createdAt a) (m_createdAt b)), (Z.ltb_spec (m_createdAt b) (m_createdAt a)); lia.
Qed.

Lemma le_both a b : le_of message_gt a b -> le_of message_gt b a -> m_id a = m_id b.
Proof.
  intros H1 H2. destruct (decide (m_id a = m_id b)) as [|N]; [done|]. apply before_or_same in H1; [|done].
  unfold before, le_of in *. congruence.
Qed.

Lemma StronglySorted_app_all {A} (R : A -> A -> Prop) l1 l2 :
  StronglySorted R l1 -> StronglySorted R l2 -> (forall x y, x ∈ l1 -> y ∈ l2 -> R x y) -> StronglySorted R (l1 ++ l2).
Proof.
  intros H1 H2 H. induction H1 as [|x l1 Hs IH Hx]; simpl; [done|]. constructor.
  - apply IH. intros. apply H; [by right|done].
  - apply Forall_app. split; [done|]. apply Forall_forall. intros y Hy. apply H; [by left|done].
Qed.

Lemma StronglySorted_sublist {A} (R : A -> A -> Prop) l1 l2 : sublist l1 l2 -> StronglySorted R l2 -> StronglySorted R l1.
Proof.
  induction 1 as [|x l1 l2 Hs IH|x l1 l2 Hs IH]; intros H; inversion H as [|? ? Hs' Hx]; subst; [constructor|constructor|by apply IH].
  - by apply IH.
  - apply Forall_forall. intros y Hy. rewrite Forall_forall in Hx. apply Hx. by eapply elem_of_sublist.
Qed.

Lemma sorted_strict l : NoDup (m_id <$> l) -> StronglySorted (le_of message_gt) l -> StronglySorted before l.
Proof.
  intros Hn Hs. induction Hs as [|x l Hs IH Hx]; [constructor|]. apply NoDup_cons in Hn as [Hx' Hn].
  constructor; [by apply IH|]. rewrite Forall_forall in Hx |- *. intros y Hy. apply before_or_same; [by apply Hx|].
  intros E. apply Hx'. rewrite E. by apply list_elem_of_fmap_2.
Qed.

(** ** What one poll writes *)
Section Poll.
Context (options : SseOptions) (resumeFrom : option Cursor) (net : nat -> Write).

Lemma deliver_row_writes m s :
  messages_in (st_out (deliver_row options resumeFrom net m s)) = messages_in (st_out s) \/
  messages_in (st_out (deliver_row options resumeFrom net m s)) = messages_in (st_out s) ++ [toChatMessage m].
Proof.
  unfold deliver_row. case_match; [|by left]. case_match; [by left|]. set (s1 := with_sent _ _ s).
  destruct (st_closed s) eqn:E; [left; by rewrite send_closed|right].
  rewrite (q_messages _ _ (send_open options net _ s1 E)). simpl. apply messages_snoc.
Qed.

(** Oldest first, from the batch. *)
Lemma deliver_writes rows s : exists l, sublist l rows /\
  messages_in (st_out (deliver options resumeFrom net rows s)) = messages_in (st_out s) ++ (toChatMessage <$> l).
Proof.
  revert s. induction rows as [|m rows IH]; intros s; simpl.
  - exists []. split; [done|]. rewrite app_nil_r. unfold forget. by case_match.
  - destruct (st_closed s); [exists []; split; [apply sublist_nil_l|by rewrite app_nil_r]|].
    destruct (IH (deliver_row options resumeFrom net m s)) as (l & Hl & ->).
    destruct (deliver_row_writes m s) as [->| ->]; [exists l; split; [by apply sublist_cons|done]|].
    exists (m :: l). split; [by apply sublist_skip|]. by rewrite <- app_assoc.
Qed.

Lemma announce_messages x s : messages_in (st_out (announce options net x s)) = messages_in (st_out s).
Proof.
  unfold announce. case_match; [|done]. simpl. destruct (st_closed s) eqn:E; [by rewrite send_closed|].
  rewrite (q_messages _ _ (send_open options net _ s E)). simpl. rewrite messages_snoc. apply app_nil_r.
Qed.

Lemma poll_writes b s : exists l, (match b with Some b => sublist l (eb_messages b) | None => l = [] end) /\
  messages_in (st_out (poll options resumeFrom net b s)) = messages_in (st_out s) ++ (toChatMessage <$> l).
Proof.
  destruct b as [b|]; simpl.
  - destruct (deliver_writes (eb_messages b) (announce options net (eb_state b) s)) as (l & Hl & E).
    exists l. split; [done|]. by rewrite E, announce_messages.
  - exists []. split; [done|]. by rewrite (q_messages _ _ (quiet_close s)), app_nil_r.
Qed.
End Poll.

(** ** A log that grows at its end *)
Section Order.
Context {Snap : Type} (read : Snap -> option Cursor -> option EventBatch) (log : Snap -> list Message)
  (known : Cursor -> Prop) (options : SseOptions) (slack : Z) (resumeFrom : option Cursor) (net : nat -> Write).
Context `{Hsrc : !EventSource read log known (lookbackMs options) slack}.

(** Messages are distinct, stay, and come after all that were there. *)
Record append_only (ds : list Snap) : Prop := {
  ao_nodup : forall d, d ∈ ds -> NoDup (m_id <$> log d);
  ao_stays : forall pre d post d0 m, ds = pre ++ d :: post -> d0 ∈ pre -> m ∈ log d0 -> m ∈ log d;
  ao_after : forall pre d post d0 m, ds = pre ++ d :: post -> d0 ∈ pre -> m ∈ log d ->
    m ∈ log d0 \/ forall m0, m0 ∈ log d0 -> before m0 m
}.

Lemma append_only_timely ds : append_only ds -> timely log options slack ds.
Proof using Hsrc.
  intros Ha pre d post d0 m E Hd0 Hm. destruct (ao_after _ Ha _ _ _ _ _ E Hd0 Hm) as [|H]; [by left|right].
  intros m0 Hm0. apply H in Hm0. unfold before in Hm0. rewrite message_gt_cursor in Hm0.
  apply Z.ltb_lt, compareCursors_micros in Hm0. simpl in Hm0. pose proof es_slack. lia.
Qed.

Lemma append_only_prefix ds ds' : append_only (ds ++ ds') -> append_only ds.
Proof using.
  intros []. split.
  - intros d Hd. apply ao_nodup0, elem_of_app. by left.
  - intros pre d post d0 m -> ? ?. eapply (ao_stays0 pre d (post ++ ds')); [by rewrite <- app_assoc|done..].
  - intros pre d post d0 m -> ? ?. eapply (ao_after0 pre d (post ++ ds')); [by rewrite <- app_assoc|done..].
Qed.

(** What was written, in the order of the log. *)
Definition in_order (ds : list Snap) (s : Stream) : Prop :=
  exists l, messages_in (st_out s) = toChatMessage <$> l /\ StronglySorted before l /\ forall m, m ∈ l -> seen log ds m.

Lemma in_order_quiet ds s s' : quiet s s' -> in_order ds s -> in_order ds s'.
Proof using. intros Hq (l & E & H). exists l. by rewrite (q_messages _ _ Hq). Qed.

Lemma poll_in_order ds d s :
  stored log known resumeFrom (ds ++ [d]) -> append_only (ds ++ [d]) -> inv log options resumeFrom ds s ->
  in_order ds s -> in_order (ds ++ [d]) (poll options resumeFrom net (read d (st_cursor s)) s).
Proof using Hsrc.
  intros Hst Ha Hinv (l & Hl & Hs & Hseen).
  destruct (poll_ok read log known options slack resumeFrom net ds d s Hst (append_only_timely _ Ha) Hinv) as [Hd _].
  destruct (poll_writes options resumeFrom net (read d (st_cursor s)) s) as (new & Hnew & E).
  pose proof (de_once _ _ _ _ _ _ Hd) as Hn. unfold out_ids in Hn. rewrite E, Hl, !fmap_app, <- !list_fmap_compose in Hn.
  apply NoDup_app in Hn as (_ & Hdis & Hnn).
  assert (Hlog : forall m, m ∈ new -> m ∈ log d).
  { intros m Hm. destruct (read d (st_cursor s)) as [b|] eqn:Er; [|subst; by apply elem_of_nil in Hm].
    eapply es_rows; [done|]. by eapply elem_of_sublist. }
  exists (l ++ new). split; [by rewrite E, Hl, fmap_app|]. split.
  2: { intros m [Hm|Hm]%elem_of_app; apply seen_snoc; [left; by apply Hseen|right; by apply Hlog]. }
  assert (Hopen : new = [] \/ st_closed s = false).
  { destruct (st_closed s) eqn:Ec; [left|by right]. assert (Hout : messages_in (st_out (poll options resumeFrom net (read d (st_cursor s)) s)) = messages_in (st_out s)).
    { destruct (read d (st_cursor s)) as [b|]; simpl; [|unfold close; by rewrite Ec].
      unfold announce. case_match; rewrite ?send_closed by done; simpl.
      all: destruct (eb_messages b); simpl; rewrite ?Ec; [unfold forget; case_match|]; done. }
    rewrite Hout, <- (app_nil_r (messages_in (st_out s))) in E at 1. apply app_inv_head in E. by apply symmetry, fmap_nil_inv in E. }
  destruct Hopen as [->|Hopen]; [by rewrite app_nil_r|].
  apply StronglySorted_app_all; [done| |].
  - apply sorted_strict; [by rewrite list_fmap_compose in Hnn; rewrite <- list_fmap_compose in Hnn|].
    destruct (read d (st_cursor s)) as [b|] eqn:Er; [|subst; constructor].
    eapply StronglySorted_sublist; [done|]. by eapply es_sorted.
  - intros m0 m Hm0 Hm. destruct (Hseen m0 Hm0) as (d0 & Hd0 & Hm0').
    destruct (ao_after _ Ha ds d [] d0 m) as [Hin|Hb]; [done|done|by apply Hlog| |by apply Hb].
    exfalso. apply (Hdis (m_id m)); [|by apply (list_elem_of_fmap_2 (cm_id ∘ toChatMessage))].
    destruct Hinv as [Hdel Hcomp].
    assert (Hp : past_resume resumeFrom m).
    { destruct (de_from _ _ _ _ _ _ Hd (toChatMessage m)) as (m1 & Hm1 & E1 & Hp1 & _).
      - rewrite E. apply elem_of_app. right. by apply list_elem_of_fmap_2.
      - assert (m_id m = m_id m1) as E2 by by injection E1.
        rewrite (seen_same log known resumeFrom (ds ++ [d]) m m1); [done|done|apply seen_snoc; right; by apply Hlog|done|done]. }
    assert (Hin' : m_id m ∈ out_ids s) by (apply Hcomp; [done|by exists d0|done]).
    unfold out_ids in Hin'. by rewrite Hl, <- list_fmap_compose in Hin'.
Qed.

Lemma tick_in_order ds t s :
  stored log known resumeFrom (ds ++ reads t s) -> append_only (ds ++ reads t s) -> inv log options resumeFrom ds s ->
  in_order ds s -> in_order (ds ++ reads t s) (tick read options resumeFrom net t s).
Proof using Hsrc.
  intros Hst Ha Hi Ho. destruct (reads t s) as [|d l] eqn:E.
  { rewrite app_nil_r. eapply in_order_quiet; [by apply tick_quiet|done]. }
  unfold reads in E. destruct t as [| |[d'|]| |]; try done. destruct (st_phase s) eqn:Ep; simplify_eq/=. rewrite Ep.
  unfold after_poll. eapply in_order_quiet; [apply quiet_phase|]. by apply poll_in_order.
Qed.

Lemma run_in_order l ds s :
  stored log known resumeFrom (ds ++ reads_from read options resumeFrom net l s) ->
  append_only (ds ++ reads_from read options resumeFrom net l s) -> inv log options resumeFrom ds s -> in_order ds s ->
  in_order (ds ++ reads_from read options resumeFrom net l s)
    (fold_left (fun s t => tick read options resumeFrom net t s) l s).
Proof using Hsrc.
  revert ds s. induction l as [|t l IH]; intros ds s; simpl; [by rewrite app_nil_r|].
  rewrite app_assoc. intros Hst Ha Hi Ho.
  assert (Hst' : stored log known resumeFrom (ds ++ reads t s)) by (eapply stored_sub; [|exact Hst]; set_solver).
  apply append_only_prefix in Ha as Ha'.
  apply IH; try done; [|by apply tick_in_order]. eapply tick_ok; [done..|by apply append_only_timely|done].
Qed.

(** Of an open stream: what it wrote is its log past the resumed position. *)
Lemma stream_is_log l d :
  let s := run read options resumeFrom net l in
  let ds := polled read options resumeFrom net l in
  stored log known resumeFrom ds -> append_only ds -> StronglySorted (le_of message_gt) (log d) ->
  st_closed s = false -> last ds = Some d ->
  messages_in (st_out s) = toChatMessage <$> List.filter (fun m => negb (resumed_past resumeFrom (cursor_of m))) (log d).
Proof using Hsrc.
  intros s ds Hst Ha Hsd Ho Hlast.
  assert (H0 : in_order [] (opened options resumeFrom net)).
  { exists []. split; [|split; [constructor|by intros ? ?%elem_of_nil]]. unfold opened. set (s0 := mkStream _ _ _ _ _ _ _ _).
    by rewrite (q_messages _ _ (send_open options net Retry s0 eq_refl)). }
  pose proof (opened_inv log options resumeFrom net) as Hi0.
  destruct (run_in_order l [] _ Hst Ha Hi0 H0) as (ms & E & Hs & Hseen).
  destruct (run_ok read log known options slack resumeFrom net l [] _ Hst (append_only_timely _ Ha) Hi0) as [Hd Hc].
  change (messages_in (st_out s) = toChatMessage <$> ms) in E. change (delivering log options resumeFrom ds (st_cursor s) s) in Hd.
  change (complete log resumeFrom ds s) in Hc. change (forall m, m ∈ ms -> seen log ds m) in Hseen.
  rewrite E. f_equal. apply last_Some in Hlast as [pre Epre].
  assert (Hd' : d ∈ ds) by (rewrite Epre; set_solver).
  assert (Hnd : NoDup (m_id <$> ms)).
  { pose proof (de_once _ _ _ _ _ _ Hd) as H. unfold out_ids in H. by rewrite E, <- list_fmap_compose in H. }
  assert (Hlogd : forall m, seen log ds m -> m ∈ log d).
  { intros m (d0 & Hd0 & Hm). rewrite Epre in Hd0. apply elem_of_app in Hd0 as [Hd0| ->%list_elem_of_singleton]; [|done].
    by eapply (ao_stays _ Ha pre d []). }
  apply (sorted_unique message_gt).
  - intros x y Hx Hy H1 H2. apply (seen_same log known resumeFrom ds); [done|by apply Hseen|by apply Hseen|by apply le_both].
  - clear -Hs. induction Hs as [|x l Hs IH Hx]; constructor; [done|]. eapply Forall_impl; [exact Hx|]. intros y. apply before_le.
  - by apply StronglySorted_listfilter.
  - apply NoDup_Permutation; [by eapply NoDup_fmap_1|apply NoDup_ListNoDup, List.NoDup_filter, NoDup_ListNoDup; eapply NoDup_fmap_1; by apply (ao_nodup _ Ha)|].
    intros m. rewrite elem_of_listfilter. split.
    + intros Hm. split; [by apply Hlogd, Hseen|].
      destruct (de_from _ _ _ _ _ _ Hd (toChatMessage m)) as (m1 & Hm1 & E1 & Hp1 & _); [rewrite E; by apply list_elem_of_fmap_2|].
      assert (m_id m = m_id m1) as E2 by by injection E1.
      rewrite (seen_same log known resumeFrom ds m m1) by auto. unfold past_resume in Hp1. by rewrite Hp1.
    + intros [Hm Hp]. apply negb_true_iff in Hp. assert (Hin : m_id m ∈ out_ids s) by (apply Hc; [done|by exists d|done]).
      unfold out_ids in Hin. rewrite E, <- list_fmap_compose in Hin. apply list_elem_of_fmap in Hin as (m1 & E1 & Hm1).
      simpl in E1. apply (seen_same log known resumeFrom ds) in E1 as ->; [done|done|by exists d|by apply Hseen].
Qed.
End Order.
