(* ===== verification/Transcript.v ===== *)
(** * The conversation as the portal shows it ([apps/web/src/lib/build-transcript.ts])

    [mergeMessages] keeps what is on the page: confirmed messages by time, then
    the visitor's own that are not confirmed yet. Put together with an event
    stream, the page shows the transcript. *)
From S2P Require Import Prelude JsString Regex JsNumber Spec Db Chat Auth Sse SseSpec SseOrder.
#[local] Open Scope string_scope.
#[local] Open Scope list_scope.
#[local] Open Scope Z_scope.

Definition LOCAL_MESSAGE_PREFIX : string := "local-".
Definition localMessageId (clientMessageId : string) : string := (LOCAL_MESSAGE_PREFIX ++ clientMessageId)%string.
Definition is_local (m : ChatMessage) : bool := startsWith LOCAL_MESSAGE_PREFIX (cm_id m).

(** [map.delete] *)
Definition map_delete {V} (k : string) (m : list (string * V)) : list (string * V) :=
  List.filter (fun kv => negb (kv.1 ==s k)) m.

(** Drops the optimistic copy; an empty client id is no client id. *)
Definition confirm (m : ChatMessage) (byId : list (string * ChatMessage)) : list (string * ChatMessage) :=
  let byId :=
    match cm_client_message_id m with
    | Some c => if c ==s "" then byId else map_delete (localMessageId c) byId
    | None => byId
    end in
  map_set (cm_id m) m byId.

(** [Date.parse(a.created_at) - Date.parse(b.created_at)] *)
Definition created_gt (a b : ChatMessage) : bool := cm_created_at b <? cm_created_at a.

Definition mergeMessages (current incoming : list ChatMessage) : list ChatMessage :=
  let byId := fold_left (fun byId m => map_set (cm_id m) m byId) current [] in
  let byId := fold_left (fun byId m => confirm m byId) incoming byId in
  let all := byId.*2 in
  js_sort created_gt (List.filter (fun m => negb (is_local m)) all) ++ List.filter is_local all.

Definition awaitingReply (messages : list ChatMessage) : bool :=
  match last messages with Some m => bool_decide (cm_role m = user) | None => false end.

(** ** Maps of messages by id *)
Definition entry (m : ChatMessage) : string * ChatMessage := (cm_id m, m).
Definition keyed (byId : list (string * ChatMessage)) : Prop :=
  NoDup byId.*1 /\ forall kv, kv ∈ byId -> kv = entry kv.2.

Lemma keyed_entries byId : keyed byId -> byId = entry <$> byId.*2.
Proof.
  intros [_ H]. induction byId as [|kv l IH]; [done|]. csimpl. rewrite <- IH by (intros; apply H; by right).
  f_equal. apply H. left.
Qed.

Lemma map_set_elem {V} (k : string) (v : V) m kv : kv ∈ map_set k v m -> kv = (k, v) \/ kv ∈ m.
Proof.
  induction m as [|[k' v'] m IH]; csimpl; [intros ?%list_elem_of_singleton; auto|].
  case_decide; intros [->|?]%elem_of_cons; subst; rewrite ?elem_of_cons; auto. destruct IH; auto.
Qed.

Lemma keyed_set m byId : keyed byId -> keyed (map_set (cm_id m) m byId).
Proof.
  intros [Hn He]. split; [by apply map_set_keys_NoDup|]. intros kv [->|H]%map_set_elem; [done|by apply He].
Qed.

Lemma keyed_delete k byId : keyed byId -> keyed (map_delete k byId).
Proof.
  intros [Hn He]. split; [|intros kv [H _]%elem_of_listfilter; by apply He].
  clear He. induction byId as [|[k' v] l IH]; csimpl; [constructor|]. apply NoDup_cons in Hn as [Hk Hn].
  destruct (negb _); csimpl; [|by apply IH]. constructor; [|by apply IH]. contradict Hk.
  apply list_elem_of_fmap in Hk as (kv & -> & [H _]%elem_of_listfilter).
  change (kv.1 ∈ l.*1). by apply (list_elem_of_fmap_2 fst).
Qed.

Lemma keyed_confirm m byId : keyed byId -> keyed (confirm m byId).
Proof. intros H. unfold confirm. repeat case_match; by apply keyed_set, keyed_delete || apply keyed_set. Qed.

Lemma keyed_fold (f : list (string * ChatMessage) -> ChatMessage -> list (string * ChatMessage)) l byId :
  (forall b m, keyed b -> keyed (f b m)) -> keyed byId -> keyed (fold_left f l byId).
Proof. intros Hf. revert byId. induction l as [|m l IH]; intros byId H; simpl; [done|]. by apply IH, Hf. Qed.

(** *** Setting what is there, deleting what is not *)
Lemma map_set_same {V} (k : string) (v : V) m : NoDup m.*1 -> (k, v) ∈ m -> map_set k v m = m.
Proof.
  induction m as [|[k' v'] m IH]; csimpl; [by intros _ ?%elem_of_nil|]. intros [Hk Hn]%NoDup_cons [[= <- <-]|H]%elem_of_cons.
  - by rewrite decide_True.
  - rewrite decide_False; [by rewrite IH|]. intros ->. apply Hk. by apply (list_elem_of_fmap_2 fst) in H.
Qed.

Lemma map_set_new {V} (k : string) (v : V) m : k ∉ m.*1 -> map_set k v m = m ++ [(k, v)].
Proof.
  induction m as [|[k' v'] m IH]; csimpl; [done|]. rewrite not_elem_of_cons. intros [H1 H2].
  rewrite decide_False by done. by rewrite IH.
Qed.

Lemma map_delete_absent {V} k (m : list (string * V)) : k ∉ m.*1 -> map_delete k m = m.
Proof.
  induction m as [|[k' v'] m IH]; csimpl; [done|]. rewrite not_elem_of_cons. intros [H1 H2].
  destruct (String.eqb_spec k' k); [by subst|]. simpl. by rewrite IH.
Qed.

Lemma build_entries l : NoDup (cm_id <$> l) -> fold_left (fun byId m => map_set (cm_id m) m byId) l [] = entry <$> l.
Proof.
  induction l as [|m l IH] using rev_ind; [done|]. rewrite fmap_app, fold_left_app. simpl.
  intros (Hn & Hd & _)%NoDup_app. rewrite IH, fmap_app by done. apply map_set_new.
  rewrite <- list_fmap_compose. intros Hin. apply (Hd (cm_id m)); [done|left].
Qed.

(** ** One merge *)

(** [y] is the optimistic copy of what [m] confirms. *)
Definition copy_of (m y : ChatMessage) : bool :=
  match cm_client_message_id m with Some c => negb (c ==s "") && (cm_id y ==s localMessageId c) | None => false end.

Lemma elem_values y byId : keyed byId -> y ∈ byId.*2 <-> entry y ∈ byId.
Proof.
  intros Hk. split.
  - intros (kv & -> & Hkv)%list_elem_of_fmap. by rewrite <- (proj2 Hk kv Hkv).
  - intros H. by apply (list_elem_of_fmap_2 snd) in H.
Qed.

Lemma set_values y m byId : keyed byId -> y ∈ (map_set (cm_id m) m byId).*2 <-> y = m \/ (y ∈ byId.*2 /\ cm_id y <> cm_id m).
Proof.
  intros Hk. rewrite !elem_values by auto using keyed_set. destruct Hk as [Hn He].
  induction byId as [|[k v] l IH]; csimpl.
  { rewrite list_elem_of_singleton, elem_of_nil. unfold entry. naive_solver. }
  apply NoDup_cons in Hn as [Hk Hn]. assert (Hkv : k = cm_id v) by (specialize (He (k, v) ltac:(left)); by injection He).
  specialize (IH Hn (fun kv H => He kv (list_elem_of_further _ _ _ H))).
  case_decide as Hd; rewrite !elem_of_cons.
  - subst k. rewrite <- Hd in *. split.
    + intros [[= _ ->]|H]; [by left|right]. split; [by right|]. intros E. apply Hk. rewrite <- E.
      by apply (list_elem_of_fmap_2 fst) in H.
    + intros [->|[[[= E ->]|H] N]]; [by left|congruence|by right].
  - rewrite IH. split.
    + intros [E|[->|[? ?]]]; [|by left|auto]. right. split; [by left|]. unfold entry in E. congruence.
    + intros [->|[[E|?] ?]]; auto.
Qed.

Lemma delete_values y k byId : keyed byId -> y ∈ (map_delete k byId).*2 <-> y ∈ byId.*2 /\ cm_id y <> k.
Proof.
  intros Hk. rewrite !elem_values by auto using keyed_delete. unfold map_delete. rewrite elem_of_listfilter. simpl.
  by rewrite negb_true_iff, String.eqb_neq.
Qed.

Lemma confirm_values y m byId : keyed byId ->
  y ∈ (confirm m byId).*2 <-> y = m \/ (y ∈ byId.*2 /\ cm_id y <> cm_id m /\ copy_of m y = false).
Proof.
  intros Hk. unfold confirm, copy_of. destruct (cm_client_message_id m) as [c|]; [destruct (c ==s "") eqn:E|]; simpl.
  - rewrite set_values by done. naive_solver.
  - rewrite set_values, delete_values by auto using keyed_delete. rewrite String.eqb_neq. naive_solver.
  - rewrite set_values by done. naive_solver.
Qed.

(** Messages of the service: distinct, none with an optimistic id. *)
Definition from_service (l : list ChatMessage) : Prop := NoDup (cm_id <$> l) /\ forall m, m ∈ l -> is_local m = false.

Lemma local_prefix c : startsWith LOCAL_MESSAGE_PREFIX (localMessageId c) = true.
Proof. by destruct c. Qed.

Lemma copy_is_local m y : copy_of m y = true -> is_local y = true.
Proof.
  unfold copy_of. destruct (cm_client_message_id m); [|done]. intros [_ E%String.eqb_eq]%andb_true_iff.
  unfold is_local. rewrite E. apply local_prefix.
Qed.

Lemma from_service_cons m l : from_service (m :: l) -> is_local m = false /\ (forall x, x ∈ l -> cm_id m <> cm_id x) /\ from_service l.
Proof.
  intros [[Hm Hn]%NoDup_cons Hl]. split_and!; [apply Hl; left| |].
  - intros x Hx E. apply Hm. rewrite E. by apply list_elem_of_fmap_2.
  - split; [done|]. intros x Hx. apply Hl. by right.
Qed.

Lemma confirm_all_values y l byId : keyed byId -> from_service l ->
  y ∈ (fold_left (fun byId m => confirm m byId) l byId).*2 <->
  y ∈ l \/ (y ∈ byId.*2 /\ forall m, m ∈ l -> cm_id y <> cm_id m /\ copy_of m y = false).
Proof.
  revert byId. induction l as [|m l IH]; intros byId Hk Hl; simpl.
  { rewrite elem_of_nil. split; [intros H; right; split; [done|by intros ? ?%elem_of_nil]|by intros [[]|[? _]]]. }
  apply from_service_cons in Hl as (Hm & Hd & Hl). rewrite IH, confirm_values by auto using keyed_confirm.
  rewrite elem_of_cons. split.
  - intros [Hy|[[->|(H1 & H2 & H3)] H]]; [by left; right|by left; left|right]. split; [done|]. by intros x [->|Hx]%elem_of_cons; auto.
  - intros [[->|Hy]|[Hy H]]; [right|by left|right].
    + split; [by left|]. intros x Hx. split; [by apply Hd|]. destruct (copy_of x m) eqn:E; [|done].
      apply copy_is_local in E. congruence.
    + split; [right; split; [done|apply H; left]|]. intros x Hx. apply H. by right.
Qed.

(** What [mergeMessages] collects. *)
Definition merged (current incoming : list ChatMessage) : list (string * ChatMessage) :=
  fold_left (fun byId m => confirm m byId) incoming (fold_left (fun byId m => map_set (cm_id m) m byId) current []).

Lemma merged_keyed current incoming : keyed (merged current incoming).
Proof.
  apply keyed_fold; [intros; by apply keyed_confirm|]. apply keyed_fold; [intros; by apply keyed_set|].
  split; [constructor|by intros ? ?%elem_of_nil].
Qed.

Lemma split_perm {A} (f : A -> bool) l : List.filter (fun x => negb (f x)) l ++ List.filter f l ≡ₚ l.
Proof. induction l as [|x l IH]; simpl; [done|]. destruct (f x); simpl; [rewrite <- Permutation_middle|]; by rewrite IH. Qed.

Lemma mergeMessages_perm current incoming : mergeMessages current incoming ≡ₚ (merged current incoming).*2.
Proof. unfold mergeMessages. rewrite js_sort_perm. apply split_perm. Qed.

Lemma keyed_values_NoDup byId : keyed byId -> NoDup (cm_id <$> byId.*2).
Proof. intros Hk. destruct Hk as [Hn He] eqn:E. clear E. rewrite (keyed_entries byId) in Hn by done. by rewrite <- list_fmap_compose in Hn. Qed.

Lemma created_order P : total_preorder_on created_gt P.
Proof. split; unfold le_of, created_gt; intros; rewrite ?Z.ltb_ge in *; lia. Qed.

Lemma filter_every {A} (f : A -> bool) l : (forall x, x ∈ l -> f x = true) -> List.filter f l = l.
Proof. induction l as [|x l IH]; intros H; simpl; [done|]. rewrite H by left. by rewrite IH by (intros; apply H; by right). Qed.

(** A page already in order is its own order. *)
Lemma page_order conf loc :
  StronglySorted (le_of created_gt) conf -> (forall m, m ∈ conf -> is_local m = false) -> (forall m, m ∈ loc -> is_local m = true) ->
  js_sort created_gt (List.filter (fun m => negb (is_local m)) (conf ++ loc)) ++ List.filter is_local (conf ++ loc) = conf ++ loc.
Proof.
  intros Hs Hc Hl. rewrite !List.filter_app, (filter_none is_local conf), (filter_every is_local loc) by done.
  rewrite (filter_every _ conf), (filter_none _ loc), app_nil_r.
  - by rewrite js_sort_id.
  - intros x Hx. by rewrite Hl.
  - intros x Hx. by rewrite Hc.
Qed.

(** A page: confirmed messages, then optimistic ones. *)
Record page (conf loc : list ChatMessage) : Prop := {
  pg_ids : NoDup (cm_id <$> conf ++ loc);
  pg_conf : forall y, y ∈ conf -> is_local y = false;
  pg_loc : forall y, y ∈ loc -> is_local y = true;
  pg_sorted : StronglySorted (le_of created_gt) conf
}.

Lemma mergeMessages_NoDup current incoming : NoDup (cm_id <$> mergeMessages current incoming).
Proof. rewrite mergeMessages_perm. apply keyed_values_NoDup, merged_keyed. Qed.

Lemma merge_page current incoming : exists conf loc, mergeMessages current incoming = conf ++ loc /\ page conf loc.
Proof.
  pose proof (mergeMessages_NoDup current incoming) as Hn. eexists _, _. split; [reflexivity|]. split.
  - exact Hn.
  - intros m. rewrite elem_of_js_sort, elem_of_listfilter, negb_true_iff. by intros [_ ?].
  - by intros m [_ ?]%elem_of_listfilter.
  - eapply js_sort_sorted; [apply (created_order (fun _ => True))|]. by apply Forall_forall.
Qed.

Lemma merge_values current incoming y : NoDup (cm_id <$> current) -> from_service incoming ->
  y ∈ mergeMessages current incoming <->
     y ∈ incoming \/ (y ∈ current /\ forall m, m ∈ incoming -> cm_id y <> cm_id m /\ copy_of m y = false).
Proof.
  intros Hn Hi. rewrite mergeMessages_perm. unfold merged. rewrite confirm_all_values.
  - rewrite build_entries by done. by rewrite <- list_fmap_compose, list_fmap_id.
  - apply keyed_fold; [intros; by apply keyed_set|split; [constructor|by intros ? ?%elem_of_nil]].
  - done.
Qed.

(** Confirming again what is on the page. *)
Lemma confirm_there m l :
  NoDup (cm_id <$> l) -> m ∈ l -> (forall y, y ∈ l -> copy_of m y = false) -> confirm m (entry <$> l) = entry <$> l.
Proof.
  intros Hn Hm Hc. assert (Hkeys : (entry <$> l).*1 = cm_id <$> l) by by rewrite <- list_fmap_compose.
  assert (Hset : map_set (cm_id m) m (entry <$> l) = entry <$> l).
  { apply map_set_same; [by rewrite Hkeys|]. by apply (list_elem_of_fmap_2 entry). }
  unfold confirm. destruct (cm_client_message_id m) as [c|] eqn:Ec; [|done]. destruct (c ==s "") eqn:Ee; [done|].
  rewrite map_delete_absent; [done|]. rewrite Hkeys. intros (y & Ey & Hy)%list_elem_of_fmap.
  specialize (Hc y Hy). unfold copy_of in Hc. by rewrite Ec, Ee, <- Ey, String.eqb_refl in Hc.
Qed.

(** A merge keeps the page a page: ids are distinct, confirmed messages come
    first and by time, optimistic ones after them; what is shown is what came in
    and, of what was there, all that neither came in again nor is the optimistic
    copy of something that did; and a replay of the same messages changes
    nothing. *)
Theorem mergeMessages_page current incoming :
  NoDup (cm_id <$> current) -> from_service incoming ->
  (exists conf loc, mergeMessages current incoming = conf ++ loc /\ page conf loc) /\
  (forall y, y ∈ mergeMessages current incoming <->
     y ∈ incoming \/ (y ∈ current /\ forall m, m ∈ incoming -> cm_id y <> cm_id m /\ copy_of m y = false)) /\
  mergeMessages (mergeMessages current incoming) incoming = mergeMessages current incoming.
Proof.
  intros Hn Hi. pose proof (merge_page current incoming) as Hpage.
  pose proof (fun y => merge_values current incoming y Hn Hi) as Hin. split_and!; [done|done|].
  destruct Hpage as (conf & loc & E & [Hnd Hc Hl Hs]). rewrite <- E in Hnd.
  enough (Hsame : fold_left (fun byId m => confirm m byId) incoming (entry <$> mergeMessages current incoming) =
    entry <$> mergeMessages current incoming).
  { unfold mergeMessages at 1. rewrite build_entries, Hsame, <- list_fmap_compose, list_fmap_id, E by done. by apply page_order. }
  assert (Hsub : incoming ⊆ mergeMessages current incoming) by (intros y Hy; apply Hin; by left).
  assert (Hcopy : forall m y, m ∈ incoming -> y ∈ mergeMessages current incoming -> copy_of m y = false).
  { intros m y Hm Hy. apply Hin in Hy as [Hy|[_ Hy]]; [|by apply Hy]. destruct (copy_of m y) eqn:Ec; [|done].
    apply copy_is_local in Ec. by rewrite (proj2 Hi y Hy) in Ec. }
  clear Hin E Hs Hc Hl. revert Hnd Hsub Hcopy. generalize (mergeMessages current incoming). intros R HnR Hsub Hcopy.
  induction incoming as [|m l IH]; simpl; [done|]. 
  assert (HmR : m ∈ R) by (apply Hsub; left).
  rewrite confirm_there; [|done|done|intros y; apply Hcopy; left].
  apply from_service_cons in Hi as (_ & _ & Hi). apply IH; [done|..].
  - intros x Hx. apply Hsub. by right.
  - intros x y Hx. apply Hcopy. by right.
Qed.

(** ** A page that follows a stream *)

(** A canonical id of the database is not an optimistic one. *)
Lemma uuid_not_local m : cursor_ok (cursor_of m) -> is_local (toChatMessage m) = false.
Proof.
  intros [_ Hid]. simpl in Hid. unfold is_local. simpl. destruct (startsWith _ _) eqn:E; [|done].
  assert (Ha : all_chars (fun c => is_hex c || Ascii.eqb "-" c) (m_id m) = true).
  { apply (test_only _ (uuid_re is_hex)); [exact Hid|vm_compute; reflexivity]. }
  destruct (m_id m) as [|c s]; [done|]. apply andb_true_iff in Ha as [Ha _].
  destruct c as [[][][][][][][][]]; vm_compute in Ha; try discriminate Ha; vm_compute in E; discriminate E.
Qed.

Lemma created_after a b : before a b -> le_of created_gt (toChatMessage a) (toChatMessage b).
Proof.
  unfold before, le_of, created_gt. rewrite message_gt_cursor. intros H%Z.ltb_lt%compareCursors_micros. simpl in *.
  apply Z.ltb_ge. apply Z.div_le_mono; lia.
Qed.

Lemma created_sorted l : StronglySorted before l -> StronglySorted (le_of created_gt) (toChatMessage <$> l).
Proof.
  induction 1 as [|x l Hs IH Hx]; csimpl; constructor; [done|]. apply Forall_fmap. eapply Forall_impl; [exact Hx|].
  intros y. apply created_after.
Qed.

(** The optimistic messages that none of [l] confirms. *)
Definition unconfirmed (l : list ChatMessage) (loc : list ChatMessage) : list ChatMessage :=
  List.filter (fun y => forallb (fun m => negb (copy_of m y)) l) loc.

Lemma unconfirmed_one x loc : unconfirmed [x] loc = List.filter (fun y => negb (copy_of x y)) loc.
Proof. apply List.filter_ext. intros y. simpl. apply andb_true_r. Qed.

Lemma nodup_app_filter {A B} (f : A -> B) (g : A -> bool) l1 l2 :
  NoDup (f <$> l1 ++ l2) -> NoDup (f <$> l1 ++ List.filter g l2).
Proof.
  intros H. eapply sublist_NoDup; [exact H|]. apply fmap_sublist, sublist_app; [done|]. clear H. induction l2 as [|x l IH]; simpl; [done|].
  destruct (g x); [by apply sublist_skip|by apply sublist_cons].
Qed.

Lemma page_filter conf loc g : page conf loc -> page conf (List.filter g loc).
Proof. intros []. split; [by apply nodup_app_filter|done| |done]. intros y [Hy _]%elem_of_listfilter. auto. Qed.

(** Confirming drops the optimistic copy, and only that. *)
Lemma confirm_page x conf loc : page conf loc ->
  confirm x (entry <$> conf ++ loc) = map_set (cm_id x) x (entry <$> conf ++ unconfirmed [x] loc).
Proof.
  intros Hp. unfold confirm. f_equal. rewrite unconfirmed_one. unfold copy_of.
  destruct (cm_client_message_id x) as [c|]; [destruct (c ==s "")|]; simpl.
  1,3: by rewrite (filter_every _ loc).
  unfold map_delete. rewrite !fmap_app, List.filter_app. f_equal.
  - apply filter_every. intros kv (y & -> & Hy)%list_elem_of_fmap. apply negb_true_iff, String.eqb_neq. simpl. intros E.
    pose proof (pg_conf _ _ Hp y Hy) as H. unfold is_local in H. by rewrite E, local_prefix in H.
  - clear. induction loc as [|y l IH]; [done|]. simpl. destruct (cm_id y ==s localMessageId c); simpl; [exact IH|f_equal; exact IH].
Qed.

Lemma merge_there x conf loc : page conf loc -> x ∈ conf -> mergeMessages (conf ++ loc) [x] = conf ++ unconfirmed [x] loc.
Proof.
  intros Hp Hx. unfold mergeMessages. rewrite build_entries by apply Hp. simpl. rewrite confirm_page by done.
  destruct (page_filter _ _ (fun y => forallb (fun m => negb (copy_of m y)) [x]) Hp) as [Hids Hc Hl Hs].
  change (List.filter _ loc) with (unconfirmed [x] loc) in Hids, Hl.
  rewrite map_set_same.
  - rewrite <- list_fmap_compose, list_fmap_id. by apply page_order.
  - by rewrite <- list_fmap_compose.
  - apply (list_elem_of_fmap_2 entry), elem_of_app. by left.
Qed.

Lemma sorted_snoc {A} (R : A -> A -> Prop) l x : StronglySorted R l -> (forall y, y ∈ l -> R y x) -> StronglySorted R (l ++ [x]).
Proof. intros Hs H. apply StronglySorted_app_all; [done|repeat constructor|]. by intros y z Hy ->%list_elem_of_singleton; apply H. Qed.

Lemma merge_next x conf loc :
  page conf loc -> is_local x = false -> cm_id x ∉ cm_id <$> conf -> (forall y, y ∈ conf -> le_of created_gt y x) ->
  mergeMessages (conf ++ loc) [x] = (conf ++ [x]) ++ unconfirmed [x] loc /\ page (conf ++ [x]) (unconfirmed [x] loc).
Proof.
  intros Hp Hx Hnew Hafter. pose proof Hp as [Hids Hc Hl Hs].
  assert (Hnl : cm_id x ∉ cm_id <$> loc).
  { intros (y & E & Hy)%list_elem_of_fmap. specialize (Hl y Hy). unfold is_local in *. congruence. }
  assert (Hl' : forall y, y ∈ unconfirmed [x] loc -> is_local y = true) by by intros y [Hy _]%elem_of_listfilter; apply Hl.
  assert (Hpage : page (conf ++ [x]) (unconfirmed [x] loc)).
  { split; [apply nodup_app_filter| |done|by apply sorted_snoc].
    - rewrite <- app_assoc. simpl. rewrite fmap_app, fmap_cons, <- Permutation_middle, <- fmap_app. apply NoDup_cons. split; [|done].
      rewrite fmap_app. by intros [?|?]%elem_of_app.
    - intros y [Hy| ->%list_elem_of_singleton]%elem_of_app; auto. }
  split; [|done]. unfold mergeMessages. rewrite build_entries by done. simpl. rewrite confirm_page, map_set_new.
  - rewrite fmap_app, <- list_fmap_compose, list_fmap_id. simpl.
    rewrite !List.filter_app, (filter_every _ conf), (filter_none _ (unconfirmed [x] loc)), app_nil_r.
    + simpl. rewrite Hx. simpl. rewrite js_sort_id by apply Hpage.
      rewrite (filter_none is_local conf), (filter_every is_local (unconfirmed [x] loc)), app_nil_r; done.
    + intros y Hy. by rewrite Hl'.
    + intros y Hy. by rewrite Hc.
  - rewrite <- list_fmap_compose. simpl. rewrite fmap_app. intros [?|Hin]%elem_of_app; [done|]. apply Hnl.
    apply list_elem_of_fmap in Hin as (y & -> & [Hy _]%elem_of_listfilter). by apply list_elem_of_fmap_2.
  - done.
Qed.

Definition follow (ui : list ChatMessage) (events : list ChatMessage) : list ChatMessage :=
  fold_left (fun ui x => mergeMessages ui [x]) events ui.

Lemma follow_app ui l1 l2 : follow ui (l1 ++ l2) = follow (follow ui l1) l2.
Proof. apply fold_left_app. Qed.

Lemma unconfirmed_cons x l loc : unconfirmed l (unconfirmed [x] loc) = unconfirmed (x :: l) loc.
Proof.
  unfold unconfirmed. induction loc as [|y loc IH]; [done|]. simpl. destruct (copy_of x y); simpl; [exact IH|].
  destruct (forallb _ l); simpl; [f_equal; exact IH|exact IH].
Qed.

Lemma follow_replay l conf loc : page conf loc -> l ⊆ conf -> follow (conf ++ loc) l = conf ++ unconfirmed l loc.
Proof.
  revert loc. induction l as [|x l IH]; intros loc Hp Hl.
  - unfold unconfirmed. simpl. by rewrite filter_every.
  - simpl. rewrite merge_there; [|done|apply Hl; left]. rewrite IH; [by rewrite unconfirmed_cons|by apply page_filter|].
    intros y Hy. apply Hl. by right.
Qed.

Lemma follow_next l conf loc :
  page conf loc -> (forall x, x ∈ l -> is_local x = false) -> NoDup (cm_id <$> conf ++ l) ->
  StronglySorted (le_of created_gt) (conf ++ l) -> follow (conf ++ loc) l = (conf ++ l) ++ unconfirmed l loc.
Proof.
  revert conf loc. induction l as [|x l IH]; intros conf loc Hp Hl Hn Hs.
  - unfold unconfirmed. simpl. by rewrite filter_every, app_nil_r.
  - simpl. destruct (merge_next x conf loc) as [E Hp']; [done|apply Hl; left| | |].
    + rewrite fmap_app, fmap_cons in Hn. apply NoDup_app in Hn as (_ & Hd & _). intros Hin. apply (Hd _ Hin). left.
    + clear -Hs. intros y Hy. induction conf as [|z conf IH]; [by apply elem_of_nil in Hy|].
      inversion Hs as [|? ? Hs' Hz]; subst. apply elem_of_cons in Hy as [->|Hy]; [|by apply IH].
      rewrite Forall_forall in Hz. apply Hz, elem_of_app. right. left.
    + rewrite E, IH, unconfirmed_cons, <- app_assoc; try done; rewrite <- ?app_assoc; try done.
      intros y Hy. apply Hl. by right.
Qed.

Lemma unconfirmed_app l1 l2 loc : unconfirmed l2 (unconfirmed l1 loc) = unconfirmed (l1 ++ l2) loc.
Proof.
  revert loc. induction l1 as [|x l1 IH]; intros loc; simpl.
  - unfold unconfirmed at 2. simpl. by rewrite filter_every.
  - by rewrite <- (unconfirmed_cons x l1), IH, unconfirmed_cons.
Qed.

