(* ===== verification/Portal.v ===== *)
(** * The portal's side of a conversation ([apps/web/src/components/build/conversation.ts])

    The reducer behind a build's page, the send it makes for the person, and the
    page as a state machine: what the person does, what the service answers and
    what the stream brings, in any order. *)
From S2P Require Import Prelude JsString Regex JsNumber Spec Db Chat Auth Sse Transcript.
#[local] Open Scope string_scope.
#[local] Open Scope list_scope.
#[local] Open Scope Z_scope.

Section Conversation.
(** The ready card, the spec as intake wrote it, and candidate parts are passed
    on as they are. *)
Context {Card SpecData Candidate : Type}.

Record BuildTranscript := mkTranscript {
  bt_buildId : string;
  bt_messages : list ChatMessage;
  bt_ready : option Card;
  bt_status : option BuildStatus;
  bt_specVersion : option nat;
  bt_spec : option SpecData;
  bt_candidateParts : list Candidate
}.

Record ConversationState := mkConversation {
  cs_buildId : option string;
  cs_messages : list ChatMessage;
  cs_ready : option Card;
  cs_status : option BuildStatus;
  cs_specVersion : option nat;
  cs_spec : option SpecData;
  cs_candidateParts : list Candidate;
  cs_draft : string;
  cs_error : option string;
  cs_refreshError : option string;
  cs_detailsStale : bool;
  cs_observedSpecVersion : option nat;
  cs_sending : bool;
  cs_checks : nat;
  cs_overdue : bool;
  cs_unsent : option (string * string)
}.

Inductive ConversationEvent :=
| EDraft (text : string)
| ESent (text : string) (at_ : Z) (clientMessageId : string)
| ECreated (transcript : BuildTranscript)
| EAccepted (message : ChatMessage)
| EFailed (message text clientMessageId : string)
| EMessageCreated (message : ChatMessage)
| EBuildUpdated (status : BuildStatus) (specVersion : option nat)
| ERefreshed (transcript : BuildTranscript)
| ERefreshRequested
| ERefreshFailed (message : string)
| EOverdue (message : string)
| EChecking.

Definition initConversation (initial : option BuildTranscript) (draft : string) : ConversationState :=
  mkConversation (bt_buildId <$> initial) (from_option bt_messages [] initial) (initial ≫= bt_ready) (initial ≫= bt_status)
    (initial ≫= bt_specVersion) (initial ≫= bt_spec) (from_option bt_candidateParts [] initial) draft None None false
    (initial ≫= bt_specVersion) false 0 false None.

Definition isTyping (s : ConversationState) : bool := awaitingReply (cs_messages s) && negb (cs_overdue s).

(** [{ ...state, ... }] *)
Definition with_messages (l : list ChatMessage) (s : ConversationState) : ConversationState :=
  mkConversation (cs_buildId s) l (cs_ready s) (cs_status s) (cs_specVersion s) (cs_spec s) (cs_candidateParts s) (cs_draft s)
    (cs_error s) (cs_refreshError s) (cs_detailsStale s) (cs_observedSpecVersion s) (cs_sending s) (cs_checks s) (cs_overdue s)
    (cs_unsent s).
Definition with_buildId (b : option string) (s : ConversationState) : ConversationState :=
  mkConversation b (cs_messages s) (cs_ready s) (cs_status s) (cs_specVersion s) (cs_spec s) (cs_candidateParts s) (cs_draft s)
    (cs_error s) (cs_refreshError s) (cs_detailsStale s) (cs_observedSpecVersion s) (cs_sending s) (cs_checks s) (cs_overdue s)
    (cs_unsent s).
Definition with_draft (text : string) (s : ConversationState) : ConversationState :=
  mkConversation (cs_buildId s) (cs_messages s) (cs_ready s) (cs_status s) (cs_specVersion s) (cs_spec s) (cs_candidateParts s)
    text (cs_error s) (cs_refreshError s) (cs_detailsStale s) (cs_observedSpecVersion s) (cs_sending s) (cs_checks s)
    (cs_overdue s) (cs_unsent s).
Definition with_wait (error : option string) (checks : nat) (overdue : bool) (s : ConversationState) : ConversationState :=
  mkConversation (cs_buildId s) (cs_messages s) (cs_ready s) (cs_status s) (cs_specVersion s) (cs_spec s) (cs_candidateParts s)
    (cs_draft s) error (cs_refreshError s) (cs_detailsStale s) (cs_observedSpecVersion s) (cs_sending s) checks overdue
    (cs_unsent s).
Definition with_send (sending : bool) (unsent : option (string * string)) (s : ConversationState) : ConversationState :=
  mkConversation (cs_buildId s) (cs_messages s) (cs_ready s) (cs_status s) (cs_specVersion s) (cs_spec s) (cs_candidateParts s)
    (cs_draft s) (cs_error s) (cs_refreshError s) (cs_detailsStale s) (cs_observedSpecVersion s) sending (cs_checks s)
    (cs_overdue s) unsent.
Definition with_refresh (error : option string) (stale : bool) (s : ConversationState) : ConversationState :=
  mkConversation (cs_buildId s) (cs_messages s) (cs_ready s) (cs_status s) (cs_specVersion s) (cs_spec s) (cs_candidateParts s)
    (cs_draft s) (cs_error s) error stale (cs_observedSpecVersion s) (cs_sending s) (cs_checks s) (cs_overdue s) (cs_unsent s).
Definition with_observed (status : option BuildStatus) (observed : option nat) (s : ConversationState) : ConversationState :=
  mkConversation (cs_buildId s) (cs_messages s) (cs_ready s) status (cs_specVersion s) (cs_spec s) (cs_candidateParts s)
    (cs_draft s) (cs_error s) (cs_refreshError s) (cs_detailsStale s) observed (cs_sending s) (cs_checks s) (cs_overdue s)
    (cs_unsent s).
Definition with_details (t : BuildTranscript) (s : ConversationState) : ConversationState :=
  mkConversation (cs_buildId s) (cs_messages s) (bt_ready t) (bt_status t) (bt_specVersion t) (bt_spec t) (bt_candidateParts t)
    (cs_draft s) (cs_error s) None false (bt_specVersion t) (cs_sending s) (cs_checks s) (cs_overdue s) (cs_unsent s).

(** [v ?? 0] *)
Definition ver (v : option nat) : nat := default 0%nat v.

Definition withTranscript (s : ConversationState) (t : BuildTranscript) : ConversationState :=
  let merged := with_buildId (Some (bt_buildId t)) (with_messages (mergeMessages (cs_messages s) (bt_messages t)) s) in
  if Nat.ltb (ver (bt_specVersion t)) (ver (cs_observedSpecVersion s)) then merged else with_details t merged.

Definition settleOverdue (s : ConversationState) : ConversationState :=
  if (cs_overdue s || Nat.ltb 0 (cs_checks s)) && negb (awaitingReply (cs_messages s)) then with_wait None 0 false s else s.

(** The bubble of a message on its way. *)
Definition bubble (text : string) (at_ : Z) (clientMessageId : string) : ChatMessage :=
  mkChat (localMessageId clientMessageId) user text at_ (Some clientMessageId).

Definition conversationReducer (s : ConversationState) (event : ConversationEvent) : ConversationState :=
  match event with
  | EDraft text => with_draft text s
  | ESent text at_ id =>
      with_messages (cs_messages s ++ [bubble text at_ id]) (with_wait None 0 false (with_draft "" (with_send true (cs_unsent s) s)))
  | ECreated t => settleOverdue (with_send false None (withTranscript s t))
  | EAccepted m => settleOverdue (with_messages (mergeMessages (cs_messages s) [m]) (with_send false None s))
  | EFailed message text id =>
      with_messages (List.filter (fun m => negb (cm_id m ==s localMessageId id)) (cs_messages s))
        (with_draft (if cs_draft s ==s "" then text else cs_draft s)
           (with_wait (Some message) (cs_checks s) (cs_overdue s) (with_send false (Some (text, id)) s)))
  | EMessageCreated m => settleOverdue (with_messages (mergeMessages (cs_messages s) [m]) s)
  | EBuildUpdated status v =>
      let observed := Nat.max (ver (cs_observedSpecVersion s)) (ver v) in
      with_observed (Some status) (if Nat.eqb observed 0 then None else Some observed)
        (with_refresh (cs_refreshError s)
           (cs_detailsStale s || negb (bool_decide (v = cs_specVersion s)) || negb (bool_decide (Some status = cs_status s))) s)
  | ERefreshRequested => with_refresh None true s
  | ERefreshed t => settleOverdue (withTranscript s t)
  | ERefreshFailed message => with_wait (cs_error s) (cs_checks s) (awaitingReply (cs_messages s)) (with_refresh (Some message) true s)
  | EOverdue message => if awaitingReply (cs_messages s) then with_wait (Some message) (cs_checks s) true s else s
  | EChecking => with_wait None (S (cs_checks s)) false s
  end.

(** The id of a send: the failed one's again for the same text. *)
Definition clientMessageIdFor (unsent : option (string * string)) (text newId : string) : string :=
  match unsent with Some (t, id) => if t ==s text then id else newId | None => newId end.

(** What [runSend] dispatches for what its call came back with: the new build's
    transcript, the accepted message, or a message for the person. *)
Inductive SendResult := SentCreated (t : BuildTranscript) | SentAccepted (m : ChatMessage) | SendFailed (message : string).
Definition outcome (text id : string) (r : SendResult) : ConversationEvent :=
  match r with
  | SentCreated t => ECreated t
  | SentAccepted m => EAccepted m
  | SendFailed message => EFailed message text id
  end.

(** ** The page as a state machine

    With the text and id of the send on its way, if any. *)
Record Page := mkPage { pg_state : ConversationState; pg_inflight : option (string * string) }.

(** [send] of BuildConversation.tsx *)
Definition can_send (s : ConversationState) (text : string) : bool :=
  negb (trim text ==s "") && negb (cs_sending s) && negb (isTyping s).

(** The service confirms a send under its client id. When the transcript of a
    build just created cannot be read, the portal makes one of the ask alone. *)
Definition confirms (id : string) (l : list ChatMessage) : Prop :=
  exists m, m ∈ l /\ cm_client_message_id m = Some id.
Definition answers_send (text id : string) (r : SendResult) : Prop :=
  match r with
  | SentCreated t =>
      (from_service (bt_messages t) /\ confirms id (bt_messages t)) \/ exists at_, bt_messages t = [bubble text at_ id]
  | SentAccepted m => is_local m = false /\ cm_client_message_id m = Some id
  | SendFailed _ => True
  end.

(** Events that the person's typing, the stream and refreshes dispatch. *)
Definition unprompted (e : ConversationEvent) : Prop :=
  match e with
  | EMessageCreated m => is_local m = false
  | ERefreshed t => from_service (bt_messages t)
  | ESent _ _ _ | ECreated _ | EAccepted _ | EFailed _ _ _ => False
  | _ => True
  end.

(** [newId] is a random one: no bubble carries it. *)
Inductive page_step : Page -> Page -> Prop :=
| step_send s text at_ newId :
    can_send s text = true -> newId <> "" -> localMessageId newId ∉ cm_id <$> cs_messages s ->
    let id := clientMessageIdFor (cs_unsent s) (trim text) newId in
    page_step (mkPage s None) (mkPage (conversationReducer s (ESent (trim text) at_ id)) (Some (trim text, id)))
| step_answer s text id r :
    answers_send text id r ->
    page_step (mkPage s (Some (text, id))) (mkPage (conversationReducer s (outcome text id r)) None)
| step_event s i e :
    unprompted e -> page_step (mkPage s i) (mkPage (conversationReducer s e) i).
End Conversation.
Arguments BuildTranscript : clear implicits.
Arguments ConversationState : clear implicits.
Arguments ConversationEvent : clear implicits.
Arguments Page : clear implicits.
Arguments SendResult : clear implicits.
