(* ===== verification/PortalSpec.v ===== *)
(** * What a build's page keeps true

    However sends, answers, stream events and refreshes interleave, the page
    stays a page, never goes back to older details, and says when the details it
    shows are behind; a send repeated after a failure is stored once. *)
From stdpp Require Import relations.
From S2P Require Import Prelude JsString Regex JsNumber Spec Db Chat Auth Sse Transcript Portal.
#[local] Open Scope string_scope.
#[local] Open Scope list_scope.
#[local] Open Scope Z_scope.

Section Page.
Context {Card SpecData Candidate : Type}.
Notation State := (ConversationState Card SpecData Candidate).
Notation Page := (Page Card SpecData Candidate).

(** An optimistic message is the person's, under its own client id. *)
Definition is_bubble (y : ChatMessage) : Prop := exists text at_ c, c <> "" /\ y = bubble text at_ c.

Definition bubble_ids (l : list ChatMessage) (id : string) : Prop := localMessageId id ∈ cm_id <$> l.

Record shows_page (l : list ChatMessage) : Prop := {
  sp_page : exists conf loc, l = conf ++ loc /\ page conf loc;
  sp_bubbles : forall y, y ∈ l -> is_local y = true -> is_bubble y
}.

Record consistent (p : Page) : Prop := {
  co_page : shows_page (cs_messages (pg_state p));
  co_sending : cs_sending (pg_state p) = bool_decide (is_Some (pg_inflight p));
  co_inflight : forall text id, pg_inflight p = Some (text, id) -> id <> "";
  co_unsent : forall text id, cs_unsent (pg_state p) = Some (text, id) ->
    id <> "" /\ (~ bubble_ids (cs_messages (pg_state p)) id \/ exists t, pg_inflight p = Some (t, id));
  co_behind : (ver (cs_specVersion (pg_state p)) <= ver (cs_observedSpecVersion (pg_state p)))%nat;
  co_stale : cs_detailsStale (pg_state p) = false ->
    ver (cs_specVersion (pg_state p)) = ver (cs_observedSpecVersion (pg_state p))
}.

(** ** Messages *)
Lemma localMessageId_inj a b : localMessageId a = localMessageId b -> a = b.
Proof. apply (inj (String.append _)). Qed.

Lemma page_NoDup l : shows_page l -> NoDup (cm_id <$> l).
Proof. intros [(conf & loc & -> & Hp) _]. apply Hp. Qed.

(** Nothing appears that was not there and did not come in. *)
Lemma fold_values (f : list (string * ChatMessage) -> ChatMessage -> list (string * ChatMessage)) l byId y :
  (forall b m, keyed b -> keyed (f b m)) -> (forall b m y, keyed b -> y ∈ (f b m).*2 -> y = m \/ y ∈ b.*2) ->
  keyed byId -> y ∈ (fold_left f l byId).*2 -> y ∈ l \/ y ∈ byId.*2.
Proof.
  intros Hk Hf. revert byId. induction l as [|m l IH]; intros byId Hb Hy; simpl in *; [by right|].
  apply IH in Hy as [?|Hy]; [left; by right| |by apply Hk]. apply Hf in Hy as [->|?]; [left; left|by right|done].
Qed.

Lemma merge_only current incoming y : y ∈ mergeMessages current incoming -> y ∈ current \/ y ∈ incoming.
Proof.
  rewrite mergeMessages_perm. unfold merged. intros Hy.
  assert (Hk : keyed []) by (split; [constructor|by intros ? ?%elem_of_nil]).
  assert (Hset : forall (b : list (string * ChatMessage)) m, keyed b -> keyed (map_set (cm_id m) m b)) by (intros; by apply keyed_set).
  apply fold_values in Hy as [?|Hy]; [by right|left| | |].
  - apply fold_values in Hy as [?|?%elem_of_nil]; [done|done|done| |done].
    intros b m z Hb Hz. apply set_values in Hz; [naive_solver|done].
  - intros; by apply keyed_confirm.
  - intros b m z Hb Hz. apply confirm_values in Hz; [naive_solver|done].
  - by apply keyed_fold.
Qed.

Lemma bubble_local text at_ c : is_local (bubble text at_ c) = true.
Proof. apply local_prefix. Qed.

Lemma shows_merge current incoming :
  shows_page current -> (forall y, y ∈ incoming -> is_local y = true -> is_bubble y) -> shows_page (mergeMessages current incoming).
Proof.
  intros [_ Hb] Hi. split; [apply merge_page|]. intros y [Hy|Hy]%merge_only; auto.
Qed.

Lemma shows_service l : from_service l -> forall y, y ∈ l -> is_local y = true -> is_bubble y.
Proof. intros [_ H] y Hy Hl. by rewrite (H y Hy) in Hl. Qed.

(** An id no bubble carries stays so, unless it comes in. *)
Lemma no_bubble_merge current incoming id :
  ~ bubble_ids current id -> ~ bubble_ids incoming id -> ~ bubble_ids (mergeMessages current incoming) id.
Proof.
  intros Hc Hi (y & E & [Hy|Hy]%merge_only)%list_elem_of_fmap; [apply Hc|apply Hi]; unfold bubble_ids; rewrite E;
    by apply list_elem_of_fmap_2.
Qed.

Lemma no_bubble_service l id : from_service l -> ~ bubble_ids l id.
Proof.
  intros [_ H] (y & E & Hy)%list_elem_of_fmap. specialize (H y Hy). unfold is_local in H. by rewrite <- E, local_prefix in H.
Qed.

Lemma from_service_one m : is_local m = false -> from_service [m].
Proof. intros H. split; [apply NoDup_singleton|]. by intros x ->%list_elem_of_singleton. Qed.

Lemma shows_sent l text at_ id :
  shows_page l -> ~ bubble_ids l id -> id <> "" -> shows_page (l ++ [bubble text at_ id]).
Proof.
  intros [(conf & loc & -> & [Hn Hc Hl Hs]) Hb] Hid Hne. split.
  - exists conf, (loc ++ [bubble text at_ id]). rewrite <- app_assoc. split; [done|]. split; [|done| |done].
    + rewrite app_assoc, fmap_app. apply NoDup_app. split_and!; [done| |apply NoDup_singleton].
      intros x Hx ->%list_elem_of_singleton. by apply Hid.
    + intros y [Hy| ->%list_elem_of_singleton]%elem_of_app; [by apply Hl|apply bubble_local].
  - intros y [Hy| ->%list_elem_of_singleton]%elem_of_app; [by apply Hb|]. intros _. by exists text, at_, id.
Qed.

Lemma shows_filter l id : shows_page l -> shows_page (List.filter (fun m => negb (cm_id m ==s localMessageId id)) l).
Proof.
  intros [(conf & loc & -> & Hp) Hb]. split.
  - exists conf, (List.filter (fun m => negb (cm_id m ==s localMessageId id)) loc). rewrite List.filter_app. split.
    + f_equal. apply filter_every. intros y Hy. apply negb_true_iff, String.eqb_neq. intros E.
      pose proof (pg_conf _ _ Hp y Hy) as H. unfold is_local in H. by rewrite E, local_prefix in H.
    + by apply page_filter.
  - intros y [Hy _]%elem_of_listfilter. by apply Hb.
Qed.

Lemma filtered_no_bubble l id : ~ bubble_ids (List.filter (fun m => negb (cm_id m ==s localMessageId id)) l) id.
Proof.
  intros (y & E & [_ H]%elem_of_listfilter)%list_elem_of_fmap. apply negb_true_iff, String.eqb_neq in H. by rewrite <- E in H.
Qed.

(** ** Versions *)
Record same_versions (s s' : State) : Prop := {
  sv_spec : cs_specVersion s' = cs_specVersion s;
  sv_observed : cs_observedSpecVersion s' = cs_observedSpecVersion s;
  sv_stale : cs_detailsStale s' = false -> cs_detailsStale s = false
}.

Definition versions_ok (s : State) : Prop :=
  (ver (cs_specVersion s) <= ver (cs_observedSpecVersion s))%nat /\
  (cs_detailsStale s = false -> ver (cs_specVersion s) = ver (cs_observedSpecVersion s)).
Definition versions_le (s s' : State) : Prop :=
  (ver (cs_specVersion s) <= ver (cs_specVersion s'))%nat /\ (ver (cs_observedSpecVersion s) <= ver (cs_observedSpecVersion s'))%nat.

Lemma settle_fields (s : State) :
  cs_messages (settleOverdue s) = cs_messages s /\ cs_sending (settleOverdue s) = cs_sending s /\
  cs_unsent (settleOverdue s) = cs_unsent s /\ cs_specVersion (settleOverdue s) = cs_specVersion s /\
  cs_observedSpecVersion (settleOverdue s) = cs_observedSpecVersion s /\ cs_detailsStale (settleOverdue s) = cs_detailsStale s.
Proof. unfold settleOverdue. by case_match. Qed.

Lemma transcript_fields (s : State) t :
  cs_messages (withTranscript s t) = mergeMessages (cs_messages s) (bt_messages t) /\
  cs_sending (withTranscript s t) = cs_sending s /\ cs_unsent (withTranscript s t) = cs_unsent s.
Proof. unfold withTranscript. by case_match. Qed.

Lemma transcript_versions (s : State) t :
  versions_ok s -> versions_ok (withTranscript s t) /\ versions_le s (withTranscript s t).
Proof.
  unfold withTranscript, versions_ok, versions_le. intros [Hle Hs]. destruct (Nat.ltb_spec (ver (bt_specVersion t)) (ver (cs_observedSpecVersion s)));
    simpl; split_and!; auto; lia.
Qed.

Lemma reducer_versions (s : State) e :
  versions_ok s -> versions_ok (conversationReducer s e) /\ versions_le s (conversationReducer s e).
Proof.
  intros Hv. pose proof Hv as [Hle Hs]. unfold versions_ok, versions_le in *.
  destruct e as [text|text at_ id|t|m|message text id|m|status v|t| |message|message|]; simpl;
    repeat match goal with |- context [settleOverdue ?x] =>
      let E := fresh in destruct (settle_fields x) as (_ & _ & _ & E1 & E2 & E3); rewrite ?E1, ?E2, ?E3; clear E1 E2 E3 end; simpl;
    try (by split_and!; auto); try (by case_match; simpl; split_and!; auto); try (apply transcript_versions; by split).
  set (n := Nat.max _ _). assert (Hn : ver (if Nat.eqb n 0 then None else Some n) = n) by by destruct n.
  rewrite Hn. split_and!; [lia| |lia|lia]. intros [[H1 H2]%orb_false_iff H3]%orb_false_iff.
  apply negb_false_iff, bool_decide_eq_true in H2. specialize (Hs H1). subst v. lia.
Qed.

Lemma consistent_versions p : consistent p -> versions_ok (pg_state p).
Proof. intros []. by split. Qed.

(** What a step needs to keep, the versions apart. *)
Lemma consistent_intro s i :
  versions_ok s -> shows_page (cs_messages s) -> cs_sending s = bool_decide (is_Some i) ->
  (forall text id, i = Some (text, id) -> id <> "") ->
  (forall text id, cs_unsent s = Some (text, id) ->
     id <> "" /\ (~ bubble_ids (cs_messages s) id \/ exists t, i = Some (t, id))) ->
  consistent (mkPage s i).
Proof. intros [? ?] ? ? ? ?. by split. Qed.

Lemma send_consistent (s : State) text at_ newId :
  consistent (mkPage s None) -> newId <> "" -> ~ bubble_ids (cs_messages s) newId ->
  let id := clientMessageIdFor (cs_unsent s) text newId in
  consistent (mkPage (conversationReducer s (ESent text at_ id)) (Some (text, id))).
Proof.
  intros Hc Hne Hnew id. pose proof Hc as [Hp Hs _ Hu _ _]. simpl in *.
  assert (Hid : id <> "" /\ ~ bubble_ids (cs_messages s) id).
  { unfold id, clientMessageIdFor. destruct (cs_unsent s) as [[t c]|] eqn:E; [|done]. destruct (t ==s text); [|done].
    by destruct (Hu t c eq_refl) as [? [?|[? [=]]]]. }
  destruct Hid as [Hid Hnb]. apply consistent_intro.
  - exact (proj1 (reducer_versions s (ESent text at_ id) (consistent_versions _ Hc))).
  - by apply shows_sent.
  - done.
  - by intros ? ? [= <- <-].
  - simpl. intros t c E. destruct (Hu t c E) as [Hcne [Hcb|[? [=]]]]. split; [done|].
    destruct (decide (c = id)) as [->|N]; [right; by exists text|left]. unfold bubble_ids. rewrite fmap_app.
    intros [?|Hin%list_elem_of_singleton]%elem_of_app; [done|]. by apply N, localMessageId_inj.
Qed.

Lemma answer_consistent (s : State) text id r :
  consistent (mkPage s (Some (text, id))) -> answers_send text id r ->
  consistent (mkPage (conversationReducer s (outcome text id r)) None).
Proof.
  intros Hc Hr. pose proof Hc as [Hp Hs Hi Hu _ _]. simpl in *. specialize (Hi text id eq_refl).
  pose proof (proj1 (reducer_versions s (outcome text id r) (consistent_versions _ Hc))) as Hv.
  destruct r as [t|m|message]; simpl in Hr, Hv |- *.
  - destruct (settle_fields (with_send false None (withTranscript s t))) as (E1 & E2 & E3 & _).
    destruct (transcript_fields s t) as (E4 & _).
    apply consistent_intro; rewrite ?E1, ?E2, ?E3; simpl; rewrite ?E4; try done.
    apply shows_merge; [done|]. destruct Hr as [[Hf _]|[at_ ->]]; [by apply shows_service|].
    intros y ->%list_elem_of_singleton _. by exists text, at_, id.
  - destruct (settle_fields (with_messages (mergeMessages (cs_messages s) [m]) (with_send false None s))) as (E1 & E2 & E3 & _).
    apply consistent_intro; rewrite ?E1, ?E2, ?E3; simpl; try done.
    apply shows_merge; [done|]. apply shows_service, from_service_one, Hr.
  - apply consistent_intro; simpl; try done; [by apply shows_filter|].
    intros t c [= -> ->]. split; [done|]. left. apply filtered_no_bubble.
Qed.

Lemma event_consistent (s : State) i e :
  consistent (mkPage s i) -> unprompted e -> consistent (mkPage (conversationReducer s e) i).
Proof.
  intros Hc He. pose proof Hc as [Hp Hs Hi Hu _ _]. simpl in *.
  pose proof (proj1 (reducer_versions s e (consistent_versions _ Hc))) as Hv.
  destruct e as [text| | | | |m|status v|t| |message|message|]; simpl in He, Hv |- *; try done;
    try (apply consistent_intro; simpl; done).
  - destruct (settle_fields (with_messages (mergeMessages (cs_messages s) [m]) s)) as (E1 & E2 & E3 & _).
    apply consistent_intro; rewrite ?E1, ?E2, ?E3; simpl; try done.
    + apply shows_merge; [done|]. by apply shows_service, from_service_one.
    + intros t c Ht. destruct (Hu t c Ht) as [? [?|?]]; split; try done; [left|by right].
      apply no_bubble_merge; [done|]. by apply no_bubble_service, from_service_one.
  - destruct (settle_fields (withTranscript s t)) as (E1 & E2 & E3 & _). destruct (transcript_fields s t) as (E4 & E5 & E6).
    apply consistent_intro; rewrite ?E1, ?E2, ?E3, ?E4, ?E5, ?E6; try done.
    + apply shows_merge; [done|by apply shows_service].
    + intros t' c Ht. destruct (Hu t' c Ht) as [? [?|?]]; split; try done; [left|by right].
      apply no_bubble_merge; [done|by apply no_bubble_service].
  - destruct (awaitingReply (cs_messages s)); apply consistent_intro; simpl; done.
Qed.

Lemma step_consistent p p' : consistent p -> page_step p p' -> consistent p'.
Proof.
  intros Hc Hstep. destruct Hstep as [s text at_ newId _ Hne Hnew|s text id r Hr|s i e He].
  - by apply send_consistent.
  - by apply answer_consistent.
  - by apply event_consistent.
Qed.

(** A page as it opens: the service's transcript, or nothing yet. *)
Definition opens (initial : option (BuildTranscript Card SpecData Candidate)) : Prop :=
  from_service (from_option bt_messages [] initial) /\ StronglySorted (le_of created_gt) (from_option bt_messages [] initial).

Lemma opened_consistent initial draft : opens initial -> consistent (mkPage (initConversation initial draft) None).
Proof.
  intros [[Hn Hl] Hs]. split; simpl; try done.
  split; [exists (from_option bt_messages [] initial), []; rewrite app_nil_r; split; [done|]|].
  - split; rewrite ?app_nil_r; try done. by intros ? ?%elem_of_nil.
  - intros y Hy Hy'. by rewrite (Hl y Hy) in Hy'.
Qed.

(** C36: However the person's sends, the service's answers, the stream and the
    refreshes interleave on a build's page: its messages stay a page (distinct,
    confirmed ones first by time), every optimistic one the person's own under
    its client id; it is sending exactly while a send is on its way; the version
    of the details it shows and the newest one it heard of never go back, the
    first never passes the second, and unless the details are marked stale they
    are the newest heard of. *)
Theorem portal_keeps_page initial draft (p : Page) :
  opens initial -> rtc page_step (mkPage (initConversation initial draft) None) p ->
  shows_page (cs_messages (pg_state p)) /\ cs_sending (pg_state p) = bool_decide (is_Some (pg_inflight p)) /\
  versions_ok (pg_state p) /\ (forall p', page_step p p' -> versions_le (pg_state p) (pg_state p')).
Proof.
  intros Ho Hr. assert (Hc : consistent p).
  { apply opened_consistent with (draft := draft) in Ho. induction Hr as [|p1 p2 p3 H1 _ IH]; [done|]. apply IH.
    by eapply step_consistent. }
  split_and!; [apply Hc|apply Hc|by apply consistent_versions|].
  intros p' Hstep. apply consistent_versions in Hc.
  destruct Hstep as [s text at_ newId|s text id r|s i e]; by apply reducer_versions.
Qed.

(** ** A send repeated *)

(** A send that failed on the page is never stored twice: its text and id
    are remembered (and given back as the draft, unless something newer is
    there), sending the same text again goes out under the same id, and if the
    first attempt had been stored after all, the service answers the second with
    what it stored, in whatever the tables became meanwhile, and changes
    nothing. *)
Theorem resend_stored_once {X} (s : State) text id message newId buildId owner owner' pendingS pendingS'
    (admission admission' : option X) env env' (d d' d2 : Db) m :
  submitUserMessage buildId owner text id pendingS admission env d = (Ok (SCreated m), d') ->
  (forall m', m' ∈ t_messages d2 -> m_buildId m' = buildId -> m_clientMessageId m' = Some id -> m' = m) ->
  m ∈ t_messages d2 -> is_Some (owned_build d2 buildId owner') ->
  let s' := conversationReducer s (EFailed message text id) in
  (cs_draft s' = text \/ (cs_draft s' = cs_draft s /\ cs_draft s <> "")) /\
  clientMessageIdFor (cs_unsent s') text newId = id /\
  submitUserMessage buildId owner' text (clientMessageIdFor (cs_unsent s') text newId) pendingS' admission' env' d2 =
    (Ok (SReplayed m), d2).
Proof.
  intros H1 Huniq Hm Hown s'. assert (Hs : clientMessageIdFor (cs_unsent s') text newId = id).
  { simpl. by rewrite String.eqb_refl. }
  split; [simpl; destruct (String.eqb_spec (cs_draft s) ""); auto|]. split; [done|]. rewrite Hs.
  assert (Hmsg : isUuid buildId = true /\ m_buildId m = buildId /\ m_clientMessageId m = Some id).
  { unfold submitUserMessage in H1. destruct (isUuid buildId); [|done]. simpl in H1.
    repeat case_match; simplify_eq; done. }
  destruct Hmsg as (Hu & Hb & Hc). unfold submitUserMessage. rewrite Hu. simpl. destruct Hown as [b ->].
  destruct (List.find _ (t_messages d2)) as [m'|] eqn:E.
  - apply find_Some_elem in E as [Hm' [Hb'%String.eqb_eq Hc'%bool_decide_eq_true]%andb_true_iff].
    by rewrite (Huniq m' Hm' Hb' Hc').
  - exfalso. pose proof (proj1 (find_None_forall _ _) E m Hm) as Hf. simpl in Hf. unfold of_build in Hf.
    by rewrite Hb, Hc, String.eqb_refl, bool_decide_true in Hf.
Qed.
End Page.
