(* ===== verification/PortalWitness.v ===== *)
(** * Streams and pages on concrete conversations

    A build with a question and its reply, streamed to a page that sent the
    question. *)
From stdpp Require Import gmap relations.
From S2P Require Import Prelude JsString Regex JsNumber Spec Db Chat Auth Leases Sse SseSpec SseOrder Transcript Portal PortalSpec.
#[local] Open Scope string_scope.
#[local] Open Scope list_scope.
#[local] Open Scope Z_scope.

Definition build_id : string := "00000000-0000-4000-8000-0000000000b1".
Definition the_build : Build := mkBuild build_id None (Some "hash") st_asking "a lamp" 1000000 1000000.
Definition question : Message :=
  mkMsg "00000000-0000-4000-8000-000000000001" build_id user "a lamp" (Some "c1") 1000000000500.
Definition reply : Message :=
  mkMsg "00000000-0000-4000-8000-000000000002" build_id assistant "How bright?" None 1000000000501.
Definition tables (l : list Message) : AuthDb := mkAuth [] [] [] [] [] (mkDb [the_build] l [] []).
Definition asked : Snapshot := mkSnapshot (tables [question]) 0.
Definition answered : Snapshot := mkSnapshot (tables [question; reply]) 0.

Definition visitor : StreamCredentials := mkCredentials None (Some "hash").
Definition flushed (_ : nat) : Write := mkWrite true 0.
(** Seconds to the nearest microsecond. *)
Definition to_micros (x : num) : Z := nfloor (nadd (nmul x (of_Z 1000000)) (ndiv (of_Z 1) (of_Z 2))).
Definition hash_id (s : string) : string := s.

Definition two_polls : list (Tick (Snap := Snapshot)) :=
  [Loop false; Batch (Some asked); Loop false; Beat false; Batch (Some answered)].

Notation reading := (readEventBatch hash_id to_micros build_id visitor (lookbackMs DEFAULT_SSE)).
Notation logged := (shown hash_id build_id visitor).

Lemma slack_ok : 0 <= 2 < lookbackMs DEFAULT_SSE * 1000.
Proof. split; by vm_compute. Qed.

Lemma asked_log : logged asked = [question].
Proof. by vm_compute. Qed.
Lemma answered_log : logged answered = [question; reply].
Proof. by vm_compute. Qed.

Lemma two_snapshots d m : d ∈ [asked; answered] -> m ∈ logged d -> (m = question \/ m = reply).
Proof.
  intros [->|[->|[]%elem_of_nil]%elem_of_cons]%elem_of_cons; rewrite ?asked_log, ?answered_log, ?elem_of_cons, elem_of_nil; naive_solver.
Qed.

Lemma two_stored r : r = None \/ r = Some (cursor_of question) ->
  stored logged (window_near to_micros (lookbackMs DEFAULT_SSE) 2) r [asked; answered].
Proof.
  intros Hr. split.
  - intros d1 d2 m1 m2 H1 H2 Hm1 Hm2. destruct (two_snapshots _ _ H1 Hm1) as [->| ->], (two_snapshots _ _ H2 Hm2) as [->| ->]; done.
  - intros d m Hd Hm. destruct (two_snapshots _ _ Hd Hm) as [->| ->]; (split; [by split; vm_compute|by vm_compute]).
  - intros c E. destruct Hr as [->| ->]; [done|]. injection E as <-. by vm_compute.
Qed.

Lemma two_append_only : append_only logged [asked; answered].
Proof.
  split.
  - intros d [->|[->|[]%elem_of_nil]%elem_of_cons]%elem_of_cons; rewrite ?asked_log, ?answered_log; apply (bool_decide_unpack _); by vm_compute.
  - intros pre d post d0 m E Hd0 Hm. destruct pre as [|x [|y pre]]; simplify_eq/=; [by apply elem_of_nil in Hd0| |by destruct pre].
    apply list_elem_of_singleton in Hd0 as ->. rewrite asked_log in Hm. rewrite answered_log. set_solver.
  - intros pre d post d0 m E Hd0 Hm. destruct pre as [|x [|y pre]]; simplify_eq/=; [by apply elem_of_nil in Hd0| |by destruct pre].
    apply list_elem_of_singleton in Hd0 as ->. rewrite asked_log. rewrite answered_log in Hm.
    apply elem_of_cons in Hm as [->|[->|[]%elem_of_nil]%elem_of_cons]; [left; by left|right].
    intros m0 ->%list_elem_of_singleton. by vm_compute.
Qed.

Lemma two_polled : polled reading DEFAULT_SSE None flushed two_polls = [asked; answered].
Proof. by vm_compute. Qed.

Lemma stream_delivers_witness :
  let s := run reading DEFAULT_SSE None flushed two_polls in
  st_out s = [Retry; BuildUpdated (mkState st_asking None) None; MessageCreated (toChatMessage question) (cursor_of question);
              Ping; MessageCreated (toChatMessage reply) (cursor_of reply)] /\
  NoDup (cm_id <$> messages_in (st_out s)) /\ toChatMessage reply ∈ messages_in (st_out s).
Proof.
  intros s. split; [by vm_compute|].
  assert (Hst : stored logged (window_near to_micros (lookbackMs DEFAULT_SSE) 2) None (polled reading DEFAULT_SSE None flushed two_polls)).
  { rewrite two_polled. apply two_stored. by left. }
  assert (Ht : timely logged DEFAULT_SSE 2 (polled reading DEFAULT_SSE None flushed two_polls)).
  { rewrite two_polled. pose proof (chat_source hash_id to_micros build_id visitor (lookbackMs DEFAULT_SSE) 2 slack_ok).
    apply (append_only_timely reading logged (window_near to_micros (lookbackMs DEFAULT_SSE) 2) DEFAULT_SSE 2). exact two_append_only. }
  destruct (stream_delivers hash_id to_micros build_id visitor DEFAULT_SSE None flushed 2 two_polls slack_ok Hst Ht)
    as (Hn & _ & Hall & _).
  assert (Ho : st_closed s = false) by (vm_compute; reflexivity).
  split; [exact Hn|]. apply (Hall Ho answered); [rewrite two_polled; right; left|rewrite answered_log; right; left|reflexivity].
Defined.

(** The visitor's own bubble is replaced, and the reply follows it although both
    have the same millisecond. *)
Definition sent_bubble : ChatMessage := bubble "a lamp" 999999999 "c1".
Definition next_bubble : ChatMessage := bubble "red" 1000000007 "c2".


Lemma mergeMessages_page_witness :
  mergeMessages [toChatMessage reply; sent_bubble] [toChatMessage question] = [toChatMessage reply; toChatMessage question] /\
  (exists conf loc, mergeMessages [toChatMessage reply; sent_bubble] [toChatMessage question] = conf ++ loc /\ page conf loc).
Proof.
  split; [by vm_compute|].
  refine (proj1 (mergeMessages_page [toChatMessage reply; sent_bubble] [toChatMessage question] _ _)).
  - apply (bool_decide_unpack _); by vm_compute.
  - split; [apply NoDup_singleton|]. intros m ->%list_elem_of_singleton. by vm_compute.
Defined.

(** ** A page: its send fails, the build is there after all, the stream delivers *)
Definition the_transcript : BuildTranscript unit unit unit :=
  mkTranscript build_id [toChatMessage question] None (Some st_asking) None None [].
Definition empty_page : Page unit unit unit := mkPage (initConversation None "") None.

Definition after (p : Page unit unit unit) (e : ConversationEvent unit unit unit) (i : option (string * string)) : Page unit unit unit :=
  mkPage (conversationReducer (pg_state p) e) i.
Definition sent : Page unit unit unit := after empty_page (ESent "a lamp" 999999999 "c1") (Some ("a lamp", "c1")).
Definition failed : Page unit unit unit := after sent (EFailed "offline" "a lamp" "c1") None.
Definition sent_again : Page unit unit unit := after failed (ESent "a lamp" 1000000009 "c1") (Some ("a lamp", "c1")).
Definition created : Page unit unit unit := after sent_again (ECreated the_transcript) None.
Definition updated : Page unit unit unit := after created (EBuildUpdated st_specifying (Some 1%nat)) None.

Lemma step_to (p p' q q' : Page unit unit unit) : page_step p q -> p = p' -> q = q' -> page_step p' q'.
Proof. by intros H <- <-. Qed.

Lemma pages_reached : rtc page_step empty_page updated.
Proof.
  apply rtc_l with sent.
  { eapply step_to; [apply (step_send (pg_state empty_page) " a lamp " 999999999 "c1")|by vm_compute..]; [by vm_compute|done|].
    by intros ?%elem_of_nil. }
  apply rtc_l with failed.
  { eapply step_to; [by apply (step_answer (pg_state sent) "a lamp" "c1" (SendFailed "offline"))|by vm_compute..]. }
  apply rtc_l with sent_again.
  { eapply step_to; [apply (step_send (pg_state failed) "a lamp" 1000000009 "c9")|by vm_compute..]; [by vm_compute|done|].
    by intros ?%elem_of_nil. }
  apply rtc_l with created.
  { eapply step_to; [apply (step_answer (pg_state sent_again) "a lamp" "c1" (SentCreated the_transcript))|by vm_compute..]. left. split.
    - split; [apply NoDup_singleton|]. by intros m ->%list_elem_of_singleton.
    - exists (toChatMessage question). split; [left|done]. }
  apply rtc_once.
  eapply step_to; [by apply (step_event (pg_state created) None (EBuildUpdated st_specifying (Some 1%nat)))|by vm_compute..].
Qed.

Lemma portal_keeps_page_witness :
  cs_messages (pg_state updated) = [toChatMessage question] /\ cs_detailsStale (pg_state updated) = true /\
  versions_ok (pg_state updated) /\ shows_page (cs_messages (pg_state updated)).
Proof.
  split; [by vm_compute|]. split; [by vm_compute|].
  assert (Ho : opens (Card := unit) (SpecData := unit) (Candidate := unit) None).
  { split; [split; [constructor|by intros ? ?%elem_of_nil]|constructor]. }
  destruct (portal_keeps_page None "" updated Ho pages_reached) as (H1 & _ & H2 & _). split; [exact H2|exact H1].
Defined.

(** ** The first attempt was stored after all *)
Definition chat_tables : Db := mkDb [the_build] [question] [] [].
Definition env (n : Z) (id : string) : TxEnv := mkEnv n n id id.
Definition stored_red : Message := mkMsg "00000000-0000-4000-8000-000000000003" build_id user "red" (Some "c2") 1000060000500.
Definition anonymous : Owner := mkOwner None (Some "hash").

Lemma resend_stored_once_witness :
  submitUserMessage (X := unit) build_id anonymous "red" "c2" 30 None (env 1000060000500 (m_id stored_red)) chat_tables =
    (Ok (SCreated stored_red), Db.with_messages chat_tables [question; stored_red]) /\
  submitUserMessage build_id anonymous "red" "c2" 30 (Some tt) (env 1000070000000 "unused")
    (Db.with_messages chat_tables [question; stored_red; reply]) =
    (Ok (SReplayed stored_red), Db.with_messages chat_tables [question; stored_red; reply]).
Proof.
  assert (H : submitUserMessage (X := unit) build_id anonymous "red" "c2" 30 None (env 1000060000500 (m_id stored_red)) chat_tables =
    (Ok (SCreated stored_red), Db.with_messages chat_tables [question; stored_red])) by (vm_compute; reflexivity).
  split; [exact H|].
  refine (proj2 (proj2 (resend_stored_once (pg_state updated) "red" "c2" "offline" "c3" build_id anonymous anonymous 30 30 None (Some tt)
    (env 1000060000500 (m_id stored_red)) (env 1000070000000 "unused") chat_tables
    (Db.with_messages chat_tables [question; stored_red]) (Db.with_messages chat_tables [question; stored_red; reply]) stored_red H _ _ _))).
  - intros m Hm _ Hc. apply elem_of_cons in Hm as [->|Hm]; [by vm_compute in Hc|].
    apply elem_of_cons in Hm as [->|[->|[]%elem_of_nil]%elem_of_cons]; [done|by vm_compute in Hc].
  - right. left.
  - exists the_build. by vm_compute.
Defined.

(** What was typed while a send was on its way stays in the input; the text that
    failed to send is then in no message and no input. *)
Lemma newer_draft_kept :
  let busy := conversationReducer (pg_state sent) (EDraft "second thought") in
  let after_failure := conversationReducer busy (EFailed "offline" "a lamp" "c1") in
  cs_draft after_failure = "second thought" /\ cs_messages after_failure = [] /\ cs_unsent after_failure = Some ("a lamp", "c1").
Proof. by vm_compute. Qed.

(** ** Two streams of one owner where two are allowed *)
Definition two_each : StreamLimits := mkLimits 2 3.
Definition history : list (PoolOp (K := string)) :=
  [Acquire "ann"; Acquire "bob"; Acquire "ann"; Release 0; Release 0; Acquire "ann"].
Lemma streams_bounded_witness :
  sr_total (pool_run (reserve two_each) release_stream createStreamRegistry history) = 3 /\
  (reserve two_each "cat" (pool_run (reserve two_each) release_stream createStreamRegistry history)).1 = None.
Proof.
  split; [by vm_compute|].
  destruct (streams_bounded two_each history "cat" 0 ltac:(by vm_compute) ltac:(by vm_compute)) as (_ & _ & _ & [_ H] & _).
  apply H. right. by vm_compute.
Defined.
