(* ===== verification/CloudlinkWitness.v ===== *)
(** * The cloudlink theorems at concrete inputs *)
From stdpp Require Import gmap.
From S2P Require Import Prelude JsString Regex JsNumber JsDate Json Auth Telemetry TelemetrySpec.
From S2P Require Import Jpeg Observations Maintain ObservationSpec.
#[local] Open Scope string_scope.
#[local] Open Scope list_scope.
#[local] Open Scope Z_scope.

(** ** Telemetry

    A device with one channel, a packet it sends, and what follows. The hash is
    the text itself. *)
Definition sha_id (s : string) : string := s.
Definition any_uuid (s : string) : bool := true.
Definition token_a : string := "AAAAAAAAAAAAAAAAAAAAAAAAAAAAAAAAAAAAAAAAAAA".
Definition bearer_a : option string := Some ("Bearer " ++ token_a)%string.
Definition celsius : Channels := [("temp", Some (mkChannel "C" (of_Z (-40)) (of_Z 85)))].
Definition steady : DeviceStatus := mkStatus None (Some (-60)) 10 ["ok"].
Definition now_ms : Z := 1789300000000.
Definition packet (seq : Z) (v : Z) : TelemetryEnvelope :=
  mkEnvelope 1 "d1" seq 1789300000 [mkEnvelopeReading "temp" (-60) (of_Z v)] steady.
Definition provisioned : list Operation := [Provision "d1" "t1" token_a celsius 300].

Definition later : list Operation := [Post now_ms bearer_a (Some (packet 2 21)) Serves; Retain (micros (now_ms + 86400000)) (fun _ => false)].
Definition retried : TelemetryDb :=
  (history sha_id any_uuid (provisioned ++ Post now_ms bearer_a (Some (packet 1 20)) Serves :: later) no_telemetry).2.
Definition retry_answer (e : TelemetryEnvelope) : Reply :=
  if fingerprint_of sha_id e ==s fingerprint_of sha_id (packet 1 20) then Accepted (mkAck 1 300) else Refused 409 "sequence_conflict".

Lemma retry_answered_alike_witness :
  (ingest sha_id any_uuid (now_ms + 8640000000) bearer_a (Some (packet 1 20)) Serves retried = (retry_answer (packet 1 20), retried) /\
   retry_answer (packet 1 20) = Accepted (mkAck 1 300)) /\
  (ingest sha_id any_uuid now_ms bearer_a (Some (packet 1 22)) Serves retried = (retry_answer (packet 1 22), retried) /\
   retry_answer (packet 1 22) = Refused 409 "sequence_conflict").
Proof.
  split; (split; [|vm_compute; reflexivity]).
  - apply (retry_answered_alike sha_id any_uuid provisioned now_ms bearer_a Serves (packet 1 20) (mkAck 1 300)
             later (now_ms + 8640000000) bearer_a token_a (packet 1 20)); [vm_compute; reflexivity..| |vm_compute; reflexivity].
    eexists. vm_compute. reflexivity.
  - apply (retry_answered_alike sha_id any_uuid provisioned now_ms bearer_a Serves (packet 1 20) (mkAck 1 300)
             later now_ms bearer_a token_a (packet 1 22)); [vm_compute; reflexivity..| |vm_compute; reflexivity].
    eexists. vm_compute. reflexivity.
Defined.

Lemma fresh_packet_decided_witness :
  let d := (history sha_id any_uuid provisioned no_telemetry).2 in
  ((acceptable now_ms d (mkDevice "t1" token_a None celsius 300 None None None) (packet 1 20) /\
    (ingest sha_id any_uuid now_ms bearer_a (Some (packet 1 20)) Serves d).1 = Accepted (mkAck 1 300) /\
    d_packets (ingest sha_id any_uuid now_ms bearer_a (Some (packet 1 20)) Serves d).2 !! ("d1", 1) <> None) \/
   (~ acceptable now_ms d (mkDevice "t1" token_a None celsius 300 None None None) (packet 1 20) /\
    exists f, client_error f /\ ingest sha_id any_uuid now_ms bearer_a (Some (packet 1 20)) Serves d = (refuse f, d))) /\
  (ingest sha_id any_uuid now_ms bearer_a (Some (packet 1 99)) Serves d).1 = Refused 422 "value_out_of_range".
Proof.
  split; [|vm_compute; reflexivity].
  apply (fresh_packet_decided sha_id any_uuid provisioned now_ms bearer_a token_a (packet 1 20)
           (mkDevice "t1" token_a None celsius 300 None None None)); [vm_compute; reflexivity..| |vm_compute; reflexivity|].
  - split_and!; [vm_compute; reflexivity|simpl; lia|simpl; lia|by intros c ?%elem_of_nil].
  - intros h [->|?%elem_of_nil]%elem_of_cons; [vm_compute; reflexivity|done].
Defined.

(** ** Observations

    A camera uploads one image, which is stored; a month later the worker expires
    it. The digest of a body is a fixed text. *)
Definition digest_a : string := "aaaaaaaaaaaaaaaaaaaaaaaaaaaaaaaaaaaaaaaaaaaaaaaaaaaaaaaaaaaaaaaa".
Definition sha_bytes (body : list Z) : string := digest_a.
Definition header_of (body : list Z) : option ImageMetadata := Some (mkImageMetadata true 8 8).
Definition decodes_all (body : list Z) (pixels : Z) : bool := true.
Definition tiny : list Z := [0xff; 0xd8; 0xff; 0xd9].
Definition small_day : Options := mkOptions 2 8 6 30000.
Definition camera_device : DeviceRow := mkDevice "t1" token_a None [] 300 None None None.
Definition camera : CapabilityRow := mkCapability "d1" "cam" "image" "jpeg.v1" true None (Some 100) (Some 64) (Some 64).
Definition picture : Metadata := mkMetadata "d1" "o1" "cam" "jpeg.v1" 1789300000 digest_a.
Definition upload : Upload := mkUpload picture token_a "t1" 4 digest_a 8 8.
Definition posted_one (u : Upload) : Prop := u = upload.

Notation cam_step := (step sha_id sha_bytes any_uuid any_uuid header_of decodes_all small_day posted_one).
Notation cam_reachable := (reachable sha_id sha_bytes any_uuid any_uuid header_of decodes_all small_day posted_one).

Definition world0 : World := set_db (with_devices {["d1" := camera_device]} [camera] (w_db no_observations)) no_observations.
Definition reserved_db : ObservationDb :=
  match reserve sha_id small_day now_ms "l1" upload (w_db world0) with Ok (_, d) => d | Err _ => w_db world0 end.
Definition world1 : World := start "l1" (UploadTask upload None) (set_db reserved_db world0).
Definition world2 : World :=
  set_tasks (<["l1" := UploadTask upload (Some (object_of sha_id 1 upload))]> (w_tasks world1))
    (put_object (up_object_key upload) (object_of sha_id 1 upload) world1).
Definition finalised : option (Receipt * ObservationDb) :=
  match finalise sha_id (now_ms + 1000) "l1" upload (object_of sha_id 1 upload) (w_db world2) with Ok x => Some x | Err _ => None end.
Definition stored_receipt : Receipt := store_row (now_ms + 1000) (new_receipt sha_id upload "l1" (now_ms + 30000) (isoDay now_ms)).
Definition stored_db : ObservationDb := from_option snd (w_db world2) finalised.
Definition world3 : World := set_tasks (delete "l1" (w_tasks world2)) (set_db stored_db world2).
Definition much_later : Z := now_ms + 31 * DAY_MS.
Definition world4 : World := set_db (claim small_day much_later "l2" ("d1", "o1") (w_db world3)).2 world3.

Lemma world3_reachable : cam_reachable world3.
Proof.
  apply (reach_step _ _ _ _ _ _ _ _ world2).
  2:{ apply (s_finalise _ _ _ _ _ _ _ _ world2 (now_ms + 1000) "l1" upload (object_of sha_id 1 upload) stored_receipt); vm_compute; reflexivity. }
  apply (reach_step _ _ _ _ _ _ _ _ world1); [|apply (s_create _ _ _ _ _ _ _ _ world1); vm_compute; reflexivity].
  apply (reach_step _ _ _ _ _ _ _ _ world0).
  2:{ apply (s_reserve _ _ _ _ _ _ _ _ world0 now_ms "l1" picture token_a (mkImageCapability "t1" 100 64 64) tiny upload);
        [vm_compute; reflexivity|done|by apply not_elem_of_empty|vm_compute; reflexivity]. }
  apply (reach_step _ _ _ _ _ _ _ _ no_observations); [apply reach_start|]. apply s_configure. intros dev v E. simpl in E. by rewrite lookup_empty in E.
Qed.
Lemma world4_after : cam_step world3 world4.
Proof. apply (s_claim_none _ _ _ _ _ _ _ _ world3 much_later "l2" ("d1", "o1")). vm_compute. reflexivity. Qed.

Lemma one_fingerprint u u' :
  posted_one u -> posted_one u' -> fingerprint sha_id u = fingerprint sha_id u' -> up_metadata u = up_metadata u' /\ up_bytes u = up_bytes u'.
Proof. intros -> -> _. split; reflexivity. Qed.

Lemma observation_quotas_kept_witness :
  let receipts := ob_receipts (w_db world3) in
  let usage := default (0, 0) (ob_usage (w_db world3) !! ("d1", "2026-09-13")) in
  (usage.1 + reserved_sum one "d1" "2026-09-13" receipts <= 2 /\ usage.2 + reserved_sum rc_bytes "d1" "2026-09-13" receipts <= 8 /\
   usage = (accepted_sum one "d1" "2026-09-13" receipts, accepted_sum rc_bytes "d1" "2026-09-13" receipts)) /\ usage = (1, 4).
Proof.
  split; [|vm_compute; reflexivity].
  apply (observation_quotas_kept sha_id small_day posted_one sha_bytes any_uuid any_uuid header_of decodes_all ltac:(done) ltac:(done) one_fingerprint
           world3 "d1" "2026-09-13" world3_reachable).
Defined.

Lemma stored_media_kept_witness :
  (media_of (w_db world3) (w_objects world3) ("d1", "o1") stored_receipt /\
   forall i, ob_images (w_db world3) !! ("d1", "o1") = Some i -> ob_intents (w_db world3) !! im_object_key i = None /\
     forall x, w_deleting world3 = Some x -> dl_key x <> im_object_key i) /\
  is_Some (w_objects world3 !! "tenant/t1/device/d1/o1.jpg").
Proof.
  split; [|eexists; vm_compute; reflexivity].
  apply (stored_media_kept sha_id small_day posted_one sha_bytes any_uuid any_uuid header_of decodes_all ltac:(done) ltac:(done) one_fingerprint
           world3 ("d1", "o1") stored_receipt world3_reachable); vm_compute; reflexivity.
Defined.

Lemma observation_stored_once_witness :
  exists r', ob_receipts (w_db world4) !! ("d1", "o1") = Some r' /\ settled_as stored_receipt r' /\
    forall now lease u, key_of (up_metadata u) = ("d1", "o1") -> may_upload (w_db world4) u = Ok tt ->
      ack u r' = ack u stored_receipt /\
      reserve sha_id small_day now lease u (w_db world4) =
        (if negb (rc_fingerprint stored_receipt ==s fingerprint sha_id u) then Err (Rejected 409 "observation_conflict")
         else if bool_decide (rc_state r' = Expired) || (rc_expires_at stored_receipt <=? now) then Err (Rejected 410 "observation_expired")
         else Ok (Some r', w_db world4)).
Proof.
  apply (observation_stored_once sha_id small_day posted_one sha_bytes any_uuid any_uuid header_of decodes_all world3 world4 ("d1", "o1") stored_receipt).
  - apply rtc_once, world4_after.
  - vm_compute. reflexivity.
  - reflexivity.
Defined.
