(* ===== verification/PlansWitness.v ===== *)
(** * The theorems on plans at a concrete build *)
From stdpp Require Import relations.
From S2P Require Import Prelude JsString Regex JsNumber Part Assembly MatcherTypes Json Spec Solver RegistryLoad Db Auth Cookies Access Http.
From S2P Require Import MatcherSpec NarrowSearch MatcherWitness Plans PlansSpec.
#[local] Open Scope string_scope.
#[local] Open Scope list_scope.
#[local] Open Scope nat_scope.

(** A digest of 64 hexadecimal digits. *)
Fixpoint rolling (h : Z) (s : string) : Z :=
  match s with EmptyString => h | String c s => rolling ((h * 31 + Z.of_nat (nat_of_ascii c)) mod 65521)%Z s end.
Fixpoint hex_digits (n : nat) (h : Z) : string :=
  match n with O => "" | S n => (hex_digits n (h / 16) ++ hex_digit (Z.to_nat (h mod 16)))%string end.
Definition digest64 (s : string) : string := hex_digits 64 (rolling 7 s).
Definition any_id (_ : string) : bool := true.

Definition plan_token : string := "yMnKy8zNzs_Q0dLT1NXW19jZ2tvc3d7f4OHi4-Tl5uc".
Definition team_session : AuthDb :=
  mkAuth [] [mkUser "u1" "ann@example.com"] [mkTenant "t2" "Team" (Some "team")] [mkMember "t2" "u1" role_operator 0]
    [mkSession "s1" (digest64 plan_token) "u1" "t2" None 90000000 None] (mkDb [] [] [] []).
Definition team_request (now : Z) : Request :=
  mkRequest team_session (Some ("__Host-albus_session=" ++ plan_token)%string) "team.albusforge.ai:443" now (now + 5) (now + 9).

Definition settled_spec : Spec :=
  mkSpec (mkSense ["temperature"; "light"] None (Some (of_Z 60))) None (mkEnvironment "indoors" []) (mkConnect wifi [])
    (mkPower src_battery None) (mkExperience None None) ["read.temp_c"; "read.light_lux"] [] [] true.
Definition team_db : Db :=
  mkDb [mkBuild "b1" (Some "t2") None st_planning "A temperature and light sensor" 0 0] []
    [mkVersion "b1" 1 settled_spec (of_Z 1) []] [].
Definition registered (p : PartDefinition) : RegistryRow := mkRegistryRow (part_id p) (version p) (status p) p.
Definition no_plans : PlanDb :=
  mkPlanDb team_db [] (registered <$> [the_battery; light_sensor; temp_sensor; the_host; cheap_temp])
    [mkCompat "hsx-driver-env" "1.0.0" "1.0.0" "C-001" passed].
Definition reviewed : ReviewedPlanCatalogue := mkReviewed (Some "1.0.0") [the_profile] the_connectors.

#[local] Abbreviation solve_once := (solve_plans digest64 any_url any_id reviewed (team_request 20) 20 "b1" "t2" 1 no_plans).
Definition solved_answer (r : result HttpError (SolveStatus * list PersistedBuildPlan)) : bool :=
  match r with Ok (solved_, _) => true | _ => false end.
Definition solved_db : PlanDb := solve_once.2.
Definition answered (r : result HttpError (SolveStatus * list PersistedBuildPlan)) : list PersistedBuildPlan :=
  match r with Ok (_, ps) => ps | Err _ => [] end.
Definition offered : list PersistedBuildPlan :=
  answered solve_once.1.
#[local] Abbreviation accept_first := (accept_plan digest64 any_url any_id reviewed (team_request 40) 40 "b1" "t2" 1 1 solved_db).
#[local] Abbreviation accepted_db := (accept_first.2).

Definition plan_of_answer (r : result HttpError PersistedBuildPlan) : option PersistedBuildPlan := match r with Ok p => Some p | Err _ => None end.
Definition stamp (p : PersistedBuildPlan) : nat * option Z := (ps_version p, ps_accepted_at p).

(** All that the witnesses compute of it, evaluated once. *)
Definition computed : Prop :=
  solved_answer solve_once.1 = true /\
  forallb (fun r => negb (bool_decide (is_Some (pl_accepted_at r)))) (pd_plans solved_db) = true /\
  ps_version <$> offered = [1; 2] /\
  stamp <$> plan_of_answer accept_first.1 = Some (1, Some 40%Z) /\
  (pl_version <$> pd_plans accepted_db) = [1; 2] /\ (pl_accepted_at <$> pd_plans accepted_db) = [Some 40%Z; None].
Lemma plans_computed : computed.
Proof. vm_compute. repeat split. Qed.

(** ** The witnesses *)
Lemma solved_reachable : reachable digest64 any_url any_id reviewed solved_db.
Proof. eapply reach_step; [apply (reach_start digest64 any_url any_id reviewed)|apply st_solve]. Qed.

Lemma accepted_reachable : reachable digest64 any_url any_id reviewed accepted_db.
Proof. eapply reach_step; [apply solved_reachable|apply st_accept]. Qed.

Lemma plans_disciplined_witness :
  (pl_version <$> pd_plans accepted_db) = [1; 2] /\ (pl_accepted_at <$> pd_plans accepted_db) = [Some 40%Z; None] /\
  list_plans digest64 any_url any_id reviewed (team_request 50) "b1" accepted_db <> Err Crash.
Proof.
  destruct plans_computed as (_ & _ & _ & _ & Hv & Ha). split; [exact Hv|]. split; [exact Ha|].
  destruct (plans_disciplined digest64 any_url any_id reviewed accepted_db accepted_reachable) as (_ & _ & _ & _ & H). apply H.
Defined.

Lemma answer_split (x : result HttpError PersistedBuildPlan * PlanDb) s :
  stamp <$> plan_of_answer x.1 = Some s -> exists p, x = (Ok p, x.2) /\ stamp p = s.
Proof. destruct x as [[p|e] d]; [|discriminate]. intros E. exists p. split; [reflexivity|]. by injection E. Qed.
Lemma solved_split (x : result HttpError (SolveStatus * list PersistedBuildPlan) * PlanDb) :
  solved_answer x.1 = true -> x = (Ok (solved_, answered x.1), x.2).
Proof. destruct x as [[[[] ps]|e] d]; done. Qed.
Lemma accepted_answer : exists p, accept_first = (Ok p, accepted_db) /\ stamp p = (1, Some 40%Z).
Proof. destruct plans_computed as (_ & _ & _ & H & _). exact (answer_split accept_first _ H). Qed.
Lemma solve_answer : solve_once = (Ok (solved_, offered), solved_db).
Proof. destruct plans_computed as (H & _). exact (solved_split solve_once H). Qed.

Lemma accepted_plan_verified_witness :
  exists p input a, accept_first = (Ok p, accepted_db) /\ meets_request input a /\
    canonical (plan_json (asm_plan input a)) = canonical (plan_json (ps_plan p)).
Proof.
  destruct accepted_answer as (p & E & Hp). exists p.
  destruct (accepted_plan_verified digest64 any_url any_id reviewed (team_request 40) 40 "b1" "t2" 1 1 solved_db p accepted_db E)
    as (spec & row & _ & _ & Hrow & _ & _ & [(Ha & _ & _)|(_ & _ & input & a & _ & _ & Hm & Hc & _)]).
  - exfalso. destruct plans_computed as (_ & Hnone & _).
    rewrite forallb_elem in Hnone. specialize (Hnone row Hrow). by rewrite bool_decide_eq_true_2 in Hnone.
  - exists input, a. split; [exact E|]. split; [exact Hm|exact Hc].
Defined.

(** The other plan of the two is accepted as offered. *)
Lemma find_version (ps : list PersistedBuildPlan) k v :
  nth_error (ps_version <$> ps) k = Some v -> exists p, p ∈ ps /\ ps_version p = v.
Proof.
  intros E. rewrite nth_error_map in E. destruct (nth_error ps k) as [p|] eqn:Ep; [|done]. injection E as E.
  exists p. split; [|exact E]. apply nth_error_In in Ep. by apply list_elem_of_In.
Qed.
Lemma second_offered : exists p, p ∈ offered /\ ps_version p = 2.
Proof. destruct plans_computed as (_ & _ & H & _). apply (find_version offered 1 2). by rewrite H. Qed.

Lemma fresh_plan_acceptable_witness :
  exists p', (accept_plan digest64 any_url any_id reviewed (team_request 40) 40 "b1" "t2" 2 1 solved_db).1 = Ok p' /\ ps_accepted_at p' = Some 40%Z.
Proof.
  destruct second_offered as (p & Hp & Hv).
  destruct (fresh_plan_acceptable digest64 any_url any_id reviewed (team_request 20) 20 "b1" "t2" 1 no_plans offered solved_db p (team_request 40) 40 ("t2", "u1"))
    as (p' & H & _ & _ & Ht).
  - apply (reach_start digest64 any_url any_id reviewed).
  - exact solve_answer.
  - exact Hp.
  - rewrite Hv. vm_compute. lia.
  - intros r Hr. by apply elem_of_nil in Hr.
  - vm_compute. reflexivity.
  - vm_compute. reflexivity.
  - vm_compute. reflexivity.
  - exists p'. rewrite Hv in H. split; [exact H|exact Ht].
Defined.
