(* ===== verification/FirmwareWitness.v ===== *)
(** * The theorems on firmware at a concrete build

    A light sensor on USB power, from its spec to a downloaded image: solved,
    accepted, compiled by one worker, then edited; and a device claimed for it. *)
From stdpp Require Import gmap relations.
From S2P Require Import Prelude JsString Regex JsNumber Part Assembly MatcherTypes Json Spec Db Auth Cookies Access Http Plans PlansSpec.
From S2P Require Import MatcherWitness Telemetry Candidate CandidateSpec Firmware FirmwareSpec TelemetrySpec Provision ProvisionSpec PlansWitness.
#[local] Open Scope string_scope.
#[local] Open Scope list_scope.
#[local] Open Scope nat_scope.

(** ** The build *)
Definition usb_host : PartDefinition :=
  mkPart None "C-001" "1.0.0" "Host board" communication active None
    (mkElectrical host "usb-micro-b-v1" (V 41 55) None (mkDraw (of_Z 1) (of_Z 340)) [] [] None (Some (V 33 33))
       (Some (mkSupply (V 33 33) (of_Z 800) None)))
    basic_mechanical (mkSoftware None None None ["bus.i2c"; "net.wifi"; "power.3v3"] ">=0.1.0") (mkCloud None [] [])
    (mkCommerce [mkSupplier adafruit "5336" "https://example.com/host"] (Some (of_Z 20))).
Definition usb_supply : PartDefinition :=
  mkPart None "E-005" "1.0.0" "USB supply" energy active None
    (mkElectrical power "usb-c-v1" (V 48 54) None (mkDraw nzero nzero) [] [] None None (Some (mkSupply (V 48 54) (of_Z 3000) None)))
    basic_mechanical (mkSoftware None None None ["power.5v"] ">=0.1.0") (mkCloud None [] [])
    (mkCommerce [mkSupplier adafruit "4298" "https://example.com/usb"] (Some (of_Z 9))).
Definition bh1750_part : PartDefinition :=
  mkPart None "V-005" "1.0.0" "Light sensor" visual active None
    (mkElectrical i2c "hsx-i2c-4pin-v1" (V 30 50) None (mkDraw nzero (of_Z 1)) ["bus.i2c"] [] (Some "0x23") (Some (V 30 50)) None)
    basic_mechanical
    (mkSoftware (Some "hsx-driver-bh1750") (Some "0.1.0") (Some "sensors/light") ["read.illuminance_lux"] ">=0.1.0")
    (mkCloud (Some "illuminance.v1") [stat] [])
    (mkCommerce [mkSupplier adafruit "4681" "https://example.com/light"] (Some (of_Z 5))).
Definition light_connectors : list ConnectorDefinition :=
  let pins := [mkPin 1 "gnd" role_ground; mkPin 2 "v" role_power] in
  [mkConnector None "usb-micro-b-v1" "1.0.0" "Micro USB" "usb-micro-b" pins [host] (of_Z 20);
   mkConnector None "usb-c-v1" "1.0.0" "USB C" "usb-c" pins [power] (of_Z 20);
   mkConnector None "hsx-i2c-4pin-v1" "1.0.0" "I2C" "hsx-i2c" pins [i2c] (of_Z 5)].
Definition light_profile : AssemblyProfile :=
  mkProfile "esp32s3-bh1750-usb-v1" "1.0.0" "bench measurement" (mkPartPin "C-001" "1.0.0") (mkPartPin "E-005" "1.0.0")
    "usb-c-v1" "primary" (of_ratio 9 10) (of_ratio 1 10) (of_ratio 8 10)
    [mkPort "sensor" i2c "hsx-i2c-4pin-v1" rail_brain (of_Z 100) ["GPIO8"; "GPIO9"] 1] [].
Definition light_spec : Spec :=
  mkSpec (mkSense ["light"] None (Some (of_Z 60))) None (mkEnvironment "indoors" []) (mkConnect wifi [])
    (mkPower src_usb None) (mkExperience None None) ["read.illuminance_lux"] [] [] true.
Definition light_db : Db :=
  mkDb [mkBuild "b1" (Some "t2") None st_planning "A light sensor" 0 0] [] [mkVersion "b1" 1 light_spec (of_Z 1) []] [].
Definition light_reviewed : ReviewedPlanCatalogue := mkReviewed (Some "0.1.0") [light_profile] light_connectors.
Definition light_plans : PlanDb :=
  mkPlanDb light_db [] (registered <$> [usb_host; usb_supply; bh1750_part])
    [mkCompat "hsx-driver-bh1750" "0.1.0" "0.1.0" "C-001" passed].

(** ** The compiler *)
Definition image (name : string) (seed : string) : string := (name ++ " of " ++ seed)%string.
Definition image_file (name seed : string) : FirmwareFile := mkFile name (digest64 (image name seed)) (str_len (image name seed)).
Definition toolchain (i : CompileInput) : Compiled :=
  let seed := show_num (ci_interval_s i) in
  let selection := default (mkSelection DEVKITC_CANDIDATE [] [] nzero) (ci_numeric i) in
  let m := mkManifest (ci_build_id i) (ci_plan_version i) (ci_code_version i) (nc_id (ns_candidate selection)) (nc_runtime (ns_candidate selection))
             (ns_channels selection) None (flip image_file seed <$> FIRMWARE_PATHS) in
  let bytes := default "" (serializeFirmwareManifest any_id m) in
  let source := default "" (renderApp (ci_interval_s i)) in
  mkCompiled m bytes (digest64 bytes) source (digest64 source) ((fun n => (n, image n seed)) <$> FIRMWARE_PATHS) "zip" "no warnings".

(** ** Its history *)
#[local] Abbreviation step := (wstep digest64 any_url any_id light_reviewed true true [] false).
#[local] Abbreviation reachable_world := (wreachable digest64 any_url any_id light_reviewed true true [] false).
#[local] Abbreviation asks := (create_code digest64 any_url any_id true true []).
Definition fresh_world : World := mkWorld (mkFw light_plans [] ∅) ∅ ∅ None.
Definition plan_for (p : PlanDb) (w : World) : World := with_db (with_plan_db p (wo_db w)) w.
Definition solved_world : World :=
  plan_for (solve_plans digest64 any_url any_id light_reviewed (team_request 20) 20 "b1" "t2" 1 (fw_plans (wo_db fresh_world))).2 fresh_world.
Definition accepted_world : World :=
  plan_for (accept_plan digest64 any_url any_id light_reviewed (team_request 40) 40 "b1" "t2" 1 1 (fw_plans (wo_db solved_world))).2 solved_world.
Definition first_request : FirmwareRequest := mkFirmwareRequest "t2" 1 "r1" None None.
Definition asked_world : World := with_db (asks (team_request 60) 60 "b1" first_request (wo_db accepted_world)).2 accepted_world.
Definition edit_request : FirmwareRequest := mkFirmwareRequest "t2" 1 "r2" (Some " Set interval to 120 seconds") (Some 1).
Definition compiled_world : option World := run_once digest64 any_url any_id [] false 80 "l1" toolchain asked_world.
Definition edited (w : World) : World := with_db (asks (team_request 100) 100 "b1" edit_request (wo_db w)).2 w.
Definition passed_world : World := default fresh_world compiled_world.
Definition edited_world : World := edited passed_world.

Definition outline (b : CodeBundle) : string * nat * ArtifactStatus := (cb_build_id b, cb_version b, cb_status b).
Lemma row_there (l : list CodeBundle) k x : nth_error (outline <$> l) k = Some x -> exists b, b ∈ l /\ outline b = x.
Proof.
  intros E. rewrite nth_error_map in E. destruct (nth_error l k) as [b|] eqn:Eb; [|discriminate]. injection E as E.
  exists b. split; [|exact E]. apply nth_error_In in Eb. by apply list_elem_of_In.
Qed.
Definition version_of_answer (r : result HttpError nat) : option nat := match r with Ok v => Some v | Err _ => None end.
Lemma asked_split (x : result HttpError nat * FwDb) v : version_of_answer x.1 = Some v -> x = (Ok v, x.2).
Proof. destruct x as [[v'|e] d]; [|discriminate]. intros E. by injection E as ->. Qed.
Definition other_request : FirmwareRequest := mkFirmwareRequest "t2" 1 "r1" (Some "Set interval to 120 seconds") (Some 1).
Definition plan_at_hand (r : result HttpError DecodedPlan) : bool := match r with Ok _ => true | Err _ => false end.
Lemma plan_split (r : result HttpError DecodedPlan) : plan_at_hand r = true -> exists p, r = Ok p.
Proof. destruct r as [p|e]; [by exists p|discriminate]. Qed.

(** The plan of the build is one of the reviewed wirings. *)
Definition picked (r : PlanRow) : option (BuildPlan * BuildPlanMetadata * NumericSelection) :=
  match pl_metadata r with
  | Some m =>
      if BuildPlan_ok (row_plan r m) && BuildPlanMetadata_ok any_url m
      then (fun sel => (row_plan r m, m, sel)) <$> selectNumericCandidate any_url (row_plan r m) m light_spec
      else None
  | None => None
  end.
Lemma picked_split r : bool_decide (is_Some (picked r)) = true -> exists plan m sel, BuildPlan_ok plan = true /\
  BuildPlanMetadata_ok any_url m = true /\ selectNumericCandidate any_url plan m light_spec = Some sel.
Proof.
  rewrite bool_decide_eq_true. unfold picked. destruct (pl_metadata r) as [m|]; [|by intros []].
  destruct (BuildPlan_ok (row_plan r m)) eqn:E1; [|by intros []]. destruct (BuildPlanMetadata_ok any_url m) eqn:E2; [|by intros []]. simpl.
  destruct (selectNumericCandidate _ _ _ _) as [sel|] eqn:E3; [|by intros []]. intros _. by exists (row_plan r m), m, sel.
Qed.
Definition light_row : option PlanRow := head (pd_plans (fw_plans (wo_db accepted_world))).

(** All that the witnesses compute of this history, evaluated once. *)
#[local] Abbreviation rows w := (fw_bundles (wo_db w)).
#[local] Abbreviation first_answer := (asks (team_request 60) 60%Z "b1" first_request (wo_db accepted_world)).
Definition computed : Prop :=
  bool_decide (is_Some compiled_world) = true /\
  nth_error (outline <$> rows passed_world) 0 = Some ("b1", 1, fw_passed) /\
  nth_error (outline <$> rows edited_world) 1 = Some ("b1", 2, fw_pending) /\
  versions_of_build "b1" (rows edited_world) = [1; 2] /\
  owned (fw_plans (wo_db edited_world)) "b1" "t2" = true /\
  version_of_answer first_answer.1 = Some 1 /\
  plan_at_hand (Firmware.accepted digest64 any_url [] (wo_db edited_world) "b1" 1) = true /\
  forallb (fun b => match attempts_of b with Some n => n <=? 2 | None => true end) (rows edited_world) = true /\
  bool_decide (is_Some (light_row ≫= picked)) = true.
Lemma firmware_computed : computed.
Proof. vm_compute. repeat split. Qed.

Lemma run_done : run_once digest64 any_url any_id [] false 80 "l1" toolchain asked_world = Some passed_world.
Proof.
  fold compiled_world. destruct firmware_computed as (H & _). apply bool_decide_eq_true in H. unfold passed_world.
  destruct compiled_world; [reflexivity|by destruct H].
Qed.
Lemma solved_reached : reachable_world solved_world.
Proof.
  exact (wr_step digest64 any_url any_id light_reviewed true true [] false fresh_world solved_world (wr_start digest64 any_url any_id light_reviewed true true [] false _ _ _)
    (ws_plans digest64 any_url any_id light_reviewed true true [] false fresh_world _ (ps_solve digest64 any_url any_id light_reviewed light_plans (team_request 20) 20%Z "b1" "t2" 1))).
Qed.
Lemma accepted_reached : reachable_world accepted_world.
Proof.
  exact (wr_step digest64 any_url any_id light_reviewed true true [] false solved_world accepted_world solved_reached
    (ws_plans digest64 any_url any_id light_reviewed true true [] false solved_world _
      (ps_accept digest64 any_url any_id light_reviewed (fw_plans (wo_db solved_world)) (team_request 40) 40%Z "b1" "t2" 1 1))).
Qed.
Lemma asked_reached : reachable_world asked_world.
Proof.
  exact (wr_step digest64 any_url any_id light_reviewed true true [] false accepted_world asked_world accepted_reached
    (ws_create digest64 any_url any_id light_reviewed true true [] false accepted_world (team_request 60) 60%Z "b1" first_request)).
Qed.
Lemma asked_to_passed : rtc step asked_world passed_world.
Proof. exact (run_reaches digest64 any_url any_id light_reviewed true true [] false 80 "l1" toolchain asked_world passed_world run_done). Qed.
Lemma passed_to_edited : rtc step passed_world edited_world.
Proof.
  exact (rtc_once passed_world (edited passed_world) (ws_create digest64 any_url any_id light_reviewed true true [] false passed_world (team_request 100) 100%Z "b1" edit_request)).
Qed.
Lemma passed_reached : reachable_world passed_world.
Proof. exact (proj1 (history_follows digest64 any_url any_id light_reviewed true true [] false asked_world passed_world asked_reached asked_to_passed)). Qed.
Lemma edited_reached : reachable_world edited_world.
Proof. exact (proj1 (history_follows digest64 any_url any_id light_reviewed true true [] false passed_world edited_world passed_reached passed_to_edited)). Qed.

Lemma first_passed : exists b, b ∈ fw_bundles (wo_db passed_world) /\ outline b = ("b1", 1, fw_passed).
Proof. destruct firmware_computed as (_ & H & _). exact (row_there _ 0 _ H). Qed.
Lemma second_pending : exists b, b ∈ fw_bundles (wo_db edited_world) /\ outline b = ("b1", 2, fw_pending).
Proof. destruct firmware_computed as (_ & _ & H & _). exact (row_there _ 1 _ H). Qed.

(** ** The witnesses *)
Lemma firmware_disciplined_witness :
  versions_of_build "b1" (fw_bundles (wo_db edited_world)) = [1; 2] /\
  forall w, rtc step edited_world w -> extended evolves (fw_bundles (wo_db edited_world)) (fw_bundles (wo_db w)).
Proof.
  destruct firmware_computed as (_ & _ & _ & Hv & _). split; [exact Hv|].
  destruct (firmware_disciplined digest64 any_url any_id light_reviewed true true [] false edited_world edited_reached) as (_ & _ & _ & _ & H). exact H.
Defined.

Lemma passed_from_plan_witness : exists b r j source, b ∈ fw_bundles (wo_db passed_world) /\ cb_log b = PassedLog r /\ pr_job r = Some j /\
  pr_source_sha256 r = digest64 source /\ interval_ok (jb_interval_s j) = true.
Proof.
  destruct first_passed as (b & Hb & E). injection E as E1 E2 E3.
  destruct (passed_from_plan digest64 any_url any_id light_reviewed true true [] false passed_world b passed_reached Hb E3)
    as (r & j & p & s & plan & text & source & H1 & H2 & _ & _ & _ & _ & _ & _ & _ & _ & _ & _ & _ & H3 & H4 & _).
  exists b, r, j, source. split; [exact Hb|]. split; [exact H1|]. split; [exact H2|]. split; [exact H3|exact H4].
Defined.

Lemma passed_downloads_witness : exists b r bytes, cb_log b = PassedLog r /\ digest_for "firmware.zip" r = Some (digest64 bytes) /\
  download digest64 any_id true (team_request 200) (cb_build_id b) (cb_version b) "firmware.zip" (wo_db edited_world) = Ok bytes.
Proof.
  destruct first_passed as (b & Hb & E). injection E as E1 E2 E3.
  destruct (passed_downloads digest64 any_url any_id light_reviewed true true [] false passed_world edited_world b (team_request 200) ("t2", "u1", role_operator)
    "firmware.zip" passed_reached Hb E3 passed_to_edited) as (r & bytes & H).
  - apply inb_true. vm_compute. reflexivity.
  - vm_compute. reflexivity.
  - rewrite E1. destruct firmware_computed as (_ & _ & _ & _ & Ho & _). exact Ho.
  - exists b, r, bytes. exact H.
Defined.

Lemma firmware_page_loads_witness : exists page,
  firmware_page digest64 any_url any_id true true [] (team_request 200) "b1" (wo_db edited_world) = Ok page.
Proof.
  destruct (firmware_page_loads digest64 any_url any_id light_reviewed true true [] false edited_world (team_request 200) "b1" ("t2", "u1", role_operator)
    edited_reached) as (page & H & _).
  - reflexivity.
  - vm_compute. reflexivity.
  - destruct firmware_computed as (_ & _ & _ & _ & Ho & _). exact Ho.
  - exists page. exact H.
Defined.

Lemma request_repeated_witness :
  asks (team_request 300) 300 "b1" first_request (wo_db edited_world) = (Ok 1, wo_db edited_world) /\
  asks (team_request 300) 300 "b1" other_request (wo_db edited_world) = (Err (Http 409 "REQUEST_CONFLICT"), wo_db edited_world).
Proof.
  destruct firmware_computed as (_ & _ & _ & _ & Ho & Ha & Hp & _).
  pose proof (asked_split first_answer 1 Ha) as H1.
  assert (H2 : rtc step asked_world edited_world) by (etransitivity; [exact asked_to_passed|exact passed_to_edited]).
  destruct (plan_split _ Hp) as (plan & Hplan).
  split.
  - destruct (request_repeated digest64 any_url any_id light_reviewed true true [] false accepted_world edited_world (team_request 60) 60 "b1" first_request 1
      _ (team_request 300) 300 first_request first_request ("t2", "u1") accepted_reached H1 H2) as (b1 & Hb & H);
      [reflexivity|reflexivity|vm_compute; reflexivity..|exact Ho|]. injection Hb as <-.
    rewrite (Hplan : accepted digest64 any_url [] (wo_db edited_world) "b1" (fr_plan_version first_request) = Ok plan) in H. exact H.
  - destruct (request_repeated digest64 any_url any_id light_reviewed true true [] false accepted_world edited_world (team_request 60) 60 "b1" first_request 1
      _ (team_request 300) 300 other_request other_request ("t2", "u1") accepted_reached H1 H2) as (b1 & Hb & H);
      [reflexivity|vm_compute; reflexivity..|exact Ho|]. injection Hb as <-.
    rewrite (Hplan : accepted digest64 any_url [] (wo_db edited_world) "b1" (fr_plan_version other_request) = Ok plan) in H. exact H.
Defined.

Lemma no_version_stuck_witness : exists x, claim_bundle 500 "l2" x ∈ fw_bundles (claim 500 "l2" (fun _ => false) (wo_db edited_world)).2.
Proof.
  destruct second_pending as (b & Hb & E). injection E as E1 E2 E3.
  destruct (no_version_stuck digest64 any_url any_id light_reviewed true true [] false edited_world b 500 "l2" edited_reached Hb) as [H _].
  destruct (H (or_introl E3)) as [(x & _ & _ & Hx & _)|[Ha _]]; [exists x; exact Hx|]. exfalso.
  destruct firmware_computed as (_ & _ & _ & _ & _ & _ & _ & Hall & _).
  rewrite forallb_elem in Hall. specialize (Hall b Hb). by rewrite Ha in Hall.
Defined.

Lemma light_picked : exists plan m sel, BuildPlan_ok plan = true /\ BuildPlanMetadata_ok any_url m = true /\
  selectNumericCandidate any_url plan m light_spec = Some sel.
Proof.
  destruct firmware_computed as (_ & _ & _ & _ & _ & _ & _ & _ & H).
  destruct light_row as [r|]; [|discriminate H]. by apply (picked_split r).
Qed.
Lemma selectNumericCandidate_exact_witness : exists plan m sel chosen,
  selectNumericCandidate any_url plan m light_spec = Some sel /\ Reviewed plan m light_spec (ns_candidate sel) chosen (ns_interval_s sel).
Proof.
  destruct light_picked as (plan & m & sel & H1 & H2 & H3).
  destruct (proj1 (selectNumericCandidate_exact any_url plan m light_spec sel H1 H2) H3) as (chosen & H & _).
  exists plan, m, sel, chosen. split; [exact H3|exact H].
Defined.

(** ** A device for the passed version

    Claimed, handed over once, replaced, revoked: an example of the histories
    that [ProvisionSpec] is about. The cipher is the identity here. *)
Definition light_channels : ChannelTable :=
  match cb_log <$> head (fw_bundles (wo_db passed_world)) with Some (PassedLog r) => fm_channels (pr_manifest r) | _ => [] end.
Definition light_provisioning : ProvisioningProfile :=
  mkProvisioningProfile "light" "1" ("esp32s3-bh1750-usb-v1", "1.0.0") "0.1.0"
    [mkPartPin "C-001" "1.0.0"; mkPartPin "E-005" "1.0.0"; mkPartPin "V-005" "1.0.0"] "esp32s3-bh1750-usb-v1" [] None None
    ((fun kv => mkChannelSource kv.1 kv.2 (mkPartPin "V-005" "1.0.0") "illuminance.v1") <$> light_channels).
Definition plain_encrypt (_ _ : list nat) (_ : string) (text : list nat) : list nat * list nat := (text, replicate 16 0).
Definition plain_decrypt (_ _ : list nat) (_ : string) (text _ : list nat) : option (list nat) := Some text.
Definition handoff_ring : HandoffKeys := mkKeys "k" [("k", replicate 32 0)].
Definition ingest_at : string := "https://ingest.example/ingest/v1".
Definition at_time (now : Z) : Times := mkTimes now now now now now now.
Definition shelf : ProvisionDb := mkProvisionDb (wo_db passed_world) no_telemetry [].
Definition claims (now : Z) : ProvisionDb -> result HttpError DeviceProvisioning * ProvisionDb :=
  claim_device digest64 any_url any_id plain_encrypt (Some handoff_ring) (Some ingest_at) [light_provisioning] (team_request now) now (at_time now)
    "d1" (replicate 32 0) (replicate 12 0) (mkClaimRequest "t2" "b1" 1 1 "q1").
Definition fetches (now : Z) (version : nat) : ProvisionDb -> result HttpError DeviceConfig * ProvisionDb :=
  download_config digest64 any_url any_url any_id plain_decrypt (Some handoff_ring) (Some ingest_at) [light_provisioning] (team_request now) now
    (at_time now) "d1" "t2" version.
Definition replaces (now : Z) : ProvisionDb -> result HttpError DeviceProvisioning * ProvisionDb :=
  reissue_config digest64 any_url any_id plain_encrypt (Some handoff_ring) (Some ingest_at) [light_provisioning] (team_request now) now (at_time now)
    "d1" "t2" 1 "q2" (replicate 32 4) (replicate 12 0).
Definition revokes (now : Z) (version : nat) : ProvisionDb -> result HttpError DeviceProvisioning * ProvisionDb :=
  revoke_device digest64 any_id (team_request now) now (at_time now) "d1" "t2" version.

Definition state_of (r : result HttpError DeviceProvisioning) : option (nat * ProvisioningState * bool) :=
  match r with Ok s => Some (dp_credential_version s, dp_state s, dp_handoff_available s) | Err _ => None end.
Definition given (r : result HttpError DeviceConfig) : HttpError + string * list string :=
  match r with Ok c => inr (dc_token c, (dc_channels c).*1) | Err e => inl e end.
Example device_history :
  let a := claims 120 shelf in
  let b := fetches 130 1 a.2 in
  let c := replaces 140 b.2 in
  let d := fetches 150 2 c.2 in
  let e := revokes 160 2 d.2 in
  (state_of a.1, state_of (claims 125 a.2).1) = (Some (1, configuration_ready, true), Some (1, configuration_ready, true)) /\
  given b.1 = inr (base64url (replicate 32 0), ["illuminance"]) /\
  given (fetches 135 1 b.2).1 = inl (Http 410 "HANDOFF_UNAVAILABLE") /\
  given (fetches 700000 1 a.2).1 = inl (Http 410 "HANDOFF_UNAVAILABLE") /\
  (state_of c.1, state_of (replaces 145 c.2).1) = (Some (2, configuration_ready, true), Some (2, configuration_ready, true)) /\
  given (fetches 145 1 c.2).1 = inl (Http 409 "CONFIGURATION_CHANGED") /\
  given d.1 = inr (base64url (replicate 32 4), ["illuminance"]) /\
  state_of e.1 = Some (2, credential_revoked, false) /\
  given (fetches 170 2 e.2).1 = inl (Http 409 "DEVICE_REVOKED").
Proof. vm_compute. by split_and!. Qed.
