(* ===== verification/GatewayWitness.v ===== *)
(** * Sign-in, sign-out and metering on concrete inputs *)
From stdpp Require Import gmap relations.
From S2P Require Import Prelude JsString Spec Effects Db Auth AuthSpec SessionFamily Ledger Scheduler RateLimit.
From S2P Require Import ClientDb Cookies Access.
#[local] Open Scope string_scope.
#[local] Open Scope list_scope.
#[local] Open Scope Z_scope.
(** A stand-in for the hash: any function does. *)
Definition hash (s : string) : string := ("#" ++ s)%string.

(** ** A wrong guess, then the right one *)
Definition anon_build : Build := mkBuild "b1" None (Some "anon") st_asking "A soil sensor" 0 0.
Definition anon_call : LlmCall := mkLlmCall "k1" (Some "b1") None (Some "anon") 100 20 0 0.
Definition empty_auth : AuthDb := mkAuth [] [] [] [] [] (mkDb [anon_build] [] [] [anon_call]).
Definition issued : AuthDb := (issueCode hash " Ann@Example.com " (mkIssue 1000 1000000 "c1" "123456") empty_auth).2.
Definition guess (code : string) : VerifyInput := mkVerify "ann@example.com" code (Some "anon") None 3600.
Definition at_ten : VerifyEnv := mkVerifyEnv 10000 10000000 "u1" "t1" "s1" "token".
Definition missed : AuthDb := (verifyCode hash (guess "000000") at_ten issued).2.
Definition entered : AuthDb := (verifyCode hash (guess "123456") at_ten missed).2.
Definition guesses : list (string * bool) :=
  ([] ++ shown hash (guess "000000") at_ten issued) ++ shown hash (guess "123456") at_ten missed.

Lemma guesses_history : code_history hash (guesses, entered).
Proof.
  eapply history_step; [eapply history_step; [eapply history_step; [by apply (history_start hash empty_auth)|]|]|].
  - apply (code_issue hash [] empty_auth " Ann@Example.com " (mkIssue 1000 1000000 "c1" "123456")). by intros c ?%elem_of_nil.
  - apply code_verify.
  - apply code_verify.
Qed.

Lemma guesses_bounded_witness :
  answers_of guesses "c1" = [false; true] /\
  forall c, c ∈ t_codes entered -> (length (answers_of guesses (ec_id c)) <= 5)%nat.
Proof.
  split; [vm_compute; reflexivity|]. intros c Hc.
  destruct (proj1 (guesses_bounded hash _ _ guesses_history) c Hc) as (hit & _ & H & _). exact H.
Defined.

Lemma verifyCode_signs_in_witness :
  me hash entered 11000000 "token" = Some (mkMe "u1" "ann@example.com" (mkMembership "t1" "Personal" None role_admin 10000000)
    [mkMembership "t1" "Personal" None role_admin 10000000]) /\
  exists r d', verifyCode hash (guess "123456") at_ten missed = (Ok r, d').
Proof.
  split; [vm_compute; reflexivity|].
  destruct (verifyCode_signs_in hash (guess "123456") at_ten missed) as (r & d' & E & _).
  - split; [constructor|intros H; vm_compute in H; by apply elem_of_nil in H|intros H; vm_compute in H; by apply elem_of_nil in H].
  - by exists r, d'.
Defined.

(** ** Signing out on a subdomain ends the session of the main site *)
Definition apex : SessionRow := mkSession "s1" "#token" "u1" "t1" None 90000000 None.
Definition subdomain : SessionRow := mkSession "s2" "#sub" "u1" "t1" (Some "s1") 90000000 None.
Definition stranger : SessionRow := mkSession "s3" "#else" "u1" "t1" None 90000000 None.
Definition three_sessions : AuthDb :=
  mkAuth [] [mkUser "u1" "ann@example.com"] [mkTenant "t1" "Personal" None] [mkMember "t1" "u1" role_admin 0]
    [apex; subdomain; stranger] (mkDb [] [] [] []).

Lemma three_forest : forest (t_sessions three_sessions).
Proof.
  split; [by apply (bool_decide_unpack _); vm_compute|].
  intros [|[|[|i]]] s p [= <-]; try discriminate. intros [= <-]. exists 0%nat, apex. split_and!; [lia|done|done].
Qed.

Lemma apex_above : same_family (t_sessions three_sessions) "s2" "s1".
Proof.
  exists apex. split_and!; [left|done| |constructor]. apply rtc_once. exists subdomain. split_and!; [right; left|done|done].
Qed.

Lemma sign_out_total_witness :
  (revokeSessionFamily hash "sub" 20000000 three_sessions).1 = 2%nat /\
  signed_out hash (revokeSessionFamily hash "sub" 20000000 three_sessions).2 30000000 "token".
Proof.
  split; [vm_compute; reflexivity|].
  refine (proj1 (sign_out_total hash "sub" 20000000 three_sessions subdomain (mkUser "u1" "ann@example.com") three_forest _ _)
            apex "token" 30000000 _ apex_above _); [by apply (bool_decide_unpack _); vm_compute|reflexivity|left|reflexivity].
Defined.

(** ** A call metered while its build is claimed *)
Definition metered : LlmCall := mkLlmCall "k2" (Some "b1") None (Some "anon") 100 20 0 0.

Lemma metered_reachable : exists s, ledger_reachable s /\ metered ∈ t_llmCalls (lg_db s).
Proof.
  eexists. split.
  - eapply ledger_next; [eapply ledger_next; [eapply ledger_next; [by apply (ledger_empty (mkDb [] [] [] []))|]|]|].
    + apply (new_build _ _ anon_build); [by intros ?%elem_of_nil|done].
    + apply (meter_lock _ _ 0%nat metered); [done|]. intros b [= <-]. split; [by eexists|]. by intros i t ?%lookup_empty_Some.
    + apply (meter_insert _ _ 0%nat metered (None, Some "anon")); [by rewrite lookup_insert_eq|by intros ?%elem_of_nil].
  - left.
Qed.

Lemma no_call_left_behind_witness :
  exists s B, ledger_reachable s /\ build_by_id (lg_db s) "b1" = Some B.
Proof.
  destruct metered_reachable as (s & Hs & Hc).
  destruct (no_call_left_behind s metered "b1" Hs Hc eq_refl) as (B & HB & _). by exists s, B.
Defined.

(** ** Cookies, guards, the limiter, the scheduler and connections on concrete
    inputs *)
Definition random_bytes : list nat := seq 200 32.

Lemma tokens_read_back_witness :
  newSessionToken random_bytes = "yMnKy8zNzs_Q0dLT1NXW19jZ2tvc3d7f4OHi4-Tl5uc" /\
  sessionTokenFromCookieHeader
    (Some (inl "theme=dark; __Host-albus_session=yMnKy8zNzs_Q0dLT1NXW19jZ2tvc3d7f4OHi4-Tl5uc; __Host-albus_anon=x")) =
    Some "yMnKy8zNzs_Q0dLT1NXW19jZ2tvc3d7f4OHi4-Tl5uc".
Proof.
  assert (E : newSessionToken random_bytes = "yMnKy8zNzs_Q0dLT1NXW19jZ2tvc3d7f4OHi4-Tl5uc") by (vm_compute; reflexivity).
  split; [exact E|]. rewrite <- E.
  refine (proj1 (proj1 (tokens_read_back hash random_bytes ["theme=dark"] ["__Host-albus_anon=x"] eq_refl _) _ _)).
  - apply Forall_forall. intros b Hb. apply elem_of_seq in Hb. lia.
  - repeat constructor.
  - repeat constructor.
Defined.

(** The token of [apex] is not 43 characters, so its holder asks with another. *)
Definition a_session : SessionRow :=
  mkSession "s1" (hash "yMnKy8zNzs_Q0dLT1NXW19jZ2tvc3d7f4OHi4-Tl5uc") "u1" "t1" None 90000000 None.
Definition a_cookie : string := "__Host-albus_session=yMnKy8zNzs_Q0dLT1NXW19jZ2tvc3d7f4OHi4-Tl5uc".
Definition one_session : AuthDb :=
  mkAuth [] [mkUser "u1" "ann@example.com"] [mkTenant "t1" "Personal" None; mkTenant "t2" "Team" (Some "team")]
    [mkMember "t1" "u1" role_admin 0; mkMember "t2" "u1" role_viewer 0] [a_session] (mkDb [] [] [] []).

Lemma one_forest : forest (t_sessions one_session).
Proof. split; [apply NoDup_singleton|]. by intros [|i] s p [= <-]. Qed.

Lemma guards_agree_witness :
  withAuthorizedRead hash one_session 20 (Some a_cookie) "team.albusforge.ai:443" = Ok ("t2", "u1", role_viewer) /\
  withAuthorizedWrite hash one_session 20 30 (Some a_cookie) "team.albusforge.ai:443" None = Err RoleRequired /\
  withSession hash one_session 20 (Some a_cookie) "team.albusforge.ai:443" = Ok ("t2", "u1").
Proof.
  assert (E : withAuthorizedRead hash one_session 20 (Some a_cookie) "team.albusforge.ai:443" = Ok ("t2", "u1", role_viewer))
    by (vm_compute; reflexivity).
  split; [exact E|]. split; [vm_compute; reflexivity|].
  destruct (guards_agree hash one_session one_forest 20 30 (Some a_cookie) "team.albusforge.ai:443" None ltac:(lia)) as [H _].
  rewrite E in H. exact H.
Defined.

(** ** Two requests per ten milliseconds *)
Definition requests : list (string * Z) := [("a", 0); ("a", 4); ("b", 5); ("a", 6); ("a", 10); ("a", 11)].
Lemma take_sliding_window_witness :
  takes 2 10 new_limiter requests = [Some 0; Some 0; Some 0; Some 4; Some 0; Some 3] /\
  (length (List.filter (in_window 10 11) (log_of 2 10 no_hits requests "a")) <= 2)%nat.
Proof.
  split; [vm_compute; reflexivity|].
  refine (proj1 (proj2 (take_sliding_window 2 10 0 requests _ _)) "a" 11); [simpl; lia|lia].
Defined.

(** ** A call that fails on the network, then is answered *)
Definition intake_world (e : RunE) (n : nat) : RunA e * nat :=
  match e return RunA e * nat with
  | Turn _ _ => (match n with O => Some FailNetwork | _ => None end, S n)
  | Sleep _ => (tt, n)
  end.
Definition a_run := exec intake_world O (runOnce true INTAKE_TIMEOUT_MS INTAKE_RETRY_DELAY_MS 2).

Lemma runOnce_ends_witness :
  a_run.2 = Some (Completed 2) /\ calls_of a_run.1.1 = [(true, Some FailNetwork); (false, None)].
Proof.
  split; [vm_compute; reflexivity|].
  destruct (runOnce_ends true INTAKE_TIMEOUT_MS INTAKE_RETRY_DELAY_MS 2 _ _ (le_n 2)
              (exec_is_run intake_world (runOnce true INTAKE_TIMEOUT_MS INTAKE_RETRY_DELAY_MS 2) O)) as [_ (e & _ & H)].
  vm_compute in H. injection H as <-. vm_compute. reflexivity.
Defined.

(** ** A handle closed while a statement is in flight *)
Definition one_query : Handle := default createClientDb (query 7 createClientDb).
Definition fenced : Handle := (close 1000 0 one_query).2.
Definition rolled : Handle := rolled_back true (drained 10 (settle 7 fenced)).


Lemma rolled_run : handle_run createClientDb rolled.
Proof.
  apply run_step with (drained 10 (settle 7 fenced)); [|apply step_rolled_back].
  apply run_step with (settle 7 fenced); [|apply step_drained].
  apply run_step with fenced; [|apply step_settle]. apply run_step with one_query; [|apply step_close].
  apply run_step with createClientDb; [apply run_refl|by apply (step_query 7)].
Qed.

Lemma close_leaves_clean_witness : wire rolled = [Statement 7; Rollback] /\ inFlight rolled = [].
Proof.
  split; [vm_compute; reflexivity|]. apply (proj1 (close_leaves_clean rolled rolled_run)). vm_compute. reflexivity.
Defined.

(** ** A transaction whose connection fails after its commit *)
Definition lease_world (e : LeaseE) (n : nat) : LeaseA (X := unit) (T := nat) e * nat :=
  match e return LeaseA (X := unit) (T := nat) e * nat with
  | Checkout => (None, n)
  | ConnectionError => (if Nat.leb 3 n then Some tt else None, S n)
  | Statement_ _ => (None, n)
  | Body => (Value 5%nat, n)
  | CloseScoped _ => (None, n)
  | ReleaseClient _ => (tt, n)
  | OffError => (tt, n)
  end.
Definition a_lease := exec lease_world O (managedTransaction "BEGIN").

Lemma managedTransaction_leases_witness :
  a_lease.2 = Value 5%nat /\ released a_lease.1.1 = [true] /\ exists tl, a_lease.1.1 = committed "BEGIN" 5%nat ++ tl.
Proof.
  split; [vm_compute; reflexivity|]. split; [vm_compute; reflexivity|].
  exact (proj2 (managedTransaction_leases "BEGIN" _ _ (exec_is_run lease_world (managedTransaction "BEGIN") O)) 5%nat eq_refl).
Defined.
